(* ===== verification/_CoqProject ===== *)
-Q . S2P
Prelude.v
Types.v
CLib.v
Errors.v
Tools.v
Vector.v
VectorSpec.v
VectorDiff.v
Items.v
Comp.v
Stdio.v
ScanFields.v
ToolsExt.v
Fill.v
Single.v
Cpu.v
Globals.v
ToolsSys.v
Disk.v
Network.v
NetworkSys.v
DiskSys.v
Easy.v
Process.v
ProcessSys.v
UserHost.v
HostSys.v
Win32.v
SingleSys.v
Program.v
Trace.v
Demo.v
Ownership.v
VectorProps.v
DiskProps.v
ToolsProps.v
CounterProps.v
StatTextProps.v
GlobalsProps.v
LifeCycle.v
ProcessProps.v
UserHostProps.v
Win32Props.v
NetworkProps.v
FsProps.v
SystemProps.v
DiskListProps.v
MappingProps.v
ProcTextProps.v
ProcListProps.v
ProcSysProps.v
Statgrab.v
StatgrabProps.v
StatgrabTable.v
StatgrabRun.v
Saidar.v
SaidarProps.v
TestLib.v
TestThreads.v
TestProps.v
TestSingleProps.v
Examples.v
ExamplesProps.v
Startup.v
Commands.v
