(* ===== verification/Prelude.v ===== *)
(** * A verification of libstatgrab, of the commands statgrab and saidar, of its examples and tests

    libstatgrab reads the statistics of the operating system (processor, memory,
    load, swap, paging, file systems, disks, network, processes, users, host) and
    hands them to its callers as arrays of plain structures. The sources are under
    src/src/libstatgrab/; src/src/statgrab/ is a command that prints the
    statistics and src/src/saidar/ one that shows them on a screen; src/examples/
    has small programs and src/tests/ drivers that call the library from one or
    many threads. This library models them as functions and proves what their
    callers rely on.

    ** The program and its parts

    - error.c keeps the last error of each thread (code, errno, argument);
    - tools.c has the string, memory, line and number helpers;
    - vector.c has the growable arrays in which all statistics live; a vector
      carries the functions that initialise, copy, compare, subtract and destroy
      its items;
    - globals.c registers the components, lays out the storage each thread has for
      them and keeps the named mutexes;
    - globals.h has the macros that generate the public functions of a component
      from its gathering function: get, get into a new vector, difference to the
      last snapshot, difference of two given snapshots;
    - <component>_stats.c and os_info.c have the gathering functions (their names
      end in [_int]), which read files of the kernel or make system calls;
    - statgrab.c collects the results in a table of named values, and selects and
      prints the entries named on the command line;
    - saidar.c fetches them every few seconds and draws them with curses;
    - the programs of src/examples/ print the results of one or two functions,
      once or until a key is pressed;
    - the drivers of src/tests/ call the functions that a list names, in a loop or
      with a thread for each call, and exit with the number of failed calls.

    A public call runs: macro of globals.h, thread storage of globals.c, gathering
    function of the component, which resizes the vector of vector.c and fills its
    items with the helpers of tools.c; errors are recorded by error.c.

    ** How code is modelled

    A w-bit integer is a [Z] whose wrap-around is written out ([wrap], [swrap]).
    Stateful code is a function in the monad [M S]: it ends [Done] with a value and
    a state, or [Stuck] at a [fault], a behaviour C does not define or an
    endless wait. [wp m Q s] is total: it says that [m] is not stuck and that [Q]
    holds of what it leaves. Every theorem stated with [wp] therefore excludes
    use after free, double free, access past a block, use of wild pointers,
    failing assertions, deadlock and exhausted fuel.

    The allocator is part of the state ([env]): an arbitrary list of answers, so
    that a theorem about all states covers every pattern of failing allocations.
    [char *] fields are NULL, wild, released or an owned text ([char_ptr] of Types.v):
    the model has no sharing of strings. Ownership.v has the fields as pointers into
    a store of blocks and justifies this for the functions that copy items. Vectors live in a heap ([world] of Vector.v) of blocks with a capacity.
    What uninitialised memory reads as is a parameter ([Memory] of Items.v), and
    so are the files and clock of the machine ([System] of Stdio.v), strerror_r,
    paths, users and the C library's other calls into the kernel, and what the
    calls of the logging path do to errno ([externals] of Trace.v).

    ** Files

    Shared:
    - Prelude.v: machine integers, the monad, [wp], automation, generic lemmas.
    - Types.v: statgrab.h.in, the error codes and structures.
    - CLib.v: strings with terminators, strcmp and friends, strlcpy, strlcat and
      sg_strnlen of tools.c, qsort and bsearch.
    - Stdio.v: fopen, fgets and sscanf with its format strings, and the
      round trip between printed and scanned numbers; ScanFields.v: lines of
      several numbers and literal text.
    - Demo.v: a concrete machine on which the theorems are run.

    The library:
    - Errors.v: error.c and error.h. Trace.v: trace.h, the macros of error.h in the
      builds with a logger, and the page size of tools.h.
    - Tools.v, ToolsExt.v: tools.c and tools.h. ToolsSys.v: the names of the disks
      on Solaris and the start of the library there.
    - Vector.v: vector.c and vector.h. The functions stored in a vector are called
      through the class [ItemOps]; VectorSpec.v states what they must guarantee as
      the class [ItemLaws], the representation invariant of the heap, and
      the contract of each vector operation for any instance; VectorDiff.v does
      the same for the difference of two snapshots.
    - Items.v: the item functions of disk_stats.c, network_stats.c, user_stats.c,
      process_stats.c and os_info.c, which are the instances of [ItemOps] and
      [ItemLaws]. Ownership.v: the copy functions and the copy loop of vector.c
      with strings as blocks of memory.
    - Globals.v: globals.c with POSIX threads, sg_init and sg_shutdown.
    - Comp.v: the access macros of globals.h for any component. Easy.v has the
      rules for the components with one structure.
    - Fill.v: the loop of VECTOR_UPDATE and item filling that most gathering
      functions share.

    The components, each with a file for Linux and one for the other systems:
    - Single.v, SingleSys.v: load_stats.c, memory_stats.c, swap_stats.c,
      page_stats.c. Cpu.v (and SingleSys.v): cpu_stats.c.
    - Disk.v, DiskSys.v: disk_stats.c. Network.v, NetworkSys.v: network_stats.c.
      Process.v, ProcessSys.v: process_stats.c. UserHost.v, HostSys.v (and
      SingleSys.v for the users): user_stats.c and os_info.c.
    - Win32.v: win32.c and win32.h, over what the performance counters answer.
    What a system call of another system delivers (a structure, a list, an error
    number) is an argument of the definition that models the branch.

    The programs:
    - Statgrab.v: statgrab.c; the library is a record of what it returns.
    - Saidar.v: saidar.c; a display function is the sequence of its curses calls,
      the main loop is a machine whose steps are separated by the places where a
      signal can arrive.
    - Program.v: programs that print and exit (the monad [X S], with [xp] in the
      place of [wp]), and the error messages of src/tests/testlib/err.c.
      Commands.v: the help, messages and exit codes of statgrab.c and saidar.c.
      Startup.v: sg_log_init of tools.c, the functions that initialise the
      components, the storage of builds without threads, DllMain with threads.
    - TestLib.v: routines.c and opt.c of src/tests/testlib/ and the drivers of
      src/tests/single_threaded/. TestThreads.v: those of
      src/tests/multi_threaded/ as a machine: a state has the place where each
      thread is, the mutex, the flag, the counter and the table; a step is what one
      thread does up to the next call of the thread library, chosen by a scheduler,
      and waits can end without a signal.
    - Examples.v: src/examples/; the functions of the library are the record
      [api], and what happens while a program waits is a [round].

    The theorems, each followed by a run on concrete data where it has hypotheses:
    VectorProps.v, DiskProps.v, FsProps.v, NetworkProps.v, CounterProps.v,
    StatTextProps.v (processor, paging and swap from the texts of the kernel),
    ProcessProps.v, ProcTextProps.v, ProcListProps.v, ProcSysProps.v (the process
    lists of the other systems), UserHostProps.v, SystemProps.v (swap areas and users
    of other systems), DiskListProps.v (the disks of HP-UX), MappingProps.v (disk
    names on Solaris), ToolsProps.v, GlobalsProps.v, LifeCycle.v, Win32Props.v,
    StatgrabProps.v, StatgrabTable.v (what the command is to show, and that its sections
    add it), StatgrabRun.v (a whole run of the command), SaidarProps.v, TestProps.v,
    TestSingleProps.v, ExamplesProps.v
    (and those of Trace.v, Startup.v and Commands.v at their ends).

    ** What the theorems show

    - Vectors: every operation keeps the representation invariant, and is
      described on every branch, with failing allocations; new items are fresh, and
      those a shorter vector loses are destroyed; a copy shares no string with its
      source, and one that fails leaves no string behind; [sg_vector_compute_diff] refines the specification that
      pairs items by name, while an existing destination of another size meets no
      failing allocation. Two theorems exhibit the states in which the code
      breaks its contract: a vector created for no item, and a clone of an empty
      snapshot.
    - Disks and file systems: from the columns of /proc/diskstats to the difference
      a caller gets, through scanning, vectors, macros and wrap-around
      arithmetic; the list of valid file-system types from the lines of
      /proc/filesystems, of whose names the first letters and digits count, and
      as set by a caller; the selection of mounts with its temporary list and
      bit set; used, free and available sizes add up but on Windows; the disks of
      HP-UX in batches.
    - Network: from the text of /proc/net/dev to the difference a caller gets;
      the loop of AIX that doubles its buffer ends, and the walk over the requests
      of different lengths in it finds all of them; items that are never filled on
      the BSDs, and the adapter that is written behind the block on Windows.
    - Counters: differences recover increments across overflow; memory and
      swap statistics are those of /proc/meminfo, processor and paging statistics
      those of /proc/stat and /proc/vmstat, whatever the order of the lines, also
      where a line is longer than the buffer; swap areas and devices are summed however the
      system delivers them.
    - Library: balanced calls of initialisation and destruction, none of which
      fails, refine a reference count; parts of
      the thread storage are disjoint, and cleaned up once each at the end; the
      mutex table is sorted and complete; required mutexes exclude. One theorem
      exhibits the mutex that deadlocks.
    - Processes: from the names in /proc and the texts of comm, stat, status and
      cmdline of every process to the list, with processes that end in between;
      the scan of a stat file whose name has white space and parentheses; counts
      form a partition. The lists of HP-UX, Solaris, AIX, NetBSD, FreeBSD and its
      relatives and Mac OS X have every process in order with its values, however
      the system delivers them, when no entry is skipped where the code keeps two
      indices and when the files of Solaris are read whole (what a failed read leaves
      in the structures is part of the model). Theorems exhibit an endless loop, a truncated command line, a lost
      process, a read behind a block, and processes with the names of others.
    - Users and host: user records, host names and uptime are those of the
      system; users in parts on Windows; word sizes by architecture name.
    - Windows counters: the calls of win32.c behave as a switch, with the handles
      well formed; two theorems exhibit a double release and a read through NULL.
    - Tools and errors: contracts of strlcpy, sg_update_string and
      sg_f_read_line, what is recorded is what is returned, messages fit their
      buffers, privileges are dropped safely; messages appear in each build as the
      macros promise, and logging an error leaves the error alone while memory
      lasts and the calls of the logging path leave errno alone; the Solaris disk names are found,
      with the overruns of the table and of the link buffer.
    - statgrab: names are built within the measured block; fetching only the
      sections the arguments name loses nothing; binary search with two scans
      prints exactly the entries an argument selects; byte counts are rounded;
      file-system lists are split and filtered as given. A run from the options, of
      which the last one about a setting counts, to the output prints the text of
      exactly the selected statistics of a table written down independently.
    - saidar: sizes and times fit their fields and mean what they show; no
      attribute stays set; the statistics on the screen are up to date; a resize
      is drawn within six steps, unless it comes between the start of a redraw and the
      reset of the flag, where it is lost.
    - Commands and start-up: the program around main of statgrab ends as main
      does or exits with 1 and a message; its help lists exactly the options that
      are accepted; the logger is configured from the first place of the search
      that can be used.
    - Tests: for every interleaving of the threads the mutex excludes, no call
      starts before all threads are there, the counters are exact and the exit
      status is the number of failed calls; from every state the drivers can end.
      The same numbers for the drivers with one thread, from the command line to
      the exit status.
    - Examples: the screen of network_traffic has every interface and the sums.
      Lemmas exhibit the signal handler that is never installed, the key that is
      read into memory nobody set, and the search in a list nobody sorted.

    ** Fuel

    Loops over a string or a buffer have its length (plus one where the end is a
    step of its own) as fuel, and consume a character in each step: lines of a
    file ([lines_fuel], [read_line_loop]), format strings, [split_loop],
    [adjust_loop], [comm_jmp_loop], the loops of strlcpy and strlcat.
    [bsearch_loop] has one step more than there are elements, and its range
    shrinks in each. [shift_loop] has the 33 shifts a 32-bit value allows.
    [process_fuel] is one step per process id, per page and for the end, which
    [process_list_complete] shows to be enough. [resolve] has three rounds:
    realpath delivers a path that is no link, which ends the second.
    [BIT_SCAN_FWD] has one step per bit of the array and one more. [tls_fuel] is
    three: a lookup, the report of its failure, and that report's own lookup.
    [destroy_main_loop] has two: one for the storage, one to see that it is gone.
    [ifconf_loop] has 32, since the size it doubles is an int; the sysinfo loop two.
    The loops whose number of rounds the system decides take the fuel as an
    argument: [hpux_swap_loop], [xswdev_loop], [hpux_batches] and [hpux_processes],
    which are shown to end with one more than there are entries, and [kinfo2_title],
    which ends with two when the system names the size it needs; [ifreq_walk] has the
    length of the buffer, since every request has a byte; [solaris_swap_loop], [user_stats_win32] and
    [sysctl_processes] recurse over the list of answers; [watch] and [read_loop] of the
    examples over the rounds and the results of read that are given. Loops that would go on
    are stuck with [out_of_fuel], which [wp] excludes; where the code does not
    terminate this is stated for any amount of fuel.

    ** What is not modelled

    What log4cplus does with its properties and messages; the declarations and
    includes of tools.h and the code between #if 0 and #endif; the branches of globals.c for Windows threads, one of
    which does not compile; the parsing inside getopt; the computation inside
    curses and the Windows performance counters; failing calls of the thread
    library in the test drivers, which end them; the scripts of src/tests/ that
    run the drivers.

    ** What could follow

    Runs of statgrab that repeat, and the examples over the functions of the library
    themselves. *)

From stdpp Require Export base gmap list strings sorting numbers pretty.
From Stdlib Require Export ZArith Lia Ascii.

Declare Scope sg_scope.
Delimit Scope sg_scope with sg.

Open Scope Z_scope.

(** * Machine integers

    A [w]-bit C integer is a [Z]; every arithmetic operation of the source is
    followed by the wrap-around of its type. *)

Definition wrap (w z : Z) : Z := z mod 2 ^ w.
Definition swrap (w z : Z) : Z := (z + 2 ^ (w - 1)) mod 2 ^ w - 2 ^ (w - 1).

Abbreviation u32 := (wrap 32).
Abbreviation u64 := (wrap 64).
Abbreviation s32 := (swrap 32).
Abbreviation s64 := (swrap 64).

Notation "x +u y" := (wrap 64 (x + y)) (at level 50, left associativity) : sg_scope.
Notation "x -u y" := (wrap 64 (x - y)) (at level 50, left associativity) : sg_scope.
Notation "x *u y" := (wrap 64 (x * y)) (at level 40, left associativity) : sg_scope.

Definition in_u64 (z : Z) : Prop := 0 <= z < 2 ^ 64.
Definition in_s64 (z : Z) : Prop := - 2 ^ 63 <= z < 2 ^ 63.
Definition in_u32 (z : Z) : Prop := 0 <= z < 2 ^ 32.
Definition in_s32 (z : Z) : Prop := - 2 ^ 31 <= z < 2 ^ 31.

#[export] Instance in_u64_dec z : Decision (in_u64 z).
Proof. unfold in_u64; apply _. Defined.
#[export] Instance in_s64_dec z : Decision (in_s64 z).
Proof. unfold in_s64; apply _. Defined.
#[export] Instance in_s32_dec z : Decision (in_s32 z).
Proof. unfold in_s32; apply _. Defined.

Lemma wrap_small w z : 0 <= z < 2 ^ w -> wrap w z = z.
Proof. apply Z.mod_small. Qed.

Lemma wrap_range w z : 0 <= w -> 0 <= wrap w z < 2 ^ w.
Proof. intros Hw; apply Z.mod_pos_bound; lia. Qed.

Lemma u64_range z : in_u64 (u64 z).
Proof. apply wrap_range; lia. Qed.

Lemma swrap_small w z :
  0 < w -> - 2 ^ (w - 1) <= z < 2 ^ (w - 1) -> swrap w z = z.
Proof.
  intros Hw Hz. unfold swrap.
  assert (2 ^ w = 2 * 2 ^ (w - 1)) as E.
  { rewrite <- Z.pow_succ_r by lia. f_equal; lia. }
  rewrite Z.mod_small; lia.
Qed.

Lemma swrap_range w z :
  0 < w -> - 2 ^ (w - 1) <= swrap w z < 2 ^ (w - 1).
Proof.
  intros Hw. unfold swrap.
  assert (2 ^ w = 2 * 2 ^ (w - 1)) as E.
  { rewrite <- Z.pow_succ_r by lia. f_equal; lia. }
  pose proof (Z.mod_pos_bound (z + 2 ^ (w - 1)) (2 ^ w)) as B. lia.
Qed.

(** Wrap-around subtraction recovers the increment of a counter that was
    advanced by [d], whatever the number of times it wrapped. *)
Lemma wrap_sub_add w x d :
  0 <= w -> 0 <= d < 2 ^ w -> wrap w (wrap w (x + d) - x) = d.
Proof.
  intros Hw Hd. unfold wrap. rewrite Zminus_mod_idemp_l.
  replace (x + d - x) with d by lia. by apply Z.mod_small.
Qed.

Lemma wrap_add_wrap w x y : wrap w (wrap w x + wrap w y) = wrap w (x + y).
Proof. unfold wrap. by rewrite Zplus_mod_idemp_l, Zplus_mod_idemp_r. Qed.

Lemma wrap_mul_wrap w x y : wrap w (wrap w x * y) = wrap w (x * y).
Proof. unfold wrap. by rewrite Zmult_mod_idemp_l. Qed.

Lemma wrap_wrap_sub w x y : wrap w (wrap w x - wrap w y) = wrap w (x - y).
Proof. unfold wrap. by rewrite Zminus_mod_idemp_l, Zminus_mod_idemp_r. Qed.

(** * Faults and the state-and-fault monad

    An operation of the C code either finishes in a state ([Done]) or does
    something the C language gives no meaning to, or that ends the process
    ([Stuck]). *)

Inductive fault :=
| use_after_free      (* access to a freed block *)
| double_free         (* free of a freed block *)
| out_of_bounds       (* access past the end of a block *)
| null_deref          (* access through NULL *)
| wild_pointer        (* use of an uninitialised pointer *)
| assert_failed       (* a failing assert() *)
| process_abort       (* abort() or exit() *)
| undefined_op        (* an operation without a defined result *)
| deadlock            (* a lock that is never given back *)
| out_of_fuel.        (* the model's recursion bound was reached *)

#[export] Instance fault_eq_dec : EqDecision fault.
Proof. solve_decision. Defined.

Inductive outcome (S A : Type) : Type :=
| Done (a : A) (s : S)
| Stuck (f : fault).
Arguments Done {S A} a s.
Arguments Stuck {S A} f.

Definition M (S A : Type) : Type := S -> outcome S A.

#[export] Instance M_ret {S} : MRet (M S) := fun A a s => Done a s.
#[export] Instance M_bind {S} : MBind (M S) := fun A B f m s =>
  match m s with
  | Done a s' => f a s'
  | Stuck e => Stuck e
  end.

Definition gets {S A} (f : S -> A) : M S A := fun s => Done (f s) s.
Definition modify {S} (f : S -> S) : M S unit := fun s => Done tt (f s).
Definition stuck {S A} (e : fault) : M S A := fun _ => Stuck e.
(** [assert(b)] of a build without NDEBUG. *)
Definition assert_ {S} (b : bool) : M S unit :=
  if b then mret tt else stuck assert_failed.

(** ** Total-correctness predicate: [m] runs to completion from [s] and its
    result satisfies [Q]. *)
Definition wp {S A} (m : M S A) (Q : A -> S -> Prop) (s : S) : Prop :=
  match m s with
  | Done a s' => Q a s'
  | Stuck _ => False
  end.

Section wp.
Context {S A B : Type}.
Implicit Types (m : M S A) (f : A -> M S B) (s : S).

Lemma wp_ret (a : A) Q s : Q a s -> wp (mret a) Q s.
Proof. done. Qed.

Lemma wp_bind m f Q s :
  wp m (fun a => wp (f a) Q) s -> wp (m ≫= f) Q s.
Proof. unfold wp, mbind, M_bind. by destruct (m s). Qed.

Lemma wp_mono m (Q Q' : A -> S -> Prop) s :
  wp m Q s -> (forall a s', Q a s' -> Q' a s') -> wp m Q' s.
Proof. unfold wp. destruct (m s); auto. Qed.

Lemma wp_gets (g : S -> A) Q s : Q (g s) s -> wp (gets g) Q s.
Proof. done. Qed.

Lemma wp_done m Q s a s' : m s = Done a s' -> Q a s' -> wp m Q s.
Proof. unfold wp. by intros ->. Qed.

Lemma wp_inv m Q s : wp m Q s -> exists a s', m s = Done a s' /\ Q a s'.
Proof. unfold wp. destruct (m s); [eauto | done]. Qed.

Lemma wp_conj m (Q Q' : A -> S -> Prop) s :
  wp m Q s -> wp m Q' s -> wp m (fun a s' => Q a s' /\ Q' a s') s.
Proof. unfold wp. destruct (m s); auto. Qed.
End wp.

Lemma wp_modify {S} (g : S -> S) (Q : unit -> S -> Prop) s :
  Q tt (g s) -> wp (modify g) Q s.
Proof. done. Qed.

Lemma wp_assert {S} (b : bool) (Q : unit -> S -> Prop) s :
  b = true -> Q tt s -> wp (assert_ b) Q s.
Proof. by intros ->. Qed.

(** Running a computation on a part of the state. *)
Definition zoom {S T A} (get : S -> T) (put : T -> S -> S) (m : M T A) : M S A :=
  fun s => match m (get s) with
           | Done a t => Done a (put t s)
           | Stuck e => Stuck e
           end.

Lemma wp_zoom {S T A} (get : S -> T) (put : T -> S -> S) (m : M T A) Q s :
  wp m (fun a t => Q a (put t s)) (get s) -> wp (zoom get put m) Q s.
Proof. unfold wp, zoom. by destruct (m (get s)). Qed.

(** ** Filters *)

Section filter.
Context {A : Type} (P : A -> Prop) `{!forall x, Decision (P x)}.

Lemma filter_none (l : list A) : Forall (fun x => ~ P x) l -> filter P l = [].
Proof. induction 1; [done|]. by rewrite filter_cons_False. Qed.

Lemma filter_every (l : list A) : Forall P l -> filter P l = l.
Proof. induction 1; [done|]. rewrite filter_cons_True by done. by f_equal. Qed.

Lemma StronglySorted_filter (R : relation A) (l : list A) :
  StronglySorted R l -> StronglySorted R (filter P l).
Proof.
  induction 1 as [|x l Hs IH Hx]; [constructor|]. destruct (decide (P x)).
  - rewrite filter_cons_True by done. constructor; [done|].
    rewrite Forall_forall in *. intros y [_ Hy]%list_elem_of_filter. auto.
  - by rewrite filter_cons_False.
Qed.
End filter.

(** A table in the order of its indices, read in pieces: the entries from an index on, and what is left of them after
    a piece. *)
Section table.
Context {A : Type} (idx : A -> Z).

Definition from_index (i : Z) (l : list A) : list A := filter (fun x => i <= idx x) l.

Lemma from_index_later l i j : i <= j -> from_index j (from_index i l) = from_index j l.
Proof. intros Hij. unfold from_index. rewrite list_filter_filter. apply list_filter_iff. intros s. lia. Qed.

Lemma from_index_after l : forall n x,
  StronglySorted (fun a b => idx a < idx b) l -> last (take n l) = Some x -> from_index (idx x + 1) l = drop n l.
Proof.
  unfold from_index. induction l as [|x l IH]; intros [|n] y Hs Hl; try done.
  apply StronglySorted_inv in Hs as [Hs Hx]. cbn [take drop] in *. destruct (take n l) as [|z l'] eqn:Et.
  - injection Hl as <-. rewrite filter_cons_False by lia.
    assert (drop n l = l) as -> by (by destruct n, l).
    apply filter_every. eapply Forall_impl; [done|]. cbn. lia.
  - change (last (x :: z :: l')) with (last (z :: l')) in Hl. rewrite <- Et in Hl. rewrite filter_cons_False; [by apply IH|].
    assert (y ∈ l) as Hin.
    { apply (elem_of_subseteq (take n l)); [|by apply last_Some_elem_of].
      intros u Hu. by apply elem_of_take in Hu as (? & ? & _); eapply list_elem_of_lookup_2. }
    rewrite Forall_forall in Hx. specialize (Hx _ Hin). lia.
Qed.
End table.

Create HintDb sg.
Create Rewrite HintDb sg.
#[export] Hint Resolve wp_ret wp_gets wp_modify u64_range : sg.

(** One step of symbolic execution of a monadic goal. *)
Ltac wp_step :=
  lazymatch goal with
  | |- wp (_ ≫= _) _ _ => apply wp_bind
  | |- wp (mret _) _ _ => apply wp_ret
  | |- wp (gets _) _ _ => apply wp_gets
  | |- wp (modify _) _ _ => apply wp_modify
  | |- wp (assert_ _) _ _ => apply wp_assert
  | |- wp (if ?b then _ else _) _ _ => let E := fresh "E" in destruct b eqn:E
  | |- wp (match ?o with Some _ => _ | None => _ end) _ _ =>
      let E := fresh "E" in destruct o eqn:E
  end.
Ltac wp_steps := repeat (wp_step; simpl).
