(* ===== verification/Types.v ===== *)
(** The data of src/src/libstatgrab/statgrab.h.in: error codes and the
    structures the library hands to its callers, the items a vector can hold
    and the life cycle of the [char *] fields they own. *)

From Stdlib Require Export SpecFloat.
From S2P Require Import Prelude.

(** * Error codes *)

Inductive sg_error :=
| SG_ERROR_NONE
| SG_ERROR_INVALID_ARGUMENT
| SG_ERROR_ASPRINTF
| SG_ERROR_SPRINTF
| SG_ERROR_DEVICES
| SG_ERROR_DEVSTAT_GETDEVS
| SG_ERROR_DEVSTAT_SELECTDEVS
| SG_ERROR_DISKINFO
| SG_ERROR_ENOENT
| SG_ERROR_GETIFADDRS
| SG_ERROR_GETMNTINFO
| SG_ERROR_GETPAGESIZE
| SG_ERROR_HOST
| SG_ERROR_KSTAT_DATA_LOOKUP
| SG_ERROR_KSTAT_LOOKUP
| SG_ERROR_KSTAT_OPEN
| SG_ERROR_KSTAT_READ
| SG_ERROR_KVM_GETSWAPINFO
| SG_ERROR_KVM_OPENFILES
| SG_ERROR_MALLOC
| SG_ERROR_MEMSTATUS
| SG_ERROR_OPEN
| SG_ERROR_OPENDIR
| SG_ERROR_READDIR
| SG_ERROR_PARSE
| SG_ERROR_PDHADD
| SG_ERROR_PDHCOLLECT
| SG_ERROR_PDHOPEN
| SG_ERROR_PDHREAD
| SG_ERROR_PERMISSION
| SG_ERROR_PSTAT
| SG_ERROR_SETEGID
| SG_ERROR_SETEUID
| SG_ERROR_SETMNTENT
| SG_ERROR_SOCKET
| SG_ERROR_SWAPCTL
| SG_ERROR_SYSCONF
| SG_ERROR_SYSCTL
| SG_ERROR_SYSCTLBYNAME
| SG_ERROR_SYSCTLNAMETOMIB
| SG_ERROR_SYSINFO
| SG_ERROR_MACHCALL
| SG_ERROR_IOKIT
| SG_ERROR_UNAME
| SG_ERROR_UNSUPPORTED
| SG_ERROR_XSW_VER_MISMATCH
| SG_ERROR_GETMSG
| SG_ERROR_PUTMSG
| SG_ERROR_INITIALISATION
| SG_ERROR_MUTEX_LOCK
| SG_ERROR_MUTEX_UNLOCK.

#[export] Instance sg_error_eq_dec : EqDecision sg_error.
Proof. solve_decision. Defined.

(** * Owned [char *] fields

    Every [char *] field of a statistics structure is owned by that structure:
    the library fills it with [sg_update_string] (which copies the text) and
    releases it with [free]; no two structures share a string. So a field is
    its text together with the state of the block that holds it. Sharing cannot
    be expressed this way; Ownership.v has the fields as pointers into a store of
    blocks and shows that the copy functions and the copy loop of the vectors
    keep every block owned by one field, lose none, and do to the texts what
    the definitions on values do. *)

Inductive char_ptr :=
| CNull                    (* NULL *)
| CStr (s : string)        (* a live block holding [s] and its terminator *)
| CDangling                (* freed, the pointer still stored *)
| CWild.                   (* uninitialised memory *)

#[export] Instance char_ptr_eq_dec : EqDecision char_ptr.
Proof. solve_decision. Defined.

(** A pointer that [free] and [realloc] accept. *)
Definition ptr_live (p : char_ptr) : bool :=
  match p with CNull | CStr _ => true | _ => false end.

(** [free(p)] leaves the pointer stored in its field. *)
Definition free_ptr {S} (p : char_ptr) : M S char_ptr :=
  match p with
  | CNull => mret CNull
  | CStr _ => mret CDangling
  | CDangling => stuck double_free
  | CWild => stuck wild_pointer
  end.

(** The text a [char *] points to. *)
Definition read_ptr {S} (p : char_ptr) : M S string :=
  match p with
  | CStr s => mret s
  | CNull => stuck null_deref
  | CDangling => stuck use_after_free
  | CWild => stuck wild_pointer
  end.

Lemma wp_free_ptr {S} p (Q : char_ptr -> S -> Prop) s :
  ptr_live p = true ->
  (forall p', p' = CNull \/ p' = CDangling -> Q p' s) -> wp (free_ptr p) Q s.
Proof. destruct p; simpl; intros ? HQ; try done; apply wp_ret, HQ; auto. Qed.

(** * The statistics structures *)

Definition time_t : Type := Z.

Inductive sg_host_state :=
| sg_unknown_configuration
| sg_physical_host
| sg_virtual_machine
| sg_paravirtual_machine
| sg_hardware_virtualized.

Record sg_cpu_stats := mk_cpu_stats {
  cpu_user : Z; cpu_kernel : Z; cpu_idle : Z; cpu_iowait : Z;
  cpu_swap : Z; cpu_nice : Z; cpu_total : Z;
  cpu_context_switches : Z;
  cpu_voluntary_context_switches : Z;
  cpu_involuntary_context_switches : Z;
  cpu_syscalls : Z; cpu_interrupts : Z; cpu_soft_interrupts : Z;
  cpu_systime : time_t }.

Inductive sg_cpu_percent_source :=
| sg_entire_cpu_percent
| sg_last_diff_cpu_percent
| sg_new_diff_cpu_percent.

(** A C [double]: an IEEE 754 binary64 number. *)
Definition double : Type := spec_float.

Record sg_cpu_percents := mk_cpu_percents {
  pct_user : double; pct_kernel : double; pct_idle : double;
  pct_iowait : double; pct_swap : double; pct_nice : double;
  pct_time_taken : time_t }.

Record sg_load_stats := mk_load_stats {
  load_min1 : double; load_min5 : double; load_min15 : double;
  load_systime : time_t }.

Record sg_mem_stats := mk_mem_stats {
  mem_total : Z; mem_free : Z; mem_used : Z; mem_cache : Z;
  mem_systime : time_t }.

Record sg_swap_stats := mk_swap_stats {
  swap_total : Z; swap_used : Z; swap_free : Z; swap_systime : time_t }.

Record sg_page_stats := mk_page_stats {
  pages_pagein : Z; pages_pageout : Z; page_systime : time_t }.

Record sg_user_stats := mk_user_stats {
  usr_login_name : char_ptr; usr_record_id : char_ptr;
  usr_record_id_size : Z; usr_device : char_ptr; usr_hostname : char_ptr;
  usr_pid : Z; usr_login_time : time_t; usr_systime : time_t }.

Record sg_fs_stats := mk_fs_stats {
  fs_device_name : char_ptr; fs_device_canonical : char_ptr;
  fs_fs_type : char_ptr; fs_mnt_point : char_ptr; fs_device_type : Z;
  fs_size : Z; fs_used : Z; fs_free : Z; fs_avail : Z;
  fs_total_inodes : Z; fs_used_inodes : Z; fs_free_inodes : Z;
  fs_avail_inodes : Z; fs_io_size : Z; fs_block_size : Z;
  fs_total_blocks : Z; fs_free_blocks : Z; fs_used_blocks : Z;
  fs_avail_blocks : Z; fs_systime : time_t }.

Record sg_disk_io_stats := mk_disk_io_stats {
  dio_disk_name : char_ptr; dio_read_bytes : Z; dio_write_bytes : Z;
  dio_systime : time_t }.

Record sg_network_io_stats := mk_network_io_stats {
  nio_interface_name : char_ptr; nio_tx : Z; nio_rx : Z; nio_ipackets : Z;
  nio_opackets : Z; nio_ierrors : Z; nio_oerrors : Z; nio_collisions : Z;
  nio_systime : time_t }.

Inductive sg_iface_duplex :=
| SG_IFACE_DUPLEX_FULL | SG_IFACE_DUPLEX_HALF | SG_IFACE_DUPLEX_UNKNOWN.

Inductive sg_iface_updown := SG_IFACE_DOWN | SG_IFACE_UP.

Record sg_network_iface_stats := mk_network_iface_stats {
  nif_interface_name : char_ptr; nif_speed : Z; nif_factor : Z;
  nif_duplex : sg_iface_duplex; nif_up : sg_iface_updown;
  nif_systime : time_t }.

Inductive sg_process_state :=
| SG_PROCESS_STATE_RUNNING | SG_PROCESS_STATE_SLEEPING
| SG_PROCESS_STATE_STOPPED | SG_PROCESS_STATE_ZOMBIE
| SG_PROCESS_STATE_UNKNOWN.

Record sg_process_stats := mk_process_stats {
  ps_process_name : char_ptr; ps_proctitle : char_ptr;
  ps_pid : Z; ps_parent : Z; ps_pgid : Z; ps_sessid : Z;
  ps_uid : Z; ps_euid : Z; ps_gid : Z; ps_egid : Z;
  ps_context_switches : Z; ps_voluntary_context_switches : Z;
  ps_involuntary_context_switches : Z;
  ps_proc_size : Z; ps_proc_resident : Z;
  ps_start_time : time_t; ps_time_spent : time_t;
  ps_cpu_percent : double; ps_nice : Z; ps_state : sg_process_state;
  ps_systime : time_t }.

Record sg_process_count := mk_process_count {
  pc_total : Z; pc_running : Z; pc_sleeping : Z; pc_stopped : Z;
  pc_zombie : Z; pc_unknown : Z; pc_systime : time_t }.

Record sg_host_info := mk_host_info {
  hi_os_name : char_ptr; hi_os_release : char_ptr; hi_os_version : char_ptr;
  hi_platform : char_ptr; hi_hostname : char_ptr; hi_bitwidth : Z;
  hi_host_state : sg_host_state; hi_ncpus : Z; hi_maxcpus : Z;
  hi_uptime : time_t; hi_systime : time_t }.

(** The structures a vector can hold; the tag also names the type in the
    [VECTOR_INIT_INFO] of vector.h. *)
Inductive kind :=
| Kcpu | Kcpu_percents | Kmem | Kload | Kuser | Kswap | Kfs | Kdisk_io
| Knetwork_io | Knetwork_iface | Kpage | Kprocess | Kprocess_count | Khost.

#[export] Instance kind_eq_dec : EqDecision kind.
Proof. solve_decision. Defined.

(** One slot of a vector; [IRaw] is memory nobody wrote yet. *)
Inductive item :=
| IRaw
| ICpu (s : sg_cpu_stats)
| ICpuPercents (s : sg_cpu_percents)
| IMem (s : sg_mem_stats)
| ILoad (s : sg_load_stats)
| IUser (s : sg_user_stats)
| ISwap (s : sg_swap_stats)
| IFs (s : sg_fs_stats)
| IDiskIo (s : sg_disk_io_stats)
| INetIo (s : sg_network_io_stats)
| INetIface (s : sg_network_iface_stats)
| IPage (s : sg_page_stats)
| IProcess (s : sg_process_stats)
| IProcessCount (s : sg_process_count)
| IHost (s : sg_host_info).

#[export] Instance sg_cpu_stats_eq_dec : EqDecision sg_cpu_stats.
Proof. solve_decision. Defined.
#[export] Instance sg_mem_stats_eq_dec : EqDecision sg_mem_stats.
Proof. solve_decision. Defined.
#[export] Instance sg_page_stats_eq_dec : EqDecision sg_page_stats.
Proof. solve_decision. Defined.
#[export] Instance sg_fs_stats_eq_dec : EqDecision sg_fs_stats.
Proof. solve_decision. Defined.
#[export] Instance sg_disk_io_stats_eq_dec : EqDecision sg_disk_io_stats.
Proof. solve_decision. Defined.
#[export] Instance sg_network_io_stats_eq_dec : EqDecision sg_network_io_stats.
Proof. solve_decision. Defined.
#[export] Instance sg_iface_duplex_eq_dec : EqDecision sg_iface_duplex.
Proof. solve_decision. Defined.
#[export] Instance sg_iface_updown_eq_dec : EqDecision sg_iface_updown.
Proof. solve_decision. Defined.
#[export] Instance sg_network_iface_stats_eq_dec : EqDecision sg_network_iface_stats.
Proof. solve_decision. Defined.
