(* ===== verification/CLib.v ===== *)
(** The C library functions the sources rely on: character buffers with a
    terminator, [strcmp] and friends, [qsort] and [bsearch]. *)

From S2P Require Import Prelude.

(** * Characters and strings *)

Definition NUL : ascii := "000"%char.

Definition no_nul (s : string) : bool :=
  bool_decide (NUL ∉ String.list_ascii_of_string s).

(** The bytes of a C string: the text and its terminator. *)
Definition c_str (s : string) : list ascii :=
  String.list_ascii_of_string s ++ [NUL].

(** The text a buffer holds, when it has a terminator. *)
Fixpoint until_nul (b : list ascii) : option (list ascii) :=
  match b with
  | [] => None
  | c :: b' => if decide (c = NUL) then Some [] else (c ::.) <$> until_nul b'
  end.

Definition text_of (b : list ascii) : option string :=
  String.string_of_list_ascii <$> until_nul b.

Lemma until_nul_app t rest : NUL ∉ t -> until_nul (t ++ NUL :: rest) = Some t.
Proof.
  induction t as [|c t IH]; [done|].
  intros [? ?]%not_elem_of_cons. cbn [until_nul app].
  rewrite decide_False by congruence. by rewrite IH.
Qed.

Lemma text_of_c_str s rest : no_nul s = true -> text_of (c_str s ++ rest) = Some s.
Proof.
  unfold no_nul, text_of, c_str. intros H%bool_decide_eq_true.
  rewrite <- app_assoc. simpl. rewrite until_nul_app by done. simpl.
  by rewrite String.string_of_list_ascii_of_string.
Qed.

(** [strcmp]: byte-wise lexicographic order; the sign of the result is all the
    sources use. *)
Definition byte_of (c : ascii) : Z := Z.of_N (N_of_ascii c).

Fixpoint strcmp (a b : string) : Z :=
  match a, b with
  | EmptyString, EmptyString => 0
  | EmptyString, String _ _ => -1
  | String _ _, EmptyString => 1
  | String x a', String y b' =>
      if byte_of x <? byte_of y then -1
      else if byte_of y <? byte_of x then 1
      else strcmp a' b'
  end.

Fixpoint strncmp (a b : string) (n : nat) {struct n} : Z :=
  match n with
  | O => 0
  | S n' =>
      match a, b with
      | EmptyString, EmptyString => 0
      | EmptyString, String _ _ => -1
      | String _ _, EmptyString => 1
      | String x a', String y b' =>
          if byte_of x <? byte_of y then -1
          else if byte_of y <? byte_of x then 1
          else strncmp a' b' n'
      end
  end.

(** [tolower] in the C locale. *)
Definition tolower (c : ascii) : ascii :=
  let z := byte_of c in
  if (65 <=? z) && (z <=? 90) then ascii_of_N (Z.to_N (z + 32)) else c.

Fixpoint map_string (f : ascii -> ascii) (s : string) : string :=
  match s with
  | EmptyString => EmptyString
  | String c s' => String (f c) (map_string f s')
  end.

Definition strcasecmp (a b : string) : Z :=
  strcmp (map_string tolower a) (map_string tolower b).

Lemma byte_of_inj x y : byte_of x = byte_of y -> x = y.
Proof.
  unfold byte_of. intros H%N2Z.inj.
  by rewrite <- (ascii_N_embedding x), <- (ascii_N_embedding y), H.
Qed.

Ltac cmp_cases :=
  repeat match goal with
  | |- context [?x <? ?y] => destruct (Z.ltb_spec x y)
  | H : context [?x <? ?y] |- _ => destruct (Z.ltb_spec x y)
  end.

Lemma strcmp_refl a : strcmp a a = 0.
Proof. induction a; simpl; [done|]. by rewrite Z.ltb_irrefl. Qed.

Lemma strcmp_eq a b : strcmp a b = 0 <-> a = b.
Proof.
  split; [|intros ->; apply strcmp_refl].
  revert b. induction a as [|x a IH]; intros [|y b]; simpl; try done.
  intros H. cmp_cases; try done. f_equal; [apply byte_of_inj; lia | auto].
Qed.

Lemma strcmp_antisym a b : strcmp b a = - strcmp a b.
Proof.
  revert b. induction a as [|x a IH]; intros [|y b]; simpl; try done.
  cmp_cases; try lia. apply IH.
Qed.

Lemma strcmp_le_trans a b c : strcmp a b <= 0 -> strcmp b c <= 0 -> strcmp a c <= 0.
Proof.
  revert b c. induction a as [|x a IH]; intros [|y b] [|z c]; simpl; try lia.
  intros. cmp_cases; try lia. eauto.
Qed.

Lemma strcmp_range a b : -1 <= strcmp a b <= 1.
Proof.
  revert b. induction a as [|x a IH]; intros [|y b]; simpl; try lia.
  cmp_cases; try lia. apply IH.
Qed.

(** [strncmp(k, s, strlen(k))] tests for the prefix [k]. *)
Lemma strncmp_prefix k s :
  strncmp k s (String.length k) = 0 <-> String.prefix k s = true.
Proof.
  revert s. induction k as [|x k IH]; intros s; [destruct s; simpl; by split|].
  destruct s as [|y s]; simpl; [by split|].
  destruct (Ascii.ascii_dec x y) as [->|Hne].
  - rewrite Z.ltb_irrefl. apply IH.
  - split; [|done]. intros H. cmp_cases; try done.
    exfalso. apply Hne, byte_of_inj. lia.
Qed.

Lemma string_length_app s t : String.length (s +:+ t) = (String.length s + String.length t)%nat.
Proof. induction s as [|c s IH]; [done|]. exact (f_equal S IH). Qed.

Lemma list_ascii_app s t :
  String.list_ascii_of_string (s +:+ t) = String.list_ascii_of_string s ++ String.list_ascii_of_string t.
Proof. induction s as [|c s IH]; [done|]. exact (f_equal (cons c) IH). Qed.

(** A bound behind the end of the first text compares the whole texts. *)
Lemma strncmp_whole a : forall b n, (String.length a < n)%nat -> strncmp a b n = 0 <-> a = b.
Proof.
  induction a as [|x a IH]; intros [|y b] [|n] Hn; simpl in *; try lia; try done.
  destruct (Z.ltb_spec (byte_of x) (byte_of y)), (Z.ltb_spec (byte_of y) (byte_of x)); try lia.
  1,2: split; [lia | intros [= -> ->]; lia].
  rewrite IH by lia. split; [|by intros [= -> ->]]. intros ->. f_equal. apply byte_of_inj. lia.
Qed.

Lemma strncmp_range k b n : -1 <= strncmp k b n <= 1.
Proof.
  revert k b. induction n as [|n IH]; intros k b; simpl; [lia|].
  destruct k, b; try lia. cmp_cases; try lia. apply IH.
Qed.

Lemma strncmp_sym a b n : strncmp a b n = 0 <-> strncmp b a n = 0.
Proof.
  revert a b. induction n as [|n IH]; intros [|x a] [|y b]; simpl; try done.
  specialize (IH a b). cmp_cases; try lia; done.
Qed.

(** Along an ascending array the comparison with a key never grows. *)
Lemma strncmp_mono k a b n : strcmp a b <= 0 -> strncmp k b n <= strncmp k a n.
Proof.
  revert k a b. induction n as [|n IH]; intros k a b; [simpl; lia|].
  destruct k as [|z k], a as [|x a], b as [|y b]; simpl; try lia;
    intros; cmp_cases; try lia; auto.
  all: match goal with
       | |- context [strncmp ?k ?b ?n] => pose proof (strncmp_range k b n); lia
       end.
Qed.

Lemma strcmp_mono k a b : strcmp a b <= 0 -> strcmp k b <= strcmp k a.
Proof.
  revert a b. induction k as [|z k IH]; intros a b;
    destruct a as [|x a], b as [|y b]; simpl; try lia; intros; cmp_cases; try lia; auto.
  all: match goal with
       | |- context [strcmp ?k ?b] => pose proof (strcmp_range k b); lia
       end.
Qed.

(** * [strlcpy], [strlcat] and [sg_strnlen] on buffers

    A buffer is the list of the bytes of its block; reading or writing past its
    end gives [None]. *)

Definition buf_read (b : list ascii) (i : nat) : option ascii := b !! i.
Definition buf_write (b : list ascii) (i : nat) (c : ascii) : option (list ascii) :=
  if decide (i < length b)%nat then Some (<[i := c]> b) else None.

(** [while( *s++ );] from index [s]: the index just behind the terminator. *)
Fixpoint skip_string (fuel : nat) (b : list ascii) (s : nat) : option nat :=
  match fuel with
  | O => None
  | S fuel' =>
      c ← buf_read b s;
      if decide (c = NUL) then Some (S s) else skip_string fuel' b (S s)
  end.

Definition strlen (b : list ascii) : option nat :=
  Nat.pred <$> skip_string (S (length b)) b 0.

(** [while(--n)] of strlcpy: the triple of [n], [d], [s] and the buffer where
    the loop is left. *)
Fixpoint strlcpy_loop (n d s : nat) (dst src : list ascii)
    : option (nat * nat * nat * list ascii) :=
  match n with
  | O => None
  | S O => Some (O, d, s, dst)
  | S n' =>
      c ← buf_read src s;
      dst' ← buf_write dst d c;
      if decide (c = NUL) then Some (n', S d, S s, dst')
      else strlcpy_loop n' (S d) (S s) dst' src
  end.

Definition strlcpy (dst src : list ascii) (siz : nat) : option (list ascii * nat) :=
  '(n, d, s, dst) ← (if decide (siz = O) then Some (O, O, O, dst)
                     else strlcpy_loop siz O O dst src);
  if decide (n = O) then
    dst' ← (if decide (siz = O) then Some dst else buf_write dst d NUL);
    s' ← skip_string (S (length src)) src s;
    Some (dst', Nat.pred s')
  else Some (dst, Nat.pred s).

(** [while (n-- && *d != '\0') d++;] of strlcat. *)
Fixpoint strlcat_end (n d : nat) (dst : list ascii) : option nat :=
  match n with
  | O => Some d
  | S n' =>
      c ← buf_read dst d;
      if decide (c = NUL) then Some d else strlcat_end n' (S d) dst
  end.

(** [while ( *s != '\0' )] of strlcat. *)
Fixpoint strlcat_loop (fuel n d s : nat) (dst src : list ascii)
    : option (nat * nat * list ascii) :=
  match fuel with
  | O => None
  | S fuel' =>
      c ← buf_read src s;
      if decide (c = NUL) then Some (d, s, dst)
      else if decide (n = 1%nat) then strlcat_loop fuel' n d (S s) dst src
      else dst' ← buf_write dst d c;
           strlcat_loop fuel' (Nat.pred n) (S d) (S s) dst' src
  end.

Definition strlcat (dst src : list ascii) (siz : nat) : option (list ascii * nat) :=
  dlen ← strlcat_end siz O dst;
  let n := (siz - dlen)%nat in
  if decide (n = O) then (fun l => (dst, (dlen + l)%nat)) <$> strlen src
  else
    '(d, s, dst) ← strlcat_loop (S (length src)) n dlen O dst src;
    dst' ← buf_write dst d NUL;
    Some (dst', (dlen + s)%nat).

(** [while( *s != '\0' )] of sg_strnlen. *)
Fixpoint strnlen_loop (fuel n maxlen : nat) (s : list ascii) : option nat :=
  match fuel with
  | O => None
  | S fuel' =>
      c ← buf_read s n;
      if decide (c = NUL) then Some n
      else if decide (maxlen = n) then Some n
      else strnlen_loop fuel' (S n) maxlen s
  end.

Definition sg_strnlen (s : list ascii) (maxlen : nat) : option nat :=
  if decide (maxlen = O) then Some O else strnlen_loop (S (length s)) O maxlen s.

(** ** What they compute *)

Lemma skip_string_spec t rest fuel s pre :
  NUL ∉ t -> s = length pre -> (length t < fuel)%nat ->
  skip_string fuel (pre ++ t ++ NUL :: rest) s = Some (S (s + length t)).
Proof.
  revert fuel s pre. induction t as [|c t IH]; intros fuel s pre Hn Hs Hf.
  - destruct fuel; [simpl in Hf; lia|]. cbn [skip_string]. unfold buf_read.
    rewrite lookup_app_r, Hs, Nat.sub_diag by lia. simpl. f_equal; lia.
  - destruct fuel as [|fuel]; [simpl in Hf; lia|].
    apply not_elem_of_cons in Hn as [Hc Hn]. cbn [skip_string]. unfold buf_read.
    rewrite lookup_app_r, Hs, Nat.sub_diag by lia.
    cbn [lookup list_lookup app option_bind mbind].
    rewrite decide_False by congruence.
    specialize (IH fuel (S (length pre)) (pre ++ [c])).
    rewrite <- app_assoc in IH. simpl in IH. simpl in Hf.
    rewrite IH by (rewrite ?length_app; simpl; try done; lia). simpl; f_equal; lia.
Qed.

Lemma strlen_spec t rest : NUL ∉ t -> strlen (t ++ NUL :: rest) = Some (length t).
Proof.
  intros H. unfold strlen.
  rewrite (skip_string_spec t rest _ O []) by (rewrite ?length_app; simpl; try done; lia).
  done.
Qed.

Lemma write_mid {A} (pre mid : list A) (x c : A) i :
  i = length pre -> <[i := c]> (pre ++ x :: mid) = pre ++ c :: mid.
Proof. intros ->. rewrite insert_app_r_alt by lia. by rewrite Nat.sub_diag. Qed.

Lemma strlcpy_loop_step n d s dst src :
  strlcpy_loop (S (S n)) d s dst src =
    (c ← buf_read src s;
     dst' ← buf_write dst d c;
     if decide (c = NUL) then Some (S n, S d, S s, dst')
     else strlcpy_loop (S n) (S d) (S s) dst' src).
Proof. reflexivity. Qed.

Lemma some_quad_eq {A B C D} (a a' : A) (b b' : B) (c c' : C) (d d' : D) :
  a = a' -> b = b' -> c = c' -> d = d' -> Some (a, b, c, d) = Some (a', b', c', d').
Proof. by intros -> -> -> ->. Qed.

(** The copy loop: [pre] is what was written, [t] what is left of the text. *)
Lemma strlcpy_loop_spec n : forall t pre spre old rest d s,
  NUL ∉ t -> d = length pre -> s = length spre -> (0 < n)%nat -> (n <= length old)%nat ->
  strlcpy_loop n d s (pre ++ old) (spre ++ t ++ NUL :: rest) =
    if decide (length t < n - 1)%nat
    then Some ((n - 1 - length t)%nat, S (d + length t), S (s + length t),
               pre ++ t ++ NUL :: drop (S (length t)) old)
    else Some (O, (d + (n - 1))%nat, (s + (n - 1))%nat,
               pre ++ take (n - 1) t ++ drop (n - 1) old).
Proof.
  induction n as [|n IH]; intros t pre spre old rest d s Hn Hd Hs Hpos Hlen; [lia|].
  destruct n as [|n].
  { cbn [strlcpy_loop]. rewrite decide_False by lia. rewrite Nat.sub_diag, drop_0.
    rewrite !Nat.add_0_r. done. }
  destruct old as [|o old]; [simpl in Hlen; lia|].
  assert (d < length (pre ++ o :: old))%nat by (rewrite length_app; simpl; lia).
  rewrite strlcpy_loop_step. unfold buf_read, buf_write.
  rewrite lookup_app_r, Hs, Nat.sub_diag by lia.
  destruct t as [|c t]; cbn [lookup list_lookup app option_bind mbind].
  - rewrite decide_True by done. cbn [option_bind mbind].
    rewrite write_mid, decide_True by done.
    rewrite decide_True by (simpl; lia). cbn [length drop]. rewrite drop_0.
    apply some_quad_eq; done || lia.
  - apply not_elem_of_cons in Hn as [Hc Hn].
    rewrite decide_True by done. cbn [option_bind mbind].
    rewrite write_mid by done. rewrite decide_False by congruence.
    specialize (IH t (pre ++ [c]) (spre ++ [c]) old rest (S d) (S s)).
    rewrite <- !app_assoc in IH. cbn [app] in IH. simpl in Hlen.
    rewrite <- Hs, IH by (rewrite ?length_app; simpl; try done; lia). clear IH.
    cbn [length].
    destruct (decide (length t < S n - 1)%nat).
    + rewrite decide_True by lia. cbn [drop]. apply some_quad_eq; done || lia.
    + rewrite decide_False by lia. replace (S (S n) - 1)%nat with (S (S n - 1)) by lia.
      cbn [take drop app]. apply some_quad_eq; done || lia.
Qed.

(** [strlcpy] copies as much of the text as fits, always terminates the
    destination and reports the length of the source. *)
Lemma strlcpy_spec t rest old siz :
  NUL ∉ t -> (0 < siz)%nat -> (siz <= length old)%nat ->
  exists tail, length tail = (length old - S (Nat.min (length t) (siz - 1)))%nat /\
    strlcpy old (t ++ NUL :: rest) siz =
      Some (take (siz - 1) t ++ NUL :: tail, length t).
Proof.
  intros Hn Hp Hl. unfold strlcpy. rewrite decide_False by lia.
  pose proof (strlcpy_loop_spec siz t [] [] old rest O O) as E.
  cbn [app length] in E. rewrite E by (done || lia). clear E.
  destruct (decide (length t < siz - 1)%nat).
  - cbn [option_bind mbind]. rewrite decide_False by lia.
    exists (drop (S (length t)) old). rewrite length_drop. split; [lia|].
    rewrite take_ge by lia. done.
  - cbn [option_bind mbind]. rewrite decide_True by done.
    rewrite decide_False by lia. unfold buf_write.
    rewrite decide_True
      by (rewrite length_app, length_take, length_drop; lia).
    destruct (drop (siz - 1) old) as [|o tail] eqn:Ed.
    { apply (f_equal length) in Ed. rewrite length_drop in Ed. simpl in Ed. lia. }
    rewrite write_mid by (rewrite length_take; lia). cbn [option_bind mbind].
    assert (length tail = length old - siz)%nat.
    { apply (f_equal length) in Ed. rewrite length_drop in Ed. simpl in Ed. lia. }
    exists tail. split; [lia|].
    rewrite <- (take_drop (siz - 1) t) at 2 3. rewrite <- app_assoc.
    rewrite (skip_string_spec (drop (siz - 1) t)).
    + cbn [option_bind mbind]. rewrite take_drop.
      rewrite length_drop. repeat f_equal; simpl; lia.
    + intros Hin. apply Hn. rewrite <- (take_drop (siz - 1) t).
      apply elem_of_app. auto.
    + rewrite length_take. lia.
    + rewrite !length_app, length_drop. simpl. lia.
Qed.

(** With room for the whole text [strlcpy] is a faithful copy. *)
Lemma strlcpy_fits s old rest :
  no_nul s = true -> (String.length s < length old)%nat ->
  (fun '(b, _) => text_of b) <$> strlcpy old (c_str s ++ rest) (length old) = Some (Some s).
Proof.
  intros Hn Hl. unfold c_str. rewrite <- app_assoc. cbn [app].
  assert (length (String.list_ascii_of_string s) = String.length s) as Hs.
  { clear. induction s; simpl; congruence. }
  apply bool_decide_eq_true in Hn as Hn'.
  destruct (strlcpy_spec (String.list_ascii_of_string s) rest old (length old))
    as (tail & _ & ->); [done | lia | lia |].
  simpl. f_equal. rewrite take_ge by lia.
  pose proof (text_of_c_str s tail Hn) as E. unfold c_str in E.
  by rewrite <- app_assoc in E.
Qed.

(** * [qsort] and [bsearch]

    [qsort] is modelled by merge sort (the standard leaves the order of equal
    elements open), [bsearch] by the usual halving loop; [cmp x] is the
    comparison of the key with [x]. *)

Section search.
Context {A : Type}.

Definition cmp_le (cmp : A -> A -> Z) (x y : A) : Prop := cmp x y <= 0.
#[export] Instance cmp_le_dec cmp x y : Decision (cmp_le cmp x y).
Proof. unfold cmp_le; apply _. Defined.

Definition qsort (cmp : A -> A -> Z) (l : list A) : list A :=
  merge_sort (cmp_le cmp) l.

Fixpoint bsearch_loop (fuel : nat) (cmp : A -> Z) (arr : list A) (l u : nat) : option nat :=
  match fuel with
  | O => None
  | S fuel' =>
      if (u <=? l)%nat then None
      else
        let idx := ((l + u) / 2)%nat in
        match arr !! idx with
        | None => None
        | Some x =>
            if cmp x <? 0 then bsearch_loop fuel' cmp arr l idx
            else if 0 <? cmp x then bsearch_loop fuel' cmp arr (S idx) u
            else Some idx
        end
  end.

Definition bsearch (cmp : A -> Z) (arr : list A) : option nat :=
  bsearch_loop (S (length arr)) cmp arr 0 (length arr).

(** The key is compared consistently with the order of the array: elements
    below the key, then equal ones, then those above it. *)
Definition key_mono (cmp : A -> Z) (arr : list A) : Prop :=
  forall i j x y, (i < j)%nat -> arr !! i = Some x -> arr !! j = Some y ->
    (cmp x < 0 -> cmp y < 0) /\ (0 < cmp y -> 0 < cmp x).

Lemma bsearch_loop_sound fuel cmp arr l u i :
  bsearch_loop fuel cmp arr l u = Some i ->
  exists x, arr !! i = Some x /\ cmp x = 0.
Proof.
  revert l u. induction fuel as [|fuel IH]; intros l u; [done|]. cbn [bsearch_loop]. cbv zeta.
  destruct (u <=? l)%nat; [done|].
  destruct (arr !! ((l + u) / 2)%nat) as [x|] eqn:E; [|done].
  destruct (Z.ltb_spec (cmp x) 0); [eauto|].
  destruct (Z.ltb_spec 0 (cmp x)); [eauto|].
  intros [= <-]. exists x. split; [done|lia].
Qed.

Lemma bsearch_loop_complete fuel cmp arr l u :
  key_mono cmp arr -> (u <= length arr)%nat -> (u - l < fuel)%nat ->
  (forall j x, arr !! j = Some x -> cmp x = 0 -> (l <= j < u)%nat) ->
  bsearch_loop fuel cmp arr l u = None ->
  forall j x, arr !! j = Some x -> cmp x <> 0.
Proof.
  intros Hm. revert l u. induction fuel as [|fuel IH]; intros l u Hu Hf Hin; [lia|].
  cbn [bsearch_loop]. cbv zeta. destruct (Nat.leb_spec u l) as [Hle|Hlt].
  { intros _ j x Hj Hx. specialize (Hin j x Hj Hx). lia. }
  assert (l <= (l + u) / 2 < u)%nat as Hmid.
  { pose proof (Nat.div_mod_eq (l + u) 2). pose proof (Nat.mod_upper_bound (l + u) 2). lia. }
  destruct (arr !! ((l + u) / 2)%nat) as [y|] eqn:Ey.
  2: { apply lookup_ge_None in Ey. lia. }
  destruct (Z.ltb_spec (cmp y) 0) as [Hneg|Hneg].
  - apply IH; [lia | lia |]. intros j x Hj Hx. specialize (Hin j x Hj Hx).
    destruct (decide (j < (l + u) / 2)%nat); [lia|].
    destruct (decide (j = (l + u) / 2)%nat) as [->|]; [simplify_eq; lia|].
    destruct (Hm ((l + u) / 2)%nat j y x) as [Hd _]; [lia|done|done|].
    specialize (Hd Hneg). lia.
  - destruct (Z.ltb_spec 0 (cmp y)) as [Hpos|Hpos]; [|done].
    apply IH; [lia | lia |]. intros j x Hj Hx. specialize (Hin j x Hj Hx).
    destruct (decide ((l + u) / 2 < j)%nat); [lia|].
    destruct (decide (j = (l + u) / 2)%nat) as [->|]; [simplify_eq; lia|].
    destruct (Hm j ((l + u) / 2)%nat x y) as [_ Hd]; [lia|done|done|].
    specialize (Hd Hpos). lia.
Qed.

(** [bsearch] decides whether an element equal to the key is present. *)
Lemma bsearch_spec cmp arr :
  key_mono cmp arr ->
  match bsearch cmp arr with
  | Some i => exists x, arr !! i = Some x /\ cmp x = 0
  | None => forall x, x ∈ arr -> cmp x <> 0
  end.
Proof.
  intros Hm. unfold bsearch. destruct (bsearch_loop _ _ _ _ _) eqn:E.
  - by eapply bsearch_loop_sound.
  - intros x [j Hj]%list_elem_of_lookup. revert j x Hj.
    apply (bsearch_loop_complete (S (length arr)) cmp arr 0 (length arr));
      [done | lia | lia | | done].
    intros j x Hj%lookup_lt_Some _. lia.
Qed.

Lemma bsearch_found cmp arr x :
  key_mono cmp arr -> x ∈ arr -> cmp x = 0 -> is_Some (bsearch cmp arr).
Proof.
  intros Hm Hx H0. pose proof (bsearch_spec cmp arr Hm) as H.
  destruct (bsearch cmp arr); [eauto|]. by destruct (H x Hx).
Qed.

(** An order-compatible comparison is monotone along a sorted array. *)
Lemma key_mono_sorted (le : A -> A -> Prop) `{!Transitive le} cmp arr :
  Sorted le arr ->
  (forall x y, le x y -> (cmp x < 0 -> cmp y < 0) /\ (0 < cmp y -> 0 < cmp x)) ->
  key_mono cmp arr.
Proof.
  intros HS%Sorted_StronglySorted Hc; [|done]. intros i j x y Hij Hi Hj. apply Hc.
  revert i j Hij Hi Hj. induction HS as [|z l HS IH Hall]; intros i j Hij Hi Hj; [done|].
  destruct j as [|j]; [lia|]. destruct i as [|i]; simpl in *.
  - simplify_eq. rewrite Forall_forall in Hall. apply Hall.
    eapply list_elem_of_lookup_2; eauto.
  - apply (IH i j); [lia|done|done].
Qed.

Lemma qsort_perm cmp l : Permutation (qsort cmp l) l.
Proof. apply merge_sort_Permutation. Qed.

Lemma qsort_sorted cmp l :
  (forall x y, cmp x y <= 0 \/ cmp y x <= 0) -> Sorted (cmp_le cmp) (qsort cmp l).
Proof. intros H. apply Sorted_merge_sort. intros x y. apply H. Qed.
End search.

(** [strcmp] orders strings totally. *)
Lemma strcmp_total a b : strcmp a b <= 0 \/ strcmp b a <= 0.
Proof. rewrite (strcmp_antisym a b). lia. Qed.

Lemma strcasecmp_refl a : strcasecmp a a = 0.
Proof. apply strcmp_refl. Qed.

Lemma strcasecmp_antisym a b : strcasecmp b a = - strcasecmp a b.
Proof. apply strcmp_antisym. Qed.

#[export] Hint Resolve strcmp_refl strcmp_total qsort_perm : sg.
