(* ===== verification/Errors.v ===== *)
(** src/src/libstatgrab/error.c and error.h: the last-error record of a thread,
    the messages of the error codes and [sg_strperror]; the environment
    (allocator, errno, error records) every operation of the library runs in. *)

From S2P Require Import Prelude Types CLib.

(** * State *)

Definition ERROR_ARG_MAX : nat := 4096.

Record sg_error_glob := mk_error_glob {
  eg_error : sg_error;
  eg_errno_value : Z;
  eg_error_arg : string }.

Definition error_glob_zero : sg_error_glob := mk_error_glob SG_ERROR_NONE 0 "".

(** What the allocator does with the next request: fail, hand out a new block,
    or (for realloc) grow the block in place. *)
Inductive alloc_choice := AFail | AMove | AStay.

(** [e_tls]: the record in the thread's storage, when [sg_comp_get_tls] can
    deliver it; [e_pre]: the static [pre_init_errs]. *)
Record env := mk_env {
  e_allocs : list alloc_choice;
  e_errno : Z;
  e_tls : option sg_error_glob;
  e_pre : sg_error_glob }.

Definition ENOMEM : Z := 12.
Definition EAGAIN : Z := 11.
Definition EINVAL : Z := 22.

Definition set_errno (z : Z) (e : env) : env :=
  mk_env (e_allocs e) z (e_tls e) (e_pre e).

(** One request to malloc, calloc or realloc; when the list of choices is
    exhausted requests succeed. A failure sets errno. *)
Definition alloc_request : M env alloc_choice := fun e =>
  match e_allocs e with
  | [] => Done AMove e
  | AFail :: r => Done AFail (mk_env r ENOMEM (e_tls e) (e_pre e))
  | c :: r => Done c (mk_env r (e_errno e) (e_tls e) (e_pre e))
  end.

(** * Operations *)

(** [sg_get_error_glob]: the thread's record, else the static one. *)
Definition sg_get_error_glob (e : env) : sg_error_glob :=
  match e_tls e with Some g => g | None => e_pre e end.

Definition put_error_glob (g : sg_error_glob) (e : env) : env :=
  match e_tls e with
  | Some _ => mk_env (e_allocs e) (e_errno e) (Some g) (e_pre e)
  | None => mk_env (e_allocs e) (e_errno e) None g
  end.

(** [vsnprintf] into [size] bytes keeps what fits before the terminator. *)
Definition vsnprintf (size : nat) (formatted : string) : string :=
  String.substring 0 (size - 1) formatted.

(** [arg] is the message after formatting, [None] for a NULL format. *)
Definition sg_set_error_int (code : sg_error) (errno_value : Z) (arg : option string)
    : M env sg_error := fun e =>
  let a := match arg with
           | Some s => vsnprintf ERROR_ARG_MAX s
           | None => ""
           end in
  Done code (put_error_glob (mk_error_glob code errno_value a) e).

Definition sg_clear_error : M env unit :=
  modify (put_error_glob error_glob_zero).

Definition sg_set_error_fmt (code : sg_error) (arg : option string) : M env sg_error :=
  sg_set_error_int code 0 arg.

Definition sg_set_error_with_errno_fmt (code : sg_error) (arg : option string)
    : M env sg_error :=
  errno ← gets e_errno; sg_set_error_int code errno arg.

Definition sg_set_error_with_errno_code_fmt (code : sg_error) (errno_value : Z)
    (arg : option string) : M env sg_error :=
  sg_set_error_int code errno_value arg.

(** The SET_ERROR macros with logging disabled (the default build), where the
    log statements have no effect. *)
Definition SET_ERROR (code : sg_error) (arg : option string) : M env unit :=
  _ ← sg_set_error_fmt code arg; mret tt.
Definition SET_ERROR_WITH_ERRNO (code : sg_error) (arg : option string) : M env unit :=
  _ ← sg_set_error_with_errno_fmt code arg; mret tt.
Definition RETURN_WITH_SET_ERROR (code : sg_error) (arg : option string) : M env sg_error :=
  SET_ERROR code arg;; mret code.
Definition RETURN_WITH_SET_ERROR_WITH_ERRNO (code : sg_error) (arg : option string)
    : M env sg_error :=
  SET_ERROR_WITH_ERRNO code arg;; mret code.

Definition sg_get_error : M env sg_error := gets (fun e => eg_error (sg_get_error_glob e)).
Definition sg_get_error_arg : M env string :=
  gets (fun e => eg_error_arg (sg_get_error_glob e)).
Definition sg_get_error_errno : M env Z :=
  gets (fun e => eg_errno_value (sg_get_error_glob e)).

Record sg_error_details := mk_error_details {
  ed_error : sg_error; ed_errno_value : Z; ed_error_arg : option string }.

(** [out]: whether the caller passed a structure to fill. *)
Definition sg_get_error_details (out : bool) : M env (sg_error * option sg_error_details) :=
  g ← gets sg_get_error_glob;
  if out then
    mret (SG_ERROR_NONE,
          Some (mk_error_details (eg_error g) (eg_errno_value g) (Some (eg_error_arg g))))
  else
    code ← sg_set_error_int SG_ERROR_INVALID_ARGUMENT 0 (Some "sg_get_error_details");
    mret (code, None).

(** [sg_error_init_comp]: the errors recorded before initialisation move to the
    thread's record. *)
Definition sg_error_init_comp (e : env) : env :=
  match e_tls e with
  | Some _ =>
      if decide (eg_error (e_pre e) = SG_ERROR_NONE) then e
      else mk_env (e_allocs e) (e_errno e) (Some (e_pre e)) (e_pre e)
  | None => e
  end.

(** The codes in the order of their numbers. *)
Definition all_errors : list sg_error :=
  [SG_ERROR_NONE; SG_ERROR_INVALID_ARGUMENT; SG_ERROR_ASPRINTF; SG_ERROR_SPRINTF;
   SG_ERROR_DEVICES; SG_ERROR_DEVSTAT_GETDEVS; SG_ERROR_DEVSTAT_SELECTDEVS; SG_ERROR_DISKINFO;
   SG_ERROR_ENOENT; SG_ERROR_GETIFADDRS; SG_ERROR_GETMNTINFO; SG_ERROR_GETPAGESIZE;
   SG_ERROR_HOST; SG_ERROR_KSTAT_DATA_LOOKUP; SG_ERROR_KSTAT_LOOKUP; SG_ERROR_KSTAT_OPEN;
   SG_ERROR_KSTAT_READ; SG_ERROR_KVM_GETSWAPINFO; SG_ERROR_KVM_OPENFILES; SG_ERROR_MALLOC;
   SG_ERROR_MEMSTATUS; SG_ERROR_OPEN; SG_ERROR_OPENDIR; SG_ERROR_READDIR; SG_ERROR_PARSE;
   SG_ERROR_PDHADD; SG_ERROR_PDHCOLLECT; SG_ERROR_PDHOPEN; SG_ERROR_PDHREAD;
   SG_ERROR_PERMISSION; SG_ERROR_PSTAT; SG_ERROR_SETEGID; SG_ERROR_SETEUID;
   SG_ERROR_SETMNTENT; SG_ERROR_SOCKET; SG_ERROR_SWAPCTL; SG_ERROR_SYSCONF; SG_ERROR_SYSCTL;
   SG_ERROR_SYSCTLBYNAME; SG_ERROR_SYSCTLNAMETOMIB; SG_ERROR_SYSINFO; SG_ERROR_MACHCALL;
   SG_ERROR_IOKIT; SG_ERROR_UNAME; SG_ERROR_UNSUPPORTED; SG_ERROR_XSW_VER_MISMATCH;
   SG_ERROR_GETMSG; SG_ERROR_PUTMSG; SG_ERROR_INITIALISATION; SG_ERROR_MUTEX_LOCK;
   SG_ERROR_MUTEX_UNLOCK].

(** The value of the enumeration. *)
Definition error_number (code : sg_error) : Z :=
  Z.of_nat (default O (fst <$> list_find (fun c => c = code) all_errors)).

Definition sg_str_error (code : sg_error) : string :=
  match code with
  | SG_ERROR_NONE => "no error"
  | SG_ERROR_INVALID_ARGUMENT => "invalid argument"
  | SG_ERROR_ASPRINTF => "asprintf failed"
  | SG_ERROR_SPRINTF => "sprintf failed"
  | SG_ERROR_DEVSTAT_GETDEVS => "devstat_getdevs failed"
  | SG_ERROR_DEVSTAT_SELECTDEVS => "devstat_selectdevs failed"
  | SG_ERROR_ENOENT => "system call received ENOENT"
  | SG_ERROR_GETIFADDRS => "getifaddress failed"
  | SG_ERROR_GETMNTINFO => "getmntinfo failed"
  | SG_ERROR_GETPAGESIZE => "getpagesize failed"
  | SG_ERROR_HOST => "gather host information faile"
  | SG_ERROR_KSTAT_DATA_LOOKUP => "kstat_data_lookup failed"
  | SG_ERROR_KSTAT_LOOKUP => "kstat_lookup failed"
  | SG_ERROR_KSTAT_OPEN => "kstat_open failed"
  | SG_ERROR_KSTAT_READ => "kstat_read failed"
  | SG_ERROR_KVM_GETSWAPINFO => "kvm_getswapinfo failed"
  | SG_ERROR_KVM_OPENFILES => "kvm_openfiles failed"
  | SG_ERROR_MALLOC => "malloc failed"
  | SG_ERROR_OPEN => "failed to open file"
  | SG_ERROR_OPENDIR => "failed to open directory"
  | SG_ERROR_READDIR => "failed to read directory"
  | SG_ERROR_PARSE => "failed to parse input"
  | SG_ERROR_SETEGID => "setegid failed"
  | SG_ERROR_SETEUID => "seteuid failed"
  | SG_ERROR_SETMNTENT => "setmntent failed"
  | SG_ERROR_SOCKET => "socket failed"
  | SG_ERROR_SWAPCTL => "swapctl failed"
  | SG_ERROR_SYSINFO => "sysinfo failed"
  | SG_ERROR_SYSCONF => "sysconf failed"
  | SG_ERROR_SYSCTL => "sysctl failed"
  | SG_ERROR_SYSCTLBYNAME => "sysctlbyname failed"
  | SG_ERROR_SYSCTLNAMETOMIB => "sysctlnametomib failed"
  | SG_ERROR_MACHCALL => "mach kernel operation failed"
  | SG_ERROR_IOKIT => "I/O Kit operation failed"
  | SG_ERROR_UNAME => "uname failed"
  | SG_ERROR_UNSUPPORTED => "unsupported function"
  | SG_ERROR_XSW_VER_MISMATCH => "XSW version mismatch"
  | SG_ERROR_PSTAT => "pstat failed"
  | SG_ERROR_PDHOPEN => "PDH open failed"
  | SG_ERROR_PDHCOLLECT => "PDH snapshot failed"
  | SG_ERROR_PDHADD => "PDH add counter failed"
  | SG_ERROR_PDHREAD => "PDH read counter failed"
  | SG_ERROR_DEVICES => "failed to get device list"
  | SG_ERROR_PERMISSION => "access violation"
  | SG_ERROR_DISKINFO => "disk function failed"
  | SG_ERROR_MEMSTATUS => "memory status failed"
  | SG_ERROR_GETMSG => "getmsg failed"
  | SG_ERROR_PUTMSG => "putmsg failed"
  | SG_ERROR_INITIALISATION => "initialization error"
  | SG_ERROR_MUTEX_LOCK => "lock mutex failed"
  | SG_ERROR_MUTEX_UNLOCK => "unlock mutex failed"
  end.

Definition SG_STRPERROR_BUF_SIZE : nat := 1024.

(** [buf]: [None] for a NULL argument, [Some b] for a pointer whose target is
    NULL ([b = CNull]) or not. [strerror_r] is the C library's message lookup,
    [None] when it fails. *)
Definition sg_strperror (strerror_r : Z -> option string) (buf : option char_ptr)
    (err_details : option sg_error_details) : M env char_ptr :=
  match buf with
  | Some CNull =>
      det ← match err_details with
            | Some d => mret d
            | None =>
                r ← sg_get_error_details true;
                mret (default (mk_error_details SG_ERROR_NONE 0 None) r.2)
            end;
      a ← alloc_request;
      match a with
      | AFail =>
          _ ← sg_set_error_int SG_ERROR_MALLOC 0 (Some "sg_strperror");
          mret CNull
      | _ =>
          let finish (errno_msg : string) : char_ptr :=
            CStr (vsnprintf SG_STRPERROR_BUF_SIZE
              (sg_str_error (ed_error det) +:+ " (" +:+
               (if ed_errno_value det =? 0 then "" else errno_msg) +:+
               (if ed_errno_value det =? 0 then "" else ": ") +:+
               default "" (ed_error_arg det) +:+ ")")) in
          if ed_errno_value det =? 0 then mret (finish "")
          else
            match strerror_r (ed_errno_value det) with
            | None =>
                errno ← gets e_errno;
                _ ← sg_set_error_int SG_ERROR_MALLOC errno (Some "strerror_r");
                mret CNull
            | Some m => mret (finish m)
            end
      end
  | _ =>
      _ ← sg_set_error_int SG_ERROR_INVALID_ARGUMENT 0 (Some "strperror");
      mret CNull
  end.

(** * Facts *)

Lemma get_put_error_glob g e : sg_get_error_glob (put_error_glob g e) = g.
Proof. unfold sg_get_error_glob, put_error_glob. by destruct (e_tls e). Qed.

Lemma put_put_error_glob g g' e : put_error_glob g (put_error_glob g' e) = put_error_glob g e.
Proof. unfold put_error_glob. by destruct (e_tls e). Qed.

Lemma substring_length m : forall n s, (String.length (String.substring n m s) <= m)%nat.
Proof.
  induction m as [|m IH]; intros n s.
  - revert n. induction s as [|c s IHs]; intros [|n]; simpl; try lia. apply IHs.
  - revert n. induction s as [|c s IHs]; intros [|n]; simpl; try lia.
    + specialize (IH O s). lia.
    + apply IHs.
Qed.

Lemma substring_all m : forall s, (String.length s <= m)%nat -> String.substring 0 m s = s.
Proof.
  induction m as [|m IH]; intros [|c s]; simpl; intros; try done; try lia.
  f_equal. apply IH. lia.
Qed.

Lemma vsnprintf_length size s : (String.length (vsnprintf size s) <= size - 1)%nat.
Proof. apply substring_length. Qed.

Lemma vsnprintf_fits size s : (String.length s < size)%nat -> vsnprintf size s = s.
Proof. intros. apply substring_all. lia. Qed.

#[export] Hint Rewrite get_put_error_glob put_put_error_glob : sg.

(** The allocator did not get worse: a failure that is still to come was to come
    before. *)
Definition calmer (e e' : env) : Prop := AFail ∈ e_allocs e' -> AFail ∈ e_allocs e.

#[export] Instance calmer_preorder : PreOrder calmer.
Proof. unfold calmer. split; [intros e H; exact H|]. intros x y z; auto. Qed.

Lemma calmer_put_error g e e' : calmer e e' -> calmer e (put_error_glob g e').
Proof. unfold calmer, put_error_glob. by destruct (e_tls e'). Qed.
#[export] Hint Resolve calmer_put_error : sg.
#[export] Hint Extern 1 (calmer ?e ?e) => reflexivity : sg.

Lemma wp_alloc_request (Q : alloc_choice -> env -> Prop) e :
  (AFail ∈ e_allocs e -> forall e', Q AFail e') ->
  (forall c e', c <> AFail -> calmer e e' -> Q c e') -> wp alloc_request Q e.
Proof.
  intros HF HS. unfold wp, alloc_request.
  destruct (e_allocs e) as [|[] r] eqn:E.
  1: apply HS; [done | reflexivity].
  1: apply HF; set_solver.
  all: apply HS; [done|]; unfold calmer; simpl; rewrite E; set_solver.
Qed.

(** The environment after recording an error. *)
Lemma SET_ERROR_run code arg e :
  SET_ERROR code arg e =
    Done tt (put_error_glob (mk_error_glob code 0
      (match arg with Some s => vsnprintf ERROR_ARG_MAX s | None => "" end)) e).
Proof. done. Qed.
