(* ===== verification/Tools.v ===== *)
(** src/src/libstatgrab/tools.c: allocation and string helpers of the library. *)

From S2P Require Import Prelude Types CLib Errors.

(** * sg_realloc on the block of an owned string *)

(** What a request for [size] bytes gives: [None] when the result is NULL, else
    the bytes of the new block; the caller's pointer is released when the
    request succeeds (or when [size] is 0), and kept when it fails. [old] are the
    bytes of the block being resized, [junk] what fresh memory contains. *)
Definition resize_block (junk : ascii) (old : list ascii) (size : nat) : list ascii :=
  take size old ++ replicate (size - length old) junk.

Definition sg_realloc (junk : ascii) (p : char_ptr) (size : nat)
    : M env (option (list ascii)) :=
  old ← match p with
        | CNull => mret []
        | CStr s => mret (c_str s)
        | CDangling => stuck double_free
        | CWild => stuck wild_pointer
        end;
  if decide (size = O) then mret None
  else
    a ← alloc_request;
    match a with
    | AFail =>
        SET_ERROR_WITH_ERRNO SG_ERROR_MALLOC
          (Some ("sg_realloc: couldn't realloc(to " +:+ pretty size +:+ " bytes)"));;
        mret None
    | _ => mret (Some (resize_block junk old size))
    end.

(** The text left in a block, as the [char *] that owns it. *)
Definition own_block (b : list ascii) : M env char_ptr :=
  match text_of b with
  | Some s => mret (CStr s)
  | None => stuck out_of_bounds
  end.

(** A source argument of type [const char *]: NULL, or a text. *)
Definition sg_update_string (junk : ascii) (dest : char_ptr) (src : option string)
    : M env (sg_error * char_ptr) :=
  match src with
  | None => _ ← free_ptr dest; mret (SG_ERROR_NONE, CNull)
  | Some s =>
      match strlen (c_str s) with
      | None => stuck out_of_bounds
      | Some n =>
          let newlen := S n in
          new ← sg_realloc junk dest newlen;
          match new with
          | None => rc ← sg_get_error; mret (rc, dest)
          | Some b =>
              match strlcpy b (c_str s) newlen with
              | None => stuck out_of_bounds
              | Some (b', _) => p ← own_block b'; mret (SG_ERROR_NONE, p)
              end
          end
      end
  end.

(** [src] is the buffer the text is taken from; it need not be terminated
    within [maxlen] bytes. *)
Definition sg_lupdate_string (junk : ascii) (dest : char_ptr) (src : option (list ascii))
    (maxlen : nat) : M env (sg_error * char_ptr) :=
  match src with
  | None => _ ← free_ptr dest; mret (SG_ERROR_NONE, CNull)
  | Some sb =>
      match sg_strnlen sb maxlen with
      | None => stuck out_of_bounds
      | Some n =>
          let newlen := S n in
          new ← sg_realloc junk dest newlen;
          match new with
          | None => rc ← sg_get_error; mret (rc, dest)
          | Some b =>
              match strlcpy b sb newlen with
              | None => stuck out_of_bounds
              | Some (b', _) => p ← own_block b'; mret (SG_ERROR_NONE, p)
              end
          end
      end
  end.

(** [sg_concat_string]: [dest] is the pointer [*dest], [None] for a NULL
    [dest]; a NULL [src] is passed on to strlcat. *)
Definition sg_concat_string (junk : ascii) (dest : option char_ptr) (src : option string)
    : M env (sg_error * option char_ptr) :=
  match dest with
  | None =>
      rc ← RETURN_WITH_SET_ERROR SG_ERROR_INVALID_ARGUMENT (Some "dest");
      mret (rc, None)
  | Some d =>
      dl ← match d with
           | CNull => mret 0%nat
           | _ => s ← read_ptr d; mret (String.length s)
           end;
      let sl := match src with Some s => String.length s | None => 0%nat end in
      let len := S (dl + sl) in
      new ← sg_realloc junk d len;
      match new with
      | None => rc ← sg_get_error; mret (rc, Some d)
      | Some b =>
          match src with
          | None => stuck null_deref
          | Some s =>
              match strlcat b (c_str s) len with
              | None => stuck out_of_bounds
              | Some (b', _) => p ← own_block b'; mret (SG_ERROR_NONE, Some p)
              end
          end
      end
  end.

(** [sg_update_mem]: [src] are the [len] bytes to store. *)
Definition sg_update_mem (junk : ascii) (dest : char_ptr) (src : option (list ascii))
    : M env (sg_error * char_ptr) :=
  match src with
  | None => _ ← free_ptr dest; mret (SG_ERROR_NONE, CNull)
  | Some bytes =>
      if decide (length bytes = O) then
        (* sg_realloc releases the block and returns NULL *)
        p ← free_ptr dest; rc ← sg_get_error; mret (rc, p)
      else
        new ← sg_realloc junk dest (length bytes);
        match new with
        | None => rc ← sg_get_error; mret (rc, dest)
        | Some _ => mret (SG_ERROR_NONE, CStr (String.string_of_list_ascii bytes))
        end
  end.

(** * Facts *)

(** A pointer to a proper C string, or NULL. *)
Definition ptr_ok (p : char_ptr) : bool :=
  match p with CNull => true | CStr s => no_nul s | _ => false end.

Lemma ptr_ok_live p : ptr_ok p = true -> ptr_live p = true.
Proof. by destruct p. Qed.

Definition src_ok (src : option string) : bool :=
  match src with Some s => no_nul s | None => true end.

(** The value [sg_update_string] is asked to store. *)
Definition as_ptr (src : option string) : char_ptr :=
  match src with Some s => CStr s | None => CNull end.

Lemma as_ptr_ok src : src_ok src = true -> ptr_ok (as_ptr src) = true.
Proof. by destruct src. Qed.

(** Environments that differ only in what the allocator and the error record
    went through: the failing request recorded SG_ERROR_MALLOC. *)
Definition failed_alloc (e : env) : Prop :=
  eg_error (sg_get_error_glob e) = SG_ERROR_MALLOC.

Lemma length_c_str s : length (c_str s) = S (String.length s).
Proof.
  unfold c_str. rewrite length_app. simpl.
  assert (length (String.list_ascii_of_string s) = String.length s) as ->; [|lia].
  induction s; simpl; congruence.
Qed.

Lemma strlen_c_str s : no_nul s = true -> strlen (c_str s) = Some (String.length s).
Proof.
  intros H%bool_decide_eq_true. unfold c_str. rewrite strlen_spec by done.
  f_equal. clear. induction s; simpl; congruence.
Qed.

Lemma length_resize_block junk old size : length (resize_block junk old size) = size.
Proof. unfold resize_block. rewrite length_app, length_take, length_replicate. lia. Qed.

Lemma wp_sg_realloc junk p size (Q : option (list ascii) -> env -> Prop) e :
  ptr_live p = true -> (0 < size)%nat ->
  (AFail ∈ e_allocs e -> forall e', failed_alloc e' -> Q None e') ->
  (forall b e', length b = size -> calmer e e' -> Q (Some b) e') ->
  wp (sg_realloc junk p size) Q e.
Proof.
  intros Hp Hs HN HS. unfold sg_realloc. destruct p; try done; wp_step; wp_step;
    (rewrite decide_False by lia); wp_step;
    (apply wp_alloc_request;
     [ intros Ha e'; apply HN; [done|]; unfold failed_alloc; by rewrite get_put_error_glob
     | intros [] e' ? ?; [done| |]; apply wp_ret, HS; [apply length_resize_block | done
                                                       | apply length_resize_block | done] ]).
Qed.

(** [sg_update_string] either stores exactly the given text, or reports the
    failed allocation and leaves the old text in place. *)
Lemma wp_sg_update_string junk dest src (Q : sg_error * char_ptr -> env -> Prop) e :
  ptr_ok dest = true -> src_ok src = true ->
  (forall e', calmer e e' -> Q (SG_ERROR_NONE, as_ptr src) e') ->
  (AFail ∈ e_allocs e -> forall e', failed_alloc e' -> Q (SG_ERROR_MALLOC, dest) e') ->
  wp (sg_update_string junk dest src) Q e.
Proof.
  intros Hd Hs HN HM. destruct src as [s|]; cbn [sg_update_string].
  2: { wp_step. apply wp_free_ptr; [by apply ptr_ok_live|]. intros p' _. by apply wp_ret, HN. }
  simpl in Hs. rewrite strlen_c_str by done. cbv zeta. wp_step.
  apply wp_sg_realloc; [by apply ptr_ok_live | lia | |].
  - intros Ha e' He'. wp_step. apply wp_gets. apply wp_ret. rewrite He'. auto.
  - intros b e' Hb Hc.
    pose proof (strlcpy_fits s b [] Hs) as F. rewrite app_nil_r, Hb in F.
    specialize (F ltac:(lia)).
    destruct (strlcpy b (c_str s) (S (String.length s))) as [[b' n]|]; [|done].
    simpl in F. injection F as F. wp_step. unfold own_block. rewrite F.
    by apply wp_ret, wp_ret, HN.
Qed.

(** * Texts in arrays *)

(** An array that holds [t] and its terminator. *)
Definition holds_text (a : list ascii) (t : string) : Prop :=
  no_nul t = true /\ exists rest, a = c_str t ++ rest.

Lemma strnlen_loop_spec t rest maxlen : forall fuel pre,
  NUL ∉ t -> (length pre + length t < maxlen)%nat -> (length t < fuel)%nat ->
  strnlen_loop fuel (length pre) maxlen (pre ++ t ++ NUL :: rest) = Some (length pre + length t)%nat.
Proof.
  induction t as [|c t IH]; intros fuel pre Hn Hm Hf; destruct fuel as [|fuel]; cbn [length] in *;
    try lia; cbn [strnlen_loop]; unfold buf_read; rewrite lookup_app_r, Nat.sub_diag by lia;
    cbn [app lookup list_lookup mbind option_bind].
  - rewrite decide_True by done. f_equal. lia.
  - rewrite decide_False by set_solver. rewrite decide_False by lia.
    replace (pre ++ c :: t ++ NUL :: rest) with ((pre ++ [c]) ++ t ++ NUL :: rest)
      by (by rewrite <- app_assoc).
    replace (S (length pre)) with (length (pre ++ [c])) by (rewrite length_app; cbn; lia).
    rewrite IH; [f_equal; rewrite length_app; cbn; lia | set_solver | rewrite length_app; cbn; lia | lia].
Qed.

(** [sg_lupdate_string] from an array that holds a text of less than [maxlen]
    characters. *)
Lemma wp_sg_lupdate_string junk tgt a t maxlen (Q : sg_error * char_ptr -> env -> Prop) e :
  ptr_ok tgt = true -> holds_text a t -> (String.length t < maxlen)%nat -> (AFail ∉ e_allocs e) ->
  (forall e', calmer e e' -> Q (SG_ERROR_NONE, CStr t) e') ->
  wp (sg_lupdate_string junk tgt (Some a) maxlen) Q e.
Proof.
  intros Hp [Hn [rest ->]] Hm Ha HQ. unfold sg_lupdate_string.
  assert (NUL ∉ String.list_ascii_of_string t) as Hnul by (by apply bool_decide_eq_true in Hn).
  assert (sg_strnlen (c_str t ++ rest) maxlen = Some (String.length t)) as ->.
  { unfold sg_strnlen. rewrite decide_False by lia.
    assert (String.length t = length (String.list_ascii_of_string t)) as El
      by (clear; induction t as [|c s IH]; [done | cbn; by f_equal]).
    rewrite El in *. unfold c_str. rewrite <- app_assoc. cbn [app].
    apply (strnlen_loop_spec _ rest _ _ []); [done | |]; cbn; rewrite ?length_app; cbn; lia. }
  apply wp_bind, wp_sg_realloc; [by apply ptr_ok_live | lia | done |].
  intros b e' Hb He.
  pose proof (strlcpy_fits t b rest Hn ltac:(lia)) as Hs.
  rewrite Hb in Hs. destruct (strlcpy b (c_str t ++ rest) (S (String.length t))) as [[b' n]|]; [|done].
  cbn in Hs. injection Hs as Hs. apply wp_bind. unfold own_block. rewrite Hs. by apply wp_ret, wp_ret, HQ.
Qed.
