(* ===== verification/Vector.v ===== *)
(** src/src/libstatgrab/vector.c and vector.h: the growable arrays that hold all
    statistics. The blocks live in a heap, so that a pointer kept after its block
    was released is visible; the functions stored in a vector's
    [sg_vector_init_info] are called through an interface. *)

From S2P Require Import Prelude Types CLib Errors Tools.

(** * State *)

(** The function pointers are named by the structure they belong to. *)
Record sg_vector_init_info := mk_info {
  item_size : Z;
  init_fn : option kind;
  copy_fn : option kind;
  compute_diff_fn : option kind;
  compare_fn : option kind;
  destroy_fn : option kind }.

#[export] Instance sg_vector_init_info_eq_dec : EqDecision sg_vector_init_info.
Proof. solve_decision. Defined.

(** [data] is the memory behind the header: as many slots as the allocation
    has room for, which need not be [alloc_count]. *)
Record sg_vector := mk_vector {
  start_eye : Z; used_count : Z; alloc_count : Z; block_shift : Z;
  info : sg_vector_init_info; final_eye : Z; data : list item }.

Abbreviation vptr := (option positive).

(** The heap of vectors, the next unused address and the environment. *)
Record world := mk_world {
  w_vecs : gmap positive sg_vector;
  w_next : positive;
  w_env : env }.

Definition in_env {A} (m : M env A) : M world A :=
  zoom w_env (fun e w => mk_world (w_vecs w) (w_next w) e) m.

Definition set_vecs (h : gmap positive sg_vector) (w : world) : world :=
  mk_world h (w_next w) (w_env w).

(** * Interface to the item functions *)

Class ItemOps := {
  run_init : kind -> item -> M env item;
  run_copy : kind -> item -> item -> M env (sg_error * item * item);
  run_compute_diff : kind -> item -> item -> M env (sg_error * item);
  run_compare : kind -> item -> item -> M env Z;
  run_destroy : kind -> item -> M env item }.

(** * Operations *)

Definition MAGIC_EYE (a b c d : Z) : Z :=
  u32 (Z.land a 255 + Z.shiftl (Z.land b 255) 8 + Z.shiftl (Z.land c 255) 16
       + Z.shiftl (Z.land d 255) 24).

Definition SG_VECTOR_START_EYE : Z := MAGIC_EYE 115 103 118 115.
Definition SG_VECTOR_FINAL_EYE : Z := MAGIC_EYE 102 118 103 115.

(** Size of the header on an LP64 machine in a build with assertions. *)
Definition VECTOR_SIZE : Z := 88.

Definition NEXT_POWER2_IN (x bs : Z) : Z :=
  u64 (Z.shiftl (u64 (Z.shiftr (u64 (x - 1)) bs + 1)) bs).

Definition read_vec (l : positive) : M world sg_vector := fun w =>
  match w_vecs w !! l with
  | Some v => Done v w
  | None => Stuck use_after_free
  end.

Definition write_vec (l : positive) (v : sg_vector) : M world unit := fun w =>
  match w_vecs w !! l with
  | Some _ => Done tt (set_vecs (<[l := v]> (w_vecs w)) w)
  | None => Stuck use_after_free
  end.

Definition free_vec (l : positive) : M world unit := fun w =>
  match w_vecs w !! l with
  | Some _ => Done tt (set_vecs (delete l (w_vecs w)) w)
  | None => Stuck double_free
  end.

Definition set_used (n : Z) (v : sg_vector) : sg_vector :=
  mk_vector (start_eye v) n (alloc_count v) (block_shift v) (info v) (final_eye v) (data v).
Definition set_alloc (n : Z) (v : sg_vector) : sg_vector :=
  mk_vector (start_eye v) (used_count v) n (block_shift v) (info v) (final_eye v) (data v).
Definition set_data (d : list item) (v : sg_vector) : sg_vector :=
  mk_vector (start_eye v) (used_count v) (alloc_count v) (block_shift v) (info v) (final_eye v) d.

(** Access to slot [i]: [data + i * item_size]. *)
Definition read_item (l : positive) (i : nat) : M world item :=
  v ← read_vec l;
  match data v !! i with
  | Some it => mret it
  | None => stuck out_of_bounds
  end.

Definition write_item (l : positive) (i : nat) (it : item) : M world unit :=
  v ← read_vec l;
  if decide (i < length (data v))%nat
  then write_vec l (set_data (<[i := it]> (data v)) v)
  else stuck out_of_bounds.

Section vector.
Context {IO : ItemOps}.

(** [while( i > new_count ) { --i; destroy_fn(data + i * item_size); }] *)
Fixpoint destroy_loop (l : positive) (k : kind) (new_count n : nat) : M world unit :=
  match n with
  | O => mret tt
  | S n' =>
      let i := (new_count + n')%nat in
      it ← read_item l i;
      it' ← in_env (run_destroy k it);
      write_item l i it';;
      destroy_loop l k new_count n'
  end.

Definition sg_vector_destroy_unused (l : positive) (new_count : Z) : M world unit :=
  v ← read_vec l;
  match destroy_fn (info v) with
  | Some k =>
      if new_count <? used_count v
      then destroy_loop l k (Z.to_nat new_count) (Z.to_nat (used_count v - new_count))
      else mret tt
  | None => mret tt
  end;;
  v ← read_vec l;
  if new_count <? used_count v then write_vec l (set_used new_count v) else mret tt.

(** [for( i = used_count; i < new_count; ++i ) init_fn(data + i * item_size);] *)
Fixpoint init_loop (l : positive) (k : kind) (i n : nat) : M world unit :=
  match n with
  | O => mret tt
  | S n' =>
      it ← read_item l i;
      it' ← in_env (run_init k it);
      write_item l i it';;
      init_loop l k (S i) n'
  end.

Definition sg_vector_init_new (l : positive) (new_count : Z) : M world unit :=
  v ← read_vec l;
  match init_fn (info v) with
  | Some k =>
      if used_count v <? new_count
      then init_loop l k (Z.to_nat (used_count v)) (Z.to_nat (new_count - used_count v))
      else mret tt
  | None => mret tt
  end;;
  v ← read_vec l;
  if used_count v <? new_count then write_vec l (set_used new_count v) else mret tt.

Definition sg_prove_vector (l : positive) : M world sg_error :=
  v ← read_vec l;
  assert_ (SG_VECTOR_START_EYE =? start_eye v);;
  assert_ (SG_VECTOR_FINAL_EYE =? final_eye v);;
  mret SG_ERROR_NONE.

Definition sg_prove_vector_compat (one two : positive) : M world sg_error :=
  v1 ← read_vec one;
  v2 ← read_vec two;
  assert_ (bool_decide (info v1 = info v2));;
  mret SG_ERROR_NONE.

(** How many slots fit behind the header of a block of [bytes] bytes. *)
Definition slots (bytes size : Z) : nat := Z.to_nat ((bytes - VECTOR_SIZE) / size).

Definition realloc_error (bytes : Z) : M env unit :=
  SET_ERROR_WITH_ERRNO SG_ERROR_MALLOC
    (Some ("sg_realloc: couldn't realloc(to " +:+ pretty bytes +:+ " bytes)")).

(** A block at a new address. *)
Definition vec_new (v : sg_vector) : M world vptr := fun w =>
  Done (Some (w_next w))
       (mk_world (<[w_next w := v]> (w_vecs w)) (Pos.succ (w_next w)) (w_env w)).

(** [sg_realloc(NULL, bytes)] for a new vector with the header [hd]. *)
Definition vec_malloc (bytes size : Z) (hd : list item -> sg_vector) : M world vptr :=
  if bytes =? 0 then mret None
  else
    a ← in_env alloc_request;
    match a with
    | AFail => in_env (realloc_error bytes);; mret None
    | _ =>
        if bytes <? VECTOR_SIZE then stuck out_of_bounds
        else vec_new (hd (replicate (slots bytes size) IRaw))
    end.

Definition resize_data (d : list item) (n : nat) : list item :=
  take n d ++ replicate (n - length d) IRaw.

(** [sg_realloc(vector, bytes)] *)
Definition vec_realloc (l : positive) (bytes : Z) : M world vptr :=
  v ← read_vec l;
  if bytes =? 0 then free_vec l;; mret None
  else
    a ← in_env alloc_request;
    let v' := set_data (resize_data (data v) (slots bytes (item_size (info v)))) v in
    match a with
    | AFail => in_env (realloc_error bytes);; mret None
    | AStay => write_vec l v';; mret (Some l)
    | AMove =>
        free_vec l;; vec_new v'
    end.

Definition block_bytes (count size : Z) : Z := u64 (VECTOR_SIZE + u64 (count * size)).

Definition sg_vector_create_int (bshift alloc initial_used : Z)
    (inf : sg_vector_init_info) : M world vptr :=
  let round_count := NEXT_POWER2_IN (Z.max alloc initial_used) bshift in
  vector ← vec_malloc (block_bytes round_count (item_size inf)) (item_size inf)
             (mk_vector SG_VECTOR_START_EYE 0 (u64 (Z.shiftl 1 bshift)) bshift inf
                        SG_VECTOR_FINAL_EYE);
  match vector with
  | Some l => sg_vector_init_new l initial_used;; mret (Some l)
  | None => mret None
  end.

(** [while( ((unsigned)1 << block_shift) < block_size ) ++block_shift;] the
    shift of a 32-bit value by 32 has no defined result. *)
Fixpoint shift_loop (fuel : nat) (bs block_size : Z) : option Z :=
  match fuel with
  | O => None
  | S fuel' =>
      if 32 <=? bs then None
      else if u32 (Z.shiftl 1 bs) <? block_size then shift_loop fuel' (bs + 1) block_size
      else Some bs
  end.

Definition sg_vector_create (block_size alloc initial_used : Z)
    (inf : sg_vector_init_info) : M world vptr :=
  match shift_loop 33 0 block_size with
  | Some bs => sg_vector_create_int bs alloc initial_used inf
  | None => stuck undefined_op
  end.

Definition sg_vector_free (vector : vptr) : M world unit :=
  match vector with
  | None => mret tt
  | Some l =>
      rc ← sg_prove_vector l;
      if decide (rc = SG_ERROR_NONE) then sg_vector_destroy_unused l 0;; free_vec l
      else mret tt
  end.

Definition sg_vector_clear (vector : vptr) : M world unit :=
  match vector with
  | None => mret tt
  | Some l =>
      rc ← sg_prove_vector l;
      if decide (rc = SG_ERROR_NONE) then sg_vector_destroy_unused l 0 else mret tt
  end.

Definition sg_vector_resize (vector : vptr) (new_count : Z) : M world vptr :=
  match vector with
  | None => stuck assert_failed
  | Some l =>
      rc ← sg_prove_vector l;
      if decide (rc <> SG_ERROR_NONE) then
        in_env (SET_ERROR SG_ERROR_INVALID_ARGUMENT (Some "sg_vector_resize: invalid vector"));;
        mret None
      else if new_count =? 0 then
        sg_vector_free (Some l);; in_env sg_clear_error;; mret None
      else
        sg_vector_destroy_unused l new_count;;
        v ← read_vec l;
        let round_count := NEXT_POWER2_IN new_count (block_shift v) in
        if round_count =? alloc_count v then
          sg_vector_init_new l new_count;; mret (Some l)
        else
          new_vector ← vec_realloc l (block_bytes round_count (item_size (info v)));
          match new_vector with
          | None =>
              if round_count =? 0 then stuck null_deref
              else sg_vector_free (Some l);; mret None
          | Some l' =>
              v' ← read_vec l';
              write_vec l' (set_alloc round_count v');;
              sg_vector_init_new l' new_count;; mret (Some l')
          end
  end.

(** The public [sg_get_nelements]; a data pointer is its vector here. *)
Definition sg_get_nelements (vector : vptr) : M world Z :=
  match vector with
  | None => mret 0
  | Some l => _ ← sg_prove_vector l; v ← read_vec l; mret (used_count v)
  end.

(** The copy loop of sg_vector_clone_into_int from slot [i]. *)
Fixpoint copy_loop (k : kind) (src tmp : positive) (i n : nat) : M world (sg_error * vptr) :=
  match n with
  | O => mret (SG_ERROR_NONE, Some tmp)
  | S n' =>
      s ← read_item src i;
      d ← read_item tmp i;
      r ← in_env (run_copy k s d);
      let '(rc, s', d') := r in
      write_item src i s';;
      write_item tmp i d';;
      if decide (rc = SG_ERROR_NONE) then copy_loop k src tmp (S i) n'
      else sg_vector_free (Some tmp);; mret (rc, None)
  end.

(** Returns the error code and the value left in [*dest]. *)
Definition sg_vector_clone_into_int (dest src : positive) : M world (sg_error * vptr) :=
  dv ← read_vec dest;
  sv ← read_vec src;
  tmp ← (if used_count dv =? used_count sv then mret (Some dest)
         else sg_vector_resize (Some dest) (used_count sv));
  sv ← read_vec src;
  match copy_fn (info sv) with
  | None => stuck assert_failed
  | Some k =>
      match tmp with
      | None => rc ← in_env sg_get_error; mret (rc, Some dest)
      | Some t => copy_loop k src t 0 (Z.to_nat (used_count sv))
      end
  end.

Definition sg_vector_clone (src : vptr) : M world vptr :=
  match src with
  | None => mret None
  | Some s =>
      _ ← sg_prove_vector s;
      sv ← read_vec s;
      dest ← sg_vector_create_int (block_shift sv) (alloc_count sv) (used_count sv) (info sv);
      match dest with
      | None => mret None
      | Some d =>
          r ← sg_vector_clone_into_int d s;
          if decide (r.1 = SG_ERROR_NONE) then mret r.2
          else sg_vector_free r.2;; mret None
      end
  end.

(** [dest] is the value of [*dest]; the result is its new value. *)
Definition sg_vector_clone_into (dest : option vptr) (src : vptr) : M world (sg_error * vptr) :=
  match dest with
  | None =>
      rc ← in_env (RETURN_WITH_SET_ERROR SG_ERROR_INVALID_ARGUMENT (Some "dest"));
      mret (rc, None)
  | Some d =>
      match src with
      | None =>
          match d with
          | Some _ => sg_vector_free d;; mret (SG_ERROR_NONE, None)
          | None => mret (SG_ERROR_NONE, None)
          end
      | Some s =>
          _ ← sg_prove_vector s;
          let fail (d : vptr) : M world (sg_error * vptr) :=
            sg_vector_free d;; rc ← in_env sg_get_error; mret (rc, None) in
          match d with
          | None =>
              c ← sg_vector_clone (Some s);
              match c with
              | Some c' => mret (SG_ERROR_NONE, Some c')
              | None => fail None
              end
          | Some dl =>
              _ ← sg_prove_vector dl;
              _ ← sg_prove_vector_compat dl s;
              r ← sg_vector_clone_into_int dl s;
              if decide (r.1 = SG_ERROR_NONE) then mret (SG_ERROR_NONE, r.2) else fail r.2
          end
      end
  end.

Definition sg_free_stats_buf (data : vptr) : M world sg_error :=
  match data with
  | Some l => _ ← sg_prove_vector l; sg_vector_free (Some l);; mret SG_ERROR_NONE
  | None => mret SG_ERROR_NONE
  end.

(** ** Bit sets of tools.h over an array of 32-bit words *)

Definition BIT_ISSET (vect : list Z) (bit : nat) : bool :=
  Z.testbit (default 0 (vect !! (bit / 32)%nat)) (Z.of_nat (bit mod 32)).

Definition BIT_SET (vect : list Z) (bit : nat) : list Z :=
  alter (fun x => Z.lor x (Z.shiftl 1 (Z.of_nat (bit mod 32)))) (bit / 32)%nat vect.

(** The inner loop of sg_vector_compute_diff over the previous items. *)
Fixpoint diff_inner (kc kd : kind) (dest last : positive) (i j n : nat)
    (matched : list Z) : M world (list Z) :=
  match n with
  | O => mret matched
  | S n' =>
      if BIT_ISSET matched j then diff_inner kc kd dest last i (S j) n' matched
      else
        lit ← read_item last j;
        dit ← read_item dest i;
        c ← in_env (run_compare kc lit dit);
        if c =? 0 then
          r ← in_env (run_compute_diff kd lit dit);
          write_item dest i r.2;;
          diff_inner kc kd dest last i (S j) n' (BIT_SET matched j)
        else diff_inner kc kd dest last i (S j) n' matched
  end.

Fixpoint diff_outer (kc kd : kind) (dest last : positive) (nlast i n : nat)
    (matched : list Z) : M world unit :=
  match n with
  | O => mret tt
  | S n' =>
      matched' ← diff_inner kc kd dest last i 0 nlast matched;
      diff_outer kc kd dest last nlast (S i) n' matched'
  end.

Definition sg_vector_compute_diff (dest_ptr : option vptr) (cur last : vptr)
    : M world (sg_error * vptr) :=
  match dest_ptr with
  | None =>
      rc ← in_env (RETURN_WITH_SET_ERROR SG_ERROR_INVALID_ARGUMENT
                     (Some "sg_vector_compute_diff(dest_vector_ptr)"));
      mret (rc, None)
  | Some dest =>
      match cur with
      | None =>
          sg_vector_free dest;;
          rc ← in_env (RETURN_WITH_SET_ERROR SG_ERROR_INVALID_ARGUMENT
                         (Some "sg_vector_compute_diff(cur_vector)"));
          mret (rc, None)
      | Some c =>
          r ← sg_vector_clone_into (Some dest) (Some c);
          if decide (r.1 <> SG_ERROR_NONE) then mret r
          else
            match r.2 with
            | None => mret (SG_ERROR_NONE, None)
            | Some d =>
                cv ← read_vec c;
                match compute_diff_fn (info cv), compare_fn (info cv) with
                | Some kd, Some kc =>
                    match last with
                    | None => mret (SG_ERROR_NONE, Some d)
                    | Some lv =>
                        _ ← sg_prove_vector lv;
                        _ ← sg_prove_vector_compat c lv;
                        lvec ← read_vec lv;
                        dvec ← read_vec d;
                        diff_outer kc kd d lv (Z.to_nat (used_count lvec)) 0
                          (Z.to_nat (used_count dvec))
                          (replicate (Z.to_nat (used_count lvec / 32) + 1) 0);;
                        mret (SG_ERROR_NONE, Some d)
                    end
                | _, _ => stuck assert_failed
                end
            end
      end
  end.

(** ** The macros of vector.h *)

Definition VECTOR_CREATE (inf : sg_vector_init_info) (block_size : Z) : M world vptr :=
  sg_vector_create block_size block_size 0 inf.

Definition VECTOR_CREATE_OR_RESIZE (vector : vptr) (new_count : Z)
    (inf : sg_vector_init_info) : M world vptr :=
  match vector with
  | Some l => sg_vector_resize (Some l) new_count
  | None => sg_vector_create new_count new_count new_count inf
  end.

Definition VECTOR_ITEM_COUNT (vector : vptr) : M world Z :=
  match vector with
  | Some l => v ← read_vec l; mret (used_count v)
  | None => mret 0
  end.

(** [VECTOR_UPDATE]: the new value of [*vectorptr], which also is the data
    pointer, and the error the enclosing function returns with when the update
    failed. The macro tests [!new_count] without parentheses: [bang] is the value
    of that expression for the argument as it is written, and for an argument
    [n + 1] it reads [!n + 1], which is never zero. *)
Definition VECTOR_UPDATE (vector : vptr) (new_count : Z) (bang : bool)
    (inf : sg_vector_init_info) : M world (vptr * option sg_error) :=
  r ← VECTOR_CREATE_OR_RESIZE vector new_count inf;
  match r with
  | Some l =>
      n ← VECTOR_ITEM_COUNT (Some l);
      assert_ (n =? new_count);;
      mret (Some l, None)
  | None =>
      if bang then mret (None, None)
      else rc ← in_env sg_get_error; mret (None, Some rc)
  end.
End vector.
