(* ===== verification/VectorSpec.v ===== *)
(** What the operations of Vector.v guarantee: a representation invariant that
    every operation keeps, the contents each leaves, and the ways in which
    the contract breaks. *)

From S2P Require Import Prelude Types CLib Errors Tools Vector.

(** * Rounding to the block size *)

Lemma next_power2_eq x bs :
  0 <= bs < 64 -> 1 <= x -> ((x - 1) / 2 ^ bs + 1) * 2 ^ bs < 2 ^ 64 ->
  NEXT_POWER2_IN x bs = ((x - 1) / 2 ^ bs + 1) * 2 ^ bs.
Proof.
  intros Hb Hx Hr. unfold NEXT_POWER2_IN.
  assert (0 < 2 ^ bs) as Hp by lia.
  assert (0 <= (x - 1) / 2 ^ bs) as Hd by (apply Z.div_pos; lia).
  pose proof (Z.mod_pos_bound (x - 1) (2 ^ bs) Hp) as Hm.
  pose proof (Z.div_mod (x - 1) (2 ^ bs) ltac:(lia)) as He.
  rewrite (wrap_small 64 (x - 1)) by nia.
  rewrite Z.shiftr_div_pow2, Z.shiftl_mul_pow2 by lia.
  rewrite (wrap_small 64 ((x - 1) / 2 ^ bs + 1)) by nia.
  apply wrap_small. nia.
Qed.

(** The number of slots a vector of [x] items is given: the least multiple of
    the block size that holds them. *)
Definition round_up (x bs : Z) : Z := ((x - 1) / 2 ^ bs + 1) * 2 ^ bs.

Lemma round_up_bounds x bs :
  0 <= bs -> 1 <= x -> x <= round_up x bs < x + 2 ^ bs /\ 2 ^ bs <= round_up x bs.
Proof.
  intros Hb Hx. unfold round_up. assert (0 < 2 ^ bs) as Hp by lia.
  pose proof (Z.mod_pos_bound (x - 1) (2 ^ bs) Hp) as Hm.
  pose proof (Z.div_mod (x - 1) (2 ^ bs) ltac:(lia)) as He.
  assert (0 <= (x - 1) / 2 ^ bs) by (apply Z.div_pos; lia).
  split; nia.
Qed.

(** A request for no item gets no slot. *)
Lemma next_power2_zero bs : 0 <= bs < 64 -> NEXT_POWER2_IN 0 bs = 0.
Proof.
  intros Hb. unfold NEXT_POWER2_IN. change (u64 (0 - 1)) with (2 ^ 64 - 1).
  rewrite Z.shiftr_div_pow2, Z.shiftl_mul_pow2 by lia.
  assert ((2 ^ 64 - 1) / 2 ^ bs = 2 ^ (64 - bs) - 1) as ->.
  { assert (2 ^ 64 = 2 ^ (64 - bs) * 2 ^ bs) as E.
    { rewrite <- Z.pow_add_r by lia. f_equal; lia. }
    assert (0 < 2 ^ bs) by lia.
    symmetry. apply (Z.div_unique _ _ _ (2 ^ bs - 1)); nia. }
  replace (2 ^ (64 - bs) - 1 + 1) with (2 ^ (64 - bs)) by lia.
  destruct (decide (bs = 0)) as [->|].
  - by vm_compute.
  - rewrite (wrap_small 64 (2 ^ (64 - bs))).
    + rewrite <- Z.pow_add_r by lia. replace (64 - bs + bs) with 64 by lia. by vm_compute.
    + split; [lia|]. apply Z.pow_lt_mono_r; lia.
Qed.

(** * Laws of the item functions *)

Class ItemLaws {IO : ItemOps} := {
  (** the structures that have functions of their own *)
  managed : kind -> bool;
  (** an initialised item, whose pointers may be released *)
  item_ok : kind -> item -> bool;
  (** an item as its init function leaves it *)
  fresh : kind -> item -> bool;
  law_init k it (Q : item -> env -> Prop) e :
    managed k = true -> (forall it', item_ok k it' = true -> fresh k it' = true -> Q it' e) ->
    wp (run_init k it) Q e;
  (** an item as its destroy function leaves it: no live block hangs on it *)
  released : kind -> item -> bool;
  law_destroy k it (Q : item -> env -> Prop) e :
    item_ok k it = true -> (forall it', released k it' = true -> Q it' e) ->
    wp (run_destroy k it) Q e;
  (** the structures whose copy function copies from its first to its second
      argument *)
  copies : kind -> bool;
  law_copy k s d (Q : sg_error * item * item -> env -> Prop) e :
    copies k = true -> item_ok k s = true -> item_ok k d = true ->
    (forall e', calmer e e' -> Q (SG_ERROR_NONE, s, s) e') ->
    (AFail ∈ e_allocs e -> forall rc d' e', rc <> SG_ERROR_NONE -> item_ok k d' = true ->
       eg_error (sg_get_error_glob e') = rc -> Q (rc, s, d') e') ->
    wp (run_copy k s d) Q e;
  (** items that carry the names they are compared by, the order of the names and
      the difference of two items *)
  named : kind -> item -> bool;
  same_name : kind -> item -> item -> bool;
  diff_of : kind -> item -> item -> item;
  law_named k it : named k it = true -> item_ok k it = true;
  law_compare k a b (Q : Z -> env -> Prop) e :
    named k a = true -> named k b = true ->
    (forall z, (z =? 0) = same_name k a b -> Q z e) -> wp (run_compare k a b) Q e;
  law_diff k a b (Q : sg_error * item -> env -> Prop) e :
    named k a = true -> named k b = true ->
    Q (SG_ERROR_NONE, diff_of k a b) e -> wp (run_compute_diff k a b) Q e;
  law_diff_named k a b :
    named k a = true -> named k b = true -> named k (diff_of k a b) = true;
  law_diff_name k a b c :
    named k a = true -> named k b = true ->
    same_name k c (diff_of k a b) = same_name k c b;
  law_same_sym k a b : same_name k a b = same_name k b a;
  law_same_trans k a b c :
    same_name k a b = true -> same_name k b c = true -> same_name k a c = true }.

Section spec.
Context {IO : ItemOps} {IL : ItemLaws}.

(** The pairs of init and destroy functions that occur. *)
Definition info_wf (inf : sg_vector_init_info) : Prop :=
  0 < item_size inf < 2 ^ 32 /\ init_fn inf = destroy_fn inf /\
  match destroy_fn inf with Some k => managed k = true | None => True end.

Definition slot_ok (inf : sg_vector_init_info) (it : item) : Prop :=
  match destroy_fn inf with
  | Some k => item_ok k it = true
  | None => True
  end.

(** The representation invariant. *)
Record wf_vec (v : sg_vector) : Prop := {
  wf_start : start_eye v = SG_VECTOR_START_EYE;
  wf_final : final_eye v = SG_VECTOR_FINAL_EYE;
  wf_info : info_wf (info v);
  wf_shift : 0 <= block_shift v < 32;
  wf_used : 0 <= used_count v <= Z.of_nat (length (data v));
  wf_alloc : 2 ^ block_shift v <= alloc_count v <= Z.of_nat (length (data v));
  wf_slots : Forall (slot_ok (info v)) (take (Z.to_nat (used_count v)) (data v)) }.

(** Addresses at or above [w_next] are unused. *)
Definition wf_heap (w : world) : Prop :=
  forall l, (w_next w <= l)%positive -> w_vecs w !! l = None.

Definition upd (l : positive) (v : sg_vector) (w : world) : world :=
  set_vecs (<[l := v]> (w_vecs w)) w.

Lemma upd_upd l v v' w : upd l v (upd l v' w) = upd l v w.
Proof. unfold upd, set_vecs. simpl. by rewrite insert_insert_eq. Qed.

Lemma lookup_upd l v w : w_vecs (upd l v w) !! l = Some v.
Proof. apply lookup_insert_eq. Qed.

Lemma upd_id l v w : w_vecs w !! l = Some v -> upd l v w = w.
Proof. intros H. unfold upd, set_vecs. rewrite insert_id by done. by destruct w. Qed.

(** ** Heap accesses *)

Lemma wp_read_vec l v (Q : sg_vector -> world -> Prop) w :
  w_vecs w !! l = Some v -> Q v w -> wp (read_vec l) Q w.
Proof. intros H HQ. unfold wp, read_vec. by rewrite H. Qed.

Lemma wp_write_vec l v v' (Q : unit -> world -> Prop) w :
  w_vecs w !! l = Some v -> Q tt (upd l v' w) -> wp (write_vec l v') Q w.
Proof. intros H HQ. unfold wp, write_vec. by rewrite H. Qed.

Lemma wp_free_vec l v (Q : unit -> world -> Prop) w :
  w_vecs w !! l = Some v -> Q tt (set_vecs (delete l (w_vecs w)) w) -> wp (free_vec l) Q w.
Proof. intros H HQ. unfold wp, free_vec. by rewrite H. Qed.

Lemma wp_read_item l v i it (Q : item -> world -> Prop) w :
  w_vecs w !! l = Some v -> data v !! i = Some it -> Q it w -> wp (read_item l i) Q w.
Proof.
  intros H Hi HQ. apply wp_bind. eapply wp_read_vec; [done|]. rewrite Hi. done.
Qed.

Lemma wp_write_item l v i it (Q : unit -> world -> Prop) w :
  w_vecs w !! l = Some v -> (i < length (data v))%nat ->
  Q tt (upd l (set_data (<[i := it]> (data v)) v) w) -> wp (write_item l i it) Q w.
Proof.
  intros H Hi HQ. apply wp_bind. eapply wp_read_vec; [done|].
  rewrite decide_True by done. by eapply wp_write_vec.
Qed.

Lemma wp_in_env {A} (m : M env A) (Q : A -> world -> Prop) w :
  wp m (fun a e => Q a (mk_world (w_vecs w) (w_next w) e)) (w_env w) -> wp (in_env m) Q w.
Proof. unfold in_env, wp, zoom. by destruct (m (w_env w)). Qed.

(** An item function that leaves the environment alone. *)
Lemma wp_in_env_pure {A} (m : M env A) (Q : A -> world -> Prop) (P : A -> Prop) w :
  (forall Q' : A -> env -> Prop, (forall a, P a -> Q' a (w_env w)) -> wp m Q' (w_env w)) ->
  (forall a, P a -> Q a w) -> wp (in_env m) Q w.
Proof.
  intros Hm HQ. apply wp_in_env, Hm. intros a Ha.
  specialize (HQ a Ha). by destruct w.
Qed.

Lemma wp_prove_vector l v (Q : sg_error -> world -> Prop) w :
  w_vecs w !! l = Some v -> wf_vec v -> Q SG_ERROR_NONE w -> wp (sg_prove_vector l) Q w.
Proof.
  intros H Hwf HQ. apply wp_bind. eapply wp_read_vec; [done|].
  rewrite (wf_start _ Hwf), (wf_final _ Hwf), !Z.eqb_refl. done.
Qed.

(** ** Destroying and initialising slots *)

(** After the loop the slots outside the destroyed range are untouched. *)
Lemma wp_destroy_loop l k new n : forall v (Q : unit -> world -> Prop) w,
  w_vecs w !! l = Some v ->
  (forall i it, (new <= i < new + n)%nat -> data v !! i = Some it -> item_ok k it = true) ->
  (new + n <= length (data v))%nat ->
  (forall d, length d = length (data v) -> take new d = take new (data v) ->
     drop (new + n) d = drop (new + n) (data v) ->
     (forall i it, (new <= i < new + n)%nat -> d !! i = Some it -> released k it = true) ->
     Q tt (upd l (set_data d v) w)) ->
  wp (destroy_loop l k new n) Q w.
Proof.
  induction n as [|n IH]; intros v Q w Hl Hok Hlen HQ; cbn [destroy_loop].
  - apply wp_ret. specialize (HQ (data v) eq_refl eq_refl eq_refl ltac:(intros; lia)).
    rewrite upd_id in HQ; [done|]. rewrite Hl. by destruct v.
  - destruct (lookup_lt_is_Some_2 (data v) (new + n)) as [it Hit]; [lia|].
    apply wp_bind. eapply wp_read_item; [done..|].
    apply wp_bind. apply (wp_in_env_pure _ _ (fun it' => released k it' = true)).
    { intros Q' HQ'. apply law_destroy; [eapply Hok, Hit; lia | auto]. }
    intros it' Hrel. apply wp_bind. eapply wp_write_item; [done | lia |].
    eapply IH; [apply lookup_upd | | simpl; rewrite length_insert; lia |].
    + simpl. intros i it'' Hi. rewrite list_lookup_insert_ne by lia. apply Hok. lia.
    + intros d Hd Ht Hdr Hgone. rewrite upd_upd. simpl in *. rewrite length_insert in Hd.
      assert (d !! (new + n)%nat = Some it') as Hlast.
      { rewrite <- (Nat.add_0_r (new + n)), <- lookup_drop, Hdr, lookup_drop, Nat.add_0_r.
        apply list_lookup_insert_eq. lia. }
      apply HQ; [done | rewrite Ht, take_insert_ge by lia; done | |].
      * apply (f_equal (drop 1)) in Hdr. rewrite !drop_drop, drop_insert_lt in Hdr by lia.
        by replace (new + S n)%nat with ((new + n) + 1)%nat by lia.
      * intros i jt Hi Hjt. destruct (decide (i = new + n)%nat) as [->|]; [congruence|].
        eapply Hgone; [|done]. lia.
Qed.

Lemma wp_init_loop l k n : managed k = true -> forall i v (Q : unit -> world -> Prop) w,
  w_vecs w !! l = Some v -> (i + n <= length (data v))%nat ->
  (forall d, length d = length (data v) -> take i d = take i (data v) ->
     drop (i + n) d = drop (i + n) (data v) ->
     (forall j it, (i <= j < i + n)%nat -> d !! j = Some it -> item_ok k it = true /\ fresh k it = true) ->
     Q tt (upd l (set_data d v) w)) ->
  wp (init_loop l k i n) Q w.
Proof.
  intros Hk. induction n as [|n IH]; intros i v Q w Hl Hlen HQ; cbn [init_loop].
  - apply wp_ret. specialize (HQ (data v) eq_refl eq_refl eq_refl ltac:(intros; lia)).
    rewrite upd_id in HQ; [done|]. rewrite Hl. by destruct v.
  - destruct (lookup_lt_is_Some_2 (data v) i) as [it Hit]; [lia|].
    apply wp_bind. eapply wp_read_item; [done..|].
    apply wp_bind. apply (wp_in_env_pure _ _ (fun it' => item_ok k it' = true /\ fresh k it' = true)).
    { intros Q' HQ'. apply law_init; auto. }
    intros it' Hit'. apply wp_bind. eapply wp_write_item; [done | lia |].
    eapply IH; [apply lookup_upd | simpl; rewrite length_insert; lia |].
    intros d Hd Ht Hdr Hs. rewrite upd_upd. simpl in *. rewrite length_insert in Hd.
    assert (d !! i = Some it') as Hdi.
    { rewrite <- (lookup_take_lt d (S i) i), Ht by lia.
      rewrite lookup_take_lt, list_lookup_insert_eq by lia. done. }
    apply HQ; [done | | |].
    2: { replace (i + S n)%nat with (S (i + n)) by lia. by rewrite Hdr, drop_insert_lt by lia. }
    + apply (f_equal (take i)) in Ht. rewrite !take_take in Ht.
      rewrite Nat.min_l, take_insert_ge in Ht by lia. done.
    + intros j jt Hj Hjt. destruct (decide (j = i)) as [->|]; [congruence|].
      eapply Hs; [|done]. lia.
Qed.
Lemma set_used_id v : set_used (used_count v) (set_data (data v) v) = v.
Proof. by destruct v. Qed.

Lemma Forall_take_le {A} (P : A -> Prop) n m (l : list A) :
  (n <= m)%nat -> Forall P (take m l) -> Forall P (take n l).
Proof.
  intros Hle HF. replace (take n l) with (take n (take m l)).
  - by apply Forall_take.
  - rewrite take_take. f_equal. lia.
Qed.

(** A slot whose item was destroyed. *)
Definition slot_gone (inf : sg_vector_init_info) (it : item) : Prop :=
  match destroy_fn inf with Some k => released k it = true | None => True end.

(** Shrinking: the slots that stay are untouched, the others are released. *)
Lemma wp_destroy_unused l v n (Q : unit -> world -> Prop) w :
  w_vecs w !! l = Some v -> 0 <= n -> 0 <= used_count v <= Z.of_nat (length (data v)) ->
  Forall (slot_ok (info v)) (take (Z.to_nat (used_count v)) (data v)) ->
  (forall d, length d = length (data v) ->
     take (Z.to_nat (Z.min n (used_count v))) d
       = take (Z.to_nat (Z.min n (used_count v))) (data v) ->
     Forall (slot_gone (info v)) (drop (Z.to_nat n) (take (Z.to_nat (used_count v)) d)) ->
     Q tt (upd l (set_used (Z.min n (used_count v)) (set_data d v)) w)) ->
  wp (sg_vector_destroy_unused l n) Q w.
Proof.
  intros Hl Hn Hu Hs HQ. unfold sg_vector_destroy_unused.
  apply wp_bind. eapply wp_read_vec; [done|]. apply wp_bind.
  assert (forall d, length d = length (data v) ->
    take (Z.to_nat (Z.min n (used_count v))) d
      = take (Z.to_nat (Z.min n (used_count v))) (data v) ->
    Forall (slot_gone (info v)) (drop (Z.to_nat n) (take (Z.to_nat (used_count v)) d)) ->
    wp (v ← read_vec l;
        if n <? used_count v then write_vec l (set_used n v) else mret tt)
       Q (upd l (set_data d v) w)) as Hrest.
  { intros d Hd Ht Hgone. specialize (HQ d Hd Ht Hgone).
    apply wp_bind. eapply wp_read_vec; [apply lookup_upd|]. simpl.
    destruct (Z.ltb_spec n (used_count v)).
    - eapply wp_write_vec; [apply lookup_upd|]. rewrite upd_upd.
      by rewrite Z.min_l in HQ by lia.
    - apply wp_ret. rewrite Z.min_r in HQ by lia. by destruct v. }
  destruct (destroy_fn (info v)) as [k|] eqn:Ek.
  - destruct (Z.ltb_spec n (used_count v)).
    + apply (wp_destroy_loop l k _ _ v); [done | | lia |].
      * intros i it Hi Hit. rewrite Forall_forall in Hs.
        specialize (Hs it). unfold slot_ok in Hs. rewrite Ek in Hs. apply Hs.
        apply list_elem_of_lookup. exists i. rewrite lookup_take_lt by lia. done.
      * intros d Hd Ht _ Hgone. apply Hrest; [done | rewrite Z.min_l by lia; done |].
        apply Forall_lookup. intros i it. rewrite lookup_drop, lookup_take_Some. intros [Hit Hi].
        unfold slot_gone. rewrite Ek. eapply Hgone; [|done]. lia.
    + apply wp_ret. specialize (Hrest (data v) eq_refl eq_refl).
      rewrite upd_id in Hrest by (rewrite Hl; by destruct v). apply Hrest.
      by rewrite drop_ge by (rewrite length_take; lia).
  - apply wp_ret. specialize (Hrest (data v) eq_refl eq_refl).
    rewrite upd_id in Hrest by (rewrite Hl; by destruct v). apply Hrest.
    apply Forall_true. intros x. unfold slot_gone. by rewrite Ek.
Qed.

(** The new slots of a vector that grows. *)
Definition slot_fresh (inf : sg_vector_init_info) (it : item) : Prop :=
  match init_fn inf with Some k => fresh k it = true | None => True end.

(** Growing: the old slots are untouched, the new ones are initialised. *)
Lemma wp_init_new l v n (Q : unit -> world -> Prop) w :
  w_vecs w !! l = Some v -> info_wf (info v) ->
  0 <= used_count v <= n -> n <= Z.of_nat (length (data v)) ->
  Forall (slot_ok (info v)) (take (Z.to_nat (used_count v)) (data v)) ->
  (forall d, length d = length (data v) ->
     take (Z.to_nat (used_count v)) d = take (Z.to_nat (used_count v)) (data v) ->
     Forall (slot_ok (info v)) (take (Z.to_nat n) d) ->
     Forall (slot_fresh (info v)) (drop (Z.to_nat (used_count v)) (take (Z.to_nat n) d)) ->
     drop (Z.to_nat n) d = drop (Z.to_nat n) (data v) ->
     Q tt (upd l (set_used n (set_data d v)) w)) ->
  wp (sg_vector_init_new l n) Q w.
Proof.
  intros Hl (_ & Hfn & Hmk) Hu Hn Hs HQ. unfold sg_vector_init_new.
  apply wp_bind. eapply wp_read_vec; [done|]. apply wp_bind.
  assert (forall d, length d = length (data v) ->
    take (Z.to_nat (used_count v)) d = take (Z.to_nat (used_count v)) (data v) ->
    Forall (slot_ok (info v)) (take (Z.to_nat n) d) ->
    Forall (slot_fresh (info v)) (drop (Z.to_nat (used_count v)) (take (Z.to_nat n) d)) ->
    drop (Z.to_nat n) d = drop (Z.to_nat n) (data v) ->
    wp (v ← read_vec l;
        if used_count v <? n then write_vec l (set_used n v) else mret tt)
       Q (upd l (set_data d v) w)) as Hrest.
  { intros d Hd Ht HF HN HE. specialize (HQ d Hd Ht HF HN HE).
    apply wp_bind. eapply wp_read_vec; [apply lookup_upd|]. simpl.
    destruct (Z.ltb_spec (used_count v) n).
    - eapply wp_write_vec; [apply lookup_upd|]. by rewrite upd_upd.
    - apply wp_ret. replace n with (used_count v) in HQ by lia. by destruct v. }
  assert (upd l (set_data (data v) v) w = w) as Hid.
  { apply upd_id. rewrite Hl. by destruct v. }
  assert (n = used_count v \/ destroy_fn (info v) = None ->
          Forall (slot_ok (info v)) (take (Z.to_nat n) (data v)) /\
          Forall (slot_fresh (info v)) (drop (Z.to_nat (used_count v)) (take (Z.to_nat n) (data v)))) as Hnone.
  { intros [->|E].
    - split; [done|]. by rewrite drop_ge by (rewrite length_take; lia).
    - split; apply Forall_true; intros x; unfold slot_ok, slot_fresh; rewrite ?Hfn; by rewrite E. }
  rewrite Hfn. destruct (destroy_fn (info v)) as [k|] eqn:Ek.
  - destruct (Z.ltb_spec (used_count v) n).
    + eapply (wp_init_loop l k); [done | done | lia |].
      intros d Hd Ht HE Hok. apply Hrest; [done..| | |].
      3: { by replace (Z.to_nat (used_count v) + Z.to_nat (n - used_count v))%nat with (Z.to_nat n) in HE by lia. }
      2: { apply Forall_lookup. intros i it. rewrite lookup_drop, lookup_take_Some. intros [Hit Hi].
           unfold slot_fresh. rewrite Hfn. eapply Hok; [|done]. lia. }
      apply Forall_lookup. intros i it. rewrite lookup_take_Some. intros [Hit Hi].
      destruct (decide (i < Z.to_nat (used_count v))%nat).
      * assert (data v !! i = Some it) as Hv.
        { rewrite <- (lookup_take_lt (data v) (Z.to_nat (used_count v)) i), <- Ht by done.
          by rewrite lookup_take_lt by done. }
        rewrite Forall_lookup in Hs. apply (Hs i). by rewrite lookup_take_lt.
      * unfold slot_ok. rewrite Ek. eapply Hok; [|done]. lia.
    + apply wp_ret. specialize (Hrest (data v) eq_refl eq_refl).
      rewrite Hid in Hrest. apply Hrest; try done; apply Hnone; left; lia.
  - apply wp_ret. specialize (Hrest (data v) eq_refl eq_refl).
    rewrite Hid in Hrest. apply Hrest; try done; apply Hnone; auto.
Qed.

Lemma wp_vector_free l v (Q : unit -> world -> Prop) w :
  w_vecs w !! l = Some v -> wf_vec v ->
  Q tt (set_vecs (delete l (w_vecs w)) w) -> wp (sg_vector_free (Some l)) Q w.
Proof.
  intros Hl Hwf HQ. apply wp_bind. eapply wp_prove_vector; [done..|].
  rewrite decide_True by done. apply wp_bind.
  eapply wp_destroy_unused; [done | lia | apply Hwf | apply Hwf |].
  intros d _ _ _. eapply wp_free_vec; [apply lookup_upd|].
  unfold upd, set_vecs. simpl. by rewrite delete_insert_eq.
Qed.

(** A cleared vector keeps its memory and holds nothing. *)
Lemma wp_vector_clear l v (Q : unit -> world -> Prop) w :
  w_vecs w !! l = Some v -> wf_vec v ->
  (forall v', wf_vec v' -> used_count v' = 0 -> info v' = info v ->
     alloc_count v' = alloc_count v -> block_shift v' = block_shift v ->
     length (data v') = length (data v) -> Q tt (upd l v' w)) ->
  wp (sg_vector_clear (Some l)) Q w.
Proof.
  intros Hl Hwf HQ. apply wp_bind. eapply wp_prove_vector; [done..|].
  rewrite decide_True by done.
  eapply wp_destroy_unused; [done | lia | apply Hwf | apply Hwf |].
  intros d Hd _ _. pose proof (wf_used _ Hwf). rewrite Z.min_l by lia.
  apply HQ; try done. destruct Hwf. constructor; simpl; try done; rewrite ?Hd; try lia.
Qed.

(** ** Allocation *)

Definition with_env (e : env) (w : world) : world := mk_world (w_vecs w) (w_next w) e.

Lemma wp_realloc_error bytes (Q : unit -> world -> Prop) w :
  (forall e, failed_alloc e -> Q tt (with_env e w)) -> wp (in_env (realloc_error bytes)) Q w.
Proof.
  intros HQ. apply wp_in_env. unfold wp, realloc_error. simpl. apply HQ.
  unfold failed_alloc. by rewrite get_put_error_glob.
Qed.

Definition new_vec (v : sg_vector) (e : env) (w : world) : world :=
  mk_world (<[w_next w := v]> (w_vecs w)) (Pos.succ (w_next w)) e.

Lemma wp_vec_malloc bytes size hd (Q : vptr -> world -> Prop) w :
  VECTOR_SIZE <= bytes ->
  (AFail ∈ e_allocs (w_env w) -> forall e, failed_alloc e -> Q None (with_env e w)) ->
  (forall e, calmer (w_env w) e -> Q (Some (w_next w)) (new_vec (hd (replicate (slots bytes size) IRaw)) e w)) ->
  wp (vec_malloc bytes size hd) Q w.
Proof.
  intros Hb HN HS. unfold vec_malloc, VECTOR_SIZE in *.
  destruct (Z.eqb_spec bytes 0); [lia|]. apply wp_bind, wp_in_env, wp_alloc_request.
  - intros Ha e. apply wp_bind, wp_realloc_error. intros e' He'. apply wp_ret. by apply HN.
  - intros c e Hc He. destruct c; [done| |];
      (destruct (Z.ltb_spec bytes 88); [lia|]); by apply HS.
Qed.

(** The size of a block of [n] slots does not overflow. *)
Definition size_ok (n : Z) (inf : sg_vector_init_info) : Prop :=
  VECTOR_SIZE + n * item_size inf < 2 ^ 64.

Lemma block_bytes_eq n inf :
  0 <= n -> info_wf inf -> size_ok n inf ->
  block_bytes n (item_size inf) = VECTOR_SIZE + n * item_size inf /\
  slots (block_bytes n (item_size inf)) (item_size inf) = Z.to_nat n.
Proof.
  unfold info_wf, size_ok, block_bytes, slots, VECTOR_SIZE. intros Hn [Hi _] Hs.
  rewrite (wrap_small 64 (n * _)) by nia. rewrite (wrap_small 64 (88 + _)) by nia.
  split; [done|]. f_equal. replace (88 + n * item_size inf - 88) with (n * item_size inf) by lia.
  rewrite Z.div_mul by lia. done.
Qed.

Lemma next_power2_round x bs inf :
  0 <= bs < 32 -> 1 <= x -> info_wf inf -> size_ok (round_up x bs) inf ->
  NEXT_POWER2_IN x bs = round_up x bs.
Proof.
  unfold info_wf, size_ok, VECTOR_SIZE. intros Hb Hx [Hi _] Hs.
  pose proof (round_up_bounds x bs ltac:(lia) Hx). unfold round_up in *.
  apply next_power2_eq; [lia | done | nia].
Qed.

(** Creation gives a well-formed vector of [initial_used] fresh items, provided room
    for at least one item is asked for. *)
Lemma wp_create_int bs alloc iu inf (Q : vptr -> world -> Prop) w :
  0 <= bs < 32 -> 0 <= alloc -> 0 <= iu -> 1 <= Z.max alloc iu ->
  info_wf inf -> size_ok (round_up (Z.max alloc iu) bs) inf ->
  (AFail ∈ e_allocs (w_env w) -> forall e, failed_alloc e -> Q None (with_env e w)) ->
  (forall v e, calmer (w_env w) e -> wf_vec v -> used_count v = iu -> info v = inf ->
     block_shift v = bs -> alloc_count v = 2 ^ bs -> Forall (slot_fresh inf) (take (Z.to_nat iu) (data v)) ->
     Q (Some (w_next w)) (new_vec v e w)) ->
  wp (sg_vector_create_int bs alloc iu inf) Q w.
Proof.
  intros Hb Ha Hu Hm Hi Hs HN HS. unfold sg_vector_create_int.
  erewrite next_power2_round by done.
  pose proof (round_up_bounds (Z.max alloc iu) bs ltac:(lia) Hm) as [Hr Hr2].
  destruct (block_bytes_eq (round_up (Z.max alloc iu) bs) inf ltac:(lia) Hi Hs)
    as [Hbytes Hslots].
  assert (u64 (Z.shiftl 1 bs) = 2 ^ bs) as Hpow.
  { rewrite Z.shiftl_1_l. apply wrap_small. split; [lia|]. apply Z.pow_lt_mono_r; lia. }
  apply wp_bind, wp_vec_malloc.
  { rewrite Hbytes. destruct Hi as [Hi0 _].
    pose proof (Z.mul_nonneg_nonneg (round_up (Z.max alloc iu) bs) (item_size inf)).
    lia. }
  { intros Ha' e He. apply wp_ret. by apply HN. }
  intros e Hce. rewrite Hslots, Hpow. apply wp_bind.
  eapply wp_init_new; [apply lookup_insert_eq | | simpl; lia | | |]; simpl.
  - apply Hi.
  - rewrite length_replicate. lia.
  - by rewrite take_0.
  - rewrite length_replicate. intros d Hd _ HF HN' _. apply wp_ret.
    replace (upd _ _ _) with (new_vec (mk_vector SG_VECTOR_START_EYE iu (2 ^ bs) bs inf
                               SG_VECTOR_FINAL_EYE d) e w).
    + apply HS; try done. constructor; simpl; try done; rewrite ?Hd; lia.
    + unfold new_vec, upd, set_vecs. simpl. by rewrite insert_insert_eq.
Qed.

(** What [sg_vector_resize] leaves in the new vector. *)
Record resized (v v' : sg_vector) (n : Z) : Prop := {
  rs_wf : wf_vec v';
  rs_used : used_count v' = n;
  rs_info : info v' = info v;
  rs_shift : block_shift v' = block_shift v;
  rs_keep : take (Z.to_nat (Z.min (used_count v) n)) (data v')
            = take (Z.to_nat (Z.min (used_count v) n)) (data v);
  rs_new : Forall (slot_fresh (info v)) (drop (Z.to_nat (Z.min (used_count v) n)) (take (Z.to_nat n) (data v')));
  rs_gone : Forall (slot_gone (info v)) (drop (Z.to_nat n) (take (Z.to_nat (used_count v)) (data v'))) }.

(** The heap after a successful resize: in place, or at a new address with
    the old block gone. *)
Definition moved (l l' : positive) (v' : sg_vector) (w w' : world) : Prop :=
  calmer (w_env w) (w_env w') /\
  ((l' = l /\ w_vecs w' = <[l := v']> (w_vecs w) /\ w_next w' = w_next w) \/
   (l' = w_next w /\ w_vecs w' = <[l' := v']> (delete l (w_vecs w)) /\
    w_next w' = Pos.succ (w_next w))).

Lemma wp_vec_realloc l v bytes (Q : vptr -> world -> Prop) w :
  w_vecs w !! l = Some v -> 0 < bytes ->
  let v' := set_data (resize_data (data v) (slots bytes (item_size (info v)))) v in
  (AFail ∈ e_allocs (w_env w) -> forall e, failed_alloc e -> Q None (with_env e w)) ->
  (forall l' w', moved l l' v' w w' -> Q (Some l') w') ->
  wp (vec_realloc l bytes) Q w.
Proof.
  intros Hl Hb v' HN HS. unfold vec_realloc. apply wp_bind.
  eapply wp_read_vec; [done|]. destruct (Z.eqb_spec bytes 0); [lia|].
  apply wp_bind, wp_in_env, wp_alloc_request.
  - intros Ha e. apply wp_bind, wp_realloc_error. intros e' He'. apply wp_ret. by apply HN.
  - intros c e Hc He. destruct c; [done| |].
    + apply wp_bind. eapply wp_free_vec; [done|]. unfold vec_new, wp. simpl.
      apply HS. split; [done|]. right. done.
    + apply wp_bind. eapply wp_write_vec; [done|]. apply wp_ret.
      apply HS. split; [done|]. left. done.
Qed.

Lemma moved_lookup l l' v w w' : moved l l' v w w' -> w_vecs w' !! l' = Some v.
Proof.
  intros [_ [(-> & -> & _)|(-> & -> & _)]]; apply lookup_insert_eq.
Qed.

Lemma moved_upd l l' v v' w w' : moved l l' v w w' -> moved l l' v' w (upd l' v' w').
Proof.
  intros [Hc [(-> & E & En)|(-> & E & En)]]; (split; [done|]); [left|right];
    unfold upd, set_vecs; simpl;
    rewrite E, insert_insert_eq; done.
Qed.

Lemma moved_from_upd l l' v1 v w w' : moved l l' v (upd l v1 w) w' -> moved l l' v w w'.
Proof.
  intros [Hc [(-> & E & En)|(-> & E & En)]]; (split; [done|]); [left|right]; simpl in *;
    rewrite E; rewrite ?insert_insert_eq, ?delete_insert_eq; done.
Qed.

Lemma wf_shrink v d n :
  wf_vec v -> 0 <= n <= used_count v -> length d = length (data v) ->
  take (Z.to_nat n) d = take (Z.to_nat n) (data v) ->
  wf_vec (set_used n (set_data d v)).
Proof.
  intros Hwf Hn Hd Ht. destruct Hwf as [? ? ? ? [? ?] ? Hs].
  constructor; simpl; try done; rewrite ?Hd; try lia.
  rewrite Ht. eapply Forall_take_le; [|exact Hs]. lia.
Qed.

(** A block that is cut or grown keeps what is left of its released slots. *)
Lemma gone_resize_data inf d n used len :
  (used <= length d)%nat ->
  Forall (slot_gone inf) (drop n (take used d)) ->
  Forall (slot_gone inf) (drop n (take used (resize_data d len))).
Proof.
  intros Hu HF. unfold resize_data. destruct (decide (len <= length d)%nat).
  - replace (len - length d)%nat with 0%nat by lia. rewrite app_nil_r, take_take.
    destruct (decide (used <= len)%nat); [by rewrite Nat.min_l by lia|].
    rewrite Nat.min_r by lia. rewrite skipn_firstn_comm in HF |- *.
    eapply Forall_take_le; [|exact HF]. lia.
  - rewrite (take_ge d) by lia. by rewrite take_app_le by lia.
Qed.

(** Growing a shrunk vector to [n] items, once its memory holds them. *)
Lemma wp_resize_finish l v d' n alloc (Q : vptr -> world -> Prop) w :
  let used := Z.min n (used_count v) in
  let v1 := set_alloc alloc (set_used used (set_data d' v)) in
  w_vecs w !! l = Some v1 -> wf_vec v -> 0 <= n <= Z.of_nat (length d') ->
  2 ^ block_shift v <= alloc <= Z.of_nat (length d') ->
  take (Z.to_nat used) d' = take (Z.to_nat used) (data v) ->
  Forall (slot_gone (info v)) (drop (Z.to_nat n) (take (Z.to_nat (used_count v)) d')) ->
  (forall v', resized v v' n -> Q (Some l) (upd l v' w)) ->
  wp (sg_vector_init_new l n;; mret (Some l)) Q w.
Proof.
  intros used v1 Hl Hwf Hn Ha Ht Hgone HQ. destruct Hwf as [? ? [? ?] ? [? ?] ? Hs].
  apply wp_bind. eapply wp_init_new; [exact Hl | done | simpl; lia | simpl; lia | |].
  { simpl. subst used. rewrite Ht. eapply Forall_take_le; [|exact Hs]. lia. }
  simpl. intros d Hd Htd HF HN HE. apply wp_ret, HQ.
  constructor; simpl; try done.
  - constructor; simpl; try done; rewrite ?Hd; lia.
  - rewrite Z.min_comm. fold used. by rewrite Htd.
  - by rewrite Z.min_comm.
  - rewrite skipn_firstn_comm, HE, <- skipn_firstn_comm. done.
Qed.

Lemma wp_resize l v n (Q : vptr -> world -> Prop) w :
  w_vecs w !! l = Some v -> wf_vec v -> 1 <= n ->
  size_ok (round_up n (block_shift v)) (info v) ->
  (AFail ∈ e_allocs (w_env w) -> forall e, failed_alloc e ->
     Q None (with_env e (set_vecs (delete l (w_vecs w)) w))) ->
  (forall l' v' w', resized v v' n -> moved l l' v' w w' -> Q (Some l') w') ->
  wp (sg_vector_resize (Some l) n) Q w.
Proof.
  intros Hl Hwf Hn Hs HN HS. pose proof Hwf as [? ? Hi ? [? ?] [? ?] Hok].
  pose proof (round_up_bounds n (block_shift v) ltac:(lia) Hn) as [Hr Hr2].
  apply wp_bind. eapply wp_prove_vector; [done..|]. rewrite decide_False by auto.
  destruct (Z.eqb_spec n 0); [lia|]. apply wp_bind.
  eapply wp_destroy_unused; [done | lia | done | done |]. intros d Hd Ht Hgone.
  apply wp_bind. eapply wp_read_vec; [apply lookup_upd|].
  cbn [block_shift info set_used set_data alloc_count].
  erewrite next_power2_round by (done || lia).
  destruct (Z.eqb_spec (round_up n (block_shift v)) (alloc_count v)) as [Ea|Ea].
  - eapply (wp_resize_finish l v d n (alloc_count v));
      [apply lookup_upd | done | lia | lia | done | done |].
    intros v' Hv'. rewrite upd_upd. eapply HS; [done|]. split; [done|]. left. done.
  - destruct (block_bytes_eq (round_up n (block_shift v)) (info v) ltac:(lia) Hi Hs)
      as [Hbytes Hslots].
    apply wp_bind. eapply wp_vec_realloc; [apply lookup_upd | | |].
    + rewrite Hbytes. unfold VECTOR_SIZE. destruct Hi as [Hi _].
      pose proof (Z.mul_nonneg_nonneg (round_up n (block_shift v)) (item_size (info v))). lia.
    + intros Ha e He. destruct (Z.eqb_spec (round_up n (block_shift v)) 0); [lia|].
      apply wp_bind. eapply wp_vector_free; [apply lookup_upd | |].
      { apply wf_shrink; [done | lia | done | done]. }
      apply wp_ret. specialize (HN Ha e He).
      unfold with_env, set_vecs, upd in *. simpl in *. by rewrite delete_insert_eq.
    + intros l' w' Hm. cbn [info item_size set_data set_used data] in Hm.
      rewrite Hslots in Hm. apply moved_from_upd in Hm.
      apply wp_bind. eapply wp_read_vec; [by eapply moved_lookup|].
      apply wp_bind. eapply wp_write_vec; [by eapply moved_lookup|].
      eapply (wp_resize_finish l' v (resize_data d (Z.to_nat (round_up n (block_shift v)))));
        [apply lookup_upd | done | | | | |].
      1, 2: unfold resize_data; rewrite length_app, length_take, length_replicate; lia.
      { unfold resize_data. rewrite take_app_le by (rewrite length_take; lia).
        rewrite take_take, Nat.min_l by lia. done. }
      { by apply gone_resize_data; [lia|]. }
      intros v' Hv'. rewrite upd_upd. eapply HS; [done|]. by eapply moved_upd.
Qed.

(** Resizing to nothing releases the vector and clears the last error. *)
Lemma wp_resize_zero l v (Q : vptr -> world -> Prop) w :
  w_vecs w !! l = Some v -> wf_vec v ->
  Q None (with_env (put_error_glob error_glob_zero (w_env w))
                   (set_vecs (delete l (w_vecs w)) w)) ->
  wp (sg_vector_resize (Some l) 0) Q w.
Proof.
  intros Hl Hwf HQ. apply wp_bind. eapply wp_prove_vector; [done..|].
  rewrite decide_False by auto. simpl. apply wp_bind.
  eapply wp_vector_free; [done..|]. apply wp_bind, wp_in_env. done.
Qed.

(** ** Copying *)

(** The parts of [info] a deep copy relies on. *)
Definition copy_info (k : kind) (inf : sg_vector_init_info) : Prop :=
  info_wf inf /\ destroy_fn inf = Some k /\ copy_fn inf = Some k /\ copies k = true.

Definition contents (v : sg_vector) : list item := take (Z.to_nat (used_count v)) (data v).

Lemma wf_slot_ok v k i it :
  wf_vec v -> destroy_fn (info v) = Some k -> (i < Z.to_nat (used_count v))%nat ->
  data v !! i = Some it -> item_ok k it = true.
Proof.
  intros Hwf Hk Hi Hit. pose proof (wf_slots _ Hwf) as HF.
  rewrite Forall_lookup in HF. specialize (HF i it).
  rewrite lookup_take_lt in HF by done. specialize (HF Hit).
  unfold slot_ok in HF. by rewrite Hk in HF.
Qed.

Lemma wf_write v k i it :
  wf_vec v -> destroy_fn (info v) = Some k -> item_ok k it = true ->
  wf_vec (set_data (<[i := it]> (data v)) v).
Proof.
  intros [? ? ? ? ? ? HF] Hk Hit.
  constructor; simpl; try done; rewrite ?length_insert; try done.
  apply Forall_lookup. intros j jt. rewrite lookup_take_Some. intros [Hj Hlt].
  destruct (decide (i = j)) as [->|].
  - apply list_lookup_insert_Some in Hj as [(_ & <- & _)|(? & _)]; [|done].
    unfold slot_ok. by rewrite Hk.
  - rewrite list_lookup_insert_ne in Hj by done.
    rewrite Forall_lookup in HF. apply (HF j). by rewrite lookup_take_lt.
Qed.

Lemma wp_copy_loop k src tmp n : forall i sv dv (Q : sg_error * vptr -> world -> Prop) w,
  src <> tmp -> w_vecs w !! src = Some sv -> w_vecs w !! tmp = Some dv ->
  wf_vec sv -> wf_vec dv -> copy_info k (info sv) -> info dv = info sv ->
  used_count dv = used_count sv -> (i + n = Z.to_nat (used_count sv))%nat ->
  take i (data dv) = take i (data sv) ->
  (AFail ∈ e_allocs (w_env w) -> forall rc e, rc <> SG_ERROR_NONE ->
     eg_error (sg_get_error_glob e) = rc -> Q (rc, None) (with_env e (set_vecs (delete tmp (w_vecs w)) w))) ->
  (forall v' e, calmer (w_env w) e -> wf_vec v' -> info v' = info sv ->
     used_count v' = used_count sv -> block_shift v' = block_shift dv -> contents v' = contents sv ->
     Q (SG_ERROR_NONE, Some tmp) (with_env e (upd tmp v' w))) ->
  wp (copy_loop k src tmp i n) Q w.
Proof.
  induction n as [|n IH];
    intros i sv dv Q w Hne Hsv Hdv Hws Hwd Hc Hi Hu Hin Ht HF HS; cbn [copy_loop].
  - apply wp_ret. specialize (HS dv (w_env w) (reflexivity _) Hwd Hi Hu eq_refl).
    rewrite upd_id in HS by done. destruct w. apply HS.
    unfold contents. rewrite Hu. replace (Z.to_nat (used_count sv)) with i by lia. done.
  - pose proof (wf_used _ Hws). pose proof (wf_used _ Hwd). pose proof Hc as (Hi1 & Hk & Hcf & Hcp).
    destruct (lookup_lt_is_Some_2 (data sv) i) as [s Hs]; [lia|].
    destruct (lookup_lt_is_Some_2 (data dv) i) as [d Hd]; [lia|].
    apply wp_bind. eapply wp_read_item; [done..|].
    apply wp_bind. eapply wp_read_item; [done..|].
    assert (destroy_fn (info dv) = Some k) as Hkd by congruence.
    apply wp_bind, wp_in_env, law_copy; [done| | | |].
    1: apply (wf_slot_ok sv k i s); [done | done | lia | done].
    1: apply (wf_slot_ok dv k i d); [done | done | lia | done].
    all: fold (with_env).
    + intros e Hce. apply wp_bind. eapply wp_write_item; [done | lia |].
      apply wp_bind. rewrite list_insert_id by done.
      replace (set_data (data sv) sv) with sv by (by destruct sv).
      rewrite upd_id by done. eapply wp_write_item; [done | lia |].
      rewrite decide_True by done.
      eapply (IH (S i) sv (set_data (<[i := s]> (data dv)) dv));
        [done | | apply lookup_upd | done | | done | done | done | lia | | |].
      * simpl. by rewrite lookup_insert_ne.
      * eapply wf_write; [done.. |]. apply (wf_slot_ok sv k i s); [done | done | lia | done].
      * simpl. rewrite (take_S_r _ _ s), (take_S_r (data sv) _ s); [| done |].
        2: apply list_lookup_insert_eq; lia.
        rewrite take_insert_ge, Ht by lia. done.
      * intros Ha rc e' Hrc He'. specialize (HF (Hce Ha) rc e' Hrc He').
        unfold with_env, set_vecs, upd in *. simpl in *. by rewrite delete_insert_eq.
      * intros v' e' Hce' ? ? ? ? ?. specialize (HS v' e' (transitivity Hce Hce')).
        unfold with_env, set_vecs, upd in *. simpl in *. rewrite insert_insert_eq. by apply HS.
    + intros Ha rc d' e Hrc Hd' He. apply wp_bind. eapply wp_write_item; [done | lia |].
      apply wp_bind. rewrite list_insert_id by done.
      replace (set_data (data sv) sv) with sv by (by destruct sv).
      rewrite upd_id by done. eapply wp_write_item; [done | lia |].
      rewrite decide_False by done. apply wp_bind.
      eapply wp_vector_free; [apply lookup_upd | |].
      { by eapply wf_write. }
      apply wp_ret. specialize (HF Ha rc e Hrc He).
      unfold with_env, set_vecs, upd in *. simpl in *. by rewrite delete_insert_eq.
Qed.

(** A clone is a new vector with the same contents; when it fails the heap is
    as before. *)
Lemma wp_clone k s sv (Q : vptr -> world -> Prop) w :
  w_vecs w !! s = Some sv -> wf_vec sv -> wf_heap w -> copy_info k (info sv) ->
  size_ok (round_up (Z.max (alloc_count sv) (used_count sv)) (block_shift sv)) (info sv) ->
  (AFail ∈ e_allocs (w_env w) -> forall n e, (w_next w <= n)%positive ->
     eg_error (sg_get_error_glob e) <> SG_ERROR_NONE -> Q None (mk_world (w_vecs w) n e)) ->
  (forall v' e, calmer (w_env w) e -> wf_vec v' -> info v' = info sv ->
     used_count v' = used_count sv -> block_shift v' = block_shift sv -> contents v' = contents sv ->
     Q (Some (w_next w)) (new_vec v' e w)) ->
  wp (sg_vector_clone (Some s)) Q w.
Proof.
  intros Hs Hwf Hh Hc Hsz HN HS. pose proof Hwf as [_ _ Hi Hb [? ?] [? ?] _].
  assert (w_vecs w !! w_next w = None) as Hfresh by (apply Hh; lia).
  assert (w_next w <> s) as Hne by congruence.
  apply wp_bind. eapply wp_prove_vector; [done..|].
  apply wp_bind. eapply wp_read_vec; [done|].
  apply wp_bind, wp_create_int; [lia | lia | lia | lia | done | done | |].
  { intros Ha e He. apply wp_ret. apply HN; [done | lia|]. by rewrite He. }
  intros v e Hce Hv Hu Hinf Hbs _ _. apply wp_bind. unfold sg_vector_clone_into_int.
  apply wp_bind. eapply wp_read_vec; [apply lookup_insert_eq|].
  assert (w_vecs (new_vec v e w) !! s = Some sv) as Hs'.
  { simpl. by rewrite lookup_insert_ne. }
  apply wp_bind. eapply wp_read_vec; [done|].
  rewrite Hu, Z.eqb_refl. apply wp_bind, wp_ret. apply wp_bind.
  eapply wp_read_vec; [done|]. pose proof Hc as (_ & _ & -> & _).
  eapply (wp_copy_loop k s (w_next w) _ 0 sv v);
    [done | done | apply lookup_insert_eq | done | done | done | done | done | lia | done | |].
  - intros Ha rc e' Hrc He'. cbn [fst snd]. rewrite decide_False by done.
    apply wp_bind, wp_ret, wp_ret.
    replace (with_env _ _) with (mk_world (w_vecs w) (Pos.succ (w_next w)) e').
    + apply HN; [by apply Hce | lia | by rewrite He'].
    + unfold with_env, set_vecs, new_vec. simpl. by rewrite delete_insert_id.
  - intros v' e' Hce' Hv' Hi' Hu' Hb' Hcont. cbn [fst snd]. rewrite decide_True by done.
    apply wp_ret. specialize (HS v' e' (transitivity Hce Hce') Hv' Hi' Hu' ltac:(congruence) Hcont).
    unfold with_env, upd, set_vecs, new_vec in *. simpl in *. by rewrite insert_insert_eq.
Qed.

Lemma moved_other l l' v w w' x :
  moved l l' v w w' -> wf_heap w -> x <> l -> is_Some (w_vecs w !! x) ->
  (w_vecs w' !! x = w_vecs w !! x) /\ (x <> l').
Proof.
  intros Hm Hh Hx [y Hy].
  assert (x <> w_next w).
  { intros ->. rewrite Hh in Hy; [done | lia]. }
  destruct Hm as [_ [(-> & -> & _)|(-> & -> & _)]];
    rewrite ?lookup_insert_ne, ?lookup_delete_ne by done; done.
Qed.

Lemma moved_delete l l' v w w' :
  moved l l' v w w' -> wf_heap w -> delete l' (w_vecs w') = delete l (w_vecs w).
Proof.
  intros [_ [(-> & -> & _)|(-> & -> & _)]] Hh; [by rewrite delete_insert_eq|].
  apply delete_insert_id. rewrite lookup_delete_None. right. apply Hh. lia.
Qed.

Lemma moved_self l v w : w_vecs w !! l = Some v -> moved l l v w w.
Proof. intros H. split; [done|]. left. by rewrite insert_id. Qed.

(** Overwriting a vector with the contents of another one: the previous
    destination is gone or reused, and on failure nothing is left of it. *)
Lemma wp_clone_into k d s dv sv (Q : sg_error * vptr -> world -> Prop) w :
  d <> s -> w_vecs w !! d = Some dv -> w_vecs w !! s = Some sv ->
  wf_vec dv -> wf_vec sv -> wf_heap w -> copy_info k (info sv) -> info dv = info sv ->
  (used_count dv = used_count sv) \/
    (1 <= used_count sv /\ (AFail ∉ e_allocs (w_env w)) /\
     size_ok (round_up (used_count sv) (block_shift dv)) (info sv)) ->
  (AFail ∈ e_allocs (w_env w) ->
     forall rc w', rc <> SG_ERROR_NONE -> w_vecs w' = delete d (w_vecs w) -> Q (rc, None) w') ->
  (forall d' v' w', wf_vec v' -> info v' = info sv -> used_count v' = used_count sv ->
     contents v' = contents sv -> moved d d' v' w w' -> Q (SG_ERROR_NONE, Some d') w') ->
  wp (sg_vector_clone_into (Some (Some d)) (Some s)) Q w.
Proof.
  intros Hne Hd Hs Hwd Hws Hh Hc Hinf Hcnt HF HS. pose proof Hc as (_ & _ & Hcf & _).
  apply wp_bind. eapply (wp_prove_vector s); [done..|].
  apply wp_bind. eapply (wp_prove_vector d); [done..|].
  apply wp_bind. unfold sg_prove_vector_compat.
  apply wp_bind. eapply (wp_read_vec d); [done|].
  apply wp_bind. eapply (wp_read_vec s); [done|].
  apply wp_bind, wp_assert; [by apply bool_decide_eq_true|]. apply wp_ret.
  apply wp_bind. unfold sg_vector_clone_into_int.
  apply wp_bind. eapply (wp_read_vec d); [done|].
  apply wp_bind. eapply (wp_read_vec s); [done|].
  (* the copy loop, once the destination [t] has the right size *)
  assert (forall t tv w1, moved d t tv w w1 -> wf_vec tv -> info tv = info sv ->
    used_count tv = used_count sv ->
    wp (copy_loop k s t 0 (Z.to_nat (used_count sv)))
       (fun r => wp (if decide (r.1 = SG_ERROR_NONE) then mret (SG_ERROR_NONE, r.2)
                     else sg_vector_free r.2;; rc ← in_env sg_get_error; mret (rc, None)) Q)
       w1) as Hloop.
  { intros t tv w1 Hm Hwt Hit Hut.
    destruct (moved_other _ _ _ _ _ s Hm Hh) as [Es Hst]; [done | eauto |].
    eapply (wp_copy_loop k s t _ 0 sv tv);
      [done | congruence | by eapply moved_lookup | done | done | done | done | done
      | lia | done | |].
    - intros Ha rc e Hrc He. cbn [fst snd]. rewrite decide_False by done.
      apply wp_bind, wp_ret. apply wp_bind, wp_in_env, wp_gets. apply wp_ret.
      simpl. rewrite He. apply HF; [by apply Hm | done|]. simpl. by eapply moved_delete.
    - intros v' e Hce Hv' Hi' Hu' _ Hcont. cbn [fst snd]. rewrite decide_True by done.
      apply wp_ret. eapply HS; [done..|].
      apply (moved_upd _ _ _ v') in Hm.
      destruct Hm as [Hc1 Hm]. split; [by transitivity (w_env w1)|].
      destruct Hm as [(-> & E & En)|(-> & E & En)]; [left|right]; done. }
  destruct (Z.eqb_spec (used_count dv) (used_count sv)) as [E|E].
  - apply wp_bind, wp_ret. apply wp_bind. eapply (wp_read_vec s); [done|]. rewrite Hcf.
    apply (Hloop d dv w); [by apply moved_self | done..].
  - destruct Hcnt as [?|(Hpos & Hnf & Hsz)]; [done|].
    apply wp_bind. eapply wp_resize; [done | done | done | by rewrite Hinf | done |].
    intros t tv w1 [Hwt Hut Hit _ _] Hm.
    destruct (moved_other _ _ _ _ _ s Hm Hh) as [Es Hst]; [done | eauto |].
    apply wp_bind. eapply (wp_read_vec s); [by rewrite Es|]. rewrite Hcf.
    apply (Hloop t tv w1); [done | done | congruence | done].
Qed.

End spec.
