(* ===== verification/VectorDiff.v ===== *)
(** The difference of two snapshots, [sg_vector_compute_diff] of vector.c: the
    loops over the heap compute a pure function of the two contents, and with
    unique names that function pairs every current item with its predecessor. *)

From S2P Require Import Prelude Types CLib Errors Tools Vector VectorSpec.

(** * The bit set of already matched items *)

Definition fits (m : list Z) (j : nat) : Prop := (j / 32 < length m)%nat.

Lemma BIT_SET_length m j : length (BIT_SET m j) = length m.
Proof. apply length_alter. Qed.

Lemma BIT_ISSET_SET m j j' :
  fits m j -> BIT_ISSET (BIT_SET m j) j' = bool_decide (j = j') || BIT_ISSET m j'.
Proof.
  intros Hj. unfold BIT_ISSET, BIT_SET.
  destruct (lookup_lt_is_Some_2 m (j / 32)%nat Hj) as [x Hx].
  destruct (decide (j / 32 = j' / 32)%nat) as [E|E].
  - rewrite <- E, list_lookup_alter_eq, Hx.
    unfold fmap, option_fmap, option_map, default, from_option, id.
    rewrite Z.lor_spec, Z.shiftl_spec by lia.
    rewrite orb_comm. f_equal.
    pose proof (Nat.div_mod_eq j 32). pose proof (Nat.div_mod_eq j' 32).
    destruct (decide (j = j')) as [->|Hne].
    + rewrite bool_decide_eq_true_2 by done. by rewrite Z.sub_diag.
    + rewrite bool_decide_eq_false_2 by done.
      assert (Z.of_nat (j' mod 32) - Z.of_nat (j mod 32) <> 0) by lia.
      rewrite <- (Z.pow_0_r 2). apply Z.pow2_bits_false. lia.
  - rewrite list_lookup_alter_ne by done.
    rewrite bool_decide_eq_false_2; [done|]. intros ->. done.
Qed.

Lemma BIT_ISSET_zero n j : BIT_ISSET (replicate n 0) j = false.
Proof.
  unfold BIT_ISSET. destruct (replicate n 0 !! (j / 32)%nat) as [x|] eqn:E; simpl.
  - apply lookup_replicate in E as [-> _]. apply Z.testbit_0_l.
  - apply Z.testbit_0_l.
Qed.

Section diff.
Context {IO : ItemOps} {IL : ItemLaws} (k : kind).

(** * The pure function the loops compute *)

Fixpoint diff_scan (ls : list item) (j : nat) (m : list Z) (d : item) : item * list Z :=
  match ls with
  | [] => (d, m)
  | l :: ls' =>
      if BIT_ISSET m j then diff_scan ls' (S j) m d
      else if same_name k l d then diff_scan ls' (S j) (BIT_SET m j) (diff_of k l d)
      else diff_scan ls' (S j) m d
  end.

Fixpoint diff_all (ls ds : list item) (m : list Z) : list item :=
  match ds with
  | [] => []
  | d :: ds' =>
      let '(d', m') := diff_scan ls 0 m d in d' :: diff_all ls ds' m'
  end.

(** * Unique names *)

(** What a caller expects: every current item that has a predecessor of the same
    name becomes the difference to it, the others stay as they are. *)
Definition diff_item (last : list item) (d : item) : item :=
  match list_find (fun l => same_name k l d = true) last with
  | Some (_, l) => diff_of k l d
  | None => d
  end.

Definition unique_names (l : list item) : Prop :=
  forall i j a b, l !! i = Some a -> l !! j = Some b -> same_name k a b = true -> i = j.

Definition all_named (l : list item) : Prop := Forall (fun it => named k it = true) l.

Lemma diff_scan_named ls j m d :
  all_named ls -> named k d = true -> named k (diff_scan ls j m d).1 = true.
Proof.
  revert j m d. induction ls as [|l ls IH]; intros j m d Hl Hd; simpl; [done|].
  inversion_clear Hl as [|? ? Hn Hl'].
  destruct (BIT_ISSET m j); [auto|].
  destruct (same_name k l d); [|auto]. apply IH; [done|]. by apply law_diff_named.
Qed.

Lemma diff_scan_length ls j m d : length (diff_scan ls j m d).2 = length m.
Proof.
  revert j m d. induction ls as [|l ls IH]; intros j m d; simpl; [done|].
  destruct (BIT_ISSET m j); [auto|].
  destruct (same_name k l d); [|auto]. by rewrite IH, BIT_SET_length.
Qed.

(** No predecessor left to match: the item and the set stay. *)
Lemma diff_scan_none ls j m d :
  (forall i l, ls !! i = Some l -> BIT_ISSET m (j + i) = false -> same_name k l d = false) ->
  diff_scan ls j m d = (d, m).
Proof.
  revert j. induction ls as [|l ls IH]; intros j H; simpl; [done|].
  assert (diff_scan ls (S j) m d = (d, m)) as E.
  { apply IH. intros i l' Hi Hb. apply (H (S i) l'); [done|].
    by rewrite <- Nat.add_succ_comm. }
  destruct (BIT_ISSET m j) eqn:Eb; [done|].
  rewrite (H O l); [done | done | by rewrite Nat.add_0_r].
Qed.

(** The inner loop against the specification of one item. *)
Lemma diff_scan_spec ls j m d :
  all_named ls -> named k d = true -> unique_names ls ->
  (forall i, (i < length ls)%nat -> fits m (j + i)) ->
  (forall i l, ls !! i = Some l -> same_name k l d = true -> BIT_ISSET m (j + i) = false) ->
  (diff_scan ls j m d).1 = diff_item ls d /\
  (forall b, BIT_ISSET (diff_scan ls j m d).2 b = true ->
     BIT_ISSET m b = true \/
     exists i l, b = (j + i)%nat /\ ls !! i = Some l /\ same_name k l d = true).
Proof.
  revert j m. induction ls as [|l ls IH]; intros j m Hn Hd Hu Hf Hb.
  { split; [done|]. auto. }
  inversion_clear Hn as [|? ? Hl Hls].
  assert (unique_names ls) as Hu'.
  { intros i i' a b Ha Hb' Hs. specialize (Hu (S i) (S i') a b Ha Hb' Hs). lia. }
  assert (forall m', length m' = length m -> forall i, (i < length ls)%nat -> fits m' (S j + i)) as Hf'.
  { intros m' Hm' i Hi. unfold fits. rewrite Hm', Nat.add_succ_comm. apply (Hf (S i)). simpl. lia. }
  cbn [diff_scan]. destruct (same_name k l d) eqn:Es.
  - pose proof (Hb O l eq_refl Es) as Hj. rewrite Nat.add_0_r in Hj. rewrite Hj.
    assert (forall i l', ls !! i = Some l' -> same_name k l' (diff_of k l d) = false) as Hno.
    { intros i l' Hi. rewrite law_diff_name by done.
      destruct (same_name k l' d) eqn:E'; [|done].
      rewrite law_same_sym in Es.
      specialize (Hu (S i) O l' l Hi eq_refl (law_same_trans k l' d l E' Es)). lia. }
    rewrite diff_scan_none by (intros; eauto). split.
    + unfold diff_item. simpl. rewrite decide_True by done. done.
    + intros b Hb'. cbn [snd] in Hb'. rewrite BIT_ISSET_SET in Hb'.
      2: { specialize (Hf O). rewrite Nat.add_0_r in Hf. apply Hf. simpl. lia. }
      apply orb_true_iff in Hb' as [E%bool_decide_eq_true|?]; [right|by left].
      exists O, l. repeat split; [lia | done].
  - assert (forall x, diff_item (l :: ls) d = x <-> diff_item ls d = x) as Hsk.
    { intros x. unfold diff_item. simpl. rewrite decide_False by congruence.
      destruct (list_find _ ls) as [[? ?]|]; done. }
    assert (forall r, r = diff_scan ls (S j) m d ->
      r.1 = diff_item (l :: ls) d /\ (forall b, BIT_ISSET r.2 b = true ->
       BIT_ISSET m b = true \/
       exists i l0, b = (j + i)%nat /\ (l :: ls) !! i = Some l0 /\ same_name k l0 d = true)) as Hgo.
    { intros r ->. destruct (IH (S j) m Hls Hd Hu' (Hf' m eq_refl)) as [E1 E2].
      { intros i l' Hi Hs'. rewrite Nat.add_succ_comm. by apply (Hb (S i) l'). }
      split; [symmetry; by apply Hsk|]. intros b Hb'.
      destruct (E2 b Hb') as [?|(i & l' & -> & ? & ?)]; [by left|].
      right. exists (S i), l'. repeat split; [lia | done | done]. }
    destruct (BIT_ISSET m j); by apply Hgo.
Qed.

(** The outer loop: with unique names on both sides every item gets its own
    predecessor. *)
Lemma diff_all_spec ls ds m :
  all_named ls -> all_named ds -> unique_names ls -> unique_names ds ->
  (forall i, (i < length ls)%nat -> fits m i) ->
  (forall b l d, BIT_ISSET m b = true -> ls !! b = Some l -> d ∈ ds ->
     same_name k l d = false) ->
  diff_all ls ds m = map (diff_item ls) ds.
Proof.
  revert m. induction ds as [|d ds IH]; intros m Hls Hds Hul Hud Hf Hb; [done|].
  inversion_clear Hds as [|? ? Hd Hds']. cbn [diff_all map].
  destruct (diff_scan ls 0 m d) as [d' m'] eqn:E.
  pose proof (diff_scan_length ls 0 m d) as Hlen. rewrite E in Hlen. simpl in Hlen.
  destruct (diff_scan_spec ls 0 m d) as [E1 E2]; [done | done | done | auto | |].
  { intros i l Hi Hs. simpl. destruct (BIT_ISSET m i) eqn:Eb; [|done].
    rewrite (Hb i l d Eb Hi) in Hs; [done | set_solver]. }
  rewrite E in E1, E2. simpl in E1, E2. rewrite E1. f_equal.
  apply IH; [done | done | done | | |].
  - intros i j a b Ha Hb' Hs. specialize (Hud (S i) (S j) a b Ha Hb' Hs). lia.
  - intros i Hi. unfold fits. rewrite Hlen. by apply Hf.
  - intros b l x Hbit Hl Hx. destruct (E2 b Hbit) as [Hold|(i & l' & -> & Hi & Hs)].
    + eapply Hb; [done | done | set_solver].
    + simpl in Hl. simplify_eq. destruct (same_name k l x) eqn:Ex; [|done].
      apply list_elem_of_lookup in Hx as [p Hp].
      (* both [d] and [x] carry the name of [l] *)
      rewrite law_same_sym in Hs.
      specialize (Hud O (S p) d x eq_refl Hp (law_same_trans k d l x Hs Ex)). lia.
Qed.

(** * The loops compute the pure function *)

Lemma wp_diff_inner d l i lv n : forall j m x dv (Q : list Z -> world -> Prop) w,
  d <> l -> w_vecs w !! d = Some dv -> w_vecs w !! l = Some lv -> wf_vec lv ->
  (j + n = Z.to_nat (used_count lv))%nat -> all_named (contents lv) ->
  data dv !! i = Some x -> named k x = true ->
  (let r := diff_scan (drop j (contents lv)) j m x in
   Q r.2 (upd d (set_data (<[i := r.1]> (data dv)) dv) w)) ->
  wp (diff_inner k k d l i j n m) Q w.
Proof.
  induction n as [|n IH]; intros j m x dv Q w Hne Hd Hl Hwl Hj Hn Hx Hnx HQ;
    cbn [diff_inner]; pose proof (wf_used _ Hwl) as Hu.
  - apply wp_ret. rewrite drop_ge in HQ by (unfold contents; rewrite length_take; lia).
    simpl in HQ. rewrite list_insert_id in HQ by done.
    rewrite upd_id in HQ; [done|]. rewrite Hd. by destruct dv.
  - destruct (lookup_lt_is_Some_2 (data lv) j) as [y Hy]; [lia|].
    assert (contents lv !! j = Some y) as Hcy.
    { unfold contents. rewrite lookup_take_lt by lia. done. }
    rewrite (drop_S _ _ _ Hcy) in HQ. cbn [diff_scan] in HQ.
    assert (named k y = true) as Hny by (eapply (Forall_lookup_1 _ _ _ _ Hn); done).
    destruct (BIT_ISSET m j); [by eapply IH; try done; lia|].
    apply wp_bind. eapply wp_read_item; [done..|].
    apply wp_bind. eapply wp_read_item; [done..|].
    apply wp_bind, (wp_in_env_pure _ _ (fun z => (z =? 0) = same_name k y x)).
    { intros Q' HQ'. by apply law_compare. }
    intros z ->. destruct (same_name k y x); [|by eapply IH; try done; lia].
    apply wp_bind, (wp_in_env_pure _ _ (fun r => r = (SG_ERROR_NONE, diff_of k y x))).
    { intros Q' HQ'. apply law_diff; [done..|]. by apply HQ'. }
    intros ? ->. apply wp_bind. eapply wp_write_item; [done | by eapply lookup_lt_Some |].
    eapply (IH (S j) (BIT_SET m j) (diff_of k y x));
      [done | apply lookup_upd | simpl; by rewrite lookup_insert_ne | done | lia | done | | |].
    + simpl. apply list_lookup_insert_eq. by eapply lookup_lt_Some.
    + by apply law_diff_named.
    + cbn [snd]. rewrite upd_upd. simpl. by rewrite list_insert_insert_eq.
Qed.

Lemma wp_diff_outer d l lv n : forall i m dv (Q : unit -> world -> Prop) w,
  d <> l -> w_vecs w !! d = Some dv -> w_vecs w !! l = Some lv -> wf_vec lv ->
  all_named (contents lv) -> (i + n <= length (data dv))%nat ->
  all_named (take n (drop i (data dv))) ->
  Q tt (upd d (set_data (take i (data dv) ++
                         diff_all (contents lv) (take n (drop i (data dv))) m ++
                         drop (i + n) (data dv)) dv) w) ->
  wp (diff_outer k k d l (Z.to_nat (used_count lv)) i n m) Q w.
Proof.
  induction n as [|n IH]; intros i m dv Q w Hne Hd Hl Hwl Hn Hi Hnd HQ; cbn [diff_outer].
  - apply wp_ret. rewrite take_0, Nat.add_0_r in HQ. simpl in HQ.
    rewrite take_drop, upd_id in HQ; [done|]. rewrite Hd. by destruct dv.
  - destruct (lookup_lt_is_Some_2 (data dv) i) as [x Hx]; [lia|].
    rewrite (drop_S _ _ _ Hx) in Hnd, HQ. cbn [take diff_all] in Hnd, HQ.
    inversion_clear Hnd as [|? ? Hnx Hnd'].
    apply wp_bind. eapply (wp_diff_inner d l i lv _ 0 m x dv); try done.
    rewrite drop_0. destruct (diff_scan (contents lv) 0 m x) as [x' m']. cbn [fst snd] in *.
    eapply IH; [done | apply lookup_upd | simpl; by rewrite lookup_insert_ne | done | done
               | simpl; rewrite length_insert; lia | simpl; by rewrite drop_insert_lt by lia |].
    rewrite upd_upd. cbn [data set_data]. rewrite !drop_insert_lt by lia.
    rewrite (take_S_r _ _ x') by (apply list_lookup_insert_eq; lia).
    rewrite take_insert_ge, <- app_assoc by lia. cbn [app].
    replace (S i + n)%nat with (i + S n)%nat by lia. done.
Qed.

Definition diff_info (inf : sg_vector_init_info) : Prop :=
  copy_info k inf /\ compute_diff_fn inf = Some k /\ compare_fn inf = Some k.

(** The words of the bit set [matched] of a vector of [n] items. *)
Definition matched_words (n : Z) : list Z := replicate (Z.to_nat (n / 32) + 1) 0.

Lemma matched_fits n i : 0 <= n -> (i < Z.to_nat n)%nat -> fits (matched_words n) i.
Proof.
  intros Hn Hi. unfold fits, matched_words. rewrite length_replicate.
  assert (i / 32 <= Z.to_nat n / 32)%nat by (apply Nat.Div0.div_le_mono; lia).
  rewrite Z2Nat.inj_div by lia. change (Z.to_nat 32) with 32%nat. lia.
Qed.

(** The vector that holds the difference, once the current one is copied. *)
Lemma wp_diff_vectors d l lv dv (Q : unit -> world -> Prop) w :
  d <> l -> w_vecs w !! d = Some dv -> w_vecs w !! l = Some lv ->
  wf_vec lv -> wf_vec dv -> destroy_fn (info dv) = Some k ->
  all_named (contents lv) -> all_named (contents dv) ->
  (forall v', wf_vec v' -> info v' = info dv -> used_count v' = used_count dv ->
     contents v' = diff_all (contents lv) (contents dv) (matched_words (used_count lv)) ->
     Q tt (upd d v' w)) ->
  wp (diff_outer k k d l (Z.to_nat (used_count lv)) 0 (Z.to_nat (used_count dv))
        (matched_words (used_count lv))) Q w.
Proof.
  intros Hne Hd Hl Hwl Hwd Hdk Hnl Hnd HQ. pose proof (wf_used _ Hwd).
  eapply wp_diff_outer; [done | done | done | done | done | lia | by rewrite drop_0 |].
  rewrite drop_0, take_0. cbn [app Nat.add].
  change (take (Z.to_nat (used_count dv)) (data dv)) with (contents dv).
  set (m := matched_words _) in *.
  assert (forall ls ds m', length (diff_all ls ds m') = length ds) as Hlen.
  { intros ls ds. induction ds as [|y ds IH]; intros m'; [done|]. simpl.
    destruct (diff_scan ls 0 m' y). simpl. by rewrite IH. }
  assert (forall ls ds m', all_named ls -> all_named ds -> all_named (diff_all ls ds m')) as Hnam.
  { intros ls ds. induction ds as [|y ds IH]; intros m' Hls Hds; [constructor|]. simpl.
    inversion_clear Hds. pose proof (diff_scan_named ls 0 m' y).
    destruct (diff_scan ls 0 m' y). simpl in *. constructor; [auto|by apply IH]. }
  assert (length (contents dv) = Z.to_nat (used_count dv)) as Hlc.
  { unfold contents. rewrite length_take. lia. }
  assert (take (Z.to_nat (used_count dv))
    (diff_all (contents lv) (contents dv) m ++ drop (Z.to_nat (used_count dv)) (data dv))
    = diff_all (contents lv) (contents dv) m) as Htk.
  { rewrite take_app_le by (rewrite Hlen; lia). apply take_ge. rewrite Hlen. lia. }
  apply HQ; [|done|done|unfold contents at 1; exact Htk].
  destruct Hwd. constructor; cbn [start_eye final_eye info block_shift used_count alloc_count data set_data]; try done;
    rewrite ?length_app, ?Hlen, ?length_drop; try lia.
  rewrite Htk. eapply Forall_impl; [by apply Hnam|].
  intros y Hy. unfold slot_ok. rewrite Hdk. by apply law_named.
Qed.

(** The destinations the computation handles: a new one; one with as many items as
    the current snapshot; and one of another size, which is resized, when the
    current snapshot is not empty and no allocation fails. The two cases left out
    are defects of [sg_vector_clone_into]: see [clone_into_empty_dangles] for the
    first; in the second [*dest] still points to the vector that the failed resize
    released. *)
Definition dest_ok (dest : vptr) (c l : positive) (cv : sg_vector) (w : world) : Prop :=
  match dest with
  | None => size_ok (round_up (Z.max (alloc_count cv) (used_count cv)) (block_shift cv)) (info cv)
  | Some d =>
      d <> c /\ d <> l /\ exists dv, w_vecs w !! d = Some dv /\ wf_vec dv /\ info dv = info cv /\
      (used_count dv = used_count cv \/
       (1 <= used_count cv /\ (AFail ∉ e_allocs (w_env w)) /\
        size_ok (round_up (used_count cv) (block_shift dv)) (info cv)))
  end.

(** What is left of the heap apart from the destination. *)
Definition dropped (dest : vptr) (w : world) : gmap positive sg_vector :=
  match dest with Some d => delete d (w_vecs w) | None => w_vecs w end.

Lemma wp_clone_dest dest c l cv lv (Q : sg_error * vptr -> world -> Prop) w :
  wf_heap w -> w_vecs w !! c = Some cv -> w_vecs w !! l = Some lv -> wf_vec cv ->
  copy_info k (info cv) -> dest_ok dest c l cv w ->
  (AFail ∈ e_allocs (w_env w) ->
     forall rc w', rc <> SG_ERROR_NONE -> w_vecs w' = dropped dest w -> Q (rc, None) w') ->
  (forall d v' w', calmer (w_env w) (w_env w') -> wf_vec v' -> info v' = info cv -> used_count v' = used_count cv ->
     contents v' = contents cv -> d <> c -> d <> l ->
     w_vecs w' = <[d := v']> (dropped dest w) -> Q (SG_ERROR_NONE, Some d) w') ->
  wp (sg_vector_clone_into (Some dest) (Some c)) Q w.
Proof.
  intros Hh Hc Hl Hwc Hci Hdest HF HS. destruct dest as [d|].
  - destruct Hdest as (Hdc & Hdl & dv & Hd & Hwd & Hinf & Hcnt).
    eapply wp_clone_into; [done..| |].
    + intros Ha rc w' Hrc Hw'. by apply HF.
    + intros d' v' w' Hv' Hi' Hu' Hcont Hm.
      destruct (moved_other _ _ _ _ _ c Hm Hh) as [_ ?]; [done | eauto |].
      destruct (moved_other _ _ _ _ _ l Hm Hh) as [_ ?]; [done | eauto |].
      eapply HS; try done; [apply Hm|].
      destruct Hm as [_ [(-> & -> & _)|(-> & -> & _)]]; simpl; [|done].
      by rewrite insert_delete_eq.
  - assert (w_vecs w !! w_next w = None) as Hfr by (apply Hh; lia).
    apply wp_bind. eapply (wp_prove_vector c); [done..|].
    apply wp_bind. eapply wp_clone; [done | done | done | done | done | |].
    + intros Ha n e Hn He. apply wp_bind, wp_ret. apply wp_bind, wp_in_env, wp_gets, wp_ret.
      simpl. by apply HF.
    + intros v' e Hce Hv' Hi' Hu' _ Hcont. apply wp_ret. eapply HS; try done; congruence.
Qed.

Lemma wp_compute_diff dest c l cv lv (Q : sg_error * vptr -> world -> Prop) w :
  wf_heap w -> w_vecs w !! c = Some cv -> w_vecs w !! l = Some lv -> wf_vec cv -> wf_vec lv ->
  diff_info (info cv) -> info lv = info cv -> dest_ok dest c l cv w ->
  all_named (contents lv) -> all_named (contents cv) ->
  (AFail ∈ e_allocs (w_env w) ->
     forall rc w', rc <> SG_ERROR_NONE -> w_vecs w' = dropped dest w -> Q (rc, None) w') ->
  (forall d v' w', calmer (w_env w) (w_env w') -> wf_vec v' -> info v' = info cv -> used_count v' = used_count cv ->
     contents v' = diff_all (contents lv) (contents cv) (matched_words (used_count lv)) ->
     d <> c -> d <> l -> w_vecs w' = <[d := v']> (dropped dest w) ->
     Q (SG_ERROR_NONE, Some d) w') ->
  wp (sg_vector_compute_diff (Some dest) (Some c) (Some l)) Q w.
Proof.
  intros Hh Hc Hl Hwc Hwl (Hci & Hdf & Hcf) Hinf Hdest Hnl Hnc HF HS.
  assert (forall x, (x = c \/ x = l) -> dropped dest w !! x = w_vecs w !! x) as Hdr.
  { intros x Hx. unfold dropped. destruct dest as [d|]; [|done].
    destruct Hdest as (? & ? & _). rewrite lookup_delete_ne; [done|]. destruct Hx; congruence. }
  apply wp_bind. eapply (wp_clone_dest dest c l); [done..| |].
  - intros Ha rc w' Hrc Hw'. cbn [fst]. rewrite decide_True by done. apply wp_ret. by apply HF.
  - intros d v' w' Hce Hv' Hi' Hu' Hcont Hdc Hdl Hw'. cbn [fst snd].
    rewrite decide_False by congruence.
    assert (w_vecs w' !! c = Some cv) as Hc'.
    { rewrite Hw', lookup_insert_ne, Hdr by auto. done. }
    assert (w_vecs w' !! l = Some lv) as Hl'.
    { rewrite Hw', lookup_insert_ne, Hdr by auto. done. }
    assert (w_vecs w' !! d = Some v') as Hd' by (rewrite Hw'; apply lookup_insert_eq).
    apply wp_bind. eapply (wp_read_vec c); [done|]. rewrite Hdf, Hcf.
    apply wp_bind. eapply (wp_prove_vector l); [done..|].
    apply wp_bind. unfold sg_prove_vector_compat.
    apply wp_bind. eapply (wp_read_vec c); [done|].
    apply wp_bind. eapply (wp_read_vec l); [done|].
    apply wp_bind, wp_assert; [by apply bool_decide_eq_true|]. apply wp_ret.
    apply wp_bind. eapply (wp_read_vec l); [done|].
    apply wp_bind. eapply (wp_read_vec d); [done|].
    apply wp_bind. eapply (wp_diff_vectors d l lv v');
      [done | done | done | done | done | rewrite Hi'; apply Hci | done | by rewrite Hcont |].
    intros v2 Hv2 Hi2 Hu2 Hc2. apply wp_ret. eapply HS; try done; [congruence | congruence | |].
    + by rewrite Hc2, Hcont.
    + simpl. rewrite Hw'. apply insert_insert_eq.
Qed.
End diff.
