(* ===== verification/Items.v ===== *)
(** The functions libstatgrab registers for the structures it keeps in vectors
    (disk_stats.c, network_stats.c, user_stats.c, process_stats.c, os_info.c): one
    definition per C function, and the proof that they keep the promises the
    vector code relies on. *)

From S2P Require Import Prelude Types CLib Errors Tools Vector VectorSpec VectorDiff.

(** What memory nobody wrote reads as: a character, and each structure. *)
Class Memory := {
  junk : ascii;
  raw_fs : sg_fs_stats;
  raw_disk_io : sg_disk_io_stats;
  raw_network_io : sg_network_io_stats;
  raw_network_iface : sg_network_iface_stats;
  raw_user : sg_user_stats;
  raw_process : sg_process_stats;
  raw_host : sg_host_info;
  raw_load : sg_load_stats;
  raw_mem : sg_mem_stats;
  raw_swap : sg_swap_stats;
  raw_page : sg_page_stats;
  raw_cpu : sg_cpu_stats;
  raw_cpu_percents : sg_cpu_percents;
  raw_process_count : sg_process_count }.

(** * Field updates *)

Definition fs_set_names (n c t m : char_ptr) (d : sg_fs_stats) : sg_fs_stats :=
  mk_fs_stats n c t m (fs_device_type d) (fs_size d) (fs_used d) (fs_free d) (fs_avail d)
    (fs_total_inodes d) (fs_used_inodes d) (fs_free_inodes d) (fs_avail_inodes d)
    (fs_io_size d) (fs_block_size d) (fs_total_blocks d) (fs_free_blocks d)
    (fs_used_blocks d) (fs_avail_blocks d) (fs_systime d).

Definition dio_set_name (n : char_ptr) (d : sg_disk_io_stats) : sg_disk_io_stats :=
  mk_disk_io_stats n (dio_read_bytes d) (dio_write_bytes d) (dio_systime d).

Definition nio_set_name (n : char_ptr) (d : sg_network_io_stats) : sg_network_io_stats :=
  mk_network_io_stats n (nio_tx d) (nio_rx d) (nio_ipackets d) (nio_opackets d)
    (nio_ierrors d) (nio_oerrors d) (nio_collisions d) (nio_systime d).

Definition nif_set_name (n : char_ptr) (d : sg_network_iface_stats) : sg_network_iface_stats :=
  mk_network_iface_stats n (nif_speed d) (nif_factor d) (nif_duplex d) (nif_up d)
    (nif_systime d).

(** A [const char *] argument read from a field. *)
Definition field_arg (p : char_ptr) : M env (option string) :=
  match p with
  | CNull => mret None
  | _ => s ← read_ptr p; mret (Some s)
  end.

Section items.
Context {mem : Memory}.

Definition update_field (d s : char_ptr) : M env (sg_error * char_ptr) :=
  a ← field_arg s; sg_update_string junk d a.

(** * disk_stats.c: file systems *)

Definition sg_fs_stats_item_init (d : sg_fs_stats) : sg_fs_stats :=
  fs_set_names CNull CNull CNull CNull d.

Definition sg_fs_stats_item_copy (s d : sg_fs_stats) : M env (sg_error * sg_fs_stats) :=
  let fail (d' : sg_fs_stats) : M env (sg_error * sg_fs_stats) :=
    rc ← sg_get_error; mret (rc, d') in
  n ← update_field (fs_device_name d) (fs_device_name s);
  let d := fs_set_names n.2 (fs_device_canonical d) (fs_fs_type d) (fs_mnt_point d) d in
  if decide (SG_ERROR_NONE <> n.1) then fail d else
  c ← update_field (fs_device_canonical d) (fs_device_canonical s);
  let d := fs_set_names (fs_device_name d) c.2 (fs_fs_type d) (fs_mnt_point d) d in
  if decide (SG_ERROR_NONE <> c.1) then fail d else
  t ← update_field (fs_fs_type d) (fs_fs_type s);
  let d := fs_set_names (fs_device_name d) (fs_device_canonical d) t.2 (fs_mnt_point d) d in
  if decide (SG_ERROR_NONE <> t.1) then fail d else
  m ← update_field (fs_mnt_point d) (fs_mnt_point s);
  let d := fs_set_names (fs_device_name d) (fs_device_canonical d) (fs_fs_type d) m.2 d in
  if decide (SG_ERROR_NONE <> m.1) then fail d else
  mret (SG_ERROR_NONE,
    mk_fs_stats (fs_device_name d) (fs_device_canonical d) (fs_fs_type d) (fs_mnt_point d)
      (fs_device_type s) (fs_size s) (fs_used s) (fs_free s) (fs_avail s)
      (fs_total_inodes s) (fs_used_inodes s) (fs_free_inodes s) (fs_avail_inodes s)
      (fs_io_size s) (fs_block_size s) (fs_total_blocks s) (fs_free_blocks s)
      (fs_used_blocks s) (fs_avail_blocks s) (fs_systime s)).

(** [free] and [systime] are not subtracted. *)
Definition sg_fs_stats_item_compute_diff (s d : sg_fs_stats) : sg_fs_stats :=
  (mk_fs_stats (fs_device_name d) (fs_device_canonical d) (fs_fs_type d) (fs_mnt_point d)
    (fs_device_type d)
    (fs_size d -u fs_size s) (fs_used d -u fs_used s) (fs_free d)
    (fs_avail d -u fs_avail s)
    (fs_total_inodes d -u fs_total_inodes s) (fs_used_inodes d -u fs_used_inodes s)
    (fs_free_inodes d -u fs_free_inodes s) (fs_avail_inodes d -u fs_avail_inodes s)
    (fs_io_size d -u fs_io_size s) (fs_block_size d -u fs_block_size s)
    (fs_total_blocks d -u fs_total_blocks s) (fs_free_blocks d -u fs_free_blocks s)
    (fs_used_blocks d -u fs_used_blocks s) (fs_avail_blocks d -u fs_avail_blocks s)
    (fs_systime d))%sg.

Definition strcmp_field (a b : char_ptr) : M env Z :=
  x ← read_ptr a; y ← read_ptr b; mret (strcmp x y).

Definition sg_fs_stats_item_compare (a b : sg_fs_stats) : M env Z :=
  rc ← strcmp_field (fs_device_name a) (fs_device_name b);
  if negb (rc =? 0) then mret rc else
  rc ← strcmp_field (fs_device_canonical a) (fs_device_canonical b);
  if negb (rc =? 0) then mret rc else
  rc ← strcmp_field (fs_mnt_point a) (fs_mnt_point b);
  if negb (rc =? 0) then mret rc else
  rc ← strcmp_field (fs_fs_type a) (fs_fs_type b);
  if negb (rc =? 0) then mret rc else
  mret 0.

Definition sg_fs_stats_item_destroy (d : sg_fs_stats) : M env sg_fs_stats :=
  n ← free_ptr (fs_device_name d);
  c ← free_ptr (fs_device_canonical d);
  t ← free_ptr (fs_fs_type d);
  m ← free_ptr (fs_mnt_point d);
  mret (fs_set_names n c t m d).

(** * disk_stats.c: disk transfers *)

Definition sg_disk_io_stats_item_init (d : sg_disk_io_stats) : sg_disk_io_stats :=
  dio_set_name CNull d.

Definition sg_disk_io_stats_item_copy (s d : sg_disk_io_stats)
    : M env (sg_error * sg_disk_io_stats) :=
  n ← update_field (dio_disk_name d) (dio_disk_name s);
  let d := dio_set_name n.2 d in
  if decide (SG_ERROR_NONE <> n.1) then rc ← sg_get_error; mret (rc, d) else
  mret (SG_ERROR_NONE, mk_disk_io_stats (dio_disk_name d) (dio_read_bytes s)
                         (dio_write_bytes s) (dio_systime s)).

Definition sg_disk_io_stats_item_compute_diff (s d : sg_disk_io_stats) : sg_disk_io_stats :=
  (mk_disk_io_stats (dio_disk_name d)
    (dio_read_bytes d -u dio_read_bytes s) (dio_write_bytes d -u dio_write_bytes s)
    (s64 (dio_systime d - dio_systime s)))%sg.

Definition sg_disk_io_stats_item_compare (a b : sg_disk_io_stats) : M env Z :=
  strcmp_field (dio_disk_name a) (dio_disk_name b).

Definition sg_disk_io_stats_item_destroy (d : sg_disk_io_stats) : M env sg_disk_io_stats :=
  _ ← free_ptr (dio_disk_name d);
  mret (dio_set_name CNull d).

(** * network_stats.c: transfer counters *)

Definition sg_network_io_stats_item_init (d : sg_network_io_stats) : sg_network_io_stats :=
  mk_network_io_stats CNull 0 0 0 0 0 0 0 0.

Definition sg_network_io_stats_item_copy (s d : sg_network_io_stats)
    : M env (sg_error * sg_network_io_stats) :=
  n ← update_field (nio_interface_name d) (nio_interface_name s);
  let d := nio_set_name n.2 d in
  if decide (SG_ERROR_NONE <> n.1) then rc ← sg_get_error; mret (rc, d) else
  mret (SG_ERROR_NONE,
    mk_network_io_stats (nio_interface_name d) (nio_tx s) (nio_rx s) (nio_ipackets s)
      (nio_opackets s) (nio_ierrors s) (nio_oerrors s) (nio_collisions s) (nio_systime s)).

(** The branch for systems with 32-bit counters, which includes Linux. *)
Definition MAXVAL : Z := 0x100000000.

Definition transfer_diff (new old : Z) : Z :=
  let cmp_new := s64 new in
  let cmp_old := s64 old in
  if cmp_old <=? cmp_new then u64 (new - old)
  else u64 (MAXVAL + cmp_new - cmp_old).

Definition sg_network_io_stats_item_compute_diff (s d : sg_network_io_stats)
    : sg_network_io_stats :=
  mk_network_io_stats (nio_interface_name d)
    (transfer_diff (nio_tx d) (nio_tx s)) (transfer_diff (nio_rx d) (nio_rx s))
    (transfer_diff (nio_ipackets d) (nio_ipackets s))
    (transfer_diff (nio_opackets d) (nio_opackets s))
    (transfer_diff (nio_ierrors d) (nio_ierrors s))
    (transfer_diff (nio_oerrors d) (nio_oerrors s))
    (transfer_diff (nio_collisions d) (nio_collisions s))
    (s64 (nio_systime d - nio_systime s)).

Definition sg_network_io_stats_item_compare (a b : sg_network_io_stats) : M env Z :=
  strcmp_field (nio_interface_name a) (nio_interface_name b).

Definition sg_network_io_stats_item_destroy (d : sg_network_io_stats)
    : M env sg_network_io_stats :=
  _ ← free_ptr (nio_interface_name d);
  mret (nio_set_name CNull d).

(** * network_stats.c: interface properties *)

Definition sg_network_iface_stats_item_init (d : sg_network_iface_stats)
    : sg_network_iface_stats :=
  mk_network_iface_stats CNull 0 0 SG_IFACE_DUPLEX_UNKNOWN SG_IFACE_DOWN 0.

(** The destination is the first parameter. *)
Definition sg_network_iface_stats_item_copy (d s : sg_network_iface_stats)
    : M env (sg_error * sg_network_iface_stats) :=
  n ← update_field (nif_interface_name d) (nif_interface_name s);
  let d := nif_set_name n.2 d in
  if decide (SG_ERROR_NONE <> n.1) then rc ← sg_get_error; mret (rc, d) else
  mret (SG_ERROR_NONE,
    mk_network_iface_stats (nif_interface_name d) (nif_speed s) (nif_factor s)
      (nif_duplex s) (nif_up s) (nif_systime s)).

Definition sg_network_iface_stats_item_destroy (d : sg_network_iface_stats)
    : M env sg_network_iface_stats :=
  n ← free_ptr (nif_interface_name d);
  mret (nif_set_name n d).

(** * user_stats.c *)

Definition sg_user_stats_item_init (d : sg_user_stats) : sg_user_stats :=
  mk_user_stats CNull CNull 0 CNull CNull (usr_pid d) 0 0.

Definition sg_user_stats_item_destroy (d : sg_user_stats) : M env sg_user_stats :=
  l ← free_ptr (usr_login_name d);
  r ← free_ptr (usr_record_id d);
  v ← free_ptr (usr_device d);
  h ← free_ptr (usr_hostname d);
  mret (mk_user_stats l r (usr_record_id_size d) v h (usr_pid d) (usr_login_time d)
          (usr_systime d)).

(** * process_stats.c *)

Definition ps_set (n t : char_ptr) (sess : Z) (d : sg_process_stats) : sg_process_stats :=
  mk_process_stats n t (ps_pid d) (ps_parent d) (ps_pgid d) sess (ps_uid d) (ps_euid d)
    (ps_gid d) (ps_egid d) (ps_context_switches d) (ps_voluntary_context_switches d)
    (ps_involuntary_context_switches d) (ps_proc_size d) (ps_proc_resident d)
    (ps_start_time d) (ps_time_spent d) (ps_cpu_percent d) (ps_nice d) (ps_state d)
    (ps_systime d).

Definition sg_process_stats_item_init (d : sg_process_stats) : sg_process_stats :=
  ps_set CNull CNull 0 d.

Definition sg_process_stats_item_destroy (d : sg_process_stats) : M env sg_process_stats :=
  n ← free_ptr (ps_process_name d);
  t ← free_ptr (ps_proctitle d);
  mret (ps_set n t (ps_sessid d) d).

(** * os_info.c *)

Definition host_zero : sg_host_info :=
  mk_host_info CNull CNull CNull CNull CNull 0 sg_unknown_configuration 0 0 0 0.

Definition sg_os_stats_item_init (d : sg_host_info) : sg_host_info := host_zero.

Definition sg_os_stats_item_destroy (d : sg_host_info) : M env sg_host_info :=
  _ ← free_ptr (hi_os_name d);
  _ ← free_ptr (hi_os_release d);
  _ ← free_ptr (hi_os_version d);
  _ ← free_ptr (hi_platform d);
  _ ← free_ptr (hi_hostname d);
  mret host_zero.

(** * The functions behind the pointers of an [sg_vector_init_info] *)

Definition as_fs (it : item) := match it with IFs s => s | _ => raw_fs end.
Definition as_disk_io (it : item) := match it with IDiskIo s => s | _ => raw_disk_io end.
Definition as_network_io (it : item) := match it with INetIo s => s | _ => raw_network_io end.
Definition as_network_iface (it : item) :=
  match it with INetIface s => s | _ => raw_network_iface end.
Definition as_user (it : item) := match it with IUser s => s | _ => raw_user end.
Definition as_process (it : item) := match it with IProcess s => s | _ => raw_process end.
Definition as_host (it : item) := match it with IHost s => s | _ => raw_host end.

Definition item_init (k : kind) (it : item) : M env item :=
  match k with
  | Kfs => mret (IFs (sg_fs_stats_item_init (as_fs it)))
  | Kdisk_io => mret (IDiskIo (sg_disk_io_stats_item_init (as_disk_io it)))
  | Knetwork_io => mret (INetIo (sg_network_io_stats_item_init (as_network_io it)))
  | Knetwork_iface => mret (INetIface (sg_network_iface_stats_item_init (as_network_iface it)))
  | Kuser => mret (IUser (sg_user_stats_item_init (as_user it)))
  | Kprocess => mret (IProcess (sg_process_stats_item_init (as_process it)))
  | Khost => mret (IHost (sg_os_stats_item_init (as_host it)))
  | _ => stuck null_deref
  end.

Definition item_copy (k : kind) (s d : item) : M env (sg_error * item * item) :=
  match k with
  | Kfs => r ← sg_fs_stats_item_copy (as_fs s) (as_fs d); mret (r.1, s, IFs r.2)
  | Kdisk_io =>
      r ← sg_disk_io_stats_item_copy (as_disk_io s) (as_disk_io d);
      mret (r.1, s, IDiskIo r.2)
  | Knetwork_io =>
      r ← sg_network_io_stats_item_copy (as_network_io s) (as_network_io d);
      mret (r.1, s, INetIo r.2)
  | Knetwork_iface =>
      r ← sg_network_iface_stats_item_copy (as_network_iface s) (as_network_iface d);
      mret (r.1, INetIface r.2, d)
  | _ => stuck null_deref
  end.

Definition item_compute_diff (k : kind) (s d : item) : M env (sg_error * item) :=
  match k with
  | Kfs => mret (SG_ERROR_NONE, IFs (sg_fs_stats_item_compute_diff (as_fs s) (as_fs d)))
  | Kdisk_io =>
      mret (SG_ERROR_NONE,
            IDiskIo (sg_disk_io_stats_item_compute_diff (as_disk_io s) (as_disk_io d)))
  | Knetwork_io =>
      mret (SG_ERROR_NONE,
            INetIo (sg_network_io_stats_item_compute_diff (as_network_io s) (as_network_io d)))
  | _ => stuck null_deref
  end.

Definition item_compare (k : kind) (a b : item) : M env Z :=
  match k with
  | Kfs => sg_fs_stats_item_compare (as_fs a) (as_fs b)
  | Kdisk_io => sg_disk_io_stats_item_compare (as_disk_io a) (as_disk_io b)
  | Knetwork_io => sg_network_io_stats_item_compare (as_network_io a) (as_network_io b)
  | _ => stuck null_deref
  end.

Definition item_destroy (k : kind) (it : item) : M env item :=
  match k with
  | Kfs => d ← sg_fs_stats_item_destroy (as_fs it); mret (IFs d)
  | Kdisk_io => d ← sg_disk_io_stats_item_destroy (as_disk_io it); mret (IDiskIo d)
  | Knetwork_io => d ← sg_network_io_stats_item_destroy (as_network_io it); mret (INetIo d)
  | Knetwork_iface =>
      d ← sg_network_iface_stats_item_destroy (as_network_iface it); mret (INetIface d)
  | Kuser => d ← sg_user_stats_item_destroy (as_user it); mret (IUser d)
  | Kprocess => d ← sg_process_stats_item_destroy (as_process it); mret (IProcess d)
  | Khost => d ← sg_os_stats_item_destroy (as_host it); mret (IHost d)
  | _ => stuck null_deref
  end.

#[export] Instance item_ops : ItemOps := {
  run_init := item_init;
  run_copy := item_copy;
  run_compute_diff := item_compute_diff;
  run_compare := item_compare;
  run_destroy := item_destroy }.
End items.

(** * The records of VECTOR_INIT_INFO_FULL_INIT and VECTOR_INIT_INFO_EMPTY_INIT,
      with the sizes of an LP64 machine *)

Definition sizeof (k : kind) : Z :=
  match k with
  | Kcpu => 112 | Kcpu_percents => 56 | Kmem => 40 | Kload => 32 | Kuser => 64
  | Kswap => 32 | Kfs => 160 | Kdisk_io => 32 | Knetwork_io => 72 | Knetwork_iface => 40
  | Kpage => 24 | Kprocess => 128 | Kprocess_count => 56 | Khost => 72
  end.

Definition VECTOR_INIT_INFO (k : kind) : sg_vector_init_info :=
  match k with
  | Kfs | Kdisk_io | Knetwork_io => mk_info (sizeof k) (Some k) (Some k) (Some k) (Some k) (Some k)
  | Knetwork_iface => mk_info (sizeof k) (Some k) (Some k) None None (Some k)
  | Kuser | Kprocess | Khost => mk_info (sizeof k) (Some k) None None None (Some k)
  | _ => mk_info (sizeof k) None None None None None
  end.

(** * The promises to the vector code *)

Definition is_text (p : char_ptr) : bool :=
  match p with CStr s => no_nul s | _ => false end.

Lemma is_text_ok p : is_text p = true -> ptr_ok p = true.
Proof. by destruct p. Qed.

(** All owned pointers of the item may be released or replaced. *)
Definition item_live (k : kind) (it : item) : bool :=
  match k, it with
  | Kfs, IFs s =>
      ptr_ok (fs_device_name s) && ptr_ok (fs_device_canonical s) &&
      ptr_ok (fs_fs_type s) && ptr_ok (fs_mnt_point s)
  | Kdisk_io, IDiskIo s => ptr_ok (dio_disk_name s)
  | Knetwork_io, INetIo s => ptr_ok (nio_interface_name s)
  | Knetwork_iface, INetIface s => ptr_ok (nif_interface_name s)
  | Kuser, IUser s =>
      ptr_ok (usr_login_name s) && ptr_live (usr_record_id s) &&
      ptr_ok (usr_device s) && ptr_ok (usr_hostname s)
  | Kprocess, IProcess s => ptr_ok (ps_process_name s) && ptr_ok (ps_proctitle s)
  | Khost, IHost s =>
      ptr_ok (hi_os_name s) && ptr_ok (hi_os_release s) && ptr_ok (hi_os_version s) &&
      ptr_ok (hi_platform s) && ptr_ok (hi_hostname s)
  | _, _ => false
  end.

(** An item without texts, as the init functions leave it. *)
Definition item_fresh (k : kind) (it : item) : bool :=
  let null (p : char_ptr) := bool_decide (p = CNull) in
  match k, it with
  | Kfs, IFs s =>
      null (fs_device_name s) && null (fs_device_canonical s) && null (fs_fs_type s) && null (fs_mnt_point s)
  | Kdisk_io, IDiskIo s => null (dio_disk_name s)
  | Knetwork_io, INetIo s => null (nio_interface_name s)
  | Knetwork_iface, INetIface s => null (nif_interface_name s)
  | Kuser, IUser s =>
      null (usr_login_name s) && null (usr_record_id s) && null (usr_device s) && null (usr_hostname s)
  | Kprocess, IProcess s => null (ps_process_name s) && null (ps_proctitle s) && (ps_sessid s =? 0)
  | Khost, IHost s =>
      null (hi_os_name s) && null (hi_os_release s) && null (hi_os_version s) && null (hi_platform s) &&
      null (hi_hostname s)
  | _, _ => false
  end.

(** An item without live blocks, as the destroy functions leave it. *)
Definition item_released (k : kind) (it : item) : bool :=
  let gone (p : char_ptr) := match p with CNull | CDangling => true | _ => false end in
  match k, it with
  | Kfs, IFs s =>
      gone (fs_device_name s) && gone (fs_device_canonical s) && gone (fs_fs_type s) && gone (fs_mnt_point s)
  | Kdisk_io, IDiskIo s => gone (dio_disk_name s)
  | Knetwork_io, INetIo s => gone (nio_interface_name s)
  | Knetwork_iface, INetIface s => gone (nif_interface_name s)
  | Kuser, IUser s =>
      gone (usr_login_name s) && gone (usr_record_id s) && gone (usr_device s) && gone (usr_hostname s)
  | Kprocess, IProcess s => gone (ps_process_name s) && gone (ps_proctitle s)
  | Khost, IHost s =>
      gone (hi_os_name s) && gone (hi_os_release s) && gone (hi_os_version s) && gone (hi_platform s) &&
      gone (hi_hostname s)
  | _, _ => false
  end.

(** The item carries the names it is compared by. *)
Definition item_named (k : kind) (it : item) : bool :=
  match k, it with
  | Kfs, IFs s =>
      is_text (fs_device_name s) && is_text (fs_device_canonical s) &&
      is_text (fs_fs_type s) && is_text (fs_mnt_point s)
  | Kdisk_io, IDiskIo s => is_text (dio_disk_name s)
  | Knetwork_io, INetIo s => is_text (nio_interface_name s)
  | _, _ => false
  end.

(** The names a comparison looks at. *)
Definition item_key (k : kind) (it : item) : option (list char_ptr) :=
  match k, it with
  | Kfs, IFs s => Some [fs_device_name s; fs_device_canonical s; fs_mnt_point s; fs_fs_type s]
  | Kdisk_io, IDiskIo s => Some [dio_disk_name s]
  | Knetwork_io, INetIo s => Some [nio_interface_name s]
  | _, _ => None
  end.

Definition item_same (k : kind) (a b : item) : bool := bool_decide (item_key k a = item_key k b).

Definition item_managed (k : kind) : bool :=
  match k with
  | Kfs | Kdisk_io | Knetwork_io | Knetwork_iface | Kuser | Kprocess | Khost => true
  | _ => false
  end.

(** The interface properties are missing: their copy function takes its arguments
    in the other order. *)
Definition item_copies (k : kind) : bool :=
  match k with Kfs | Kdisk_io | Knetwork_io => true | _ => false end.

Definition item_diff {mem : Memory} (k : kind) (a b : item) : item :=
  match k, b with
  | Kfs, IFs d => IFs (sg_fs_stats_item_compute_diff (as_fs a) d)
  | Kdisk_io, IDiskIo d => IDiskIo (sg_disk_io_stats_item_compute_diff (as_disk_io a) d)
  | Knetwork_io, INetIo d => INetIo (sg_network_io_stats_item_compute_diff (as_network_io a) d)
  | _, _ => b
  end.

Ltac split_andb :=
  repeat match goal with
  | H : _ && _ = true |- _ => apply andb_true_iff in H as [? ?]
  end.

Section laws.
Context {mem : Memory}.


(** [sg_update_string] on a field of the same structure. *)
Lemma wp_update_field d s (Q : sg_error * char_ptr -> env -> Prop) e :
  ptr_ok d = true -> ptr_ok s = true ->
  (forall e', calmer e e' -> Q (SG_ERROR_NONE, s) e') ->
  (AFail ∈ e_allocs e -> forall e', failed_alloc e' -> Q (SG_ERROR_MALLOC, d) e') ->
  wp (update_field d s) Q e.
Proof.
  intros Hd Hs HN HF. apply wp_bind.
  assert (exists a, field_arg s = mret a /\ src_ok a = true /\ as_ptr a = s) as (a & -> & Ha & Hp).
  { destruct s as [|t| |]; [by exists None | by exists (Some t) | done | done]. }
  apply wp_ret, wp_sg_update_string; [done | done | by rewrite Hp | done].
Qed.

Lemma wp_strcmp_field a b (Q : Z -> env -> Prop) e :
  is_text a = true -> is_text b = true ->
  (forall z, (z = 0 <-> a = b) -> Q z e) -> wp (strcmp_field a b) Q e.
Proof.
  intros Ha Hb HQ. destruct a as [|x| |], b as [|y| |]; try done.
  apply wp_bind, wp_ret, wp_bind, wp_ret, wp_ret. apply HQ.
  rewrite strcmp_eq. split; congruence.
Qed.

(** A step of a copy function that ends in [return sg_get_error()] when the
    update of a field failed. *)
Ltac copy_field :=
  apply wp_bind, wp_update_field;
  [ done | done | intros ? ?; cbn [fst snd]; rewrite decide_False by (intros ?; congruence)
  | intros ? ? Hfail; cbn [fst snd]; rewrite decide_True by done;
    apply wp_bind, wp_gets, wp_ret ].

Lemma wp_fs_copy s d (Q : sg_error * sg_fs_stats -> env -> Prop) e :
  item_live Kfs (IFs s) = true -> item_live Kfs (IFs d) = true ->
  (forall e', calmer e e' -> Q (SG_ERROR_NONE, s) e') ->
  (AFail ∈ e_allocs e -> forall rc d' e', rc <> SG_ERROR_NONE -> item_live Kfs (IFs d') = true ->
     eg_error (sg_get_error_glob e') = rc -> Q (rc, d') e') ->
  wp (sg_fs_stats_item_copy s d) Q e.
Proof.
  intros Hs Hd HN HF. cbn [item_live] in *. split_andb. unfold sg_fs_stats_item_copy.
  copy_field. 2: { rewrite Hfail. apply HF; [unfold calmer in *; auto | done | | done]. cbn. by rewrite !andb_true_iff. }
  copy_field. 2: { rewrite Hfail. apply HF; [unfold calmer in *; auto | done | | done]. cbn. by rewrite !andb_true_iff. }
  copy_field. 2: { rewrite Hfail. apply HF; [unfold calmer in *; auto | done | | done]. cbn. by rewrite !andb_true_iff. }
  copy_field. 2: { rewrite Hfail. apply HF; [unfold calmer in *; auto | done | | done]. cbn. by rewrite !andb_true_iff. }
  apply wp_ret. cbn. destruct s. apply HN. unfold calmer in *; auto.
Qed.

Lemma law_fs_copy s d (Q : sg_error * item * item -> env -> Prop) e :
  item_live Kfs s = true -> item_live Kfs d = true ->
  (forall e', calmer e e' -> Q (SG_ERROR_NONE, s, s) e') ->
  (AFail ∈ e_allocs e -> forall rc d' e', rc <> SG_ERROR_NONE -> item_live Kfs d' = true ->
     eg_error (sg_get_error_glob e') = rc -> Q (rc, s, d') e') ->
  wp (item_copy Kfs s d) Q e.
Proof.
  intros Hs Hd HN HF. destruct s as [| | | | | | |s| | | | | | |]; try done.
  destruct d as [| | | | | | |d| | | | | | |]; try done.
  apply wp_bind, wp_fs_copy; [done | done | |].
  - intros e' He'. by apply wp_ret, HN.
  - intros Ha rc d' e' Hrc Hd' He'. by apply wp_ret, HF.
Qed.

Lemma law_item_copy k s d (Q : sg_error * item * item -> env -> Prop) e :
  item_copies k = true -> item_live k s = true -> item_live k d = true ->
  (forall e', calmer e e' -> Q (SG_ERROR_NONE, s, s) e') ->
  (AFail ∈ e_allocs e -> forall rc d' e', rc <> SG_ERROR_NONE -> item_live k d' = true ->
     eg_error (sg_get_error_glob e') = rc -> Q (rc, s, d') e') ->
  wp (item_copy k s d) Q e.
Proof.
  intros Hk Hs Hd HN HF. destruct k; try done; [by apply law_fs_copy| |].
  - destruct s as [| | | | | | | |s| | | | | |]; try done.
    destruct d as [| | | | | | | |d| | | | | |]; try done. cbn [item_live] in *.
    apply wp_bind. cbn [as_disk_io]. unfold sg_disk_io_stats_item_copy.
    copy_field. 2: { rewrite Hfail. apply HF; done. }
    apply wp_ret, wp_ret. cbn. destruct s. apply HN. unfold calmer in *; auto.
  - destruct s as [| | | | | | | | |s| | | | |]; try done.
    destruct d as [| | | | | | | | |d| | | | |]; try done. cbn [item_live] in *.
    apply wp_bind. cbn [as_network_io]. unfold sg_network_io_stats_item_copy.
    copy_field. 2: { rewrite Hfail. apply HF; done. }
    apply wp_ret, wp_ret. cbn. destruct s. apply HN. unfold calmer in *; auto.
Qed.

Lemma law_item_init k it (Q : item -> env -> Prop) e :
  item_managed k = true -> (forall it', item_live k it' = true -> item_fresh k it' = true -> Q it' e) ->
  wp (item_init k it) Q e.
Proof. intros Hk HQ. destruct k; try done; apply wp_ret, HQ; done. Qed.

Lemma law_item_destroy k it (Q : item -> env -> Prop) e :
  item_live k it = true -> (forall it', item_released k it' = true -> Q it' e) ->
  wp (item_destroy k it) Q e.
Proof.
  intros Hi HQ. destruct k, it; try done; cbn [item_live] in Hi; split_andb;
    apply wp_bind; cbn [as_fs as_disk_io as_network_io as_network_iface as_user as_process as_host];
    repeat (apply wp_bind, wp_free_ptr; [auto using ptr_ok_live | intros ? [-> | ->]]);
    by apply wp_ret, wp_ret, HQ.
Qed.

Lemma law_item_compare k a b (Q : Z -> env -> Prop) e :
  item_named k a = true -> item_named k b = true ->
  (forall z, (z =? 0) = item_same k a b -> Q z e) -> wp (item_compare k a b) Q e.
Proof.
  intros Ha Hb HQ.
  assert (forall z, (z = 0 <-> item_key k a = item_key k b) -> Q z e) as Hfin.
  { intros z Hz. apply HQ. unfold item_same.
    destruct (Z.eqb_spec z 0); case_bool_decide; tauto. }
  destruct k, a as [| | | | | | |a|a|a| | | | |], b as [| | | | | | |b|b|b| | | | |]; try done;
    cbn [item_named item_key] in *; split_andb;
    cbn [item_compare as_fs as_disk_io as_network_io].
  - unfold sg_fs_stats_item_compare.
    do 4 (apply wp_bind, wp_strcmp_field; [done | done | intros ? ?];
          match goal with |- context [negb (?z =? 0)] => destruct (Z.eqb_spec z 0) end;
          cbn [negb]; [|apply wp_ret, Hfin; split; [done | intros [=]; tauto]]).
    apply wp_ret, Hfin. split; [|done]. intros _. repeat match goal with H : ?z = 0 <-> _, E : ?z = 0 |- _ => apply H in E end. congruence.
  - apply wp_strcmp_field; [done | done |]. intros z Hz.
    apply Hfin. rewrite Hz. split; congruence.
  - apply wp_strcmp_field; [done | done |]. intros z Hz.
    apply Hfin. rewrite Hz. split; congruence.
Qed.

#[export] Program Instance item_laws : ItemLaws := {
  managed := item_managed;
  item_ok := item_live;
  fresh := item_fresh;
  law_init := law_item_init;
  released := item_released;
  law_destroy := law_item_destroy;
  copies := item_copies;
  law_copy := law_item_copy;
  named := item_named;
  same_name := item_same;
  diff_of := item_diff;
  law_compare := law_item_compare }.
Next Obligation.
  intros [] [] H; try done; cbn in *; split_andb; rewrite ?andb_true_iff; auto using is_text_ok.
Qed.
Next Obligation.
  intros [] a b Q e Ha Hb HQ; try done; destruct a, b; try done; by apply wp_ret.
Qed.
Next Obligation. intros [] a b Ha Hb; destruct a, b; done. Qed.
Next Obligation. intros [] a b c Ha Hb; destruct a, b; done. Qed.
Next Obligation. intros k a b. apply bool_decide_ext. split; congruence. Qed.
Next Obligation.
  intros k a b c H1%bool_decide_eq_true H2%bool_decide_eq_true.
  apply bool_decide_eq_true. congruence.
Qed.

Lemma vector_info_wf k : info_wf (VECTOR_INIT_INFO k).
Proof. destruct k; repeat split; cbn; try lia; done. Qed.

Lemma vector_info_diff k : item_copies k = true -> diff_info k (VECTOR_INIT_INFO k).
Proof. intros Hk. split; [split; [apply vector_info_wf|]|]; destruct k; done. Qed.

(** Names without duplicates. *)
Lemma keys_unique k l : NoDup (item_key k <$> l) -> unique_names k l.
Proof.
  intros HN i j a b Ha Hb Hs%bool_decide_eq_true.
  eapply (NoDup_lookup _ _ _ (item_key k a) HN); rewrite list_lookup_fmap.
  - by rewrite Ha.
  - rewrite Hb. cbn. by f_equal.
Qed.
End laws.
