(* ===== verification/Comp.v ===== *)
(** The access functions of src/src/libstatgrab/globals.h: every statistics
    component gets its public functions from the macros EASY_COMP_ACCESS,
    MULTI_COMP_ACCESS, EASY_COMP_DIFF and MULTI_COMP_DIFF, which keep the last
    results in vectors of the calling thread. The functions are given here for any
    component: its structure, its gathering function (the [_int] function of the
    source) and the slots of its vectors. *)

From S2P Require Import Prelude Types CLib Errors Tools Vector VectorSpec VectorDiff Items.

(** [c_vectors] is [struct sg_<comp>_glob] of the thread, [None] when
    GLOBAL_GET_TLS fails. *)
Record comp := mk_comp { c_vectors : option (list vptr); c_world : world }.

Definition in_world {A} (m : M world A) : M comp A :=
  zoom c_world (fun w c => mk_comp (c_vectors c) w) m.

Definition get_vector (idx : nat) : M comp vptr := fun c =>
  match c_vectors c with
  | Some vs => match vs !! idx with Some v => Done v c | None => Stuck out_of_bounds end
  | None => Stuck null_deref
  end.

Definition set_vector (idx : nat) (v : vptr) : M comp unit := fun c =>
  match c_vectors c with
  | Some vs =>
      if decide (idx < length vs)%nat
      then Done tt (mk_comp (Some (<[idx := v]> vs)) (c_world c))
      else Stuck out_of_bounds
  | None => Stuck null_deref
  end.

Definition clear_error : M world unit := in_env sg_clear_error.

(** * Components whose result is a single structure *)

Section easy.
Context {IO : ItemOps} (k : kind) (idx : nat).
(** [fn##_int(name##_stats)]: the structure before and after the call. *)
Context (fn_int : item -> M env (sg_error * item)).

Definition call_int (l : positive) : M world sg_error :=
  it ← read_item l 0;
  r ← in_env (fn_int it);
  write_item l 0 r.2;;
  mret r.1.

Definition easy_create : M world vptr := sg_vector_create 1 1 1 (VECTOR_INIT_INFO k).

(** Returns the data pointer and the value stored in [*entries]. *)
Definition EASY_COMP_ACCESS : M comp (vptr * Z) :=
  glob ← gets c_vectors;
  match glob with
  | None => mret (None, 0)
  | Some _ =>
      old ← get_vector idx;
      match old with
      | None => nv ← in_world easy_create; set_vector idx nv
      | Some _ => mret tt
      end;;
      v ← get_vector idx;
      match v with
      | Some l =>
          rc ← in_world (call_int l);
          if decide (SG_ERROR_NONE = rc) then
            in_world clear_error;;
            n ← in_world (VECTOR_ITEM_COUNT (Some l));
            mret (Some l, n)
          else mret (None, 0)
      | None => _ ← in_world (in_env sg_get_error); mret (None, 0)
      end
  end.

Definition EASY_COMP_ACCESS_r : M world (vptr * Z) :=
  v ← easy_create;
  match v with
  | Some l =>
      rc ← call_int l;
      if decide (SG_ERROR_NONE = rc) then
        clear_error;;
        n ← VECTOR_ITEM_COUNT (Some l);
        mret (Some l, n)
      else sg_vector_free (Some l);; mret (None, 0)
  | None => _ ← in_env sg_get_error; mret (None, 0)
  end.
End easy.

(** * Components whose result is a list of structures *)

Section multi.
Context {IO : ItemOps} (k : kind) (idx : nat).
(** [fn##_int(&vector)]: the result and the new value of the vector pointer. *)
Context (fn_int : vptr -> M world (sg_error * vptr)).

(** The second half of the macro: the vector of the slot is filled. *)
Definition multi_gather : M comp (vptr * Z) :=
  v ← get_vector idx;
  match v with
  | Some _ =>
      r ← in_world (fn_int v);
      set_vector idx r.2;;
      if decide (SG_ERROR_NONE = r.1) then
        in_world clear_error;;
        n ← in_world (VECTOR_ITEM_COUNT r.2);
        mret (r.2, n)
      else mret (None, 0)
  | None => _ ← in_world (in_env sg_get_error); mret (None, 0)
  end.

Definition MULTI_COMP_ACCESS : M comp (vptr * Z) :=
  glob ← gets c_vectors;
  match glob with
  | None => mret (None, 0)
  | Some _ =>
      old ← get_vector idx;
      match old with
      | None => nv ← in_world (VECTOR_CREATE (VECTOR_INIT_INFO k) 16); set_vector idx nv
      | Some l => in_world (sg_vector_clear (Some l))
      end;;
      multi_gather
  end.

Definition MULTI_COMP_ACCESS_r : M world (vptr * Z) :=
  v ← VECTOR_CREATE (VECTOR_INIT_INFO k) 16;
  match v with
  | Some _ =>
      r ← fn_int v;
      if decide (SG_ERROR_NONE = r.1) then
        clear_error;;
        n ← VECTOR_ITEM_COUNT r.2;
        mret (r.2, n)
      else sg_vector_free r.2;; mret (None, 0)
  | None => _ ← in_env sg_get_error; mret (None, 0)
  end.
End multi.

(** * Differences of single structures *)

Section easy_diff.
Context {IO : ItemOps} (k : kind) (diffidx nowidx : nat).
(** [getfn(NULL)], and [fn##_int(diff, now, last)] *)
Context (getfn : M comp (vptr * Z)).
Context (diff_int : item -> option item -> option item -> M env (sg_error * item)).

Definition call_diff (d : positive) (now last : option item) : M world sg_error :=
  it ← read_item d 0;
  r ← in_env (diff_int it now last);
  write_item d 0 r.2;;
  mret r.1.

Definition EASY_COMP_DIFF : M comp (vptr * Z) :=
  glob ← gets c_vectors;
  match glob with
  | None => mret (None, 0)
  | Some _ =>
      nowv ← get_vector nowidx;
      match nowv with
      | None => getfn
      | Some nl =>
          diffv ← get_vector diffidx;
          match diffv with
          | None => nv ← in_world (easy_create k); set_vector diffidx nv
          | Some _ => mret tt
          end;;
          diffv ← get_vector diffidx;
          match diffv with
          | Some dl =>
              last ← in_world (read_item nl 0);
              now ← getfn;
              match now.1 with
              | None => mret (None, 0)
              | Some l =>
                  it ← in_world (read_item l 0);
                  rc ← in_world (call_diff dl (Some it) (Some last));
                  if decide (SG_ERROR_NONE = rc) then
                    in_world clear_error;;
                    v ← get_vector diffidx;
                    n ← in_world (VECTOR_ITEM_COUNT v);
                    mret (Some dl, n)
                  else mret (None, 0)
              end
          | None => mret (None, 0)
          end
      end
  end.

(** The two structures are the caller's, [None] for a NULL pointer. *)
Definition EASY_COMP_DIFF_between (now last : option item) : M world (vptr * Z) :=
  v ← easy_create k;
  match v with
  | Some l =>
      rc ← call_diff l now last;
      if decide (SG_ERROR_NONE = rc) then
        clear_error;;
        n ← VECTOR_ITEM_COUNT (Some l);
        mret (Some l, n)
      else sg_vector_free (Some l);; mret (None, 0)
  | None => mret (None, 0)
  end.
End easy_diff.

(** * Differences of lists *)

Section multi_diff.
Context {IO : ItemOps} (k : kind) (diffidx nowidx : nat).
Context (getfn : M comp (vptr * Z)).

Definition MULTI_COMP_DIFF : M comp (vptr * Z) :=
  glob ← gets c_vectors;
  match glob with
  | None => mret (None, 0)
  | Some _ =>
      nowv ← get_vector nowidx;
      match nowv with
      | None => getfn
      | Some nl =>
          diffv ← get_vector diffidx;
          match diffv with
          | None =>
              nv ← in_world (read_vec nl);
              d ← in_world (VECTOR_CREATE (VECTOR_INIT_INFO k) (used_count nv));
              set_vector diffidx d
          | Some _ => mret tt
          end;;
          diffv ← get_vector diffidx;
          match diffv with
          | Some _ =>
              last ← in_world (sg_vector_clone (Some nl));
              match last with
              | None => mret (None, 0)
              | Some _ =>
                  _ ← getfn;
                  diffv ← get_vector diffidx;
                  nowv ← get_vector nowidx;
                  r ← in_world (sg_vector_compute_diff (Some diffv) nowv last);
                  set_vector diffidx r.2;;
                  in_world (sg_vector_free last);;
                  if decide (SG_ERROR_NONE = r.1) then
                    in_world clear_error;;
                    n ← in_world (VECTOR_ITEM_COUNT r.2);
                    mret (r.2, n)
                  else mret (None, 0)
              end
          | None => mret (None, 0)
          end
      end
  end.

(** The vector of a data pointer of the caller. *)
Definition VECTOR_ADDRESS (ptr : vptr) : M world vptr :=
  match ptr with
  | Some l =>
      rc ← sg_prove_vector l;
      if decide (SG_ERROR_NONE = rc) then mret (Some l) else mret None
  | None => mret None
  end.

Definition MULTI_COMP_DIFF_between (cur last : vptr) : M world (vptr * Z) :=
  v ← VECTOR_CREATE (VECTOR_INIT_INFO k) 1;
  match v with
  | Some _ =>
      cur ← VECTOR_ADDRESS cur;
      last ← VECTOR_ADDRESS last;
      r ← sg_vector_compute_diff (Some v) cur last;
      if decide (SG_ERROR_NONE = r.1) then
        clear_error;;
        n ← VECTOR_ITEM_COUNT r.2;
        mret (r.2, n)
      else sg_vector_free r.2;; mret (None, 0)
  | None => _ ← in_env sg_get_error; mret (None, 0)
  end.
End multi_diff.

(** * EASY_COMP_CLEANUP_FN: release all vectors of a thread *)

Section cleanup.
Context {IO : ItemOps}.

Fixpoint cleanup_loop (vs : list vptr) : M world unit :=
  match vs with
  | [] => mret tt
  | v :: vs' => sg_vector_free v;; cleanup_loop vs'
  end.

Definition EASY_COMP_CLEANUP_FN : M comp unit :=
  glob ← gets c_vectors;
  match glob with
  | None => stuck assert_failed
  | Some vs =>
      in_world (cleanup_loop vs);;
      modify (fun c => mk_comp (Some (replicate (length vs) None)) (c_world c))
  end.
End cleanup.

(** * Facts *)

Lemma wp_in_world {A} (m : M world A) (Q : A -> comp -> Prop) c :
  wp m (fun a w => Q a (mk_comp (c_vectors c) w)) (c_world c) -> wp (in_world m) Q c.
Proof. unfold in_world, wp, zoom. by destruct (m (c_world c)). Qed.

Lemma wp_get_vector idx vs v w (Q : vptr -> comp -> Prop) :
  vs !! idx = Some v -> Q v (mk_comp (Some vs) w) -> wp (get_vector idx) Q (mk_comp (Some vs) w).
Proof. intros H HQ. unfold wp, get_vector. simpl. by rewrite H. Qed.

Lemma wp_set_vector idx vs v w (Q : unit -> comp -> Prop) :
  (idx < length vs)%nat -> Q tt (mk_comp (Some (<[idx := v]> vs)) w) ->
  wp (set_vector idx v) Q (mk_comp (Some vs) w).
Proof. intros H HQ. unfold wp, set_vector. simpl. by rewrite decide_True. Qed.

(** The block shift [sg_vector_create] computes: the first power of two that
    reaches the block size. *)
Lemma shift_loop_spec fuel : forall bs n,
  0 <= bs -> bs + Z.of_nat fuel = 33 -> n <= 2 ^ 31 -> (bs = 0 \/ 2 ^ (bs - 1) < n) ->
  exists bs', shift_loop fuel bs n = Some bs' /\ bs <= bs' < 32 /\ n <= 2 ^ bs' /\
              (bs' = 0 \/ 2 ^ (bs' - 1) < n).
Proof.
  induction fuel as [|fuel IH]; intros bs n Hb Hf Hn Hprev.
  { replace bs with 33 in Hprev by lia. change (2 ^ (33 - 1)) with (2 * 2 ^ 31) in Hprev. lia. }
  cbn [shift_loop].
  assert (bs < 32) as Hlt.
  { destruct (Z.lt_ge_cases bs 32) as [|Hge]; [done|].
    destruct Hprev as [->|Hprev]; [lia|].
    assert (2 ^ 31 <= 2 ^ (bs - 1)) by (apply Z.pow_le_mono_r; lia). lia. }
  destruct (Z.leb_spec 32 bs); [lia|].
  assert (u32 (Z.shiftl 1 bs) = 2 ^ bs) as ->.
  { rewrite Z.shiftl_1_l. apply wrap_small. split; [lia|]. apply Z.pow_lt_mono_r; lia. }
  destruct (Z.ltb_spec (2 ^ bs) n) as [Hl|Hl].
  - destruct (IH (bs + 1) n) as (bs' & E & ? & ? & ?); [lia | lia | done | |].
    { right. by replace (bs + 1 - 1) with bs by lia. }
    exists bs'. repeat split; try done; lia.
  - exists bs. repeat split; try done; lia.
Qed.

Lemma shift_loop_create n : n <= 2 ^ 31 ->
  exists bs, shift_loop 33 0 n = Some bs /\ 0 <= bs < 32 /\ n <= 2 ^ bs /\ (bs = 0 \/ 2 ^ (bs - 1) < n).
Proof. intros H. apply shift_loop_spec; [lia | lia | done | by left]. Qed.

Lemma size_ok_small x bs k :
  1 <= x <= 2 ^ 32 -> 0 <= bs < 32 -> size_ok (round_up x bs) (VECTOR_INIT_INFO k).
Proof.
  intros Hx Hb. pose proof (round_up_bounds x bs ltac:(lia) ltac:(lia)) as [Hr Hr2].
  assert (2 ^ bs < 2 ^ 32) by (apply Z.pow_lt_mono_r; lia).
  assert (0 < item_size (VECTOR_INIT_INFO k) <= 160) by (destruct k; cbn; lia).
  unfold size_ok, VECTOR_SIZE. nia.
Qed.

Section facts.
Context {mem : Memory}.

Lemma length_contents v : wf_vec v -> Z.of_nat (length (contents v)) = used_count v.
Proof.
  intros Hwf. pose proof (wf_used _ Hwf). unfold contents. rewrite length_take. lia.
Qed.

Lemma wp_vector_create_fresh n iu k (Q : vptr -> world -> Prop) w :
  1 <= n <= 2 ^ 31 -> 0 <= iu <= n ->
  (AFail ∈ e_allocs (w_env w) -> forall e, failed_alloc e -> Q None (with_env e w)) ->
  (forall v e, calmer (w_env w) e -> wf_vec v -> used_count v = iu ->
     info v = VECTOR_INIT_INFO k -> Forall (slot_fresh (VECTOR_INIT_INFO k)) (contents v) ->
     Q (Some (w_next w)) (new_vec v e w)) ->
  wp (sg_vector_create n n iu (VECTOR_INIT_INFO k)) Q w.
Proof.
  intros Hn Hiu HN HS. unfold sg_vector_create.
  destruct (shift_loop_create n) as (bs & -> & Hb & Hle & Hprev); [lia|].
  apply wp_create_int; [lia | lia | lia | lia | apply vector_info_wf | | done |].
  - apply size_ok_small; lia.
  - intros v e ? ? Hu ? _ _ Hf. apply HS; [done.. |]. unfold contents. by rewrite Hu.
Qed.

Lemma wp_vector_create n iu k (Q : vptr -> world -> Prop) w :
  1 <= n <= 2 ^ 31 -> 0 <= iu <= n ->
  (AFail ∈ e_allocs (w_env w) -> forall e, failed_alloc e -> Q None (with_env e w)) ->
  (forall v e, calmer (w_env w) e -> wf_vec v -> used_count v = iu ->
     info v = VECTOR_INIT_INFO k -> Q (Some (w_next w)) (new_vec v e w)) ->
  wp (sg_vector_create n n iu (VECTOR_INIT_INFO k)) Q w.
Proof. intros. apply wp_vector_create_fresh; auto. Qed.

Lemma wf_heap_new v e w : wf_heap w -> wf_heap (new_vec v e w).
Proof.
  intros Hh x Hx. simpl in *. rewrite lookup_insert_ne by lia. apply Hh. lia.
Qed.

Lemma moved_wf_heap l l' v w w' :
  moved l l' v w w' -> wf_heap w -> is_Some (w_vecs w !! l) -> wf_heap w'.
Proof.
  intros [_ [(-> & E & En)|(-> & E & En)]] Hh [y Hy] x Hx; rewrite E, En in *.
  - rewrite lookup_insert_ne; [by apply Hh|]. intros <-. rewrite Hh in Hy; done.
  - rewrite lookup_insert_ne, lookup_delete_None by lia. right. apply Hh. lia.
Qed.

(** What a sequence of updates of one vector leaves: the vector [v'] at [l'], and
    everything else as before. *)
Definition replaced (l l' : positive) (v' : sg_vector) (w w' : world) : Prop :=
  (l' = l \/ (w_next w <= l')%positive) /\ calmer (w_env w) (w_env w') /\
  w_vecs w' = <[l' := v']> (delete l (w_vecs w)) /\ wf_heap w' /\ (w_next w <= w_next w')%positive.

Lemma replaced_refl l v w :
  w_vecs w !! l = Some v -> wf_heap w -> replaced l l v w w.
Proof.
  intros Hl Hh. split; [by left|]. split; [done|]. split; [|split; [done|lia]].
  by rewrite insert_delete_eq, insert_id.
Qed.

Lemma replaced_moved l1 l2 l3 v2 v3 w1 w2 w3 :
  replaced l1 l2 v2 w1 w2 -> moved l2 l3 v3 w2 w3 -> wf_heap w1 ->
  replaced l1 l3 v3 w1 w3.
Proof.
  intros (Hl & Hc1 & E1 & Hh2 & Hn) Hm Hh.
  assert (w_vecs w2 !! l2 = Some v2) as Hl2 by (rewrite E1; apply lookup_insert_eq).
  pose proof (moved_wf_heap _ _ _ _ _ Hm Hh2 ltac:(eauto)) as Hh3.
  destruct Hm as [Hc2 Hm].
  split; [|split; [by transitivity (w_env w2)|split; [|split; [done|]]]].
  - destruct Hm as [(-> & _ & _)|(-> & _ & _)]; [done|]. right. lia.
  - destruct Hm as [(-> & E2 & _)|(-> & E2 & _)]; rewrite E2, E1.
    + by rewrite insert_insert_eq.
    + destruct Hl as [->|Hl].
      * by rewrite delete_insert_eq, delete_delete_eq.
      * rewrite delete_insert_id; [done|]. rewrite lookup_delete_None. right. by apply Hh.
  - destruct Hm as [(_ & _ & E)|(_ & _ & E)]; lia.
Qed.

(** Replacing the item that was just added. *)
Lemma replaced_write l1 l2 v2 v3 w1 w2 :
  replaced l1 l2 v2 w1 w2 -> replaced l1 l2 v3 w1 (upd l2 v3 w2).
Proof.
  intros (Hl & Hc & E & Hh & Hn). split; [done|]. split; [done|]. split; [|split; [|done]].
  - simpl. by rewrite E, insert_insert_eq.
  - intros x Hx. simpl in *. rewrite lookup_insert_ne; [by apply Hh|].
    intros <-. specialize (Hh l2 Hx). by rewrite E, lookup_insert_eq in Hh.
Qed.

Lemma replaced_env l1 l2 v w1 w2 e :
  replaced l1 l2 v w1 w2 -> calmer (w_env w2) e -> replaced l1 l2 v w1 (with_env e w2).
Proof.
  intros (Hl & Hc & E & Hh & Hn) He. split; [done|].
  split; [by transitivity (w_env w2)|]. split; [done|]. by split.
Qed.

Lemma replaced_other l l' v w w' x :
  replaced l l' v w w' -> wf_heap w -> x <> l -> is_Some (w_vecs w !! x) ->
  (w_vecs w' !! x = w_vecs w !! x) /\ (x <> l').
Proof.
  intros (Hl & _ & E & _) Hh Hx [y Hy].
  assert (x <> l').
  { intros ->. destruct Hl as [->|Hl]; [done|]. rewrite Hh in Hy; done. }
  split; [|done]. by rewrite E, lookup_insert_ne, lookup_delete_ne.
Qed.

(** Every live vector except [o] stayed as it was and is not the new one. *)
Definition others_kept (o : vptr) (l' : positive) (w w' : world) : Prop :=
  forall x, Some x <> o -> is_Some (w_vecs w !! x) ->
    x <> l' /\ w_vecs w' !! x = w_vecs w !! x.

(** The vector at [l'] has taken the place of [o] and the heap is otherwise as it
    was: every other vector is still there, and there is no new one. *)
Definition only_replaced (o : vptr) (l' : positive) (w w' : world) : Prop :=
  others_kept o l' w w' /\ exists v', w_vecs w' = <[l' := v']> (dropped o w).

(** A gathering function that fills an empty vector with [snap]. *)
Definition fills (k : kind) (fn_int : vptr -> M world (sg_error * vptr)) (snap : list item)
    : Prop :=
  forall l v (Q : sg_error * vptr -> world -> Prop) w,
  wf_heap w -> w_vecs w !! l = Some v -> wf_vec v -> used_count v = 0 ->
  info v = VECTOR_INIT_INFO k -> (AFail ∉ e_allocs (w_env w)) ->
  (forall l' v' w', wf_vec v' -> info v' = VECTOR_INIT_INFO k -> contents v' = snap ->
     replaced l l' v' w w' -> Q (SG_ERROR_NONE, Some l') w') ->
  wp (fn_int (Some l)) Q w.

(** A vector slot of a component: unused, or a well-formed vector of its kind. *)
Definition slot_state (k : kind) (o : vptr) (w : world) : Prop :=
  match o with
  | Some l => exists v, w_vecs w !! l = Some v /\ wf_vec v /\ info v = VECTOR_INIT_INFO k
  | None => True
  end.

Lemma wp_clear_error (Q : unit -> world -> Prop) w :
  (forall e, calmer (w_env w) e -> Q tt (with_env e w)) -> wp clear_error Q w.
Proof.
  intros HQ. apply wp_in_env, wp_modify. apply HQ. apply calmer_put_error. reflexivity.
Qed.

(** What an access leaves: the snapshot in slot [idx], every other vector as before. *)
Definition accessed (k : kind) (idx : nat) (snap : list item) (o : vptr) (vs : list vptr) (w : world)
    (Q : vptr * Z -> comp -> Prop) : Prop :=
  forall l' v' w', wf_vec v' -> info v' = VECTOR_INIT_INFO k -> contents v' = snap ->
    w_vecs w' !! l' = Some v' -> only_replaced o l' w w' -> wf_heap w' ->
    calmer (w_env w) (w_env w') ->
    Q (Some l', Z.of_nat (length snap)) (mk_comp (Some (<[idx := Some l']> vs)) w').

(** The gathering part, once there is an empty vector at [l]. *)
Lemma wp_multi_gather k idx fn_int snap o vs (Q : vptr * Z -> comp -> Prop) w l v w1 vs1 :
  (AFail ∉ e_allocs (w_env w)) -> fills k fn_int snap -> accessed k idx snap o vs w Q ->
  vs1 !! idx = Some (Some l) -> <[idx := None]> vs1 = <[idx := None]> vs ->
  wf_heap w1 -> w_vecs w1 !! l = Some v -> wf_vec v -> used_count v = 0 ->
  info v = VECTOR_INIT_INFO k -> calmer (w_env w) (w_env w1) -> only_replaced o l w w1 ->
  wp (multi_gather idx fn_int) Q (mk_comp (Some vs1) w1).
Proof.
  intros Hna Hfill HQ Hi1 Hvs Hh1 Hl Hwv Hu Hin Hc1 Hoth.
  apply wp_bind. eapply wp_get_vector; [done|].
  apply wp_bind, wp_in_world. eapply Hfill; [done..| |]; cbn [c_world].
  { intros Ha. apply Hna. by apply Hc1. }
  intros l' v' w2 Hw' Hin' Hcont Hm. cbn [fst snd c_vectors].
  apply wp_bind, wp_set_vector; [by eapply lookup_lt_Some|].
  rewrite decide_True by done.
  apply wp_bind, wp_in_world, wp_clear_error. intros e He. cbn [c_world c_vectors] in *.
  apply wp_bind, wp_in_world. cbn [c_world]. apply wp_bind.
  assert (w_vecs w2 !! l' = Some v') as Hl'.
  { destruct Hm as (_ & _ & -> & _). apply lookup_insert_eq. }
  eapply wp_read_vec; [exact Hl'|]. apply wp_ret. cbn [c_vectors]. apply wp_ret.
  rewrite <- (length_contents v'), Hcont by done.
  replace (<[idx := Some l']> vs1) with (<[idx := Some l']> vs).
  2: { rewrite <- (list_insert_insert_eq vs idx (Some l') None),
         <- (list_insert_insert_eq vs1 idx (Some l') None) by done. by rewrite Hvs. }
  apply HQ with v'; try done; cbn [w_vecs with_env w_next w_env].
  - destruct Hoth as [Hoth [v1 Ev1]]. split.
    + intros x Hx Hsx. destruct (Hoth x Hx Hsx) as [Hxl Hxe].
      destruct (replaced_other _ _ _ _ _ x Hm Hh1 Hxl) as [E Hne]; [by rewrite Hxe|].
      split; [done|]. change (w_vecs w2 !! x = w_vecs w !! x). congruence.
    + exists v'. destruct Hm as (_ & _ & Em & _). cbn. rewrite Em, Ev1. f_equal.
      apply delete_insert_id. unfold dropped. destruct o as [o'|].
      * destruct (decide (l = o')) as [->|Hne]; [apply lookup_delete_eq|].
        rewrite lookup_delete_ne by done. destruct (w_vecs w !! l) eqn:E; [|done].
        by destruct (Hoth l) as [? _]; [congruence | eauto |].
      * destruct (w_vecs w !! l) eqn:E; [|done]. by destruct (Hoth l) as [? _]; [| eauto |].
  - apply Hm.
  - transitivity (w_env w1); [done|]. transitivity (w_env w2); [apply Hm | done].
Qed.

Lemma wp_multi_access k idx fn_int snap o vs (Q : vptr * Z -> comp -> Prop) w :
  vs !! idx = Some o -> slot_state k o w -> wf_heap w -> (AFail ∉ e_allocs (w_env w)) ->
  fills k fn_int snap -> accessed k idx snap o vs w Q ->
  wp (MULTI_COMP_ACCESS k idx fn_int) Q (mk_comp (Some vs) w).
Proof.
  intros Hidx Hslot Hh Hna Hfill HQ.
  assert (idx < length vs)%nat as Hlt by (by eapply lookup_lt_Some).
  apply wp_bind, wp_gets. cbn [c_vectors]. apply wp_bind. eapply wp_get_vector; [done|].
  apply wp_bind.
  destruct o as [l|].
  - destruct Hslot as (v & Hl & Hwv & Hin).
    apply wp_in_world. eapply wp_vector_clear; [done..|].
    intros v' Hw' Hu' Hi' _ _ _. cbn [c_world c_vectors].
    eapply (wp_multi_gather k idx fn_int snap (Some l) vs Q w l v');
      [done | done | done | done | done | | apply lookup_upd | done | done | congruence | done |].
    + intros x Hx. simpl in *. rewrite lookup_insert_ne; [by apply Hh|].
      intros <-. rewrite Hh in Hl; done.
    + split; [|exists v'; cbn; by rewrite insert_delete_eq].
      intros x Hx _. assert (x <> l) by congruence. split; [done|].
      simpl. by rewrite lookup_insert_ne.
  - apply wp_bind, wp_in_world, wp_vector_create; [lia | lia | done |].
    intros v e Hce Hwv Hu Hin. cbn [c_world c_vectors]. apply wp_set_vector; [done|].
    eapply (wp_multi_gather k idx fn_int snap None vs Q w (w_next w) v);
      [done | done | done | | | | apply lookup_insert_eq | done | done | done | done |].
    + by apply list_lookup_insert_eq.
    + by rewrite list_insert_insert_eq.
    + by apply wf_heap_new.
    + split; [|by exists v]. intros x Hx [y Hy]. assert (x <> w_next w).
      { intros ->. rewrite Hh in Hy; [done | lia]. }
      split; [done|]. simpl. by rewrite lookup_insert_ne.
Qed.

(** The heap with the vectors a difference is computed from. *)
Definition diff_ready (k : kind) (n d : positive) (nv : sg_vector) (w : world) : Prop :=
  n <> d /\ w_vecs w !! n = Some nv /\ wf_heap w /\ (AFail ∉ e_allocs (w_env w)) /\
  slot_state k (Some d) w.

Record diff_input (k : kind) (nv : sg_vector) (snap : list item) : Prop := {
  di_copies : item_copies k = true;
  di_wf : wf_vec nv;
  di_info : info nv = VECTOR_INIT_INFO k;
  di_size : Z.of_nat (length (data nv)) <= 2 ^ 31;
  di_named : all_named k (contents nv);
  di_unique : unique_names k (contents nv);
  di_snap : 1 <= Z.of_nat (length snap) <= 2 ^ 31;
  di_snap_named : all_named k snap;
  di_snap_unique : unique_names k snap }.

Lemma diff_input_result k nv lv snap :
  diff_input k nv snap -> wf_vec lv -> contents lv = contents nv ->
  diff_all k (contents lv) snap (matched_words (used_count lv))
    = map (diff_item k (contents nv)) snap.
Proof.
  intros [] Hwl Hc. rewrite Hc. pose proof (wf_used _ Hwl).
  apply diff_all_spec; try done.
  - intros i Hi. apply matched_fits; [lia|]. rewrite <- Hc in Hi.
    pose proof (length_contents lv Hwl). lia.
  - intros b l d Hb. unfold matched_words in Hb. by rewrite BIT_ISSET_zero in Hb.
Qed.

(** From the copy of the last snapshot to the result. *)
Lemma wp_diff_step k diffidx nowidx fn_int snap n d nv vs (Q : vptr * Z -> comp -> Prop) w :
  diff_input k nv snap -> diff_ready k n d nv w -> fills k fn_int snap ->
  diffidx <> nowidx -> vs !! nowidx = Some (Some n) -> vs !! diffidx = Some (Some d) ->
  (forall n' d' v' w' vs', wf_vec v' -> contents v' = map (diff_item k (contents nv)) snap ->
     w_vecs w' !! d' = Some v' -> (exists v2, w_vecs w' !! n' = Some v2 /\ contents v2 = snap) ->
     vs' = <[diffidx := Some d']> (<[nowidx := Some n']> vs) ->
     Q (Some d', Z.of_nat (length snap)) (mk_comp (Some vs') w')) ->
  wp (last ← in_world (sg_vector_clone (Some n));
      match last with
      | None => mret (None, 0)
      | Some _ =>
          _ ← MULTI_COMP_ACCESS k nowidx fn_int;
          diffv ← get_vector diffidx;
          nowv ← get_vector nowidx;
          r ← in_world (sg_vector_compute_diff (Some diffv) nowv last);
          set_vector diffidx r.2;;
          in_world (sg_vector_free last);;
          if decide (SG_ERROR_NONE = r.1) then
            in_world clear_error;;
            c ← in_world (VECTOR_ITEM_COUNT r.2);
            mret (r.2, c)
          else mret (None, 0)
      end) Q (mk_comp (Some vs) w).
Proof.
  intros Hin (Hnd & Hn & Hh & Hna & dv & Hd & Hwd & Hid) Hfill Hidx Hvn Hvd HQ.
  pose proof Hin as [Hk Hwn Hi Hsz _ _ Hsn Hsnn _].
  pose proof (vector_info_diff k Hk) as Hdi.
  pose proof (wf_used _ Hwn). pose proof (wf_alloc _ Hwn). pose proof (wf_shift _ Hwn).
  assert (0 < 2 ^ block_shift nv) by lia.
  assert (forall x y, w_vecs w !! x = Some y -> x <> w_next w) as Hfr.
  { intros x y Hx ->. rewrite Hh in Hx; [done | lia]. }
  apply wp_bind, wp_in_world. eapply wp_clone; [exact Hn | done | done | | | done |].
  { rewrite Hi. apply Hdi. }
  { rewrite Hi. apply size_ok_small; lia. }
  intros lv e Hce Hwl Hil _ _ Hcl. cbn [c_vectors c_world].
  apply wp_bind. eapply (wp_multi_access k nowidx fn_int snap (Some n) vs);
    [done | | by apply wf_heap_new | intros Ha; by apply Hna, Hce | done |].
  { exists nv. split_and!; try done. simpl. rewrite lookup_insert_ne; [done|].
    intros E. by eapply (Hfr n nv). }
  intros n' cv w1 Hwc Hic Hcc Hn' [Hoth _] Hh1 Hc1.
  destruct (Hoth d) as [Hdn Hd1]; [congruence | |].
  { simpl. rewrite lookup_insert_ne; [by eexists|]. intros E. by eapply (Hfr d dv). }
  simpl in Hd1. rewrite lookup_insert_ne, Hd in Hd1 by (intros E; by eapply (Hfr d dv)).
  destruct (Hoth (w_next w)) as [Hln Hl1]; [intros E; injection E as E; by eapply (Hfr n nv) | |].
  { exists lv. apply lookup_insert_eq. }
  simpl in Hl1. rewrite lookup_insert_eq in Hl1.
  apply wp_bind. eapply wp_get_vector; [by rewrite list_lookup_insert_ne|].
  apply wp_bind. eapply wp_get_vector.
  { apply list_lookup_insert_eq. by eapply lookup_lt_Some. }
  pose proof (length_contents cv Hwc) as Hlc. rewrite Hcc in Hlc.
  apply wp_bind, wp_in_world. cbn [c_world].
  assert (AFail ∉ e_allocs (w_env w1)) as Hna1.
  { intros Ha. by apply Hna, Hce, Hc1. }
  eapply (wp_compute_diff k (Some d) n' (w_next w) cv lv);
    [done | done | done | done | done | by rewrite Hic | congruence | | | | done |].
  { split; [done|]. split; [by eapply Hfr|]. exists dv. split_and!; try done; [congruence|].
    right. split; [lia|]. split; [done|]. rewrite Hic. apply size_ok_small; [lia|].
    apply Hwd. }
  { rewrite Hcl. apply Hin. }
  { by rewrite Hcc. }
  rewrite Hcc. rewrite (diff_input_result k nv lv snap) by done.
  intros d' v' w2 _ Hwv Hiv Huv Hcv Hd'n Hd'l Hw2. cbn [c_vectors fst snd].
  apply wp_bind, wp_set_vector.
  { rewrite length_insert. by eapply lookup_lt_Some. }
  apply wp_bind, wp_in_world. cbn [c_world].
  eapply (wp_vector_free (w_next w) lv); [| done |].
  { rewrite Hw2, lookup_insert_ne by done. simpl. rewrite lookup_delete_ne; [done|].
    intros E. by eapply (Hfr d dv). }
  rewrite decide_True by done. cbn [c_vectors].
  apply wp_bind, wp_in_world, wp_clear_error. intros e2 _. cbn [c_world c_vectors].
  assert (w_vecs (with_env e2 (set_vecs (delete (w_next w) (w_vecs w2)) w2)) !! d' = Some v') as Hd'.
  { simpl. rewrite lookup_delete_ne, Hw2 by done. apply lookup_insert_eq. }
  apply wp_bind, wp_in_world. cbn [c_world]. apply wp_bind.
  eapply wp_read_vec; [exact Hd'|]. apply wp_ret, wp_ret. rewrite Huv, <- Hlc.
  eapply (HQ n'); [done | done | exact Hd' | | done].
  exists cv. split; [|done]. simpl. rewrite lookup_delete_ne, Hw2, lookup_insert_ne by done.
  simpl. by rewrite lookup_delete_ne.
Qed.

Lemma wp_multi_diff k diffidx nowidx fn_int snap n od nv vs (Q : vptr * Z -> comp -> Prop) w :
  diff_input k nv snap -> w_vecs w !! n = Some nv -> wf_heap w ->
  (AFail ∉ e_allocs (w_env w)) -> fills k fn_int snap ->
  diffidx <> nowidx -> vs !! nowidx = Some (Some n) -> vs !! diffidx = Some od ->
  od <> Some n -> slot_state k od w -> (od = None -> 1 <= used_count nv) ->
  (forall n' d' v' w' vs', wf_vec v' -> contents v' = map (diff_item k (contents nv)) snap ->
     w_vecs w' !! d' = Some v' -> (exists v2, w_vecs w' !! n' = Some v2 /\ contents v2 = snap) ->
     vs' = <[diffidx := Some d']> (<[nowidx := Some n']> vs) ->
     Q (Some d', Z.of_nat (length snap)) (mk_comp (Some vs') w')) ->
  wp (MULTI_COMP_DIFF k diffidx nowidx (MULTI_COMP_ACCESS k nowidx fn_int)) Q
     (mk_comp (Some vs) w).
Proof.
  intros Hin Hn Hh Hna Hfill Hidx Hvn Hvd Hodn Hslot Hne HQ.
  apply wp_bind, wp_gets. cbn [c_vectors].
  apply wp_bind. eapply wp_get_vector; [done|].
  apply wp_bind. eapply wp_get_vector; [done|].
  apply wp_bind. destruct od as [d|].
  - apply wp_ret. apply wp_bind. eapply wp_get_vector; [done|].
    eapply (wp_diff_step k diffidx nowidx fn_int snap n d nv); try done.
    split_and!; try done. congruence.
  - pose proof (wf_used _ (di_wf _ _ _ Hin)). pose proof (di_size _ _ _ Hin).
    apply wp_bind, wp_in_world. eapply wp_read_vec; [done|]. cbn [c_vectors].
    apply wp_bind, wp_in_world, wp_vector_create; [split; [by apply Hne | lia] | lia | done |].
    intros dv e Hce Hwd _ Hid. cbn [c_vectors c_world].
    assert (n <> w_next w) as Hnn.
    { intros ->. rewrite Hh in Hn; [done | lia]. }
    apply wp_set_vector; [by eapply lookup_lt_Some|].
    apply wp_bind. eapply wp_get_vector.
    { apply list_lookup_insert_eq. by eapply lookup_lt_Some. }
    eapply (wp_diff_step k diffidx nowidx fn_int snap n (w_next w) nv); try done.
    + split_and!; try done.
      * simpl. by rewrite lookup_insert_ne.
      * by apply wf_heap_new.
      * intros Ha. by apply Hna, Hce.
      * exists dv. split; [apply lookup_insert_eq | done].
    + by rewrite list_lookup_insert_ne.
    + apply list_lookup_insert_eq. by eapply lookup_lt_Some.
    + intros n' d' v' w' vs' ? ? ? ? ->. eapply HQ; try done.
      rewrite (list_insert_insert_ne _ nowidx diffidx) by done.
      by rewrite list_insert_insert_eq.
Qed.
End facts.
