(* ===== verification/Stdio.v ===== *)
(** The part of C's stdio the sources read kernel files with: [fopen] and [fgets]
    on the contents of a file, and [sscanf] with its format strings. *)

From S2P Require Import Prelude CLib Types Errors.

(** * The machine the library runs on *)

(** Contents of the readable files (with the errno of the others), the value of
    [time(NULL)], and the system's page size. *)
Class System := {
  sys_file : string -> option string;
  sys_open_errno : string -> Z;
  sys_time : Z;
  sys_page_size : Z }.

Definition fopen {sys : System} (path : string) : M env (option string) :=
  match sys_file path with
  | Some c => mret (Some c)
  | None => modify (set_errno (sys_open_errno path));; mret None
  end.

(** * Lines *)

Definition newline : ascii := "010"%char.

(** [fgets(buf, size, f)]: at most [size - 1] characters, up to and including
    the first newline; the rest of the file stays. *)
Fixpoint take_line (n : nat) (f : string) : string * string :=
  match n, f with
  | O, _ => (EmptyString, f)
  | S _, EmptyString => (EmptyString, EmptyString)
  | S n', String c f' =>
      if decide (c = newline) then (String c EmptyString, f')
      else let '(l, r) := take_line n' f' in (String c l, r)
  end.

Definition fgets (size : nat) (f : string) : option (string * string) :=
  match f with
  | EmptyString => None
  | _ => Some (take_line (size - 1) f)
  end.

(** All lines a [while(fgets(...))] loop sees; a call consumes at least one
    character, so the length of the file is enough fuel. *)
Fixpoint lines_fuel (fuel size : nat) (f : string) : list string :=
  match fuel with
  | O => []
  | S fuel' =>
      match fgets size f with
      | None => []
      | Some (l, r) => l :: lines_fuel fuel' size r
      end
  end.

Definition file_lines (size : nat) (f : string) : list string :=
  lines_fuel (String.length f) size f.

(** * Character classes of the C locale *)

Definition isspace (c : ascii) : bool :=
  let z := byte_of c in (z =? 32) || ((9 <=? z) && (z <=? 13)).
Definition isblank (c : ascii) : bool :=
  let z := byte_of c in (z =? 32) || (z =? 9).
Definition isdigit (c : ascii) : bool :=
  let z := byte_of c in (48 <=? z) && (z <=? 57).
Definition isalpha (c : ascii) : bool :=
  let z := byte_of c in ((65 <=? z) && (z <=? 90)) || ((97 <=? z) && (z <=? 122)).
Definition isalnum (c : ascii) : bool := isalpha c || isdigit c.

(** The character at index [i], the terminator behind the text. *)
Definition char_at (s : string) (i : nat) : ascii := default NUL (String.get i s).

Definition digit_val (c : ascii) : Z := byte_of c - 48.

(** * sscanf *)

Inductive conv := Cd | Cu | Cs | Cc | Cset (neg : bool) (chars : list ascii).

Inductive directive :=
| DWhite
| DLit (c : ascii)
| DConv (suppress : bool) (width : option nat) (bits : Z) (k : conv).

Inductive sval := VInt (z : Z) | VStr (s : string).

#[export] Instance sval_eq_dec : EqDecision sval.
Proof. solve_decision. Defined.

Fixpoint take_while (p : ascii -> bool) (width : option nat) (s : string) {struct s}
    : string * string :=
  match width, s with
  | Some O, _ => (EmptyString, s)
  | _, EmptyString => (EmptyString, EmptyString)
  | _, String c s' =>
      if p c then
        let '(t, r) := take_while p (Nat.pred <$> width) s' in (String c t, r)
      else (EmptyString, s)
  end.

Definition skip_white (s : string) : string := (take_while isspace None s).2.

Fixpoint digits_acc (acc : Z) (s : string) : Z :=
  match s with
  | EmptyString => acc
  | String c s' => digits_acc (acc * 10 + digit_val c) s'
  end.

(** Decimal digits, read from the left. *)
Definition digits_val (s : string) : Z := digits_acc 0 s.

(** ** Format strings *)

Fixpoint set_chars (fuel : nat) (s : string) : list ascii * string :=
  match fuel, s with
  | S f, String c s' =>
      if decide (c = "]"%char) then ([], s')
      else let '(l, r) := set_chars f s' in (c :: l, r)
  | _, _ => ([], s)
  end.

Fixpoint length_modifier (bits : Z) (s : string) : Z * string :=
  match s with
  | String c s' =>
      if bool_decide (c ∈ ["l"%char; "z"%char; "j"%char; "q"%char])
      then length_modifier 64 s'
      else if decide (c = "h"%char) then length_modifier (bits / 2) s'
      else (bits, s)
  | EmptyString => (bits, s)
  end.

(** What follows a percent sign. *)
Definition parse_conv (s : string) : option (directive * string) :=
  let '(suppress, s) :=
    match s with
    | String "*" s' => (true, s')
    | _ => (false, s)
    end in
  let '(w, s) := take_while isdigit None s in
  let width := match w with EmptyString => None | _ => Some (Z.to_nat (digits_val w)) end in
  let '(bits, s) := length_modifier 32 s in
  match s with
  | String "d" s' => Some (DConv suppress width bits Cd, s')
  | String "u" s' => Some (DConv suppress width bits Cu, s')
  | String "s" s' => Some (DConv suppress width bits Cs, s')
  | String "c" s' => Some (DConv suppress width bits Cc, s')
  | String "[" (String "^" s') =>
      let '(l, r) := set_chars (String.length s') s' in
      Some (DConv suppress width bits (Cset true l), r)
  | String "[" s' =>
      let '(l, r) := set_chars (String.length s') s' in
      Some (DConv suppress width bits (Cset false l), r)
  | _ => None
  end.

Fixpoint parse_format (fuel : nat) (s : string) : list directive :=
  match fuel, s with
  | S f, String c s' =>
      if decide (c = "%"%char) then
        match parse_conv s' with
        | Some (d, r) => d :: parse_format f r
        | None => []
        end
      else if isspace c then DWhite :: parse_format f (skip_white s')
      else DLit c :: parse_format f s'
  | _, _ => []
  end.

(** ** Conversions *)

(** [strtoull] and [strtoll] on digits with a sign: the value saturates. *)
Definition to_unsigned (neg : bool) (d : string) : Z :=
  let v := digits_val d in
  if 2 ^ 64 <=? v then 2 ^ 64 - 1 else if neg then u64 (- v) else v.
Definition to_signed (neg : bool) (d : string) : Z :=
  let v := digits_val d in
  if neg then Z.max (- 2 ^ 63) (- v) else Z.min (2 ^ 63 - 1) v.

Definition take_sign (s : string) : bool * nat * string :=
  match s with
  | String "-" s' => (true, 1%nat, s')
  | String "+" s' => (false, 1%nat, s')
  | _ => (false, O, s)
  end.

Inductive conv_result := InputFailure | MatchFailure | Matched (v : sval) (rest : string).

Definition convert (width : option nat) (bits : Z) (k : conv) (s : string) : conv_result :=
  let word (p : ascii -> bool) (s : string) : conv_result :=
    match s with
    | EmptyString => InputFailure
    | _ =>
        match take_while p width s with
        | (EmptyString, _) => MatchFailure
        | (t, r) => Matched (VStr t) r
        end
    end in
  let number (f : bool -> string -> Z) (s : string) : conv_result :=
    match s with
    | EmptyString => InputFailure
    | _ =>
        let '(neg, n, s1) := take_sign s in
        match take_while isdigit ((fun w => w - n)%nat <$> width) s1 with
        | (EmptyString, _) => MatchFailure
        | (t, r) => Matched (VInt (f neg t)) r
        end
    end in
  match k with
  | Cd => number (fun neg t => swrap bits (to_signed neg t)) (skip_white s)
  | Cu => number (fun neg t => wrap bits (to_unsigned neg t)) (skip_white s)
  | Cs => word (fun c => negb (isspace c)) (skip_white s)
  | Cc =>
      match s with
      | EmptyString => InputFailure
      | String c r => Matched (VStr (String c EmptyString)) r
      end
  | Cset neg l => word (fun c => xorb neg (bool_decide (c ∈ l))) s
  end.

(** The number of assigned values, or EOF (-1) when the input ended before the
    first one. *)
Fixpoint scan (ds : list directive) (s : string) (vals : list sval) : Z * list sval :=
  let stop := (Z.of_nat (length vals), vals) in
  let eof := (if decide (vals = []) then -1 else Z.of_nat (length vals), vals) in
  match ds with
  | [] => stop
  | DWhite :: ds' => scan ds' (skip_white s) vals
  | DLit c :: ds' =>
      match s with
      | EmptyString => eof
      | String c' s' => if decide (c = c') then scan ds' s' vals else stop
      end
  | DConv suppress width bits k :: ds' =>
      match convert width bits k s with
      | InputFailure => eof
      | MatchFailure => stop
      | Matched v r => scan ds' r (if suppress then vals else vals ++ [v])
      end
  end.

Definition sscanf (s fmt : string) : Z * list sval :=
  scan (parse_format (String.length fmt) fmt) s [].

(** The [i]-th assigned integer; the variable keeps [old] when it was not
    assigned. *)
Definition arg_int (old : Z) (vals : list sval) (i : nat) : Z :=
  match vals !! i with Some (VInt z) => z | _ => old end.
Definition arg_str (old : string) (vals : list sval) (i : nat) : string :=
  match vals !! i with Some (VStr s) => s | _ => old end.

(** * Facts *)

Lemma take_line_progress n f :
  (0 < n)%nat -> f <> EmptyString -> (String.length (take_line n f).2 < String.length f)%nat.
Proof.
  revert f. induction n as [|n IH]; intros f Hn Hf; [lia|].
  destruct f as [|c f]; [done|]. cbn [take_line].
  destruct (decide (c = newline)); [simpl; lia|].
  destruct n as [|n].
  - simpl. lia.
  - destruct f as [|c' f]; [simpl; lia|].
    specialize (IH (String c' f) ltac:(lia) ltac:(done)).
    destruct (take_line (S n) (String c' f)) as [l r]. simpl in *. lia.
Qed.

(** Nothing of the file is lost and nothing is read twice. *)
Lemma take_line_append n f : (take_line n f).1 +:+ (take_line n f).2 = f.
Proof.
  revert f. induction n as [|n IH]; intros [|c f]; cbn [take_line]; try done.
  destruct (decide (c = newline)); [done|].
  specialize (IH f). destruct (take_line n f) as [l r]. simpl in *.
  unfold String.app in *. simpl. by rewrite IH.
Qed.

(** [take_while] on a text of accepted characters. *)
Fixpoint all_chars (p : ascii -> bool) (s : string) : bool :=
  match s with EmptyString => true | String c s' => p c && all_chars p s' end.

Lemma take_while_app p t r :
  all_chars p t = true ->
  match r with EmptyString => True | String c _ => p c = false end ->
  take_while p None (t +:+ r) = (t, r).
Proof.
  intros Ht Hr. induction t as [|c t IH]; simpl in *.
  - destruct r as [|c r]; [done|]. simpl. by rewrite Hr.
  - apply andb_true_iff in Ht as [Hc Ht]. rewrite Hc.
    change (String.app t r) with (t +:+ r). by rewrite IH.
Qed.

Lemma string_app_assoc (x y z : string) : (x +:+ y) +:+ z = x +:+ (y +:+ z).
Proof. induction x as [|c x IH]; [done|]. exact (f_equal (String c) IH). Qed.

Lemma digits_acc_app a x y : digits_acc a (x +:+ y) = digits_acc (digits_acc a x) y.
Proof. revert a. induction x as [|c x IH]; intros a; [done|]. simpl. apply IH. Qed.

(** ** Decimal numbers *)

(** The text [printf] writes for an unsigned number. *)
Definition print_unsigned (z : Z) : string := pretty (Z.to_N z).
Definition print_signed (z : Z) : string :=
  if z <? 0 then String "-" (print_unsigned (- z)) else print_unsigned z.

Lemma pretty_N_char_digit x :
  (x < 10)%N -> isdigit (pretty_N_char x) = true /\ digit_val (pretty_N_char x) = Z.of_N x.
Proof.
  intros Hx. assert (x = 0 \/ x = 1 \/ x = 2 \/ x = 3 \/ x = 4 \/ x = 5 \/ x = 6 \/ x = 7
                     \/ x = 8 \/ x = 9)%N as Hc by lia.
  repeat destruct Hc as [->|Hc]; try done. by subst.
Qed.

Lemma digits_acc_shift a s : digits_acc a s = a * 10 ^ Z.of_nat (String.length s) + digits_acc 0 s.
Proof.
  revert a. induction s as [|c s IH]; intros a; cbn [digits_acc String.length]; [lia|].
  rewrite (IH (a * 10 + digit_val c)), (IH (0 * 10 + digit_val c)).
  rewrite Nat2Z.inj_succ, Z.pow_succ_r by lia. lia.
Qed.

Lemma pretty_N_go_digits x s :
  all_chars isdigit s = true ->
  all_chars isdigit (pretty_N_go x s) = true /\
  digits_acc 0 (pretty_N_go x s) = Z.of_N x * 10 ^ Z.of_nat (String.length s) + digits_acc 0 s.
Proof.
  revert s. induction (N.lt_wf_0 x) as [x _ IH]; intros s Hs.
  destruct (decide (x = 0)%N) as [->|Hx]; [by rewrite pretty_N_go_0|].
  rewrite pretty_N_go_step by lia.
  destruct (pretty_N_char_digit (x `mod` 10)) as [Hd Hv]; [by apply N.mod_lt|].
  destruct (IH (x `div` 10)%N) with (s := String (pretty_N_char (x `mod` 10)) s) as [E1 E2].
  { apply N.div_lt; lia. }
  { simpl. by rewrite Hd. }
  split; [done|]. rewrite E2. cbn [String.length digits_acc].
  rewrite (digits_acc_shift (0 * 10 + _)), Hv, Nat2Z.inj_succ, Z.pow_succ_r by lia.
  rewrite N2Z.inj_mod, N2Z.inj_div.
  pose proof (Z.div_mod (Z.of_N x) 10 ltac:(lia)). change (Z.of_N 10) with 10. nia.
Qed.

(** Reading back what was printed gives the number. *)
Lemma print_unsigned_digits z :
  0 <= z -> all_chars isdigit (print_unsigned z) = true /\ digits_val (print_unsigned z) = z /\
            print_unsigned z <> EmptyString.
Proof.
  intros Hz. unfold print_unsigned, pretty, pretty_N, digits_val.
  destruct (decide (Z.to_N z = 0)%N) as [E|E].
  { repeat split; try done. change (0 = z). lia. }
  destruct (pretty_N_go_digits (Z.to_N z) EmptyString) as [E1 E2]; [done|].
  cbn [String.length digits_acc] in E2.
  repeat split; [done | lia |].
  intros H. rewrite H in E2. cbn [digits_acc] in E2. lia.
Qed.

Lemma digit_not_space c : isdigit c = true -> isspace c = false.
Proof. unfold isdigit, isspace. intros [? ?]%andb_true_iff. lia. Qed.

Lemma skip_white_digit t r :
  all_chars isdigit t = true -> t <> EmptyString -> skip_white (t +:+ r) = t +:+ r.
Proof.
  intros Ht Hne. destruct t as [|c t]; [done|]. simpl in Ht. apply andb_true_iff in Ht as [Hc _].
  unfold skip_white. simpl. by rewrite digit_not_space.
Qed.

(** A number starts with a digit, not with a sign. *)
Lemma take_sign_digits t r :
  all_chars isdigit t = true -> t <> EmptyString -> take_sign (t +:+ r) = (false, O, t +:+ r).
Proof.
  intros Hd Hne. destruct t as [|c t]; [done|]. simpl in Hd. apply andb_true_iff in Hd as [Hc _].
  simpl. destruct c as [[] [] [] [] [] [] [] []]; try done.
Qed.

Lemma string_app_nil (s : string) : s +:+ EmptyString = s.
Proof. induction s as [|c s IH]; [done|]. exact (f_equal (String c) IH). Qed.

(** [%llu] on a printed number followed by something that is no digit. *)
Lemma convert_print z r :
  in_u64 z -> match r with EmptyString => True | String c _ => isdigit c = false end ->
  convert None 64 Cu (print_unsigned z +:+ r) = Matched (VInt z) r.
Proof.
  intros [Hz0 Hz1] Hr. destruct (print_unsigned_digits z Hz0) as (Hd & Hv & Hne).
  unfold convert. rewrite skip_white_digit by done.
  destruct (print_unsigned z) as [|c t] eqn:E; [done|].
  pose proof (take_sign_digits (String c t) r Hd Hne) as Hs.
  simpl String.app. change (String c (t +:+ r)) with (String c t +:+ r).
  rewrite Hs. change (option_fmap _ _ _ None) with (@None nat).
  cbn [fmap option_fmap option_map]. rewrite take_while_app by done.
  unfold to_unsigned. rewrite Hv. destruct (Z.leb_spec (2 ^ 64) z); [lia|].
  by rewrite wrap_small.
Qed.

(** ** Fields of a line

    A field is a text behind some white space and before white space or the end. *)

Definition at_blank (r : string) : Prop :=
  match r with EmptyString => True | String c _ => isspace c = true end.

Definition not_space (c : ascii) : bool := negb (isspace c).

Lemma skip_white_field sp t r :
  all_chars isspace sp = true -> all_chars not_space t = true -> t <> EmptyString ->
  skip_white (sp +:+ (t +:+ r)) = t +:+ r.
Proof.
  intros Hsp Ht Hne. unfold skip_white. rewrite take_while_app; [done | done |].
  destruct t as [|c t]; [done|]. simpl in *. apply andb_true_iff in Ht as [Hc _].
  unfold not_space in Hc. by destruct (isspace c).
Qed.

Lemma all_chars_impl (p q : ascii -> bool) s :
  (forall c, p c = true -> q c = true) -> all_chars p s = true -> all_chars q s = true.
Proof.
  intros Hpq. induction s as [|c s IH]; [done|]. simpl. intros [Hc Hs]%andb_true_iff. by rewrite Hpq, IH.
Qed.

Lemma all_chars_app p x y : all_chars p (x +:+ y) = all_chars p x && all_chars p y.
Proof.
  induction x as [|c x IH]; [done|]. change (String c x +:+ y) with (String c (x +:+ y)).
  cbn [all_chars]. by rewrite IH, andb_assoc.
Qed.

Lemma digits_not_space t : all_chars isdigit t = true -> all_chars not_space t = true.
Proof. apply all_chars_impl. intros c Hc. unfold not_space. by rewrite digit_not_space. Qed.

Lemma at_blank_digit r :
  at_blank r -> match r with EmptyString => True | String c _ => isdigit c = false end.
Proof.
  destruct r as [|c r]; [done|]. simpl. intros Hc. destruct (isdigit c) eqn:E; [|done].
  apply digit_not_space in E. congruence.
Qed.

Lemma take_while_width p t r w :
  all_chars p t = true -> (String.length t <= w)%nat ->
  match r with EmptyString => True | String c _ => p c = false end ->
  take_while p (Some w) (t +:+ r) = (t, r).
Proof.
  revert w. induction t as [|c t IH]; intros w Ht Hw Hr; simpl in *.
  - destruct w, r; simpl; try done. by rewrite Hr.
  - destruct w as [|w]; [lia|]. apply andb_true_iff in Ht as [Hc Ht]. simpl. rewrite Hc.
    change (String.app t r) with (t +:+ r). rewrite IH by (done || lia). done.
Qed.

(** [" %llu"], [" %*d"] and [" %99s"] on such a field. *)
Lemma scan_u64 ds sp z r vals :
  all_chars isspace sp = true -> in_u64 z -> at_blank r ->
  scan (DWhite :: DConv false None 64 Cu :: ds) (sp +:+ (print_unsigned z +:+ r)) vals
    = scan ds r (vals ++ [VInt z]).
Proof.
  intros Hsp Hz Hr. destruct (print_unsigned_digits z) as (Hd & _ & Hne); [apply Hz|].
  cbn [scan]. rewrite skip_white_field by auto using digits_not_space.
  by rewrite convert_print by (done || by apply at_blank_digit).
Qed.

Lemma convert_print_d z r :
  0 <= z -> at_blank r -> exists v, convert None 32 Cd (print_unsigned z +:+ r) = Matched v r.
Proof.
  intros Hz Hr. destruct (print_unsigned_digits z Hz) as (Hd & _ & Hne).
  unfold convert. rewrite skip_white_digit by done.
  destruct (print_unsigned z) as [|c t] eqn:E; [done|].
  pose proof (take_sign_digits (String c t) r Hd Hne) as Hs.
  simpl String.app. change (String c (t +:+ r)) with (String c t +:+ r).
  rewrite Hs. cbn [fmap option_fmap option_map].
  rewrite take_while_app by (done || by apply at_blank_digit). eauto.
Qed.

Lemma scan_skip_number ds sp z r vals :
  all_chars isspace sp = true -> 0 <= z -> at_blank r ->
  scan (DWhite :: DConv true None 32 Cd :: ds) (sp +:+ (print_unsigned z +:+ r)) vals
    = scan ds r vals.
Proof.
  intros Hsp Hz Hr. destruct (print_unsigned_digits z) as (Hd & _ & Hne); [done|].
  cbn [scan]. rewrite skip_white_field by auto using digits_not_space.
  by destruct (convert_print_d z r Hz Hr) as [v ->].
Qed.

Lemma scan_word w ds sp t r vals :
  all_chars isspace sp = true -> all_chars not_space t = true -> t <> EmptyString ->
  (String.length t <= w)%nat -> at_blank r ->
  scan (DWhite :: DConv false (Some w) 32 Cs :: ds) (sp +:+ (t +:+ r)) vals
    = scan ds r (vals ++ [VStr t]).
Proof.
  intros Hsp Ht Hne Hw Hr. cbn [scan]. rewrite skip_white_field by done.
  unfold convert. assert (skip_white (t +:+ r) = t +:+ r) as ->
    by (by apply (skip_white_field EmptyString)).
  rewrite take_while_width; [| done | done | by destruct r; simpl in *; rewrite ?Hr].
  by destruct t.
Qed.

(** ["%*s"] at the start of a line and [" %lld"]. *)
Lemma scan_skip_word ds t r vals :
  all_chars not_space t = true -> t <> EmptyString -> at_blank r ->
  scan (DConv true None 32 Cs :: ds) (t +:+ r) vals = scan ds r vals.
Proof.
  intros Ht Hne Hr. cbn [scan]. unfold convert.
  assert (skip_white (t +:+ r) = t +:+ r) as -> by (by apply (skip_white_field EmptyString)).
  rewrite take_while_app; [| done | by destruct r; simpl in *; rewrite ?Hr].
  by destruct t.
Qed.

Lemma convert_signed z r :
  0 <= z < 2 ^ 63 -> match r with EmptyString => True | String c _ => isdigit c = false end ->
  convert None 64 Cd (print_unsigned z +:+ r) = Matched (VInt z) r.
Proof.
  intros Hz Hr. destruct (print_unsigned_digits z) as (Hd & Hv & Hne); [lia|].
  unfold convert. rewrite skip_white_digit by done.
  destruct (print_unsigned z) as [|c t] eqn:E; [done|].
  pose proof (take_sign_digits (String c t) r Hd Hne) as Hs.
  simpl String.app. change (String c (t +:+ r)) with (String c t +:+ r).
  rewrite Hs. cbn [fmap option_fmap option_map]. rewrite take_while_app by done.
  unfold to_signed. rewrite Hv, Z.min_r by lia. rewrite swrap_small by lia. done.
Qed.

Lemma scan_s64 ds sp z r vals :
  all_chars isspace sp = true -> 0 <= z < 2 ^ 63 -> at_blank r ->
  scan (DWhite :: DConv false None 64 Cd :: ds) (sp +:+ (print_unsigned z +:+ r)) vals
    = scan ds r (vals ++ [VInt z]).
Proof.
  intros Hsp Hz Hr. destruct (print_unsigned_digits z) as (Hd & Hv & Hne); [lia|].
  cbn [scan]. rewrite skip_white_field by auto using digits_not_space.
  by rewrite convert_signed by (done || by apply at_blank_digit).
Qed.

(** ** Files made of lines *)

Definition concat_lines : list string -> string := foldr String.app EmptyString.

Definition not_newline (c : ascii) : bool := bool_decide (c <> newline).

(** A line [fgets] reads with one call. *)
Definition short_line (size : nat) (l : string) : Prop :=
  exists t, l = t +:+ String newline EmptyString /\ all_chars not_newline t = true /\
            (String.length t < size - 1)%nat.

Lemma take_line_short n t r :
  all_chars not_newline t = true -> (String.length t < n)%nat ->
  take_line n (t +:+ String newline r) = (t +:+ String newline EmptyString, r).
Proof.
  revert n. induction t as [|c t IH]; intros [|n] Ht Hn; simpl in Hn; try lia; [done|].
  cbn [all_chars] in Ht. apply andb_true_iff in Ht as [Hc Ht].
  apply bool_decide_eq_true in Hc. change (String c t +:+ ?x) with (String c (t +:+ x)).
  cbn [take_line]. rewrite decide_False by done. rewrite IH by (done || lia). done.
Qed.

Lemma lines_fuel_short size ls fuel :
  Forall (short_line size) ls -> (String.length (concat_lines ls) <= fuel)%nat ->
  lines_fuel fuel size (concat_lines ls) = ls.
Proof.
  intros HF. revert fuel. induction HF as [|l ls Hl HF IH]; intros fuel Hfuel.
  { by destruct fuel. }
  destruct Hl as (t & -> & Ht & Hlen).
  assert (concat_lines ((t +:+ String newline EmptyString) :: ls)
          = t +:+ String newline (concat_lines ls)) as E
    by (cbn [concat_lines foldr]; by rewrite string_app_assoc).
  assert (String.length (t +:+ String newline (concat_lines ls))
          = (String.length t + S (String.length (concat_lines ls)))%nat) as EL.
  { clear. induction t as [|c t IH]; [done|].
    change (String c t +:+ ?x) with (String c (t +:+ x)). simpl. by rewrite IH. }
  rewrite E in *. rewrite EL in Hfuel. destruct fuel as [|fuel]; [lia|].
  cbn [lines_fuel]. assert (exists c f, t +:+ String newline (concat_lines ls) = String c f) as (c & f & Ec)
    by (destruct t; eexists _, _; reflexivity).
  unfold fgets. rewrite Ec, <- Ec. rewrite take_line_short by done. by rewrite IH by lia.
Qed.

(** A file of short lines is read as these lines. *)
Lemma file_lines_short size ls :
  Forall (short_line size) ls -> file_lines size (concat_lines ls) = ls.
Proof. intros. by apply lines_fuel_short. Qed.

(** ** What is read comes from the input *)

Definition not_nul (c : ascii) : bool := bool_decide (c <> NUL).

Lemma no_nul_chars s : all_chars not_nul s = true -> no_nul s = true.
Proof.
  intros H. apply bool_decide_eq_true. induction s as [|c s IH]; simpl in *.
  - apply not_elem_of_nil.
  - apply andb_true_iff in H as [Hc Hs]. apply bool_decide_eq_true in Hc.
    rewrite not_elem_of_cons. split; [congruence|auto].
Qed.

Lemma take_while_chars p q w s :
  all_chars q s = true ->
  all_chars q (take_while p w s).1 = true /\ all_chars q (take_while p w s).2 = true.
Proof.
  revert w. induction s as [|c s IH]; intros w Hs; simpl; [by destruct w as [[|]|]|].
  simpl in Hs. apply andb_true_iff in Hs as [Hc Hs].
  assert (forall w', all_chars q (if p c then let '(t, r) := take_while p w' s in (String c t, r)
                                  else (EmptyString, String c s)).1 = true /\
                     all_chars q (if p c then let '(t, r) := take_while p w' s in (String c t, r)
                                  else (EmptyString, String c s)).2 = true) as H.
  { intros w'. destruct (p c); [|simpl; by rewrite Hc].
    specialize (IH w' Hs). destruct (take_while p w' s) as [t r]. simpl in *. by rewrite Hc. }
  destruct w as [[|n]|]; [simpl; by rewrite Hc | apply H | apply H].
Qed.

Lemma take_line_chars q n s :
  all_chars q s = true ->
  all_chars q (take_line n s).1 = true /\ all_chars q (take_line n s).2 = true.
Proof.
  revert s. induction n as [|n IH]; intros s Hs; [by destruct s|].
  destruct s as [|c s]; [done|]. cbn [take_line]. simpl in Hs.
  apply andb_true_iff in Hs as [Hc Hs].
  destruct (decide (c = newline)); [simpl; by rewrite Hc|].
  specialize (IH s Hs). destruct (take_line n s) as [l r]. simpl in *. by rewrite Hc.
Qed.

Lemma file_lines_chars q size f line :
  all_chars q f = true -> line ∈ file_lines size f -> all_chars q line = true.
Proof.
  unfold file_lines. generalize (String.length f) as fuel. intros fuel. revert f.
  induction fuel as [|fuel IH]; intros f Hf; cbn [lines_fuel]; [by intros ?%not_elem_of_nil|].
  unfold fgets. destruct f as [|c f]; [by intros ?%not_elem_of_nil|].
  destruct (take_line_chars q (size - 1) (String c f) Hf) as [H1 H2].
  destruct (take_line (size - 1) (String c f)) as [l r]. simpl in H1, H2.
  intros [->|Hin]%elem_of_cons; [done | by eapply IH].
Qed.

Definition text_val (q : ascii -> bool) (v : sval) : bool :=
  match v with VStr s => all_chars q s | VInt _ => true end.

Lemma convert_chars q width bits k s v r :
  all_chars q s = true -> convert width bits k s = Matched v r ->
  text_val q v = true /\ all_chars q r = true.
Proof.
  intros Hs.
  assert (all_chars q (skip_white s) = true) as Hw by (by apply take_while_chars).
  assert (forall p w t, all_chars q t = true ->
    match t with EmptyString => InputFailure | _ =>
      match take_while p w t with
      | (EmptyString, _) => MatchFailure | (t', r) => Matched (VStr t') r end end = Matched v r ->
    text_val q v = true /\ all_chars q r = true) as Hword.
  { intros p w t Ht. destruct t as [|c t]; [done|].
    destruct (take_while_chars p q w (String c t) Ht) as [H1 H2].
    destruct (take_while p w (String c t)) as [[|c' t'] r']; [done|].
    intros [= <- <-]. done. }
  assert (forall f w t, all_chars q t = true ->
    match t with EmptyString => InputFailure | _ =>
      let '(neg, n, s1) := take_sign t in
      match take_while isdigit ((fun w => w - n)%nat <$> w) s1 with
      | (EmptyString, _) => MatchFailure | (t', r) => Matched (VInt (f neg t')) r end end
      = Matched v r -> text_val q v = true /\ all_chars q r = true) as Hnum.
  { intros f w t Ht. destruct t as [|c t]; [done|].
    assert (exists neg n s1, take_sign (String c t) = (neg, n, s1) /\ all_chars q s1 = true)
      as (neg & n & s1 & -> & Hs1).
    { simpl in Ht. apply andb_true_iff in Ht as [Hc Ht]. unfold take_sign.
      repeat case_match; simplify_eq; eexists _, _, _; (split; [reflexivity|]); simpl;
        rewrite ?andb_true_iff; done. }
    destruct (take_while_chars isdigit q ((fun w => w - n)%nat <$> w) s1 Hs1) as [H1 H2].
    destruct (take_while isdigit _ s1) as [[|c' t'] r']; [done|].
    intros [= <- <-]. done. }
  destruct k; cbn [convert]; [by apply Hnum | by apply Hnum | by apply Hword | | by apply Hword].
  destruct s as [|c s]; [done|]. intros [= <- <-]. cbn [all_chars text_val] in *.
  apply andb_true_iff in Hs as [-> ->]. done.
Qed.

Lemma scan_chars q ds s vals :
  all_chars q s = true -> Forall (fun v => text_val q v = true) vals ->
  Forall (fun v => text_val q v = true) (scan ds s vals).2.
Proof.
  revert s vals. induction ds as [|[|c|sup width bits k] ds IH]; intros s vals Hs Hv;
    cbn [scan]; [done| | |].
  - apply IH; [by apply take_while_chars | done].
  - destruct s as [|c' s]; [done|]. destruct (decide (c = c')); [|done].
    simpl in Hs. apply andb_true_iff in Hs as [_ Hs]. by apply IH.
  - destruct (convert width bits k s) as [| |v r] eqn:E; [done..|].
    destruct (convert_chars q width bits k s v r Hs E) as [H1 H2].
    apply IH; [done|]. destruct sup; [done|]. apply Forall_app. by repeat constructor.
Qed.

(** The texts [sscanf] stores are made of characters of the line. *)
Lemma sscanf_text q s fmt n vals i :
  all_chars q s = true -> sscanf s fmt = (n, vals) ->
  all_chars q (arg_str EmptyString vals i) = true.
Proof.
  intros Hs E.
  assert (Forall (fun v => text_val q v = true) vals) as HF.
  { change vals with ((n, vals).2). rewrite <- E. apply scan_chars; [done | constructor]. }
  unfold arg_str. destruct (vals !! i) as [[z|t]|] eqn:Ei; try done.
  by apply (Forall_lookup_1 _ _ _ _ HF) in Ei.
Qed.
