(* ===== verification/ScanFields.v ===== *)
(** Scanning lines of numbers: [sscanf] with a format of literal characters and number
    conversions, on the text [printf] writes for such a line. *)

From S2P Require Import Prelude Types CLib Errors Tools Stdio.

(** * Number fields *)

(** A conversion [%d], [%u], [%ld], [%llu], ...: whether it is suppressed, its width in bits
    and its sign. *)
Record nfield := mk_nfield { nf_skip : bool; nf_bits : Z; nf_signed : bool }.

Definition nf_dir (f : nfield) : directive :=
  DConv (nf_skip f) None (nf_bits f) (if nf_signed f then Cd else Cu).
(** The text of a number that is skipped does not depend on the conversion: it may be
    negative or have 64 bits, whatever the conversion says. *)
Definition nf_text (f : nfield) (z : Z) : string :=
  if nf_skip f || nf_signed f then print_signed z else print_unsigned z.
Definition nf_value (f : nfield) (z : Z) : Z :=
  if nf_signed f then swrap (nf_bits f) z else wrap (nf_bits f) z.
Definition nf_in (f : nfield) (z : Z) : Prop :=
  if nf_skip f then - 2 ^ 64 < z < 2 ^ 64
  else if nf_signed f then - 2 ^ 63 < z < 2 ^ 63 else 0 <= z < 2 ^ 64.

Definition not_digit_first (r : string) : Prop :=
  match r with EmptyString => True | String c _ => isdigit c = false end.

Lemma print_signed_cons z :
  exists c t, print_signed z = String c t /\ isspace c = false.
Proof.
  unfold print_signed. destruct (Z.ltb_spec z 0); [by eexists _, _|].
  destruct (print_unsigned_digits z) as (Hd & _ & Hne); [done|].
  destruct (print_unsigned z) as [|c t]; [done|]. eexists _, _. split; [done|].
  simpl in Hd. apply andb_true_iff in Hd as [Hc _]. by apply digit_not_space.
Qed.

Lemma skip_white_signed z r : skip_white (print_signed z +:+ r) = print_signed z +:+ r.
Proof.
  destruct (print_signed_cons z) as (c & t & -> & Hc). change (String c t +:+ r) with (String c (t +:+ r)).
  unfold skip_white. cbn [take_while]. by rewrite Hc.
Qed.

Lemma convert_print_signed bits z r :
  0 < bits -> - 2 ^ 63 < z < 2 ^ 63 -> not_digit_first r ->
  convert None bits Cd (print_signed z +:+ r) = Matched (VInt (swrap bits z)) r.
Proof.
  intros Hb Hz Hr. unfold convert. rewrite skip_white_signed. unfold print_signed.
  destruct (Z.ltb_spec z 0) as [Hneg|Hpos].
  - destruct (print_unsigned_digits (- z)) as (Hd & Hv & Hne); [lia|].
    change (String "-" (print_unsigned (- z)) +:+ r) with (String "-" (print_unsigned (- z) +:+ r)).
    cbn [take_sign fmap option_fmap option_map]. rewrite take_while_app by done.
    destruct (print_unsigned (- z)) as [|c t] eqn:E; [done|].
    unfold to_signed. rewrite Hv. repeat f_equal. lia.
  - destruct (print_unsigned_digits z) as (Hd & Hv & Hne); [done|].
    destruct (print_unsigned z) as [|c t] eqn:E; [done|].
    pose proof (take_sign_digits (String c t) r Hd Hne) as Hs.
    simpl String.app. change (String c (t +:+ r)) with (String c t +:+ r).
    rewrite Hs. cbn [fmap option_fmap option_map]. rewrite take_while_app by done.
    unfold to_signed. rewrite Hv, Z.min_r by lia. done.
Qed.

Lemma convert_print_unsigned bits z r :
  0 <= z < 2 ^ 64 -> not_digit_first r ->
  convert None bits Cu (print_unsigned z +:+ r) = Matched (VInt (wrap bits z)) r.
Proof.
  intros Hz Hr. destruct (print_unsigned_digits z) as (Hd & Hv & Hne); [lia|].
  unfold convert. rewrite skip_white_digit by done.
  destruct (print_unsigned z) as [|c t] eqn:E; [done|].
  pose proof (take_sign_digits (String c t) r Hd Hne) as Hs.
  simpl String.app. change (String c (t +:+ r)) with (String c t +:+ r).
  rewrite Hs. cbn [fmap option_fmap option_map]. rewrite take_while_app by done.
  unfold to_unsigned. rewrite Hv. destruct (Z.leb_spec (2 ^ 64) z); [lia | done].
Qed.

Lemma convert_field f z r :
  nf_skip f = false -> 0 < nf_bits f -> nf_in f z -> not_digit_first r ->
  convert None (nf_bits f) (if nf_signed f then Cd else Cu) (nf_text f z +:+ r) = Matched (VInt (nf_value f z)) r.
Proof.
  unfold nf_in, nf_text, nf_value. intros ->. intros.
  destruct (nf_signed f); [by apply convert_print_signed | by apply convert_print_unsigned].
Qed.

(** Either conversion takes a whole number of any size and sign. *)
Lemma convert_any bits k z r :
  k = Cd \/ k = Cu -> not_digit_first r -> exists v, convert None bits k (print_signed z +:+ r) = Matched v r.
Proof.
  intros Hk Hr. unfold convert. rewrite skip_white_signed. unfold print_signed.
  destruct (Z.ltb_spec z 0) as [Hneg|Hpos].
  - destruct (print_unsigned_digits (- z)) as (Hd & Hv & Hne); [lia|].
    change (String "-" (print_unsigned (- z)) +:+ r) with (String "-" (print_unsigned (- z) +:+ r)).
    cbn [take_sign fmap option_fmap option_map]. rewrite take_while_app by done.
    destruct (print_unsigned (- z)) as [|c t] eqn:E; [done|]. destruct Hk as [-> | ->]; by eexists.
  - destruct (print_unsigned_digits z) as (Hd & Hv & Hne); [done|].
    destruct (print_unsigned z) as [|c t] eqn:E; [done|].
    pose proof (take_sign_digits (String c t) r Hd Hne) as Hs.
    simpl String.app. change (String c (t +:+ r)) with (String c t +:+ r).
    rewrite Hs. cbn [fmap option_fmap option_map]. rewrite take_while_app by done.
    destruct Hk as [-> | ->]; by eexists.
Qed.

(** ** Lengths *)

Lemma pretty_N_go_length k : forall x s,
  (x < 10 ^ N.of_nat k)%N -> (String.length (pretty_N_go x s) <= k + String.length s)%nat.
Proof.
  induction k as [|k IH]; intros x s Hx.
  - change (x < 1)%N in Hx. assert (x = 0%N) as -> by lia. by rewrite pretty_N_go_0.
  - destruct (decide (x = 0)%N) as [->|Hx0]; [rewrite pretty_N_go_0; lia|].
    rewrite pretty_N_go_step by lia.
    assert (x `div` 10 < 10 ^ N.of_nat k)%N as Hd.
    { apply N.Div0.div_lt_upper_bound. rewrite Nat2N.inj_succ, N.pow_succ_r' in Hx. lia. }
    apply IH with (s := String (pretty_N_char (x `mod` 10)) s) in Hd. simpl in Hd. lia.
Qed.

(** A number below [10 ^ k] is printed with at most [k] digits. *)
Lemma print_unsigned_length k z :
  (1 <= k)%nat -> 0 <= z < 10 ^ Z.of_nat k -> (String.length (print_unsigned z) <= k)%nat.
Proof.
  intros Hk Hz. unfold print_unsigned, pretty, pretty_N.
  destruct (decide _) as [E|E]; [simpl; lia|].
  etrans; [apply (pretty_N_go_length k) | simpl; lia].
  apply N2Z.inj_lt. rewrite N2Z.inj_pow, nat_N_Z, Z2N.id by lia. lia.
Qed.

Lemma nf_text_length f z : nf_in f z -> (String.length (nf_text f z) <= 21)%nat.
Proof.
  unfold nf_in, nf_text, print_signed.
  destruct (nf_skip f); [|destruct (nf_signed f)]; cbn [orb]; try destruct (Z.ltb_spec z 0); intros Hz; cbn [String.length];
    pose proof (print_unsigned_length 20 (- z)); pose proof (print_unsigned_length 20 z); cbn in *; lia.
Qed.

(** * Lines of fields *)

(** Fields with the white space before each. *)
Abbreviation fields := (list (nfield * string * Z)).

Fixpoint fields_text (l : fields) (r : string) : string :=
  match l with
  | [] => r
  | (f, sp, z) :: l' => sp +:+ (nf_text f z +:+ fields_text l' r)
  end.

Definition fields_dirs (l : list nfield) : list directive := l ≫= (fun f => [DWhite; nf_dir f]).

Definition fields_vals (l : fields) : list sval :=
  omap (fun p => if nf_skip p.1.1 then None else Some (VInt (nf_value p.1.1 p.2))) l.

Definition field_ok (p : nfield * string * Z) : Prop :=
  0 < nf_bits p.1.1 /\ nf_in p.1.1 p.2 /\ all_chars isspace p.1.2 = true /\ p.1.2 <> EmptyString.

Lemma fields_at_blank l r : Forall field_ok l -> at_blank r -> at_blank (fields_text l r).
Proof.
  intros Hl Hr. destruct Hl as [|[[f sp] z] l (_ & _ & Hs & Hne) _]; [done|]. cbn in *.
  destruct sp as [|c sp]; [done|]. simpl in *. by apply andb_true_iff in Hs as [-> _].
Qed.

Lemma skip_white_text sp f z r :
  all_chars isspace sp = true -> nf_in f z -> skip_white (sp +:+ (nf_text f z +:+ r)) = nf_text f z +:+ r.
Proof.
  intros Hsp Hz. unfold skip_white. rewrite take_while_app; [done | done |].
  unfold nf_text, nf_in in *. destruct (nf_skip f); [by destruct (print_signed_cons z) as (c & t & -> & Hc)|].
  cbn [orb]. destruct (nf_signed f).
  - by destruct (print_signed_cons z) as (c & t & -> & Hc).
  - destruct (print_unsigned_digits z) as (Hd & _ & Hne); [lia|].
    destruct (print_unsigned z) as [|c t]; [done|]. simpl in *. apply andb_true_iff in Hd as [Hc _].
    by apply digit_not_space.
Qed.

(** Every field is read, in order, and the scan goes on behind the last one. *)
Lemma scan_fields ds l : forall r vals,
  Forall field_ok l -> at_blank r ->
  scan (fields_dirs l.*1.*1 ++ ds) (fields_text l r) vals = scan ds r (vals ++ fields_vals l).
Proof.
  induction l as [|[[f sp] z] l IH]; intros r vals Hl Hr; [by rewrite app_nil_r|].
  pose proof Hl as [(Hb & Hz & Hs & Hne) Hl']%Forall_cons. cbn [fst snd] in *.
  change (fields_dirs ((f, sp, z) :: l).*1.*1 ++ ds) with (DWhite :: nf_dir f :: (fields_dirs l.*1.*1 ++ ds)).
  cbn [scan fields_text nf_dir]. rewrite skip_white_text by done.
  assert (not_digit_first (fields_text l r)) as Hnd by (by apply at_blank_digit, fields_at_blank).
  unfold nf_dir. destruct (nf_skip f) eqn:Esk.
  - unfold nf_text. rewrite Esk. cbn [orb].
    destruct (convert_any (nf_bits f) (if nf_signed f then Cd else Cu) z (fields_text l r)) as [v ->];
      [destruct (nf_signed f); auto | done |]. rewrite IH by done. cbn. by rewrite Esk.
  - rewrite convert_field by done. rewrite IH by done. cbn. rewrite Esk. by rewrite <- app_assoc.
Qed.

(** Literal characters are skipped where they stand. *)
Lemma scan_literal ds t : forall r vals,
  scan ((DLit <$> String.list_ascii_of_string t) ++ ds) (t +:+ r) vals = scan ds r vals.
Proof.
  induction t as [|c t IH]; intros r vals; [done|]. change (String c t +:+ r) with (String c (t +:+ r)).
  cbn [String.list_ascii_of_string fmap list_fmap app scan]. by rewrite decide_True.
Qed.

(** [fscanf(f, "%ld %*d", ...)] on the seconds and the fraction of /proc/uptime. *)
Lemma uptime_scan t rest :
  0 <= t < 2 ^ 63 -> sscanf (print_unsigned t +:+ String "." rest) "%ld %*d" = (1, [VInt t]).
Proof.
  intros Ht. unfold sscanf.
  change (parse_format (String.length "%ld %*d") "%ld %*d")
    with [DConv false None 64 Cd; DWhite; DConv true None 32 Cd].
  cbn [scan]. rewrite convert_signed by done. done.
Qed.
