(* ===== verification/ToolsExt.v ===== *)
(** src/src/libstatgrab/tools.c, continued: reading lines of kernel files, the
    fallback implementations of library functions, the Solaris device mapping and
    dropping privileges. *)

From S2P Require Import Prelude Types CLib Errors Tools Stdio.

(** * sg_f_read_line *)

(** The line found and the rest of the file; [None] at the end of the file,
    where feof() holds and no error is recorded. *)
Fixpoint read_line_loop (fuel size : nat) (prefix : string) (f : string)
    : option (string * string) :=
  match fuel with
  | O => None
  | S fuel' =>
      match fgets size f with
      | None => None
      | Some (l, r) =>
          if strncmp prefix l (String.length prefix) =? 0 then Some (l, r)
          else read_line_loop fuel' size prefix r
      end
  end.

Definition sg_f_read_line (f : string) (size : nat) (prefix : string)
    : option (string * string) :=
  read_line_loop (String.length f) size prefix f.

(** * atoll for systems without it *)

(** [value = (10 * value) + ( *s - '0')] in a [long long]. *)
Fixpoint atoll_loop (value : Z) (s : string) : Z :=
  match s with
  | String c s' =>
      if isdigit c then atoll_loop (s64 (s64 (10 * value) + digit_val c)) s' else value
  | EmptyString => value
  end.

Definition atoll (s : string) : Z :=
  match skip_white s with
  | String "-" s' => s64 (- atoll_loop 0 s')
  | s' => atoll_loop 0 s'
  end.

(** The C library's [atoll], which the other systems use: the value saturates. *)
Definition libc_atoll (s : string) : Z :=
  let '(neg, _, s') := take_sign (skip_white s) in
  to_signed neg (take_while isdigit None s').1.

(** [rm_so] and [rm_eo] of a [regmatch_t]. *)
Definition sg_get_ll_match (line : string) (rm_so : nat) : Z :=
  libc_atoll (String.substring rm_so (String.length line) line).

Definition sg_get_string_match (line : string) (rm_so rm_eo : nat) : M env char_ptr :=
  a ← alloc_request;
  match a with
  | AFail =>
      SET_ERROR_WITH_ERRNO SG_ERROR_MALLOC (Some "sg_get_string_match: couldn't strndup()");;
      mret CNull
  | _ => mret (CStr (String.substring rm_so (rm_eo - rm_so) line))
  end.

(** * flock on top of fcntl *)

Inductive lock_type := F_RDLCK | F_WRLCK | F_UNLCK.

(** The values tools.h gives the operations where the system has none. *)
Definition LOCK_SH : Z := 1.
Definition LOCK_EX : Z := 2.
Definition LOCK_UN : Z := 3.
Definition LOCK_NB : Z := 8.

(** The request passed to fcntl (whether it is F_SETLK, and the lock type), or
    [None] with errno EINVAL. *)
Definition flock (op : Z) : option (bool * lock_type) :=
  let try_lock := negb (Z.land op LOCK_NB =? 0) in
  let op := Z.land op (Z.lnot LOCK_NB) in
  if op =? LOCK_SH then Some (try_lock, F_RDLCK)
  else if op =? LOCK_EX then Some (try_lock, F_WRLCK)
  else if op =? LOCK_UN then Some (try_lock, F_UNLCK)
  else None.

(** * setmntent for systems without it *)

Definition setmntent {sys : System} (flock_ok : bool) (fn type : string)
    : M env (option string) :=
  f ← fopen fn;
  match f with
  | None =>
      SET_ERROR_WITH_ERRNO SG_ERROR_OPEN
        (Some ("setmntent: fopen(" +:+ fn +:+ ", " +:+ type +:+ ")"));;
      mret None
  | Some c =>
      if flock_ok then mret (Some c)
      else
        SET_ERROR_WITH_ERRNO SG_ERROR_OPEN (Some ("setmntent: flock(" +:+ fn +:+ ")"));;
        mret None
  end.

(** * Device names of Solaris *)

(** The list [mapping], in order: the fields [bsd] and [svr] of every node. *)
Definition mapping_t : Type := list (char_ptr * char_ptr).

Fixpoint sg_get_svr_from_bsd (mapping : mapping_t) (bsd : string) : M env char_ptr :=
  match mapping with
  | [] => mret (CStr bsd)
  | (b, s) :: m =>
      bt ← read_ptr b;
      if strcmp bt bsd =? 0 then mret s else sg_get_svr_from_bsd m bsd
  end.

(** The loop that looks for either name. *)
Fixpoint mapping_known (mapping : mapping_t) (bsd svr : string) : M env bool :=
  match mapping with
  | [] => mret false
  | (b, s) :: m =>
      bt ← read_ptr b;
      if strcmp bt bsd =? 0 then mret true else
      st ← read_ptr s;
      if strcmp st svr =? 0 then mret true else mapping_known m bsd svr
  end.

(** The node is linked before its strings are stored, so that a failing
    [sg_update_string] leaves a node with NULL names. *)
Definition add_mapping (junk : ascii) (mapping : mapping_t) (bsd svr : string)
    : M env mapping_t :=
  known ← mapping_known mapping bsd svr;
  if (known : bool) then mret mapping else
  a ← alloc_request;
  match a with
  | AFail =>
      SET_ERROR_WITH_ERRNO SG_ERROR_MALLOC
        (Some ("sg_realloc: couldn't realloc(to " +:+ pretty 24 +:+ " bytes)"));;
      mret mapping
  | _ =>
      r1 ← sg_update_string junk CNull (Some bsd);
      if decide (r1.1 <> SG_ERROR_NONE) then mret (mapping ++ [(r1.2, CNull)]) else
      r2 ← sg_update_string junk CNull (Some svr);
      mret (mapping ++ [(r1.2, r2.2)])
  end.

(** * Privileges *)

Record ids := mk_ids { id_uid : Z; id_euid : Z; id_gid : Z; id_egid : Z }.

(** [setegid_ok] and [seteuid_ok]: whether the system calls succeed; the state is
    the credentials of the process. *)
Definition sg_drop_privileges (setegid_ok seteuid_ok : bool) (i : ids)
    : M env (sg_error * ids) :=
  if negb setegid_ok then
    rc ← RETURN_WITH_SET_ERROR_WITH_ERRNO SG_ERROR_SETEGID None; mret (rc, i)
  else
    let i := mk_ids (id_uid i) (id_euid i) (id_gid i) (id_gid i) in
    if negb seteuid_ok then
      rc ← RETURN_WITH_SET_ERROR_WITH_ERRNO SG_ERROR_SETEUID None; mret (rc, i)
    else mret (SG_ERROR_NONE, mk_ids (id_uid i) (id_uid i) (id_gid i) (id_egid i)).

(** * Facts *)

(** Without a line of the prefix [sg_f_read_line] reads to the end of the file. *)
Lemma f_read_line_none size prefix f :
  (forall l, l ∈ file_lines size f -> String.prefix prefix l = false) ->
  sg_f_read_line f size prefix = None.
Proof.
  unfold sg_f_read_line, file_lines. generalize (String.length f). intros n.
  revert f. induction n as [|n IH]; intros f Hl; [done|].
  cbn [read_line_loop lines_fuel] in *. destruct (fgets size f) as [[l r]|]; [|done].
  pose proof (Hl l ltac:(left)) as Hp. pose proof (strncmp_prefix prefix l) as Hz.
  destruct (Z.eqb_spec (strncmp prefix l (String.length prefix)) 0) as [E|E].
  - apply Hz in E. congruence.
  - apply IH. intros x Hx. apply Hl. by right.
Qed.

(** The names of a mapping whose nodes are complete. *)
Definition mapping_of (l : list (string * string)) : mapping_t :=
  (fun p => (CStr p.1, CStr p.2)) <$> l.

Definition known_pair (l : list (string * string)) (bsd svr : string) : Prop :=
  exists p, p ∈ l /\ (p.1 = bsd \/ p.2 = svr).

(** The name a complete mapping gives to a device. *)
Fixpoint svr_of (l : list (string * string)) (bsd : string) : string :=
  match l with
  | [] => bsd
  | p :: l' => if decide (p.1 = bsd) then p.2 else svr_of l' bsd
  end.

Lemma wp_get_svr l bsd (Q : char_ptr -> env -> Prop) e :
  Q (CStr (svr_of l bsd)) e -> wp (sg_get_svr_from_bsd (mapping_of l) bsd) Q e.
Proof.
  induction l as [|[b s] l IH]; intros HQ; simpl in *; [done|].
  apply wp_bind, wp_ret. destruct (decide (b = bsd)) as [->|Hne].
  - rewrite strcmp_refl. done.
  - destruct (Z.eqb_spec (strcmp b bsd) 0) as [E|E]; [by apply strcmp_eq in E|]. auto.
Qed.

Lemma wp_mapping_known l bsd svr (Q : bool -> env -> Prop) e :
  (known_pair l bsd svr -> Q true e) -> (~ known_pair l bsd svr -> Q false e) ->
  wp (mapping_known (mapping_of l) bsd svr) Q e.
Proof.
  induction l as [|[b s] l IH]; intros HT HF; simpl.
  { apply wp_ret, HF. intros (p & Hp & _). set_solver. }
  apply wp_bind, wp_ret. destruct (Z.eqb_spec (strcmp b bsd) 0) as [E%strcmp_eq|E].
  { apply wp_ret, HT. exists (b, s). split; [set_solver | by left]. }
  apply wp_bind, wp_ret. destruct (Z.eqb_spec (strcmp s svr) 0) as [E'%strcmp_eq|E'].
  { apply wp_ret, HT. exists (b, s). split; [set_solver | by right]. }
  apply IH.
  - intros (p & Hp & Hor). apply HT. exists p. split; [set_solver | done].
  - intros Hn. apply HF. intros (p & Hp & Hor). apply elem_of_cons in Hp as [->|Hp].
    + simpl in Hor. rewrite strcmp_eq in E, E'. tauto.
    + apply Hn. by exists p.
Qed.

Lemma svr_of_app_new l bsd svr :
  ~ known_pair l bsd svr -> svr_of (l ++ [(bsd, svr)]) bsd = svr.
Proof.
  intros Hn. induction l as [|[b s] l IH]; simpl.
  - by rewrite decide_True.
  - rewrite decide_False.
    + apply IH. intros (p & Hp & Hor). apply Hn. exists p. split; [set_solver | done].
    + intros ->. apply Hn. exists (bsd, s). split; [set_solver | by left].
Qed.

Lemma svr_of_app_other l bsd svr x :
  x <> bsd -> svr_of (l ++ [(bsd, svr)]) x = svr_of l x.
Proof.
  intros Hne. induction l as [|[b s] l IH]; simpl; [by rewrite decide_False by congruence|].
  by rewrite IH.
Qed.

(** With a working allocator a new pair is appended. *)
Lemma wp_add_mapping junk l bsd svr (Q : mapping_t -> env -> Prop) e :
  no_nul bsd = true -> no_nul svr = true -> (AFail ∉ e_allocs e) ->
  (forall e', calmer e e' -> known_pair l bsd svr -> Q (mapping_of l) e') ->
  (forall e', calmer e e' -> ~ known_pair l bsd svr -> Q (mapping_of (l ++ [(bsd, svr)])) e') ->
  wp (add_mapping junk (mapping_of l) bsd svr) Q e.
Proof.
  intros Hb Hs Ha HT HF. apply wp_bind, wp_mapping_known; intros Hk; [by apply wp_ret, HT|].
  apply wp_bind, wp_alloc_request; [done|]. intros c e1 Hc He1.
  assert (forall x, x = c -> wp (r1 ← sg_update_string junk CNull (Some bsd);
      if decide (r1.1 <> SG_ERROR_NONE) then mret (mapping_of l ++ [(r1.2, CNull)]) else
      r2 ← sg_update_string junk CNull (Some svr);
      mret (mapping_of l ++ [(r1.2, r2.2)])) Q e1) as Hgo.
  { intros x _. apply wp_bind, wp_sg_update_string; [done | done | | intros Hf; by apply He1 in Hf].
    intros e2 He2. cbn [fst snd]. rewrite decide_False by auto.
    apply wp_bind, wp_sg_update_string;
      [done | done | | intros Hf; by apply He2, He1 in Hf].
    intros e3 He3. apply wp_ret. cbn [fst snd as_ptr]. specialize (HF e3 (transitivity He1 (transitivity He2 He3)) Hk).
    unfold mapping_of in *. rewrite fmap_app in HF. exact HF. }
  destruct c; [done | |]; by eapply Hgo.
Qed.
