(* ===== verification/Fill.v ===== *)
(** The loop by which the gathering functions of the library build a list: for
    every entry the system reports, VECTOR_UPDATE makes room for one more item
    and the item is filled. *)

From S2P Require Import Prelude Types CLib Errors Tools Vector VectorSpec VectorDiff Items Comp.

(** An allocation fails in none of the environments that follow one where none does. *)
Ltac calm := intros ?; exfalso; unfold calmer in *; by auto 12.

Section fill.
Context {mem : Memory} (k : kind).

(** [VECTOR_UPDATE(ptr, n + 1, data, ...)] and the statements that fill
    [data[n]]. *)
Definition append_item (v : vptr) (n : nat) (fill : item -> M env (sg_error * item))
    : M world (sg_error * vptr) :=
  u ← VECTOR_UPDATE v (Z.of_nat n + 1) true (VECTOR_INIT_INFO k);
  match u with
  | (p, Some rc) => mret (rc, p)
  | (None, None) => stuck null_deref
  | (Some l, None) =>
      it ← read_item l n;
      r ← in_env (fill it);
      write_item l n r.2;;
      mret (r.1, Some l)
  end.

Fixpoint append_loop {A} (fill : A -> item -> M env (sg_error * item)) (entries : list A)
    (n : nat) (v : vptr) : M world (sg_error * vptr) :=
  match entries with
  | [] => mret (SG_ERROR_NONE, v)
  | e :: entries' =>
      r ← append_item v n (fill e);
      if decide (r.1 <> SG_ERROR_NONE) then mret r
      else append_loop fill entries' (S n) r.2
  end.

(** The other way of the sources: [VECTOR_UPDATE(ptr, count, data, ...)] once, then
    the entries are filled into [data[n]], [data[n + 1]], ... *)
Fixpoint fill_slots {A} (fill : A -> item -> M env (sg_error * item)) (entries : list A)
    (n : nat) (l : positive) : M world (sg_error * vptr) :=
  match entries with
  | [] => mret (SG_ERROR_NONE, Some l)
  | e :: entries' =>
      it ← read_item l n;
      r ← in_env (fill e it);
      write_item l n r.2;;
      if decide (r.1 <> SG_ERROR_NONE) then mret (r.1, Some l)
      else fill_slots fill entries' (S n) l
  end.

(** [bang] is what the macro tests for [count], see [VECTOR_UPDATE]. *)
Definition sized_fill {A} (count : nat) (bang : bool) (fill : A -> item -> M env (sg_error * item))
    (entries : list A) (v : vptr) : M world (sg_error * vptr) :=
  u ← VECTOR_UPDATE v (Z.of_nat count) bang (VECTOR_INIT_INFO k);
  match u, entries with
  | (p, Some rc), _ => mret (rc, p)
  | (None, None), [] => mret (SG_ERROR_NONE, None)
  | (None, None), _ => stuck null_deref
  | (Some l, None), _ => fill_slots fill entries 0 l
  end.

(** * Facts *)

Context (Hk : item_managed k = true).

(** [fill] turns any live item into a live one with [R] and leaves an environment
    with [P]. *)
Definition fills_item_then (P : env -> Prop) (R : item -> Prop)
    (fill : item -> M env (sg_error * item)) : Prop :=
  forall it (Q : sg_error * item -> env -> Prop) e,
    item_live k it = true -> (AFail ∉ e_allocs e) ->
    (forall x e', item_live k x = true -> R x -> calmer e e' -> P e' -> Q (SG_ERROR_NONE, x) e') ->
    wp (fill it) Q e.

(** [fill] turns any live item into [x]. *)
Definition fills_item (fill : item -> M env (sg_error * item)) (x : item) : Prop :=
  item_live k x = true /\
  forall it (Q : sg_error * item -> env -> Prop) e,
    item_live k it = true -> (AFail ∉ e_allocs e) ->
    (forall e', calmer e e' -> Q (SG_ERROR_NONE, x) e') -> wp (fill it) Q e.

Lemma fills_item_any fill x : fills_item fill x -> fills_item_then (fun _ => True) (eq x) fill.
Proof. intros [Hx Hf] it Q e Hit Hna HQ. apply Hf; auto. Qed.

Lemma destroy_info : destroy_fn (VECTOR_INIT_INFO k) = Some k.
Proof. by destruct k. Qed.

(** VECTOR_UPDATE of an existing vector, where no allocation fails. *)
Lemma wp_update_vector count bang l v l0 w0 (Q : vptr * option sg_error -> world -> Prop) w :
  wf_heap w0 -> replaced l0 l v w0 w -> wf_vec v -> info v = VECTOR_INIT_INFO k ->
  1 <= count <= 2 ^ 31 -> (AFail ∉ e_allocs (w_env w)) ->
  (forall l' v' w', resized v v' count -> calmer (w_env w) (w_env w') -> replaced l0 l' v' w0 w' ->
     Q (Some l', None) w') ->
  wp (VECTOR_UPDATE (Some l) count bang (VECTOR_INIT_INFO k)) Q w.
Proof.
  intros Hh0 Hrep Hwf Hi Hn Hna HQ.
  assert (w_vecs w !! l = Some v) as Hl.
  { destruct Hrep as (_ & _ & E & _). rewrite E. apply lookup_insert_eq. }
  apply wp_bind. cbn [VECTOR_CREATE_OR_RESIZE]. eapply wp_resize; [done | done | lia | | done |].
  { rewrite Hi. apply size_ok_small; [lia|]. apply Hwf. }
  intros l' v1 w1 Hr Hm.
  assert (w_vecs w1 !! l' = Some v1) as Hl' by (by eapply moved_lookup).
  apply wp_bind. apply wp_bind. eapply wp_read_vec; [done|]. apply wp_ret.
  apply wp_bind, wp_assert; [by rewrite (rs_used _ _ _ Hr), Z.eqb_refl|]. apply wp_ret.
  apply (HQ l' v1); [done | apply Hm | by eapply replaced_moved].
Qed.

Lemma replaced_lookup l0 l v w0 w : replaced l0 l v w0 w -> w_vecs w !! l = Some v.
Proof. intros (_ & _ & E & _). rewrite E. apply lookup_insert_eq. Qed.

Lemma wp_append_item P R fill l v n l0 w0 (Q : sg_error * vptr -> world -> Prop) w :
  wf_heap w0 -> replaced l0 l v w0 w -> wf_vec v -> info v = VECTOR_INIT_INFO k ->
  used_count v = Z.of_nat n -> Z.of_nat n < 2 ^ 31 -> (AFail ∉ e_allocs (w_env w)) ->
  fills_item_then P R fill ->
  (forall l' v' w' x, wf_vec v' -> info v' = VECTOR_INIT_INFO k ->
     used_count v' = Z.of_nat (S n) -> R x -> contents v' = contents v ++ [x] ->
     replaced l0 l' v' w0 w' -> (AFail ∉ e_allocs (w_env w')) -> P (w_env w') ->
     Q (SG_ERROR_NONE, Some l') w') ->
  wp (append_item (Some l) n fill) Q w.
Proof.
  intros Hh0 Hrep Hwf Hi Hu Hn Hna Hfill HQ.
  apply wp_bind. eapply wp_update_vector; [done.. | lia | done |].
  intros l' v1 w1 [Hw1 Hu1 Hi1 _ Hkeep _] Hc1 Hr1.
  assert (w_vecs w1 !! l' = Some v1) as Hl' by (by eapply replaced_lookup).
  pose proof (wf_used _ Hw1) as Hb1. rewrite Hu1 in Hb1.
  destruct (lookup_lt_is_Some_2 (data v1) n) as [it Hit]; [lia|].
  apply wp_bind. eapply wp_read_item; [done..|].
  apply wp_bind, wp_in_env, Hfill.
  { change (item_ok k it = true).
    eapply (wf_slot_ok v1 k n it); [done | rewrite Hi1, Hi; apply destroy_info | lia | done]. }
  { intros Ha. by apply Hna, Hc1. }
  intros x e Hx HR He HP. cbn [fst snd]. apply wp_bind. eapply wp_write_item; [done | lia |]. apply wp_ret.
  rewrite Hu in Hkeep. replace (Z.min (Z.of_nat n) (Z.of_nat n + 1)) with (Z.of_nat n) in Hkeep by lia.
  rewrite Nat2Z.id in Hkeep.
  eapply (HQ l' (set_data (<[n := x]> (data v1)) v1)).
  - eapply wf_write; [done | rewrite Hi1, Hi; apply destroy_info | done].
  - simpl. congruence.
  - simpl. lia.
  - exact HR.
  - unfold contents. cbn [used_count data set_data]. rewrite Hu1, Hu.
    replace (Z.to_nat (Z.of_nat n + 1)) with (S n) by lia. rewrite Nat2Z.id.
    rewrite (take_S_r _ _ x) by (apply list_lookup_insert_eq; lia).
    by rewrite take_insert_ge, Hkeep.
  - by apply (replaced_write l0 l' v1), replaced_env.
  - simpl. intros Ha. by apply Hna, Hc1, He.
  - done.
Qed.

Lemma wp_append_loop_then {A} P (R : A -> item -> Prop) (fill : A -> item -> M env (sg_error * item)) entries :
  (forall e, e ∈ entries -> fills_item_then P (R e) (fill e)) ->
  forall l v n l0 w0 (Q : sg_error * vptr -> world -> Prop) w,
  wf_heap w0 -> replaced l0 l v w0 w -> wf_vec v -> info v = VECTOR_INIT_INFO k ->
  used_count v = Z.of_nat n -> Z.of_nat (n + length entries) <= 2 ^ 31 ->
  (AFail ∉ e_allocs (w_env w)) -> P (w_env w) ->
  (forall l' v' w' xs, wf_vec v' -> info v' = VECTOR_INIT_INFO k ->
     Forall2 R entries xs -> contents v' = contents v ++ xs -> replaced l0 l' v' w0 w' -> P (w_env w') ->
     Q (SG_ERROR_NONE, Some l') w') ->
  wp (append_loop fill entries n (Some l)) Q w.
Proof.
  induction entries as [|e entries IH];
    intros Hf l v n l0 w0 Q w Hh Hrep Hwf Hi Hu Hn Hna HP HQ; cbn [append_loop].
  { apply wp_ret. eapply (HQ _ _ _ []); try done. by rewrite app_nil_r. }
  cbn [length] in Hn. apply wp_bind.
  eapply (wp_append_item P (R e) (fill e)); try done; [lia | apply Hf; set_solver |].
  intros l1 v1 w1 x Hw1 Hi1 Hu1 Hx Hc1 Hr1 Hna1 HP1. cbn [fst snd]. rewrite decide_False by auto.
  eapply IH; try done; [set_solver | lia |].
  intros l2 v2 w2 xs Hw2 Hi2 Hxs Hc2 Hr2 HP2. eapply (HQ _ _ _ (x :: xs)); try done.
  - by constructor.
  - rewrite Hc2, Hc1, <- app_assoc. done.
Qed.

Lemma wp_append_loop {A} (fill : A -> item -> M env (sg_error * item)) (f : A -> item) entries :
  (forall e, e ∈ entries -> fills_item (fill e) (f e)) ->
  forall l v n l0 w0 (Q : sg_error * vptr -> world -> Prop) w,
  wf_heap w0 -> replaced l0 l v w0 w -> wf_vec v -> info v = VECTOR_INIT_INFO k ->
  used_count v = Z.of_nat n -> Z.of_nat (n + length entries) <= 2 ^ 31 ->
  (AFail ∉ e_allocs (w_env w)) ->
  (forall l' v' w', wf_vec v' -> info v' = VECTOR_INIT_INFO k ->
     contents v' = contents v ++ (f <$> entries) -> replaced l0 l' v' w0 w' ->
     Q (SG_ERROR_NONE, Some l') w') ->
  wp (append_loop fill entries n (Some l)) Q w.
Proof.
  intros Hf l v n l0 w0 Q w Hh Hr Hwf Hi Hu Hn Hna HQ.
  eapply (wp_append_loop_then (fun _ => True) (fun e => eq (f e)) fill); try done.
  - intros e He. by apply fills_item_any, Hf.
  - intros l' v' w' xs ? ? Hxs ? ? _. apply (HQ l' v'); [done | done | | done].
    replace (f <$> entries) with xs; [done|]. clear -Hxs.
    induction Hxs; [done|]. cbn. congruence.
Qed.

(** A new vector [v] at [l]; everything else as before. *)
Definition created (l : positive) (v : sg_vector) (w w' : world) : Prop :=
  (w_next w <= l)%positive /\ calmer (w_env w) (w_env w') /\
  w_vecs w' = <[l := v]> (w_vecs w) /\ wf_heap w' /\ (w_next w <= w_next w')%positive.

Lemma created_replaced l v v0 e w w' :
  wf_heap w -> calmer (w_env w) e -> replaced (w_next w) l v (new_vec v0 e w) w' -> created l v w w'.
Proof.
  intros Hh He (Hl & Hc & E & Hh' & Hn). cbn in *. split_and!; [lia | by trans e | | done | lia].
  rewrite E, delete_insert_id; [done|]. apply Hh. lia.
Qed.

(** The loop that starts without a vector. *)
Lemma wp_append_new {A} P (R : A -> item -> Prop) (fill : A -> item -> M env (sg_error * item)) entries
    (Q : sg_error * vptr -> world -> Prop) w :
  entries <> [] -> (forall e, e ∈ entries -> fills_item_then P (R e) (fill e)) ->
  wf_heap w -> Z.of_nat (length entries) <= 2 ^ 31 -> (AFail ∉ e_allocs (w_env w)) ->
  (forall l v w' xs, wf_vec v -> info v = VECTOR_INIT_INFO k -> Forall2 R entries xs -> contents v = xs ->
     created l v w w' -> P (w_env w') -> Q (SG_ERROR_NONE, Some l) w') ->
  wp (append_loop fill entries 0 None) Q w.
Proof.
  destruct entries as [|x entries]; [done|]. intros _ Hf Hh Hlen Hna HQ.
  cbn [append_loop length] in *. apply wp_bind, wp_bind, wp_bind.
  change (Z.of_nat 0 + 1) with 1. cbn [VECTOR_CREATE_OR_RESIZE].
  apply wp_vector_create; [lia | lia | done |]. intros v e He Hv Hu Hi.
  set (w1 := new_vec v e w).
  assert (w_vecs w1 !! w_next w = Some v) as Hl by apply lookup_insert_eq.
  assert (wf_heap w1) as Hh1 by (by apply wf_heap_new).
  apply wp_bind. apply wp_bind. eapply wp_read_vec; [exact Hl|]. apply wp_ret.
  apply wp_bind, wp_assert; [by rewrite Hu|]. apply wp_ret.
  pose proof (wf_used _ Hv) as Hb. rewrite Hu in Hb.
  destruct (lookup_lt_is_Some_2 (data v) 0) as [it Hit]; [lia|].
  apply wp_bind. eapply wp_read_item; [exact Hl | exact Hit |].
  apply wp_bind, wp_in_env, Hf; [set_solver | | |].
  { change (item_ok k it = true).
    eapply (wf_slot_ok v k 0 it); [done | rewrite Hi; apply destroy_info | lia | done]. }
  { intros Ha. by apply Hna, He. }
  intros y e' Hy HR He' HP. cbn [fst snd]. apply wp_bind. eapply wp_write_item; [exact Hl | lia |].
  apply wp_ret. cbn [fst snd]. rewrite decide_False by auto.
  set (v1 := set_data (<[0%nat := y]> (data v)) v).
  assert (contents v1 = [y]) as Hc1.
  { unfold contents. cbn [used_count data v1 set_data]. rewrite Hu.
    change (Z.to_nat 1) with 1%nat. rewrite (take_S_r _ _ y) by (apply list_lookup_insert_eq; lia).
    by rewrite take_0. }
  eapply (wp_append_loop_then P R fill entries ltac:(set_solver) (w_next w) v1 1 (w_next w) w1).
  - done.
  - apply (replaced_write _ _ v), replaced_env; [by apply replaced_refl | done].
  - eapply wf_write; [done | rewrite Hi; apply destroy_info | done].
  - done.
  - done.
  - lia.
  - cbn. intros Ha. by apply Hna, He, He'.
  - done.
  - intros l' v' w' xs Hw' Hi' Hxs Hc' Hr HP'. apply (HQ l' v' w' (y :: xs)); [done | done | | | | done].
    + by constructor.
    + by rewrite Hc', Hc1.
    + by eapply created_replaced.
Qed.

Lemma wp_fill_slots {A} (fill : A -> item -> M env (sg_error * item)) (f : A -> item) entries :
  (forall e, e ∈ entries -> fills_item (fill e) (f e)) ->
  forall l v n l0 w0 (Q : sg_error * vptr -> world -> Prop) w,
  replaced l0 l v w0 w -> wf_vec v -> info v = VECTOR_INIT_INFO k ->
  (n + length entries <= Z.to_nat (used_count v))%nat -> (AFail ∉ e_allocs (w_env w)) ->
  (forall v' w', wf_vec v' -> info v' = VECTOR_INIT_INFO k -> used_count v' = used_count v ->
     contents v' = take n (contents v) ++ (f <$> entries) ++ drop (n + length entries) (contents v) ->
     replaced l0 l v' w0 w' -> Q (SG_ERROR_NONE, Some l) w') ->
  wp (fill_slots fill entries n l) Q w.
Proof.
  induction entries as [|e entries IH];
    intros Hf l v n l0 w0 Q w Hrep Hwf Hi Hn Hna HQ; cbn [fill_slots].
  { apply wp_ret. eapply HQ; try done. simpl. by rewrite Nat.add_0_r, take_drop. }
  cbn [length] in Hn.
  assert (w_vecs w !! l = Some v) as Hl.
  { destruct Hrep as (_ & _ & E & _). rewrite E. apply lookup_insert_eq. }
  pose proof (wf_used _ Hwf) as Hb.
  destruct (lookup_lt_is_Some_2 (data v) n) as [it Hit]; [lia|].
  apply wp_bind. eapply wp_read_item; [done..|].
  destruct (Hf e ltac:(set_solver)) as [Hx Hfill]. apply wp_bind, wp_in_env, Hfill; [|done|].
  { change (item_ok k it = true).
    eapply (wf_slot_ok v k n it); [done | rewrite Hi; apply destroy_info | lia | done]. }
  intros e' He. cbn [fst snd]. apply wp_bind. eapply wp_write_item; [done | lia |].
  rewrite decide_False by auto.
  eapply (IH ltac:(set_solver) l (set_data (<[n := f e]> (data v)) v) (S n) l0 w0).
  - apply (replaced_write l0 l v), replaced_env; done.
  - eapply wf_write; [done | rewrite Hi; apply destroy_info | done].
  - done.
  - simpl. lia.
  - simpl. intros Ha. by apply Hna, He.
  - intros v' w' Hw' Hi' Hu' Hc' Hr'. eapply HQ; try done. rewrite Hc'.
    unfold contents. cbn [used_count data set_data length fmap list_fmap].
    rewrite !take_take, !Nat.min_l by lia.
    rewrite (take_S_r _ n (f e)) by (apply list_lookup_insert_eq; lia).
    rewrite take_insert_ge by lia. rewrite <- app_assoc. cbn [app]. do 3 f_equal.
    rewrite Nat.add_succ_r. change (S n + length entries)%nat with (S (n + length entries)).
    rewrite !skipn_firstn_comm. f_equal. by rewrite drop_insert_lt by lia.
Qed.

(** A vector made for [count] items of which the entries fill the first. *)
Lemma wp_sized_fill {A} (fill : A -> item -> M env (sg_error * item)) (f : A -> item) entries
    count bang l v (Q : sg_error * vptr -> world -> Prop) w :
  (forall e, e ∈ entries -> fills_item (fill e) (f e)) ->
  wf_heap w -> w_vecs w !! l = Some v -> wf_vec v -> info v = VECTOR_INIT_INFO k ->
  (length entries <= count)%nat -> 1 <= Z.of_nat count <= 2 ^ 31 -> (AFail ∉ e_allocs (w_env w)) ->
  (forall l' v' w' rest, wf_vec v' -> info v' = VECTOR_INIT_INFO k ->
     contents v' = (f <$> entries) ++ rest -> (length entries + length rest = count)%nat ->
     Forall (fun it => item_live k it = true) rest ->
     replaced l l' v' w w' -> Q (SG_ERROR_NONE, Some l') w') ->
  wp (sized_fill count bang fill entries (Some l)) Q w.
Proof.
  intros Hf Hh Hl Hwf Hi Hlen Hc Hna HQ. apply wp_bind.
  eapply wp_update_vector; [done | by apply replaced_refl | done | done | lia | done |].
  intros l' v1 w1 [Hw1 Hu1 Hi1 _ _ _] Hc1 Hr.
  eapply (wp_fill_slots fill f entries Hf l' v1 0 l w); [done | done | congruence | lia | |].
  { intros Ha. by apply Hna, Hr. }
  intros v' w' Hw' Hi' Hu' Hc' Hr'. cbn [take app Nat.add] in Hc'.
  pose proof (length_contents v1 Hw1) as Hn1.
  eapply HQ; [done | done | exact Hc' | | | done].
  - rewrite length_drop. lia.
  - apply Forall_drop. change (Forall (fun it => item_ok k it = true) (contents v1)).
    apply Forall_lookup. intros i it Hit. unfold contents in Hit. apply lookup_take_Some in Hit as [Hit Hlt].
    pose proof (wf_used _ Hw1).
    eapply (wf_slot_ok v1 k i it); [done | rewrite Hi1, Hi; apply destroy_info | lia | done].
Qed.
End fill.

(** The pstat calls of HP-UX deliver the entries from an index on in batches, however many they choose to
    deliver; the next call begins behind the index of the last one. *)
Inductive batches {A} (idx : A -> Z) (get : Z -> list A + Z) : Z -> list A -> Prop :=
  | batches_end i : get i = inl [] -> batches idx get i []
  | batches_more i batch final rest :
      get i = inl batch -> last batch = Some final -> batches idx get (idx final + 1) rest ->
      batches idx get i (batch ++ rest).

(** The documented behaviour: the next entries from the index on, at least one of them if there is one. *)
Definition lists_table {A} (idx : A -> Z) (get : Z -> list A + Z) (table : list A) : Prop :=
  forall i, exists k, (0 < k)%nat /\ get i = inl (take k (from_index idx i table)).

(** A table in the order of its indices is delivered in finitely many batches. *)
Lemma batches_from {A} (idx : A -> Z) (get : Z -> list A + Z) table :
  StronglySorted (fun a b => idx a < idx b) table -> lists_table idx get table ->
  forall n i, (length (from_index idx i table) <= n)%nat -> batches idx get i (from_index idx i table).
Proof.
  intros Hs Hg. induction n as [|n IH]; intros i Hn; destruct (Hg i) as (k & Hk & Ek); set (rest := from_index idx i table) in *.
  { destruct rest; [|cbn in Hn; lia]. rewrite take_nil in Ek. by constructor. }
  destruct (last (take k rest)) as [x|] eqn:El.
  - assert (x ∈ rest) as Hx.
    { rewrite <- (take_drop k rest). apply elem_of_app. left. by apply last_Some_elem_of. }
    apply list_elem_of_filter in Hx as [Hx _].
    pose proof (from_index_after idx rest k x ltac:(by apply StronglySorted_filter) El) as E.
    unfold rest in E. rewrite from_index_later in E by lia. fold rest in E.
    rewrite <- (take_drop k rest), <- E. eapply batches_more; [exact Ek|done|].
    apply IH. rewrite E, length_drop. destruct rest; [by rewrite take_nil in El|]. cbn [length] in *. lia.
  - apply last_None in El. assert (rest = []) as -> by (destruct k; [lia|]; by destruct rest).
    rewrite take_nil in Ek. by constructor.
Qed.

Lemma batches_of_table {A} (idx : A -> Z) (get : Z -> list A + Z) table :
  StronglySorted (fun a b => idx a < idx b) table -> Forall (fun a => 0 <= idx a) table -> lists_table idx get table ->
  batches idx get 0 table.
Proof.
  intros Hs H0 Hg. pose proof (batches_from idx get table Hs Hg _ 0 (le_n _)) as H.
  unfold from_index in H. by rewrite filter_every in H.
Qed.
