(* ===== verification/Single.v ===== *)
(** The components whose result is one structure: load_stats.c, memory_stats.c,
    swap_stats.c and page_stats.c. The gathering functions are modelled for Linux
    from the contents of /proc, and for the other systems from the structure the
    system call delivers. *)

From S2P Require Import Prelude Types CLib Errors Tools Vector VectorSpec VectorDiff Items Comp Stdio ToolsExt.

Local Open Scope sg_scope.

(** * IEEE double arithmetic *)

Definition double_of (z : Z) : double := binary_normalize 53 1024 z 0 false.
Definition double_div (x y : double) : double := SFdiv 53 1024 x y.
Definition double_mul (x y : double) : double := SFmul 53 1024 x y.
Definition double_add (x y : double) : double := SFadd 53 1024 x y.
Definition double_sub (x y : double) : double := SFsub 53 1024 x y.

(** C's [float] is IEEE binary32; an operand of a [double] operation is
    converted first. *)
Definition float_of (z : Z) : spec_float := binary_normalize 24 128 z 0 false.
Definition refit (prec emax : Z) (d : spec_float) : spec_float :=
  match d with
  | S754_finite s m e => binary_normalize prec emax (if s then Zneg m else Zpos m) e s
  | _ => d
  end.
Definition to_float : double -> spec_float := refit 24 128.
Definition to_double : spec_float -> double := refit 53 1024.
Definition float_sub (x y : spec_float) : spec_float := SFsub 24 128 x y.

Section single.
Context {mem : Memory} {sys : System}.

Definition as_load (it : item) := match it with ILoad s => s | _ => raw_load end.
Definition as_mem (it : item) := match it with IMem s => s | _ => raw_mem end.
Definition as_swap (it : item) := match it with ISwap s => s | _ => raw_swap end.
Definition as_page (it : item) := match it with IPage s => s | _ => raw_page end.

(** The result of a system call: its value, or a failure that sets errno. *)
Definition syscall {A} (r : A + Z) : M env (option A) :=
  match r with
  | inl a => mret (Some a)
  | inr err => modify (set_errno err);; mret None
  end.

(** A call whose failure is reported with errno, leaving [b]. *)
Definition sys_call {A B} (r : A + Z) (code : sg_error) (arg : option string) (b : B)
    (next : A -> M env (sg_error * B)) : M env (sg_error * B) :=
  a ← syscall r;
  match a with
  | Some a => next a
  | None => rc ← RETURN_WITH_SET_ERROR_WITH_ERRNO code arg; mret (rc, b)
  end.

(** An error that is no failed system call. *)
Definition failed {B} (code : sg_error) (arg : option string) (b : B) : M env (sg_error * B) :=
  rc ← RETURN_WITH_SET_ERROR code arg; mret (rc, b).

(** ** load_stats.c *)

(** [getloadavg(loadav, 3)]: the return value is not looked at, so the three
    numbers are whatever the array holds. *)
Definition sg_get_load_stats_int (loadav : double * double * double) (b : sg_load_stats)
    : M env (sg_error * sg_load_stats) :=
  let '(l1, l5, l15) := loadav in
  mret (SG_ERROR_NONE, mk_load_stats l1 l5 l15 sys_time).

(** AIX: fixed-point numbers scaled by [1 << SBITS]. *)
Definition load_stats_aix (SBITS : Z) (loadavg : (Z * Z * Z) + Z) (b : sg_load_stats)
    : M env (sg_error * sg_load_stats) :=
  let zero := mk_load_stats (double_of 0) (double_of 0) (double_of 0) (load_systime b) in
  r ← syscall loadavg;
  match r with
  | None =>
      rc ← RETURN_WITH_SET_ERROR_WITH_ERRNO SG_ERROR_PSTAT (Some "perfstat_cpu_total");
      mret (rc, zero)
  | Some (a, b5, c) =>
      let scale x := double_div (double_of x) (double_of (Z.shiftl 1 SBITS)) in
      mret (SG_ERROR_NONE, mk_load_stats (scale a) (scale b5) (scale c) sys_time)
  end.

(** ** memory_stats.c *)

(** The loop over /proc/meminfo. *)
Fixpoint linux_mem_loop (ls : list string) (b : sg_mem_stats) : sg_mem_stats :=
  match ls with
  | [] => b
  | line :: ls' =>
      let '(n, vals) := sscanf line "%*s %lld kB" in
      if negb (n =? 1) then linux_mem_loop ls' b
      else
        let value := u64 (arg_int 0 vals 0) in
        let b' :=
          if strncmp line "MemTotal:" 9 =? 0 then
            mk_mem_stats value (mem_free b) (mem_used b) (mem_cache b) (mem_systime b)
          else if strncmp line "MemFree:" 8 =? 0 then
            mk_mem_stats (mem_total b) value (mem_used b) (mem_cache b) (mem_systime b)
          else if strncmp line "Cached:" 7 =? 0 then
            mk_mem_stats (mem_total b) (mem_free b) (mem_used b) value (mem_systime b)
          else b in
        linux_mem_loop ls' b'
  end.

Definition sg_get_mem_stats_int (b : sg_mem_stats) : M env (sg_error * sg_mem_stats) :=
  f ← fopen "/proc/meminfo";
  match f with
  | None =>
      rc ← RETURN_WITH_SET_ERROR_WITH_ERRNO SG_ERROR_OPEN (Some "/proc/meminfo");
      mret (rc, b)
  | Some c =>
      let b := linux_mem_loop (file_lines 256 c) b in
      let free := mem_free b +u mem_cache b in
      let total := mem_total b *u 1024 in
      let free := free *u 1024 in
      let cache := mem_cache b *u 1024 in
      mret (SG_ERROR_NONE, mk_mem_stats total free (total -u free) cache sys_time)
  end.

(** The branches of the other systems; each argument is a field of the structure
    the system call fills. *)
Definition mem_stats_hpux (dynamic : Z + Z) (static : (Z * Z) + Z) (b : sg_mem_stats)
    : M env (sg_error * sg_mem_stats) :=
  d ← syscall dynamic;
  match d with
  | None => rc ← RETURN_WITH_SET_ERROR_WITH_ERRNO SG_ERROR_PSTAT (Some "pstat_dynamic"); mret (rc, b)
  | Some psd_free =>
      s ← syscall static;
      match s with
      | None => rc ← RETURN_WITH_SET_ERROR_WITH_ERRNO SG_ERROR_PSTAT (Some "pstat_static"); mret (rc, b)
      | Some (physical_memory, page_size) =>
          let total := physical_memory *u page_size in
          let free := psd_free *u page_size in
          mret (SG_ERROR_NONE, mk_mem_stats total free (total -u free) (mem_cache b) sys_time)
      end
  end.

Definition mem_stats_aix (perf : (Z * Z * Z * Z) + Z) (b : sg_mem_stats)
    : M env (sg_error * sg_mem_stats) :=
  r ← syscall perf;
  match r with
  | None =>
      rc ← RETURN_WITH_SET_ERROR_WITH_ERRNO SG_ERROR_SYSCTLBYNAME (Some "perfstat_memory_total");
      mret (rc, b)
  | Some (real_total, real_inuse, numperm, real_free) =>
      mret (SG_ERROR_NONE,
        mk_mem_stats (real_total *u sys_page_size) (real_free *u sys_page_size)
          (real_inuse *u sys_page_size) (numperm *u sys_page_size) sys_time)
  end.

Definition mem_stats_solaris (phystotal physav : Z + Z) (b : sg_mem_stats)
    : M env (sg_error * sg_mem_stats) :=
  t ← syscall phystotal;
  match t with
  | None => rc ← RETURN_WITH_SET_ERROR_WITH_ERRNO SG_ERROR_SYSCONF (Some "_SC_PHYS_PAGES"); mret (rc, b)
  | Some t =>
      a ← syscall physav;
      match a with
      | None =>
          rc ← RETURN_WITH_SET_ERROR_WITH_ERRNO SG_ERROR_SYSCONF (Some "_SC_AVPHYS_PAGES");
          mret (rc, b)
      | Some a =>
          let total := t *u sys_page_size in
          let free := a *u sys_page_size in
          mret (SG_ERROR_NONE, mk_mem_stats total free (total -u free) 0 sys_time)
      end
  end.

(** NetBSD and OpenBSD, [struct uvmexp]. *)
Definition mem_stats_uvmexp (sysctl_name : string) (uvm : (Z * Z * Z * Z * Z) + Z)
    (b : sg_mem_stats) : M env (sg_error * sg_mem_stats) :=
  r ← syscall uvm;
  match r with
  | None => rc ← RETURN_WITH_SET_ERROR_WITH_ERRNO SG_ERROR_SYSCTL (Some sysctl_name); mret (rc, b)
  | Some (npages, filepages, execpages, ufree, pagesize) =>
      let cache := filepages +u execpages in
      let free := ufree +u cache in
      let total := npages *u pagesize in
      let cache := cache *u pagesize in
      let free := free *u pagesize in
      mret (SG_ERROR_NONE, mk_mem_stats total free (total -u free) cache sys_time)
  end.

(** Darwin, [struct vm_statistics]: 32-bit counts, summed before they are
    widened. *)
Definition mem_stats_mach (vm : (Z * Z * Z * Z * Z) + Z) (b : sg_mem_stats)
    : M env (sg_error * sg_mem_stats) :=
  match vm with
  | inr rc =>
      code ← sg_set_error_with_errno_code_fmt SG_ERROR_MACHCALL rc (Some "host_statistics");
      mret (code, b)
  | inl (free_count, speculative_count, inactive_count, active_count, wire_count) =>
      let free := u32 (free_count - speculative_count) in
      let free := (free +u inactive_count) *u sys_page_size in
      let total := u32 (active_count + wire_count + inactive_count + free_count) *u sys_page_size in
      mret (SG_ERROR_NONE, mk_mem_stats total free (total -u free) 0 sys_time)
  end.

(** FreeBSD: four counters read one after the other. *)
Definition mem_stats_freebsd (page_count free_count inactive_count cache_count : Z + Z)
    (b : sg_mem_stats) : M env (sg_error * sg_mem_stats) :=
  let fail name : M env (sg_error * sg_mem_stats) :=
    rc ← RETURN_WITH_SET_ERROR_WITH_ERRNO SG_ERROR_SYSCTLBYNAME (Some name); mret (rc, b) in
  t ← syscall page_count;
  match t with None => fail "vm.stats.vm.v_page_count" | Some t =>
  f ← syscall free_count;
  match f with None => fail "vm.stats.vm.v_free_count" | Some f =>
  i ← syscall inactive_count;
  match i with None => fail "vm.stats.vm.v_inactive_count" | Some i =>
  c ← syscall cache_count;
  match c with None => fail "vm.stats.vm.v_cache_count" | Some c =>
    let cache := c *u sys_page_size in
    let total := t *u sys_page_size in
    let free := ((f +u i) +u c) *u sys_page_size in
    mret (SG_ERROR_NONE, mk_mem_stats total free (total -u free) cache sys_time)
  end end end end.

(** ** swap_stats.c *)

(** The loop over /proc/meminfo, which ends after two matches. *)
Fixpoint linux_swap_loop (ls : list string) (matches : Z) (b : sg_swap_stats)
    : Z * sg_swap_stats :=
  match ls with
  | [] => (matches, b)
  | line :: ls' =>
      if negb (matches <? 2) then (matches, b)
      else
        let '(n, vals) := sscanf line "%*s %llu kB" in
        if negb (n =? 1) then linux_swap_loop ls' matches b
        else
          let value := arg_int 0 vals 0 *u 1024 in
          if strncmp line "SwapTotal:" 10 =? 0 then
            linux_swap_loop ls' (matches + 1)
              (mk_swap_stats value (swap_used b) (swap_free b) (swap_systime b))
          else if strncmp line "SwapFree:" 9 =? 0 then
            linux_swap_loop ls' (matches + 1)
              (mk_swap_stats (swap_total b) (swap_used b) value (swap_systime b))
          else linux_swap_loop ls' matches b
  end.

Definition swap_zero (b : sg_swap_stats) : sg_swap_stats := mk_swap_stats 0 0 0 (swap_systime b).

Definition sg_get_swap_stats_int (b : sg_swap_stats) : M env (sg_error * sg_swap_stats) :=
  let b := swap_zero b in
  f ← fopen "/proc/meminfo";
  match f with
  | None =>
      rc ← RETURN_WITH_SET_ERROR_WITH_ERRNO SG_ERROR_OPEN (Some "/proc/meminfo");
      mret (rc, b)
  | Some c =>
      let '(matches, b) := linux_swap_loop (file_lines 256 c) 0 b in
      if matches <? 2 then
        rc ← RETURN_WITH_SET_ERROR SG_ERROR_PARSE (Some "/proc/meminfo"); mret (rc, b)
      else
        mret (SG_ERROR_NONE,
          mk_swap_stats (swap_total b) (swap_total b -u swap_free b) (swap_free b) sys_time)
  end.

Definition swap_stats_aix (perf : (Z * Z) + Z) (b : sg_swap_stats)
    : M env (sg_error * sg_swap_stats) :=
  let b := swap_zero b in
  r ← syscall perf;
  match r with
  | None =>
      rc ← RETURN_WITH_SET_ERROR_WITH_ERRNO SG_ERROR_SYSCTLBYNAME (Some "perfstat_memory_total");
      mret (rc, b)
  | Some (pgsp_total, pgsp_free) =>
      let total := pgsp_total *u sys_page_size in
      let free := pgsp_free *u sys_page_size in
      mret (SG_ERROR_NONE, mk_swap_stats total (total -u free) free sys_time)
  end.

Definition swap_stats_anoninfo (ai : (Z * Z) + Z) (b : sg_swap_stats)
    : M env (sg_error * sg_swap_stats) :=
  let b := swap_zero b in
  r ← syscall ai;
  match r with
  | None => rc ← RETURN_WITH_SET_ERROR_WITH_ERRNO SG_ERROR_SWAPCTL None; mret (rc, b)
  | Some (ani_max, ani_resv) =>
      let total := ani_max *u sys_page_size in
      let used := ani_resv *u sys_page_size in
      mret (SG_ERROR_NONE, mk_swap_stats total used (total -u used) sys_time)
  end.

(** ** page_stats.c *)

Fixpoint linux_vmstat_loop (ls : list string) (matches : Z) (b : sg_page_stats)
    : Z * sg_page_stats :=
  match ls with
  | [] => (matches, b)
  | line :: ls' =>
      if negb (matches <? 2) then (matches, b)
      else
        let '(n, vals) := sscanf line "%*s %llu" in
        if negb (n =? 1) then linux_vmstat_loop ls' matches b
        else
          let value := arg_int 0 vals 0 in
          if strncmp line "pgpgin " 7 =? 0 then
            linux_vmstat_loop ls' (matches + 1)
              (mk_page_stats value (pages_pageout b) (page_systime b))
          else if strncmp line "pgpgout " 8 =? 0 then
            linux_vmstat_loop ls' (matches + 1)
              (mk_page_stats (pages_pagein b) value (page_systime b))
          else linux_vmstat_loop ls' matches b
  end.

Definition sg_get_page_stats_int (b : sg_page_stats) : M env (sg_error * sg_page_stats) :=
  let b := mk_page_stats 0 0 sys_time in
  f ← fopen "/proc/vmstat";
  match f with
  | Some c =>
      let '(matches, b) := linux_vmstat_loop (file_lines 256 c) 0 b in
      if matches <? 2 then
        rc ← RETURN_WITH_SET_ERROR SG_ERROR_PARSE (Some "/proc/vmstat"); mret (rc, b)
      else mret (SG_ERROR_NONE, b)
  | None =>
      f ← fopen "/proc/stat";
      match f with
      | Some c =>
          match sg_f_read_line c 256 "page" with
          | None => rc ← sg_get_error; mret (rc, b)
          | Some (line, _) =>
              let '(n, vals) := sscanf line "page %llu %llu" in
              let b := mk_page_stats (arg_int (pages_pagein b) vals 0)
                         (arg_int (pages_pageout b) vals 1) (page_systime b) in
              if negb (n =? 2) then
                rc ← RETURN_WITH_SET_ERROR SG_ERROR_PARSE (Some "page"); mret (rc, b)
              else mret (SG_ERROR_NONE, b)
          end
      | None =>
          rc ← RETURN_WITH_SET_ERROR_WITH_ERRNO SG_ERROR_OPEN (Some "/proc/stat"); mret (rc, b)
      end
  end.

(** Solaris: the counters of every CPU are added up; [None] for a kstat that is
    no [cpu_stat] or cannot be read. *)
Definition page_stats_solaris (chain : list (option (Z * Z))) : sg_page_stats :=
  foldl (fun b k =>
    match k with
    | None => b
    | Some (pgpgin, pgpgout) =>
        mk_page_stats (pages_pagein b +u pgpgin) (pages_pageout b +u pgpgout) (page_systime b)
    end) (mk_page_stats 0 0 sys_time) chain.

(** The systems that deliver both counters with one call. *)
Definition page_stats_counters (code : sg_error) (arg : string) (r : (Z * Z) + Z)
    : M env (sg_error * sg_page_stats) :=
  c ← syscall r;
  match c with
  | None =>
      rc ← RETURN_WITH_SET_ERROR_WITH_ERRNO code (Some arg);
      mret (rc, mk_page_stats 0 0 sys_time)
  | Some (i, o) => mret (SG_ERROR_NONE, mk_page_stats i o sys_time)
  end.

(** [tgt] is not NULL in any call. *)
Definition sg_get_page_stats_diff_int (tgt : item) (now last : option sg_page_stats)
    : sg_page_stats :=
  match now with
  | Some n =>
      match last with
      | Some l =>
          mk_page_stats (pages_pagein n -u pages_pagein l) (pages_pageout n -u pages_pageout l)
            (s64 (page_systime n - page_systime l))
      | None => n
      end
  | None => mk_page_stats 0 0 0
  end.

(** ** The functions EASY_COMP_ACCESS and EASY_COMP_DIFF give them *)

Definition SG_LOAD_CUR_IDX : nat := 0.
Definition SG_MEM_CUR_IDX : nat := 0.
Definition SG_SWAP_CUR_IDX : nat := 0.
Definition SG_PAGE_CUR_IDX : nat := 0.
Definition SG_PAGE_DIFF_IDX : nat := 1.

Definition on_item {A} (as_ : item -> A) (mk : A -> item)
    (f : A -> M env (sg_error * A)) (it : item) : M env (sg_error * item) :=
  r ← f (as_ it); mret (r.1, mk r.2).

Definition sg_get_load_stats (loadav : double * double * double) : M comp (vptr * Z) :=
  EASY_COMP_ACCESS Kload SG_LOAD_CUR_IDX (on_item as_load ILoad (sg_get_load_stats_int loadav)).
Definition sg_get_mem_stats : M comp (vptr * Z) :=
  EASY_COMP_ACCESS Kmem SG_MEM_CUR_IDX (on_item as_mem IMem sg_get_mem_stats_int).
Definition sg_get_swap_stats : M comp (vptr * Z) :=
  EASY_COMP_ACCESS Kswap SG_SWAP_CUR_IDX (on_item as_swap ISwap sg_get_swap_stats_int).
Definition sg_get_page_stats : M comp (vptr * Z) :=
  EASY_COMP_ACCESS Kpage SG_PAGE_CUR_IDX (on_item as_page IPage sg_get_page_stats_int).

Definition page_diff_int (it : item) (now last : option item) : M env (sg_error * item) :=
  mret (SG_ERROR_NONE, IPage (sg_get_page_stats_diff_int it (as_page <$> now) (as_page <$> last))).

Definition sg_get_page_stats_diff : M comp (vptr * Z) :=
  EASY_COMP_DIFF Kpage SG_PAGE_DIFF_IDX SG_PAGE_CUR_IDX sg_get_page_stats page_diff_int.
End single.
