(* ===== verification/Cpu.v ===== *)
(** src/src/libstatgrab/cpu_stats.c: processor time counters, their differences
    and percentages. *)

From S2P Require Import Prelude Types CLib Errors Tools Vector VectorSpec VectorDiff Items Comp Stdio ToolsExt Single.

Local Open Scope sg_scope.

Definition cpu_zero : sg_cpu_stats := mk_cpu_stats 0 0 0 0 0 0 0 0 0 0 0 0 0 0.

(** Setters for the groups of fields the branches assign. *)
Definition cpu_set_times (user kernel idle iowait swap nice total : Z) (b : sg_cpu_stats)
    : sg_cpu_stats :=
  mk_cpu_stats user kernel idle iowait swap nice total (cpu_context_switches b)
    (cpu_voluntary_context_switches b) (cpu_involuntary_context_switches b)
    (cpu_syscalls b) (cpu_interrupts b) (cpu_soft_interrupts b) (cpu_systime b).

Definition cpu_set_events (ctxt vol invol sysc intr soft : Z) (b : sg_cpu_stats) : sg_cpu_stats :=
  mk_cpu_stats (cpu_user b) (cpu_kernel b) (cpu_idle b) (cpu_iowait b) (cpu_swap b)
    (cpu_nice b) (cpu_total b) ctxt vol invol sysc intr soft (cpu_systime b).

Definition cpu_set_systime (t : Z) (b : sg_cpu_stats) : sg_cpu_stats :=
  mk_cpu_stats (cpu_user b) (cpu_kernel b) (cpu_idle b) (cpu_iowait b) (cpu_swap b)
    (cpu_nice b) (cpu_total b) (cpu_context_switches b) (cpu_voluntary_context_switches b)
    (cpu_involuntary_context_switches b) (cpu_syscalls b) (cpu_interrupts b)
    (cpu_soft_interrupts b) t.

Section cpu.
Context {mem : Memory} {sys : System}.

Definition as_cpu (it : item) := match it with ICpu s => s | _ => raw_cpu end.
Definition as_cpu_percents (it : item) :=
  match it with ICpuPercents s => s | _ => raw_cpu_percents end.

(** ** Linux *)

(** [strncmp(line, kw, strlen(kw)) == 0 && isblank(line[strlen(kw)])] *)
Definition line_is (kw line : string) : bool :=
  (strncmp line kw (String.length kw) =? 0) && isblank (char_at line (String.length kw)).

(** The loop over /proc/stat: [inl] is the keyword whose line does not parse. *)
Fixpoint linux_cpu_loop (ls : list string) (matched : Z) (b : sg_cpu_stats)
    : (string * sg_cpu_stats) + (Z * sg_cpu_stats) :=
  match ls with
  | [] => inr (matched, b)
  | line :: ls' =>
      if negb (matched <? 4) then inr (matched, b)
      else if line_is "cpu" line then
        let '(n, v) := sscanf line "cpu %llu %llu %llu %llu %llu" in
        let b' := cpu_set_times (arg_int (cpu_user b) v 0) (arg_int (cpu_kernel b) v 2)
                    (arg_int (cpu_idle b) v 3) (arg_int (cpu_iowait b) v 4) (cpu_swap b)
                    (arg_int (cpu_nice b) v 1) (cpu_total b) b in
        if (n <? 4) || (5 <? n) then inl ("cpu", b') else linux_cpu_loop ls' (matched + 1) b'
      else if line_is "intr" line then
        let '(n, v) := sscanf line "intr %llu" in
        let b' := cpu_set_events (cpu_context_switches b) (cpu_voluntary_context_switches b)
                    (cpu_involuntary_context_switches b) (cpu_syscalls b)
                    (arg_int (cpu_interrupts b) v 0) (cpu_soft_interrupts b) b in
        if negb (n =? 1) then inl ("intr", b') else linux_cpu_loop ls' (matched + 1) b'
      else if line_is "ctxt" line then
        let '(n, v) := sscanf line "ctxt %llu" in
        let b' := cpu_set_events (arg_int (cpu_context_switches b) v 0)
                    (cpu_voluntary_context_switches b) (cpu_involuntary_context_switches b)
                    (cpu_syscalls b) (cpu_interrupts b) (cpu_soft_interrupts b) b in
        if negb (n =? 1) then inl ("ctxt", b') else linux_cpu_loop ls' (matched + 1) b'
      else if line_is "softirq" line then
        let '(n, v) := sscanf line "softirq %llu" in
        let b' := cpu_set_events (cpu_context_switches b) (cpu_voluntary_context_switches b)
                    (cpu_involuntary_context_switches b) (cpu_syscalls b)
                    (cpu_interrupts b) (arg_int (cpu_soft_interrupts b) v 0) b in
        if negb (n =? 1) then inl ("softirq", b') else linux_cpu_loop ls' (matched + 1) b'
      else linux_cpu_loop ls' matched b
  end.

Definition linux_cpu_total (b : sg_cpu_stats) : Z :=
  ((cpu_user b +u cpu_nice b) +u cpu_kernel b) +u cpu_idle b.

Definition set_total (t : Z) (b : sg_cpu_stats) : sg_cpu_stats :=
  cpu_set_times (cpu_user b) (cpu_kernel b) (cpu_idle b) (cpu_iowait b) (cpu_swap b)
    (cpu_nice b) t b.

Definition sg_get_cpu_stats_int (b : sg_cpu_stats) : M env (sg_error * sg_cpu_stats) :=
  let b := cpu_zero in
  f ← fopen "/proc/stat";
  match f with
  | None => rc ← RETURN_WITH_SET_ERROR_WITH_ERRNO SG_ERROR_OPEN (Some "/proc/stat"); mret (rc, b)
  | Some c =>
      match linux_cpu_loop (file_lines 1024 c) 0 b with
      | inl (kw, b') => rc ← RETURN_WITH_SET_ERROR SG_ERROR_PARSE (Some kw); mret (rc, b')
      | inr (matched, b') =>
          if matched =? 0 then
            rc ← RETURN_WITH_SET_ERROR SG_ERROR_PARSE
                   (Some "all from 'cpu', 'intr', 'ctxt', 'softirq' missing from '/proc/stat'");
            mret (rc, b')
          else mret (SG_ERROR_NONE, cpu_set_systime sys_time (set_total (linux_cpu_total b') b'))
      end
  end.

(** ** The other systems, from what their system calls deliver *)

(** HP-UX: [psd_cpu_time] by state, with the indices the code names. *)
Record hpux_states := mk_hpux_states {
  CP_USER : nat; CP_WAIT : nat; CP_SSYS : nat; CP_SYS : nat; CP_IDLE : nat; CP_NICE : nat }.

Definition cpu_stats_hpux (st : hpux_states) (psd_cpu_time : list Z) (vm : Z * Z * Z)
    : sg_cpu_stats :=
  let at_ i := default 0 (psd_cpu_time !! i) in
  let '(psv_sswtch, psv_ssyscall, psv_sintr) := vm in
  let total := foldl (fun t x => t +u x) 0 psd_cpu_time in
  cpu_set_systime sys_time
    (cpu_set_events psv_sswtch 0 0 psv_ssyscall psv_sintr 0
      (cpu_set_times (at_ (CP_USER st)) (at_ (CP_SSYS st) +u at_ (CP_SYS st))
         (at_ (CP_IDLE st)) (at_ (CP_WAIT st)) 0 (at_ (CP_NICE st)) total cpu_zero)).

Definition cpu_stats_aix (user wait sys_ idle pswitch syscall_ devintrs softintrs : Z)
    : sg_cpu_stats :=
  cpu_set_systime sys_time
    (cpu_set_events pswitch 0 0 syscall_ devintrs softintrs
      (cpu_set_times user sys_ idle wait 0 0 (((user +u wait) +u sys_) +u idle) cpu_zero)).

(** Solaris: one record per CPU of the kstat chain that is a readable [cpu_stat]. *)
Record solaris_cpu := mk_solaris_cpu {
  so_user : Z; so_kernel : Z; so_idle : Z; so_io : Z; so_pio : Z; so_swap : Z;
  so_pswitch : Z; so_syscall : Z; so_inv_swtch : Z; so_intr : Z }.

Definition cpu_stats_solaris (chain : list solaris_cpu) : sg_cpu_stats :=
  let b := foldl (fun b c =>
    cpu_set_events (cpu_context_switches b +u so_pswitch c) (cpu_voluntary_context_switches b)
      (cpu_involuntary_context_switches b +u so_inv_swtch c) (cpu_syscalls b +u so_syscall c)
      (cpu_interrupts b +u so_intr c) (cpu_soft_interrupts b)
      (cpu_set_times (cpu_user b +u so_user c) (cpu_kernel b +u so_kernel c)
         (cpu_idle b +u so_idle c) (cpu_iowait b +u (so_io c + so_pio c))
         (cpu_swap b +u so_swap c) (cpu_nice b) (cpu_total b) b)) cpu_zero chain in
  let total := (((cpu_user b +u cpu_iowait b) +u cpu_kernel b) +u cpu_idle b) +u cpu_swap b in
  let vol := cpu_context_switches b -u cpu_involuntary_context_switches b in
  cpu_set_systime sys_time
    (cpu_set_events (cpu_context_switches b) vol (cpu_involuntary_context_switches b)
       (cpu_syscalls b) (cpu_interrupts b) (cpu_soft_interrupts b) (set_total total b)).

(** Darwin ([cpu_ticks]) and DragonFly ([struct kinfo_cputime]). *)
Definition cpu_stats_mach (user nice system idle : Z) : sg_cpu_stats :=
  let b := cpu_set_times user system idle 0 0 nice 0 cpu_zero in
  set_total (linux_cpu_total b) b.

Definition cpu_stats_kinfo (cp_user cp_nice cp_sys cp_intr cp_idle : Z) : sg_cpu_stats :=
  let b := cpu_set_times cp_user (cp_sys +u cp_intr) cp_idle 0 0 cp_nice 0 cpu_zero in
  set_total (linux_cpu_total b) b.

(** The BSDs with [kern.cp_time]: the total is the sum over all states. *)
Definition cpu_stats_cptime (i_user i_nice i_sys i_idle : nat) (cp_time : list Z) : sg_cpu_stats :=
  let at_ i := u64 (default 0 (cp_time !! i)) in
  cpu_set_times (at_ i_user) (at_ i_sys) (at_ i_idle) 0 0 (at_ i_nice)
    (foldl (fun t x => t +u x) 0 cp_time) cpu_zero.

(** ** Differences *)

(** The branch for 64-bit counters, which includes Linux. *)
Definition counter_diff (new old : Z) : Z := new -u old.

(** The branch for [struct vmmeter]: [retval = INT_MAX; ++retval; += new; -= old]. *)
Definition counter_diff_vmmeter (new old : Z) : Z :=
  if old <=? new then new -u old
  else ((2147483647 +u 1) +u new) -u old.

Definition sg_get_cpu_stats_diff_int (now last : option sg_cpu_stats) : sg_cpu_stats :=
  match now with
  | Some n =>
      match last with
      | Some l =>
          mk_cpu_stats (cpu_user n -u cpu_user l) (cpu_kernel n -u cpu_kernel l)
            (cpu_idle n -u cpu_idle l) (cpu_iowait n -u cpu_iowait l)
            (cpu_swap n -u cpu_swap l) (cpu_nice n -u cpu_nice l) (cpu_total n -u cpu_total l)
            (counter_diff (cpu_context_switches n) (cpu_context_switches l))
            (counter_diff (cpu_voluntary_context_switches n) (cpu_voluntary_context_switches l))
            (counter_diff (cpu_involuntary_context_switches n) (cpu_involuntary_context_switches l))
            (counter_diff (cpu_syscalls n) (cpu_syscalls l))
            (counter_diff (cpu_interrupts n) (cpu_interrupts l))
            (counter_diff (cpu_soft_interrupts n) (cpu_soft_interrupts l))
            (s64 (cpu_systime n - cpu_systime l))
      | None => n
      end
  | None => cpu_zero
  end.

(** ** Percentages *)

Definition percent (x total : Z) : double :=
  double_mul (double_div (double_of x) (double_of total)) (double_of 100).

Definition sg_get_cpu_percents_int (c : sg_cpu_stats) : sg_cpu_percents :=
  mk_cpu_percents (percent (cpu_user c) (cpu_total c)) (percent (cpu_kernel c) (cpu_total c))
    (percent (cpu_idle c) (cpu_total c)) (percent (cpu_iowait c) (cpu_total c))
    (percent (cpu_swap c) (cpu_total c)) (percent (cpu_nice c) (cpu_total c)) (cpu_systime c).

(** ** Access functions *)

Definition SG_CPU_NOW_IDX : nat := 0.
Definition SG_CPU_DIFF_IDX : nat := 1.
Definition SG_CPU_PERCENT_IDX : nat := 2.

Definition sg_get_cpu_stats : M comp (vptr * Z) :=
  EASY_COMP_ACCESS Kcpu SG_CPU_NOW_IDX (on_item as_cpu ICpu sg_get_cpu_stats_int).

Definition cpu_diff_int (it : item) (now last : option item) : M env (sg_error * item) :=
  mret (SG_ERROR_NONE, ICpu (sg_get_cpu_stats_diff_int (as_cpu <$> now) (as_cpu <$> last))).

Definition sg_get_cpu_stats_diff : M comp (vptr * Z) :=
  EASY_COMP_DIFF Kcpu SG_CPU_DIFF_IDX SG_CPU_NOW_IDX sg_get_cpu_stats cpu_diff_int.

(** Returns the data pointer and what is stored in [*entries], [None] when
    nothing is. *)
Definition sg_get_cpu_percents_of (cps : sg_cpu_percent_source) : M comp (vptr * option Z) :=
  glob ← gets c_vectors;
  match glob with
  | None => mret (None, None)
  | Some _ =>
      pv ← get_vector SG_CPU_PERCENT_IDX;
      match pv with
      | None => nv ← in_world (easy_create Kcpu_percents); set_vector SG_CPU_PERCENT_IDX nv
      | Some _ => mret tt
      end;;
      pv ← get_vector SG_CPU_PERCENT_IDX;
      match pv with
      | None =>
          _ ← in_world (in_env (sg_set_error_fmt SG_ERROR_MALLOC (Some "sg_get_cpu_percents_of")));
          mret (None, None)
      | Some cpu_usage =>
          (* the vector and the structure the percentages are computed from *)
          src ← match cps with
                | sg_entire_cpu_percent =>
                    v ← get_vector SG_CPU_NOW_IDX;
                    match v with
                    | Some _ => mret (v, None)
                    | None => r ← sg_get_cpu_stats; mret (None, r.1)
                    end
                | sg_last_diff_cpu_percent =>
                    v ← get_vector SG_CPU_DIFF_IDX;
                    match v with
                    | Some _ => mret (v, None)
                    | None => r ← sg_get_cpu_stats_diff; mret (None, r.1)
                    end
                | sg_new_diff_cpu_percent => r ← sg_get_cpu_stats_diff; mret (None, r.1)
                end;
          let '(cpu_stats_vector, cs_ptr) := (src : vptr * vptr) in
          match (match cs_ptr with Some _ => cs_ptr | None => cpu_stats_vector end) with
          | None => mret (None, Some 0)
          | Some cs =>
              it ← in_world (read_item cs 0);
              in_world (write_item cpu_usage 0
                          (ICpuPercents (sg_get_cpu_percents_int (as_cpu it))));;
              n ← in_world (VECTOR_ITEM_COUNT cpu_stats_vector);
              mret (Some cpu_usage, Some n)
          end
      end
  end.

Definition sg_get_cpu_percents_r (whereof : option sg_cpu_stats) : M world (vptr * Z) :=
  match whereof with
  | None =>
      in_env (SET_ERROR SG_ERROR_INVALID_ARGUMENT
                (Some "sg_get_cpu_percents_r(whereof = (nil))"));;
      mret (None, 0)
  | Some c =>
      v ← easy_create Kcpu_percents;
      match v with
      | None => mret (None, 0)
      | Some l =>
          write_item l 0 (ICpuPercents (sg_get_cpu_percents_int c));;
          n ← VECTOR_ITEM_COUNT (Some l);
          mret (Some l, n)
      end
  end.
End cpu.
