(* ===== verification/Globals.v ===== *)
(** src/src/libstatgrab/globals.c: starting and stopping the library, the named
    mutexes, and the thread-local storage that holds every component's data. The
    build with POSIX threads is modelled. *)

From S2P Require Import Prelude Types CLib Errors.

(** * Components and state *)

(** [init_fn]: the error component reads its thread storage, the others set their
    id and possibly fail. *)
Inductive init_fn_t := InitError | InitOther (rc : sg_error).

Record comp_init := mk_comp_init {
  ci_init_fn : init_fn_t;
  static_buf_size : Z;
  required_locks : list string;
  ci_status : bool }.             (* whether [status] is not NULL *)

(** The state of a mutex: its owner and how often it locked it. *)
Inductive mutex := MUninit | MUnlocked | MLocked (owner : nat) (depth : nat).

#[export] Instance mutex_eq_dec : EqDecision mutex.
Proof. solve_decision. Defined.

Record named_mutex := mk_named_mutex { nm_name : string; nm_mutex : mutex }.

(** Calls made to the components' functions. *)
Inductive event :=
| EInit (i : nat) (id : Z)
| EDestroy (i : nat)
| ECleanup (i : nat) (ofs : Z).

(** The storage of a thread: its size, and the error record in it. *)
Record tls_buf := mk_tls_buf { tb_size : Z; tb_error : sg_error_glob }.

Record globals := mk_globals {
  g_once : bool;                     (* sg_first_init has run *)
  g_glob_lock : mutex;               (* glob_lock.mutex *)
  g_locks : list named_mutex;        (* required_locks *)
  g_initialized : Z;
  g_glob_size : Z;
  g_ofs : list Z;                    (* comp_info[i].glob_ofs *)
  g_status : list sg_error;          (* status->init_error *)
  g_error_id : Z;                    (* sg_error_glob_id *)
  g_tls : gmap nat tls_buf;
  g_pre : sg_error_glob;             (* pre_init_errs *)
  g_allocs : list alloc_choice;
  g_trace : list event }.

Definition set_lock (m : mutex) (g : globals) : globals :=
  mk_globals (g_once g) m (g_locks g) (g_initialized g) (g_glob_size g) (g_ofs g) (g_status g)
    (g_error_id g) (g_tls g) (g_pre g) (g_allocs g) (g_trace g).
Definition set_once (g : globals) : globals :=
  mk_globals true (g_glob_lock g) (g_locks g) (g_initialized g) (g_glob_size g) (g_ofs g)
    (g_status g) (g_error_id g) (g_tls g) (g_pre g) (g_allocs g) (g_trace g).
Definition set_locks (l : list named_mutex) (g : globals) : globals :=
  mk_globals (g_once g) (g_glob_lock g) l (g_initialized g) (g_glob_size g) (g_ofs g)
    (g_status g) (g_error_id g) (g_tls g) (g_pre g) (g_allocs g) (g_trace g).
Definition set_initialized (z : Z) (g : globals) : globals :=
  mk_globals (g_once g) (g_glob_lock g) (g_locks g) z (g_glob_size g) (g_ofs g)
    (g_status g) (g_error_id g) (g_tls g) (g_pre g) (g_allocs g) (g_trace g).
Definition set_layout (size : Z) (ofs : list Z) (g : globals) : globals :=
  mk_globals (g_once g) (g_glob_lock g) (g_locks g) (g_initialized g) size ofs
    (g_status g) (g_error_id g) (g_tls g) (g_pre g) (g_allocs g) (g_trace g).
Definition set_status (i : nat) (e : sg_error) (g : globals) : globals :=
  mk_globals (g_once g) (g_glob_lock g) (g_locks g) (g_initialized g) (g_glob_size g) (g_ofs g)
    (<[i := e]> (g_status g)) (g_error_id g) (g_tls g) (g_pre g) (g_allocs g) (g_trace g).
Definition set_error_id (z : Z) (g : globals) : globals :=
  mk_globals (g_once g) (g_glob_lock g) (g_locks g) (g_initialized g) (g_glob_size g) (g_ofs g)
    (g_status g) z (g_tls g) (g_pre g) (g_allocs g) (g_trace g).
Definition set_tls (m : gmap nat tls_buf) (g : globals) : globals :=
  mk_globals (g_once g) (g_glob_lock g) (g_locks g) (g_initialized g) (g_glob_size g) (g_ofs g)
    (g_status g) (g_error_id g) m (g_pre g) (g_allocs g) (g_trace g).
Definition set_pre (e : sg_error_glob) (g : globals) : globals :=
  mk_globals (g_once g) (g_glob_lock g) (g_locks g) (g_initialized g) (g_glob_size g) (g_ofs g)
    (g_status g) (g_error_id g) (g_tls g) e (g_allocs g) (g_trace g).
Definition set_allocs (l : list alloc_choice) (g : globals) : globals :=
  mk_globals (g_once g) (g_glob_lock g) (g_locks g) (g_initialized g) (g_glob_size g) (g_ofs g)
    (g_status g) (g_error_id g) (g_tls g) (g_pre g) l (g_trace g).
Definition log_event (ev : event) (g : globals) : globals :=
  mk_globals (g_once g) (g_glob_lock g) (g_locks g) (g_initialized g) (g_glob_size g) (g_ofs g)
    (g_status g) (g_error_id g) (g_tls g) (g_pre g) (g_allocs g) (g_trace g ++ [ev]).

(** MAGIC_EYE('g','l','o','b') *)
Definition GLOB_MASK : Z := 103 + Z.shiftl 108 8 + Z.shiftl 111 16 + Z.shiftl 98 24.

Definition g_alloc : M globals alloc_choice := fun g =>
  match g_allocs g with
  | [] => Done AMove g
  | c :: r => Done c (set_allocs r g)
  end.

(** * Mutexes *)

(** A default mutex: locking it again in the same thread blocks forever, and so
    does waiting for a thread that does not run. *)
Definition pthread_mutex_lock (recursive : bool) (t : nat) (m : mutex) : option mutex :=
  match m with
  | MLocked o d => if recursive && bool_decide (o = t) then Some (MLocked o (S d)) else None
  | _ => Some (MLocked t 1)
  end.

(** The owner gives one level back; [None] for any other thread (EPERM). *)
Definition pthread_mutex_unlock (t : nat) (m : mutex) : option mutex :=
  match m with
  | MLocked o d =>
      if decide (o = t) then Some (match d with S (S d') => MLocked o (S d') | _ => MUnlocked end)
      else None
  | _ => None
  end.

Definition cmp_named_locks (name : string) (m : named_mutex) : Z := strcmp name (nm_name m).

Section globals_.
Context (t : nat).                      (* the calling thread *)
Context (comp_info : list comp_init).

(** * Thread-local storage *)

(** The storage of a thread that has none; [set_error] is SET_ERROR("globals", ...).
    pthread_setspecific with the key of [sg_first_init] succeeds. *)
Definition sg_alloc_globals (set_error : sg_error -> string -> M globals unit) : M globals bool :=
  size ← gets g_glob_size;
  if size =? 0 then mret false
  else
    a ← g_alloc;
    match a with
    | AFail =>
        set_error SG_ERROR_MALLOC "sg_alloc_globals: malloc() failed or no components registered";;
        mret false
    | _ =>
        modify (fun g => set_tls (<[t := mk_tls_buf size error_glob_zero]> (g_tls g)) g);;
        mret true
    end.

(** [sg_alloc_globals] and [sg_comp_get_tls] record errors through
    [sg_get_error_glob], which calls [sg_comp_get_tls] again; [fuel] bounds this
    recursion. The result is the offset of the component's data in the
    thread's buffer. *)
Fixpoint sg_comp_get_tls (fuel : nat) (id : Z) : M globals (option Z) :=
  match fuel with
  | O => stuck out_of_fuel
  | S fuel' =>
      let set_error (code : sg_error) (arg : string) : M globals unit :=
        eid ← gets g_error_id;
        r ← sg_comp_get_tls fuel' eid;
        let e := mk_error_glob code 0 (vsnprintf ERROR_ARG_MAX arg) in
        match r with
        | Some _ =>
            modify (fun g => set_tls (alter (fun b => mk_tls_buf (tb_size b) e) t (g_tls g)) g)
        | None => modify (set_pre e)
        end in
      bufs ← gets g_tls;
      have ← match bufs !! t with
             | Some _ => mret true
             | None => sg_alloc_globals set_error
             end;
      if negb have then mret None
      else
        let id' := u32 (id - GLOB_MASK) in
        if Z.of_nat (length comp_info) <=? id' then
          set_error SG_ERROR_INVALID_ARGUMENT
            ("sg_comp_get_tls: invalid id (" +:+ pretty id' +:+ ")");;
          mret None
        else
          ofs ← gets g_ofs;
          match ofs !! Z.to_nat id' with
          | Some o => mret (Some o)
          | None => stuck out_of_bounds
          end
  end.

(** Two levels are enough when the storage of the error component can be had. *)
Definition tls_fuel : nat := 3.

Definition g_set_error (code : sg_error) (errno_value : Z) (arg : string) : M globals unit :=
  eid ← gets g_error_id;
  r ← sg_comp_get_tls tls_fuel eid;
  let e := mk_error_glob code errno_value (vsnprintf ERROR_ARG_MAX arg) in
  match r with
  | Some _ =>
      modify (fun g => set_tls (alter (fun b => mk_tls_buf (tb_size b) e) t (g_tls g)) g)
  | None => modify (set_pre e)
  end.

(** * Locking *)

Definition sg_global_lock : M globals sg_error :=
  m ← gets g_glob_lock;
  match pthread_mutex_lock false t m with
  | Some m' => modify (set_lock m');; mret SG_ERROR_NONE
  | None => stuck deadlock
  end.

(** Unlocking a default mutex the thread does not own has no defined effect. *)
Definition sg_global_unlock : M globals sg_error :=
  m ← gets g_glob_lock;
  match pthread_mutex_unlock t m with
  | Some m' => modify (set_lock m');; mret SG_ERROR_NONE
  | None => stuck undefined_op
  end.

Definition sg_lock_mutex (mutex_name : string) : M globals sg_error :=
  locks ← gets g_locks;
  match bsearch (cmp_named_locks mutex_name) locks with
  | None => g_set_error SG_ERROR_INVALID_ARGUMENT 0 mutex_name;; mret SG_ERROR_INVALID_ARGUMENT
  | Some i =>
      match locks !! i with
      | None => stuck out_of_bounds
      | Some found =>
          (* the copy of glob_lock is a default mutex, the others are recursive *)
          let recursive := negb (bool_decide (nm_name found = "statgrab")) in
          match pthread_mutex_lock recursive t (nm_mutex found) with
          | Some m' =>
              modify (set_locks (<[i := mk_named_mutex (nm_name found) m']> locks));;
              mret SG_ERROR_NONE
          | None => stuck deadlock
          end
      end
  end.

Definition EPERM : Z := 1.

Definition sg_unlock_mutex (mutex_name : string) : M globals sg_error :=
  locks ← gets g_locks;
  match bsearch (cmp_named_locks mutex_name) locks with
  | None => g_set_error SG_ERROR_INVALID_ARGUMENT 0 mutex_name;; mret SG_ERROR_INVALID_ARGUMENT
  | Some i =>
      match locks !! i with
      | None => stuck out_of_bounds
      | Some found =>
          match pthread_mutex_unlock t (nm_mutex found) with
          | Some m' =>
              modify (set_locks (<[i := mk_named_mutex (nm_name found) m']> locks));;
              mret SG_ERROR_NONE
          | None =>
            g_set_error SG_ERROR_MUTEX_LOCK EPERM
              ("error 1 unlocking mutex '" +:+ mutex_name +:+ "' in thread");;
            mret SG_ERROR_MUTEX_LOCK
          end
      end
  end.

(** * Initialisation *)

(** The calls succeed: creating the key and the mutex attributes fails only when a process
    runs out of keys. The attributes that are prepared do not reach the mutex. *)
Definition sg_first_init : M globals unit := modify (set_lock MUnlocked).

Definition sg_init_thread_local : M globals unit :=
  once ← gets g_once;
  if (once : bool) then mret tt else modify set_once;; sg_first_init.

(** The offsets: [comp_info[i].glob_ofs = glob_size; glob_size += ...]. *)
Fixpoint layout (glob_size : Z) (cs : list comp_init) : Z * list Z :=
  match cs with
  | [] => (glob_size, [])
  | c :: cs' =>
      let '(total, ofs) := layout (u64 (glob_size + static_buf_size c)) cs' in
      (total, glob_size :: ofs)
  end.

Definition sg_error_init_comp (id : Z) : M globals sg_error :=
  r ← sg_comp_get_tls tls_fuel id;
  modify (set_error_id id);;
  pre ← gets g_pre;
  match r with
  | Some _ =>
      if decide (eg_error pre = SG_ERROR_NONE) then mret tt
      else modify (fun g => set_tls (alter (fun b => mk_tls_buf (tb_size b) pre) t (g_tls g)) g)
  | None => mret tt
  end;;
  mret SG_ERROR_NONE.

Definition call_init_fn (i : nat) (c : comp_init) : M globals sg_error :=
  let id := u32 (Z.of_nat i + GLOB_MASK) in
  modify (log_event (EInit i id));;
  match ci_init_fn c with
  | InitError => sg_error_init_comp id
  | InitOther rc => mret rc
  end.

(** How many of the names are not yet known. *)
Fixpoint count_new (locks : list named_mutex) (names : list string) : nat :=
  match names with
  | [] => 0
  | n :: names' =>
      match bsearch (cmp_named_locks n) locks with
      | Some _ => count_new locks names'
      | None => S (count_new locks names')
      end
  end.

Definition cmp_locks (a b : named_mutex) : Z := strcmp (nm_name a) (nm_name b).

(** The loop that appends unknown names and sorts after each of them. *)
Fixpoint add_locks (locks : list named_mutex) (names : list string) : list named_mutex :=
  match names with
  | [] => locks
  | n :: names' =>
      match bsearch (cmp_named_locks n) locks with
      | Some _ => add_locks locks names'
      | None => add_locks (qsort cmp_locks (locks ++ [mk_named_mutex n MUninit])) names'
      end
  end.

(** The loop over the components: [inl] is an early return. *)
Fixpoint init_loop (ignore_init_errors : bool) (i : nat) (cs : list comp_init)
    (errc : sg_error) : M globals (sg_error + sg_error) :=
  match cs with
  | [] => mret (inr errc)
  | c :: cs' =>
      comp_errc ← call_init_fn i c;
      let locks_part (errc : sg_error) : M globals (sg_error + sg_error) :=
        locks ← gets g_locks;
        if decide (count_new locks (required_locks c) = O) then
          init_loop ignore_init_errors (S i) cs' errc
        else
          a ← g_alloc;
          match a with
          | AFail => g_set_error SG_ERROR_MALLOC 0 "sg_comp_init";; mret (inl SG_ERROR_MALLOC)
          | _ =>
              modify (set_locks (add_locks locks (required_locks c)));;
              init_loop ignore_init_errors (S i) cs' errc
          end in
      if decide (comp_errc <> SG_ERROR_NONE) then
        if ignore_init_errors && ci_status c then
          modify (set_status i comp_errc);; locks_part SG_ERROR_INITIALISATION
        else mret (inl comp_errc)
      else locks_part errc
  end.

Definition sg_comp_init (ignore_init_errors : bool) : M globals sg_error :=
  sg_init_thread_local;;
  _ ← sg_global_lock;
  n ← gets g_initialized;
  modify (set_initialized (u32 (n + 1)));;
  if negb (n =? 0) then sg_global_unlock
  else
    let '(size, ofs) := layout 0 comp_info in
    modify (set_layout size ofs);;
    a ← g_alloc;
    match a with
    | AFail => g_set_error SG_ERROR_MALLOC 0 "sg_comp_init";; mret SG_ERROR_MALLOC
    | _ =>
        m ← gets g_glob_lock;
        modify (set_locks [mk_named_mutex "statgrab" m]);;
        r ← init_loop ignore_init_errors 0 comp_info SG_ERROR_NONE;
        match r with
        | inl rc => mret rc
        | inr errc =>
            modify (fun g => set_locks ((fun m =>
              if decide (nm_name m = "statgrab") then m
              else mk_named_mutex (nm_name m) MUnlocked) <$> g_locks g) g);;
            _ ← sg_global_unlock;
            mret errc
        end
    end.

(** [while(i--) destroy_fn()]: from the last component to the first. *)
Fixpoint destroy_comps (i : nat) : M globals unit :=
  match i with
  | O => mret tt
  | S i' => modify (log_event (EDestroy i'));; destroy_comps i'
  end.

Definition sg_comp_destroy : M globals sg_error :=
  _ ← sg_global_lock;
  n ← gets g_initialized;
  modify (set_initialized (u32 (n - 1)));;
  if negb (u32 (n - 1) =? 0) then sg_global_unlock
  else
    ofs ← gets g_ofs;
    modify (set_layout 0 ofs);;
    destroy_comps (length comp_info);;
    modify (set_locks []);;
    sg_global_unlock.

(** * The end of a thread *)

(** [cleanup_fn(glob_buf + comp_info[i].glob_ofs)] for every component, last
    to first. *)
Fixpoint cleanup_comps (i : nat) : M globals unit :=
  match i with
  | O => mret tt
  | S i' =>
      ofs ← gets g_ofs;
      match ofs !! i' with
      | Some o => modify (log_event (ECleanup i' o))
      | None => stuck out_of_bounds
      end;;
      cleanup_comps i'
  end.

Definition sg_destroy_globals : M globals unit :=
  bufs ← gets g_tls;
  match bufs !! t with
  | None => mret tt
  | Some b =>
      cleanup_comps (length comp_info);;
      ofs ← gets g_ofs;
      (* memset(glob_buf, 0, zero_size) stays inside the buffer *)
      match last ofs, last comp_info with
      | Some o, Some c =>
          if tb_size b <? u64 (o + static_buf_size c) then stuck out_of_bounds
          else modify (fun g => set_tls (delete t (g_tls g)) g)
      | _, _ => stuck out_of_bounds
      end
  end.

(** At the end of the process, for the thread that ends it: as long as it has storage. *)
Fixpoint destroy_main_loop (fuel : nat) : M globals unit :=
  match fuel with
  | O => stuck out_of_fuel
  | S fuel' =>
      bufs ← gets g_tls;
      match bufs !! t with
      | None => mret tt
      | Some _ => sg_destroy_globals;; destroy_main_loop fuel'
      end
  end.

(** The storage is gone after one round. *)
Definition sg_destroy_main_globals : M globals unit := destroy_main_loop 2.

(** tools.c: the names under which programs start and stop the library. *)
Definition sg_init (ignore_init_errors : bool) : M globals sg_error := sg_comp_init ignore_init_errors.
Definition sg_shutdown : M globals sg_error := sg_comp_destroy.
End globals_.

(** * The component table of a Linux build *)

Definition vectors (n : Z) : Z := 8 * n.

(** The macros that define [sg_<comp>_init]: DEFAULT_INIT_COMP for a structure of its own, the others for
    [nvect] vectors, with an initialisation that only keeps the id or one of the component's own, which
    delivers [rc]. *)
Definition DEFAULT_INIT_COMP (init_fn : init_fn_t) (size : Z) (locks : list string) : comp_init :=
  mk_comp_init init_fn size locks true.

Definition EASY_COMP_SETUP (nvect : Z) (locks : list string) : comp_init :=
  mk_comp_init (InitOther SG_ERROR_NONE) (vectors nvect) locks true.

Definition EXTENDED_COMP_SETUP (rc : sg_error) (nvect : Z) (locks : list string) : comp_init :=
  mk_comp_init (InitOther rc) (vectors nvect) locks true.

(** [user_locks]: the user component requires the utmp mutex in builds that read
    the utmp database. *)
Definition comp_info : list comp_init :=
  [ DEFAULT_INIT_COMP InitError 4104 [];         (* error *)
    EASY_COMP_SETUP 3 [];                        (* cpu *)
    EXTENDED_COMP_SETUP SG_ERROR_NONE 4 [];      (* disk *)
    EASY_COMP_SETUP 1 [];                        (* load *)
    EXTENDED_COMP_SETUP SG_ERROR_NONE 1 [];      (* mem *)
    EXTENDED_COMP_SETUP SG_ERROR_NONE 3 [];      (* network *)
    EASY_COMP_SETUP 1 [];                        (* os *)
    EASY_COMP_SETUP 2 [];                        (* page *)
    EXTENDED_COMP_SETUP SG_ERROR_NONE 2 [];      (* process *)
    EXTENDED_COMP_SETUP SG_ERROR_NONE 1 [];      (* swap *)
    EASY_COMP_SETUP 1 ["utmp"] ].                (* user *)

Definition globals_start : globals :=
  mk_globals false MUnlocked [] 0 0 (replicate 11 0) (replicate 11 SG_ERROR_NONE) 0 ∅
    error_glob_zero [] [].
