(* ===== verification/ToolsSys.v ===== *)
(** src/src/libstatgrab/tools.c for Solaris: the names of the disks. The kernel
    statistics call a disk by its driver and instance (BSD style), the users by its
    entry in /dev/dsk (SVR style); [build_mapping] looks up the one for the other through
    the device tree and the links in the directory. *)

From S2P Require Import Prelude Types CLib Errors Tools Vector Items Stdio ToolsExt Globals.

Definition MAXPATHLEN : nat := 1024.
Definition BIG_ENOUGH : nat := 512.

(** [strlcpy] of the first text and [strlcat] of the others into a buffer. *)
Definition joined (size : nat) (texts : list string) : string :=
  foldl (fun s t => vsnprintf size (s +:+ t)) "" texts.

(** An entry of a directory: what [stat] says about it ([None] when it fails, else whether
    it is a block device), and where it links to. *)
Record dsk_entry := mk_dsk_entry { d_name : string; d_stat : option bool; d_link : option string }.

(** A node of the device tree: the instance, the path and the first minor node, if it has
    one. *)
Record di_node := mk_di_node { di_instance : Z; di_devfs_path : string; di_minor : option string }.

(** An entry of the kstat chain. *)
Record disk_kstat := mk_disk_kstat {
  dk_class : string; dk_is_io : bool; dk_module : string; dk_readable : bool; dk_name : string }.

(** The machine: the two directories, the device tree by driver, the chain; and what an
    uninitialised [struct stat] happens to say. *)
Record solaris := mk_solaris {
  so_osa_dsk : option (list dsk_entry);
  so_dsk : list dsk_entry + Z;
  so_tree : option (string -> list di_node);
  so_chain : option (list disk_kstat);
  so_stbuf : bool }.

Section mapping.
Context {mem : Memory} (so : solaris).

(** The loop over the directory. A failing [stat] leaves what it said about the entry
    before; [readlink] of an entry that is no link returns -1, and the terminator
    goes in front of the buffer. *)
Fixpoint read_dir_loop (temp_name : string) (entries : list dsk_entry) (stbuf : bool) : M env char_ptr :=
  match entries with
  | [] => mret CNull
  | dp :: entries' =>
      let stbuf := default stbuf (d_stat dp) in
      if stbuf then
        match d_link dp with
        | None => stuck out_of_bounds
        | Some target =>
            let file_name := String.substring 0 (MAXPATHLEN - 1) target in
            if strcmp file_name temp_name =? 0 then
              r ← sg_update_string junk CNull (Some (d_name dp));
              if decide (r.1 <> SG_ERROR_NONE) then mret CNull else mret r.2
            else read_dir_loop temp_name entries' stbuf
        end
      else read_dir_loop temp_name entries' stbuf
  end.

Definition read_dir (disk_path : string) : M env char_ptr :=
  let temp_name := vsnprintf MAXPATHLEN ("../.." +:+ disk_path) in
  match so_osa_dsk so, so_dsk so with
  | Some entries, _ => read_dir_loop temp_name entries (so_stbuf so)
  | None, inl entries => read_dir_loop temp_name entries (so_stbuf so)
  | None, inr err =>
      modify (set_errno err);;
      SET_ERROR_WITH_ERRNO SG_ERROR_OPENDIR
        (Some ("open_dir(dsk_dir = /dev/dsk) in read_dir(disk_path = " +:+ disk_path +:+ ")"));;
      mret CNull
  end.

Fixpoint alias_nodes (alias : string) (nodes : list di_node) (mapping : mapping_t) : M env mapping_t :=
  match nodes with
  | [] => mret mapping
  | node :: nodes' =>
      match di_minor node with
      | None => alias_nodes alias nodes' mapping
      | Some minor_name =>
          let tmpnode := vsnprintf (MAXPATHLEN + 1) (alias +:+ print_signed (di_instance node)) in
          let file := joined MAXPATHLEN ["/devices"; di_devfs_path node; ":"; minor_name] in
          value ← read_dir file;
          match value with
          | CNull => alias_nodes alias nodes' mapping
          | _ =>
              svr ← read_ptr value;
              mapping ← add_mapping junk mapping tmpnode svr;
              alias_nodes alias nodes' mapping
          end
      end
  end.

(** [None] is the result -1. *)
Definition get_alias (alias : string) (mapping : mapping_t) : M env (option mapping_t) :=
  match so_tree so with
  | None => mret None
  | Some tree => m ← alias_nodes alias (tree alias) mapping; mret (Some m)
  end.

(** The name up to the first digit. *)
Definition driver_name (ks_name : string) : string :=
  (take_while (fun c => negb (isdigit c)) None (String.substring 0 (MAXPATHLEN - 1) ks_name)).1.

(** The loop that looks for the driver from index [x] on: [None] is the return of -1, else
    whether it was found. *)
Fixpoint driver_known (drivers : list string) (x : nat) (device_name : string) : option bool :=
  match drivers with
  | [] => Some false
  | d :: drivers' =>
      if (BIG_ENOUGH <=? x)%nat then None
      else if strncmp d device_name MAXPATHLEN =? 0 then Some true
      else driver_known drivers' (S x) device_name
  end.

(** [driver_list] holds [list_entries] names and has room for BIG_ENOUGH. *)
Fixpoint mapping_loop (chain : list disk_kstat) (driver_list : list string) (mapping : mapping_t)
    : M env (Z * mapping_t) :=
  match chain with
  | [] => mret (0, mapping)
  | ksp :: chain' =>
      if negb (strcmp (dk_class ksp) "disk" =? 0) then mapping_loop chain' driver_list mapping
      else if negb (dk_is_io ksp) then mapping_loop chain' driver_list mapping
      else if strcmp (dk_module ksp) "md" =? 0 then mapping_loop chain' driver_list mapping
      else if negb (dk_readable ksp) then mapping_loop chain' driver_list mapping
      else
        let device_name := driver_name (dk_name ksp) in
        match driver_known driver_list 0 device_name with
        | None => mret (-1, mapping)
        | Some true => mapping_loop chain' driver_list mapping
        | Some false =>
            r ← get_alias device_name mapping;
            match r with
            | None => mret (-1, mapping)
            | Some mapping =>
                if (length driver_list <? BIG_ENOUGH)%nat
                then mapping_loop chain' (driver_list ++ [device_name]) mapping
                else stuck out_of_bounds
            end
        end
  end.

Definition build_mapping (mapping : mapping_t) : M env (Z * mapping_t) :=
  match so_chain so with
  | None => mret (-1, mapping)
  | Some chain => mapping_loop chain [] mapping
  end.

(** The start of the library on Solaris, for thread [t]: the components, then the names of
    the disks, whether or not either succeeds. The state is that of globals.c and the
    environment of the components. *)
Definition sg_init_solaris (t : nat) (comps : list comp_init) (ignore_init_errors : bool) (mapping : mapping_t)
    : M (globals * env) (sg_error * mapping_t) :=
  rc ← zoom fst (fun g s => (g, s.2)) (sg_comp_init t comps ignore_init_errors);
  m ← zoom snd (fun e s => (s.1, e)) (build_mapping mapping);
  mret (rc, m.2).
End mapping.
