(* ===== verification/Disk.v ===== *)
(** src/src/libstatgrab/disk_stats.c: the list of valid file system types, the
    file system statistics and the disk transfer counters, for Linux. *)

From S2P Require Import Prelude Types CLib Errors Tools Vector VectorSpec VectorDiff Items Comp Stdio ToolsExt Fill.

Local Open Scope sg_scope.

(** * Valid file system types *)

(** An entry of the array: NULL or a name. *)
Definition name_of (p : char_ptr) : option string :=
  match p with CStr s => Some s | _ => None end.

Definition cmp_valid_fs (a b : option string) : Z :=
  match a, b with
  | Some x, Some y => strcasecmp x y
  | Some _, None => -1
  | None, Some _ => 1
  | None, None => 0
  end.

Definition cmp_fs_ptr (a b : char_ptr) : Z := cmp_valid_fs (name_of a) (name_of b).

(** [valid_file_systems] (NULL or the entries before the terminating NULL) and
    [num_valid_file_systems]. *)
Record valid_fs := mk_valid_fs { vf_list : option (list char_ptr); vf_num : nat }.

Definition VALID_FS_TYPES : list string :=
  ["adfs"; "affs"; "befs"; "bfs"; "btrfs"; "cifs"; "efs"; "ext2"; "ext3"; "ext4"; "vxfs";
   "hfs"; "hfsplus"; "hpfs"; "jffs"; "jffs2"; "jfs"; "minix"; "msdos"; "nfs"; "ntfs"; "ocfs";
   "qnx4"; "ramfs"; "rootfs"; "reiserfs"; "sysv"; "tmpfs"; "v7"; "udf"; "ufs"; "umsdos";
   "vfat"; "xfs"].

(** The second group of [^([[:alnum:]]+)?[[:blank:]]+([[:alnum:]]+)]. *)
Definition fs_line_name (line : string) : option string :=
  let r := (take_while isalnum None line).2 in
  match take_while isblank None r with
  | (EmptyString, _) => None
  | (_, r2) =>
      match take_while isalnum None r2 with
      | (EmptyString, _) => None
      | (name, _) => Some name
      end
  end.

Section disk.
Context {mem : Memory} {sys : System}.

(** The loop over /proc/filesystems: [names] are the entries stored so far, [num]
    is [num_valid_file_systems]. *)
Fixpoint proc_fs_loop (ls : list string) (names : list char_ptr) (num : nat)
    : M env (sg_error * list char_ptr * nat) :=
  match ls with
  | [] => mret (SG_ERROR_NONE, names, num)
  | line :: ls' =>
      match fs_line_name line with
      | None => proc_fs_loop ls' names num
      | Some fs_name =>
          let full := (num <=? length names)%nat in
          a ← (if full then alloc_request else mret AStay);
          match a with
          | AFail =>
              SET_ERROR_WITH_ERRNO SG_ERROR_MALLOC
                (Some ("sg_realloc: couldn't realloc(to " +:+
                       pretty (8 * (num + 16 + 1))%nat +:+ " bytes)"));;
              rc ← sg_get_error; mret (rc, names, num)
          | _ =>
              let num := if full then (num + 16)%nat else num in
              r ← sg_update_string junk CNull (Some fs_name);
              if decide (r.1 <> SG_ERROR_NONE) then mret (r.1, names, num)
              else proc_fs_loop ls' (names ++ [r.2]) num
          end
      end
  end.

(** The entries [int_valid_fs[0 .. n-1]]. *)
Fixpoint builtin_fs_loop (i n : nat) (names : list char_ptr) : M env (sg_error * list char_ptr) :=
  match n with
  | O => mret (SG_ERROR_NONE, names)
  | S n' =>
      match VALID_FS_TYPES !! i with
      | None => stuck out_of_bounds
      | Some name =>
          r ← sg_update_string junk CNull (Some name);
          if decide (r.1 <> SG_ERROR_NONE) then mret (r.1, names)
          else builtin_fs_loop (S i) n' (names ++ [r.2])
      end
  end.

Definition init_valid_fs_types (vf : valid_fs) : M env (sg_error * valid_fs) :=
  f ← fopen "/proc/filesystems";
  match f with
  | Some c =>
      (* the result of calloc is used without a test *)
      a ← alloc_request;
      match a with
      | AFail => stuck null_deref
      | _ =>
          r ← proc_fs_loop (file_lines 4096 c) [] 15;
          let '(rc, names, num) := (r : sg_error * list char_ptr * nat) in
          if decide (rc <> SG_ERROR_NONE) then mret (rc, mk_valid_fs None 0)
          else
            let i := length names in
            let sorted := qsort cmp_fs_ptr (names ++ replicate (num - i) CNull) in
            if (i <? num)%nat then
              _ ← alloc_request;
              mret (SG_ERROR_NONE, mk_valid_fs (Some (take i sorted)) i)
            else mret (SG_ERROR_NONE, mk_valid_fs (Some sorted) num)
      end
  | None =>
      let n := vf_num vf in
      a ← alloc_request;
      match a with
      | AFail =>
          rc ← RETURN_WITH_SET_ERROR_WITH_ERRNO SG_ERROR_MALLOC (Some "init_valid_fs_types");
          mret (rc, mk_valid_fs None n)
      | _ =>
          r ← builtin_fs_loop 0 n [];
          let '(rc, names) := (r : sg_error * list char_ptr) in
          if decide (rc <> SG_ERROR_NONE) then
            mret (rc, mk_valid_fs (Some (names ++ replicate (n - length names) CNull)) n)
          else mret (SG_ERROR_NONE, mk_valid_fs (Some (qsort cmp_fs_ptr names)) n)
      end
  end.

Definition sg_get_valid_filesystems (vf : valid_fs) : option (list char_ptr) * nat :=
  (vf_list vf, vf_num vf).

(** [while(tmp--) sg_update_string(&new_valid_fs[tmp], valid_fs[tmp])]: the names
    are stored from the last to the first. *)
Fixpoint copy_names (valid_fs : list string) : M env (sg_error * list char_ptr) :=
  match valid_fs with
  | [] => mret (SG_ERROR_NONE, [])
  | n :: ns =>
      r ← copy_names ns;
      if decide (r.1 <> SG_ERROR_NONE) then mret r
      else
        u ← sg_update_string junk CNull (Some n);
        if decide (u.1 <> SG_ERROR_NONE) then
          (* the stored names are released *)
          mret (u.1, [])
        else mret (SG_ERROR_NONE, u.2 :: r.2)
  end.

Fixpoint free_names (l : list char_ptr) : M env unit :=
  match l with
  | [] => mret tt
  | p :: l' => _ ← free_ptr p; free_names l'
  end.

(** [None]: a NULL argument. *)
Definition sg_set_valid_filesystems (arg : option (list string)) (vf : valid_fs)
    : M env (sg_error * valid_fs) :=
  new ← match arg with
        | Some (n :: ns) =>
            a ← alloc_request;
            match a with
            | AFail =>
                rc ← RETURN_WITH_SET_ERROR_WITH_ERRNO SG_ERROR_MALLOC (Some "set_valid_filesystems");
                mret (inl rc)
            | _ =>
                r ← copy_names (n :: ns);
                if decide (r.1 <> SG_ERROR_NONE) then mret (inl r.1)
                else mret (inr (mk_valid_fs (Some (qsort cmp_fs_ptr r.2)) (length r.2)))
            end
        | _ => mret (inr (mk_valid_fs None 0))
        end;
  match (new : sg_error + valid_fs) with
  | inl rc => mret (rc, vf)
  | inr vf' =>
      match vf_list vf with
      | Some old => free_names (take (vf_num vf) old)
      | None => mret tt
      end;;
      mret (SG_ERROR_NONE, vf')
  end.

Definition is_valid_fs_type (vf : valid_fs) (type : string) : M env bool :=
  match vf_list vf with
  | None => if decide (vf_num vf = O) then mret false else stuck null_deref
  | Some l =>
      mret (bool_decide (is_Some (bsearch (fun p => cmp_valid_fs (Some type) (name_of p))
                                    (take (vf_num vf) l))))
  end.

(** The list goes, its length stays. *)
Definition sg_disk_destroy_comp (vf : valid_fs) : M env valid_fs :=
  match vf_list vf with
  | None => mret vf
  | Some l => free_names (take (vf_num vf) l);; mret (mk_valid_fs None (vf_num vf))
  end.

(** * File systems *)

(** An entry of the mount table, as [getmntent_r] delivers it. *)
Record mntent := mk_mntent { mnt_fsname : string; mnt_type : string; mnt_dir : string }.

(** What the system knows about paths: [lstat] finds a symbolic link, [realpath],
    and [statvfs] of a mount point. *)
Record statvfs_buf := mk_statvfs {
  f_files : Z; f_ffree : Z; f_favail : Z; f_bsize : Z; f_frsize : Z;
  f_blocks : Z; f_bfree : Z; f_bavail : Z }.

Record paths := mk_paths {
  p_is_link : string -> bool;
  p_realpath : string -> option string;
  p_statvfs : string -> option statvfs_buf }.

Context (ps : paths).

(** The [while] loop that resolves the device; realpath delivers a path without
    links, so a second round ends it. *)
Fixpoint resolve (fuel : nat) (canonical : char_ptr) : M env (sg_error * char_ptr) :=
  match fuel with
  | O => stuck out_of_fuel
  | S fuel' =>
      s ← read_ptr canonical;
      if negb (p_is_link ps s) then mret (SG_ERROR_NONE, canonical)
      else
        match p_realpath ps s with
        | None => mret (SG_ERROR_NONE, canonical)
        | Some lnktgt =>
            r ← sg_lupdate_string junk canonical (Some (c_str lnktgt)) 4097;
            if decide (r.1 <> SG_ERROR_NONE) then mret r else resolve fuel' r.2
        end
  end.

(** The body of the loop of sg_get_fs_list_int: SG_FS_DEVNAME, SG_FS_FSTYPENAME
    (which can be NULL on AIX) and SG_FS_MOUNTP. *)
Definition fill_fs (devname : string) (fstypename : option string) (mountp : string) (it : item)
    : M env (sg_error * item) :=
  let d := as_fs it in
  n ← sg_update_string junk (fs_device_name d) (Some devname);
  let d := fs_set_names n.2 (fs_device_canonical d) (fs_fs_type d) (fs_mnt_point d) d in
  if decide (n.1 <> SG_ERROR_NONE) then mret (n.1, IFs d) else
  c ← sg_update_string junk (fs_device_canonical d) (Some devname);
  let d := fs_set_names (fs_device_name d) c.2 (fs_fs_type d) (fs_mnt_point d) d in
  if decide (c.1 <> SG_ERROR_NONE) then mret (c.1, IFs d) else
  t ← sg_update_string junk (fs_fs_type d) fstypename;
  let d := fs_set_names (fs_device_name d) (fs_device_canonical d) t.2 (fs_mnt_point d) d in
  if decide (t.1 <> SG_ERROR_NONE) then mret (t.1, IFs d) else
  p ← sg_update_string junk (fs_mnt_point d) (Some mountp);
  let d := fs_set_names (fs_device_name d) (fs_device_canonical d) (fs_fs_type d) p.2 d in
  if decide (p.1 <> SG_ERROR_NONE) then mret (p.1, IFs d) else
  r ← resolve 3 (fs_device_canonical d);
  let d := fs_set_names (fs_device_name d) r.2 (fs_fs_type d) (fs_mnt_point d) d in
  if decide (r.1 <> SG_ERROR_NONE) then mret (r.1, IFs d) else
  modify (set_errno 0);;
  mret (SG_ERROR_NONE,
    IFs (mk_fs_stats (fs_device_name d) (fs_device_canonical d) (fs_fs_type d) (fs_mnt_point d)
           0 (fs_size d) (fs_used d) (fs_free d) (fs_avail d) (fs_total_inodes d)
           (fs_used_inodes d) (fs_free_inodes d) (fs_avail_inodes d) (fs_io_size d)
           (fs_block_size d) (fs_total_blocks d) (fs_free_blocks d) (fs_used_blocks d)
           (fs_avail_blocks d) sys_time)).

Definition fill_mount (m : mntent) : item -> M env (sg_error * item) :=
  fill_fs (mnt_fsname m) (Some (mnt_type m)) (mnt_dir m).

(** [mounts]: the entries of the first mount table that can be opened, [None] when
    there is none. *)
Definition sg_get_fs_list_int (mounts : option (list mntent)) (v : vptr)
    : M world (sg_error * vptr) :=
  match mounts with
  | None =>
      rc ← in_env (RETURN_WITH_SET_ERROR_WITH_ERRNO SG_ERROR_SETMNTENT None); mret (rc, v)
  | Some ms =>
      in_env (modify (set_errno 0));;
      r ← append_loop Kfs fill_mount ms 0 v;
      if decide (r.1 <> SG_ERROR_NONE) then mret r
      else
        errno ← in_env (gets e_errno);
        if negb (errno =? 0) then
          rc ← in_env (RETURN_WITH_SET_ERROR_WITH_ERRNO SG_ERROR_DISKINFO (Some "getmntent"));
          mret (rc, r.2)
        else mret r
  end.

(** The values derived from [statvfs]. *)
Definition fs_fill (b : statvfs_buf) (d : sg_fs_stats) : sg_fs_stats :=
  let used_inodes := f_files b -u f_ffree b in
  let used_blocks := f_blocks b -u f_bfree b in
  let bs := f_frsize b in
  mk_fs_stats (fs_device_name d) (fs_device_canonical d) (fs_fs_type d) (fs_mnt_point d)
    (fs_device_type d) (bs *u f_blocks b) (bs *u used_blocks) (bs *u f_bfree b)
    (bs *u f_bavail b) (f_files b) used_inodes (f_ffree b) (f_favail b) (f_bsize b) bs
    (f_blocks b) (f_bfree b) used_blocks (f_bavail b) sys_time.

Definition sg_fill_fs_stat_int (d : sg_fs_stats) : M env (sg_error * sg_fs_stats) :=
  mnt ← read_ptr (fs_mnt_point d);
  match p_statvfs ps mnt with
  | None =>
      dev ← read_ptr (fs_device_name d);
      ty ← read_ptr (fs_fs_type d);
      rc ← RETURN_WITH_SET_ERROR_WITH_ERRNO SG_ERROR_DISKINFO
             (Some ("statvfs64 for mnt_point at " +:+ mnt +:+ " (device: " +:+ dev +:+
                    ", fs_type: " +:+ ty +:+ ")"));
      mret (rc, d)
  | Some b => mret (SG_ERROR_NONE, fs_fill b d)
  end.

(** The loop from the last mount to the first: the set of entries to report and
    their number. *)
Fixpoint select_loop (vf : valid_fs) (tmp : positive) (i : nat) (valid : list Z) (n : nat)
    : M world (list Z * nat) :=
  match i with
  | O => mret (valid, n)
  | S i' =>
      it ← read_item tmp i';
      ty ← in_env (read_ptr (fs_fs_type (as_fs it)));
      ok ← in_env (is_valid_fs_type vf ty);
      if negb ok then select_loop vf tmp i' valid n
      else
        r ← in_env (sg_fill_fs_stat_int (as_fs it));
        write_item tmp i' (IFs r.2);;
        if decide (r.1 <> SG_ERROR_NONE) then select_loop vf tmp i' valid n
        else select_loop vf tmp i' (BIT_SET valid i') (S n)
  end.

(** [while( 0 == BIT_ISSET(vect,bit) ) ++(bit)], which does not look at the
    size of the array. *)
Fixpoint BIT_SCAN_FWD (fuel : nat) (vect : list Z) (bit : nat) : M world nat :=
  match fuel with
  | O => stuck out_of_fuel
  | S fuel' =>
      if (length vect <=? bit / 32)%nat then stuck out_of_bounds
      else if BIT_ISSET vect bit then mret bit
      else BIT_SCAN_FWD fuel' vect (S bit)
  end.

Fixpoint report_loop (tmp items : positive) (count : nat) (valid : list Z) (i j n : nat)
    : M world nat :=
  match n with
  | O => mret j
  | S n' =>
      i' ← BIT_SCAN_FWD (S (32 * length valid)) valid i;
      if (count <=? i')%nat then mret j
      else
        s ← read_item tmp i';
        d ← read_item items j;
        r ← in_env (sg_fs_stats_item_copy (as_fs s) (as_fs d));
        write_item items j (IFs r.2);;
        report_loop tmp items count valid (S i') (S j) n'
  end.

Definition sg_get_fs_stats_int (vf : valid_fs) (mounts : option (list mntent)) (v : vptr)
    : M world (sg_error * vptr) :=
  r ← sg_get_fs_list_int mounts None;
  let '(err, tmp) := (r : sg_error * vptr) in
  count ← VECTOR_ITEM_COUNT tmp;
  let count := Z.to_nat count in
  sel ← match tmp with
        | Some t =>
            if decide (err = SG_ERROR_NONE)
            then select_loop vf t count (replicate (count / 32 + 1) 0) 0
            else mret (replicate (count / 32 + 1) 0, O)
        | None => mret (replicate (count / 32 + 1) 0, O)
        end;
  let '(valid, n) := (sel : list Z * nat) in
  u ← VECTOR_UPDATE v (Z.of_nat n) (bool_decide (n = O)) (VECTOR_INIT_INFO Kfs);
  match u with
  | (p, Some rc) => mret (rc, p)
  | (p, None) =>
      j ← match p, tmp with
          | Some items, Some t => report_loop t items count valid 0 0 n
          | _, _ => if decide (n = O) then mret O else stuck null_deref
          end;
      assert_ (bool_decide (j = n));;
      sg_vector_free tmp;;
      mret (err, p)
  end.

Definition sg_fs_compare_device_name (a b : sg_fs_stats) : M env Z :=
  strcmp_field (fs_device_name a) (fs_device_name b).
Definition sg_fs_compare_mnt_point (a b : sg_fs_stats) : M env Z :=
  strcmp_field (fs_mnt_point a) (fs_mnt_point b).

(** * Disk transfers *)

Definition diskstats_format : string := " %*d %*d %99s %*d %*d %llu %*d %*d %*d %llu".

(** The name and the sectors read and written of a line of /proc/diskstats. *)
Definition diskstats_line (line : string) : option (string * Z * Z) :=
  let '(nr, vals) := sscanf line diskstats_format in
  if negb (nr =? 3) then None
  else Some (arg_str EmptyString vals 0, arg_int 0 vals 1, arg_int 0 vals 2).

Definition fill_disk_io (e : string * Z * Z) (it : item) : M env (sg_error * item) :=
  let '(name, rsect, wsect) := e in
  let d := as_disk_io it in
  r ← sg_update_string junk (dio_disk_name d) (Some name);
  let d := dio_set_name r.2 d in
  if decide (r.1 <> SG_ERROR_NONE) then rc ← sg_get_error; mret (rc, IDiskIo d)
  else
    mret (SG_ERROR_NONE,
      IDiskIo (mk_disk_io_stats (dio_disk_name d) (rsect *u 512) (wsect *u 512) sys_time)).

Definition sg_get_disk_io_stats_int (v : vptr) : M world (sg_error * vptr) :=
  match v with
  | None =>
      rc ← in_env (RETURN_WITH_SET_ERROR SG_ERROR_INVALID_ARGUMENT
                     (Some "disk_io_stats_vector_ptr"));
      mret (rc, None)
  | Some _ =>
      f ← in_env (fopen "/proc/diskstats");
      match f with
      | None =>
          rc ← in_env (RETURN_WITH_SET_ERROR_WITH_ERRNO SG_ERROR_OPEN (Some "/proc/diskstats"));
          mret (rc, v)
      | Some c => append_loop Kdisk_io fill_disk_io (omap diskstats_line (file_lines 256 c)) 0 v
      end
  end.

Definition sg_disk_io_compare_name (a b : sg_disk_io_stats) : M env Z :=
  strcmp_field (dio_disk_name a) (dio_disk_name b).

Definition sg_disk_io_compare_traffic (a b : sg_disk_io_stats) : Z :=
  let tot_a := dio_read_bytes a +u dio_write_bytes a in
  let tot_b := dio_read_bytes b +u dio_write_bytes b in
  if tot_a =? tot_b then 0 else if tot_b <? tot_a then -1 else 1.

(** * Access functions *)

Definition SG_FS_STAT_NOW_IDX : nat := 0.
Definition SG_FS_STAT_DIFF_IDX : nat := 1.
Definition SG_DISK_IO_NOW_IDX : nat := 2.
Definition SG_DISK_IO_DIFF_IDX : nat := 3.

Definition sg_get_fs_stats (vf : valid_fs) (mounts : option (list mntent)) : M comp (vptr * Z) :=
  MULTI_COMP_ACCESS Kfs SG_FS_STAT_NOW_IDX (sg_get_fs_stats_int vf mounts).
Definition sg_get_fs_stats_diff (vf : valid_fs) (mounts : option (list mntent))
    : M comp (vptr * Z) :=
  MULTI_COMP_DIFF Kfs SG_FS_STAT_DIFF_IDX SG_FS_STAT_NOW_IDX (sg_get_fs_stats vf mounts).
Definition sg_get_disk_io_stats : M comp (vptr * Z) :=
  MULTI_COMP_ACCESS Kdisk_io SG_DISK_IO_NOW_IDX sg_get_disk_io_stats_int.
Definition sg_get_disk_io_stats_diff : M comp (vptr * Z) :=
  MULTI_COMP_DIFF Kdisk_io SG_DISK_IO_DIFF_IDX SG_DISK_IO_NOW_IDX sg_get_disk_io_stats.
End disk.

(** * Facts *)

Section facts.
Context {mem : Memory} {sys : System}.

(** The entry of the result for a line of /proc/diskstats. *)
Definition disk_io_item (e : string * Z * Z) : item :=
  let '(name, rsect, wsect) := e in
  IDiskIo (mk_disk_io_stats (CStr name) (rsect *u 512) (wsect *u 512) sys_time).

Definition diskstats_entries (c : string) : list (string * Z * Z) :=
  omap diskstats_line (file_lines 256 c).

Lemma fill_disk_io_ok e :
  no_nul e.1.1 = true -> fills_item Kdisk_io (fill_disk_io e) (disk_io_item e).
Proof.
  destruct e as [[name r] w]. intros Hn. split; [done|].
  intros it Q e Hit Hna HQ. destruct it as [| | | | | | | |d| | | | | |]; try done.
  apply wp_bind, wp_sg_update_string; [done | done | |intros Ha; by apply Hna in Ha].
  intros e' He'. cbn [fst snd]. rewrite decide_False by auto. by apply wp_ret, HQ.
Qed.

Lemma diskstats_line_text line e :
  all_chars not_nul line = true -> diskstats_line line = Some e -> no_nul e.1.1 = true.
Proof.
  unfold diskstats_line. destruct (sscanf line diskstats_format) as [nr vals] eqn:E.
  intros Hl. destruct (negb (nr =? 3)); [done|]. intros [= <-]. simpl.
  apply no_nul_chars. by eapply sscanf_text.
Qed.

(** The disk counters are those of /proc/diskstats, line by line. *)
Lemma disk_io_fills c :
  sys_file "/proc/diskstats" = Some c -> all_chars not_nul c = true ->
  Z.of_nat (length (diskstats_entries c)) <= 2 ^ 31 ->
  fills Kdisk_io sg_get_disk_io_stats_int (disk_io_item <$> diskstats_entries c).
Proof.
  intros Hf Hc Hlen l v Q w Hh Hl Hwf Hu Hi Hna HQ. unfold sg_get_disk_io_stats_int.
  apply wp_bind. unfold fopen. rewrite Hf. apply wp_in_env, wp_ret.
  eapply (wp_append_loop Kdisk_io eq_refl fill_disk_io disk_io_item)
    with (l0 := l) (w0 := w) (v := v) (n := O); [| done | | done | done | done | done | done |].
  - intros e He. apply fill_disk_io_ok.
    apply list_elem_of_omap in He as (line & Hline & Hd).
    eapply diskstats_line_text, Hd. by eapply file_lines_chars.
  - destruct w. by apply replaced_refl.
  - intros l' v' w' Hw' Hi' Hc' Hr. apply (HQ l' v'); try done.
    rewrite Hc'. unfold contents. by rewrite Hu.
Qed.
End facts.
