(* ===== verification/Network.v ===== *)
(** src/src/libstatgrab/network_stats.c for Linux: the transfer counters of
    /proc/net/dev and the properties of the interfaces. *)

From S2P Require Import Prelude Types CLib Errors Tools Vector VectorSpec VectorDiff Items Comp Stdio ToolsExt Fill.

Local Open Scope sg_scope.

(** * The regular expression network_io_rx *)

(** [[[:space:]]*([^:]+):] at the beginning of a line: the name and the text behind
    the colon. The blanks are skipped as far as a character remains for the name. *)
Definition rx_name (line : string) : option (string * string) :=
  let '(blanks, r) := take_while isspace None line in
  let '(name, r2) := take_while (fun c => negb (bool_decide (c = ":"%char))) None r in
  match r2 with
  | String ":" r3 =>
      match name with
      | EmptyString =>
          match String.length blanks with
          | O => None
          | S n => Some (String.substring n 1 blanks, r3)
          end
      | _ => Some (name, r3)
      end
  | _ => None
  end.

(** [n] numbers [[0-9]+], each after [[[:space:]]*] (the first) or [[[:space:]]+]. *)
Fixpoint rx_numbers (first : bool) (n : nat) (s : string) : option (list string) :=
  match n with
  | O => Some []
  | S n' =>
      let '(blanks, r) := take_while isspace None s in
      let '(d, r2) := take_while isdigit None r in
      match first, blanks, d with
      | false, EmptyString, _ => None
      | _, _, EmptyString => None
      | _, _, _ => (d ::.) <$> rx_numbers false n' r2
      end
  end.

(** The groups of a match: the name, and the numbers by their position. *)
Definition network_io_rx (line : string) : option (string * list string) :=
  match rx_name line with
  | Some (name, r) => (name,.) <$> rx_numbers true 14 r
  | None => None
  end.

Section network.
Context {mem : Memory} {sys : System}.

(** ** Transfer counters *)

(** The value [atoll] reads at the [i]-th number. *)
Definition number_at (nums : list string) (i : nat) : Z :=
  u64 (libc_atoll (default EmptyString (nums !! i))).

Definition fill_network_io (e : string * list string) (it : item) : M env (sg_error * item) :=
  let '(name, nums) := e in
  let d := as_network_io it in
  match nio_interface_name d with
  | CNull => mret tt
  | p => _ ← free_ptr p; mret tt
  end;;
  p ← sg_get_string_match name 0 (String.length name);
  mret (SG_ERROR_NONE,
    INetIo (mk_network_io_stats p (number_at nums 8) (number_at nums 0) (number_at nums 1)
              (number_at nums 9) (number_at nums 2) (number_at nums 10) (number_at nums 13)
              sys_time)).

(** The lines behind the two title lines; [None] when they are missing. *)
Definition net_dev_lines (size : nat) (c : string) : option (list string) :=
  match file_lines size c with
  | _ :: _ :: ls => Some ls
  | _ => None
  end.

Definition sg_get_network_io_stats_int (v : vptr) : M world (sg_error * vptr) :=
  f ← in_env (fopen "/proc/net/dev");
  match f with
  | None =>
      rc ← in_env (RETURN_WITH_SET_ERROR_WITH_ERRNO SG_ERROR_OPEN (Some "/proc/net/dev"));
      mret (rc, v)
  | Some c =>
      match net_dev_lines 1024 c with
      | None =>
          rc ← in_env (RETURN_WITH_SET_ERROR_WITH_ERRNO SG_ERROR_PARSE (Some "/proc/net/dev"));
          mret (rc, v)
      | Some ls => append_loop Knetwork_io fill_network_io (omap network_io_rx ls) 0 v
      end
  end.

Definition sg_network_io_compare_name (a b : sg_network_io_stats) : M env Z :=
  strcmp_field (nio_interface_name a) (nio_interface_name b).

(** ** Interface properties *)

Inductive duplex_t := DUPLEX_HALF | DUPLEX_FULL | DUPLEX_OTHER.

(** The ioctls: SIOCGIFFLAGS (whether IFF_UP is set; [None] on failure) and
    SIOCETHTOOL (speed and duplex). *)
Record ifs := mk_ifs {
  if_flags : string -> option bool;
  if_ethtool : string -> option (Z * duplex_t) }.

Context (io : ifs).

(** [strchr(line, ':')] and skipping the white space before the name. *)
Definition iface_name (line : string) : option string :=
  let '(n, r) := take_while (fun c => negb (bool_decide (c = ":"%char))) None line in
  match r with
  | EmptyString => None
  | _ => Some (skip_white n)
  end.

(** A line that names an interface the kernel knows: its name and IFF_UP. The
    name is cut to the size of [ifr_name]. *)
Definition iface_line (line : string) : option (string * bool) :=
  match iface_name line with
  | None => None
  | Some name => (name,.) <$> if_flags io (String.substring 0 16 name)
  end.

(** [switch(ethcmd.speed)] of builds without [ethtool_cmd_speed]: no case ends in
    [break], so all assignments from the matching case to the default are made. *)
Definition ethtool_speed_switch (old speed : Z) : Z :=
  let cases := [10; 100; 1000; 2500; 10000] in
  let entry := match list_find (fun c => c = speed) cases with
               | Some (i, _) => i
               | None => length cases
               end in
  foldl (fun _ assigned => assigned) old (drop entry (cases ++ [0])).

Definition fill_network_iface (e : string * bool) (it : item) : M env (sg_error * item) :=
  let '(name, up) := e in
  let d := as_network_iface it in
  r ← sg_update_string junk (nif_interface_name d) (Some name);
  let d := nif_set_name r.2 d in
  if decide (r.1 <> SG_ERROR_NONE) then rc ← sg_get_error; mret (rc, INetIface d)
  else
    let up := if up then SG_IFACE_UP else SG_IFACE_DOWN in
    let '(speed, factor, duplex) :=
      match if_ethtool io (String.substring 0 16 name) with
      | Some (sp, dx) =>
          (sp, 1000000, match dx with
                        | DUPLEX_FULL => SG_IFACE_DUPLEX_FULL
                        | DUPLEX_HALF => SG_IFACE_DUPLEX_HALF
                        | DUPLEX_OTHER => SG_IFACE_DUPLEX_UNKNOWN
                        end)
      | None => (0, 0, SG_IFACE_DUPLEX_UNKNOWN)
      end in
    mret (SG_ERROR_NONE,
      INetIface (mk_network_iface_stats (nif_interface_name d) speed factor duplex up sys_time)).

Definition sg_get_network_iface_stats_int (socket_ok : bool) (v : vptr)
    : M world (sg_error * vptr) :=
  f ← in_env (fopen "/proc/net/dev");
  match f with
  | None =>
      rc ← in_env (RETURN_WITH_SET_ERROR_WITH_ERRNO SG_ERROR_OPEN (Some "/proc/net/dev"));
      mret (rc, v)
  | Some c =>
      if negb socket_ok then
        rc ← in_env (RETURN_WITH_SET_ERROR_WITH_ERRNO SG_ERROR_SOCKET None); mret (rc, v)
      else
        match net_dev_lines (Z.to_nat 8096) c with
        | None => rc ← in_env (RETURN_WITH_SET_ERROR SG_ERROR_PARSE None); mret (rc, v)
        | Some ls => append_loop Knetwork_iface fill_network_iface (omap iface_line ls) 0 v
        end
  end.

Definition sg_network_iface_compare_name (a b : sg_network_iface_stats) : M env Z :=
  strcmp_field (nif_interface_name a) (nif_interface_name b).

(** ** Access functions *)

Definition SG_NETWORK_IO_NOW_IDX : nat := 0.
Definition SG_NETWORK_IO_DIFF_IDX : nat := 1.
Definition SG_NETWORK_IFACE_IDX : nat := 2.

Definition sg_get_network_io_stats : M comp (vptr * Z) :=
  MULTI_COMP_ACCESS Knetwork_io SG_NETWORK_IO_NOW_IDX sg_get_network_io_stats_int.
Definition sg_get_network_io_stats_diff : M comp (vptr * Z) :=
  MULTI_COMP_DIFF Knetwork_io SG_NETWORK_IO_DIFF_IDX SG_NETWORK_IO_NOW_IDX
    sg_get_network_io_stats.
Definition sg_get_network_iface_stats (socket_ok : bool) : M comp (vptr * Z) :=
  MULTI_COMP_ACCESS Knetwork_iface SG_NETWORK_IFACE_IDX
    (sg_get_network_iface_stats_int socket_ok).
End network.
