(* ===== verification/NetworkSys.v ===== *)
(** src/src/libstatgrab/network_stats.c for the systems other than Linux: the
    transfer counters and the interface properties on the BSDs, AIX, HP-UX, Solaris
    and Windows. What the system calls deliver is an argument. *)

From S2P Require Import Prelude Types CLib Errors Tools Vector VectorSpec VectorDiff Items Comp Stdio ToolsExt Fill Single Network.

Local Open Scope sg_scope.

Section network_systems.
Context {mem : Memory} {sys : System}.

(** A call that fails with its errno; [code] and [arg] are what the caller reports. *)
Definition checked (r : unit + Z) (code : sg_error) (arg : option string) (v : vptr)
    (next : M world (sg_error * vptr)) : M world (sg_error * vptr) :=
  ok ← in_env (syscall r);
  match ok with
  | Some _ => next
  | None => rc ← in_env (RETURN_WITH_SET_ERROR_WITH_ERRNO code arg); mret (rc, v)
  end.

(** One of [malloc], [calloc] and [realloc] whose block plays no part below. *)
Definition allocated (code : M env sg_error) (v : vptr) (next : M world (sg_error * vptr))
    : M world (sg_error * vptr) :=
  a ← in_env alloc_request;
  match a with
  | AFail => rc ← in_env code; mret (rc, v)
  | _ => next
  end.

(** [!count] for the number of entries. *)
Definition is_zero {A} (l : list A) : bool := match l with [] => true | _ => false end.

(** ** Transfer counters *)

(** The counters of an interface. *)
Record if_counters := mk_if_counters {
  ic_name : string; ic_rx : Z; ic_tx : Z; ic_ipackets : Z; ic_opackets : Z;
  ic_ierrors : Z; ic_oerrors : Z; ic_collisions : Z }.

(** [sg_update_string] of the name and the assignments of the counters. *)
Definition fill_if_counters (c : if_counters) (it : item) : M env (sg_error * item) :=
  let d := as_network_io it in
  r ← sg_update_string junk (nio_interface_name d) (Some (ic_name c));
  if decide (r.1 <> SG_ERROR_NONE) then rc ← sg_get_error; mret (rc, INetIo (nio_set_name r.2 d))
  else
    mret (SG_ERROR_NONE,
      INetIo (mk_network_io_stats r.2 (ic_tx c) (ic_rx c) (ic_ipackets c) (ic_opackets c)
                (ic_ierrors c) (ic_oerrors c) (ic_collisions c) sys_time)).

(** ALLBSD: the addresses of [getifaddrs]; the flag tells AF_LINK. *)
Definition network_io_bsd (net : list (bool * if_counters) + Z) (v : vptr)
    : M world (sg_error * vptr) :=
  r ← in_env (syscall net);
  match r with
  | None => rc ← in_env (RETURN_WITH_SET_ERROR_WITH_ERRNO SG_ERROR_GETIFADDRS None); mret (rc, v)
  | Some net =>
      let links := snd <$> filter (fun e => e.1 = true) net in
      sized_fill Knetwork_io (length links) (is_zero links) fill_if_counters links v
  end.

(** AIX: [perfstat_netinterface]; [None] is its result -1. *)
Definition network_io_aix (statp : option (list if_counters)) (v : vptr)
    : M world (sg_error * vptr) :=
  allocated (RETURN_WITH_SET_ERROR SG_ERROR_MALLOC (Some "sg_get_network_io_stats")) v
    match statp with
    | None =>
        rc ← in_env (RETURN_WITH_SET_ERROR SG_ERROR_SYSCTLBYNAME (Some "perfstat_netinterface"));
        mret (rc, v)
    | Some l => sized_fill Knetwork_io (length l) (is_zero l) fill_if_counters l v
    end.

(** Solaris: an entry of the kstat chain; [ks_data] is [kstat_data_lookup]. *)
Record kstat := mk_kstat { ks_class : string; ks_name : string; ks_data : string -> option Z }.

(** An interface that counts bytes, and the value of [rbytes64]. *)
Definition kstat_counts (k : kstat) : option (kstat * Z) :=
  if strcmp (ks_class k) "net" =? 0 then (k,.) <$> ks_data k "rbytes64" else None.

(** A counter the kstat does not have keeps the value the item had. *)
Definition fill_kstat (e : kstat * Z) (it : item) : M env (sg_error * item) :=
  let '(k, rx) := e in
  let d := as_network_io it in
  r ← sg_update_string junk (nio_interface_name d) (Some (ks_name k));
  if decide (r.1 <> SG_ERROR_NONE) then rc ← sg_get_error; mret (rc, INetIo (nio_set_name r.2 d))
  else
    mret (SG_ERROR_NONE,
      INetIo (mk_network_io_stats r.2
        (default (nio_tx d) (ks_data k "obytes64")) rx
        (default (nio_ipackets d) (ks_data k "ipackets64"))
        (default (nio_opackets d) (ks_data k "opackets64"))
        (default (nio_ierrors d) (u32 <$> ks_data k "ierrors"))
        (default (nio_oerrors d) (u32 <$> ks_data k "oerrors"))
        (default (nio_collisions d) (u32 <$> ks_data k "collisions")) sys_time)).

Definition network_io_solaris (chain : option (list kstat)) (v : vptr)
    : M world (sg_error * vptr) :=
  match chain with
  | None => rc ← in_env (RETURN_WITH_SET_ERROR SG_ERROR_KSTAT_OPEN None); mret (rc, v)
  | Some l => append_loop Knetwork_io fill_kstat (omap kstat_counts l) 0 v
  end.

(** HP-UX: the counters of the management information base (with those for
    ethernet of HP-UX 11); the sums are taken in its counter type of [mib_bits] bits. *)
Record mib_ifEntry := mk_mib_ifEntry {
  ifInOctets : Z; ifOutOctets : Z; ifInUcastPkts : Z; ifInNUcastPkts : Z; ifOutUcastPkts : Z;
  ifOutNUcastPkts : Z; ifInErrors : Z; ifOutErrors : Z;
  dot3StatsSingleCollisionFrames : Z; dot3StatsMultipleCollisionFrames : Z }.

Definition mib_counters (mib_bits : Z) (name : string) (m : mib_ifEntry) : if_counters :=
  mk_if_counters name (ifInOctets m) (ifOutOctets m)
    (wrap mib_bits (ifInUcastPkts m + ifInNUcastPkts m))
    (wrap mib_bits (ifOutUcastPkts m + ifOutNUcastPkts m)) (ifInErrors m) (ifOutErrors m)
    (wrap mib_bits (dot3StatsSingleCollisionFrames m + dot3StatsMultipleCollisionFrames m)).

(** The dialogue with /dev/dlpi about one physical point of attachment;
    every message can fail. *)
Record dlpi_ppa := mk_dlpi_ppa {
  dl_ppa : Z;
  attach_put : unit + Z; attach_get : unit + Z; statistics_put : unit + Z; statistics_get : unit + Z;
  is_statistics_ack : bool; if_oper_up : bool; mib : mib_ifEntry;
  detach_put : unit + Z; detach_get : unit + Z }.

Definition ppa_arg (what : string) (p : dlpi_ppa) : option string :=
  Some (what +:+ " ppa " +:+ print_unsigned (u32 (dl_ppa p))).

Definition lan_name (p : dlpi_ppa) : string :=
  vsnprintf 24 ("lan" +:+ pretty (s32 (dl_ppa p))).

(** The loop over the points; one that is not in operation is skipped without the
    detach dialogue. *)
Fixpoint hpux_loop (mib_bits : Z) (ppas : list dlpi_ppa) (n : nat) (v : vptr) : M world (sg_error * vptr) :=
  match ppas with
  | [] => mret (SG_ERROR_NONE, v)
  | p :: ppas' =>
      checked (attach_put p) SG_ERROR_PUTMSG (ppa_arg "DL_ATTACH_REQ" p) v (
      checked (attach_get p) SG_ERROR_GETMSG (ppa_arg "DL_ATTACH_REQ" p) v (
      checked (statistics_put p) SG_ERROR_PUTMSG (ppa_arg "DL_GET_STATISTICS_REQ" p) v (
      checked (statistics_get p) SG_ERROR_GETMSG (ppa_arg "DL_GET_STATISTICS_REQ" p) v (
      if negb (is_statistics_ack p) then
        rc ← in_env (RETURN_WITH_SET_ERROR_WITH_ERRNO SG_ERROR_PARSE (ppa_arg "DL_GET_STATISTICS_ACK" p));
        mret (rc, v)
      else if negb (if_oper_up p) then hpux_loop mib_bits ppas' n v
      else
        r ← append_item Knetwork_io v n (fill_if_counters (mib_counters mib_bits (lan_name p) (mib p)));
        if decide (r.1 <> SG_ERROR_NONE) then mret r
        else
          checked (detach_put p) SG_ERROR_PUTMSG (ppa_arg "DL_DETACH_REQ" p) r.2 (
          checked (detach_get p) SG_ERROR_GETMSG (ppa_arg "DL_DETACH_REQ" p) r.2 (
          hpux_loop mib_bits ppas' (S n) r.2))))))
  end.

(** [info]: the points the DL_HP_PPA_REQ answer lists, [None] when it is empty. *)
Definition network_io_hpux (mib_bits : Z) (open_dlpi req_put req_get : unit + Z) (info : option (list dlpi_ppa))
    (v : vptr) : M world (sg_error * vptr) :=
  let oom := RETURN_WITH_SET_ERROR SG_ERROR_MALLOC (Some "sg_get_network_io_stats") in
  a1 ← in_env alloc_request; a2 ← in_env alloc_request; a3 ← in_env alloc_request;
  match a1, a2, a3 with
  | AFail, _, _ | _, AFail, _ | _, _, AFail => rc ← in_env oom; mret (rc, v)
  | _, _, _ =>
      checked open_dlpi SG_ERROR_OPEN (Some "/dev/dlpi") v (
      checked req_put SG_ERROR_PUTMSG (Some "DL_HP_PPA_REQ") v (
      checked req_get SG_ERROR_GETMSG (Some "DL_HP_PPA_REQ") v (
      match info with
      | None =>
          rc ← in_env (RETURN_WITH_SET_ERROR_WITH_ERRNO SG_ERROR_PARSE (Some "DL_HP_PPA_REQ"));
          mret (rc, v)
      | Some ppas => hpux_loop mib_bits ppas 0 v
      end)))
  end.

(** Windows: [GetIfTable]; [needed] is the size the first call asks for when the
    buffer of one table is too small, [table] is what the second call delivers. The
    contents of the buffer before that call do not matter. *)
Definition win32_get_devices {A} (sizeof_table : nat) (needed : option nat) (table : option (list A))
    : M env (option (list A)) :=
  b ← sg_realloc junk CNull sizeof_table;
  match b, needed with
  | None, _ => mret None
  | Some _, None => mret table
  | Some _, Some dwSize =>
      b ← sg_realloc junk CNull dwSize;
      match b with
      | None => mret None
      | Some _ => mret table
      end
  end.

(** The row of the table; the packet counts are sums of 32-bit numbers. *)
Record if_row := mk_if_row {
  bDescr : string; dwOutOctets : Z; dwInOctets : Z; dwInUcastPkts : Z; dwInNUcastPkts : Z;
  dwOutUcastPkts : Z; dwOutNUcastPkts : Z; dwInErrors : Z; dwOutErrors : Z;
  dwSpeed : Z; oper_up : bool; dwAdminStatus : Z }.

Definition row_counters (r : if_row) : if_counters :=
  mk_if_counters (bDescr r) (dwInOctets r) (dwOutOctets r)
    (u32 (dwInUcastPkts r + dwInNUcastPkts r)) (u32 (dwOutUcastPkts r + dwOutNUcastPkts r))
    (dwInErrors r) (dwOutErrors r) 0.

(** The name field of the two structures of this component. *)
Definition item_iface_name (it : item) : char_ptr :=
  match it with
  | INetIface s => nif_interface_name s
  | _ => nio_interface_name (as_network_io it)
  end.
Definition set_iface_name (p : char_ptr) (it : item) : item :=
  match it with
  | INetIface s => INetIface (nif_set_name p s)
  | _ => INetIo (nio_set_name p (as_network_io it))
  end.

(** [for(j=i+1; j<interfaces; ++j)]: item [i] gets a suffix for every later item
    that has its name at that moment. *)
Fixpoint renumber_inner (l : positive) (i : nat) (js : list nat) (no : Z) : M world sg_error :=
  match js with
  | [] => mret SG_ERROR_NONE
  | j :: js' =>
      a ← read_item l i; b ← read_item l j;
      x ← read_ptr (item_iface_name a); y ← read_ptr (item_iface_name b);
      if strcmp x y =? 0 then
        r ← in_env (sg_concat_string junk (Some (item_iface_name a))
                      (Some (vsnprintf 5 (" #" +:+ pretty no))));
        write_item l i (set_iface_name (default (item_iface_name a) r.2) a);;
        if decide (r.1 <> SG_ERROR_NONE) then in_env sg_get_error
        else renumber_inner l i js' (no + 1)
      else renumber_inner l i js' no
  end.

Fixpoint renumber (l : positive) (is_ : list nat) (interfaces : nat) : M world sg_error :=
  match is_ with
  | [] => mret SG_ERROR_NONE
  | i :: is' =>
      rc ← renumber_inner l i (seq (S i) (interfaces - S i)) 2;
      if decide (rc <> SG_ERROR_NONE) then mret rc else renumber l is' interfaces
  end.

(** The vector is made for [interfaces + 1] items when [interfaces] is still 0. *)
Definition network_io_win32 (sizeof_table : nat) (needed : option nat) (table : option (list if_row)) (v : vptr)
    : M world (sg_error * vptr) :=
  t ← in_env (win32_get_devices sizeof_table needed table);
  match t with
  | None => rc ← in_env (RETURN_WITH_SET_ERROR SG_ERROR_DEVICES (Some "win32_get_devices")); mret (rc, v)
  | Some rows =>
      r ← sized_fill Knetwork_io 1 true (fun row => fill_if_counters (row_counters row)) rows v;
      match r with
      | (SG_ERROR_NONE, Some l) =>
          rc ← renumber l (seq 0 (length rows)) (length rows); mret (rc, Some l)
      | _ => mret r
      end
  end.

(** ** Interface properties *)

(** What is known of an interface before it is stored. *)
Record if_properties := mk_if_properties {
  ip_name : string; ip_up : bool; ip_speed : Z; ip_factor : Z; ip_duplex : sg_iface_duplex }.

Definition up_of (b : bool) : sg_iface_updown := if b then SG_IFACE_UP else SG_IFACE_DOWN.

(** BSD, AIX and HP-UX assign the state of the interface before the name. *)
Definition fill_if_properties (p : if_properties) (it : item) : M env (sg_error * item) :=
  let d := as_network_iface it in
  let d := mk_network_iface_stats (nif_interface_name d) (nif_speed d) (nif_factor d) (nif_duplex d)
             (up_of (ip_up p)) (nif_systime d) in
  r ← sg_update_string junk (nif_interface_name d) (Some (ip_name p));
  if decide (r.1 <> SG_ERROR_NONE) then
    rc ← sg_get_error; mret (rc, INetIface (nif_set_name r.2 d))
  else
    mret (SG_ERROR_NONE,
      INetIface (mk_network_iface_stats r.2 (ip_speed p) (ip_factor p) (ip_duplex p)
                   (up_of (ip_up p)) sys_time)).

(** ALLBSD: the media word of SIOCGIFMEDIA, by its type and subtype. *)
Inductive ether_subtype :=
| IFM_HPNA_1 | IFM_10_T | IFM_10_2 | IFM_10_5 | IFM_10_STP | IFM_10_FL
| IFM_100_TX | IFM_100_FX | IFM_100_T4 | IFM_100_VG | IFM_100_T2
| IFM_1000_SX | IFM_1000_LX | IFM_1000_CX | IFM_1000_TX | IFM_1000_FX | IFM_1000_T
| IFM_10G_SR | IFM_10G_LR | IFM_10G_CX4 | IFM_10G_TWINAX | IFM_10G_TWINAX_LONG | IFM_10G_T
| IFM_2500_SX | IFM_ETHER_OTHER.

Inductive token_subtype :=
| IFM_TOK_STP4 | IFM_TOK_UTP4 | IFM_TOK_STP16 | IFM_TOK_UTP16 | IFM_TOK_STP100 | IFM_TOK_UTP100
| IFM_TOK_OTHER.

Inductive ieee80211_subtype :=
| IFM_IEEE80211_FH1 | IFM_IEEE80211_DS1 | IFM_IEEE80211_FH2 | IFM_IEEE80211_DS2 | IFM_IEEE80211_DS5
| IFM_IEEE80211_DS11 | IFM_IEEE80211_DS22 | IFM_IEEE80211_OTHER.

Inductive ifm_type :=
| IFM_ETHER (s : ether_subtype) | IFM_TOKEN (s : token_subtype) | IFM_FDDI
| IFM_IEEE80211 (s : ieee80211_subtype) | IFM_OTHER.

(** The answer of SIOCGIFMEDIA: whether the bits of IFM_ETHER, IFM_FDX and IFM_HDX
    are all set in [ifm_active], and the type. *)
Record ifmedia := mk_ifmedia {
  has_ether_bits : bool; ifm_active : ifm_type; has_fdx : bool; has_hdx : bool }.

Definition ether_speed (s : ether_subtype) : Z :=
  match s with
  | IFM_HPNA_1 => 1
  | IFM_10_T | IFM_10_2 | IFM_10_5 | IFM_10_STP | IFM_10_FL => 10
  | IFM_100_TX | IFM_100_FX | IFM_100_T4 | IFM_100_VG | IFM_100_T2 => 100
  | IFM_1000_SX | IFM_1000_LX | IFM_1000_CX | IFM_1000_TX | IFM_1000_FX | IFM_1000_T => 1000
  | IFM_10G_SR | IFM_10G_LR | IFM_10G_CX4 | IFM_10G_TWINAX | IFM_10G_TWINAX_LONG | IFM_10G_T => 10000
  | IFM_2500_SX => 2500
  | IFM_ETHER_OTHER => 0
  end.

Definition media_speed (t : ifm_type) : Z :=
  match t with
  | IFM_ETHER s => ether_speed s
  | IFM_TOKEN s =>
      match s with
      | IFM_TOK_STP4 | IFM_TOK_UTP4 => 4
      | IFM_TOK_STP16 | IFM_TOK_UTP16 => 16
      | IFM_TOK_STP100 | IFM_TOK_UTP100 => 100
      | IFM_TOK_OTHER => 0
      end
  | IFM_FDDI => 0
  | IFM_IEEE80211 s =>
      match s with
      | IFM_IEEE80211_FH1 | IFM_IEEE80211_DS1 => 1
      | IFM_IEEE80211_FH2 | IFM_IEEE80211_DS2 => 2
      | IFM_IEEE80211_DS5 => 5
      | IFM_IEEE80211_DS11 => 11
      | IFM_IEEE80211_DS22 => 22
      | IFM_IEEE80211_OTHER => 0
      end
  | IFM_OTHER => 0
  end.

(** Speed, factor and duplex; [None]: the ioctl failed. *)
Definition media_properties (m : option ifmedia) : Z * Z * sg_iface_duplex :=
  match m with
  | None => (0, 0, SG_IFACE_DUPLEX_UNKNOWN)
  | Some m =>
      if negb (has_ether_bits m) then (0, 0, SG_IFACE_DUPLEX_UNKNOWN)
      else (media_speed (ifm_active m), 1000 * 1000,
            if has_fdx m then SG_IFACE_DUPLEX_FULL
            else if has_hdx m then SG_IFACE_DUPLEX_HALF else SG_IFACE_DUPLEX_UNKNOWN)
  end.

(** An address of [getifaddrs]: AF_LINK, the name, SIOCGIFFLAGS ([None] when it
    fails) and SIOCGIFMEDIA. *)
Record bsd_if := mk_bsd_if {
  bi_link : bool; bi_name : string; bi_flags : option bool; bi_media : option ifmedia }.

(** An interface whose flags cannot be had is skipped, but was counted. *)
Definition bsd_properties (i : bsd_if) : option if_properties :=
  match bi_flags i with
  | None => None
  | Some up =>
      let '(speed, factor, duplex) := media_properties (bi_media i) in
      Some (mk_if_properties (bi_name i) up speed factor duplex)
  end.

(** [sock == 0] is taken for the failure of [socket]. *)
Definition network_iface_bsd (net : list bsd_if + Z) (sock : Z + Z) (v : vptr)
    : M world (sg_error * vptr) :=
  r ← in_env (syscall net);
  match r with
  | None => rc ← in_env (RETURN_WITH_SET_ERROR_WITH_ERRNO SG_ERROR_GETIFADDRS None); mret (rc, v)
  | Some net =>
      s ← in_env (syscall sock);
      if decide (s = Some 0) then
        rc ← in_env (RETURN_WITH_SET_ERROR_WITH_ERRNO SG_ERROR_SOCKET None); mret (rc, v)
      else
        let links := filter (fun i => bi_link i = true) net in
        sized_fill Knetwork_iface (length links) (is_zero links) fill_if_properties
          (omap bsd_properties links) v
  end.

(** AIX: SIOCGIFCONF into a buffer of [n] pages that is doubled until a page
    stays free. [conf] is the ioctl: the length it reports for a buffer of the
    given length, [None] when it fails. The result: the pages, or the error. *)
Fixpoint ifconf_loop (fuel : nat) (conf : Z -> option Z) (page_size n : Z)
    : M env (sg_error + Z) :=
  match fuel with
  | O => stuck out_of_fuel
  | S fuel' =>
      let full := match conf (n * page_size) with
                  | None => true
                  | Some ifc_len => (n - 1) * page_size <=? ifc_len
                  end in
      if negb full then mret (inr n)
      else
        let n := n * 2 in
        if 2 ^ 31 - 1 <? n * page_size then
          rc ← sg_set_error_with_errno_code_fmt SG_ERROR_MALLOC 34 (Some "SIOCGIFCONF");
          mret (inl SG_ERROR_MALLOC)
        else
          a ← alloc_request;
          match a with
          | AFail => rc ← RETURN_WITH_SET_ERROR_WITH_ERRNO SG_ERROR_MALLOC None; mret (inl rc)
          | _ => ifconf_loop fuel' conf page_size n
          end
  end.

(** A request of the buffer: the family and the length of its address, the name, SIOCGIFFLAGS. *)
Inductive sa_family_t := AF_UNIX | AF_INET6 | AF_LINK | AF_OTHER.

#[global] Instance sa_family_eq_dec : EqDecision sa_family_t.
Proof. solve_decision. Defined.

Record ifreq := mk_ifreq { ir_family : sa_family_t; ir_sa_len : Z; ir_name : string; ir_flags : option bool }.

Definition ir_link (i : ifreq) : bool := match ir_family i with AF_LINK => true | _ => false end.

(** The sizes of the structures on the system. *)
Record ifreq_sizes := mk_ifreq_sizes {
  sizeof_ifreq : Z; sizeof_sockaddr : Z; sizeof_sockaddr_un : Z; sizeof_sockaddr_in6 : Z }.

Definition SIZEOF_ADDR_IFREQ_aix (sz : ifreq_sizes) (i : ifreq) : Z :=
  if sizeof_sockaddr sz <? ir_sa_len i then sizeof_ifreq sz - sizeof_sockaddr sz + ir_sa_len i
  else sizeof_ifreq sz.

Definition SA_LEN (sz : ifreq_sizes) (i : ifreq) : Z :=
  match ir_family i with
  | AF_UNIX => sizeof_sockaddr_un sz
  | AF_INET6 => sizeof_sockaddr_in6 sz
  | _ => sizeof_sockaddr sz
  end.

Definition SIZEOF_ADDR_IFREQ_hpux (sz : ifreq_sizes) (i : ifreq) : Z :=
  if sizeof_sockaddr sz <? SA_LEN sz i then sizeof_ifreq sz - sizeof_sockaddr sz + SA_LEN sz i
  else sizeof_ifreq sz.

(** [for (ifr = ifc.ifc_req; ifr < lifr; ifr = ... [_SIZEOF_ADDR_IFREQ( *ifr)])]: the requests of the
    buffer, of which [buf] tells what a structure at an offset reads as; [pos] is [ifr] and [lifr] the
    end. The buffer does not change while it is walked. *)
Fixpoint ifreq_walk (fuel : nat) (size : ifreq -> Z) (buf : Z -> ifreq) (pos lifr : Z) : M env (list ifreq) :=
  if pos <? lifr then
    match fuel with
    | O => stuck out_of_fuel
    | S fuel' =>
        l ← ifreq_walk fuel' size buf (pos + size (buf pos)) lifr;
        mret (buf pos :: l)
    end
  else mret [].

Definition ifreq_properties (i : ifreq) : option if_properties :=
  match ir_flags i with
  | None => None
  | Some up => Some (mk_if_properties (ir_name i) up 0 0 SG_IFACE_DUPLEX_UNKNOWN)
  end.

(** [buf]: the buffer of the given number of pages. *)
Definition network_iface_aix (sz : ifreq_sizes) (sock : unit + Z) (conf : Z -> option Z) (buf : Z -> Z -> ifreq)
    (v : vptr) : M world (sg_error * vptr) :=
  checked sock SG_ERROR_SOCKET None v (
  allocated (RETURN_WITH_SET_ERROR_WITH_ERRNO SG_ERROR_MALLOC None) v (
  n ← in_env (ifconf_loop 32 conf sys_page_size 2);
  match n with
  | inl rc => mret (rc, v)
  | inr n =>
      let ifc_len := default 0 (conf (n * sys_page_size)) in
      reqs ← in_env (ifreq_walk (Z.to_nat ifc_len) (SIZEOF_ADDR_IFREQ_aix sz) (buf n) 0 ifc_len);
      let links := filter (fun i => ir_link i = true) reqs in
      sized_fill Knetwork_iface (length links) (is_zero links) fill_if_properties
        (omap ifreq_properties links) v
  end)).

(** HP-UX: the vector grows before the flags are asked for. *)
Fixpoint hpux_iface_loop (reqs : list ifreq) (n : nat) (v : vptr) : M world (sg_error * vptr) :=
  match reqs with
  | [] => mret (SG_ERROR_NONE, v)
  | i :: reqs' =>
      u ← VECTOR_UPDATE v (Z.of_nat n + 1) true (VECTOR_INIT_INFO Knetwork_iface);
      match u with
      | (p, Some rc) => mret (rc, p)
      | (p, None) =>
          match ifreq_properties i with
          | None => hpux_iface_loop reqs' n p
          | Some props =>
              match p with
              | None => stuck null_deref
              | Some l =>
                  it ← read_item l n;
                  r ← in_env (fill_if_properties props it);
                  write_item l n r.2;;
                  if decide (r.1 <> SG_ERROR_NONE) then mret (r.1, Some l)
                  else hpux_iface_loop reqs' (S n) (Some l)
              end
          end
      end
  end.

(** [siocgifconf]: the length of what the ioctl stores. *)
Definition network_iface_hpux (sz : ifreq_sizes) (sock siocgifnum : unit + Z) (siocgifconf : Z + Z)
    (buf : Z -> ifreq) (v : vptr) : M world (sg_error * vptr) :=
  checked sock SG_ERROR_SOCKET None v (
  checked siocgifnum SG_ERROR_GETIFADDRS None v (
  allocated (RETURN_WITH_SET_ERROR_WITH_ERRNO SG_ERROR_MALLOC None) v (
  len ← in_env (syscall siocgifconf);
  match len with
  | None => rc ← in_env (RETURN_WITH_SET_ERROR_WITH_ERRNO SG_ERROR_GETIFADDRS None); mret (rc, v)
  | Some ifc_len =>
      reqs ← in_env (ifreq_walk (Z.to_nat ifc_len) (SIZEOF_ADDR_IFREQ_hpux sz) buf 0 ifc_len);
      hpux_iface_loop reqs 0 v
  end))).

(** Solaris: the kstat of an interface and those of its module with the names
    [mii] and [statistics]. *)
Record kstat_if := mk_kstat_if {
  ki_kstat : kstat; ki_flags : option bool;
  ki_mii : option (string -> option Z); ki_statistics : option (string -> option Z) }.

Definition link_up (k : kstat_if) : option Z :=
  match ks_data (ki_kstat k) "link_up" with
  | Some z => Some z
  | None =>
      match ki_mii k with
      | None => None
      | Some mii =>
          match mii "link_up" with
          | Some z => Some z
          | None => match ki_statistics k with
                    | Some st => st "link_up"
                    | None => None
                    end
          end
      end
  end.

Definition kstat_up (flags_up : bool) (k : kstat_if) : bool :=
  if flags_up then match link_up k with Some z => negb (u32 z =? 0) | None => true end else false.

Definition kstat_if_known (k : kstat_if) : option (kstat_if * bool) :=
  if strcmp (ks_class (ki_kstat k)) "net" =? 0 then (k,.) <$> ki_flags k else None.

Definition fill_kstat_if (e : kstat_if * bool) (it : item) : M env (sg_error * item) :=
  let '(k, flags_up) := e in
  let d := as_network_iface it in
  r ← sg_update_string junk (nif_interface_name d) (Some (ks_name (ki_kstat k)));
  let d := nif_set_name r.2 d in
  if decide (r.1 <> SG_ERROR_NONE) then rc ← sg_get_error; mret (rc, INetIface d)
  else
    let '(speed, factor) := match ks_data (ki_kstat k) "ifspeed" with
                            | Some ui64 => (ui64 / (1000 * 1000), 1000 * 1000)
                            | None => (0, 0)
                            end in
    let duplex := match u32 <$> ks_data (ki_kstat k) "link_duplex" with
                  | Some 1 => SG_IFACE_DUPLEX_HALF
                  | Some 2 => SG_IFACE_DUPLEX_FULL
                  | _ => SG_IFACE_DUPLEX_UNKNOWN
                  end in
    mret (SG_ERROR_NONE,
      INetIface (mk_network_iface_stats (nif_interface_name d) speed factor duplex
                   (up_of (kstat_up flags_up k)) sys_time)).

Definition network_iface_solaris (chain : option (list kstat_if)) (sock : unit + Z) (v : vptr)
    : M world (sg_error * vptr) :=
  match chain with
  | None => rc ← in_env (RETURN_WITH_SET_ERROR SG_ERROR_KSTAT_OPEN None); mret (rc, v)
  | Some l =>
      checked sock SG_ERROR_SOCKET None v
        (append_loop Knetwork_iface fill_kstat_if (omap kstat_if_known l) 0 v)
  end.

(** Windows: duplex keeps the value the item had. *)
Definition fill_row_if (r : if_row) (it : item) : M env (sg_error * item) :=
  let d := as_network_iface it in
  n ← sg_update_string junk (nif_interface_name d) (Some (bDescr r));
  let d := nif_set_name n.2 d in
  if decide (n.1 <> SG_ERROR_NONE) then rc ← sg_get_error; mret (rc, INetIface d)
  else
    mret (SG_ERROR_NONE,
      INetIface (mk_network_iface_stats (nif_interface_name d) (dwSpeed r / (1000 * 1000))
        (1000 * 1000) (nif_duplex d) (up_of (oper_up r && (dwAdminStatus r =? 1))) sys_time)).

Definition network_iface_win32 (sizeof_table : nat) (needed : option nat)
    (table : option (list if_row)) (v : vptr) : M world (sg_error * vptr) :=
  t ← in_env (win32_get_devices sizeof_table needed table);
  match t with
  | None => rc ← in_env (RETURN_WITH_SET_ERROR SG_ERROR_DEVICES (Some "network interfaces")); mret (rc, v)
  | Some rows =>
      r ← sized_fill Knetwork_iface (length rows) (is_zero rows) fill_row_if rows v;
      match r with
      | (SG_ERROR_NONE, Some l) =>
          rc ← renumber l (seq 0 (length rows)) (length rows); mret (rc, Some l)
      | _ => mret r
      end
  end.
End network_systems.
