(* ===== verification/DiskSys.v ===== *)
(** src/src/libstatgrab/disk_stats.c for the systems other than Linux: the sources of
    the list of valid file system types, the mount lists, the sizes of a file system
    and the transfer counters. What the system calls deliver is an argument. *)

From S2P Require Import Prelude Types CLib Errors Tools Vector VectorSpec VectorDiff Items Comp Stdio ToolsExt Fill Single Disk NetworkSys.

Local Open Scope sg_scope.

(** * The built-in lists *)

Definition VALID_FS_TYPES_SOLARIS : list (option string) := Some <$>
  ["ufs"; "tmpfs"; "vxfs"; "nfs"; "zfs"; "lofs"].
Definition VALID_FS_TYPES_CYGWIN : list (option string) := [Some "user"].
Definition VALID_FS_TYPES_DARWIN : list (option string) := Some <$>
  ["CoreStorage"; "acfs"; "afpfs"; "autofs"; "cd9660"; "cddafs"; "devfs"; "exfat"; "fdesc"; "ftp";
   "hfs"; "msdos"; "nfs"; "ntfs"; "smbfs"; "udf"; "webdav"].
Definition VALID_FS_TYPES_DFBSD : list (option string) := Some <$>
  ["hammer"; "msdosfs"; "ntfs"; "udf"; "ext2fs"; "ufs"; "mfs"; "nfs"; "tmpfs"].
Definition VALID_FS_TYPES_NETBSD : list (option string) := Some <$>
  ["ffs"; "mfs"; "msdos"; "lfs"; "adosfs"; "ext2fs"; "ntfs"; "nfs"].
Definition VALID_FS_TYPES_HPUX : list (option string) := Some <$> ["vxfs"; "hfs"; "nfs"].
Definition VALID_FS_TYPES_AIX : list (option string) :=
  [Some "jfs2"; Some "namefs"; Some "nfs"; Some "jfs"; None; Some "cdrom"; Some "procfs";
   None; None; None; None; None; None; None; None; None;
   Some "sfs"; Some "cachefs"; Some "nfs3"; Some "autofs";
   None; None; None; None; None; None; None; None; None; None; None; None;
   Some "vxfs"; Some "vxodm"; Some "udf"; Some "nfs4"; Some "rfs4"; Some "cifs"].
Definition VALID_FS_TYPES_WIN32 : list (option string) := Some <$> ["NTFS"; "FAT"; "FAT32"].

Section disk_systems.
Context {mem : Memory} {sys : System}.

(** * Valid file system types *)

(** The loop of FILL_VALID_FS over the values of CUR_VALID_FS; empty names and NULL
    leave a gap. *)
Fixpoint fill_fs_loop (curs : list (option string)) (names : list char_ptr)
    : M env (sg_error * list char_ptr) :=
  match curs with
  | [] => mret (SG_ERROR_NONE, names)
  | cvfs :: curs' =>
      match cvfs with
      | None | Some EmptyString => fill_fs_loop curs' (names ++ [CNull])
      | Some s =>
          r ← sg_update_string junk CNull (Some s);
          if decide (r.1 <> SG_ERROR_NONE) then mret (r.1, names)
          else fill_fs_loop curs' (names ++ [r.2])
      end
  end.

(** The number of entries before the first gap. *)
Fixpoint first_gap (l : list char_ptr) : nat :=
  match l with
  | [] | CNull :: _ => O
  | _ :: l' => S (first_gap l')
  end.

(** The part after the system-dependent one; [shrink] is CAN_SHRINK_VALID_FS. *)
Definition fill_valid_fs (shrink : bool) (curs : list (option string)) : M env (sg_error * valid_fs) :=
  let num := length curs in
  a ← alloc_request;
  match a with
  | AFail =>
      rc ← RETURN_WITH_SET_ERROR_WITH_ERRNO SG_ERROR_MALLOC (Some "init_valid_fs_types");
      mret (rc, mk_valid_fs None num)
  | _ =>
      r ← fill_fs_loop curs [];
      let '(rc, names) := (r : sg_error * list char_ptr) in
      if decide (rc <> SG_ERROR_NONE) then
        mret (rc, mk_valid_fs (Some (names ++ replicate (num - length names) CNull)) num)
      else
        let sorted := qsort cmp_fs_ptr names in
        let i := first_gap sorted in
        if shrink && (i <? num)%nat then
          _ ← alloc_request;
          mret (SG_ERROR_NONE, mk_valid_fs (Some (take i sorted)) i)
        else mret (SG_ERROR_NONE, mk_valid_fs (Some sorted) num)
  end.

(** Systems that only have the built-in list. *)
Definition init_fs_builtin (builtin : list (option string)) : M env (sg_error * valid_fs) :=
  fill_valid_fs false builtin.

(** [struct xvfsconf]: the sysctl is asked for the size and then for the list. *)
Definition init_fs_xvfsconf (vf : valid_fs) (buflen : nat + Z) (conflist : list string + Z)
    : M env (sg_error * valid_fs) :=
  n ← syscall buflen;
  match n with
  | None =>
      rc ← RETURN_WITH_SET_ERROR_WITH_ERRNO SG_ERROR_SYSCTLBYNAME (Some "vfs.conflist"); mret (rc, vf)
  | Some n =>
      b ← sg_realloc junk CNull n;
      match b with
      | None => rc ← sg_get_error; mret (rc, vf)
      | Some _ =>
          l ← syscall conflist;
          match l with
          | None =>
              rc ← RETURN_WITH_SET_ERROR_WITH_ERRNO SG_ERROR_SYSCTLBYNAME (Some "vfs.conflist");
              mret (rc, vf)
          | Some l => fill_valid_fs false (Some <$> l)
          end
      end
  end.

(** [struct vfsconf]: the loop over the types; [confs] are the answers for
    1, 2, ...; [skip] tells EOPNOTSUPP and ENOTSUP, which leave a gap. [None]: the
    list is given up and the built-in one is used. *)
Fixpoint vfsconf_loop (skip : Z -> bool) (k : Z) (confs : list (string + Z)) (names : list (option string))
    : M env (option (list (option string))) :=
  match confs with
  | [] => mret (Some names)
  | inl name :: confs' => vfsconf_loop skip (k + 1) confs' (names ++ [Some name])
  | inr err :: confs' =>
      modify (set_errno err);;
      if skip err then vfsconf_loop skip (k + 1) confs' (names ++ [Some EmptyString])
      else
        SET_ERROR_WITH_ERRNO SG_ERROR_SYSCTL (Some ("vfs.generic.conf." +:+ pretty (k + 1)));;
        mret None
  end.

(** [ok]: the answer to maxtypenum. After a failure [nbvfs] is 0 and the calloc of
    nothing decides: a block that is not NULL gives an empty list. *)
Definition init_fs_vfsconf (builtin : list (option string)) (skip : Z -> bool) (ok : unit + Z)
    (confs : list (string + Z)) : M env (sg_error * valid_fs) :=
  r ← syscall ok;
  confs ← match r with
          | Some _ => mret confs
          | None =>
              SET_ERROR_WITH_ERRNO SG_ERROR_SYSCTL (Some "vfs.generic.maxtypenum");; mret []
          end;
  a ← alloc_request;
  l ← match a with
      | AFail =>
          SET_ERROR_WITH_ERRNO SG_ERROR_MALLOC (Some "calloc for vfs.generic.conf");; mret None
      | _ => vfsconf_loop skip 0 confs []
      end;
  fill_valid_fs true (default builtin l).

(** CTL_VFS_NAMES: one text with the names separated by spaces. *)
Fixpoint split_spaces (s : string) (word : string) : list string :=
  match s with
  | EmptyString => [word]
  | String c s' =>
      if Ascii.eqb c " " then word :: split_spaces s' EmptyString
      else split_spaces s' (word +:+ String c EmptyString)
  end.

(** Without names the list has [num_valid_file_systems] built-in entries. *)
Definition init_fs_names (builtin : list (option string)) (vf : valid_fs) (fsnamebuflen : nat + Z)
    (fstypes : string + Z) : M env (sg_error * valid_fs) :=
  n ← syscall fsnamebuflen;
  match n with
  | None =>
      rc ← RETURN_WITH_SET_ERROR_WITH_ERRNO SG_ERROR_SYSCTLBYNAME (Some "vfs.generic.fstypes");
      mret (rc, vf)
  | Some n =>
      if (1 <? n)%nat then
        b ← sg_realloc junk CNull (n + 1);
        match b with
        | None => rc ← sg_get_error; mret (rc, vf)
        | Some _ =>
            t ← syscall fstypes;
            match t with
            | None =>
                rc ← RETURN_WITH_SET_ERROR_WITH_ERRNO SG_ERROR_SYSCTLBYNAME (Some "vfs.generic.fstypes");
                mret (rc, vf)
            | Some t => fill_valid_fs false (Some <$> split_spaces t EmptyString)
            end
        end
      else if (length builtin <? vf_num vf)%nat then stuck out_of_bounds
      else fill_valid_fs false (take (vf_num vf) builtin)
  end.

(** [sysfs]: the names of the types; none when GETNFSTYP does not deliver a number
    above 0. *)
Definition init_fs_sysfs (builtin : list (option string)) (types : list string)
    : M env (sg_error * valid_fs) :=
  match types with
  | [] => fill_valid_fs true builtin
  | _ =>
      a ← alloc_request;
      match a with
      | AFail => fill_valid_fs true builtin
      | _ => fill_valid_fs true (Some <$> types)
      end
  end.

(** AIX: [sys_fs_types], indexed by the number of the type. *)
Fixpoint aix_builtin_loop (curs : list (option string)) (types : list char_ptr)
    : M env (sg_error * list char_ptr) :=
  match curs with
  | [] => mret (SG_ERROR_NONE, types)
  | c :: curs' =>
      r ← sg_update_string junk CNull c;
      if decide (r.1 <> SG_ERROR_NONE) then mret (r.1, [])
      else aix_builtin_loop curs' (types ++ [r.2])
  end.

Definition aix_vfs_format : string := "%s %lu %s %s %s".

(** A line of /etc/vfs; the texts go into arrays of 16 characters. The list is given
    up when a name cannot be stored, and kept when it cannot grow. *)
Definition aix_vfs_line (types : list char_ptr) (line : string) : M env (sg_error * list char_ptr) :=
  match line with
  | EmptyString => mret (SG_ERROR_NONE, types)
  | String c _ =>
      if negb ((97 <=? nat_of_ascii c)%nat && (nat_of_ascii c <=? 122)%nat) then
        mret (SG_ERROR_NONE, types)
      else
        let '(n, vals) := sscanf line aix_vfs_format in
        let fstype := arg_str EmptyString vals 0 in
        if ((15 <? String.length fstype) || (15 <? String.length (arg_str EmptyString vals 4)))%nat
        then stuck out_of_bounds
        else if n <? 4 then mret (SG_ERROR_NONE, types)
        else
          let i := Z.to_nat (u64 (arg_int 0 vals 1)) in
          a ← (if (length types <=? i)%nat then sg_realloc junk CNull (8 * (i + 1)) else mret (Some []));
          match a with
          | None => rc ← sg_get_error; mret (rc, types)
          | Some _ =>
              let types := types ++ replicate (S i - length types) CNull in
              r ← sg_update_string junk (default CNull (types !! i)) (Some fstype);
              if decide (r.1 <> SG_ERROR_NONE) then mret (r.1, [])
              else mret (SG_ERROR_NONE, <[i := r.2]> types)
          end
  end.

Fixpoint aix_vfs_loop (ls : list string) (types : list char_ptr) : M env (sg_error * list char_ptr) :=
  match ls with
  | [] => mret (SG_ERROR_NONE, types)
  | line :: ls' =>
      r ← aix_vfs_line types line;
      if decide (r.1 <> SG_ERROR_NONE) then mret r else aix_vfs_loop ls' r.2
  end.

(** The result is the list of valid types and [sys_fs_types]. *)
Definition init_fs_aix : M env (sg_error * valid_fs * option (list char_ptr)) :=
  a ← alloc_request;
  match a with
  | AFail =>
      rc ← RETURN_WITH_SET_ERROR_WITH_ERRNO SG_ERROR_MALLOC (Some "init_valid_fs_types");
      mret (rc, mk_valid_fs None 0, None)
  | _ =>
      r ← aix_builtin_loop VALID_FS_TYPES_AIX [];
      if decide (r.1 <> SG_ERROR_NONE) then mret (r.1, mk_valid_fs None 0, None)
      else
        f ← fopen "/etc/vfs";
        r ← match f with
            | Some c => aix_vfs_loop (file_lines 1024 c) r.2
            | None => mret r
            end;
        if decide (r.1 <> SG_ERROR_NONE) then
          mret (r.1, mk_valid_fs None (length r.2), match r.2 with [] => None | l => Some l end)
        else v ← fill_valid_fs true (name_of <$> r.2); mret (v, Some r.2)
  end.

(** AIX: the second loop frees the entries of [valid_file_systems], which the first
    part has set to NULL. *)
Definition sg_disk_destroy_comp_aix (vf : valid_fs) (sys_fs_types : option (list char_ptr))
    : M env valid_fs :=
  vf' ← sg_disk_destroy_comp vf;
  match sys_fs_types with
  | None | Some [] => mret vf'
  | Some (_ :: _) => match vf_list vf' with None => stuck null_deref | Some _ => mret vf' end
  end.

(** * File systems *)

Section mounts.
Context (ps : paths).

(** The check of [errno] after the loop. *)
Definition after_mounts (r : sg_error * vptr) : M world (sg_error * vptr) :=
  if decide (r.1 <> SG_ERROR_NONE) then mret r
  else
    errno ← in_env (gets e_errno);
    if negb (errno =? 0) then
      rc ← in_env (RETURN_WITH_SET_ERROR_WITH_ERRNO SG_ERROR_DISKINFO (Some "getmntent"));
      mret (rc, r.2)
    else mret r.

(** [getvfsstat] and [getfsstat], asked for the number of mounts and for the mounts.
    [#GETMOUNTS_FN] is not expanded. *)
Definition fs_list_bsd (fs_count : nat + Z) (mntbuf : list mntent + Z) (v : vptr)
    : M world (sg_error * vptr) :=
  let fn := Some "#GETMOUNTS_FN" in
  n ← in_env (syscall fs_count);
  match n with
  | None => rc ← in_env (RETURN_WITH_SET_ERROR_WITH_ERRNO SG_ERROR_GETMNTINFO fn); mret (rc, v)
  | Some O => sized_fill Kfs 0 true (fill_mount ps) [] v
  | Some n =>
      allocated (RETURN_WITH_SET_ERROR_WITH_ERRNO SG_ERROR_MALLOC fn) v (
      m ← in_env (syscall mntbuf);
      match m with
      | Some ms =>
          if decide (length ms = n) then
            in_env (modify (set_errno 0));;
            r ← sized_fill Kfs n false (fill_mount ps) ms v; after_mounts r
          else rc ← in_env (RETURN_WITH_SET_ERROR_WITH_ERRNO SG_ERROR_GETMNTINFO fn); mret (rc, v)
      | None => rc ← in_env (RETURN_WITH_SET_ERROR_WITH_ERRNO SG_ERROR_GETMNTINFO fn); mret (rc, v)
      end)
  end.

(** AIX: an entry of [mntctl], with the number of its type. *)
Record vmount := mk_vmount { vmt_gfstype : nat; vmt_object : string; vmt_stub : string }.

Definition fill_vmount (sys_fs_types : list char_ptr) (m : vmount) (it : item) : M env (sg_error * item) :=
  match sys_fs_types !! vmt_gfstype m with
  | None => stuck out_of_bounds
  | Some ty => fill_fs ps (vmt_object m) (name_of ty) (vmt_stub m) it
  end.

(** [first]: [inl None] is the result 0, with the size that is needed; then [second]
    is what the second call delivers. *)
Definition fs_list_aix (sys_fs_types : option (list char_ptr)) (first : option (list vmount) + Z)
    (second : list vmount + Z) (v : vptr) : M world (sg_error * vptr) :=
  match sys_fs_types with
  | None =>
      rc ← in_env (RETURN_WITH_SET_ERROR SG_ERROR_INITIALISATION (Some "sys_fs_types")); mret (rc, v)
  | Some types =>
      let oom := RETURN_WITH_SET_ERROR_WITH_ERRNO SG_ERROR_MALLOC (Some "mntctl") in
      let bad := RETURN_WITH_SET_ERROR_WITH_ERRNO SG_ERROR_SYSCTLBYNAME (Some "mntctl") in
      let use ms :=
        in_env (modify (set_errno 0));;
        r ← sized_fill Kfs (length ms) (is_zero ms) (fill_vmount types) ms v; after_mounts r in
      allocated oom v (
      r ← in_env (syscall first);
      match r with
      | Some (Some ms) => use ms
      | Some None =>
          allocated oom v (
          s ← in_env (syscall second);
          match s with
          | Some ms => use ms
          | None => rc ← in_env bad; mret (rc, v)
          end)
      | None => rc ← in_env bad; mret (rc, v)
      end)
  end.

(** Windows: a drive; [GetVolumeInformation] as the change it makes to the buffers,
    the serial number and the name of the file system ([None] while nothing has been
    stored there). *)
Inductive drive_type := DRIVE_UNKNOWN | DRIVE_NO_ROOT_DIR | DRIVE_REMOVABLE | DRIVE_FIXED
| DRIVE_REMOTE | DRIVE_CDROM | DRIVE_RAMDISK.

Record drive := mk_drive {
  dr_path : string; dr_type : drive_type;
  GetVolumeInformation : option (Z * string) -> option (Z * string) }.

(** For the mask of fixed disks and RAM disks. *)
Definition getdrvent (d : drive) (mp : option (Z * string)) : option (Z * string) :=
  match dr_type d with
  | DRIVE_FIXED | DRIVE_RAMDISK => GetVolumeInformation d mp
  | _ => mp
  end.

Fixpoint drives_loop (drives : list drive) (mp : option (Z * string)) (n : nat) (v : vptr)
    : M world (sg_error * vptr) :=
  match drives with
  | [] => mret (SG_ERROR_NONE, v)
  | d :: drives' =>
      match getdrvent d mp with
      | None => stuck undefined_op
      | Some (volume_serial, filesys_name_buf) =>
          let mp := Some (volume_serial, filesys_name_buf) in
          if volume_serial =? 0 then drives_loop drives' mp n v
          else
            r ← append_item Kfs v n (fill_fs ps (dr_path d) (Some filesys_name_buf) (dr_path d));
            if decide (r.1 <> SG_ERROR_NONE) then mret r else drives_loop drives' mp (S n) r.2
      end
  end.

(** [strings_ok]: the results of the three calls of GetLogicalDriveStrings, [last_error]
    what GetLastError delivers after the loop. *)
Definition fs_list_win32 (strings_ok : bool * bool * bool) (drives : list drive) (last_error : Z)
    (v : vptr) : M world (sg_error * vptr) :=
  let bad := RETURN_WITH_SET_ERROR SG_ERROR_GETMNTINFO (Some "GetLogicalDriveStrings") in
  let '(ok1, ok2, ok3) := strings_ok in
  if negb ok1 then rc ← in_env bad; mret (rc, v)
  else
    allocated (RETURN_WITH_SET_ERROR SG_ERROR_MALLOC (Some "GetLogicalDriveStrings")) v (
    if negb (ok2 && ok3) then rc ← in_env bad; mret (rc, v)
    else
      r ← drives_loop drives None 0 v;
      if decide (r.1 <> SG_ERROR_NONE) then mret r
      else if negb (last_error =? 0) then
        rc ← in_env (RETURN_WITH_SET_ERROR SG_ERROR_DISKINFO (Some "GetVolumeInformation"));
        mret (rc, r.2)
      else mret r).
End mounts.

(** [statfs]: which of [f_favail], [f_iosize] and [f_frsize] the structure has.
    Without [f_favail] the assignment of the available inodes ends in that of the
    used ones. *)
Record statfs_buf := mk_statfs {
  sf_files : Z; sf_ffree : Z; sf_favail : option Z; sf_iosize : option Z; sf_frsize : option Z;
  sf_bsize : Z; sf_blocks : Z; sf_bfree : Z; sf_bavail : Z }.

(** The last part of [sg_fill_fs_stat_int], the products in [unsigned long long]. *)
Definition fs_sizes (total_inodes used_inodes free_inodes avail_inodes io_size block_size
    total_blocks free_blocks used_blocks avail_blocks : Z) (d : sg_fs_stats) : sg_fs_stats :=
  mk_fs_stats (fs_device_name d) (fs_device_canonical d) (fs_fs_type d) (fs_mnt_point d)
    (fs_device_type d) (block_size *u total_blocks) (block_size *u used_blocks)
    (block_size *u free_blocks) (block_size *u avail_blocks) total_inodes used_inodes free_inodes
    avail_inodes io_size block_size total_blocks free_blocks used_blocks avail_blocks sys_time.

Definition fs_fill_statfs (b : statfs_buf) (d : sg_fs_stats) : sg_fs_stats :=
  let used_inodes := sf_files b -u sf_ffree b in
  let io_size := match sf_iosize b, sf_frsize b with
                 | Some z, _ => z
                 | None, Some z => z
                 | None, None => sf_bsize b
                 end in
  fs_sizes (sf_files b) used_inodes (sf_ffree b) (default used_inodes (sf_favail b)) io_size
    (sf_bsize b) (sf_blocks b) (sf_bfree b) (sf_blocks b -u sf_bfree b) (sf_bavail b) d.

(** Windows: the four 32-bit numbers of GetDiskFreeSpace. *)
Definition fs_fill_win32 (sectors_per_cluster bytes_per_sector free_clusters total_clusters : Z)
    (d : sg_fs_stats) : sg_fs_stats :=
  let block_size := u64 (sectors_per_cluster * bytes_per_sector) in
  let total_blocks := block_size *u total_clusters in
  let used_blocks := total_blocks -u free_clusters in
  fs_sizes 0 0 0 0 block_size block_size total_blocks free_clusters used_blocks used_blocks d.

(** [buf]: what the call delivers for a mount point, and [fill] what is made of it. *)
Definition fill_fs_stat {B} (call : string) (buf : string -> B + Z) (fill : B -> sg_fs_stats -> sg_fs_stats)
    (d : sg_fs_stats) : M env (sg_error * sg_fs_stats) :=
  mnt ← read_ptr (fs_mnt_point d);
  b ← syscall (buf mnt);
  match b with
  | None =>
      dev ← read_ptr (fs_device_name d);
      ty ← read_ptr (fs_fs_type d);
      rc ← RETURN_WITH_SET_ERROR_WITH_ERRNO SG_ERROR_DISKINFO
             (Some (call +:+ " for mnt_point at " +:+ mnt +:+ " (device: " +:+ dev +:+
                    ", fs_type: " +:+ ty +:+ ")"));
      mret (rc, d)
  | Some b => mret (SG_ERROR_NONE, fill b d)
  end.

(** [statvfs], where there is no [statvfs64]: which of [f_iosize] and [f_frsize] the structure has. *)
Record statvfs_fields := mk_statvfs_fields {
  sv_files : Z; sv_ffree : Z; sv_favail : Z; sv_iosize : option Z; sv_frsize : option Z; sv_bsize : Z;
  sv_blocks : Z; sv_bfree : Z; sv_bavail : Z }.

Definition fs_fill_statvfs (b : statvfs_fields) (d : sg_fs_stats) : sg_fs_stats :=
  fs_sizes (sv_files b) (sv_files b -u sv_ffree b) (sv_ffree b) (sv_favail b) (default (sv_bsize b) (sv_iosize b))
    (default (sv_bsize b) (sv_frsize b)) (sv_blocks b) (sv_bfree b) (sv_blocks b -u sv_bfree b) (sv_bavail b) d.

Definition sg_fill_fs_stat_int_statvfs (statvfs : string -> statvfs_fields + Z) : sg_fs_stats -> M env (sg_error * sg_fs_stats) :=
  fill_fs_stat "statvfs" statvfs fs_fill_statvfs.

Definition sg_fill_fs_stat_int_statfs (statfs : string -> statfs_buf + Z) : sg_fs_stats -> M env (sg_error * sg_fs_stats) :=
  fill_fs_stat "statfs" statfs fs_fill_statfs.

Definition sg_fill_fs_stat_int_win32 (space : string -> (Z * Z * Z * Z) + Z) (d : sg_fs_stats)
    : M env (sg_error * sg_fs_stats) :=
  mnt ← read_ptr (fs_mnt_point d);
  b ← syscall (space mnt);
  match b with
  | None =>
      rc ← RETURN_WITH_SET_ERROR_WITH_ERRNO SG_ERROR_DISKINFO (Some ("GetDiskFreeSpace for " +:+ mnt));
      mret (rc, d)
  | Some (spc, bps, free_clusters, total_clusters) =>
      mret (SG_ERROR_NONE, fs_fill_win32 spc bps free_clusters total_clusters d)
  end.

(** * Disk transfers *)

(** The test every variant begins with. *)
Definition with_disk_io_vector (v : vptr) (body : M world (sg_error * vptr)) : M world (sg_error * vptr) :=
  match v with
  | None =>
      rc ← in_env (RETURN_WITH_SET_ERROR SG_ERROR_INVALID_ARGUMENT (Some "disk_io_stats_vector_ptr"));
      mret (rc, None)
  | Some _ => body
  end.

(** The name and the bytes read and written, for the variants that assign all. *)
Record disk_counters := mk_disk_counters { dc_name : string; dc_read : Z; dc_written : Z }.

(** The counters are assigned before the name. *)
Definition fill_disk_counters (systime : Z) (c : disk_counters) (it : item) : M env (sg_error * item) :=
  let d := as_disk_io it in
  let d := mk_disk_io_stats (dio_disk_name d) (u64 (dc_read c)) (u64 (dc_written c)) (dio_systime d) in
  r ← sg_update_string junk (dio_disk_name d) (Some (dc_name c));
  let d := dio_set_name r.2 d in
  if decide (r.1 <> SG_ERROR_NONE) then rc ← sg_get_error; mret (rc, IDiskIo d)
  else
    mret (SG_ERROR_NONE,
      IDiskIo (mk_disk_io_stats (dio_disk_name d) (dio_read_bytes d) (dio_write_bytes d) systime)).

(** ** AIX *)

Record perfstat_disk_t := mk_perfstat_disk {
  pd_name : string; pd_bsize : Z; pd_rblks : Z; pd_wblks : Z }.

(** The name up to the first character that is not one of a device name. *)
Definition device_char (c : ascii) : bool :=
  isalpha c || isdigit c || Ascii.eqb c "-" || Ascii.eqb c "_" || Ascii.eqb c " ".

Definition aix_disk_name (s : string) : string := (take_while device_char None s).1.

(** An item that has a name keeps it. *)
Definition fill_perfstat_disk (p : perfstat_disk_t) (it : item) : M env (sg_error * item) :=
  let d := as_disk_io it in
  let d := mk_disk_io_stats (dio_disk_name d) (pd_bsize p *u pd_rblks p) (pd_bsize p *u pd_wblks p) sys_time in
  match dio_disk_name d with
  | CNull =>
      r ← sg_update_string junk CNull (Some (aix_disk_name (pd_name p)));
      let d := dio_set_name r.2 d in
      if decide (r.1 <> SG_ERROR_NONE) then rc ← sg_get_error; mret (rc, IDiskIo d)
      else mret (SG_ERROR_NONE, IDiskIo d)
  | _ => mret (SG_ERROR_NONE, IDiskIo d)
  end.

Definition disk_io_aix (disks : unit + Z) (dskperf : list perfstat_disk_t + Z) (v : vptr)
    : M world (sg_error * vptr) :=
  with_disk_io_vector v (
  checked disks SG_ERROR_PSTAT (Some "perfstat_disk(NULL)") v (
  allocated (RETURN_WITH_SET_ERROR_WITH_ERRNO SG_ERROR_MALLOC (Some "sg_get_disk_io_stats")) v (
  r ← in_env (syscall dskperf);
  match r with
  | None => rc ← in_env (RETURN_WITH_SET_ERROR_WITH_ERRNO SG_ERROR_PSTAT (Some "perfstat_disk")); mret (rc, v)
  | Some l => sized_fill Kdisk_io (length l) (is_zero l) fill_perfstat_disk l v
  end))).

(** ** Mac OS X *)

(** A drive of the registry: the statuses of the three calls (0 is KERN_SUCCESS), the
    class of the parent, the name and the counters, [None] where a key is missing. *)
Record io_drive := mk_io_drive {
  id_parent : Z; id_block_storage : bool; id_properties : Z; id_bsd_name : option string;
  id_parent_properties : Z; id_bytes_read : option Z; id_bytes_written : option Z }.

Definition iokit_error (status : Z) (what : string) (v : vptr) : M world (sg_error * vptr) :=
  _ ← in_env (sg_set_error_with_errno_code_fmt SG_ERROR_IOKIT status (Some what));
  mret (SG_ERROR_IOKIT, v).

(** The statements between the VECTOR_UPDATE and the next drive; [inl] is a status
    with its message. *)
Definition fill_io_drive (dr : io_drive) (it : item) : M env (sg_error * item) :=
  let d := as_disk_io it in
  let fail status what d :=
    _ ← sg_set_error_with_errno_code_fmt SG_ERROR_IOKIT status (Some what); mret (SG_ERROR_IOKIT, IDiskIo d) in
  if negb (id_properties dr =? 0) then fail (id_properties dr) "device has no properties" d
  else
    r ← match id_bsd_name dr with
        | None => mret (SG_ERROR_NONE, dio_disk_name d)
        | Some n => sg_update_string junk (dio_disk_name d) (Some n)
        end;
    let d := dio_set_name r.2 d in
    if decide (r.1 <> SG_ERROR_NONE) then rc ← sg_get_error; mret (rc, IDiskIo d)
    else if negb (id_parent_properties dr =? 0) then fail (id_parent_properties dr) "parent has no properties" d
    else
      mret (SG_ERROR_NONE,
        IDiskIo (mk_disk_io_stats (dio_disk_name d)
          (default (dio_read_bytes d) (u64 <$> id_bytes_read dr))
          (default (dio_write_bytes d) (u64 <$> id_bytes_written dr)) sys_time)).

Fixpoint darwin_loop (drives : list io_drive) (n : nat) (v : vptr) : M world (sg_error * vptr) :=
  match drives with
  | [] => mret (SG_ERROR_NONE, v)
  | dr :: drives' =>
      if negb (id_parent dr =? 0) then iokit_error (id_parent dr) "device has no parent" v
      else if id_block_storage dr then
        r ← append_item Kdisk_io v n (fill_io_drive dr);
        if decide (r.1 <> SG_ERROR_NONE) then mret r else darwin_loop drives' (S n) r.2
      else darwin_loop drives' n v
  end.

Definition disk_io_darwin (status : Z) (drives : list io_drive) (v : vptr) : M world (sg_error * vptr) :=
  with_disk_io_vector v (
  if negb (status =? 0) then iokit_error status "couldn't match whole IOMedia devices" v
  else darwin_loop drives 0 v).

(** ** HP-UX *)

(** [psd_dkbyteread] and [psd_dkbytewrite], or the words of 64 bytes for both. *)
Record pst_diskinfo := mk_pst_diskinfo {
  psd_idx : Z; psd_status : Z; psd_major : Z; psd_minor : Z; psd_hw_path : string;
  psd_bytes : (Z * Z) + Z }.

Definition psd_counters (d : pst_diskinfo) : Z * Z :=
  match psd_bytes d with
  | inl rw => rw
  | inr dkwds => (s64 (dkwds * 64), s64 (dkwds * 64))
  end.

Definition diskid (d : pst_diskinfo) : Z := Z.lor (s32 (Z.shiftl (psd_major d) 24)) (psd_minor d).

Definition disk_devs_in : list string := ["/dev/dsk"; "/dev/disk"].

(** A directory: the names and what [lstat] tells of them. *)
Definition dev_dir : Type := string -> option (list (string * option Z)).

(** The first name of the directory with that device. *)
Definition find_dev (dir : dev_dir) (id : Z) (path : string) : option string :=
  match dir path with
  | None => None
  | Some l => fst <$> head (filter (fun e => e.2 = Some id) l)
  end.

(** A name found in the second directory replaces the one found in the first. *)
Fixpoint dev_names (dir : dev_dir) (id : Z) (paths : list string) (name : char_ptr)
    : M env (sg_error * char_ptr) :=
  match paths with
  | [] => mret (SG_ERROR_NONE, name)
  | p :: paths' =>
      match find_dev dir id p with
      | None => dev_names dir id paths' name
      | Some n =>
          r ← sg_update_string junk name (Some n);
          if decide (r.1 <> SG_ERROR_NONE) then rc ← sg_get_error; mret (rc, r.2)
          else dev_names dir id paths' r.2
      end
  end.

Definition fill_diskinfo (dir : dev_dir) (di : pst_diskinfo) (it : item) : M env (sg_error * item) :=
  let d := as_disk_io it in
  let '(rbytes, wbytes) := psd_counters di in
  r ← dev_names dir (diskid di) disk_devs_in (dio_disk_name d);
  let d := mk_disk_io_stats r.2 (u64 rbytes) (u64 wbytes) sys_time in
  if decide (r.1 <> SG_ERROR_NONE) then mret (r.1, IDiskIo d)
  else
    match r.2 with
    | CNull =>
        u ← sg_update_string junk CNull (Some (psd_hw_path di));
        if decide (u.1 <> SG_ERROR_NONE) then rc ← sg_get_error; mret (rc, IDiskIo (dio_set_name u.2 d))
        else mret (SG_ERROR_NONE, IDiskIo (dio_set_name u.2 d))
    | _ => mret (SG_ERROR_NONE, IDiskIo d)
    end.

(** The batches: [getdisk] is [pstat_getdisk] at an index. [num_diskio] items are
    filled so far. *)
Fixpoint hpux_batches (fuel : nat) (getdisk : Z -> list pst_diskinfo + Z) (dir : dev_dir)
    (diskidx : Z) (num_diskio : nat) (v : vptr) : M world (sg_error * vptr) :=
  match fuel with
  | O => stuck out_of_fuel
  | S fuel' =>
      b ← in_env (syscall (getdisk diskidx));
      match b with
      | None =>
          rc ← in_env (RETURN_WITH_SET_ERROR_WITH_ERRNO SG_ERROR_PSTAT
                         (Some ("pstat_getdisk(idx=" +:+ pretty diskidx +:+ ")")));
          mret (rc, v)
      | Some batch =>
          match last batch with
          | None => mret (SG_ERROR_NONE, v)
          | Some final =>
              let enabled := filter (fun d => psd_status d <> 0) batch in
              u ← VECTOR_UPDATE v (Z.of_nat (num_diskio + length enabled))
                    (negb (is_zero enabled) || bool_decide (num_diskio = O)) (VECTOR_INIT_INFO Kdisk_io);
              match u with
              | (p, Some rc) => mret (rc, p)
              | (p, None) =>
                  allocated (RETURN_WITH_SET_ERROR_WITH_ERRNO SG_ERROR_MALLOC
                               (Some "calloc for readdir_r()")) p (
                  r ← match p, enabled with
                      | Some l, _ => fill_slots (fill_diskinfo dir) enabled num_diskio l
                      | None, [] => mret (SG_ERROR_NONE, None)
                      | None, _ => stuck null_deref
                      end;
                  if decide (r.1 <> SG_ERROR_NONE) then mret r
                  else if 2 ^ 31 - 1 <=? psd_idx final then
                    rc ← in_env (RETURN_WITH_SET_ERROR SG_ERROR_PSTAT
                           (Some ("pstat_getdisk(idx=" +:+ pretty (psd_idx final) +:+ " >= INT_MAX)")));
                    mret (rc, r.2)
                  else hpux_batches fuel' getdisk dir (Z.rem (psd_idx final + 1) (2 ^ 31 - 1))
                         (num_diskio + length enabled) r.2)
              end
          end
      end
  end.

Definition disk_io_hpux (fuel : nat) (getdisk : Z -> list pst_diskinfo + Z) (dir : dev_dir) (v : vptr)
    : M world (sg_error * vptr) :=
  with_disk_io_vector v (hpux_batches fuel getdisk dir 0 0 v).

(** [sg_malloc(size)], whose error is the one returned. *)
Definition malloced (size : nat) (v : vptr) (next : M world (sg_error * vptr)) : M world (sg_error * vptr) :=
  b ← in_env (sg_realloc junk CNull size);
  match b with
  | None => rc ← in_env sg_get_error; mret (rc, v)
  | Some _ => next
  end.

(** ** NetBSD and OpenBSD *)

(** HW_IOSTATS and HW_DISKSTATS: the number of structures of the first call and what
    the second one delivers; the loop runs over the number. *)
Definition disk_io_sysctl (sizeof_stats : nat) (num_disks : nat + Z) (stats : list disk_counters + Z) (v : vptr)
    : M world (sg_error * vptr) :=
  with_disk_io_vector v (
  n ← in_env (syscall num_disks);
  match n with
  | None => rc ← in_env (RETURN_WITH_SET_ERROR_WITH_ERRNO SG_ERROR_SYSCTL (Some "CTL_HW.HW_DISKSTATS")); mret (rc, v)
  | Some n =>
      malloced (n * sizeof_stats) v (
      s ← in_env (syscall stats);
      match s with
      | None =>
          rc ← in_env (RETURN_WITH_SET_ERROR_WITH_ERRNO SG_ERROR_SYSCTL (Some "CTL_HW.HW_DISKSTATS")); mret (rc, v)
      | Some l =>
          if (length l <? n)%nat then stuck undefined_op
          else sized_fill Kdisk_io n (bool_decide (n = O)) (fill_disk_counters sys_time) (take n l) v
      end)
  end).

(** ** FreeBSD and DragonFly *)

Inductive devstat_type := DEVSTAT_TYPE_DIRECT | DEVSTAT_TYPE_SEQUENTIAL | DEVSTAT_TYPE_WORM
| DEVSTAT_TYPE_CDROM | DEVSTAT_TYPE_OPTICAL | DEVSTAT_TYPE_CHANGER | DEVSTAT_TYPE_STORARRAY
| DEVSTAT_TYPE_FLOPPY | DEVSTAT_TYPE_OTHER.

#[local] Instance devstat_type_eq_dec : EqDecision devstat_type.
Proof. solve_decision. Defined.

Record devstat := mk_devstat {
  ds_device_name : string; ds_unit_number : Z; ds_device_type : devstat_type;
  ds_bytes_read : Z; ds_bytes_written : Z }.

(** [asprintf] into the freed name. *)
Definition fill_devstat (dev : devstat) (it : item) : M env (sg_error * item) :=
  let d := as_disk_io it in
  let d := mk_disk_io_stats (dio_disk_name d) (ds_bytes_read dev) (ds_bytes_written dev) (dio_systime d) in
  _ ← match dio_disk_name d with CNull => mret tt | p => _ ← free_ptr p; mret tt end;
  a ← alloc_request;
  match a with
  | AFail =>
      rc ← RETURN_WITH_SET_ERROR_WITH_ERRNO SG_ERROR_ASPRINTF None; mret (rc, IDiskIo (dio_set_name CNull d))
  | _ =>
      mret (SG_ERROR_NONE,
        IDiskIo (mk_disk_io_stats (CStr (ds_device_name dev +:+ pretty (ds_unit_number dev)))
                   (dio_read_bytes d) (dio_write_bytes d) sys_time))
  end.

Definition disk_io_devstat (sizeof_devinfo : nat) (getdevs_fn : string) (devices : option (list devstat)) (v : vptr)
    : M world (sg_error * vptr) :=
  with_disk_io_vector v (
  malloced sizeof_devinfo v (
  match devices with
  | None => rc ← in_env (RETURN_WITH_SET_ERROR SG_ERROR_DEVSTAT_GETDEVS (Some getdevs_fn)); mret (rc, v)
  | Some l =>
      let disks := filter (fun d => ds_device_type d <> DEVSTAT_TYPE_OTHER) l in
      sized_fill Kdisk_io (length disks) (is_zero disks) fill_devstat disks v
  end)).

(** ** Solaris *)

(** A kstat of class disk; [kio] are the counters, [inr] when kstat_read fails. *)
Record kstat_disk := mk_kstat_disk {
  kd_class : string; kd_type_io : bool; kd_module : string; kd_name : string; kd_kios : (Z * Z) + Z }.

Definition is_disk_kstat (k : kstat_disk) : bool :=
  (strcmp (kd_class k) "disk" =? 0) && kd_type_io k && negb (strcmp (kd_module k) "md" =? 0).

Fixpoint solaris_disk_loop (mapping : mapping_t) (chain : list kstat_disk) (n : nat) (v : vptr)
    : M world (sg_error * vptr) :=
  match chain with
  | [] => mret (SG_ERROR_NONE, v)
  | k :: chain' =>
      if negb (is_disk_kstat k) then solaris_disk_loop mapping chain' n v
      else
        r ← in_env (syscall (kd_kios k));
        match r with
        | None => rc ← in_env (RETURN_WITH_SET_ERROR_WITH_ERRNO SG_ERROR_KSTAT_READ None); mret (rc, v)
        | Some (nread, nwritten) =>
            r ← append_item Kdisk_io v n (fun it =>
                  svr ← sg_get_svr_from_bsd mapping (kd_name k);
                  name ← read_ptr svr;
                  fill_disk_counters sys_time (mk_disk_counters name nread nwritten) it);
            if decide (r.1 <> SG_ERROR_NONE) then mret r
            else solaris_disk_loop mapping chain' (S n) r.2
        end
  end.

Definition disk_io_solaris (mapping : mapping_t) (chain : option (list kstat_disk)) (v : vptr)
    : M world (sg_error * vptr) :=
  with_disk_io_vector v
  match chain with
  | None => rc ← in_env (RETURN_WITH_SET_ERROR SG_ERROR_KSTAT_OPEN None); mret (rc, v)
  | Some l => solaris_disk_loop mapping l 0 v
  end.

(** ** Windows *)

(** The disks [get_diskio] delivers before it delivers NULL; the error that ended
    it stays behind. *)
Definition fill_diskio (c : disk_counters) (it : item) : M env (sg_error * item) :=
  let d := as_disk_io it in
  r ← sg_update_string junk (dio_disk_name d) (Some (dc_name c));
  if decide (r.1 <> SG_ERROR_NONE) then rc ← sg_get_error; mret (rc, IDiskIo (dio_set_name r.2 d))
  else mret (SG_ERROR_NONE, IDiskIo (mk_disk_io_stats r.2 (u64 (dc_read c)) (u64 (dc_written c)) 0)).

Definition disk_io_win32 (disks : list disk_counters) (v : vptr) : M world (sg_error * vptr) :=
  with_disk_io_vector v (
  in_env sg_clear_error;;
  append_loop Kdisk_io fill_diskio disks 0 v).
End disk_systems.
