(* ===== verification/Easy.v ===== *)
(** The functions EASY_COMP_ACCESS and EASY_COMP_DIFF generate: what the caller of
    a component with a single structure finds, and what the next call finds. *)

From S2P Require Import Prelude Types CLib Errors Tools Vector VectorSpec VectorDiff Items Comp.

Section easy_facts.
Context {mem : Memory} (k : kind) (Hk : item_managed k = false).

Lemma plain_info : destroy_fn (VECTOR_INIT_INFO k) = None.
Proof. by destruct k. Qed.

(** A slot of the component: unused, or a vector that holds one structure. *)
Definition holds (o : vptr) (x : item) (w : world) : Prop :=
  exists l v, o = Some l /\ w_vecs w !! l = Some v /\ wf_vec v /\
    info v = VECTOR_INIT_INFO k /\ used_count v = 1 /\ data v !! 0%nat = Some x.

Definition single_state (o : vptr) (w : world) : Prop :=
  o = None \/ exists x, holds o x w.

(** [fn_int] succeeds with a structure that satisfies [P]. *)
Definition gathers (fn_int : item -> M env (sg_error * item)) (P : item -> Prop) : Prop :=
  forall it (Q : sg_error * item -> env -> Prop) e, (AFail ∉ e_allocs e) ->
    (forall x e', calmer e e' -> P x -> Q (SG_ERROR_NONE, x) e') -> wp (fn_int it) Q e.

Lemma wf_write_plain v i it :
  wf_vec v -> info v = VECTOR_INIT_INFO k -> wf_vec (set_data (<[i := it]> (data v)) v).
Proof.
  intros [] Hi. split; cbn [start_eye final_eye info block_shift used_count alloc_count data set_data];
    rewrite ?length_insert; try done.
  apply Forall_true. intros x. unfold slot_ok. by rewrite Hi, plain_info.
Qed.

Lemma holds_used o x w : holds o x w -> exists l, o = Some l.
Proof. intros (l & v & -> & _). eauto. Qed.

Lemma wp_easy_create (Q : vptr -> world -> Prop) w :
  wf_heap w -> (AFail ∉ e_allocs (w_env w)) ->
  (forall x w', holds (Some (w_next w)) x w' -> wf_heap w' -> calmer (w_env w) (w_env w') ->
     others_kept None (w_next w) w w' -> Q (Some (w_next w)) w') ->
  wp (easy_create k) Q w.
Proof.
  intros Hh Hna HQ. apply wp_vector_create; [lia | lia | done |].
  intros v e He Hv Hu Hi.
  assert (exists x, data v !! 0%nat = Some x) as [x Hx].
  { apply lookup_lt_is_Some. destruct Hv. lia. }
  apply (HQ x).
  - exists (w_next w), v. split_and!; try done. apply lookup_insert_eq.
  - by apply wf_heap_new.
  - done.
  - intros y _ Hy. assert (y <> w_next w).
    { intros ->. rewrite Hh in Hy by lia. by destruct Hy. }
    split; [done|]. cbn. by rewrite lookup_insert_ne.
Qed.

(** [fn##_int] on the structure in the vector. *)
Lemma wp_call_int fn_int P l x0 (Q : sg_error -> world -> Prop) w :
  gathers fn_int P -> holds (Some l) x0 w -> wf_heap w -> (AFail ∉ e_allocs (w_env w)) ->
  (forall x w', P x -> holds (Some l) x w' -> wf_heap w' -> calmer (w_env w) (w_env w') ->
     others_kept (Some l) l w w' -> Q SG_ERROR_NONE w') ->
  wp (call_int fn_int l) Q w.
Proof.
  intros Hf (? & v & [= <-] & Hl & Hv & Hi & Hu & Hx0) Hh Hna HQ. unfold call_int.
  apply wp_bind. eapply wp_read_item; [done..|]. apply wp_bind, wp_in_env, Hf; [done|].
  intros x e He Px. cbn [fst snd]. apply wp_bind.
  assert (0 < length (data v))%nat by (by eapply lookup_lt_Some).
  eapply wp_write_item; [exact Hl | done |]. apply wp_ret. apply (HQ x); try done.
  - exists l, (set_data (<[0%nat := x]> (data v)) v). split_and!; try done.
    + apply lookup_upd.
    + by apply wf_write_plain.
    + cbn. by apply list_lookup_insert_eq.
  - intros y Hy. cbn. rewrite lookup_insert_ne; [by apply Hh|]. intros <-.
    by rewrite Hh in Hl.
  - intros y Hy _. assert (y <> l) by congruence. split; [done|]. cbn. by rewrite lookup_insert_ne.
Qed.

Lemma holds_env o x e w : holds o x w -> holds o x (with_env e w).
Proof. done. Qed.

Lemma holds_count l x w (Q : Z -> world -> Prop) :
  holds (Some l) x w -> Q 1 w -> wp (VECTOR_ITEM_COUNT (Some l)) Q w.
Proof.
  intros (? & v & [= <-] & Hl & _ & _ & Hu & _) HQ. apply wp_bind.
  eapply wp_read_vec; [done|]. rewrite <- Hu in HQ. by apply wp_ret.
Qed.

(** From the vector to the result. *)
Lemma wp_easy_finish fn_int P l x0 idx vs (Q : vptr * Z -> comp -> Prop) w :
  gathers fn_int P -> holds (Some l) x0 w -> wf_heap w -> (AFail ∉ e_allocs (w_env w)) ->
  vs !! idx = Some (Some l) ->
  (forall x w', P x -> holds (Some l) x w' -> wf_heap w' -> calmer (w_env w) (w_env w') ->
     others_kept (Some l) l w w' -> Q (Some l, 1) (mk_comp (Some vs) w')) ->
  wp (v ← get_vector idx;
      match v with
      | Some l =>
          rc ← in_world (call_int fn_int l);
          if decide (SG_ERROR_NONE = rc) then
            in_world clear_error;;
            n ← in_world (VECTOR_ITEM_COUNT (Some l));
            mret (Some l, n)
          else mret (None, 0)
      | None => _ ← in_world (in_env sg_get_error); mret (None, 0)
      end) Q (mk_comp (Some vs) w).
Proof.
  intros Hf Hl Hh Hna Hvs HQ. apply wp_bind. eapply wp_get_vector; [done|].
  apply wp_bind, wp_in_world. eapply wp_call_int; [done..|].
  intros x w' Px Hx Hh' Hc Ho. cbn [c_vectors]. rewrite decide_True by done.
  apply wp_bind, wp_in_world, wp_clear_error. intros e He. cbn [c_world c_vectors] in *.
  apply wp_bind, wp_in_world. eapply (holds_count l x); [exact Hx|]. apply wp_ret.
  apply (HQ x); try done. by transitivity (w_env w').
Qed.

Lemma wp_easy_access fn_int P idx o vs (Q : vptr * Z -> comp -> Prop) w :
  gathers fn_int P -> vs !! idx = Some o -> single_state o w -> wf_heap w ->
  (AFail ∉ e_allocs (w_env w)) ->
  (forall l x w', P x -> holds (Some l) x w' -> wf_heap w' -> calmer (w_env w) (w_env w') ->
     others_kept o l w w' -> (is_Some o -> o = Some l) ->
     Q (Some l, 1) (mk_comp (Some (<[idx := Some l]> vs)) w')) ->
  wp (EASY_COMP_ACCESS k idx fn_int) Q (mk_comp (Some vs) w).
Proof.
  intros Hf Hvs Ho Hh Hna HQ. assert (idx < length vs)%nat by (by eapply lookup_lt_Some).
  apply wp_bind, wp_gets. cbn [c_vectors]. apply wp_bind. eapply wp_get_vector; [done|].
  apply wp_bind. destruct Ho as [-> | [x0 Hx0]].
  - apply wp_bind, wp_in_world, wp_easy_create; [done | done |].
    intros x0 w1 Hx0 Hh1 Hc1 Ho1. cbn [c_world] in *. apply wp_set_vector; [done|].
    eapply wp_easy_finish; [done | exact Hx0 | done | by intros ?%Hc1 |
      by rewrite list_lookup_insert_eq |].
    intros x w2 Px Hx Hh2 Hc2 Ho2. apply (HQ _ x); try done.
    + by transitivity (w_env w1).
    + intros y Hy Hs. destruct (Ho1 y Hy Hs) as [Hne E].
      destruct (Ho2 y) as [_ E2]; [congruence | by rewrite E | split; congruence].
  - destruct (holds_used _ _ _ Hx0) as [l ->]. apply wp_ret.
    eapply wp_easy_finish; [done | exact Hx0 | done..|].
    intros x w2 Px Hx Hh2 Hc2 Ho2. rewrite <- (list_insert_id vs idx (Some l)) by done.
    by apply (HQ l x).
Qed.

(** A component that cannot gather its data reports nothing and keeps its vector. *)
Definition fails (fn_int : item -> M env (sg_error * item)) (code : sg_error) : Prop :=
  code <> SG_ERROR_NONE /\
  forall it (Q : sg_error * item -> env -> Prop) e, (AFail ∉ e_allocs e) ->
    (forall x e', calmer e e' -> eg_error (sg_get_error_glob e') = code -> Q (code, x) e') ->
    wp (fn_int it) Q e.

Lemma holds_kept o l x y w w' :
  others_kept o l w w' -> Some y <> o -> holds (Some y) x w -> holds (Some y) x w'.
Proof.
  intros Ho Hne (? & v & [= <-] & Hl & Hr). exists y, v.
  destruct (Ho y Hne) as [_ ->]; [by rewrite Hl|]. split; [done|]. by split.
Qed.

Lemma holds_read l x w (Q : item -> world -> Prop) :
  holds (Some l) x w -> Q x w -> wp (read_item l 0) Q w.
Proof. intros (? & v & [= <-] & Hl & _ & _ & _ & Hx) HQ. by eapply wp_read_item. Qed.

Section diff.
Context (fn_int : item -> M env (sg_error * item)) (P : item -> Prop) (Hf : gathers fn_int P).
Context (diff_int : item -> option item -> option item -> M env (sg_error * item)).
Context (f : item -> item -> item).
Context (Hd : forall it now la, diff_int it (Some now) (Some la) = mret (SG_ERROR_NONE, f now la)).

Lemma diff_gathers now last :
  gathers (fun it => diff_int it (Some now) (Some last)) (fun y => y = f now last).
Proof. intros it Q e _ HQ. rewrite Hd. apply wp_ret, HQ; [reflexivity | done]. Qed.

(** From the two vectors to the result. *)
Lemma wp_easy_diff_step nowidx diffidx last n d x0 vs (Q : vptr * Z -> comp -> Prop) w :
  nowidx <> diffidx -> vs !! nowidx = Some (Some n) -> vs !! diffidx = Some (Some d) -> d <> n ->
  holds (Some d) x0 w -> holds (Some n) last w -> wf_heap w -> (AFail ∉ e_allocs (w_env w)) ->
  (forall x w', P x -> holds (Some n) x w' -> holds (Some d) (f x last) w' ->
     Q (Some d, 1) (mk_comp (Some vs) w')) ->
  wp (diffv ← get_vector diffidx;
      match diffv with
      | Some dl =>
          last ← in_world (read_item n 0);
          now ← EASY_COMP_ACCESS k nowidx fn_int;
          match now.1 with
          | None => mret (None, 0)
          | Some l =>
              it ← in_world (read_item l 0);
              rc ← in_world (call_diff diff_int dl (Some it) (Some last));
              if decide (SG_ERROR_NONE = rc) then
                in_world clear_error;;
                v ← get_vector diffidx;
                n ← in_world (VECTOR_ITEM_COUNT v);
                mret (Some dl, n)
              else mret (None, 0)
          end
      | None => mret (None, 0)
      end) Q (mk_comp (Some vs) w).
Proof.
  intros Hne Hn Hdi Hdn Hx0 Hl Hh Hna HQ.
  apply wp_bind. eapply wp_get_vector; [done|].
  apply wp_bind, wp_in_world. eapply holds_read; [exact Hl|]. cbn [c_vectors c_world].
  apply wp_bind. eapply (wp_easy_access fn_int P nowidx (Some n)); [done | done | | done | done |].
  { right. by eexists. }
  intros l x w2 Px Hx Hh2 Hc2 Ho2 Hsame. injection (Hsame (mk_is_Some _ _ eq_refl)) as <-.
  rewrite list_insert_id by done. cbn [fst snd].
  apply wp_bind, wp_in_world. eapply holds_read; [exact Hx|]. cbn [c_vectors c_world].
  apply wp_bind, wp_in_world.
  apply (wp_call_int _ _ d x0 _ _ (diff_gathers x last));
    [eapply holds_kept; [exact Ho2 | congruence | done] | done | by intros ?%Hc2 |].
  intros y w3 -> Hy Hh3 Hc3 Ho3. rewrite decide_True by done. cbn [c_world] in *.
  apply wp_bind, wp_in_world, wp_clear_error. intros e He. cbn [c_world c_vectors].
  apply wp_bind. eapply wp_get_vector; [done|].
  apply wp_bind, wp_in_world. eapply (holds_count d (f x last)); [exact Hy|]. apply wp_ret.
  cbn [c_vectors]. apply (HQ x); [done | | done]. apply holds_env.
  eapply holds_kept; [exact Ho3 | congruence | done].
Qed.

Lemma wp_easy_diff nowidx diffidx last n od vs (Q : vptr * Z -> comp -> Prop) w :
  nowidx <> diffidx -> vs !! nowidx = Some (Some n) -> vs !! diffidx = Some od ->
  od <> Some n -> holds (Some n) last w -> single_state od w -> wf_heap w ->
  (AFail ∉ e_allocs (w_env w)) ->
  (forall d x w', P x -> holds (Some n) x w' -> holds (Some d) (f x last) w' ->
     Q (Some d, 1) (mk_comp (Some (<[diffidx := Some d]> vs)) w')) ->
  wp (EASY_COMP_DIFF k diffidx nowidx (EASY_COMP_ACCESS k nowidx fn_int) diff_int) Q
     (mk_comp (Some vs) w).
Proof.
  intros Hne Hn Hdv Hod Hlast Ho Hh Hna HQ.
  assert (diffidx < length vs)%nat by (by eapply lookup_lt_Some).
  apply wp_bind, wp_gets. cbn [c_vectors]. apply wp_bind. eapply wp_get_vector; [done|].
  apply wp_bind. eapply wp_get_vector; [done|]. apply wp_bind.
  destruct Ho as [-> | [x0 Hx0]].
  - apply wp_bind, wp_in_world, wp_easy_create; [done | done |].
    intros x0 w1 Hx0 Hh1 Hc1 Ho1. cbn [c_world] in *. apply wp_set_vector; [done|].
    pose proof (holds_kept _ _ _ n _ _ Ho1 ltac:(done) Hlast) as Hlast1.
    assert (w_next w <> n).
    { intros <-. destruct Hlast as (? & v & [= <-] & Hl & _). by rewrite Hh in Hl. }
    eapply wp_easy_diff_step; [done | by rewrite list_lookup_insert_ne |
      by rewrite list_lookup_insert_eq | done | exact Hx0 | done | done | by intros ?%Hc1 | eauto].
  - destruct (holds_used _ _ _ Hx0) as [d ->]. apply wp_ret.
    eapply wp_easy_diff_step; [done | done | done | congruence | exact Hx0 | done | done | done |].
    intros x w' Px H1 H2. rewrite <- (list_insert_id vs diffidx (Some d)) by done. eauto.
Qed.
End diff.
End easy_facts.
