(* ===== verification/Process.v ===== *)
(** src/src/libstatgrab/process_stats.c for Linux: the process ids of /proc, the
    files of every process, command lines, the order functions and the counts. *)

From S2P Require Import Prelude Types CLib Errors Tools Vector VectorSpec VectorDiff Items Comp Stdio ToolsExt Fill Single.

Local Open Scope sg_scope.

#[export] Instance sg_process_state_eq_dec : EqDecision sg_process_state.
Proof. solve_decision. Defined.

(** * The process ids *)

(** [struct pids_in_proc_dir_t]: the chain of pages, each with the ids it holds. *)
Definition pids_in_proc_dir_t : Type := list (list Z).

(** Where [items] begins in the structure. *)
Definition items_offset : Z := 16.

Section pids.
Context {sys : System}.

Definition alloc_pids_in_proc_dir : M env (option (list Z)) :=
  a ← alloc_request;
  match a with AFail => mret None | _ => mret (Some []) end.

(** [offsetof(struct pids_in_proc_dir_t, items[nitems+1]) > size], a [pid_t] having
    four bytes. *)
Definition PIPD_IS_FULL (page : list Z) : bool :=
  sys_page_size <? items_offset + 4 * (Z.of_nat (length page) + 1).

(** [pipd] is the last page of the chain [front ++ [pipd]]; the result is the new
    chain, [None] when a page cannot be allocated. *)
Definition add_pid_to_pids_in_proc_dir (pid : Z) (front : list (list Z)) (pipd : list Z)
    : M env (option (list (list Z) * list Z)) :=
  if PIPD_IS_FULL pipd then
    next ← alloc_pids_in_proc_dir;
    match next with
    | None => mret None
    | Some page => mret (Some (front ++ [pipd], page ++ [pid]))
    end
  else mret (Some (front, pipd ++ [pid])).

(** [free_pids_in_proc_dir(pipd, false)]: the rest of the chain. *)
Definition free_pids_in_proc_dir (pipd : pids_in_proc_dir_t) : pids_in_proc_dir_t := tail pipd.

(** The id a directory entry names: [sscanf(d_name, "%d", &pid)] is not 0. *)
Definition entry_pid (d_name : string) : option Z :=
  let '(n, vals) := sscanf d_name "%d" in
  if n =? 0 then None else Some (arg_int 0 vals 0).

Fixpoint scan_loop (entries : list string) (front : list (list Z)) (wrk : list Z)
    : M env (option pids_in_proc_dir_t) :=
  match entries with
  | [] => mret (Some (front ++ [wrk]))
  | d :: entries' =>
      match entry_pid d with
      | None => scan_loop entries' front wrk
      | Some pid =>
          r ← add_pid_to_pids_in_proc_dir pid front wrk;
          match r with
          | None => mret None
          | Some (front', wrk') => scan_loop entries' front' wrk'
          end
      end
  end.

(** [dir]: the names in the directory with the result of the last [readdir_r], or
    the errno of [opendir]. *)
Definition scan_proc_dir (path : string) (dir : (list string * Z) + Z)
    : M env (option pids_in_proc_dir_t) :=
  cnt ← alloc_pids_in_proc_dir;
  match cnt with
  | None => mret None
  | Some page =>
      a ← alloc_request;
      match a with
      | AFail => mret None
      | _ =>
          match dir with
          | inr err =>
              modify (set_errno err);;
              SET_ERROR_WITH_ERRNO SG_ERROR_OPENDIR (Some path);;
              mret None
          | inl (entries, rc) =>
              r ← scan_loop entries [] page;
              (if negb (rc =? 0) && bool_decide (is_Some r)
               then _ ← sg_set_error_with_errno_code_fmt SG_ERROR_READDIR rc (Some path); mret tt
               else mret tt);;
              mret r
          end
      end
  end.
End pids.

(** * Command lines *)

(** The loop of adjust_procname_cmndline from index [p] of the buffer [b]. *)
Fixpoint adjust_loop (fuel : nat) (b : list ascii) (len p : nat) : option (list ascii * nat) :=
  match fuel with
  | O => None
  | S fuel' =>
      if negb (len =? 0)%nat && negb (p <? len)%nat then Some (b, p)
      else
        next ← buf_read b (S p);
        if decide (next = NUL) then Some (b, p)
        else
          c ← buf_read b p;
          if decide (c = NUL) then adjust_loop fuel' (<[p := " "%char]> b) len (S p)
          else n ← strlen (drop p b); adjust_loop fuel' b len (p + n)
  end.

(** The Linux variant; [None] for an access outside of the block. *)
Definition adjust_procname_cmndline (b : list ascii) (len : nat) : option (list ascii) :=
  r ← adjust_loop (S (length b)) b len 0;
  if (len =? 0)%nat then buf_write r.1 r.2 NUL else buf_write r.1 len NUL.

(** * One process *)

(** [strncat(dst, src, size - strlen(dst) - 1)] into a buffer of [size] bytes. *)
Definition strncat_buf (size : nat) (dst src : string) : string :=
  dst +:+ String.substring 0 (size - String.length dst - 1) src.

(** The loop over the command name: one ["%*s"] per word. *)
Fixpoint comm_jmp_loop (fuel : nat) (tok jmp : string) : string :=
  match fuel with
  | O => jmp
  | S fuel' =>
      match tok with
      | EmptyString => jmp
      | String c tok' =>
          if isspace c then
            let jmp := strncat_buf 32 (strncat_buf 32 jmp " ") "%*s" in
            match (take_while isspace None tok).2 with
            | EmptyString => jmp
            | String _ tok'' => comm_jmp_loop fuel' tok'' jmp
            end
          else comm_jmp_loop fuel' tok' jmp
      end
  end.

Definition comm_jmp (comm : string) : string :=
  comm_jmp_loop (String.length comm) comm (strncat_buf 32 EmptyString "%*s").

Definition proc_stat_fmt_rest : string :=
  " %c %d %d %*d %*d %*d %*u %*u %*u %*u %*u %lu %lu %*d %*d %*d %d %*d %*d %llu %llu %llu %*u %*u %*u %*u %*u %*u %*u %*u %*u %*u %*u %*u %*u %*d %*d".

(** [sizeof proc_stat_fmt_base]: every percent sign of the result but that of [%s] is
    doubled there, and the terminator counts. *)
Definition proc_stat_fmt_size : nat := 191.

Definition proc_stat_fmt (comm : string) : string :=
  vsnprintf proc_stat_fmt_size ("%d " +:+ comm_jmp comm +:+ proc_stat_fmt_rest).

Definition proc_stat_fmt_default : string := "%d %4095s" +:+ proc_stat_fmt_rest.

Definition process_state (s : string) : sg_process_state :=
  match s with
  | "S" => SG_PROCESS_STATE_SLEEPING
  | "R" => SG_PROCESS_STATE_RUNNING
  | "Z" => SG_PROCESS_STATE_ZOMBIE
  | "T" | "D" => SG_PROCESS_STATE_STOPPED
  | _ => SG_PROCESS_STATE_UNKNOWN
  end%string.

(** The text before the first [c]; [None] when there is none. *)
Fixpoint before_char (c : ascii) (s : string) : option string :=
  match s with
  | EmptyString => None
  | String x s' => if decide (x = c) then Some EmptyString else String x <$> before_char c s'
  end.

(** [strchr(&read_buf[1], ')')] and [&read_buf[rc]]. *)
Definition process_name_of (read_buf : string) : string :=
  match read_buf with
  | EmptyString => EmptyString
  | String c r =>
      match before_char ")" r with
      | Some inner => inner
      | None => read_buf
      end
  end.

(** ** The parts of the structure *)

Definition ps_set_stat (pid parent pgid nice size res : Z) (st : sg_process_state)
    (d : sg_process_stats) : sg_process_stats :=
  mk_process_stats (ps_process_name d) (ps_proctitle d) pid parent pgid (ps_sessid d) (ps_uid d)
    (ps_euid d) (ps_gid d) (ps_egid d) (ps_context_switches d) (ps_voluntary_context_switches d)
    (ps_involuntary_context_switches d) size res (ps_start_time d) (ps_time_spent d)
    (ps_cpu_percent d) nice st (ps_systime d).

Definition ps_set_names (n t : char_ptr) (d : sg_process_stats) : sg_process_stats :=
  ps_set n t (ps_sessid d) d.

Definition ps_set_times (start spent : Z) (cpu : double) (d : sg_process_stats) : sg_process_stats :=
  mk_process_stats (ps_process_name d) (ps_proctitle d) (ps_pid d) (ps_parent d) (ps_pgid d)
    (ps_sessid d) (ps_uid d) (ps_euid d) (ps_gid d) (ps_egid d) (ps_context_switches d)
    (ps_voluntary_context_switches d) (ps_involuntary_context_switches d) (ps_proc_size d)
    (ps_proc_resident d) start spent cpu (ps_nice d) (ps_state d) (ps_systime d).

Definition ps_set_ids (uid euid gid egid : Z) (d : sg_process_stats) : sg_process_stats :=
  mk_process_stats (ps_process_name d) (ps_proctitle d) (ps_pid d) (ps_parent d) (ps_pgid d)
    (ps_sessid d) uid euid gid egid (ps_context_switches d) (ps_voluntary_context_switches d)
    (ps_involuntary_context_switches d) (ps_proc_size d) (ps_proc_resident d) (ps_start_time d)
    (ps_time_spent d) (ps_cpu_percent d) (ps_nice d) (ps_state d) (ps_systime d).

Definition ps_set_switches (all vol invol : Z) (d : sg_process_stats) : sg_process_stats :=
  mk_process_stats (ps_process_name d) (ps_proctitle d) (ps_pid d) (ps_parent d) (ps_pgid d)
    (ps_sessid d) (ps_uid d) (ps_euid d) (ps_gid d) (ps_egid d) all vol invol (ps_proc_size d)
    (ps_proc_resident d) (ps_start_time d) (ps_time_spent d) (ps_cpu_percent d) (ps_nice d)
    (ps_state d) (ps_systime d).

Definition ps_set_systime (t : Z) (d : sg_process_stats) : sg_process_stats :=
  mk_process_stats (ps_process_name d) (ps_proctitle d) (ps_pid d) (ps_parent d) (ps_pgid d)
    (ps_sessid d) (ps_uid d) (ps_euid d) (ps_gid d) (ps_egid d) (ps_context_switches d)
    (ps_voluntary_context_switches d) (ps_involuntary_context_switches d) (ps_proc_size d)
    (ps_proc_resident d) (ps_start_time d) (ps_time_spent d) (ps_cpu_percent d) (ps_nice d)
    (ps_state d) t.

(** How the body of the loop ends: with the next id and the same slot, with the
    next id and the next slot, or with an error for the caller. *)
Inductive step := Skip | Stored | Failed (rc : sg_error).

(** The [FMT_PID_T] of a printed path. *)
Definition print_pid (pid : Z) : string := pretty pid.

Section process.
Context {mem : Memory} {sys : System}.
(** [sysconf(_SC_CLK_TCK)] *)
Context (tickspersec : Z).

Definition proc_path (pid : Z) (file : string) : string :=
  "/proc/" +:+ print_pid pid +:+ "/" +:+ file.

(** The command name without its newline: [None] when comm cannot be opened,
    [Some None] when it is empty. *)
Definition read_comm (pid : Z) : M env (option (option string)) :=
  f ← fopen (proc_path pid "comm");
  match f with
  | None => mret None
  | Some c =>
      match fgets 4095 c with
      | None => mret (Some None)
      | Some (line, _) =>
          mret (Some (Some (default line (before_char newline line))))
      end
  end.

(** uid and gid, then the context switches, from the lines of the status file in the
    order they are looked for; [None] when the first two are not found. *)
Definition read_status (f : string) (d : sg_process_stats) : bool * sg_process_stats :=
  match sg_f_read_line f 4096 "Uid:" with
  | None => (false, d)
  | Some (line, f) =>
      let '(_, v) := sscanf line "Uid: %u %u %*d %*d " in
      let d := ps_set_ids (arg_int (ps_uid d) v 0) (arg_int (ps_euid d) v 1) (ps_gid d) (ps_egid d) d in
      match sg_f_read_line f 4096 "Gid:" with
      | None => (false, d)
      | Some (line, f) =>
          let '(_, v) := sscanf line "Gid: %u %u %*d %*d " in
          let d := ps_set_ids (ps_uid d) (ps_euid d) (arg_int (ps_gid d) v 0) (arg_int (ps_egid d) v 1) d in
          let '(vol, f) :=
            match sg_f_read_line f 4096 "voluntary_ctxt_switches:" with
            | Some (line, f) =>
                (arg_int (ps_voluntary_context_switches d)
                   (sscanf line "voluntary_ctxt_switches: %llu").2 0, f)
            | None => (0, EmptyString)
            end in
          let invol :=
            match sg_f_read_line f 4096 "nonvoluntary_ctxt_switches:" with
            | Some (line, _) =>
                arg_int (ps_involuntary_context_switches d)
                  (sscanf line "nonvoluntary_ctxt_switches: %llu").2 0
            | None => 0
            end in
          (true, ps_set_switches (vol +u invol) vol invol d)
      end
  end.

(** [ceil(n / 4096)] calls of sg_realloc for a command line of [n] bytes: whether
    all of them succeed. *)
Fixpoint grow_title (calls : nat) : M env bool :=
  match calls with
  | O => mret true
  | S calls' =>
      a ← alloc_request;
      match a with
      | AFail => SET_ERROR_WITH_ERRNO SG_ERROR_MALLOC (Some "sg_realloc");; mret false
      | _ => grow_title calls'
      end
  end.

(** The command line; reading an open file of /proc does not fail. *)
Definition read_cmdline (c : string) (d : sg_process_stats) : M env (step * sg_process_stats) :=
  let len := String.length c in
  ok ← grow_title ((len + 4095) / 4096)%nat;
  if negb ok then
    rc ← sg_get_error; mret (Failed rc, ps_set_names (ps_process_name d) CNull d)
  else
    buf ← (if (len =? 0)%nat then
             match ps_proctitle d with
             | CNull => mret None
             | p => s ← read_ptr p; mret (Some (c_str s))
             end
           else mret (Some (String.list_ascii_of_string c ++ [junk])));
    match buf with
    | None =>
        name ← read_ptr (ps_process_name d);
        a ← alloc_request;
        match a with
        | AFail =>
            rc ← RETURN_WITH_SET_ERROR_WITH_ERRNO SG_ERROR_ASPRINTF None; mret (Failed rc, d)
        | _ => mret (Stored, ps_set_names (ps_process_name d) (CStr ("[" +:+ name +:+ "]")) d)
        end
    | Some b =>
        match buf_write b len NUL with
        | None => stuck out_of_bounds
        | Some b =>
            match adjust_procname_cmndline b len with
            | None => stuck out_of_bounds
            | Some b' =>
                t ← own_block b';
                mret (Stored, ps_set_names (ps_process_name d) t d)
            end
        end
    end.

(** The body of the loop behind VECTOR_UPDATE: [stat] is the contents of the stat
    file, [comm] the command name when it was read. *)
Definition fill_process (uptime : Z) (pid : Z) (comm : option string) (stat : string)
    (d : sg_process_stats) : M env (step * sg_process_stats) :=
  let '(rc, v, read_buf) :=
    match comm with
    | Some c => let '(n, v) := sscanf stat (proc_stat_fmt c) in (n, v, c)
    | None =>
        let '(n, v) := sscanf stat proc_stat_fmt_default in
        (n, take 1 v ++ drop 2 v, arg_str EmptyString v 1)
    end in
  let st := match v !! 1%nat with Some (VStr s) => s | _ => EmptyString end in
  let d := ps_set_stat (arg_int (ps_pid d) v 0) (arg_int (ps_parent d) v 2) (arg_int (ps_pgid d) v 3)
             (arg_int (ps_nice d) v 6) (arg_int (ps_proc_size d) v 8)
             (arg_int (ps_proc_resident d) v 9) (ps_state d) d in
  let need := match comm with Some _ => 10 | None => 11 end in
  if rc <? need then mret (Skip, d)
  else
    let d := ps_set_stat (ps_pid d) (ps_parent d) (ps_pgid d) (ps_nice d) (ps_proc_size d)
               ((ps_proc_resident d +u 3) *u sys_page_size) (process_state st) d in
    n ← sg_update_string junk (ps_process_name d) (Some (process_name_of read_buf));
    let d := ps_set_names n.2 (ps_proctitle d) d in
    if decide (SG_ERROR_NONE <> n.1) then rc ← sg_get_error; mret (Failed rc, d)
    else
      let ticks := arg_int 0 v 4 +u arg_int 0 v 5 in
      let starttime := arg_int 0 v 7 in
      let cpu := double_div (double_mul (double_of 100) (double_of ticks))
                   (double_sub (double_mul (double_of uptime) (double_of 100)) (double_of starttime)) in
      if tickspersec =? 0 then stuck undefined_op
      else
        let d :=
          if tickspersec <? 0 then ps_set_times 0 0 cpu d
          else ps_set_times (s64 (u64 (s64 (sys_time - uptime) + starttime / tickspersec)))
                 (s64 (ticks / tickspersec)) cpu d in
        f ← fopen (proc_path pid "status");
        match f with
        | None => mret (Skip, d)
        | Some sf =>
            let '(ok, d) := read_status sf d in
            if negb ok then mret (Skip, d)
            else
              f ← fopen (proc_path pid "cmdline");
              match f with
              | None => mret (Skip, d)
              | Some c =>
                  r ← read_cmdline c d;
                  match r with
                  | (Stored, d) => mret (Stored, ps_set_systime sys_time d)
                  | r => mret r
                  end
              end
        end.

(** The loop over the chain of pages: [pid_item] in the first page, [n] is
    [proc_items]. When the comm file is empty the code goes on without taking the
    next id, hence the fuel. *)
Fixpoint process_loop (fuel : nat) (uptime : Z) (chain : pids_in_proc_dir_t) (pid_item n : nat)
    (v : vptr) : M world (sg_error * nat * vptr) :=
  match fuel with
  | O => stuck out_of_fuel
  | S fuel' =>
      match chain with
      | [] => mret (SG_ERROR_NONE, n, v)
      | page :: _ =>
          match page !! pid_item with
          | None =>
              let chain' := free_pids_in_proc_dir chain in
              match chain' with
              | [] => process_loop fuel' uptime chain' 0 n v
              | page' :: _ =>
                  u ← VECTOR_UPDATE v (Z.of_nat (n + length page'))
                        ((n =? 0)%nat || negb (length page' =? 0)%nat) (VECTOR_INIT_INFO Kprocess);
                  match u with
                  | (p, Some rc) => mret (rc, n, p)
                  | (p, None) => process_loop fuel' uptime chain' 0 n p
                  end
              end
          | Some pid =>
              comm ← in_env (read_comm pid);
              match comm with
              | Some None => process_loop fuel' uptime chain pid_item n v
              | _ =>
                  stat ← in_env (fopen (proc_path pid "stat"));
                  match stat with
                  | None => process_loop fuel' uptime chain (S pid_item) n v
                  | Some sf =>
                      u ← VECTOR_UPDATE v (Z.of_nat n + 1) true (VECTOR_INIT_INFO Kprocess);
                      match u with
                      | (p, Some rc) => mret (rc, n, p)
                      | (None, None) => stuck null_deref
                      | (Some l, None) =>
                          it ← read_item l n;
                          r ← in_env (fill_process uptime pid (mjoin comm) sf (as_process it));
                          write_item l n (IProcess r.2);;
                          match r.1 with
                          | Failed rc => mret (rc, n, Some l)
                          | Skip => process_loop fuel' uptime chain (S pid_item) n (Some l)
                          | Stored => process_loop fuel' uptime chain (S pid_item) (S n) (Some l)
                          end
                      end
                  end
              end
          end
      end
  end.

(** One step per id, per page and for the end. *)
Definition process_fuel (chain : pids_in_proc_dir_t) : nat :=
  S (length (mjoin chain) + length chain).

(** The end of the function: the vector gets the size of what was stored. *)
Definition trim_processes (items : nat) (p : vptr) : M world (sg_error * vptr) :=
  match p with
  | None => mret (SG_ERROR_NONE, None)
  | Some l =>
      pv ← read_vec l;
      if used_count pv =? Z.of_nat items then mret (SG_ERROR_NONE, p)
      else
        u ← VECTOR_UPDATE p (Z.of_nat items) (items =? 0)%nat (VECTOR_INIT_INFO Kprocess);
        mret (default SG_ERROR_NONE u.2, u.1)
  end.

Definition sg_get_process_stats_int (dir : (list string * Z) + Z) (v : vptr)
    : M world (sg_error * vptr) :=
  f ← in_env (fopen "/proc/uptime");
  match f with
  | None =>
      rc ← in_env (RETURN_WITH_SET_ERROR_WITH_ERRNO SG_ERROR_OPEN (Some "/proc/uptime"));
      mret (rc, v)
  | Some c =>
      let '(n, vals) := sscanf c "%ld %*d" in
      if negb (n =? 1) then
        rc ← in_env (RETURN_WITH_SET_ERROR SG_ERROR_PARSE None); mret (rc, v)
      else
        let uptime := arg_int 0 vals 0 in
        chain ← in_env (scan_proc_dir "/proc" dir);
        match chain with
        | None => rc ← in_env sg_get_error; mret (rc, v)
        | Some ch =>
            let n0 := length (default [] (head ch)) in
            u ← VECTOR_UPDATE v (Z.of_nat n0) true (VECTOR_INIT_INFO Kprocess);
            match u with
            | (p, Some rc) => mret (rc, p)
            | (p, None) =>
                r ← process_loop (process_fuel ch) uptime ch 0 0 p;
                let '(rc, items, p) := (r : sg_error * nat * vptr) in
                if decide (rc <> SG_ERROR_NONE) then mret (rc, p) else trim_processes items p
            end
        end
  end.

Definition SG_PROC_STAT_IDX : nat := 0.
Definition SG_PROC_COUNT_IDX : nat := 1.

Definition sg_get_process_stats (dir : (list string * Z) + Z) : M comp (vptr * Z) :=
  MULTI_COMP_ACCESS Kprocess SG_PROC_STAT_IDX (sg_get_process_stats_int dir).

(** * Order functions *)

Definition compare_by (f : sg_process_stats -> Z) (a b : sg_process_stats) : Z :=
  if f a =? f b then 0 else if f a <? f b then -1 else 1.

Definition sg_process_compare_name (a b : sg_process_stats) : M env Z :=
  strcmp_field (ps_process_name a) (ps_process_name b).
Definition sg_process_compare_pid : sg_process_stats -> sg_process_stats -> Z := compare_by ps_pid.
Definition sg_process_compare_uid : sg_process_stats -> sg_process_stats -> Z := compare_by ps_uid.
Definition sg_process_compare_gid : sg_process_stats -> sg_process_stats -> Z := compare_by ps_gid.
Definition sg_process_compare_size : sg_process_stats -> sg_process_stats -> Z := compare_by ps_proc_size.
Definition sg_process_compare_res : sg_process_stats -> sg_process_stats -> Z := compare_by ps_proc_resident.
Definition sg_process_compare_time : sg_process_stats -> sg_process_stats -> Z := compare_by ps_time_spent.

(** Doubles compare as IEEE 754 says: nothing is equal to or less than a NaN. *)
Definition sg_process_compare_cpu (a b : sg_process_stats) : Z :=
  if SFeqb (ps_cpu_percent a) (ps_cpu_percent b) then 0
  else if SFltb (ps_cpu_percent a) (ps_cpu_percent b) then -1 else 1.

(** * Counts *)

Definition count_state (st : sg_process_state) (c : sg_process_count) : sg_process_count :=
  match st with
  | SG_PROCESS_STATE_RUNNING =>
      mk_process_count (pc_total c) (pc_running c +u 1) (pc_sleeping c) (pc_stopped c) (pc_zombie c)
        (pc_unknown c) (pc_systime c)
  | SG_PROCESS_STATE_SLEEPING =>
      mk_process_count (pc_total c) (pc_running c) (pc_sleeping c +u 1) (pc_stopped c) (pc_zombie c)
        (pc_unknown c) (pc_systime c)
  | SG_PROCESS_STATE_STOPPED =>
      mk_process_count (pc_total c) (pc_running c) (pc_sleeping c) (pc_stopped c +u 1) (pc_zombie c)
        (pc_unknown c) (pc_systime c)
  | SG_PROCESS_STATE_ZOMBIE =>
      mk_process_count (pc_total c) (pc_running c) (pc_sleeping c) (pc_stopped c) (pc_zombie c +u 1)
        (pc_unknown c) (pc_systime c)
  | SG_PROCESS_STATE_UNKNOWN =>
      mk_process_count (pc_total c) (pc_running c) (pc_sleeping c) (pc_stopped c) (pc_zombie c)
        (pc_unknown c +u 1) (pc_systime c)
  end.

(** [while( proc_count-- )]: from the last process to the first. *)
Fixpoint count_loop (l : positive) (n : nat) (c : sg_process_count) : M world sg_process_count :=
  match n with
  | O => mret c
  | S n' => it ← read_item l n'; count_loop l n' (count_state (ps_state (as_process it)) c)
  end.

(** [ps->systime] is read before the number of processes is looked at. *)
Definition sg_get_process_count_int (process_stats_vector : positive)
    : M world (sg_error * sg_process_count) :=
  v ← read_vec process_stats_vector;
  first ← read_item process_stats_vector 0;
  c ← count_loop process_stats_vector (Z.to_nat (used_count v))
        (mk_process_count (used_count v) 0 0 0 0 0 (ps_systime (as_process first)));
  mret (SG_ERROR_NONE, c).

Inductive sg_process_count_source := sg_entire_process_count | sg_last_process_count.

Definition sg_get_process_count_of (dir : (list string * Z) + Z) (pcs : sg_process_count_source)
    : M comp vptr :=
  glob ← gets c_vectors;
  match glob with
  | None => mret None
  | Some _ =>
      cv ← get_vector SG_PROC_COUNT_IDX;
      match cv with
      | None =>
          nv ← in_world (VECTOR_CREATE (VECTOR_INIT_INFO Kprocess_count) 1);
          set_vector SG_PROC_COUNT_IDX nv
      | Some _ => mret tt
      end;;
      cv ← get_vector SG_PROC_COUNT_IDX;
      match cv with
      | None =>
          in_world (in_env (SET_ERROR SG_ERROR_MALLOC (Some "sg_get_process_count_of")));;
          mret None
      | Some process_count =>
          last ← (match pcs with
                  | sg_last_process_count => get_vector SG_PROC_STAT_IDX
                  | sg_entire_process_count => mret None
                  end);
          pv ← (match last with
                | Some _ => mret last
                | None => _ ← sg_get_process_stats dir; get_vector SG_PROC_STAT_IDX
                end);
          match pv with
          | None => mret None
          | Some p =>
              r ← in_world (sg_get_process_count_int p);
              in_world (write_item process_count 0 (IProcessCount r.2));;
              mret (Some process_count)
          end
      end
  end.

(** [VECTOR_DATA_CONST(whereof)] takes the caller's data pointer for a vector and
    steps over a header that is behind it: the counts are then read from the
    middle of the caller's structures. *)
Definition sg_get_process_count_r (whereof : vptr) : M world vptr :=
  match whereof with
  | None =>
      in_env (SET_ERROR SG_ERROR_INVALID_ARGUMENT
                (Some "sg_get_process_count_r(whereof = (nil))"));;
      mret None
  | Some _ =>
      r ← VECTOR_CREATE (VECTOR_INIT_INFO Kprocess_count) 1;
      match r with
      | None => mret None
      | Some _ => stuck undefined_op
      end
  end.
End process.
