(* ===== verification/ProcessSys.v ===== *)
(** src/src/libstatgrab/process_stats.c for the systems other than Linux: Solaris, the
    BSDs, Mac OS X, HP-UX and AIX. What the system calls deliver is an argument. *)

From S2P Require Import Prelude Types CLib Errors Tools Vector VectorSpec VectorDiff Items Comp Stdio ToolsExt Fill Single NetworkSys DiskSys Process.

Local Open Scope sg_scope.

(** A [double] converted to an integer type. *)
Definition double_trunc (x : double) : Z :=
  match x with
  | S754_finite s m e =>
      let z := if 0 <=? e then Z.pos m * 2 ^ e else Z.pos m / 2 ^ (- e) in
      if s then - z else z
  | _ => 0
  end.

(** * Command lines *)

(** The pointer in the first eight bytes of the block, least significant byte first. *)
Fixpoint pointer_in (n : nat) (b : list ascii) : Z :=
  match n, b with
  | S n', c :: b' => Z.of_nat (nat_of_ascii c) + 256 * pointer_in n' b'
  | _, _ => 0
  end.

(** adjust_procname_cmndline for the systems whose block may begin with a table of
    pointers; [base] is the address of the block. The result is the block from [pt]. *)
Definition adjust_procname_table (base : Z) (b : list ascii) (len : nat) : option (list ascii) :=
  let p := if (8 <? len)%nat then pointer_in 8 b else base - Z.of_nat len - 1 in
  let off := Z.to_nat (p - base) in
  if negb (len =? 0)%nat && (base <=? p) && (off <? len)%nat
  then adjust_procname_cmndline (drop off b) (len - off)
  else adjust_procname_cmndline b len.

(** Mac OS X steps over the argument count; the length stays. *)
Definition adjust_procname_darwin (b : list ascii) (len : nat) : option (list ascii) :=
  adjust_procname_cmndline (drop 4 b) len.

Section process_systems.
Context {mem : Memory} {sys : System}.

(** One item of the vector at [l] changed by [fill]. *)
Definition update_process (l : positive) (n : nat)
    (fill : sg_process_stats -> M env (sg_error * sg_process_stats)) : M world sg_error :=
  it ← read_item l n;
  r ← in_env (fill (as_process it));
  write_item l n (IProcess r.2);;
  mret r.1.

(** [sg_update_string] of the name and then of the title. *)
Definition set_texts (name title : string) (d : sg_process_stats) : M env (sg_error * sg_process_stats) :=
  n ← sg_update_string junk (ps_process_name d) (Some name);
  let d := ps_set_names n.2 (ps_proctitle d) d in
  if decide (SG_ERROR_NONE <> n.1) then mret (n.1, d)
  else
    t ← sg_update_string junk (ps_proctitle d) (Some title);
    mret (t.1, ps_set_names (ps_process_name d) t.2 d).

(** [asprintf(&proctitle, "[%s]", process_name)]: the title before is not released. *)
Definition kernel_proctitle (arg : option string) (d : sg_process_stats) : M env (sg_error * sg_process_stats) :=
  name ← match ps_process_name d with CNull => mret "(null)"%string | p => read_ptr p end;
  a ← alloc_request;
  match a with
  | AFail => rc ← RETURN_WITH_SET_ERROR_WITH_ERRNO SG_ERROR_ASPRINTF arg; mret (rc, d)
  | _ => mret (SG_ERROR_NONE, ps_set_names (ps_process_name d) (CStr ("[" +:+ name +:+ "]")) d)
  end.

(** * Solaris *)

Record psinfo_t := mk_psinfo {
  pr_pid : Z; pr_ppid : Z; pr_pgid : Z; pr_uid : Z; pr_euid : Z; pr_gid : Z; pr_egid : Z;
  pr_size : Z; pr_rssize : Z; pr_start : Z; pr_time : Z; pr_pctcpu : Z; pr_nice : Z; pr_state : Z;
  pr_fname : string; pr_psargs : string }.

Definition solaris_state (pr_state : Z) (old : sg_process_state) : sg_process_state :=
  if pr_state =? 1 then SG_PROCESS_STATE_SLEEPING
  else if (pr_state =? 2) || (pr_state =? 5) then SG_PROCESS_STATE_RUNNING
  else if pr_state =? 3 then SG_PROCESS_STATE_ZOMBIE
  else if pr_state =? 4 then SG_PROCESS_STATE_STOPPED
  else old.

(** [usage]: the voluntary and involuntary context switches in process_usage after the [fread], when the file could
    be opened; [Some None] when process_usage was never written. *)
Definition fill_psinfo (i : psinfo_t) (usage : option (option (Z * Z))) (d : sg_process_stats)
    : M env (sg_error * sg_process_stats) :=
  let cpu := double_div (double_mul (double_of (pr_pctcpu i)) (double_of 100)) (double_of 0x8000) in
  let d := mk_process_stats (ps_process_name d) (ps_proctitle d) (pr_pid i) (pr_ppid i) (pr_pgid i)
             (ps_sessid d) (pr_uid i) (pr_euid i) (pr_gid i) (pr_egid i) (ps_context_switches d)
             (ps_voluntary_context_switches d) (ps_involuntary_context_switches d)
             (pr_size i *u 1024) (pr_rssize i *u 1024) (pr_start i) (pr_time i) cpu
             (pr_nice i - 20) (ps_state d) (ps_systime d) in
  r ← set_texts (pr_fname i) (pr_psargs i) d;
  let d := r.2 in
  if decide (r.1 <> SG_ERROR_NONE) then rc ← sg_get_error; mret (rc, d)
  else
    let d := ps_set_stat (ps_pid d) (ps_parent d) (ps_pgid d) (ps_nice d) (ps_proc_size d)
               (ps_proc_resident d) (solaris_state (pr_state i) (ps_state d)) d in
    match usage with
    | Some None => stuck undefined_op
    | Some (Some (vctx, ictx)) =>
        mret (SG_ERROR_NONE, ps_set_systime sys_time (ps_set_switches (vctx +u ictx) vctx ictx d))
    | None => mret (SG_ERROR_NONE, ps_set_systime sys_time d)
    end.

(** What the files of a process do to a local structure: [None] when [fopen] fails, and otherwise what the [fread],
    whose result is not looked at, leaves in the structure, given what was in it ([None]: never written). *)
Definition proc_file (A : Type) : Type := Z -> option (option A -> option A).

(** process_info and process_usage, which live as long as the call. *)
Definition solaris_locals : Type := option psinfo_t * option (Z * Z).

(** The ids of a page. The result: the error, the number of items stored and the two structures. *)
Fixpoint solaris_page (psinfo : proc_file psinfo_t) (usage : proc_file (Z * Z)) (page : list Z)
    (n : nat) (bufs : solaris_locals) (v : vptr) : M world (sg_error * nat * solaris_locals) :=
  match page with
  | [] => mret (SG_ERROR_NONE, n, bufs)
  | pid :: page' =>
      match psinfo pid with
      | None => solaris_page psinfo usage page' n bufs v
      | Some fread_psinfo =>
          let process_info := fread_psinfo bufs.1 in
          let process_usage := (fun fread_usage => fread_usage bufs.2) <$> usage pid in
          match process_info, v with
          | None, _ => stuck undefined_op
          | Some _, None => stuck null_deref
          | Some i, Some l =>
              rc ← update_process l n (fill_psinfo i process_usage);
              if decide (rc <> SG_ERROR_NONE) then mret (rc, n, bufs)
              else solaris_page psinfo usage page' (S n) (process_info, default bufs.2 process_usage) v
          end
      end
  end.

Fixpoint solaris_pages (psinfo : proc_file psinfo_t) (usage : proc_file (Z * Z))
    (chain : pids_in_proc_dir_t) (n : nat) (bufs : solaris_locals) (v : vptr) : M world (sg_error * nat * vptr) :=
  match chain with
  | [] => mret (SG_ERROR_NONE, n, v)
  | page :: chain' =>
      u ← VECTOR_UPDATE v (Z.of_nat (n + length page))
            ((n =? 0)%nat || negb (length page =? 0)%nat) (VECTOR_INIT_INFO Kprocess);
      match u with
      | (p, Some rc) => mret (rc, n, p)
      | (p, None) =>
          r ← solaris_page psinfo usage page n bufs p;
          let '(rc, n', bufs') := (r : sg_error * nat * solaris_locals) in
          if decide (rc <> SG_ERROR_NONE) then mret (rc, n', p)
          else solaris_pages psinfo usage chain' n' bufs' p
      end
  end.

Definition process_stats_solaris (psinfo : proc_file psinfo_t) (usage : proc_file (Z * Z))
    (dir : (list string * Z) + Z) (v : vptr) : M world (sg_error * vptr) :=
  chain ← in_env (scan_proc_dir "/proc" dir);
  match chain with
  | None => rc ← in_env sg_get_error; mret (rc, v)
  | Some ch =>
      r ← solaris_pages psinfo usage ch 0 (None, None) v;
      let '(rc, items, p) := (r : sg_error * nat * vptr) in
      if decide (rc <> SG_ERROR_NONE) then mret (rc, p) else trim_processes items p
  end.

(** * HP-UX *)

Inductive pst_stat_t := PS_SLEEP | PS_RUN | PS_STOP | PS_ZOMBIE | PS_IDLE | PS_OTHER.

Record pst_status := mk_pst_status {
  pst_idx : Z; pst_pid : Z; pst_ppid : Z; pst_pgrp : Z; pst_uid : Z; pst_euid : Z; pst_gid : Z;
  pst_egid : Z; pst_nvcsw : Z; pst_nivcsw : Z; pst_dsize : Z; pst_tsize : Z; pst_ssize : Z;
  pst_rssize : Z; pst_start : Z; pst_time : Z; pst_pctcpu : Z; pst_nice : Z; pst_stat : pst_stat_t;
  pst_ucomm : string; pst_cmd : string }.

Definition hpux_state (s : pst_stat_t) : sg_process_state :=
  match s with
  | PS_SLEEP => SG_PROCESS_STATE_SLEEPING
  | PS_RUN => SG_PROCESS_STATE_RUNNING
  | PS_STOP => SG_PROCESS_STATE_STOPPED
  | PS_ZOMBIE => SG_PROCESS_STATE_ZOMBIE
  | PS_IDLE | PS_OTHER => SG_PROCESS_STATE_UNKNOWN
  end.

Definition fill_pst_status (i : pst_status) (it : item) : M env (sg_error * item) :=
  let d := as_process it in
  let cpu := double_div (double_mul (double_of (pst_pctcpu i)) (double_of 100)) (double_of 0x8000) in
  let d := mk_process_stats (ps_process_name d) (ps_proctitle d) (pst_pid i) (pst_ppid i) (pst_pgrp i)
             (ps_sessid d) (pst_uid i) (pst_euid i) (pst_gid i) (pst_egid i)
             (u64 (pst_nvcsw i + pst_nivcsw i)) (u64 (pst_nvcsw i)) (u64 (pst_nivcsw i))
             (u64 ((pst_dsize i + pst_tsize i + pst_ssize i) * sys_page_size))
             (u64 (pst_rssize i * sys_page_size)) (pst_start i) (pst_time i) cpu (pst_nice i)
             (ps_state d) (ps_systime d) in
  r ← set_texts (pst_ucomm i) (pst_cmd i) d;
  let d := r.2 in
  if decide (r.1 <> SG_ERROR_NONE) then mret (r.1, IProcess d)
  else
    let d := ps_set_stat (ps_pid d) (ps_parent d) (ps_pgid d) (ps_nice d) (ps_proc_size d)
               (ps_proc_resident d) (hpux_state (pst_stat i)) d in
    mret (SG_ERROR_NONE, IProcess (ps_set_systime sys_time d)).

(** [getproc] is [pstat_getproc] at an index. *)
Fixpoint hpux_processes (fuel : nat) (getproc : Z -> list pst_status + Z) (procidx : Z) (n : nat) (v : vptr)
    : M world (sg_error * nat * vptr) :=
  match fuel with
  | O => stuck out_of_fuel
  | S fuel' =>
      b ← in_env (syscall (getproc procidx));
      match b with
      | None =>
          rc ← in_env (RETURN_WITH_SET_ERROR_WITH_ERRNO SG_ERROR_PSTAT (Some "pstat_getproc")); mret (rc, n, v)
      | Some batch =>
          match last batch with
          | None => mret (SG_ERROR_NONE, n, v)
          | Some final =>
              u ← VECTOR_UPDATE v (Z.of_nat (n + length batch)) true (VECTOR_INIT_INFO Kprocess);
              match u with
              | (p, Some rc) => mret (rc, n, p)
              | (None, None) => stuck null_deref
              | (Some l, None) =>
                  r ← fill_slots fill_pst_status batch n l;
                  if decide (r.1 <> SG_ERROR_NONE) then mret (r.1, n, r.2)
                  else hpux_processes fuel' getproc (pst_idx final + 1) (n + length batch) r.2
              end
          end
      end
  end.

Definition process_stats_hpux (fuel : nat) (getproc : Z -> list pst_status + Z) (v : vptr)
    : M world (sg_error * vptr) :=
  allocated (RETURN_WITH_SET_ERROR SG_ERROR_MALLOC (Some "sg_get_process_stats")) v (
  r ← hpux_processes fuel getproc 0 0 v;
  let '(rc, items, p) := (r : sg_error * nat * vptr) in
  if decide (rc <> SG_ERROR_NONE) then mret (rc, p) else trim_processes items p).

(** * AIX *)

Inductive pi_state_t := AIX_SSLEEP | AIX_SRUN | AIX_SZOMB | AIX_SSTOP | AIX_SACTIVE | AIX_SIDL.

(** [pi_ru] times are seconds and the field [tv_usec]; [pi_args] is what getargs
    stores, [None] when it fails. *)
Record procentry64 := mk_procentry64 {
  pi_state : pi_state_t; pi_utime : Z; pi_stime : Z; ru_utime : Z * Z; ru_stime : Z * Z;
  pi_pid : Z; pi_ppid : Z; pi_pgrp : Z; crx_ruid : Z; crx_uid : Z; crx_rgid : Z; crx_gid : Z;
  ru_nvcsw : Z; ru_nivcsw : Z; pi_dvm : Z; pi_drss : Z; pi_trss : Z; pi_start : Z; pi_nice : Z;
  pi_skproc : bool; pi_comm : string; pi_args : option (list ascii) }.

Definition aix_state (s : pi_state_t) : sg_process_state :=
  match s with
  | AIX_SSLEEP => SG_PROCESS_STATE_SLEEPING
  | AIX_SRUN | AIX_SACTIVE => SG_PROCESS_STATE_RUNNING
  | AIX_SZOMB => SG_PROCESS_STATE_ZOMBIE
  | AIX_SSTOP => SG_PROCESS_STATE_STOPPED
  | AIX_SIDL => SG_PROCESS_STATE_UNKNOWN
  end.

(** TVALN_TO_SEC and TVALU_TO_SEC. *)
Definition tval_to_sec (scale : Z) (t : Z * Z) : double :=
  double_add (double_of t.1) (double_div (double_of t.2) (double_of scale)).

Definition aix_times (i : procentry64) : Z * Z :=
  match pi_state i with
  | AIX_SZOMB => (pi_utime i, pi_stime i)
  | _ => (double_trunc (tval_to_sec 1000000000 (ru_utime i)), double_trunc (tval_to_sec 1000000000 (ru_stime i)))
  end.

Definition aix_comm (comm_size : nat) (i : procentry64) : string :=
  vsnprintf comm_size
    (if pi_skproc i then if pi_pid i =? 0 then "kproc (swapper)" else "kproc (" +:+ pi_comm i +:+ ")"
     else pi_comm i).

(** [cmndline]: NULL for a kernel process and where getargs fails. *)
Definition aix_cmndline (base : Z) (i : procentry64) : M env (option string) :=
  if pi_skproc i then mret None
  else
    match pi_args i with
    | None => mret None
    | Some b =>
        match adjust_procname_table base b 0 with
        | None => stuck out_of_bounds
        | Some b' => p ← own_block b'; s ← read_ptr p; mret (Some s)
        end
    end.

Definition fill_procentry64 (ncpus : Z) (now_time : double) (comm_size : nat) (base : Z) (i : procentry64)
    (it : item) : M env (sg_error * item) :=
  let d := as_process it in
  let '(utime, stime) := aix_times i in
  let cpu := double_div (double_div (double_mul (double_of (utime + stime)) (double_of 100))
                           (double_sub now_time (double_of (pi_start i)))) (double_of ncpus) in
  let d := mk_process_stats (ps_process_name d) (ps_proctitle d) (pi_pid i) (pi_ppid i) (pi_pgrp i)
             (ps_sessid d) (crx_ruid i) (crx_uid i) (crx_rgid i) (crx_gid i)
             (u64 (ru_nvcsw i + ru_nivcsw i)) (u64 (ru_nvcsw i)) (u64 (ru_nivcsw i))
             (u64 (pi_dvm i * 4096)) (u64 ((pi_drss i + pi_trss i) * 4096)) (pi_start i)
             (utime + stime) cpu (pi_nice i) (aix_state (pi_state i)) sys_time in
  let comm := aix_comm comm_size i in
  cmndline ← aix_cmndline base i;
  t ← sg_update_string junk (ps_proctitle d) (Some (default comm cmndline));
  let d := ps_set_names (ps_process_name d) t.2 d in
  if decide (SG_ERROR_NONE <> t.1) then mret (t.1, IProcess d)
  else
    n ← sg_update_string junk (ps_process_name d) (Some comm);
    mret (n.1, IProcess (ps_set_names n.2 (ps_proctitle d) d)).

(** The answers of [getprocs64] one after the other, [None] for the result -1; behind
    the last one nothing is fetched. *)
Fixpoint aix_processes (fill : procentry64 -> item -> M env (sg_error * item))
    (calls : list (option (list procentry64))) (n : nat) (v : vptr) : M world (sg_error * nat * vptr) :=
  let answer := match calls with [] => Some [] | c :: _ => c end in
  let fetched := match answer with Some l => Z.of_nat (length l) | None => -1 end in
  u ← VECTOR_UPDATE v (u64 (Z.of_nat n + fetched))
        (negb ((if (n =? 0)%nat then 1 else 0) + fetched =? 0)) (VECTOR_INIT_INFO Kprocess);
  match u with
  | (p, Some rc) => mret (rc, n, p)
  | (p, None) =>
      let procs := default [] answer in
      r ← match p, procs with
          | Some l, _ => fill_slots fill procs n l
          | None, [] => mret (SG_ERROR_NONE, None)
          | None, _ => stuck null_deref
          end;
      let n' := (n + length procs)%nat in
      if decide (r.1 <> SG_ERROR_NONE) then mret (r.1, n, r.2)
      else if 250 <=? fetched then
        match calls with
        | [] => mret (SG_ERROR_NONE, n', r.2)
        | _ :: calls' => aix_processes fill calls' n' r.2
        end
      else mret (SG_ERROR_NONE, n', r.2)
  end.

Definition process_stats_aix (online_cpus : Z) (now_tval : Z * Z) (comm_size arg_max : nat) (base : Z)
    (calls : list (option (list procentry64))) (v : vptr) : M world (sg_error * vptr) :=
  let ncpus := if online_cpus =? -1 then 1 else online_cpus in
  let oom := RETURN_WITH_SET_ERROR_WITH_ERRNO SG_ERROR_MALLOC (Some "sg_get_process_stats") in
  allocated oom v (
  b ← in_env (sg_realloc junk CNull (arg_max + 1));
  match b with
  | None => rc ← in_env oom; mret (rc, v)
  | Some _ =>
      r ← aix_processes (fill_procentry64 ncpus (tval_to_sec 1000000 now_tval) comm_size base) calls 0 v;
      let '(rc, items, p) := (r : sg_error * nat * vptr) in
      if decide (rc <> SG_ERROR_NONE) then mret (rc, p) else trim_processes items p
  end).

(** * The BSDs and Mac OS X *)

(** Asking for the number and then for the processes, again while the list has
    become too long; the answers one after the other. *)
Fixpoint sysctl_processes {A} (sizeof_kp : nat) (arg : string) (answers : list ((nat + Z) * (list A + Z)))
    : M env (sg_error + (nat * list A)) :=
  match answers with
  | [] => stuck out_of_fuel
  | (asked, got) :: answers' =>
      n ← syscall asked;
      match n with
      | None => rc ← RETURN_WITH_SET_ERROR_WITH_ERRNO SG_ERROR_SYSCTL (Some arg); mret (inl rc)
      | Some n =>
          b ← sg_realloc junk CNull (n * sizeof_kp);
          match b with
          | None => rc ← sg_get_error; mret (inl rc)
          | Some _ =>
              l ← syscall got;
              match l with
              | Some l => mret (inr (n, l))
              | None =>
                  errno ← gets e_errno;
                  if errno =? ENOMEM then sysctl_processes sizeof_kp arg answers'
                  else rc ← RETURN_WITH_SET_ERROR_WITH_ERRNO SG_ERROR_SYSCTL (Some arg); mret (inl rc)
              end
          end
      end
  end.

(** What [sysctl] delivers for the arguments of a process into a buffer of a given
    size: the bytes, or the errno and the size it asks for. *)
Definition argv_call : Type := Z -> nat -> list ascii + (Z * nat).

(** ** NetBSD: [struct kinfo_proc2] *)

Inductive lwp_stat := L_IDL | L_SLEEP | L_RUN | L_SUSPENDED | L_DEAD | L_ZOMB | L_STOP | L_ONPROC | L_OTHER.

Record kinfo_proc2 := mk_kinfo_proc2 {
  k2_comm : string; k2_pid : Z; k2_ppid : Z; k2_pgid : Z; k2_sid : Z; k2_uid : Z; k2_ruid : Z; k2_gid : Z;
  k2_rgid : Z; k2_nvcsw : Z; k2_nivcsw : Z; k2_vm_dsize : Z; k2_vm_ssize : Z; k2_vm_rssize : Z;
  k2_ustart_sec : Z; k2_uutime_sec : Z; k2_ustime_sec : Z; k2_cpticks : Z; k2_nice : Z; k2_stat : lwp_stat }.

Definition kinfo2_state (s : lwp_stat) : sg_process_state :=
  match s with
  | L_IDL | L_SLEEP | L_RUN | L_SUSPENDED => SG_PROCESS_STATE_SLEEPING
  | L_DEAD | L_ZOMB => SG_PROCESS_STATE_ZOMBIE
  | L_STOP => SG_PROCESS_STATE_STOPPED
  | L_ONPROC => SG_PROCESS_STATE_RUNNING
  | L_OTHER => SG_PROCESS_STATE_UNKNOWN
  end.

(** The assignments up to the state, [all] being the sum that is read from item [i]. *)
Definition assign_kinfo2 (FSCALE : Z) (k : kinfo_proc2) (all : Z) (d : sg_process_stats) : sg_process_stats :=
  mk_process_stats (ps_process_name d) (ps_proctitle d) (k2_pid k) (k2_ppid k) (k2_pgid k) (k2_sid k)
    (k2_uid k) (k2_ruid k) (k2_gid k) (k2_rgid k) all (u64 (k2_nvcsw k)) (u64 (k2_nivcsw k))
    ((k2_vm_dsize k +u k2_vm_ssize k) *u sys_page_size) (k2_vm_rssize k *u sys_page_size)
    (k2_ustart_sec k) (k2_uutime_sec k +u k2_ustime_sec k)
    (double_mul (double_div (double_of (k2_cpticks k)) (double_of FSCALE)) (double_of 100))
    (k2_nice k) (kinfo2_state (k2_stat k)) (ps_systime d).

(** The title: [inl None] skips the process, [inl (Some rc)] fails, [inr None] is the
    kernel title and [inr (Some s)] the arguments; with the size of the buffer. *)
Fixpoint kinfo2_title (fuel : nat) (base : Z) (argv : argv_call) (k : kinfo_proc2) (bufsize : nat)
    : M env ((option sg_error + option string) * nat) :=
  match fuel with
  | O => stuck out_of_fuel
  | S fuel' =>
      match argv (k2_pid k) bufsize with
      | inr (err, size) =>
          modify (set_errno err);;
          if (k2_ppid k =? 0) && (err =? EINVAL) then mret (inr None, bufsize)
          else if err =? ENOMEM then
            b ← sg_realloc junk CNull size;
            match b with
            | None => rc ← sg_get_error; mret (inl (Some rc), bufsize)
            | Some _ => kinfo2_title fuel' base argv k size
            end
          else mret (inl None, bufsize)
      | inl bytes =>
          let size := length bytes in
          if (size <=? 1)%nat then mret (inr None, bufsize)
          else
            match adjust_procname_table base (bytes ++ replicate (bufsize - size) junk) (size - 1) with
            | None => stuck out_of_bounds
            | Some b =>
                p ← own_block b; s ← read_ptr p;
                mret (inr (match s with EmptyString => None | _ => Some s end), bufsize)
            end
      end
  end.

(** Process [i] of the list: the name and the title go to item [i], the rest to
    item [n], which differ once a process was skipped. The result: the error, and
    whether the process was stored. *)
Definition kinfo2_step (fuel : nat) (FSCALE base : Z) (argv : argv_call) (k : kinfo_proc2) (l : positive)
    (i n bufsize : nat) : M world (sg_error * bool * nat) :=
  rc ← update_process l i (fun d =>
         r ← sg_update_string junk (ps_process_name d) (Some (k2_comm k));
         mret (r.1, ps_set_names r.2 (ps_proctitle d) d));
  if decide (SG_ERROR_NONE <> rc) then rc ← in_env sg_get_error; mret (rc, false, bufsize)
  else
    _ ← update_process l n (fun d =>
          mret (SG_ERROR_NONE, ps_set_switches (ps_context_switches d) (u64 (k2_nvcsw k)) (u64 (k2_nivcsw k)) d));
    it ← read_item l i;
    let all := ps_voluntary_context_switches (as_process it) +u ps_involuntary_context_switches (as_process it) in
    _ ← update_process l n (fun d => mret (SG_ERROR_NONE, assign_kinfo2 FSCALE k all d));
    t ← (if k2_pid k =? 0 then mret (inr None, bufsize)
         else in_env (kinfo2_title fuel base argv k bufsize));
    match t with
    | (inl None, bufsize) => mret (SG_ERROR_NONE, false, bufsize)
    | (inl (Some rc), bufsize) => mret (rc, false, bufsize)
    | (inr title, bufsize) =>
        rc ← update_process l i (fun d =>
               match title with
               | None => kernel_proctitle (Some ("pid=" +:+ pretty (k2_pid k))) d
               | Some s =>
                   r ← sg_update_string junk (ps_proctitle d) (Some s);
                   let d := ps_set_names (ps_process_name d) r.2 d in
                   if decide (SG_ERROR_NONE <> r.1) then rc ← sg_get_error; mret (rc, d)
                   else mret (SG_ERROR_NONE, d)
               end);
        if decide (rc <> SG_ERROR_NONE) then mret (rc, false, bufsize)
        else
          _ ← update_process l n (fun d => mret (SG_ERROR_NONE, ps_set_systime sys_time d));
          mret (SG_ERROR_NONE, true, bufsize)
    end.

Fixpoint kinfo2_loop (fuel : nat) (FSCALE base : Z) (argv : argv_call) (ks : list kinfo_proc2) (l : positive)
    (i n bufsize : nat) : M world (sg_error * nat) :=
  match ks with
  | [] => mret (SG_ERROR_NONE, n)
  | k :: ks' =>
      r ← kinfo2_step fuel FSCALE base argv k l i n bufsize;
      let '(rc, stored, bufsize) := (r : sg_error * bool * nat) in
      if decide (rc <> SG_ERROR_NONE) then mret (rc, n)
      else kinfo2_loop fuel FSCALE base argv ks' l (S i) (if stored then S n else n) bufsize
  end.

(** The update to the number of items stored, after the loop. *)
Definition store_processes (n : nat) (v : vptr) : M world (sg_error * vptr) :=
  u ← VECTOR_UPDATE v (Z.of_nat n) (n =? 0)%nat (VECTOR_INIT_INFO Kprocess);
  match u with
  | (p, Some rc) => mret (rc, p)
  | (p, None) => trim_processes n p
  end.

Definition process_stats_kinfo2 (fuel sizeof_kp arg_max : nat) (FSCALE base : Z)
    (answers : list ((nat + Z) * (list kinfo_proc2 + Z))) (argv : argv_call) (v : vptr)
    : M world (sg_error * vptr) :=
  malloced arg_max v (
  r ← in_env (sysctl_processes sizeof_kp "CTL_KERN.KERN_PROC2.KERN_PROC_ALL" answers);
  match r with
  | inl rc => mret (rc, v)
  | inr (_, ks) =>
      u ← VECTOR_UPDATE v (Z.of_nat (length ks)) (is_zero ks) (VECTOR_INIT_INFO Kprocess);
      match u, ks with
      | (p, Some rc), _ => mret (rc, p)
      | (None, None), [] => store_processes 0 None
      | (None, None), _ => stuck null_deref
      | (Some l, None), _ =>
          r ← kinfo2_loop fuel FSCALE base argv ks l 0 0 arg_max;
          if decide (r.1 <> SG_ERROR_NONE) then mret (r.1, Some l) else store_processes r.2 (Some l)
      end
  end).

(** ** FreeBSD, DragonFly, OpenBSD, Mac OS X: [struct kinfo_proc] *)

Inductive p_stat_t := SRUN | SACTIVE | SIDL | SSLEEP | SWAIT | SLOCK | SSTOP | SZOMB | SDEAD | SOTHER.
Inductive kl_stat_t := LSRUN | LSSTOP | LSSLEEP | LSOTHER.

(** The fields of the variants of the structure. *)
Record kinfo_proc := mk_kinfo_proc {
  kp_used : bool;       (* the state is not 0 *)
  kp_stat : p_stat_t; kl_stat : kl_stat_t; kp_comm : string;
  kp_pid : Z; kp_ppid : Z; kp_pgid : Z; kp_sid : Z; kp_ruid : Z; kp_uid : Z; kp_rgid : Z; kp_svgid : Z;
  kp_runtime : Z; kp_utime : Z; kp_stime : Z; kp_start : Z; kp_pctcpu : Z; kp_nice : Z;
  kp_size : Z; kp_rssize : Z }.

Inductive kinfo_variant := KI_STAT (* FreeBSD *) | KP_PID (* DragonFly *) | P_PID (* OpenBSD *).

(** [pid_t] -1 as the parent. *)
Definition parent_of (var : kinfo_variant) (k : kinfo_proc) : Z :=
  match var with
  | KI_STAT => kp_ppid k
  | KP_PID | P_PID => if kp_ppid k =? -1 then 0 else kp_ppid k
  end.

(** The state; SACTIVE, which only DragonFly has, looks at the thread of entry
    [proc_items] of the list. *)
Definition kinfo_state (st : p_stat_t) (thread : kl_stat_t) (old : sg_process_state) : sg_process_state :=
  match st with
  | SRUN => SG_PROCESS_STATE_RUNNING
  | SACTIVE =>
      match thread with
      | LSRUN => SG_PROCESS_STATE_RUNNING
      | LSSTOP => SG_PROCESS_STATE_STOPPED
      | LSSLEEP => SG_PROCESS_STATE_SLEEPING
      | LSOTHER => old
      end
  | SIDL | SSLEEP | SWAIT | SLOCK => SG_PROCESS_STATE_SLEEPING
  | SSTOP => SG_PROCESS_STATE_STOPPED
  | SZOMB | SDEAD => SG_PROCESS_STATE_ZOMBIE
  | SOTHER => SG_PROCESS_STATE_UNKNOWN
  end.

(** The assignments; on DragonFly the start time ends up in the time spent, and on
    OpenBSD the times, the nice value and the CPU share are not assigned. *)
Definition assign_kinfo (var : kinfo_variant) (k : kinfo_proc) (thread : kl_stat_t) (d : sg_process_stats)
    : sg_process_stats :=
  let '(spent, cpu, nice) :=
    match var with
    | KI_STAT => (kp_runtime k / 1000000, double_of 0, kp_nice k)
    | KP_PID => (kp_start k, double_of (kp_pctcpu k), kp_nice k)
    | P_PID => (ps_time_spent d, ps_cpu_percent d, ps_nice d)
    end in
  mk_process_stats (ps_process_name d) (ps_proctitle d) (kp_pid k) (parent_of var k) (kp_pgid k) (kp_sid k)
    (kp_ruid k) (kp_uid k) (kp_rgid k) (kp_svgid k) 0 0 0 (kp_size k) (kp_rssize k *u sys_page_size) 0
    spent cpu nice (kinfo_state (kp_stat k) thread (ps_state d)) (ps_systime d).

(** Mac OS X: the tasks and the processes are asked for separately; [None] leaves
    zeroes. There are no ids but those of the credentials. *)
Record darwin_proc := mk_darwin_proc {
  dp_kinfo : kinfo_proc; dp_svuid : Z; dp_ru : option (Z * Z);
  dp_task : option (Z * Z * Z * Z * Z);  (* user and system time, switches, virtual and resident size *)
  dp_bsd_nice : option Z }.

Definition assign_darwin (FSCALE : Z) (p : darwin_proc) (d : sg_process_stats) : sg_process_stats :=
  let k := dp_kinfo p in
  let '(user, system, csw, virt, res) := default (0, 0, 0, 0, 0) (dp_task p) in
  let '(vol, invol) := default (0, 0) (dp_ru p) in
  mk_process_stats (ps_process_name d) (ps_proctitle d) (kp_pid k) (kp_ppid k) (kp_pgid k) 0
    (kp_ruid k) (dp_svuid p) (kp_rgid k) (kp_svgid k) csw vol invol virt res (kp_start k)
    (u64 (user + system) / 1000000000)
    (double_mul (double_div (double_of (kp_pctcpu k)) (double_of FSCALE)) (double_of 100))
    (default 0 (dp_bsd_nice p)) (kinfo_state (kp_stat k) LSOTHER (ps_state d)) (ps_systime d).

(** The title of process [pid]; [darwin] tells KERN_PROCARGS2. [inl tt] skips the
    process, [inr None] is the kernel title. *)
Definition kinfo_title (darwin : bool) (base : Z) (argv : argv_call) (arg_max : nat) (pid : Z)
    : M env (unit + option string) :=
  match argv pid arg_max with
  | inr (err, _) =>
      modify (set_errno err);;
      mret (if darwin && (err =? EINVAL) then inr None else inl tt)
  | inl bytes =>
      let size := length bytes in
      if (size <=? 1)%nat then mret (inr None)
      else
        let b := bytes ++ replicate (arg_max - size) junk in
        match (if darwin then adjust_procname_darwin b size else adjust_procname_table base b size) with
        | None => stuck out_of_bounds
        | Some b' => p ← own_block b'; s ← read_ptr p; mret (inr (Some s))
        end
  end.

(** One process of the list [all] at item [n]: [name] is that of entry [n] of the
    list. *)
Definition kinfo_step (darwin : bool) (base : Z) (argv : argv_call) (arg_max : nat) (name : string)
    (assign : sg_process_stats -> sg_process_stats) (l : positive) (n : nat) : M world (sg_error * bool) :=
  rc ← update_process l n (fun d =>
         r ← sg_update_string junk (ps_process_name d) (Some name);
         let d := ps_set_names r.2 (ps_proctitle d) d in
         if decide (SG_ERROR_NONE <> r.1) then rc ← sg_get_error; mret (rc, d)
         else mret (SG_ERROR_NONE, assign d));
  if decide (rc <> SG_ERROR_NONE) then mret (rc, false)
  else
    it ← read_item l n;
    let pid := ps_pid (as_process it) in
    t ← (if pid =? 0 then mret (inr None) else in_env (kinfo_title darwin base argv arg_max pid));
    match (t : unit + option string) with
    | inl _ => mret (SG_ERROR_NONE, false)
    | inr title =>
        rc ← update_process l n (fun d =>
               r ← match title with
                   | None => kernel_proctitle None d
                   | Some s =>
                       r ← sg_update_string junk (ps_proctitle d) (Some s);
                       let d := ps_set_names (ps_process_name d) r.2 d in
                       if decide (SG_ERROR_NONE <> r.1) then rc ← sg_get_error; mret (rc, d)
                       else mret (SG_ERROR_NONE, d)
                   end;
               if decide (r.1 <> SG_ERROR_NONE) then mret r
               else mret (SG_ERROR_NONE, ps_set_systime sys_time r.2));
        mret (rc, bool_decide (rc = SG_ERROR_NONE))
    end.

(** The loop; [view] delivers the basic structure of an entry. *)
Fixpoint kinfo_loop {A} (view : A -> kinfo_proc) (assign : A -> kl_stat_t -> sg_process_stats -> sg_process_stats)
    (darwin : bool) (base : Z) (argv : argv_call) (arg_max : nat) (all ks : list A) (l : positive) (n : nat)
    : M world (sg_error * nat) :=
  match ks with
  | [] => mret (SG_ERROR_NONE, n)
  | k :: ks' =>
      if negb (kp_used (view k)) then kinfo_loop view assign darwin base argv arg_max all ks' l n
      else
        match all !! n with
        | None => stuck out_of_bounds
        | Some k' =>
            r ← kinfo_step darwin base argv arg_max (kp_comm (view k')) (assign k (kl_stat (view k'))) l n;
            if decide (r.1 <> SG_ERROR_NONE) then mret (r.1, n)
            else kinfo_loop view assign darwin base argv arg_max all ks' l (if (r.2 : bool) then S n else n)
        end
  end.

(** The number of processes is that of the first answer, and the array has that many
    entries, whatever the second call stored of them. *)
Definition process_stats_kinfo {A} (view : A -> kinfo_proc)
    (assign : A -> kl_stat_t -> sg_process_stats -> sg_process_stats) (darwin : bool)
    (sizeof_kp arg_max : nat) (base : Z) (answers : list ((nat + Z) * (list A + Z))) (argv : argv_call)
    (v : vptr) : M world (sg_error * vptr) :=
  malloced arg_max v (
  r ← in_env (sysctl_processes sizeof_kp "CTL_KERN.KERN_PROC.KERN_PROC_ALL" answers);
  match r with
  | inl rc => mret (rc, v)
  | inr (nprocs, ks) =>
      if (length ks <? nprocs)%nat then stuck undefined_op
      else
        let ks := take nprocs ks in
        u ← VECTOR_UPDATE v (Z.of_nat nprocs) (is_zero ks) (VECTOR_INIT_INFO Kprocess);
        match u, ks with
        | (p, Some rc), _ => mret (rc, p)
        | (None, None), [] => store_processes 0 None
        | (None, None), _ => stuck null_deref
        | (Some l, None), _ =>
            r ← kinfo_loop view assign darwin base argv arg_max ks ks l 0;
            if decide (r.1 <> SG_ERROR_NONE) then mret (r.1, Some l) else store_processes r.2 (Some l)
        end
  end).

Definition process_stats_bsd (var : kinfo_variant) : nat -> nat -> Z -> list ((nat + Z) * (list kinfo_proc + Z)) ->
    argv_call -> vptr -> M world (sg_error * vptr) :=
  process_stats_kinfo (fun k => k) (assign_kinfo var) false.

Definition process_stats_darwin (FSCALE : Z) : nat -> nat -> Z -> list ((nat + Z) * (list darwin_proc + Z)) ->
    argv_call -> vptr -> M world (sg_error * vptr) :=
  process_stats_kinfo dp_kinfo (fun p _ => assign_darwin FSCALE p) true.
End process_systems.
