(* ===== verification/UserHost.v ===== *)
(** src/src/libstatgrab/user_stats.c: the logged-in users from the utmpx and utmp
    databases, read under a mutex; and src/src/libstatgrab/os_info.c: the
    description of the host. *)

From S2P Require Import Prelude Types CLib Errors Tools Vector VectorSpec VectorDiff Items Comp Stdio ToolsExt Fill Single.

(** * user_stats.c *)

(** An entry of either database; the texts are arrays that need not end in a
    terminator. *)
Record utent := mk_utent {
  ut_type : Z;
  ut_user : list ascii; ut_host : list ascii; ut_line : list ascii; ut_id : list ascii;
  ut_pid : Z; ut_sec : Z }.

(** The state the function works on: the vectors, how often the calling thread holds
    the mutex "utmp", and whether a database is being read. *)
Record user_sys := mk_user_sys { us_world : world; us_locked : nat; us_open : bool }.

Definition usr_set (l r d h : char_ptr) (u : sg_user_stats) : sg_user_stats :=
  mk_user_stats l r (usr_record_id_size u) d h (usr_pid u) (usr_login_time u) (usr_systime u).

Section user.
Context {mem : Memory} {sys : System}.

Definition on_vectors {A} (m : M world A) : M user_sys A :=
  zoom us_world (fun w s => mk_user_sys w (us_locked s) (us_open s)) m.

Definition utmp_lock : M user_sys unit :=
  modify (fun s => mk_user_sys (us_world s) (S (us_locked s)) (us_open s)).
Definition utmp_unlock : M user_sys unit :=
  modify (fun s => mk_user_sys (us_world s) (Nat.pred (us_locked s)) (us_open s)).
Definition set_open (b : bool) : M user_sys unit :=
  modify (fun s => mk_user_sys (us_world s) (us_locked s) b).

(** SG_LUPDATE_IF on a member that is an array. *)
Definition lupdate (tgt : char_ptr) (memb : list ascii) : M env (sg_error * char_ptr) :=
  sg_lupdate_string junk tgt (Some memb) (length memb).

(** The body of the utmpx loop: login name, host, device, record id. *)
Definition fill_utmpx (e : utent) (it : item) : M env (sg_error * item) :=
  let u := as_user it in
  let fail (u : sg_user_stats) : M env (sg_error * item) :=
    rc ← sg_get_error; mret (rc, IUser u) in
  l ← lupdate (usr_login_name u) (ut_user e);
  let u := usr_set l.2 (usr_record_id u) (usr_device u) (usr_hostname u) u in
  if decide (SG_ERROR_NONE <> l.1) then fail u else
  h ← lupdate (usr_hostname u) (ut_host e);
  let u := usr_set (usr_login_name u) (usr_record_id u) (usr_device u) h.2 u in
  if decide (SG_ERROR_NONE <> h.1) then fail u else
  d ← lupdate (usr_device u) (ut_line e);
  let u := usr_set (usr_login_name u) (usr_record_id u) d.2 (usr_hostname u) u in
  if decide (SG_ERROR_NONE <> d.1) then fail u else
  r ← sg_update_mem junk (usr_record_id u) (Some (ut_id e));
  let u := usr_set (usr_login_name u) r.2 (usr_device u) (usr_hostname u) u in
  if decide (SG_ERROR_NONE <> r.1) then fail u else
  mret (SG_ERROR_NONE,
    IUser (mk_user_stats (usr_login_name u) (usr_record_id u) (Z.of_nat (length (ut_id e)))
             (usr_device u) (usr_hostname u) (ut_pid e) (ut_sec e) sys_time)).

(** The body of the utmp loop, which stores the device first. *)
Definition fill_utmp (e : utent) (it : item) : M env (sg_error * item) :=
  let u := as_user it in
  let fail (u : sg_user_stats) : M env (sg_error * item) :=
    rc ← sg_get_error; mret (rc, IUser u) in
  d ← lupdate (usr_device u) (ut_line e);
  let u := usr_set (usr_login_name u) (usr_record_id u) d.2 (usr_hostname u) u in
  if decide (SG_ERROR_NONE <> d.1) then fail u else
  l ← lupdate (usr_login_name u) (ut_user e);
  let u := usr_set l.2 (usr_record_id u) (usr_device u) (usr_hostname u) u in
  if decide (SG_ERROR_NONE <> l.1) then fail u else
  h ← lupdate (usr_hostname u) (ut_host e);
  let u := usr_set (usr_login_name u) (usr_record_id u) (usr_device u) h.2 u in
  if decide (SG_ERROR_NONE <> h.1) then fail u else
  r ← sg_update_mem junk (usr_record_id u) (Some (ut_id e));
  let u := usr_set (usr_login_name u) r.2 (usr_device u) (usr_hostname u) u in
  if decide (SG_ERROR_NONE <> r.1) then fail u else
  mret (SG_ERROR_NONE,
    IUser (mk_user_stats (usr_login_name u) (usr_record_id u) (Z.of_nat (length (ut_id e)))
             (usr_device u) (usr_hostname u) (ut_pid e) (ut_sec e) sys_time)).

(** USER_PROCESS of <utmpx.h>. *)
Definition USER_PROCESS : Z := 7.

(** The entries the loops do not skip. *)
Fixpoint users (db : list utent) : list utent :=
  match db with
  | [] => []
  | e :: db' => if negb (USER_PROCESS =? ut_type e) then users db' else e :: users db'
  end.

(** The utmp database is only read when utmpx has no user. *)
Definition sg_get_user_stats_int (utmpx utmp : list utent) (v : vptr)
    : M user_sys (sg_error * vptr) :=
  utmp_lock;;
  set_open true;;
  r ← on_vectors (append_loop Kuser fill_utmpx (users utmpx) 0 v);
  if decide (r.1 <> SG_ERROR_NONE) then set_open false;; utmp_unlock;; mret r
  else
    set_open false;;
    r ← (if decide (users utmpx = []) then
           set_open true;;
           r ← on_vectors (append_loop Kuser fill_utmp (users utmp) 0 r.2);
           set_open false;;
           mret r
         else mret r);
    utmp_unlock;;
    mret r.

(** The call as the access function makes it, with the mutex free. *)
Definition unlocked {A} (m : M user_sys A) : M world A := fun w =>
  match m (mk_user_sys w 0 false) with
  | Done a s => Done a (us_world s)
  | Stuck f => Stuck f
  end.

Definition SG_USER_STATS_NOW_IDX : nat := 0.

Definition sg_get_user_stats (utmpx utmp : list utent) : M comp (vptr * Z) :=
  MULTI_COMP_ACCESS Kuser SG_USER_STATS_NOW_IDX
    (fun v => unlocked (sg_get_user_stats_int utmpx utmp v)).
End user.

(** * os_info.c *)

(** The architectures the BSD branch knows. *)
Definition isa32_bsd : list string :=
  ["arm"; "armeb"; "hppa"; "i386"; "m68000"; "m68k"; "mips"; "powerpc"; "sh3el"; "sh3eb"; "sparc"; "vax"].
Definition isa64_bsd : list string :=
  ["alpha"; "amd64"; "hppa64"; "ia64"; "mips64"; "mips64el"; "sparc64"; "x86_64"].
Definition isa32_solaris : list string := ["i386"; "sparc"].
Definition isa64_solaris : list string := ["amd64"; "sparcv9"].

(** The comparison goes over the shorter of the two names. *)
Definition cmp_arch_name (a b : string) : Z :=
  strncmp a b (Nat.min (String.length a) (String.length b)).

Definition get_bitwidth_by_arch_name (isa32 isa64 : list string) (arch_name : string) : Z :=
  match bsearch (cmp_arch_name arch_name) isa64 with
  | Some _ => 64
  | None =>
      match bsearch (cmp_arch_name arch_name) isa32 with
      | Some _ => 32
      | None => 0
      end
  end.

Record utsname := mk_utsname {
  un_sysname : string; un_release : string; un_version : string; un_machine : string;
  un_nodename : string }.

(** What the branches read beside [uname]. *)
Record host_sys := mk_host_sys {
  hs_uname : utsname + Z;
  hs_ncpus : Z; hs_maxcpus : Z;
  hs_vsyscall : bool;           (* either vsyscall file exists *)
  hs_long_bit : Z }.

Definition hi_set_names (n r v p h : char_ptr) (d : sg_host_info) : sg_host_info :=
  mk_host_info n r v p h (hi_bitwidth d) (hi_host_state d) (hi_ncpus d) (hi_maxcpus d)
    (hi_uptime d) (hi_systime d).

Section host.
Context {mem : Memory} {sys : System}.

Definition host_reset (d : sg_host_info) : sg_host_info :=
  mk_host_info (hi_os_name d) (hi_os_release d) (hi_os_version d) (hi_platform d) (hi_hostname d)
    0 sg_unknown_configuration 0 0 0 0.

(** The five names of [uname], stored one after the other. *)
Definition host_names (u : utsname) (d : sg_host_info) : M env (sg_error * sg_host_info) :=
  let fail (d : sg_host_info) : M env (sg_error * sg_host_info) :=
    rc ← sg_get_error; mret (rc, d) in
  n ← sg_update_string junk (hi_os_name d) (Some (un_sysname u));
  let d := hi_set_names n.2 (hi_os_release d) (hi_os_version d) (hi_platform d) (hi_hostname d) d in
  if decide (SG_ERROR_NONE <> n.1) then fail d else
  r ← sg_update_string junk (hi_os_release d) (Some (un_release u));
  let d := hi_set_names (hi_os_name d) r.2 (hi_os_version d) (hi_platform d) (hi_hostname d) d in
  if decide (SG_ERROR_NONE <> r.1) then fail d else
  v ← sg_update_string junk (hi_os_version d) (Some (un_version u));
  let d := hi_set_names (hi_os_name d) (hi_os_release d) v.2 (hi_platform d) (hi_hostname d) d in
  if decide (SG_ERROR_NONE <> v.1) then fail d else
  p ← sg_update_string junk (hi_platform d) (Some (un_machine u));
  let d := hi_set_names (hi_os_name d) (hi_os_release d) (hi_os_version d) p.2 (hi_hostname d) d in
  if decide (SG_ERROR_NONE <> p.1) then fail d else
  h ← sg_update_string junk (hi_hostname d) (Some (un_nodename u));
  let d := hi_set_names (hi_os_name d) (hi_os_release d) (hi_os_version d) (hi_platform d) h.2 d in
  if decide (SG_ERROR_NONE <> h.1) then fail d else
  mret (SG_ERROR_NONE, d).

(** Linux *)
Definition sg_get_host_info_int (hs : host_sys) (d : sg_host_info)
    : M env (sg_error * sg_host_info) :=
  let d := host_reset d in
  u ← syscall (hs_uname hs);
  match u with
  | None => rc ← RETURN_WITH_SET_ERROR_WITH_ERRNO SG_ERROR_UNAME None; mret (rc, d)
  | Some un =>
      r ← host_names un d;
      let '(rc, d) := (r : sg_error * sg_host_info) in
      if decide (rc <> SG_ERROR_NONE) then mret (rc, d)
      else
        f ← fopen "/proc/uptime";
        match f with
        | None =>
            rc ← RETURN_WITH_SET_ERROR_WITH_ERRNO SG_ERROR_OPEN (Some "/proc/uptime"); mret (rc, d)
        | Some c =>
            let '(n, vals) := sscanf c "%ld %*d" in
            let d := mk_host_info (hi_os_name d) (hi_os_release d) (hi_os_version d) (hi_platform d)
                       (hi_hostname d) (hi_bitwidth d) (hi_host_state d) (hi_ncpus d) (hi_maxcpus d)
                       (arg_int (hi_uptime d) vals 0) (hi_systime d) in
            if negb (n =? 1) then
              rc ← RETURN_WITH_SET_ERROR SG_ERROR_PARSE None; mret (rc, d)
            else
              mret (SG_ERROR_NONE,
                mk_host_info (hi_os_name d) (hi_os_release d) (hi_os_version d) (hi_platform d)
                  (hi_hostname d) (if hs_vsyscall hs then 64 else u32 (hs_long_bit hs))
                  sg_unknown_configuration (u32 (hs_ncpus hs)) (u32 (hs_maxcpus hs))
                  (hi_uptime d) sys_time)
        end
  end.

Definition SG_OS_CUR_IDX : nat := 0.
Definition as_host_info (it : item) : sg_host_info := as_host it.

Definition sg_get_host_info (hs : host_sys) : M comp (vptr * Z) :=
  EASY_COMP_ACCESS Khost SG_OS_CUR_IDX
    (fun it => r ← sg_get_host_info_int hs (as_host_info it); mret (r.1, IHost r.2)).
End host.
