(* ===== verification/HostSys.v ===== *)
(** src/src/libstatgrab/os_info.c for the systems other than Linux: HP-UX, Solaris, the
    BSDs, AIX and Windows. What the system calls deliver is an argument. *)

From S2P Require Import Prelude Types CLib Errors Tools Vector VectorSpec VectorDiff Items Comp Stdio ToolsExt Fill Single UserHost.

Local Open Scope sg_scope.

Section host_systems.
Context {mem : Memory} {sys : System}.

(** The numbers of the structure. *)
Definition hi_set_numbers (bits : Z) (state : sg_host_state) (ncpus maxcpus uptime systime : Z)
    (d : sg_host_info) : sg_host_info :=
  mk_host_info (hi_os_name d) (hi_os_release d) (hi_os_version d) (hi_platform d) (hi_hostname d)
    bits state ncpus maxcpus uptime systime.

(** [uname] and the five names, before what depends on the system. *)
Definition with_uname (un : utsname + Z) (d : sg_host_info)
    (next : sg_host_info -> M env (sg_error * sg_host_info)) : M env (sg_error * sg_host_info) :=
  let d := host_reset d in
  sys_call un SG_ERROR_UNAME None d (fun u =>
  r ← host_names u d;
  if decide (r.1 <> SG_ERROR_NONE) then mret r else next r.2).

(** [host_info_buf->systime = time(NULL)] *)
Definition host_done (d : sg_host_info) : sg_error * sg_host_info :=
  (SG_ERROR_NONE, hi_set_numbers (hi_bitwidth d) (hi_host_state d) (hi_ncpus d) (hi_maxcpus d)
                    (hi_uptime d) sys_time d).

(** * HP-UX *)

(** The boot time, the numbers of processors and _SC_KERNEL_BITS. *)
Definition host_info_hpux (un : utsname + Z) (boot_time : Z + Z) (proc_cnt : (Z * Z) + Z) (kernel_bits : Z)
    (d : sg_host_info) : M env (sg_error * sg_host_info) :=
  with_uname un d (fun d =>
  sys_call boot_time SG_ERROR_PSTAT (Some "pstat_static") d (fun boottime =>
  sys_call proc_cnt SG_ERROR_PSTAT (Some "pstat_dynamic") d (fun cnt =>
  mret (host_done (hi_set_numbers (u32 kernel_bits) (hi_host_state d) (u32 cnt.1) (u32 cnt.2)
                     (s64 (sys_time - boottime)) (hi_systime d) d))))).

(** * Solaris *)

(** [sysinfo] into a buffer that grows to the length it asks for: the name, which fits
    when it is not longer than the buffer. *)
Fixpoint sysinfo_loop (fuel : nat) (arch : string + Z) (isabufsz : nat) : M env (sg_error + string) :=
  match fuel with
  | O => stuck out_of_fuel
  | S fuel' =>
      a ← syscall arch;
      match a with
      | None => rc ← RETURN_WITH_SET_ERROR_WITH_ERRNO SG_ERROR_SYSINFO (Some "SYSINFO_CMD"); mret (inl rc)
      | Some name =>
          let rc := S (String.length name) in
          if (isabufsz <? rc)%nat then
            b ← sg_realloc junk CNull rc;
            match b with
            | None => rc ← sg_get_error; mret (inl rc)
            | Some _ => sysinfo_loop fuel' arch rc
            end
          else mret (inr name)
      end
  end.

(** What the kstat chain says: [inl] is the step that fails. *)
Definition host_info_solaris (un : utsname + Z) (boot_time : (sg_error * option string) + Z)
    (ncpus maxcpus : Z) (arch : string + Z) (d : sg_host_info) : M env (sg_error * sg_host_info) :=
  with_uname un d (fun d =>
  match boot_time with
  | inl (code, arg) => rc ← RETURN_WITH_SET_ERROR code arg; mret (rc, d)
  | inr boottime =>
      let d := hi_set_numbers (hi_bitwidth d) (hi_host_state d) (u32 ncpus) (u32 maxcpus)
                 (s64 (sys_time - u32 boottime)) (hi_systime d) d in
      b ← sg_realloc junk CNull 32;
      match b with
      | None => rc ← sg_get_error; mret (rc, d)
      | Some _ =>
          r ← sysinfo_loop 2 arch 32;
          match r with
          | inl rc => mret (rc, d)
          | inr isainfo =>
              mret (host_done (hi_set_numbers (get_bitwidth_by_arch_name isa32_solaris isa64_solaris isainfo)
                                 sg_unknown_configuration (hi_ncpus d) (hi_maxcpus d) (hi_uptime d)
                                 (hi_systime d) d))
          end
      end
  end).

(** * The BSDs *)

(** HW_MACHINE_ARCH and, when that fails, HW_MACHINE; [None] where the system does not
    have the name. An error is recorded but not returned. *)
Definition arch_bits (machine_arch machine : option (string + Z)) : M env Z :=
  let bits := get_bitwidth_by_arch_name isa32_bsd isa64_bsd in
  let by_machine :=
    match machine, machine_arch with
    | Some m, _ =>
        a ← syscall m;
        match a with
        | Some name => mret (bits name)
        | None => SET_ERROR_WITH_ERRNO SG_ERROR_SYSCTL (Some "CTL_HW.HW_MACHINE");; mret 0
        end
    | None, Some _ => SET_ERROR_WITH_ERRNO SG_ERROR_SYSCTL (Some "CTL_HW.HW_MACHINE_ARCH");; mret 0
    | None, None => mret 0
    end in
  match machine_arch with
  | Some m =>
      a ← syscall m;
      match a with
      | Some name => mret (bits name)
      | None => by_machine
      end
  | None => by_machine
  end.

(** [online]: HW_NCPUONLINE, where the system has it. *)
Definition host_info_bsd (un : utsname + Z) (boot_time ncpu : Z + Z) (machine_arch machine : option (string + Z))
    (online : option (Z + Z)) (d : sg_host_info) : M env (sg_error * sg_host_info) :=
  with_uname un d (fun d =>
  sys_call boot_time SG_ERROR_SYSCTL (Some "CTL_KERN.KERN_BOOTTIME") d (fun boottime =>
  let d := hi_set_numbers (hi_bitwidth d) (hi_host_state d) (hi_ncpus d) (hi_maxcpus d)
             (s64 (sys_time - boottime)) (hi_systime d) d in
  sys_call ncpu SG_ERROR_SYSCTL (Some "CTL_HW.HW_NCPU") d (fun ncpus =>
  bits ← arch_bits machine_arch machine;
  let d := hi_set_numbers bits sg_unknown_configuration (hi_ncpus d) (u32 ncpus) (hi_uptime d)
             (hi_systime d) d in
  sys_call (default (inl ncpus) online) SG_ERROR_SYSCTL (Some "CTL_HW.HW_NCPUONLINE") d (fun ncpus =>
  mret (host_done (hi_set_numbers (hi_bitwidth d) (hi_host_state d) (u32 ncpus) (hi_maxcpus d)
                     (hi_uptime d) (hi_systime d) d)))))).

(** * AIX *)

Record perfstat_cpu_total_t := mk_perfstat_cpu_total {
  pct_description : string; pct_ncpus : Z; pct_ncpus_cfg : Z }.

(** The first entry of the database that tells the boot time. *)
Fixpoint boot_entry (db : list (bool * Z)) : option Z :=
  match db with
  | [] => None
  | (true, t) :: _ => Some t
  | _ :: db' => boot_entry db'
  end.

(** The part before the database. *)
Definition host_info_aix_cpus (un : utsname + Z) (cpu_total : perfstat_cpu_total_t + Z) (kernel_bits lpar : Z)
    (d : sg_host_info) : M env (sg_error * sg_host_info) :=
  with_uname un d (fun d =>
  sys_call cpu_total SG_ERROR_SYSCTL (Some "perfstat_cpu_total") d (fun c =>
  p ← sg_update_string junk (hi_platform d) (Some (pct_description c));
  let d := hi_set_names (hi_os_name d) (hi_os_release d) (hi_os_version d) p.2 (hi_hostname d) d in
  if decide (SG_ERROR_NONE <> p.1) then rc ← sg_get_error; mret (rc, d)
  else
    mret (SG_ERROR_NONE,
      hi_set_numbers (u32 kernel_bits) (if 0 <? lpar then sg_hardware_virtualized else sg_physical_host)
        (u32 (pct_ncpus c)) (u32 (pct_ncpus_cfg c)) (hi_uptime d) (hi_systime d) d))).

(** [db]: for every entry whether it is BOOT_TIME, and its time. *)
Definition host_info_aix (un : utsname + Z) (cpu_total : perfstat_cpu_total_t + Z) (kernel_bits lpar : Z)
    (db : list (bool * Z)) (d : sg_host_info) : M user_sys (sg_error * sg_host_info) :=
  r ← on_vectors (in_env (host_info_aix_cpus un cpu_total kernel_bits lpar d));
  if decide (r.1 <> SG_ERROR_NONE) then mret r
  else
    let d := r.2 in
    utmp_lock;;
    set_open true;;
    let uptime := match boot_entry db with Some t => s64 (sys_time - t) | None => hi_uptime d end in
    set_open false;;
    utmp_unlock;;
    mret (host_done (hi_set_numbers (hi_bitwidth d) (hi_host_state d) (hi_ncpus d) (hi_maxcpus d) uptime
                       (hi_systime d) d)).

(** * Windows *)

(** The fields of OSVERSIONINFOEX and SYSTEM_INFO that are looked at, the flags of the
    suite mask one by one. *)
Record osversion := mk_osversion {
  dwMajorVersion : Z; dwMinorVersion : Z; dwBuildNumber : Z; wServicePackMajor : Z; wServicePackMinor : Z;
  is_workstation : bool; suite_personal : bool; suite_datacenter : bool; suite_enterprise : bool;
  suite_blade : bool }.

Inductive processor_architecture := ARCHITECTURE_INTEL | ARCHITECTURE_IA64 | ARCHITECTURE_AMD64
| ARCHITECTURE_OTHER.

#[local] Instance architecture_eq_dec : EqDecision processor_architecture.
Proof. solve_decision. Defined.

Definition WINDOWS2000 : string := "Windows 2000".
Definition WINDOWSXP : string := "Windows XP".
Definition WINDOWS2003 : string := "Windows Server 2003".

(** [sg_concat_string(&name, s)] *)
Definition concat_name (name : char_ptr) (s : string) : M env (sg_error * char_ptr) :=
  r ← sg_concat_string junk (Some name) (Some s); mret (r.1, default name r.2).

Definition home_or_pro (o : osversion) (name : char_ptr) : M env (sg_error * char_ptr) :=
  concat_name name (if suite_personal o then " Home Edition" else " Professional").

Definition strdup (s : string) : M env (option string) :=
  a ← alloc_request; mret (match a with AFail => None | _ => Some s end).

(** The result of [get_os_name]: a literal, or a block the caller frees. *)
Inductive os_name := OsLiteral (s : string) | OsBlock (p : char_ptr).

Definition strdup_failed : M env (option os_name) :=
  SET_ERROR_WITH_ERRNO SG_ERROR_MALLOC (Some "get_os_name: strdup() failed");; mret None.

(** The name before the service pack: the last error and the name. *)
Definition base_name (o : osversion) (arch : processor_architecture) : M env (option (sg_error * char_ptr)) :=
  if dwMinorVersion o =? 0 then
    n ← strdup WINDOWS2000;
    match n with
    | None => mret None
    | Some n =>
        r ← (if is_workstation o then home_or_pro o (CStr n)
             else if suite_datacenter o then concat_name (CStr n) " Datacenter Server"
             else if suite_enterprise o then concat_name (CStr n) " Advanced Server"
             else concat_name (CStr n) " Server");
        mret (Some r)
    end
  else if dwMinorVersion o =? 1 then
    n ← strdup WINDOWSXP;
    match n with
    | None => mret None
    | Some n => r ← home_or_pro o (CStr n); mret (Some r)
    end
  else if dwMinorVersion o =? 2 then
    n ← (if is_workstation o && bool_decide (arch = ARCHITECTURE_AMD64) then
           n ← strdup WINDOWSXP;
           r ← home_or_pro o (match n with Some s => CStr s | None => CNull end);
           r ← concat_name r.2 " x64 Edition";
           mret r.2
         else n ← strdup WINDOWS2003; mret (match n with Some s => CStr s | None => CNull end));
    match n with
    | CNull => mret None
    | n =>
        r ← concat_name n (if suite_datacenter o then " Datacenter Edition"
                           else if suite_enterprise o then " Enterprise Edition"
                           else if suite_blade o then " Web Edition" else " Standard Edition");
        mret (Some r)
    end
  else
    n ← strdup "Windows 2000 based";
    mret (Some (SG_ERROR_NONE, match n with Some s => CStr s | None => CNull end)).

Definition get_os_name (o : osversion) (arch : processor_architecture) : M env (option os_name) :=
  if negb (dwMajorVersion o =? 5) then mret (Some (OsLiteral "Unknown"))
  else
    r ← base_name o arch;
    match r with
    | None => strdup_failed
    | Some (rc, name) =>
        if decide (rc <> SG_ERROR_NONE) then _ ← free_ptr name; mret None
        else if wServicePackMajor o =? 0 then mret (Some (OsBlock name))
        else
          let tmp := if wServicePackMinor o =? 0 then " SP" +:+ pretty (wServicePackMajor o)
                     else " SP" +:+ pretty (wServicePackMajor o) +:+ "." +:+ pretty (wServicePackMinor o) in
          r ← concat_name name (vsnprintf 10 tmp);
          if decide (r.1 <> SG_ERROR_NONE) then _ ← free_ptr r.2; mret None
          else mret (Some (OsBlock r.2))
    end.

(** [free(tmp_name)]: a literal is not a block of the allocator. *)
Definition free_os_name (n : os_name) : M env unit :=
  match n with
  | OsLiteral _ => stuck undefined_op
  | OsBlock p => _ ← free_ptr p; mret tt
  end.

Definition platform_name (a : processor_architecture) : string :=
  match a with
  | ARCHITECTURE_INTEL => "Intel"
  | ARCHITECTURE_IA64 => "IA64"
  | ARCHITECTURE_AMD64 => "AMD64"
  | ARCHITECTURE_OTHER => "Unknown"
  end.

(** [sg_update_string] of a field; [put] stores the pointer. *)
Definition host_text (old : char_ptr) (s : string) (put : char_ptr -> sg_host_info)
    (next : sg_host_info -> M env (sg_error * sg_host_info)) : M env (sg_error * sg_host_info) :=
  r ← sg_update_string junk old (Some s);
  let d := put r.2 in
  if decide (SG_ERROR_NONE <> r.1) then rc ← sg_get_error; mret (rc, d) else next d.

(** [computer], [version] and [uptime]: the results of GetComputerName, GetVersionEx and
    of the counter. *)
Definition host_info_win32 (max_name : nat) (computer : option string) (version : option osversion)
    (arch : processor_architecture) (uptime : option Z) (d : sg_host_info) : M env (sg_error * sg_host_info) :=
  let d := host_reset d in
  let fail code arg (d : sg_host_info) : M env (sg_error * sg_host_info) :=
    rc ← RETURN_WITH_SET_ERROR code (Some arg); mret (rc, d) in
  b ← sg_realloc junk CNull (max_name + 1);
  match b, computer, version with
  | None, _, _ => rc ← sg_get_error; mret (rc, d)
  | Some _, None, _ => fail SG_ERROR_HOST "GetComputerName"%string d
  | Some _, Some name, _ =>
      host_text (hi_hostname d) name
        (fun p => hi_set_names (hi_os_name d) (hi_os_release d) (hi_os_version d) (hi_platform d) p d) (fun d =>
      match version with
      | None => fail SG_ERROR_HOST "GetVersionEx"%string d
      | Some o =>
          host_text (hi_os_release d) (vsnprintf 10 (pretty (dwBuildNumber o)))
            (fun p => hi_set_names (hi_os_name d) p (hi_os_version d) (hi_platform d) (hi_hostname d) d) (fun d =>
          host_text (hi_os_version d) (vsnprintf 10 (pretty (dwMajorVersion o) +:+ "." +:+ pretty (dwMinorVersion o)))
            (fun p => hi_set_names (hi_os_name d) (hi_os_release d) p (hi_platform d) (hi_hostname d) d) (fun d =>
          n ← get_os_name o arch;
          match n with
          | None => rc ← sg_get_error; mret (rc, d)
          | Some tmp_name =>
              text ← match tmp_name with
                     | OsLiteral s => mret (Some s)
                     | OsBlock CNull => mret None
                     | OsBlock p => s ← read_ptr p; mret (Some s)
                     end;
              r ← sg_update_string junk (hi_os_name d) text;
              let d := hi_set_names r.2 (hi_os_release d) (hi_os_version d) (hi_platform d) (hi_hostname d) d in
              free_os_name tmp_name;;
              if decide (SG_ERROR_NONE <> r.1) then rc ← sg_get_error; mret (rc, d)
              else
                host_text (hi_platform d) (platform_name arch)
                  (fun p => hi_set_names (hi_os_name d) (hi_os_release d) (hi_os_version d) p (hi_hostname d) d) (fun d =>
                match uptime with
                | None => fail SG_ERROR_PDHREAD "\System\System Up Time"%string d
                | Some result =>
                    mret (host_done (hi_set_numbers (hi_bitwidth d) (hi_host_state d) (hi_ncpus d) (hi_maxcpus d)
                                       result (hi_systime d) d))
                end)
          end))
      end)
  end.
End host_systems.
