(* ===== verification/Win32.v ===== *)
(** src/src/libstatgrab/win32.c: the performance counters of Windows, a query that is
    opened once, with a handle per counter and two per disk. The PDH library is an
    argument: which counters it knows, the values it delivers and the disks it lists. *)

From S2P Require Import Prelude Types CLib Errors Tools Vector VectorSpec Items.

Local Open Scope sg_scope.

(** * The counters *)

Inductive pdh_enum := SG_WIN32_PROC_USER | SG_WIN32_PROC_PRIV | SG_WIN32_PROC_IDLE | SG_WIN32_PROC_INT
| SG_WIN32_MEM_CACHE | SG_WIN32_UPTIME | SG_WIN32_PAGEIN | SG_WIN32_PAGEOUT.

Definition pdh_index (c : pdh_enum) : nat :=
  match c with
  | SG_WIN32_PROC_USER => 0 | SG_WIN32_PROC_PRIV => 1 | SG_WIN32_PROC_IDLE => 2 | SG_WIN32_PROC_INT => 3
  | SG_WIN32_MEM_CACHE => 4 | SG_WIN32_UPTIME => 5 | SG_WIN32_PAGEIN => 6 | SG_WIN32_PAGEOUT => 7
  end.
Definition SG_WIN32_SIZE : nat := 8.

Definition PDH_USER : string := "\Processor(_Total)\% User Time".
Definition PDH_PRIV : string := "\Processor(_Total)\% Privileged Time".
Definition PDH_IDLE : string := "\Processor(_Total)\% Processor Time".
Definition PDH_INTER : string := "\Processor(_Total)\% Interrupt Time".
Definition PDH_DISKIOREAD (name : string) : string := "\PhysicalDisk(" +:+ name +:+ ")\Disk Read Bytes/sec".
Definition PDH_DISKIOWRITE (name : string) : string := "\PhysicalDisk(" +:+ name +:+ ")\Disk Write Bytes/sec".
Definition PDH_MEM_CACHE : string := "\Memory\Cache Bytes".
Definition PDH_UPTIME : string := "\System\System Up Time".
Definition PDH_PAGEIN : string := "\Memory\Pages Input/sec".
Definition PDH_PAGEOUT : string := "\Memory\Pages Output/sec".

(** In the order of [add_all_monitors], which is that of the enumeration. *)
Definition monitor_paths : list string :=
  [PDH_USER; PDH_PRIV; PDH_IDLE; PDH_INTER; PDH_MEM_CACHE; PDH_UPTIME; PDH_PAGEIN; PDH_PAGEOUT].

(** * The state *)

(** A handle: NULL, a counter, or what fresh memory holds. *)
Inductive hcounter := HNull | HCounter (h : Z) | HJunk.

(** A pointer to a block of the heap: NULL, released, or its contents. *)
Inductive block (A : Type) := BNull | BFreed | BAlloc (l : list A).
Arguments BNull {A}.
Arguments BFreed {A}.
Arguments BAlloc {A} l.

Record pdh_state := mk_pdh {
  h_query : bool;                     (* the query is open *)
  current_han : list hcounter;
  diskio_names : block char_ptr; diskio_rhan : block hcounter; diskio_whan : block hcounter;
  diskio_no : nat;
  is_started : bool;
  pdh_env : env }.

(** The static variables before the first call. *)
Definition pdh_zero (e : env) : pdh_state :=
  mk_pdh false (replicate SG_WIN32_SIZE HNull) BNull BNull BNull 0 false e.

(** What the PDH library does. *)
Record pdh_api := mk_pdh_api {
  PdhOpenQuery : option Z;                    (* None, or the status of the failure *)
  PdhCollectQueryData : bool;
  PdhAddCounter : string -> option Z;
  PdhFormattedLarge : Z -> option Z;
  PdhFormattedDouble : Z -> option double;
  EnumSizes : option (nat * nat);             (* of the instances and of the counters *)
  EnumItems : option (list string) }.

Definition PDH_INVALID_ARGUMENT : Z := 0xC0000BBD.
Definition PDH_MEMORY_ALLOCATION_FAILURE : Z := 0xC0000BBB.

Section win32.
Context {mem : Memory} (api : pdh_api).

Definition on_env {A} (m : M env A) : M pdh_state A :=
  zoom pdh_env (fun e s => mk_pdh (h_query s) (current_han s) (diskio_names s) (diskio_rhan s)
                             (diskio_whan s) (diskio_no s) (is_started s) e) m.

Definition set_query (b : bool) : M pdh_state unit :=
  modify (fun s => mk_pdh b (current_han s) (diskio_names s) (diskio_rhan s) (diskio_whan s)
                     (diskio_no s) (is_started s) (pdh_env s)).
Definition set_started (b : bool) : M pdh_state unit :=
  modify (fun s => mk_pdh (h_query s) (current_han s) (diskio_names s) (diskio_rhan s) (diskio_whan s)
                     (diskio_no s) b (pdh_env s)).
Definition set_current (l : list hcounter) : M pdh_state unit :=
  modify (fun s => mk_pdh (h_query s) l (diskio_names s) (diskio_rhan s) (diskio_whan s)
                     (diskio_no s) (is_started s) (pdh_env s)).
Definition set_disks (names : block char_ptr) (n : nat) : M pdh_state unit :=
  modify (fun s => mk_pdh (h_query s) (current_han s) names (diskio_rhan s) (diskio_whan s)
                     n (is_started s) (pdh_env s)).
Definition set_rhan (b : block hcounter) : M pdh_state unit :=
  modify (fun s => mk_pdh (h_query s) (current_han s) (diskio_names s) b (diskio_whan s)
                     (diskio_no s) (is_started s) (pdh_env s)).
Definition set_whan (b : block hcounter) : M pdh_state unit :=
  modify (fun s => mk_pdh (h_query s) (current_han s) (diskio_names s) (diskio_rhan s) b
                     (diskio_no s) (is_started s) (pdh_env s)).

(** [add_counter(path, &h)]: the assignment in the failing branch only changes the
    parameter, so that the handle keeps its value. *)
Definition add_counter (path : string) (h : hcounter) : Z * hcounter :=
  match PdhAddCounter api path with
  | Some c => (0, HCounter c)
  | None => (-1, h)
  end.

(** The result and, with 0, the value. *)
Definition read_counter_int {A} (format : Z -> option A) (h : hcounter) : M env (option A) :=
  match h with
  | HNull => mret None
  | _ =>
      b ← sg_realloc junk CNull 16;
      match b, h with
      | None, _ => mret None
      | Some _, HCounter c => mret (format c)
      | Some _, _ => stuck wild_pointer
      end
  end.

Definition read_counter_large_int (h : hcounter) : M env (option Z) :=
  read_counter_int (PdhFormattedLarge api) h.

Definition read_counter_large (c : pdh_enum) : M pdh_state (option Z) :=
  s ← gets current_han;
  match s !! pdh_index c with
  | None => stuck out_of_bounds
  | Some h => on_env (read_counter_large_int h)
  end.

Definition read_counter_double (c : pdh_enum) : M pdh_state (option double) :=
  s ← gets current_han;
  match s !! pdh_index c with
  | None => stuck out_of_bounds
  | Some h => on_env (read_counter_int (PdhFormattedDouble api) h)
  end.

(** The names of the instances of an object, [None] for NULL. *)
Definition get_instances : M env (option (list string)) :=
  match EnumSizes api with
  | None => mret None
  | Some (instances, counters) =>
      i ← sg_realloc junk CNull instances;
      c ← sg_realloc junk CNull counters;
      match i, c with
      | Some _, Some _ => mret (EnumItems api)
      | _, _ => mret None
      end
  end.

(** The loop over the instances: [n] is [*n]. *)
Fixpoint instance_loop (instances : list string) (l : list char_ptr) : M env (option (list char_ptr) * nat) :=
  match instances with
  | [] => mret (Some l, length l)
  | i :: instances' =>
      if strcmp i "_Total" =? 0 then instance_loop instances' l
      else
        a ← sg_realloc junk CNull (8 * (length l + 1));
        b ← match a with
            | None => mret None
            | Some _ => sg_realloc junk CNull (String.length i + 1)
            end;
        match b with
        | None => mret (None, length l)   (* the names stored are released *)
        | Some _ => instance_loop instances' (l ++ [CStr i])
        end
  end.

Definition get_instance_list : M env (option (list char_ptr) * nat) :=
  i ← get_instances;
  match i with
  | None => mret (None, O)
  | Some instances =>
      b ← sg_realloc junk CNull 8;
      match b with
      | None => mret (None, O)
      | Some _ => instance_loop instances []
      end
  end.

(** [diskio_rhan[no]] *)
Definition block_get {S A} (b : block A) (no : nat) : M S A :=
  match b with
  | BNull => stuck null_deref
  | BFreed => stuck use_after_free
  | BAlloc l => match l !! no with Some x => mret x | None => stuck out_of_bounds end
  end.

Definition get_diskio (no : Z) : M pdh_state (option (string * Z * Z)) :=
  s ← gets id;
  if (Z.of_nat (diskio_no s) <=? no) || (no <? 0) then mret None
  else
    let no := Z.to_nat no in
    rh ← block_get (diskio_rhan s) no;
    r ← on_env (read_counter_large_int rh);
    wh ← block_get (diskio_whan s) no;
    w ← on_env (read_counter_large_int wh);
    match r, w with
    | Some read, Some write =>
        p ← block_get (diskio_names s) no;
        n ← read_ptr p;
        u ← on_env (sg_update_string junk CNull (Some n));
        if decide (u.1 <> SG_ERROR_NONE) then mret None else mret (Some (n, read, write))
    | _, _ => on_env (_ ← sg_set_error_fmt SG_ERROR_PDHREAD (Some "diskio"); mret None)
    end.

(** A path in a buffer of 512 characters. *)
Definition disk_handle (path : string -> string) (p : char_ptr) : M pdh_state hcounter :=
  n ← read_ptr p;
  mret (add_counter (vsnprintf 512 (path n)) HJunk).2.

Fixpoint disk_handles (path : string -> string) (names : list char_ptr) : M pdh_state (list hcounter) :=
  match names with
  | [] => mret []
  | p :: names' => h ← disk_handle path p; hs ← disk_handles path names'; mret (h :: hs)
  end.

(** The result is 0 or -1. *)
Definition add_all_monitors : M pdh_state Z :=
  cur ← gets current_han;
  set_current (zip_with (fun path h => (add_counter path h).2) monitor_paths cur);;
  r ← on_env get_instance_list;
  match r with
  | (None, n) => set_disks BNull n;; mret 0
  | (Some names, n) =>
      set_disks (BAlloc names) n;;
      a ← on_env alloc_request;
      match a with
      | AFail => set_rhan BNull;; set_query false;; mret (-1)
      | _ =>
          set_rhan (BAlloc (replicate n HJunk));;
          a ← on_env alloc_request;
          match a with
          | AFail => set_whan BNull;; set_query false;; set_rhan BFreed;; mret (-1)
          | _ =>
              rh ← disk_handles PDH_DISKIOREAD names; set_rhan (BAlloc rh);;
              wh ← disk_handles PDH_DISKIOWRITE names; set_whan (BAlloc wh);;
              mret 0
          end
      end
  end.

Definition sg_win32_snapshot : M pdh_state Z :=
  started ← gets is_started;
  if negb started then mret (-1)
  else if PdhCollectQueryData api then mret 0
  else on_env (_ ← sg_set_error_fmt SG_ERROR_PDHCOLLECT None; mret (-1)).

Definition sg_win32_start_capture : M pdh_state Z :=
  started ← gets is_started;
  if (started : bool) then mret (-1)
  else
    match PdhOpenQuery api with
    | Some status =>
        let mess := if status =? PDH_INVALID_ARGUMENT then Some "Invalid argument o.O"%string
                    else if status =? PDH_MEMORY_ALLOCATION_FAILURE then Some "Memory allocation failure"%string
                    else None in
        on_env (_ ← sg_set_error_fmt SG_ERROR_PDHOPEN mess; mret (-1))
    | None =>
        set_query true;;
        r ← add_all_monitors;
        if r =? -1 then mret (-1) else set_started true;; mret 0
    end.

(** [free] of one of the arrays; the variable keeps the address. *)
Definition free_block {A} (b : block A) : M pdh_state (block A) :=
  match b with
  | BNull => mret BNull
  | BFreed => stuck double_free
  | BAlloc _ => mret BFreed
  end.

(** [PdhRemoveCounter(diskio_rhan[i]); ... free(diskio_names[i])] for [i], [i + 1], ... *)
Fixpoint end_loop (i n : nat) : M pdh_state unit :=
  match n with
  | O => mret tt
  | S n' =>
      s ← gets id;
      _ ← block_get (diskio_rhan s) i;
      _ ← block_get (diskio_whan s) i;
      p ← block_get (diskio_names s) i;
      _ ← free_ptr p;
      end_loop (S i) n'
  end.

Definition sg_win32_end_capture : M pdh_state unit :=
  started ← gets is_started;
  if negb started then mret tt
  else
    set_query false;;
    set_current (replicate SG_WIN32_SIZE HNull);;
    n ← gets diskio_no;
    end_loop 0 n;;
    s ← gets id;
    names ← free_block (diskio_names s);
    set_disks names n;;
    rh ← free_block (diskio_rhan s); set_rhan rh;;
    wh ← free_block (diskio_whan s); set_whan wh;;
    set_disks names O;;
    set_started false.

(** DllMain: the library starts the capture when it is loaded. *)
Inductive dll_reason := DLL_PROCESS_ATTACH | DLL_PROCESS_DETACH | DLL_THREAD_ATTACH | DLL_THREAD_DETACH.

Definition DllMain (reason : dll_reason) : M pdh_state bool :=
  match reason with
  | DLL_PROCESS_ATTACH => r ← sg_win32_start_capture; mret (r =? 0)
  | DLL_PROCESS_DETACH => sg_win32_end_capture;; mret true
  | _ => mret true
  end.
End win32.
