(* ===== verification/SingleSys.v ===== *)
(** The components whose result is one structure on the systems other than Linux:
    cpu_stats.c, load_stats.c, memory_stats.c, swap_stats.c and page_stats.c with the
    errors of their system calls, and user_stats.c where the users are read from the
    utmp file or listed by Windows. What the system calls deliver is an argument. *)

From S2P Require Import Prelude Types CLib Errors Tools Vector VectorSpec VectorDiff Items Comp Stdio ToolsExt Fill Single Cpu UserHost Win32.

Local Open Scope sg_scope.

Definition ENOENT : Z := 2.

(** A page of the kernel statistics of Solaris: the step that fails, or the lookup of
    its data. *)
Inductive kstat_page :=
| KNoOpen | KNoLookup | KNoRead | KData (data : string -> option Z).

Section single_systems.
Context {mem : Memory} {sys : System}.

(** [sg_malloc(n)] whose block plays no part below; a failure was recorded. *)
Definition with_block {B} (n : nat) (b : B) (next : M env (sg_error * B)) : M env (sg_error * B) :=
  p ← sg_realloc junk CNull n;
  match p with
  | None => rc ← sg_get_error; mret (rc, b)
  | Some _ => next
  end.

(** [kstat_open], [kstat_lookup] and [kstat_read] of the page called [name]. *)
Definition with_kstat {B} (page : kstat_page) (name : string) (b : B)
    (next : (string -> option Z) -> M env (sg_error * B)) : M env (sg_error * B) :=
  match page with
  | KNoOpen => failed SG_ERROR_KSTAT_OPEN None b
  | KNoLookup => failed SG_ERROR_KSTAT_LOOKUP (Some name) b
  | KNoRead => failed SG_ERROR_KSTAT_READ None b
  | KData data => next data
  end.

Definition kstat_value {B} (data : string -> option Z) (name : string) (b : B)
    (next : Z -> M env (sg_error * B)) : M env (sg_error * B) :=
  match data name with
  | None => failed SG_ERROR_KSTAT_DATA_LOOKUP (Some name) b
  | Some v => next v
  end.

(** * cpu_stats.c *)

Definition cpu_hpux (st : hpux_states) (dynamic : list Z + Z) (vminfo : (Z * Z * Z) + Z)
    : M env (sg_error * sg_cpu_stats) :=
  sys_call dynamic SG_ERROR_PSTAT (Some "pstat_dynamic") cpu_zero (fun psd_cpu_time =>
  sys_call vminfo SG_ERROR_PSTAT (Some "pstat_vminfo") cpu_zero (fun vm =>
  mret (SG_ERROR_NONE, cpu_stats_hpux st psd_cpu_time vm))).

(** The times and the events of [perfstat_cpu_total]. *)
Definition cpu_aix (info : ((Z * Z * Z * Z) * (Z * Z * Z * Z)) + Z) : M env (sg_error * sg_cpu_stats) :=
  sys_call info SG_ERROR_PSTAT (Some "perfstat_cpu_total") cpu_zero (fun i =>
  let '((user, wait, sys_, idle), (pswitch, syscall_, devintrs, softintrs)) := i in
  mret (SG_ERROR_NONE, cpu_stats_aix user wait sys_ idle pswitch syscall_ devintrs softintrs)).

(** The kstat chain: whether a kstat is raw, its module, and the counters when it can be
    read. *)
Definition cpu_solaris (chain : option (list (bool * string * option solaris_cpu)))
    : M env (sg_error * sg_cpu_stats) :=
  match chain with
  | None => failed SG_ERROR_KSTAT_OPEN None cpu_zero
  | Some l =>
      mret (SG_ERROR_NONE, cpu_stats_solaris (omap (fun k =>
        let '(raw, module_, cs) := k in
        if negb raw then None else if negb (strcmp module_ "cpu_stat" =? 0) then None else cs) l))
  end.

(** Where a BSD has the times: Mach, [kinfo_get_sched_cputime] or one of the three
    sysctls of CPU states, which [cp_name] names in the message. *)
Inductive cpu_times :=
| MachTicks (ticks : (Z * Z * Z * Z) + Z)
| KinfoCputime (t : (Z * Z * Z * Z * Z) + Z)
| CpTime (cp_name : string) (i_user i_nice i_sys i_idle : nat) (cp_time : list Z + Z).

Definition cpu_bsd_times (t : cpu_times) : M env (sg_error * sg_cpu_stats) :=
  match t with
  | MachTicks (inl (user, nice, system, idle)) => mret (SG_ERROR_NONE, cpu_stats_mach user nice system idle)
  | MachTicks (inr rc) =>
      code ← sg_set_error_with_errno_code_fmt SG_ERROR_MACHCALL rc (Some "host_statistics");
      mret (code, cpu_zero)
  | KinfoCputime r =>
      sys_call r SG_ERROR_SYSCTL (Some "kern.cputime") cpu_zero (fun i =>
      let '(user, nice, sys_, intr, idle) := i in
      mret (SG_ERROR_NONE, cpu_stats_kinfo user nice sys_ intr idle))
  | CpTime cp_name i_user i_nice i_sys i_idle r =>
      sys_call r SG_ERROR_SYSCTL (Some cp_name) cpu_zero (fun cp_time =>
      mret (SG_ERROR_NONE, cpu_stats_cptime i_user i_nice i_sys i_idle cp_time))
  end.

(** Where it has the events: context switches, system calls, interrupts and soft
    interrupts of [struct uvmexp] ([uvm_name] is the sysctl), or of [struct vmmeter]
    (which has traps too, and whose absence is no error), or nowhere. *)
Inductive cpu_events :=
| Uvmexp (uvm_name : string) (uvm : (Z * Z * Z * Z) + Z)
| Vmmeter (vm : option (Z * Z * Z * Z * Z))
| NoEvents.

Definition cpu_bsd_events (e : cpu_events) (b : sg_cpu_stats) : M env (sg_error * sg_cpu_stats) :=
  match e with
  | Uvmexp uvm_name uvm =>
      sys_call uvm SG_ERROR_SYSCTL (Some uvm_name) b (fun u =>
      let '(swtch, syscalls, intrs, softs) := u in
      mret (SG_ERROR_NONE, cpu_set_events (u64 swtch) 0 0 (u64 syscalls) (u64 intrs) (u64 softs) b))
  | Vmmeter (Some (v_swtch, v_syscall, v_trap, v_intr, v_soft)) =>
      mret (SG_ERROR_NONE, cpu_set_events v_swtch 0 0 (v_syscall +u v_trap) v_intr v_soft b)
  | Vmmeter None | NoEvents => mret (SG_ERROR_NONE, cpu_set_events 0 0 0 0 0 0 b)
  end.

Definition cpu_bsd (t : cpu_times) (e : cpu_events) : M env (sg_error * sg_cpu_stats) :=
  r ← cpu_bsd_times t;
  if decide (r.1 <> SG_ERROR_NONE) then mret r
  else
    r ← cpu_bsd_events e r.2;
    if decide (r.1 <> SG_ERROR_NONE) then mret r
    else mret (SG_ERROR_NONE, cpu_set_systime sys_time r.2).

(** [sg_cpu_init_comp] where the states are read by the name of the sysctl: the two
    numbers it stands for. *)
Definition sg_cpu_init_comp (cp_time : (Z * Z) + Z) : M env (sg_error * option (Z * Z)) :=
  sys_call cp_time SG_ERROR_SYSCTLNAMETOMIB (Some "kern.cp_time") None (fun mib =>
  mret (SG_ERROR_NONE, Some mib)).

(** ** Percentages of Windows *)

(** A counter as [float]; [name] is the argument of the error. *)
Definition percent_counter (api : pdh_api) (c : pdh_enum) (name : string) (b : sg_cpu_percents)
    (next : spec_float -> M pdh_state (sg_error * sg_cpu_percents)) : M pdh_state (sg_error * sg_cpu_percents) :=
  r ← read_counter_double api c;
  match r with
  | None => rc ← on_env (RETURN_WITH_SET_ERROR_WITH_ERRNO SG_ERROR_KSTAT_READ (Some name)); mret (rc, b)
  | Some d => next (to_float d)
  end.

(** The counter called idle counts the activity. What Windows does not count keeps its
    value. *)
Definition cpu_percents_win32 (api : pdh_api) (b : sg_cpu_percents) : M pdh_state (sg_error * sg_cpu_percents) :=
  let set u k i w := mk_cpu_percents u k i w (pct_swap b) (pct_nice b) (pct_time_taken b) in
  percent_counter api SG_WIN32_PROC_USER "SG_WIN32_PROC_USER" b (fun f =>
  let b := set (to_double f) (pct_kernel b) (pct_idle b) (pct_iowait b) in
  percent_counter api SG_WIN32_PROC_PRIV "SG_WIN32_PROC_PRIV" b (fun f =>
  let b := set (pct_user b) (to_double f) (pct_idle b) (pct_iowait b) in
  percent_counter api SG_WIN32_PROC_IDLE "SG_WIN32_PROC_IDLE" b (fun f =>
  let b := set (pct_user b) (pct_kernel b) (to_double (float_sub (float_of 100) f)) (pct_iowait b) in
  percent_counter api SG_WIN32_PROC_INT "SG_WIN32_PROC_INT" b (fun f =>
  mret (SG_ERROR_NONE, set (pct_user b) (pct_kernel b) (pct_idle b) (to_double f)))))).

(** * load_stats.c *)

Definition load_zero (b : sg_load_stats) : sg_load_stats :=
  mk_load_stats (double_of 0) (double_of 0) (double_of 0) (load_systime b).

Definition load_stats_solaris (page : kstat_page) (b : sg_load_stats) : M env (sg_error * sg_load_stats) :=
  let scale v := double_div (double_of (u32 v)) (double_of 256) in
  let b := load_zero b in
  with_kstat page "unix,0,system_misc" b (fun data =>
  kstat_value data "avenrun_1min" b (fun v =>
  let b := mk_load_stats (scale v) (load_min5 b) (load_min15 b) (load_systime b) in
  kstat_value data "avenrun_5min" b (fun v =>
  let b := mk_load_stats (load_min1 b) (scale v) (load_min15 b) (load_systime b) in
  kstat_value data "avenrun_15min" b (fun v =>
  mret (SG_ERROR_NONE, mk_load_stats (load_min1 b) (load_min5 b) (scale v) sys_time))))).

Definition load_stats_hpux (dynamic : (double * double * double) + Z) (b : sg_load_stats)
    : M env (sg_error * sg_load_stats) :=
  sys_call dynamic SG_ERROR_PSTAT (Some "pstat_dynamic") (load_zero b) (fun avg =>
  let '(l1, l5, l15) := avg in mret (SG_ERROR_NONE, mk_load_stats l1 l5 l15 sys_time)).

(** * memory_stats.c *)

(** Solaris without _SC_PHYS_PAGES. *)
Definition mem_stats_kstat (page : kstat_page) (b : sg_mem_stats) : M env (sg_error * sg_mem_stats) :=
  with_kstat page "unix,0,system_pages" b (fun data =>
  kstat_value data "physmem" b (fun v =>
  let b := mk_mem_stats (v *u sys_page_size) (mem_free b) (mem_used b) (mem_cache b) (mem_systime b) in
  kstat_value data "freemem" b (fun v =>
  let free := v *u sys_page_size in
  mret (SG_ERROR_NONE, mk_mem_stats (mem_total b) free (mem_total b -u free) 0 sys_time)))).

(** Windows: a cache that cannot be read counts as 0. *)
Definition mem_stats_win32 (api : pdh_api) (status : (Z * Z) + Z) (b : sg_mem_stats)
    : M pdh_state (sg_error * sg_mem_stats) :=
  m ← on_env (syscall status);
  match m with
  | None => rc ← on_env (RETURN_WITH_SET_ERROR_WITH_ERRNO SG_ERROR_MEMSTATUS None); mret (rc, b)
  | Some (ullAvailPhys, ullTotalPhys) =>
      cache ← read_counter_large api SG_WIN32_MEM_CACHE;
      mret (SG_ERROR_NONE,
        mk_mem_stats ullTotalPhys ullAvailPhys (ullTotalPhys -u ullAvailPhys) (default 0 cache) sys_time)
  end.

(** [struct vmtotal], with HW_PHYSMEM and HW_USERMEM. *)
Definition mem_stats_vmtotal (vmtotal : (Z * Z) + Z) (physmem usermem : Z + Z) (b : sg_mem_stats)
    : M env (sg_error * sg_mem_stats) :=
  sys_call vmtotal SG_ERROR_SYSCTLBYNAME (Some "vm.vmtotal") b (fun vm =>
  let '(t_rm, t_free) := vm in
  let b := mk_mem_stats (mem_total b) (u64 t_free *u sys_page_size) (u64 t_rm *u sys_page_size) 0
             (mem_systime b) in
  sys_call physmem SG_ERROR_SYSCTL (Some "CTL_HW.HW_PHYSMEM") b (fun total_mem =>
  let b := mk_mem_stats total_mem (mem_free b) (mem_used b) (mem_cache b) (mem_systime b) in
  sys_call usermem SG_ERROR_SYSCTL (Some "CTL_HW.HW_USERMEM") b (fun user_mem =>
  mret (SG_ERROR_NONE,
    mk_mem_stats (mem_total b) (mem_free b) (mem_used b +u (total_mem -u user_mem)) (mem_cache b)
      sys_time)))).

(** [sg_mem_init_comp]; [vmtotal] where the totals are read by name. *)
Definition sg_mem_init_comp (vmtotal : option ((Z * Z) + Z)) (page_size_ok : unit + Z)
    : M env (sg_error * option (Z * Z)) :=
  let rest mib := sys_call page_size_ok SG_ERROR_SYSCONF (Some "_SC_PAGESIZE") mib (fun _ =>
                    mret (SG_ERROR_NONE, mib)) in
  match vmtotal with
  | None => rest None
  | Some r =>
      sys_call r SG_ERROR_SYSCTLNAMETOMIB (Some "vm.vmtotal") None (fun mib => rest (Some mib))
  end.

(** * swap_stats.c *)

(** The entries of [pstat_getswap]: the flags SW_ENABLED, SW_BLOCK and SW_FS, the
    counts of blocks and of file-system swap. *)
Record pst_swapinfo := mk_pst_swapinfo {
  pss_idx : Z; pss_enabled : bool; pss_block : bool; pss_fs : bool;
  pss_nblksavail : Z; pss_nfpgs : Z; pss_limit : Z; pss_allocated : Z }.

(** [total += ...; used += ...; free = total - used] *)
Definition swap_add (total used : Z) (b : sg_swap_stats) : sg_swap_stats :=
  let t := swap_total b +u total in
  let u := swap_used b +u used in
  mk_swap_stats t u (t -u u) (swap_systime b).

Definition swap_area (b : sg_swap_stats) (si : pst_swapinfo) : sg_swap_stats :=
  if negb (pss_enabled si) then b
  else
    let b := if pss_block si then swap_add (pss_nblksavail si *u 1024) (pss_nfpgs si *u 1024) b else b in
    if pss_fs si then swap_add (pss_limit si *u 1024) (pss_allocated si *u 1024) b else b.

Definition SWAP_BATCH : nat := 5.

(** [for(;;)] over the batches; [getswap count idx] is the system call. *)
Fixpoint hpux_swap_loop (fuel : nat) (getswap : nat -> Z -> list pst_swapinfo + Z) (swapidx : Z)
    (b : sg_swap_stats) : M env (sg_error * sg_swap_stats) :=
  match fuel with
  | O => stuck out_of_fuel
  | S fuel' =>
      sys_call (getswap SWAP_BATCH swapidx) SG_ERROR_PSTAT (Some "pstat_getswap") b (fun batch =>
      match last batch with
      | None => mret (SG_ERROR_NONE, b)
      | Some si => hpux_swap_loop fuel' getswap (s32 (pss_idx si + 1)) (foldl swap_area b batch)
      end)
  end.

Definition swap_done (r : sg_error * sg_swap_stats) : sg_error * sg_swap_stats :=
  if decide (r.1 <> SG_ERROR_NONE) then r
  else (SG_ERROR_NONE, mk_swap_stats (swap_total r.2) (swap_used r.2) (swap_free r.2) sys_time).

Definition swap_stats_hpux (fuel : nat) (getswap : nat -> Z -> list pst_swapinfo + Z) (b : sg_swap_stats)
    : M env (sg_error * sg_swap_stats) :=
  r ← hpux_swap_loop fuel getswap 0 (swap_zero b); mret (swap_done r).

(** Solaris: the answers to SC_GETNSWP and SC_LIST, one pair for every time the code asks
    [again] because areas were added in between. A list of fewer areas than there
    were leaves zeroes in the table. *)
Definition swap_table (nswap : nat) (areas : list (Z * Z)) : list (Z * Z) :=
  areas ++ replicate (nswap - length areas) (0, 0).

Fixpoint solaris_swap_loop (path_max sizeof_table sizeof_ent : nat) (rounds : list ((nat + Z) * (list (Z * Z) + Z)))
    (b : sg_swap_stats) : M env (sg_error * sg_swap_stats) :=
  match rounds with
  | [] => stuck out_of_fuel
  | (count, listed) :: rounds' =>
      sys_call count SG_ERROR_SWAPCTL None b (fun nswap =>
      if (nswap =? 0)%nat then mret (SG_ERROR_NONE, b)
      else
        with_block (nswap * (path_max + 1) + 1) b (
        with_block (sizeof_table + nswap * sizeof_ent) b (
        sys_call listed SG_ERROR_SWAPCTL None b (fun areas =>
        if (nswap <? length areas)%nat then solaris_swap_loop path_max sizeof_table sizeof_ent rounds' b
        else
          let b := foldl (fun b a => mk_swap_stats (u64 a.1) (swap_used b) (u64 a.2) (swap_systime b))
                     b (swap_table nswap areas) in
          let total := swap_total b *u sys_page_size in
          let free := swap_free b *u sys_page_size in
          mret (SG_ERROR_NONE, mk_swap_stats total (total -u free) free (swap_systime b))))))
  end.

Definition swap_stats_solaris (path_max sizeof_table sizeof_ent : nat) (rounds : list ((nat + Z) * (list (Z * Z) + Z)))
    (b : sg_swap_stats) : M env (sg_error * sg_swap_stats) :=
  r ← solaris_swap_loop path_max sizeof_table sizeof_ent rounds (swap_zero b); mret (swap_done r).

(** FreeBSD and DragonFly: [sg_swap_init_comp] finds out whether the devices are read
    one by one ("vm.swap_info") or all at once ("vm.swap_info_array"). *)
Record swapinfo := mk_swapinfo { swapinfo_array : bool; swapinfo_sysctl_name : string }.

Definition sg_swap_init_comp (page_size_ok : unit + Z) (swap_info swap_info_array : unit + Z)
    : M env (sg_error * option swapinfo) :=
  sys_call page_size_ok SG_ERROR_SYSCONF (Some "_SC_PAGESIZE") None (fun _ =>
  one ← syscall swap_info;
  match one with
  | Some _ => mret (SG_ERROR_NONE, Some (mk_swapinfo false "vm.swap_info"))
  | None =>
      sys_call swap_info_array SG_ERROR_SYSCTLNAMETOMIB (Some "vm.swap_info + vm.swap_info_array") None (fun _ =>
      mret (SG_ERROR_NONE, Some (mk_swapinfo true "vm.swap_info_array")))
  end).

Record xswdev := mk_xswdev { xsw_size : nat; xsw_version : Z; xsw_nblks : Z; xsw_used : Z }.

(** [for (n = 0; ; ++n)] over what [next] finds: an error to return, the end, or a
    device. [version] is XSWDEV_VERSION. *)
Fixpoint xswdev_loop (fuel : nat) (version : Z) (next : nat -> M env (sg_error + option xswdev)) (n : nat)
    (b : sg_swap_stats) : M env (sg_error * sg_swap_stats) :=
  match fuel with
  | O => stuck out_of_fuel
  | S fuel' =>
      d ← next n;
      match d with
      | inl rc => mret (rc, b)
      | inr None => mret (SG_ERROR_NONE, b)
      | inr (Some d) =>
          if negb (xsw_version d =? version) then failed SG_ERROR_XSW_VER_MISMATCH None b
          else
            xswdev_loop fuel' version next (S n)
              (mk_swap_stats (swap_total b +u u64 (xsw_nblks d)) (swap_used b +u u64 (xsw_used d))
                 (swap_free b) (swap_systime b))
      end
  end.

(** One device by its number; ENOENT ends the list. *)
Definition next_device (name : string) (device : nat -> xswdev + Z) (n : nat) : M env (sg_error + option xswdev) :=
  match device n with
  | inl d => mret (inr (Some d))
  | inr err =>
      modify (set_errno err);;
      if err =? ENOENT then mret (inr None)
      else rc ← RETURN_WITH_SET_ERROR_WITH_ERRNO SG_ERROR_SYSCTL (Some name); mret (inl rc)
  end.

(** All devices at once: [buf] are the entries of the buffer and [size] its bytes; the
    number of entries is computed with the size the first one states. *)
Definition next_entry (buf : list xswdev) (size n : nat) : M env (sg_error + option xswdev) :=
  match buf with
  | [] => stuck out_of_bounds
  | d0 :: _ =>
      if (xsw_size d0 =? 0)%nat then stuck undefined_op
      else if (size / xsw_size d0 <=? n)%nat then mret (inr None)
      else match buf !! n with
           | Some d => mret (inr (Some d))
           | None => stuck out_of_bounds
           end
  end.

(** [*= sys_page_size], and [free] from the difference when nothing counted it. *)
Definition swap_in_pages (b : sg_swap_stats) : sg_swap_stats :=
  let total := swap_total b *u sys_page_size in
  let used := swap_used b *u sys_page_size in
  mk_swap_stats total used
    (if swap_free b =? 0 then total -u used else swap_free b *u sys_page_size) (swap_systime b).

(** [array]: the size and the contents the two sysctls deliver. *)
Definition swap_stats_xswdev (fuel : nat) (si : swapinfo) (version : Z) (device : nat -> xswdev + Z)
    (array_size : nat + Z) (array : (list xswdev * nat) + Z) (b : sg_swap_stats)
    : M env (sg_error * sg_swap_stats) :=
  let b := swap_zero b in
  let name := Some (swapinfo_sysctl_name si) in
  let run next :=
    r ← xswdev_loop fuel version next 0 b;
    if decide (r.1 <> SG_ERROR_NONE) then mret r else mret (swap_done (SG_ERROR_NONE, swap_in_pages r.2)) in
  if swapinfo_array si then
    sys_call array_size SG_ERROR_SYSCTL name b (fun size =>
    with_block size b (
    sys_call array SG_ERROR_SYSCTL name b (fun a => run (next_entry a.1 a.2))))
  else run (next_device (swapinfo_sysctl_name si) device).

(** Darwin with VM_SWAPUSAGE; NetBSD and OpenBSD with [struct uvmexp], whose fields have
    64 bits or are widened before the product; kvm; Windows. *)
Definition swap_stats_xsw_usage (xsw : (Z * Z * Z) + Z) (b : sg_swap_stats) : M env (sg_error * sg_swap_stats) :=
  sys_call xsw SG_ERROR_SYSCTL (Some "CTL_VM.VM_SWAPUSAGE") (swap_zero b) (fun x =>
  let '(xsu_total, xsu_used, xsu_avail) := x in
  mret (SG_ERROR_NONE, mk_swap_stats xsu_total xsu_used xsu_avail sys_time)).

Definition swap_stats_uvmexp (sysctl_name : string) (uvm : (Z * Z * Z) + Z) (b : sg_swap_stats)
    : M env (sg_error * sg_swap_stats) :=
  sys_call uvm SG_ERROR_SYSCTL (Some sysctl_name) (swap_zero b) (fun u =>
  let '(pagesize, swpages, swpginuse) := u in
  let total := u64 pagesize *u u64 swpages in
  let used := u64 pagesize *u u64 swpginuse in
  mret (SG_ERROR_NONE, mk_swap_stats total used (total -u used) sys_time)).

Definition swap_stats_kvm (kvmd : option (option (Z * Z))) (b : sg_swap_stats) : M env (sg_error * sg_swap_stats) :=
  let b := swap_zero b in
  match kvmd with
  | None => failed SG_ERROR_KVM_OPENFILES None b
  | Some None => failed SG_ERROR_KVM_GETSWAPINFO None b
  | Some (Some (ksw_total, ksw_used)) =>
      let total := u64 ksw_total *u sys_page_size in
      let used := u64 ksw_used *u sys_page_size in
      mret (SG_ERROR_NONE, mk_swap_stats total used (total -u used) sys_time)
  end.

Definition swap_stats_win32 (status : (Z * Z) + Z) (b : sg_swap_stats) : M env (sg_error * sg_swap_stats) :=
  sys_call status SG_ERROR_MEMSTATUS (Some "GloblaMemoryStatusEx") (swap_zero b) (fun m =>
  let '(ullTotalPageFile, ullAvailPageFile) := m in
  mret (SG_ERROR_NONE,
    mk_swap_stats ullTotalPageFile (ullTotalPageFile -u ullAvailPageFile) ullAvailPageFile sys_time)).

(** * page_stats.c *)

Definition page_stats_kstat (chain : option (list (option (Z * Z)))) : M env (sg_error * sg_page_stats) :=
  match chain with
  | None => failed SG_ERROR_KSTAT_OPEN None (mk_page_stats 0 0 sys_time)
  | Some l => mret (SG_ERROR_NONE, page_stats_solaris l)
  end.

Definition page_stats_mach (vm : (Z * Z) + Z) : M env (sg_error * sg_page_stats) :=
  match vm with
  | inr rc =>
      code ← sg_set_error_with_errno_code_fmt SG_ERROR_MACHCALL rc (Some "host_statistics");
      mret (code, mk_page_stats 0 0 sys_time)
  | inl (pageins, pageouts) => mret (SG_ERROR_NONE, mk_page_stats pageins pageouts sys_time)
  end.

Definition page_stats_aix (mem_total : (Z * Z) + Z) : M env (sg_error * sg_page_stats) :=
  page_stats_counters SG_ERROR_SYSCTLBYNAME "perfstat_memory_total" mem_total.

(** The message names another call. *)
Definition page_stats_hpux (vminfo : (Z * Z) + Z) : M env (sg_error * sg_page_stats) :=
  page_stats_counters SG_ERROR_SYSCTLBYNAME "pstat_getswap" vminfo.

(** FreeBSD and DragonFly read the counters into the structure one after the other. The
    kernel stores [bytes] bytes of a counter, into eight that are zero. *)
Definition page_stats_freebsd (bytes : Z) (pgsin pgsout : Z + Z) : M env (sg_error * sg_page_stats) :=
  let b := mk_page_stats 0 0 sys_time in
  sys_call pgsin SG_ERROR_SYSCTLBYNAME (Some "vm.stats.vm.v_swappgsin") b (fun i =>
  let b := mk_page_stats (wrap (8 * bytes) i) 0 sys_time in
  sys_call pgsout SG_ERROR_SYSCTLBYNAME (Some "vm.stats.vm.v_swappgsout") b (fun o =>
  mret (SG_ERROR_NONE, mk_page_stats (pages_pagein b) (wrap (8 * bytes) o) sys_time))).

(** * user_stats.c *)

(** An entry without a type is a user's when the name is not empty. *)
Definition named (db : list utent) : list utent :=
  filter (fun e => negb (bool_decide (head (ut_user e) = Some NUL)) = true) db.

(** The utmp file, where there are no functions to read it. *)
Definition user_stats_file (path : string) (entries : list utent + Z) (v : vptr) : M world (sg_error * vptr) :=
  f ← in_env (syscall entries);
  match f with
  | None => rc ← in_env (RETURN_WITH_SET_ERROR_WITH_ERRNO SG_ERROR_OPEN (Some path)); mret (rc, v)
  | Some db => append_loop Kuser fill_utmp (named db) 0 v
  end.

(** Windows: the name, converted from wide characters into a buffer of 256. *)
Definition fill_wksta_user (name : string) (it : item) : M env (sg_error * item) :=
  let u := as_user it in
  l ← sg_update_string junk (usr_login_name u) (Some name);
  let u := usr_set l.2 (usr_record_id u) (usr_device u) (usr_hostname u) u in
  if decide (SG_ERROR_NONE <> l.1) then rc ← sg_get_error; mret (rc, IUser u)
  else
    mret (SG_ERROR_NONE,
      IUser (mk_user_stats (usr_login_name u) (usr_record_id u) (usr_record_id_size u) (usr_device u)
               (usr_hostname u) (usr_pid u) (usr_login_time u) sys_time)).

(** What [NetWkstaUserEnum] returns: the last part of the list, a part with more to come,
    or another status; a part may come without a buffer. *)
Inductive net_status := NERR_Success | ERROR_MORE_DATA | NetError.

Fixpoint user_stats_win32 (answers : list (net_status * option (list string))) (num_users : nat) (v : vptr)
    : M world (sg_error * vptr) :=
  match answers with
  | [] => stuck out_of_fuel
  | (NetError, _) :: _ => rc ← in_env (RETURN_WITH_SET_ERROR SG_ERROR_PERMISSION (Some "User enum")); mret (rc, v)
  | (st, buf) :: answers' =>
      let names := default [] buf in
      r ← append_loop Kuser fill_wksta_user names num_users v;
      if decide (r.1 <> SG_ERROR_NONE) then mret r
      else match st with
           | ERROR_MORE_DATA => user_stats_win32 answers' (num_users + length names) r.2
           | _ => mret r
           end
  end.
End single_systems.
