(* ===== verification/Program.v ===== *)
(** Programs that print and exit: the monad with an exit code, the two output streams, and
    src/tests/testlib/err.c, whose functions src/examples/helpers.c has too. *)

From S2P Require Import Prelude Types CLib Errors Tools Stdio.

(** * Programs that exit *)

(** A computation of a program ends with a value, or the program with a status. *)
Definition X (S A : Type) : Type := S -> outcome S (Z + A).

#[export] Instance X_ret {S} : MRet (X S) := fun A a s => Done (inr a) s.
#[export] Instance X_bind {S} : MBind (X S) := fun A B f m s =>
  match m s with
  | Done (inr a) s' => f a s'
  | Done (inl status) s' => Done (inl status) s'
  | Stuck e => Stuck e
  end.

Definition exit_ {S A} (status : Z) : X S A := fun s => Done (inl status) s.
Definition run {S A} (m : M S A) : X S A := fun s =>
  match m s with Done a s' => Done (inr a) s' | Stuck e => Stuck e end.

(** Total correctness: [Q] of the value, [E] of the status. *)
Definition xp {S A} (m : X S A) (Q : A -> S -> Prop) (E : Z -> S -> Prop) (s : S) : Prop :=
  match m s with
  | Done (inr a) s' => Q a s'
  | Done (inl status) s' => E status s'
  | Stuck _ => False
  end.

Section xp.
Context {S A B : Type}.
Implicit Types (m : X S A) (f : A -> X S B) (s : S).

Lemma xp_ret (a : A) Q E s : Q a s -> xp (mret a) Q E s.
Proof. done. Qed.

Lemma xp_bind m f Q E s : xp m (fun a => xp (f a) Q E) E s -> xp (m ≫= f) Q E s.
Proof. unfold xp, mbind, X_bind. by destruct (m s) as [[status|a] s'|]. Qed.

Lemma xp_exit status (Q : A -> S -> Prop) E s : E status s -> xp (exit_ status) Q E s.
Proof. done. Qed.

Lemma xp_run (m : M S A) Q E s : wp m Q s -> xp (run m) Q E s.
Proof. unfold wp, xp, run. by destruct (m s). Qed.

Lemma xp_mono m (Q Q' : A -> S -> Prop) (E E' : Z -> S -> Prop) s :
  xp m Q E s -> (forall a s', Q a s' -> Q' a s') -> (forall z s', E z s' -> E' z s') -> xp m Q' E' s.
Proof. unfold xp. destruct (m s) as [[status|a] s'|]; auto. Qed.

Lemma X_bind_done m f s a s' : m s = Done (inr a) s' -> (m ≫= f) s = f a s'.
Proof. unfold mbind, X_bind. by intros ->. Qed.

Lemma xp_done m Q E s a s' : m s = Done (inr a) s' -> Q a s' -> xp m Q E s.
Proof. unfold xp. by intros ->. Qed.
End xp.

(** * The output *)

(** Standard output, standard error, and the environment of the library. *)
Record console := mk_console { c_out : string; c_err : string; c_env : env }.

(** A program whose state has a console. *)
Class Console (S : Type) := {
  get_console : S -> console;
  put_console : console -> S -> S;
  put_get s : put_console (get_console s) s = s;
  get_put c s : get_console (put_console c s) = c;
  put_put c c' s : put_console c (put_console c' s) = put_console c s }.

#[export] Instance console_self : Console console :=
  {| get_console := fun c => c; put_console := fun c _ => c;
     put_get := fun s => eq_refl; get_put := fun c s => eq_refl; put_put := fun c c' s => eq_refl |}.

Definition newline_text : string := String newline EmptyString.

Section console.
Context {S : Type} `{!Console S}.

Definition on_console (f : console -> console) (s : S) : S := put_console (f (get_console s)) s.

Definition print (t : string) : X S unit :=
  run (modify (on_console (fun c => mk_console (c_out c +:+ t) (c_err c) (c_env c)))).
Definition eprint (t : string) : X S unit :=
  run (modify (on_console (fun c => mk_console (c_out c) (c_err c +:+ t) (c_env c)))).

(** A call of the library. *)
Definition lib {A} (m : M env A) : X S A :=
  run (zoom (fun s => c_env (get_console s))
            (fun e => on_console (fun c => mk_console (c_out c) (c_err c) e)) m).

(** * err.c *)

(** The text of [strerror]; [strerror_r] is what sg_strperror calls. *)
Context (strerror : Z -> string) (strerror_r : Z -> option string).

(** The end of the messages for an error that cannot be reported. *)
Definition error_text (errc : sg_error) : string :=
  "(" +:+ print_signed (error_number errc) +:+ ", " +:+ sg_str_error errc +:+ ")" +:+ newline_text.

(** The recorded error as a text, or the message that says why there is none. *)
Definition error_message : X S (string + string) :=
  d ← lib (sg_get_error_details true);
  if decide (d.1 <> SG_ERROR_NONE) then mret (inl ("can't get error details " +:+ error_text d.1))
  else
    p ← lib (sg_strperror strerror_r (Some CNull) d.2);
    match p with
    | CStr t => mret (inr t)
    | _ =>
        errc ← lib sg_get_error;
        mret (inl ("panic: can't prepare error message " +:+ error_text errc))
    end.

(** The number of characters printed, 0 when there is no message. *)
Definition sg_warn (prefix : string) : X S Z :=
  m ← error_message;
  match m with
  | inl problem => eprint problem;; mret 0
  | inr t =>
      let line := prefix +:+ ": " +:+ t +:+ newline_text in
      eprint line;; mret (Z.of_nat (String.length line))
  end.

Definition sg_die {A} (prefix : string) (exit_code : Z) : X S A :=
  d ← lib (sg_get_error_details true);
  if decide (d.1 <> SG_ERROR_NONE) then
    eprint ("panic: can't get error details " +:+ error_text d.1);; exit_ exit_code
  else
    p ← lib (sg_strperror strerror_r (Some CNull) d.2);
    match p with
    | CStr t => eprint (prefix +:+ ": " +:+ t +:+ newline_text);; exit_ exit_code
    | _ =>
        errc ← lib sg_get_error;
        eprint ("panic: can't prepare error message " +:+ error_text errc);; exit_ exit_code
    end.

Definition ERR_BUF : nat := 4096.

(** [msg] is the formatted text. The second snprintf starts where vsnprintf would have
    ended: behind the buffer when the text does not fit. *)
Definition err_doit (errnoflag : bool) (error : Z) (msg : string) : X S unit :=
  let buf := vsnprintf ERR_BUF msg in
  if errnoflag && (ERR_BUF <? String.length msg)%nat then run (stuck out_of_bounds)
  else
    let buf :=
      if errnoflag then buf +:+ vsnprintf (ERR_BUF - String.length msg) (": " +:+ strerror error) else buf in
    eprint buf;; eprint newline_text.

Definition die {A} (error : Z) (msg : string) : X S A := err_doit true error msg;; exit_ 1.
End console.
