(* ===== verification/Trace.v ===== *)
(** src/src/libstatgrab/trace.h: the logging macros with their helpers for variable numbers of
    arguments, in the builds with log4cplus, with the console logger and without a logger; the
    macros of error.h in these builds; the page size that tools.h caches. *)

From S2P Require Import Prelude Types CLib Errors Tools Stdio Program.

(** * The arguments of a macro *)

(** A string literal, an integer, a [char *] that may be NULL, a word of the helpers. *)
Inductive carg := Lit (s : string) | IntArg (z : Z) | StrArg (s : option string) | Word (s : string).

#[export] Instance carg_eq : EqDecision carg.
Proof. solve_decision. Defined.

Definition FIRST (args : list carg) : option carg := head (args ++ [Word "throwaway"]).

Definition SELECT_10TH (args : list carg) : option carg := args !! 9%nat.

Definition NUM (args : list carg) : option carg :=
  SELECT_10TH (args ++ replicate 8 (Word "TWOORMORE") ++ [Word "ONE"; Word "throwaway"]).

(** The arguments behind the first; [None] when the name of the next helper does not exist or
    takes other arguments, and the program does not compile. *)
Definition REST (args : list carg) : option (list carg) :=
  match NUM args with
  | Some q =>
      if decide (q = Word "ONE") then match args with [_] => Some [] | _ => None end
      else if decide (q = Word "TWOORMORE") then match args with _ :: rest => Some rest | [] => None end
      else None
  | None => None
  end.

(** * What the macros expand to *)

Inductive build := WITH_LIBLOG4CPLUS | WITH_FULL_CONSOLE_LOGGER | WITHOUT_LOGGER.

#[export] Instance build_eq : EqDecision build.
Proof. solve_decision. Defined.

Inductive log_level := FATAL | ERROR | WARN | INFO | DEBUG | TRACE.

#[export] Instance log_level_eq : EqDecision log_level.
Proof. solve_decision. Defined.

(** A call of the logger (its name, the level, the format and the arguments), of [fprintf] on
    the standard error, or nothing; the level of LOGMSG is any number. *)
Inductive statement :=
  | Nothing
  | LoggerLog (logger : string) (level : log_level + Z) (format : string) (args : list carg)
  | Fprintf (format : string) (args : list carg).

Record expansion := mk_expansion { ex_call : statement; ex_exit : option Z }.

Definition place (file : string) (line : Z) : list carg := [StrArg (Some file); IntArg line].

(** The literal at the beginning of the arguments, and the others. *)
Definition format_and_rest (args : list carg) : option (string * list carg) :=
  match FIRST args, REST args with
  | Some (Lit f), Some rest => Some (f, rest)
  | _, _ => None
  end.

(** The macros of the build with log4cplus: those of a level ... *)
Definition LOG_log4cplus (level : log_level) (module_ msg : string) (rest : list carg) (file : string) (line : Z) : expansion :=
  mk_expansion (LoggerLog ("statgrab." +:+ module_) (inl level) (msg +:+ " (at %s:%d)") (rest ++ place file line))
    (if decide (level = FATAL) then Some 255 else None).

(** ... and LOGMSG, which adds no place. *)
Definition LOGMSG_log4cplus (ll : Z) (module_ msg : string) (rest : list carg) : expansion :=
  mk_expansion (LoggerLog ("statgrab." +:+ module_) (inr ll) msg rest) None.

(** The macros of the build with the console logger: the word of a level, PANIC_LOG, which
    ends no line, ... *)
Definition level_word (level : log_level) : string :=
  match level with
  | FATAL => "panic condition" | ERROR => "error" | WARN => "warning" | INFO => "info" | DEBUG => "debug" | TRACE => "trace"
  end.

Definition PANIC_console (module_ msg : string) (rest : list carg) (file : string) (line : Z) : expansion :=
  mk_expansion (Fprintf ("panic condition: " +:+ msg +:+ " in statgrab." +:+ module_ +:+ " at %s:%d") (rest ++ place file line))
    (Some 255).

Definition LOG_console (level : log_level) (module_ msg : string) (rest : list carg) (file : string) (line : Z) : expansion :=
  if decide (level = FATAL) then PANIC_console module_ msg rest file line
  else
    mk_expansion (Fprintf (level_word level +:+ ": " +:+ msg +:+ " in statgrab." +:+ module_ +:+ " at %s:%d" +:+ newline_text)
                    (rest ++ place file line)) None.

(** ... and LOGMSG. *)
Definition LOGMSG_console (ll : Z) (module_ msg : string) (rest : list carg) (file : string) (line : Z) : expansion :=
  mk_expansion (Fprintf ("log%d: " +:+ msg +:+ " in statgrab." +:+ module_ +:+ " at %s:%d" +:+ newline_text)
                  (IntArg ll :: rest ++ place file line)) None.

(** Without a logger only the panics are left. *)
Definition LOG_none (level : log_level) (module_ msg : string) (rest : list carg) (file : string) (line : Z) : expansion :=
  if decide (level = FATAL) then PANIC_console module_ msg rest file line else mk_expansion Nothing None.

(** The macros of a level: [ERROR_LOG_FMT(module, ...)] and so on; PANIC_LOG_FMT is that of
    FATAL. Without a logger the arguments are not looked at. *)
Definition LOG_FMT (b : build) (level : log_level) (module_ : string) (args : list carg) (file : string) (line : Z) : option expansion :=
  match b with
  | WITH_LIBLOG4CPLUS => fr ← format_and_rest args; Some (LOG_log4cplus level module_ fr.1 fr.2 file line)
  | WITH_FULL_CONSOLE_LOGGER => fr ← format_and_rest args; Some (LOG_console level module_ fr.1 fr.2 file line)
  | WITHOUT_LOGGER =>
      if decide (level = FATAL) then fr ← format_and_rest args; Some (LOG_none level module_ fr.1 fr.2 file line)
      else Some (mk_expansion Nothing None)
  end.

(** [ERROR_LOG(module, msg)] and so on. *)
Definition LOG (b : build) (level : log_level) (module_ msg : string) (file : string) (line : Z) : expansion :=
  match b with
  | WITH_LIBLOG4CPLUS => LOG_log4cplus level module_ msg [] file line
  | WITH_FULL_CONSOLE_LOGGER => LOG_console level module_ msg [] file line
  | WITHOUT_LOGGER => LOG_none level module_ msg [] file line
  end.

Definition LOGMSG_FMT (b : build) (ll : Z) (module_ : string) (args : list carg) (file : string) (line : Z) : option expansion :=
  match b with
  | WITH_LIBLOG4CPLUS => fr ← format_and_rest args; Some (LOGMSG_log4cplus ll module_ fr.1 fr.2)
  | WITH_FULL_CONSOLE_LOGGER => fr ← format_and_rest args; Some (LOGMSG_console ll module_ fr.1 fr.2 file line)
  | WITHOUT_LOGGER => Some (mk_expansion Nothing None)
  end.

(** * Their effect *)

(** The conversions the library's messages use: [%s], [%d], [%lu], [%zu] and [%%]; the text
    and the arguments that are left. [None] is what C does not define: too few arguments, one
    of another type, NULL for [%s]. *)
Fixpoint format_text (f : string) (args : list carg) : option (string * list carg) :=
  let put t r := (fun q : string * list carg => (t +:+ q.1, q.2)) <$> r in
  match f with
  | EmptyString => Some (EmptyString, args)
  | String c f1 =>
      if negb (Ascii.eqb c "%") then put (String c EmptyString) (format_text f1 args)
      else
        match f1 with
        | EmptyString => None
        | String d f2 =>
            if Ascii.eqb d "%" then put "%"%string (format_text f2 args)
            else if Ascii.eqb d "s" then
              match args with StrArg (Some t) :: args' => put t (format_text f2 args') | _ => None end
            else if Ascii.eqb d "d" then
              match args with IntArg z :: args' => put (print_signed (s32 z)) (format_text f2 args') | _ => None end
            else if Ascii.eqb d "l" || Ascii.eqb d "z" then
              match f2, args with
              | String "u" f3, IntArg z :: args' => put (print_unsigned (u64 z)) (format_text f3 args')
              | _, _ => None
              end
            else None
        end
  end.

(** The environment of the library, the standard error and the log. *)
Record tracing := mk_tracing { tr_env : env; tr_err : string; tr_log : list (string * (log_level + Z) * string) }.

Definition with_errno (n : Z) (s : tracing) : tracing := mk_tracing (set_errno n (tr_env s)) (tr_err s) (tr_log s).

(** A function of the C library or of log4cplus may change errno, also when it succeeds:
    [leaves] is the value errno has behind a call, anything that depends on the name of the
    function and the state. *)
Abbreviation externals := (string -> tracing -> Z).

Definition touch (leaves : externals) (name : string) : X tracing unit :=
  run (modify (fun s => with_errno (leaves name s) s)).

Definition emit (leaves : externals) (x : expansion) : X tracing unit :=
  match ex_call x with
  | Nothing => mret tt
  | Fprintf f args =>
      match format_text f args with
      | Some (t, _) => run (modify (fun s => mk_tracing (tr_env s) (tr_err s +:+ t) (tr_log s)));; touch leaves "fprintf"
      | None => run (stuck undefined_op)
      end
  | LoggerLog logger level f args =>
      match format_text f args with
      | Some (t, _) =>
          run (modify (fun s => mk_tracing (tr_env s) (tr_err s) (tr_log s ++ [(logger, level, t)])));;
          touch leaves "log4cplus_logger_log"
      | None => run (stuck undefined_op)
      end
  end;;
  match ex_exit x with Some status => exit_ status | None => mret tt end.

Definition in_library {A} (m : M env A) : X tracing A :=
  run (zoom tr_env (fun e s => mk_tracing e (tr_err s) (tr_log s)) m).

(** * error.h in every build *)

Section set_error.
Context (leaves : externals) (strerror_r : Z -> option string) (b : build) (file : string) (line : Z).

(** [char *] as an argument. *)
Definition str_arg (p : char_ptr) : carg := StrArg (match p with CStr t => Some t | _ => None end).

(** The statement all macros share: the message is built only where it is logged. [malloc]
    and [strerror_r] of [sg_strperror], the logger and [free] may leave any errno. *)
Definition log_error (comp : string) : X tracing unit :=
  match b with
  | WITHOUT_LOGGER => mret tt
  | _ =>
      p ← in_library (sg_strperror strerror_r (Some CNull) None);
      touch leaves "sg_strperror";;
      match LOG_FMT b ERROR comp [Lit "%s:%d: %s"; StrArg (Some file); IntArg line; str_arg p] file line with
      | Some x => emit leaves x
      | None => run (stuck undefined_op)
      end;;
      in_library (free_ptr p);; touch leaves "free"
  end.

Definition SET_ERROR_in (comp : string) (code : sg_error) (arg : option string) : X tracing unit :=
  in_library (sg_set_error_fmt code arg);; log_error comp.

Definition SET_ERROR_WITH_ERRNO_in (comp : string) (code : sg_error) (arg : option string) : X tracing unit :=
  in_library (sg_set_error_with_errno_fmt code arg);; log_error comp.

Definition SET_ERROR_WITH_ERRNO_CODE_in (comp : string) (code : sg_error) (errno_value : Z) (arg : option string) : X tracing unit :=
  in_library (sg_set_error_with_errno_code_fmt code errno_value arg);; log_error comp.

(** The code is evaluated behind the message. *)
Definition RETURN_FROM_PREVIOUS_ERROR_in (comp : string) (code : M env sg_error) : X tracing sg_error :=
  log_error comp;; in_library code.
End set_error.

(** * The page size *)

(** [cache] is the static variable, [sysconf] what the system answers; the result and the
    variable behind the call. *)
Definition sg_get_sys_page_size (sysconf : Z + Z) (cache : Z) : M env (Z * Z) :=
  if 0 =? cache then
    match sysconf with
    | inl size => mret (size, size)
    | inr err =>
        modify (set_errno err);;
        SET_ERROR_WITH_ERRNO SG_ERROR_SYSCONF (Some "_SC_PAGESIZE");;
        mret (-1, -1)
    end
  else mret (cache, cache).

(** [getpagesize] of Windows: the size is asked for once, 0 being no size. *)
Definition getpagesize (dwPageSize g_pagesize : Z) : Z * Z :=
  if g_pagesize =? 0 then (dwPageSize, dwPageSize) else (g_pagesize, g_pagesize).

(** * Facts *)

(** ** Expansions *)

(** With one to nine arguments the helpers give the first and the others. *)
Lemma rest_expands a args :
  (length args <= 8)%nat -> FIRST (a :: args) = Some a /\ REST (a :: args) = Some args.
Proof.
  intros H. split; [done|]. unfold REST, NUM, SELECT_10TH.
  do 9 (destruct args as [|? args]; [done|]). simpl in H. lia.
Qed.

(** With ten or more the tenth takes the place of the number, and there is no such helper. *)
Lemma rest_too_many args x :
  args !! 9%nat = Some x -> x <> Word "ONE" -> x <> Word "TWOORMORE" -> REST args = None.
Proof.
  intros E H1 H2. unfold REST, NUM, SELECT_10TH. rewrite lookup_app_l by (by eapply lookup_lt_Some). rewrite E.
  by rewrite !decide_False by done.
Qed.

(** ** Formats *)

Lemma fmap_put (t u : string) (r : option (string * list carg)) :
  (fun q : string * list carg => (t +:+ q.1, q.2)) <$> ((fun q : string * list carg => (u +:+ q.1, q.2)) <$> r)
    = (fun q : string * list carg => ((t +:+ u) +:+ q.1, q.2)) <$> r.
Proof. destruct r as [[v args]|]; [|done]. simpl. by rewrite string_app_assoc. Qed.

(** A format and its arguments, followed by others. *)
Lemma fmap_put_nil (r : option (string * list carg)) : (fun q : string * list carg => (EmptyString +:+ q.1, q.2)) <$> r = r.
Proof. by destruct r as [[]|]. Qed.

Lemma format_text_app g args' : forall n f args t rest, (String.length f <= n)%nat ->
  format_text f args = Some (t, rest) ->
  format_text (f +:+ g) (args ++ args') = (fun q : string * list carg => (t +:+ q.1, q.2)) <$> format_text g (rest ++ args').
Proof.
  induction n as [|n IH]; intros f args t rest Hn H.
  - destruct f; [|simpl in Hn; lia]. injection H as <- <-. symmetry. apply fmap_put_nil.
  - destruct f as [|c f1]; [injection H as <- <-; symmetry; apply fmap_put_nil|].
    change (String c f1 +:+ g) with (String c (f1 +:+ g)). cbn [format_text] in *.
    assert (forall f' args0 u, (String.length f' <= n)%nat ->
      (fun q : string * list carg => (u +:+ q.1, q.2)) <$> format_text f' args0 = Some (t, rest) ->
      (fun q : string * list carg => (u +:+ q.1, q.2)) <$> format_text (f' +:+ g) (args0 ++ args')
        = (fun q : string * list carg => (t +:+ q.1, q.2)) <$> format_text g (rest ++ args')) as G.
    { intros f' args0 u L E. destruct (format_text f' args0) as [[t' rest']|] eqn:E'; [|done].
      injection E as <- <-. rewrite (IH f' args0 t' rest' L E'). apply fmap_put. }
    simpl in Hn. destruct (negb _); [by apply G; [lia|]|].
    destruct f1 as [|d f2]; [done|]. change (String d f2 +:+ g) with (String d (f2 +:+ g)). cbv iota. simpl in Hn.
    destruct (Ascii.eqb d "%"); [by apply G; [lia|]|].
    destruct (Ascii.eqb d "s").
    { destruct args as [|[| |[u|]|] args]; try done. by apply G; [lia|]. }
    destruct (Ascii.eqb d "d"); [destruct args as [|[| | |] args]; try done; by apply G; [lia|]|].
    destruct (_ || _); [|done]. destruct f2 as [|[[] [] [] [] [] [] [] []] f3]; try done.
    destruct args as [|[| | |] args]; try done. simpl in Hn. by apply G; [lia|].
Qed.

Lemma format_text_exact f args t g args' r :
  format_text f args = Some (t, []) -> format_text g args' = Some r ->
  format_text (f +:+ g) (args ++ args') = Some (t +:+ r.1, r.2).
Proof. intros H1 H2. rewrite (format_text_app g args' _ f args t [] (le_n _) H1). simpl. by rewrite H2. Qed.

(** A text without conversions is printed as it is. *)
Definition not_percent (c : ascii) : bool := negb (Ascii.eqb c "%").

Lemma format_text_plain t args : all_chars not_percent t = true -> format_text t args = Some (t, args).
Proof.
  induction t as [|c t IH]; [done|]. intros [Hc Ht]%andb_true_iff. cbn [format_text]. unfold not_percent in Hc.
  rewrite Hc, IH by done. done.
Qed.

(** ** Messages *)

Definition place_text (file : string) (line : Z) : string := file +:+ ":" +:+ print_signed line.

(** What a message adds to the log or to the standard error. *)
Definition logged (b : build) (level : log_level) (module_ t file : string) (line : Z) (s : tracing) : tracing :=
  let at_console := mk_tracing (tr_env s) (tr_err s +:+ level_word level +:+ ": " +:+ t +:+ " in statgrab." +:+ module_ +:+ " at " +:+
                      place_text file line +:+ (if decide (level = FATAL) then EmptyString else newline_text)) (tr_log s) in
  match b with
  | WITH_LIBLOG4CPLUS =>
      mk_tracing (tr_env s) (tr_err s)
        (tr_log s ++ [("statgrab." +:+ module_, inl level, t +:+ " (at " +:+ place_text file line +:+ ")")])
  | WITH_FULL_CONSOLE_LOGGER => at_console
  | WITHOUT_LOGGER => if decide (level = FATAL) then at_console else s
  end.

Lemma format_text_pre pre g args : all_chars not_percent pre = true ->
  format_text (pre +:+ g) args = (fun q : string * list carg => (pre +:+ q.1, q.2)) <$> format_text g args.
Proof. intros H. exact (format_text_app g args _ pre [] pre [] (le_n _) (format_text_plain pre [] H)). Qed.

(** The end of every format. *)
Lemma place_format pre post file line :
  all_chars not_percent pre = true -> all_chars not_percent post = true -> s32 line = line ->
  format_text (pre +:+ ("%s:%d" +:+ post)) (place file line) = Some (pre +:+ (place_text file line +:+ post), []).
Proof.
  intros H1 H2 Hl. rewrite format_text_pre by done. rewrite <- (app_nil_r (place file line)).
  rewrite (format_text_exact "%s:%d" (place file line) (place_text file line) post [] (post, [])); [done| |by apply format_text_plain].
  simpl. by rewrite Hl, string_app_nil.
Qed.

Definition ended (status : option Z) : Z + unit := match status with Some z => inl z | None => inr tt end.

Lemma emit_fprintf leaves f args t rest status s : format_text f args = Some (t, rest) ->
  let s' := mk_tracing (tr_env s) (tr_err s +:+ t) (tr_log s) in
  emit leaves (mk_expansion (Fprintf f args) status) s = Done (ended status) (with_errno (leaves "fprintf" s') s').
Proof. intros E. unfold emit. cbn [ex_call ex_exit]. rewrite E. by destruct status. Qed.

Lemma emit_logger leaves logger level f args t rest status s : format_text f args = Some (t, rest) ->
  let s' := mk_tracing (tr_env s) (tr_err s) (tr_log s ++ [(logger, level, t)]) in
  emit leaves (mk_expansion (LoggerLog logger level f args) status) s
    = Done (ended status) (with_errno (leaves "log4cplus_logger_log" s') s').
Proof. intros E. unfold emit. cbn [ex_call ex_exit]. rewrite E. by destruct status. Qed.

(** External functions that leave errno alone. *)
Definition keeps_errno (leaves : externals) : Prop := forall name s, leaves name s = e_errno (tr_env s).

Lemma with_errno_same s : with_errno (e_errno (tr_env s)) s = s.
Proof. by destruct s as [[] ? ?]. Qed.

Section messages.
Context (leaves : externals) (file : string) (line : Z) (line_int : s32 line = line).

(** A message with at most eight arguments that fit its conversions compiles in every build;
    with log4cplus the logger of the module gets the text with the place, on the console the
    text appears as one line, without a logger nothing happens and nothing is evaluated; a
    panic is shown in every build and ends the program with the status 255. Nothing but
    errno is changed beside. *)
Theorem log_message b level module_ fmt args t s :
  (length args <= 8)%nat -> format_text fmt args = Some (t, []) -> all_chars not_percent module_ = true ->
  exists x, LOG_FMT b level module_ (Lit fmt :: args) file line = Some x /\
    exists n, emit leaves x s = Done (if decide (level = FATAL) then inl 255 else inr tt)
                              (with_errno n (logged b level module_ t file line s)) /\
      (keeps_errno leaves -> n = e_errno (tr_env s)).
Proof.
  intros Hlen Hf Hm. destruct (rest_expands (Lit fmt) args Hlen) as [E1 E2].
  assert (format_and_rest (Lit fmt :: args) = Some (fmt, args)) as Efr by (unfold format_and_rest; by rewrite E1, E2).
  assert (forall word post, all_chars not_percent word = true -> all_chars not_percent post = true ->
    format_text (word +:+ ": " +:+ fmt +:+ " in statgrab." +:+ module_ +:+ " at %s:%d" +:+ post) (args ++ place file line)
      = Some (word +:+ ": " +:+ t +:+ " in statgrab." +:+ module_ +:+ " at " +:+ place_text file line +:+ post, [])) as Hc.
  { intros word post Hw Hp. rewrite format_text_pre by done.
    change (": " +:+ ?x) with (": " +:+ x). rewrite (format_text_pre ": ") by done.
    rewrite (format_text_exact fmt args t _ (place file line) (" in statgrab." +:+ (module_ +:+ (" at " +:+ (place_text file line +:+ post))), [])); [done|done|].
    rewrite (format_text_pre " in statgrab."), (format_text_pre module_) by done.
    change (" at %s:%d" +:+ post) with (" at " +:+ ("%s:%d" +:+ post)). by rewrite place_format. }
  assert (forall s, exists n, emit leaves (PANIC_console module_ fmt args file line) s
    = Done (inl 255) (with_errno n (logged WITH_FULL_CONSOLE_LOGGER FATAL module_ t file line s)) /\
      (keeps_errno leaves -> n = e_errno (tr_env s))) as Hp.
  { intros s'. eexists. unfold PANIC_console. erewrite emit_fprintf; [|exact (Hc "panic condition" EmptyString eq_refl eq_refl)].
    split; [done|]. intros ->. done. }
  unfold LOG_FMT, LOG_none. destruct b; rewrite ?Efr.
  - eexists. split; [done|]. eexists. unfold LOG_log4cplus. erewrite emit_logger; cycle 1.
    { change (" (at %s:%d)") with (" (at " +:+ ("%s:%d" +:+ ")")). apply (format_text_exact fmt args t _ (place file line)
        (" (at " +:+ (place_text file line +:+ ")"), [])); [done|]. by apply place_format. }
    split; [by case_decide|]. intros ->. done.
  - eexists. split; [done|]. unfold LOG_console. cbn [fst snd]. destruct (decide (level = FATAL)) as [->|N]; [apply Hp|].
    eexists. erewrite emit_fprintf; [|apply (Hc (level_word level) newline_text); by destruct level]. cbn.
    rewrite decide_False by done. split; [done|]. intros ->. done.
  - destruct (decide (level = FATAL)) as [->|N]; (eexists; split; [done|]); [apply Hp|]. exists (e_errno (tr_env s)). cbn.
    rewrite decide_False by done. by rewrite with_errno_same.
Qed.
End messages.

(** ** Errors that are logged *)

(** The text of the recorded error: the message of the code and, in parentheses, the
    argument, behind the message of the system when there is an errno value; at most 1023
    characters of it. *)
Definition error_text_of (strerror_r : Z -> option string) (g : sg_error_glob) : string :=
  String.substring 0 1023
    (if decide (eg_errno_value g = 0) then sg_str_error (eg_error g) +:+ " (" +:+ eg_error_arg g +:+ ")"
     else sg_str_error (eg_error g) +:+ " (" +:+ default EmptyString (strerror_r (eg_errno_value g)) +:+ ": " +:+
          eg_error_arg g +:+ ")").

Lemma alloc_request_ok e : (AFail ∉ e_allocs e) ->
  exists c al, c <> AFail /\ alloc_request e = Done c (mk_env al (e_errno e) (e_tls e) (e_pre e)).
Proof.
  intros Ha. destruct e as [[|[] al] er tls pre]; cbn in *; [by exists AMove, []|set_solver|eexists _, al; split; [|reflexivity]; done..].
Qed.

Lemma strperror_of_record strerror_r e :
  (AFail ∉ e_allocs e) -> eg_errno_value (sg_get_error_glob e) = 0 \/ strerror_r (eg_errno_value (sg_get_error_glob e)) <> None ->
  exists al, sg_strperror strerror_r (Some CNull) None e
    = Done (CStr (error_text_of strerror_r (sg_get_error_glob e))) (mk_env al (e_errno e) (e_tls e) (e_pre e)).
Proof.
  intros Ha Hn. destruct (alloc_request_ok e Ha) as (c & al & Hc & E). exists al.
  unfold sg_strperror, sg_get_error_details, error_text_of. unfold mbind, M_bind, gets, mret, M_ret.
  cbn [default from_option id snd ed_error ed_errno_value ed_error_arg]. rewrite E.
  destruct (Z.eqb_spec (eg_errno_value (sg_get_error_glob e)) 0) as [E0|E0].
  { rewrite decide_True by done. by destruct c. }
  rewrite decide_False by done. destruct (strerror_r _); [by destruct c|by destruct Hn].
Qed.

Section logged_errors.
Context (leaves : externals) (strerror_r : Z -> option string) (file : string) (line : Z) (line_int : s32 line = line).

(** The error as it is recorded. *)
Definition record_of (code : sg_error) (errno_value : Z) (arg : option string) : sg_error_glob :=
  mk_error_glob code errno_value (match arg with Some a => vsnprintf ERROR_ARG_MAX a | None => "" end).

Lemma get_error_glob_errno n e : sg_get_error_glob (set_errno n e) = sg_get_error_glob e.
Proof. by destruct e. Qed.

(** C30: logging leaves the errors alone: while memory lasts and the system knows the value of
    errno, SET_ERROR_WITH_ERRNO_CODE records the same error in every build and leaves the
    static record as it is; and it logs the message of [sg_strperror] once, with the place of
    the error. The external functions of the logging may change errno in any way; when they
    do not, errno is kept too. *)
Theorem logging_keeps_errors b comp code errno_value arg s :
  (AFail ∉ e_allocs (tr_env s)) -> errno_value = 0 \/ strerror_r errno_value <> None ->
  all_chars not_percent comp = true ->
  let g := record_of code errno_value arg in
  let s0 := mk_tracing (put_error_glob g (tr_env s)) (tr_err s) (tr_log s) in
  SET_ERROR_WITH_ERRNO_CODE_in leaves strerror_r WITHOUT_LOGGER file line comp code errno_value arg s = Done (inr tt) s0 /\
  exists e', SET_ERROR_WITH_ERRNO_CODE_in leaves strerror_r b file line comp code errno_value arg s
      = Done (inr tt) (logged b ERROR comp (place_text file line +:+ ": " +:+ error_text_of strerror_r g) file line
          (mk_tracing e' (tr_err s) (tr_log s))) /\
    sg_get_error_glob e' = g /\ (is_Some (e_tls (tr_env s)) -> e_pre e' = e_pre (tr_env s)) /\
    (keeps_errno leaves -> e_errno e' = e_errno (tr_env s)).
Proof.
  intros Ha Hn Hc g s0. split; [done|]. set (e1 := put_error_glob g (tr_env s)).
  assert (sg_get_error_glob e1 = g) as Eg by apply get_put_error_glob.
  assert (e_errno e1 = e_errno (tr_env s) /\ e_allocs e1 = e_allocs (tr_env s) /\
          (is_Some (e_tls (tr_env s)) -> e_pre e1 = e_pre (tr_env s))) as (En & Eal & Ep).
  { unfold e1, put_error_glob. destruct (e_tls (tr_env s)); split_and!; done. }
  destruct (decide (b = WITHOUT_LOGGER)) as [->|Nb]; [by exists e1|].
  destruct (strperror_of_record strerror_r e1) as (al & Es); [by rewrite Eal|by rewrite Eg|].
  set (e2 := mk_env al (e_errno e1) (e_tls e1) (e_pre e1)) in *.
  rewrite Eg in Es. set (t := error_text_of strerror_r g) in *.
  set (s2 := mk_tracing e2 (tr_err s) (tr_log s)). set (n2 := leaves "sg_strperror" s2).
  destruct (log_message leaves file line line_int b ERROR comp "%s:%d: %s" [StrArg (Some file); IntArg line; StrArg (Some t)]
    (place_text file line +:+ ": " +:+ t) (with_errno n2 s2)) as (x & Ex & n3 & Em & Hk3); [simpl; lia| |done|].
  { simpl. unfold place_text. by rewrite line_int, string_app_nil, !string_app_assoc. }
  set (s3 := with_errno n3 _) in Em.
  exists (set_errno (leaves "free" s3) e2). split_and!.
  - unfold SET_ERROR_WITH_ERRNO_CODE_in.
    rewrite (X_bind_done _ _ s code (mk_tracing e1 (tr_err s) (tr_log s))) by reflexivity. unfold log_error.
    destruct b; [| |done].
    all: erewrite X_bind_done; [|unfold in_library, run, zoom; cbn [tr_env]; rewrite Es; reflexivity].
    all: erewrite X_bind_done; [|reflexivity].
    all: change (str_arg (CStr t)) with (StrArg (Some t)); rewrite Ex; erewrite X_bind_done; [|exact Em].
    all: done.
  - by rewrite get_error_glob_errno.
  - done.
  - intros Hk. cbn. rewrite Hk. subst s3. rewrite (Hk3 Hk). unfold n2. rewrite Hk. destruct b; try done.
Qed.

(** Where the message cannot be built the logging builds hand NULL to [%s]: out of memory, SET_ERROR
    itself is undefined there. *)
Lemma logging_out_of_memory b comp code arg s :
  b <> WITHOUT_LOGGER -> head (e_allocs (tr_env s)) = Some AFail ->
  SET_ERROR_in leaves strerror_r b file line comp code arg s = Stuck undefined_op.
Proof.
  intros Nb Ha. unfold SET_ERROR_in. erewrite X_bind_done by reflexivity. unfold log_error.
  destruct s as [[[|[] al] er [g|] pre] err lg]; cbn in Ha; try done; by destruct b.
Qed.
End logged_errors.

(** ** The page size *)

(** Calls one after the other, each with what the system would answer; the results. *)
Fixpoint page_sizes (answers : list (Z + Z)) (cache : Z) : M env (list Z) :=
  match answers with
  | [] => mret []
  | a :: answers' => r ← sg_get_sys_page_size a cache; rs ← page_sizes answers' r.2; mret (r.1 :: rs)
  end.

Lemma page_sizes_cached answers z e : z <> 0 -> page_sizes answers z e = Done (replicate (length answers) z) e.
Proof.
  intros Hz. induction answers as [|a answers IH]; [done|]. cbn [page_sizes length replicate].
  unfold sg_get_sys_page_size. destruct (Z.eqb_spec 0 z); [lia|]. unfold mbind, M_bind, mret, M_ret in *. cbn. by rewrite IH.
Qed.

(** The system is asked once: all calls return its first answer; also a failure is kept, and only
    the call that fails records an error. *)
Theorem page_size_asked_once a answers e :
  a <> inl 0 ->
  page_sizes (a :: answers) 0 e =
    match a with
    | inl size => Done (replicate (S (length answers)) size) e
    | inr err =>
        Done (replicate (S (length answers)) (-1))
          (put_error_glob (mk_error_glob SG_ERROR_SYSCONF err "_SC_PAGESIZE") (set_errno err e))
    end.
Proof.
  intros Ha. cbn [page_sizes]. unfold sg_get_sys_page_size at 1. cbn [Z.eqb]. destruct a as [size|err].
  - unfold mbind, M_bind, mret, M_ret. cbn. by rewrite page_sizes_cached by congruence.
  - unfold SET_ERROR_WITH_ERRNO, sg_set_error_with_errno_fmt, sg_set_error_int, mbind, M_bind, mret, M_ret, modify, gets.
    cbn -[page_sizes put_error_glob]. by rewrite page_sizes_cached by done.
Qed.

(** ** A run *)

Definition demo_tracing : tracing := mk_tracing (mk_env [] 2 None error_glob_zero) EmptyString [].

(** A logger that sets errno, as one does that finds out that it does not write to a terminal. *)
Definition demo_leaves : externals := fun name s => if String.eqb name "free" then e_errno (tr_env s) else 25.

Lemma log_message_witness :
  exists x, LOG_FMT WITH_FULL_CONSOLE_LOGGER WARN "disk" [Lit "%s has %lu entries"; StrArg (Some "vector"); IntArg 7] "disk_stats.c" 12 = Some x /\
    exists n, emit demo_leaves x demo_tracing = Done (inr tt)
        (with_errno n (logged WITH_FULL_CONSOLE_LOGGER WARN "disk" "vector has 7 entries" "disk_stats.c" 12 demo_tracing)) /\
      (keeps_errno demo_leaves -> n = 2).
Proof.
  apply (log_message demo_leaves "disk_stats.c" 12 eq_refl WITH_FULL_CONSOLE_LOGGER WARN "disk" "%s has %lu entries"
    [StrArg (Some "vector"); IntArg 7]); [simpl; lia|reflexivity|reflexivity].
Defined.

(** The error is recorded and logged although errno is another one afterwards. *)
Lemma logging_keeps_errors_witness :
  exists e', SET_ERROR_WITH_ERRNO_CODE_in demo_leaves (fun _ => Some "No such file") WITH_LIBLOG4CPLUS "cpu_stats.c" 206 "cpu" SG_ERROR_OPEN 2
      (Some "/proc/stat") demo_tracing
    = Done (inr tt) (mk_tracing e' EmptyString
        [("statgrab.cpu", inl ERROR, "cpu_stats.c:206: failed to open file (No such file: /proc/stat) (at cpu_stats.c:206)")]) /\
    sg_get_error_glob e' = mk_error_glob SG_ERROR_OPEN 2 "/proc/stat".
Proof.
  destruct (logging_keeps_errors demo_leaves (fun _ => Some "No such file") "cpu_stats.c" 206 eq_refl WITH_LIBLOG4CPLUS "cpu" SG_ERROR_OPEN 2
    (Some "/proc/stat") demo_tracing) as (_ & e' & E & Eg & _); [set_solver|by right|reflexivity|].
  exists e'. split; [exact E|exact Eg].
Defined.
