(* ===== verification/Demo.v ===== *)
(** Concrete memory, machine and vectors on which the theorems of the development
    are run: a Linux machine with a few kernel files and vectors of disk counters. *)

From S2P Require Import Prelude Types CLib Errors Tools Vector VectorSpec VectorDiff Items Comp Stdio Fill Disk.

(** Fresh memory that is all wild pointers and odd values. *)
#[export] Instance demo_memory : Memory := {
  junk := "x"%char;
  raw_fs := mk_fs_stats CWild CWild CWild CWild 7 7 7 7 7 7 7 7 7 7 7 7 7 7 7 7;
  raw_disk_io := mk_disk_io_stats CWild 7 7 7;
  raw_network_io := mk_network_io_stats CWild 7 7 7 7 7 7 7 7;
  raw_network_iface := mk_network_iface_stats CWild 7 7 SG_IFACE_DUPLEX_FULL SG_IFACE_UP 7;
  raw_user := mk_user_stats CWild CWild 7 CWild CWild 7 7 7;
  raw_process := mk_process_stats CWild CWild 7 7 7 7 7 7 7 7 7 7 7 7 7 7 7 S754_nan 7
                   SG_PROCESS_STATE_UNKNOWN 7;
  raw_host := mk_host_info CWild CWild CWild CWild CWild 7 sg_physical_host 7 7 7 7;
  raw_load := mk_load_stats S754_nan S754_nan S754_nan 7;
  raw_mem := mk_mem_stats 7 7 7 7 7;
  raw_swap := mk_swap_stats 7 7 7 7;
  raw_page := mk_page_stats 7 7 7;
  raw_cpu := mk_cpu_stats 7 7 7 7 7 7 7 7 7 7 7 7 7 7;
  raw_cpu_percents := mk_cpu_percents S754_nan S754_nan S754_nan S754_nan S754_nan S754_nan 7;
  raw_process_count := mk_process_count 7 7 7 7 7 7 7 }.

Definition demo_line (s : string) : string := s +:+ String newline EmptyString.

Definition demo_diskstats : string :=
  demo_line "   8       0 sda 120 4 4096 80 60 7 2048 90 0 70 170" +:+
  demo_line "   8      16 sdb 10 0 100 5 0 0 0 0 0 5 5".

#[export] Instance demo_system : System := {
  sys_file p := if String.eqb p "/proc/diskstats" then Some demo_diskstats else None;
  sys_open_errno _ := 2;
  sys_time := 1000;
  sys_page_size := 4096 }.

Definition demo_env : env := mk_env [] 0 (Some error_glob_zero) error_glob_zero.

Definition demo_disk (name : string) (r w t : Z) : item :=
  IDiskIo (mk_disk_io_stats (CStr name) r w t).

(** A vector with block size 2 that holds the given items. *)
Definition demo_vec (k : kind) (items : list item) (slots : nat) : sg_vector :=
  mk_vector SG_VECTOR_START_EYE (Z.of_nat (length items)) (Z.of_nat slots) 1
    (VECTOR_INIT_INFO k) SG_VECTOR_FINAL_EYE
    (items ++ replicate (slots - length items) IRaw).

Definition demo_now : sg_vector :=
  demo_vec Kdisk_io [demo_disk "sdb" 40960 0 900; demo_disk "sda" 2000000 1000000 900] 2.
Definition demo_last : sg_vector :=
  demo_vec Kdisk_io [demo_disk "sda" 1500000 900000 800; demo_disk "sdc" 1 1 800] 2.
Definition demo_one : sg_vector := demo_vec Kdisk_io [demo_disk "sdz" 1 2 3] 2.
Definition demo_empty : sg_vector := demo_vec Kdisk_io [] 2.

Definition demo_world : world :=
  mk_world (<[1%positive := demo_now]> (<[2%positive := demo_last]>
             (<[3%positive := demo_one]> (<[4%positive := demo_empty]> ∅)))) 5 demo_env.

(** * Facts *)

Lemma demo_vec_wf k items n :
  (length items <= n)%nat -> (2 <= n)%nat ->
  Forall (slot_ok (VECTOR_INIT_INFO k)) items -> wf_vec (demo_vec k items n).
Proof.
  intros Hl Hn Hs. constructor; cbn [demo_vec start_eye final_eye info block_shift used_count
    alloc_count data]; try done; try apply vector_info_wf; rewrite ?length_app, ?length_replicate;
    try lia.
  by rewrite Nat2Z.id, take_app_length.
Qed.

Lemma demo_now_wf : wf_vec demo_now.
Proof. apply demo_vec_wf; cbn; [lia | lia | by repeat constructor]. Qed.
Lemma demo_last_wf : wf_vec demo_last.
Proof. apply demo_vec_wf; cbn; [lia | lia | by repeat constructor]. Qed.
Lemma demo_one_wf : wf_vec demo_one.
Proof. apply demo_vec_wf; cbn; [lia | lia | by repeat constructor]. Qed.
Lemma demo_empty_wf : wf_vec demo_empty.
Proof. apply demo_vec_wf; cbn; [lia | lia | by repeat constructor]. Qed.

Lemma demo_heap : wf_heap demo_world.
Proof. intros l Hl. cbn in *. rewrite !lookup_insert_ne by lia. done. Qed.

#[export] Hint Resolve demo_now_wf demo_last_wf demo_one_wf demo_empty_wf demo_heap : sg.
