(* ===== verification/Ownership.v ===== *)
(** The strings of the items as blocks of memory. Elsewhere a [char *] field is the text of its block (Types.v, [char_ptr]),
    which is faithful as long as no two fields share a block. Here fields are pointers into a store of blocks, so that
    sharing, leaks and double frees can be expressed: the copy functions of disk_stats.c and network_stats.c and the
    copy loop of vector.c are shown to keep every string owned by one field, to leak and to release nothing else, and
    to do on pointers what the definitions of Items.v do on values. *)

From S2P Require Import Prelude Types CLib Errors Tools Vector VectorSpec VectorDiff Items Demo.

Local Open Scope sg_scope.

(** * Blocks *)

(** The live blocks with their texts; blocks from [st_next] on have never been handed out. *)
Record strings := mk_strings { st_blocks : gmap positive string; st_next : positive; st_env : env }.

Definition in_senv {A} (m : M env A) : M strings A := zoom st_env (fun e s => mk_strings (st_blocks s) (st_next s) e) m.

Definition set_blocks (f : gmap positive string -> gmap positive string) (s : strings) : strings :=
  mk_strings (f (st_blocks s)) (st_next s) (st_env s).

(** A [char *]: NULL, or the block it points to. *)
Definition block : Type := option positive.

Definition str_read (p : block) : M strings string :=
  match p with
  | None => stuck null_deref
  | Some b => s ← gets id; match st_blocks s !! b with Some t => mret t | None => stuck use_after_free end
  end.

Definition str_free (p : block) : M strings unit :=
  match p with
  | None => mret tt
  | Some b => s ← gets id; match st_blocks s !! b with Some _ => modify (set_blocks (delete b)) | None => stuck double_free end
  end.

(** [sg_realloc] for a text and its terminator ([size] is not 0): NULL when the request fails (the block stays then), the same block, or another one with the
    old one released. What the block holds before it is written is of no interest. *)
Definition str_realloc (p : block) (size : nat) : M strings block :=
  s ← gets id;
  match p with Some b => match st_blocks s !! b with Some _ => mret tt | None => stuck double_free end | None => mret tt end;;
  a ← in_senv alloc_request;
  match a, p with
  | AFail, _ =>
      in_senv (SET_ERROR_WITH_ERRNO SG_ERROR_MALLOC (Some ("sg_realloc: couldn't realloc(to " +:+ pretty size +:+ " bytes)")));;
      mret None
  | AStay, Some b => mret (Some b)
  | _, _ =>
      str_free p;;
      modify (fun s => mk_strings (<[st_next s := EmptyString]> (st_blocks s)) (Pos.succ (st_next s)) (st_env s));;
      mret (Some (st_next s))
  end.

(** [sg_update_string(&dest, src)]: the new length is that of the source before the request, its text is copied
    after it. *)
Definition str_update (dest src : block) : M strings (sg_error * block) :=
  match src with
  | None => str_free dest;; mret (SG_ERROR_NONE, None)
  | Some _ =>
      t ← str_read src;
      new ← str_realloc dest (S (String.length t));
      match new with
      | None => rc ← in_senv sg_get_error; mret (rc, dest)
      | Some b => t ← str_read src; modify (set_blocks (insert b t));; mret (SG_ERROR_NONE, Some b)
      end
  end.

(** * Items *)

(** An item: the pointers of its text fields, in the order the copy function takes them, and the other fields. *)
Record string_item := mk_string_item { it_names : list block; it_rest : item }.

(** The updates of a copy function, which ends at the first one that fails; the result says whether none did. *)
Fixpoint copy_names (ss ds : list block) : M strings (bool * list block) :=
  match ss, ds with
  | p :: ss', q :: ds' =>
      r ← str_update q p;
      if decide (SG_ERROR_NONE <> r.1) then mret (false, r.2 :: ds')
      else r' ← copy_names ss' ds'; mret (r'.1, r.2 :: r'.2)
  | _, _ => mret (true, ds)
  end.

(** A copy function: the texts first, then the other fields. *)
Definition string_item_copy (s d : string_item) : M strings (sg_error * string_item) :=
  r ← copy_names (it_names s) (it_names d);
  if (r.1 : bool) then mret (SG_ERROR_NONE, mk_string_item r.2 (it_rest s))
  else rc ← in_senv sg_get_error; mret (rc, mk_string_item r.2 (it_rest d)).

Fixpoint free_names_of (l : list block) : M strings unit :=
  match l with [] => mret tt | p :: l' => str_free p;; free_names_of l' end.

(** The last item first. *)
Fixpoint destroy_string_items (ds : list string_item) : M strings unit :=
  match ds with [] => mret tt | d :: ds' => destroy_string_items ds';; free_names_of (it_names d) end.

(** The loop of sg_vector_clone_into_int: the items of the source to those of the destination. *)
Fixpoint copy_string_items (ss ds : list string_item) : M strings (sg_error * list string_item) :=
  match ss, ds with
  | s :: ss', d :: ds' =>
      r ← string_item_copy s d;
      if decide (r.1 = SG_ERROR_NONE) then r' ← copy_string_items ss' ds'; mret (r'.1, r.2 :: r'.2)
      else mret (r.1, r.2 :: ds')
  | _, _ => mret (SG_ERROR_NONE, ds)
  end.

(** The loop and what it does when a copy fails: the destination is released. *)
Definition clone_string_items (ss ds : list string_item) : M strings (sg_error * option (list string_item)) :=
  r ← copy_string_items ss ds;
  if decide (r.1 = SG_ERROR_NONE) then mret (r.1, Some r.2) else destroy_string_items r.2;; mret (r.1, None).

(** * Values *)

(** The value of a pointer, and of an item, in the sense of Types.v. *)
Definition value_at (st : strings) (p : block) : char_ptr :=
  match p with
  | None => CNull
  | Some b => match st_blocks st !! b with Some t => CStr t | None => CDangling end
  end.

Definition with_names (names : list char_ptr) (it : item) : item :=
  match it, names with
  | IFs d, [n; c; t; m] => IFs (fs_set_names n c t m d)
  | IDiskIo d, [n] => IDiskIo (dio_set_name n d)
  | INetIo d, [n] => INetIo (nio_set_name n d)
  | _, _ => it
  end.

Definition value_of (st : strings) (i : string_item) : item := with_names (value_at st <$> it_names i) (it_rest i).

(** The text fields the kind of item has. *)
Definition shaped (k : kind) (i : string_item) : Prop :=
  match k, it_rest i with
  | Kfs, IFs _ => length (it_names i) = 4%nat
  | Kdisk_io, IDiskIo _ | Knetwork_io, INetIo _ => length (it_names i) = 1%nat
  | _, _ => False
  end.

(** * Ownership *)

Definition wf_strings (st : strings) : Prop :=
  map_Forall (fun b t => (b < st_next st)%positive /\ no_nul t = true) (st_blocks st).

Definition live (st : strings) (p : block) : Prop := match p with None => True | Some b => is_Some (st_blocks st !! b) end.

Definition blocks (l : list block) : list positive := omap id l.
Definition item_blocks (l : list string_item) : list positive := blocks (mjoin (it_names <$> l)).

(** The owner of the blocks [bs] has changed some of them for new ones and has [bs'] now: those it has given up are
    released, and all other blocks are as before. *)
Record reowned (st : strings) (bs : list positive) (st' : strings) (bs' : list positive) : Prop := {
  re_wf : wf_strings st';
  re_distinct : NoDup bs';
  re_new : forall b, b ∈ bs' -> b ∈ bs \/ st_blocks st !! b = None;
  re_live : forall b, b ∈ bs' -> is_Some (st_blocks st' !! b);
  re_others : forall b, b ∉ bs -> b ∉ bs' -> st_blocks st' !! b = st_blocks st !! b;
  re_given_up : forall b, b ∈ bs -> b ∉ bs' -> st_blocks st' !! b = None;
  re_calm : calmer (st_env st) (st_env st') }.

Section own.
Context {mem : Memory}.

(** ** One string *)

(** [sg_update_string] on values, spelled out. *)
Lemma update_field_text d t e : ptr_ok d = true -> no_nul t = true ->
  update_field d (CStr t) e =
  (a ← alloc_request;
   match a with
   | AFail =>
       SET_ERROR_WITH_ERRNO SG_ERROR_MALLOC
         (Some ("sg_realloc: couldn't realloc(to " +:+ pretty (S (String.length t)) +:+ " bytes)"));;
       rc ← sg_get_error; mret (rc, d)
   | _ => mret (SG_ERROR_NONE, CStr t)
   end) e.
Proof.
  intros Hd Ht. unfold update_field. cbn [field_arg read_ptr]. unfold mbind, M_bind at 1 2, mret, M_ret at 1 2.
  cbn [sg_update_string]. rewrite strlen_c_str by done. cbv zeta. unfold sg_realloc.
  destruct d as [|s| |]; try done; unfold mbind, M_bind, mret, M_ret; (rewrite decide_False by done);
    (destruct (alloc_request e) as [a e1|]; [|done]); destruct a; try done;
    (match goal with |- context [resize_block junk ?old ?n] =>
       pose proof (strlcpy_fits t (resize_block junk old n) [] Ht) as F; rewrite app_nil_r, length_resize_block in F; specialize (F ltac:(lia));
       destruct (strlcpy (resize_block junk old n) (c_str t) n) as [[b' m]|]; [|done] end);
    cbn in F; injection F as F; unfold own_block; by rewrite F.
Qed.

Lemma alloc_cases e :
  exists a e', alloc_request e = Done a e' /\ calmer e e' /\ (a = AFail -> AFail ∈ e_allocs e).
Proof.
  unfold alloc_request, calmer. destruct (e_allocs e) as [|[] r] eqn:E; eexists _, _; split_and!; try reflexivity; cbn; try rewrite E; set_solver.
Qed.

Lemma live_value st p : wf_strings st -> live st p -> ptr_ok (value_at st p) = true.
Proof. intros Hw. destruct p as [b|]; [|done]. intros [t Ht]. cbn. rewrite Ht. by apply (Hw b t). Qed.

Lemma wf_insert st b t : wf_strings st -> (b < st_next st)%positive -> no_nul t = true -> wf_strings (set_blocks (insert b t) st).
Proof. intros Hw Hb Ht. by apply map_Forall_insert_2. Qed.

Lemma wf_fresh st t : wf_strings st -> no_nul t = true ->
  wf_strings (mk_strings (<[st_next st := t]> (st_blocks st)) (Pos.succ (st_next st)) (st_env st)).
Proof.
  intros Hw Ht. apply map_Forall_insert_2; [cbn; split; [lia|done]|]. eapply map_Forall_impl; [exact Hw|]. cbn. intros b u [? ?]. split; [lia|done].
Qed.

Lemma fresh_none st : wf_strings st -> st_blocks st !! st_next st = None.
Proof. intros Hw. destruct (st_blocks st !! st_next st) eqn:E; [|done]. apply Hw in E as [? _]. lia. Qed.

(** What has become of the pointer after an update, and of everything else. *)
Record str_updated (dest src : block) (st : strings) (rc : sg_error) (p : block) (st' : strings) : Prop := {
  su_value : update_field (value_at st dest) (value_at st src) (st_env st) = Done (rc, value_at st' p) (st_env st');
  su_owned : reowned st (blocks [dest]) st' (blocks [p]);
  su_copied : rc = SG_ERROR_NONE -> value_at st' p = value_at st src;
  su_failed : rc <> SG_ERROR_NONE -> AFail ∈ e_allocs (st_env st) /\ eg_error (sg_get_error_glob (st_env st')) = rc }.

Lemma str_update_null dest st : wf_strings st -> live st dest ->
  exists st', str_update dest None st = Done (SG_ERROR_NONE, None) st' /\ str_updated dest None st SG_ERROR_NONE None st'.
Proof.
  intros Hw Hd. destruct dest as [b|].
  - destruct Hd as [t Ht]. exists (set_blocks (delete b) st). unfold str_update, str_free, mbind, M_bind, gets. cbn. rewrite Ht. split; [done|]. split.
    + cbn. by rewrite Ht.
    + split; cbn [blocks omap list_omap id set_blocks st_blocks st_env].
      * by apply map_Forall_delete.
      * constructor.
      * set_solver.
      * set_solver.
      * intros c Hc _. apply lookup_delete_ne. set_solver.
      * intros c Hc _. apply list_elem_of_singleton in Hc as ->. apply lookup_delete_eq.
      * done.
    + done.
    + done.
  - exists st. split; [done|]. split; try done. split; try done; cbn; try set_solver; constructor.
Qed.

Definition without (p : block) (m : gmap positive string) : gmap positive string :=
  match p with Some b => delete b m | None => m end.

Lemma set_error_done code arg e : exists e', SET_ERROR_WITH_ERRNO code arg e = Done tt e' /\
  e_allocs e' = e_allocs e /\ eg_error (sg_get_error_glob e') = code.
Proof.
  unfold SET_ERROR_WITH_ERRNO, sg_set_error_with_errno_fmt, sg_set_error_int, put_error_glob, sg_get_error_glob.
  destruct e as [al er [tls|] pre]; cbn; eexists; by split_and!.
Qed.

(** The three outcomes of [sg_realloc]. *)
Lemma str_realloc_eq dest size st a e : live st dest -> alloc_request (st_env st) = Done a e ->
  str_realloc dest size st =
  match a, dest with
  | AFail, _ =>
      match SET_ERROR_WITH_ERRNO SG_ERROR_MALLOC (Some ("sg_realloc: couldn't realloc(to " +:+ pretty size +:+ " bytes)")) e with
      | Done _ e' => Done None (mk_strings (st_blocks st) (st_next st) e')
      | Stuck f => Stuck f
      end
  | AStay, Some b => Done (Some b) (mk_strings (st_blocks st) (st_next st) e)
  | _, _ => Done (Some (st_next st)) (mk_strings (<[st_next st := EmptyString]> (without dest (st_blocks st))) (Pos.succ (st_next st)) e)
  end.
Proof.
  intros Hd Ea. unfold str_realloc, in_senv, zoom, str_free, modify, gets, mbind, M_bind, mret, M_ret. cbn [id].
  destruct dest as [d|]; [destruct Hd as [u Hu]; rewrite Hu|]; rewrite Ea; destruct a; try done; cbn [st_blocks]; try by rewrite Hu.
  all: by destruct (SET_ERROR_WITH_ERRNO _ _ _).
Qed.

(** The text is copied into the block that was handed out. *)
Lemma str_update_moved dest b t st e : wf_strings st -> live st dest -> st_blocks st !! b = Some t -> dest <> Some b ->
  str_realloc dest (S (String.length t)) st
    = Done (Some (st_next st)) (mk_strings (<[st_next st := EmptyString]> (without dest (st_blocks st))) (Pos.succ (st_next st)) e) ->
  calmer (st_env st) e ->
  exists st', str_update dest (Some b) st = Done (SG_ERROR_NONE, Some (st_next st)) st' /\ st_env st' = e /\
    value_at st' (Some (st_next st)) = CStr t /\ reowned st (blocks [dest]) st' [st_next st].
Proof.
  intros Hw Hd Hb Hne Er He. destruct (Hw b t Hb) as [Hlt Ht]. pose proof (fresh_none st Hw) as Hfr.
  exists (mk_strings (<[st_next st := t]> (without dest (st_blocks st))) (Pos.succ (st_next st)) e).
  assert (wf_strings (mk_strings (without dest (st_blocks st)) (st_next st) (st_env st))) as Hw'.
  { destruct dest as [d|]; [by apply map_Forall_delete|done]. }
  assert (without dest (st_blocks st) !! b = Some t) as Hb'.
  { destruct dest as [d|]; [|done]. cbn. rewrite lookup_delete_ne; [done|congruence]. }
  split.
  - unfold str_update, str_read, gets, modify, mbind, M_bind, mret, M_ret. cbn [id]. rewrite Hb, Er. cbn [st_blocks].
    rewrite lookup_insert_ne by lia. rewrite Hb'. unfold set_blocks. cbn. by rewrite insert_insert_eq.
  - split; [done|]. split; [cbn; by rewrite lookup_insert_eq|]. split; cbn [st_blocks st_env].
    + apply (wf_fresh (mk_strings (without dest (st_blocks st)) (st_next st) e)); [exact Hw'|done].
    + apply NoDup_singleton.
    + intros c ->%list_elem_of_singleton. by right.
    + intros c ->%list_elem_of_singleton. by rewrite lookup_insert_eq.
    + intros c Hc Hc'. rewrite lookup_insert_ne by set_solver. destruct dest as [d|]; [|done]. cbn. rewrite lookup_delete_ne; [done|set_solver].
    + intros c Hc Hc'. rewrite lookup_insert_ne by set_solver. destruct dest as [d|]; [|by apply not_elem_of_nil in Hc].
      apply list_elem_of_singleton in Hc as ->. apply lookup_delete_eq.
    + done.
Qed.

Lemma str_update_text dest b t st : wf_strings st -> live st dest -> st_blocks st !! b = Some t -> dest <> Some b ->
  exists rc p st', str_update dest (Some b) st = Done (rc, p) st' /\ str_updated dest (Some b) st rc p st'.
Proof.
  intros Hw Hd Hb Hne. destruct (Hw b t Hb) as [Hlt Ht]. assert (value_at st (Some b) = CStr t) as Ev by (cbn; by rewrite Hb).
  pose proof (update_field_text (value_at st dest) t (st_env st) (live_value st dest Hw Hd) Ht) as EU.
  destruct (alloc_cases (st_env st)) as (a & e & Ea & Hcalm & Hfail).
  pose proof (str_realloc_eq dest (S (String.length t)) st a e Hd Ea) as Er.
  unfold mbind, M_bind in EU. rewrite Ea in EU. unfold mret, M_ret in EU.
  assert (forall st', st_env st' = e -> str_update dest (Some b) st = Done (SG_ERROR_NONE, Some (st_next st)) st' -> a <> AFail ->
    value_at st' (Some (st_next st)) = CStr t -> reowned st (blocks [dest]) st' [st_next st] ->
    exists rc p st', str_update dest (Some b) st = Done (rc, p) st' /\ str_updated dest (Some b) st rc p st') as Hdone.
  { intros st' He Es Ha Hv Ho. eexists _, _, _. split; [exact Es|]. split; [|exact Ho|intros _; by rewrite Hv, Ev|done].
    rewrite Ev, EU, Hv, He. by destruct a. }
  destruct a.
  - destruct (set_error_done SG_ERROR_MALLOC (Some ("sg_realloc: couldn't realloc(to " +:+ pretty (S (String.length t)) +:+ " bytes)")) e) as (e2 & E2 & Hal & Hg).
    rewrite E2 in Er, EU. exists SG_ERROR_MALLOC, dest, (mk_strings (st_blocks st) (st_next st) e2). split.
    + unfold str_update, str_read, in_senv, zoom, sg_get_error, gets, mbind, M_bind, mret, M_ret. cbn [id]. rewrite Hb, Er. cbn [st_env]. by rewrite Hg.
    + split; [|split|done|auto].
      * rewrite Ev, EU. unfold sg_get_error, gets. by rewrite Hg.
      * exact Hw.
      * destruct dest; [apply NoDup_singleton|constructor].
      * intros c Hc. by left.
      * intros c Hc. destruct dest as [d|]; [|by apply not_elem_of_nil in Hc]. by apply list_elem_of_singleton in Hc as ->.
      * done.
      * intros c Hc Hc'. done.
      * unfold calmer in *. cbn. rewrite Hal. done.
  - destruct (str_update_moved dest b t st e Hw Hd Hb Hne Er Hcalm) as (st' & Es & He & Hv & Ho). by eapply Hdone.
  - destruct dest as [d|].
    2: { destruct (str_update_moved None b t st e Hw Hd Hb Hne Er Hcalm) as (st' & Es & He & Hv & Ho). by eapply Hdone. }
    destruct Hd as [u Hu]. destruct (Hw d u Hu) as [Hdlt _].
    exists SG_ERROR_NONE, (Some d), (mk_strings (<[d := t]> (st_blocks st)) (st_next st) e). split.
    + unfold str_update, str_read, gets, modify, mbind, M_bind, mret, M_ret. cbn [id]. rewrite Hb, Er. cbn [st_blocks]. by rewrite Hb.
    + split; [rewrite Ev, EU; cbn; by rewrite lookup_insert_eq| |intros _; rewrite Ev; cbn; by rewrite lookup_insert_eq|done].
      split; cbn [blocks omap list_omap id st_blocks st_env]; [by apply (wf_insert (mk_strings (st_blocks st) (st_next st) e))|apply NoDup_singleton|by left| | |done|done].
      * intros c ->%list_elem_of_singleton. by rewrite lookup_insert_eq.
      * intros c Hc _. rewrite lookup_insert_ne; [done|set_solver].
Qed.

Lemma str_update_spec dest src st : wf_strings st -> live st dest -> live st src -> (forall b, dest = Some b -> src <> Some b) ->
  exists rc p st', str_update dest src st = Done (rc, p) st' /\ str_updated dest src st rc p st'.
Proof.
  intros Hw Hd Hs Hne. destruct src as [b|].
  - destruct Hs as [t Ht]. eapply str_update_text; [done..|]. intros ->. by apply (Hne b).
  - destruct (str_update_null dest st Hw Hd) as (st' & H1 & H2). by eexists _, _, _.
Qed.

(** ** Several strings *)

Lemma reowned_app st qs st1 ps bs st2 bs' :
  reowned st qs st1 ps -> reowned st1 bs st2 bs' -> (forall b, b ∈ bs -> is_Some (st_blocks st !! b) /\ b ∉ qs) ->
  reowned st (qs ++ bs) st2 (ps ++ bs').
Proof.
  intros [W1 N1 Hn1 L1 O1 G1 C1] [W2 N2 Hn2 L2 O2 G2 C2] Hbs.
  assert (forall b, b ∈ ps -> b ∉ bs) as Hpb.
  { intros b Hp Hb. destruct (Hbs b Hb) as [[u Hu] Hq]. destruct (Hn1 b Hp); [done|congruence]. }
  assert (forall b, b ∈ ps -> b ∉ bs') as Hpb'.
  { intros b Hp Hb. destruct (Hn2 b Hb) as [|Hno]; [by eapply Hpb|]. destruct (L1 b Hp). congruence. }
  split.
  - done.
  - apply NoDup_app. split_and!; [done|exact Hpb'|done].
  - intros b [Hp|Hb]%elem_of_app.
    + destruct (Hn1 b Hp); [left; apply elem_of_app; by left|by right].
    + destruct (Hn2 b Hb) as [|Hno]; [left; apply elem_of_app; by right|]. destruct (decide (b ∈ qs)); [left; apply elem_of_app; by left|].
      right. rewrite <- O1; [done|done|]. intros Hp. destruct (L1 b Hp). congruence.
  - intros b [Hp|Hb]%elem_of_app; [|auto]. rewrite O2; auto.
  - intros b [Hq Hb]%not_elem_of_app [Hp Hb']%not_elem_of_app. rewrite O2, O1; done.
  - intros b Hin [Hp Hb']%not_elem_of_app. destruct (decide (b ∈ bs)) as [|Hb]; [by apply G2|]. rewrite O2 by done.
    apply G1; [|done]. apply elem_of_app in Hin as [|]; done.
  - by trans (st_env st1).
Qed.

Lemma reowned_same st bs st' bs' bs2 : (forall b, b ∈ bs <-> b ∈ bs2) -> reowned st bs st' bs' -> reowned st bs2 st' bs'.
Proof. intros E [W N Hn L O G C]. split; try done; intros b; rewrite <- E; auto. Qed.

(** Pointers to the blocks of others keep their values. *)
Lemma others_value st qs st1 ps p : reowned st qs st1 ps -> live st p -> (forall b, p = Some b -> b ∉ qs) -> value_at st1 p = value_at st p.
Proof.
  intros H Hl Hq. destruct p as [b|]; [|done]. cbn. rewrite (re_others _ _ _ _ H b); [done|by apply Hq|].
  intros Hp. destruct (re_new _ _ _ _ H b Hp) as [|E]; [by eapply Hq|]. destruct Hl. congruence.
Qed.

Lemma value_live st st1 p : value_at st1 p = value_at st p -> live st p -> live st1 p.
Proof. destruct p as [b|]; [|done]. cbn. intros E [t Ht]. rewrite Ht in E. by destruct (st_blocks st1 !! b). Qed.

Lemma elem_of_blocks b l : b ∈ blocks l <-> Some b ∈ l.
Proof. unfold blocks. rewrite list_elem_of_omap. split; [intros (x & Hx & E); unfold id in E; by subst|intros H; by exists (Some b)]. Qed.

(** Pointers that can be read, to blocks none of which [bs] has. *)
Definition apart_from (bs : list positive) (st : strings) (l : list block) : Prop :=
  Forall (live st) l /\ (forall b, b ∈ blocks l -> b ∉ bs).

Lemma apart_kept st qs st1 ps l : reowned st qs st1 ps -> apart_from qs st l ->
  Forall (live st1) l /\ value_at st1 <$> l = value_at st <$> l.
Proof.
  intros Ho [Hl Hq]. assert (forall p, p ∈ l -> live st1 p /\ value_at st1 p = value_at st p) as H.
  { intros p Hp. assert (live st p) by (by eapply Forall_forall in Hl). assert (value_at st1 p = value_at st p) as E.
    { eapply others_value; [done|done|]. intros b ->. by apply Hq, elem_of_blocks. }
    split; [by eapply value_live|done]. }
  split; [apply Forall_forall; intros p Hp; by apply H|]. clear Hl Hq. induction l as [|p l IH]; [done|]. rewrite !fmap_cons.
  f_equal; [apply H; by left|apply IH; intros q Hq'; apply H; by right].
Qed.

(** The updates of a copy function on values. *)
Fixpoint copy_fields (ss ds : list char_ptr) : M env (bool * list char_ptr) :=
  match ss, ds with
  | s :: ss', d :: ds' =>
      r ← update_field d s;
      if decide (SG_ERROR_NONE <> r.1) then mret (false, r.2 :: ds')
      else r' ← copy_fields ss' ds'; mret (r'.1, r.2 :: r'.2)
  | _, _ => mret (true, ds)
  end.

Record names_copied (ss ds : list block) (st : strings) (ok : bool) (ds' : list block) (st' : strings) : Prop := {
  nc_value : copy_fields (value_at st <$> ss) (value_at st <$> ds) (st_env st) = Done (ok, value_at st' <$> ds') (st_env st');
  nc_owned : reowned st (blocks ds) st' (blocks ds');
  nc_length : length ds' = length ds;
  nc_copied : ok = true -> value_at st' <$> ds' = value_at st <$> ss;
  nc_failed : ok = false -> AFail ∈ e_allocs (st_env st) /\ eg_error (sg_get_error_glob (st_env st')) <> SG_ERROR_NONE }.

Lemma reowned_refl st bs : wf_strings st -> NoDup bs -> (forall b, b ∈ bs -> is_Some (st_blocks st !! b)) -> reowned st bs st bs.
Proof. intros Hw Hn Hl. split; try done. by left. Qed.

Lemma live_blocks st l : Forall (live st) l -> forall b, b ∈ blocks l -> is_Some (st_blocks st !! b).
Proof. intros Hl b Hb%elem_of_blocks. by eapply Forall_forall in Hl as H; [|exact Hb]. Qed.

Lemma blocks_cons p l : blocks (p :: l) = blocks [p] ++ blocks l.
Proof. by destruct p. Qed.

Lemma copy_names_spec ss : forall ds st, length ss = length ds -> wf_strings st -> NoDup (blocks ds) -> Forall (live st) ds ->
  apart_from (blocks ds) st ss ->
  exists ok ds' st', copy_names ss ds st = Done (ok, ds') st' /\ names_copied ss ds st ok ds' st'.
Proof.
  induction ss as [|p ss IH]; intros [|q ds] st Hlen Hw Hnd Hd Hs; try done.
  { eexists _, _, _. split; [done|]. split; try done. by apply reowned_refl; [|constructor|intros ? ?%not_elem_of_nil]. }
  injection Hlen as Hlen. apply Forall_cons in Hd as [Hq Hd]. destruct Hs as [[Hp Hs]%Forall_cons Hap].
  rewrite (blocks_cons q) in Hnd. apply NoDup_app in Hnd as (Hnq & Hqd & Hnd).
  destruct (str_update_spec q p st Hw Hq Hp) as (rc & q' & st1 & E1 & [Hv Ho Hc Hf]).
  { intros b -> ->. apply (Hap b); by apply elem_of_blocks; left. }
  assert (apart_from (blocks [q]) st ds) as Had by (split; [done|]; intros b Hb Hb'; by apply (Hqd b)).
  assert (apart_from (blocks [q]) st ss) as Has.
  { split; [done|]. intros b Hb Hb'. apply (Hap b); [apply elem_of_blocks; right; by apply elem_of_blocks|]. rewrite blocks_cons. apply elem_of_app. by left. }
  destruct (apart_kept _ _ _ _ _ Ho Had) as [Hd1 Ed]. destruct (apart_kept _ _ _ _ _ Ho Has) as [Hs1 Es].
  cbn [copy_names]. unfold mbind, M_bind. rewrite E1. cbn [fst snd]. destruct (decide (SG_ERROR_NONE <> rc)) as [Hne|He%dec_stable].
  - destruct (Hf ltac:(congruence)) as [Haf Hg]. eexists _, _, st1. split; [done|].
    split; [| |cbn; lia|done|intros _; split; [done|congruence]].
    + rewrite !fmap_cons. cbn [copy_fields]. unfold mbind, M_bind. rewrite Hv. cbn [fst snd]. rewrite decide_True by done. by rewrite <- Ed.
    + rewrite (blocks_cons q), (blocks_cons q'). eapply reowned_app; [exact Ho|apply reowned_refl; [apply Ho|done|by apply live_blocks]|].
      intros b Hb. split; [by eapply live_blocks in Hd|]. intros Hb'. by apply (Hqd b).
  - subst rc. assert (apart_from (blocks ds) st1 ss) as Hap1.
    { split; [done|]. intros b Hb Hb'. apply (Hap b); [apply elem_of_blocks; right; by apply elem_of_blocks|]. rewrite blocks_cons. apply elem_of_app. by right. }
    destruct (IH ds st1 Hlen (re_wf _ _ _ _ Ho) Hnd Hd1 Hap1) as (ok & ds' & st2 & E2 & [Hv2 Ho2 Hl2 Hc2 Hf2]). rewrite E2.
    assert (reowned st (blocks [q] ++ blocks ds) st2 (blocks [q'] ++ blocks ds')) as Hall.
    { eapply reowned_app; [exact Ho|exact Ho2|]. intros b Hb. split; [by eapply live_blocks in Hd|]. intros Hb'. by apply (Hqd b). }
    assert (value_at st2 q' = value_at st1 q') as Eq'.
    { destruct q' as [b'|]; [|done]. eapply others_value; [exact Ho2|apply (re_live _ _ _ _ Ho); by left|].
      intros b [= <-] Hb. destruct (re_new _ _ _ _ Ho b' ltac:(by left)) as [Hin|Hno]; [by apply (Hqd b')|].
      eapply live_blocks in Hd as [? ?]; [|exact Hb]. congruence. }
    eexists _, _, _. split; [done|]. cbn [fst snd]. split; [|by rewrite (blocks_cons q), (blocks_cons q')|cbn; lia| |].
    + rewrite !fmap_cons. cbn [copy_fields]. unfold mbind, M_bind. rewrite Hv. cbn [fst snd]. rewrite decide_False by auto.
      by rewrite <- Es, <- Ed, Hv2, Eq'.
    + intros ->. rewrite !fmap_cons, Eq', Hc by done. by rewrite Hc2, Es by done.
    + intros Hok. destruct (Hf2 Hok) as [Ha2 Hg2]. split; [by apply (re_calm _ _ _ _ Ho)|done].
Qed.

(** ** Items *)

(** A copy function of Items.v is the updates of its fields and the rest of the source. *)
Lemma item_copy_fields k s d ns nd e : shaped k s -> shaped k d -> length ns = length (it_names s) -> length nd = length (it_names d) ->
  item_copy k (with_names ns (it_rest s)) (with_names nd (it_rest d)) e =
  (r ← copy_fields ns nd;
   if (r.1 : bool) then mret (SG_ERROR_NONE, with_names ns (it_rest s), with_names r.2 (it_rest s))
   else rc ← sg_get_error; mret (rc, with_names ns (it_rest s), with_names r.2 (it_rest d))) e.
Proof.
  unfold shaped. destruct s as [ls rs], d as [ld rd]. cbn [it_names it_rest].
  destruct k; try done; destruct rs as [| | | | | | |f|f|f| | | | |]; try done; destruct rd as [| | | | | | |g|g|g| | | | |]; try done; intros -> -> Hs Hd.
  - destruct ns as [|n1 [|n2 [|n3 [|n4 []]]]]; try done. destruct nd as [|m1 [|m2 [|m3 [|m4 []]]]]; try done.
    cbn [with_names item_copy as_fs copy_fields]. unfold sg_fs_stats_item_copy, mbind, M_bind, mret, M_ret. cbn.
    destruct (update_field m1 n1 e) as [[r1 p1] e1|]; [|done]. cbn. destruct (decide _); [done|].
    destruct (update_field m2 n2 e1) as [[r2 p2] e2|]; [|done]. cbn. destruct (decide _); [done|].
    destruct (update_field m3 n3 e2) as [[r3 p3] e3|]; [|done]. cbn. destruct (decide _); [done|].
    destruct (update_field m4 n4 e3) as [[r4 p4] e4|]; [|done]. cbn. by destruct (decide _).
  - destruct ns as [|n1 []]; try done. destruct nd as [|m1 []]; try done.
    cbn [with_names item_copy as_disk_io copy_fields]. unfold sg_disk_io_stats_item_copy, mbind, M_bind, mret, M_ret. cbn.
    destruct (update_field m1 n1 e) as [[r1 p1] e1|]; [|done]. cbn. by destruct (decide _).
  - destruct ns as [|n1 []]; try done. destruct nd as [|m1 []]; try done.
    cbn [with_names item_copy as_network_io copy_fields]. unfold sg_network_io_stats_item_copy, mbind, M_bind, mret, M_ret. cbn.
    destruct (update_field m1 n1 e) as [[r1 p1] e1|]; [|done]. cbn. by destruct (decide _).
Qed.

Lemma string_item_copy_spec s d st :
  length (it_names s) = length (it_names d) -> wf_strings st -> NoDup (blocks (it_names d)) -> Forall (live st) (it_names d) ->
  apart_from (blocks (it_names d)) st (it_names s) ->
  exists rc d' st', string_item_copy s d st = Done (rc, d') st' /\
    reowned st (blocks (it_names d)) st' (blocks (it_names d')) /\ length (it_names d') = length (it_names d) /\
    (rc = SG_ERROR_NONE -> value_of st' d' = value_of st s) /\ (rc <> SG_ERROR_NONE -> AFail ∈ e_allocs (st_env st)).
Proof.
  intros Hlen Hw Hnd Hd Hs. destruct (copy_names_spec _ _ _ Hlen Hw Hnd Hd Hs) as (ok & ds' & st' & E & [_ Ho Hl Hc Hf]).
  unfold string_item_copy, mbind, M_bind. rewrite E. destruct ok; cbn [fst snd].
  - eexists _, _, _. split; [done|]. split_and!; try done. intros _. unfold value_of. cbn. by rewrite Hc.
  - destruct (Hf eq_refl) as [Ha Hg]. eexists _, _, st'. split; [unfold in_senv, zoom, sg_get_error, gets; cbn; by destruct st'|]. split_and!; done.
Qed.

(** ** Lists of items *)

Lemma item_blocks_cons d ds : item_blocks (d :: ds) = blocks (it_names d) ++ item_blocks ds.
Proof. unfold item_blocks, blocks. rewrite fmap_cons. cbn. apply omap_app. Qed.

(** The pointers of all items. *)
Definition item_ptrs (l : list string_item) : list block := mjoin (it_names <$> l).

Lemma item_ptrs_cons d ds : item_ptrs (d :: ds) = it_names d ++ item_ptrs ds.
Proof. done. Qed.

(** What is not in the way of an owner stays what it is. *)
Lemma values_kept st qs st1 ps l : reowned st qs st1 ps -> apart_from qs st (item_ptrs l) ->
  Forall (live st1) (item_ptrs l) /\ value_of st1 <$> l = value_of st <$> l.
Proof.
  intros Ho Ha. split; [by eapply apart_kept|]. induction l as [|i l IH]; [done|]. rewrite item_ptrs_cons in Ha. destruct Ha as [Hl Hb].
  apply Forall_app in Hl as [Hl1 Hl2]. rewrite !fmap_cons. f_equal.
  - unfold value_of. f_equal. eapply apart_kept; [exact Ho|]. split; [done|]. intros b Hb'. apply Hb. rewrite elem_of_blocks in *. apply elem_of_app. by left.
  - apply IH. split; [done|]. intros b Hb'. apply Hb. rewrite elem_of_blocks in *. apply elem_of_app. by right.
Qed.

Lemma apart_app bs st l l' : apart_from bs st (l ++ l') <-> apart_from bs st l /\ apart_from bs st l'.
Proof.
  unfold apart_from. rewrite Forall_app. split.
  - intros [[H1 H2] H3]. split; (split; [done|]); intros b Hb; apply H3; rewrite elem_of_blocks in *; apply elem_of_app; auto.
  - intros [[H1 H2] [H3 H4]]. split; [done|]. intros b. rewrite elem_of_blocks. intros [H|H]%elem_of_app; [apply H2|apply H4]; by apply elem_of_blocks.
Qed.

Lemma apart_fewer bs bs' st l : (forall b, b ∈ bs' -> b ∈ bs) -> apart_from bs st l -> apart_from bs' st l.
Proof. intros Hb [Hl H]. split; [done|]. intros b Hin Hin'. by apply (H b), Hb. Qed.

Lemma copy_string_items_spec ss : forall ds st,
  Forall2 (fun s d => length (it_names s) = length (it_names d)) ss ds -> wf_strings st -> NoDup (item_blocks ds) ->
  Forall (live st) (item_ptrs ds) -> apart_from (item_blocks ds) st (item_ptrs ss) ->
  exists rc ds' st', copy_string_items ss ds st = Done (rc, ds') st' /\
    reowned st (item_blocks ds) st' (item_blocks ds') /\
    (rc = SG_ERROR_NONE -> value_of st' <$> ds' = value_of st <$> ss) /\ (rc <> SG_ERROR_NONE -> AFail ∈ e_allocs (st_env st)).
Proof.
  induction ss as [|s ss IH]; intros ds st HF Hw Hnd Hd Hs.
  { apply Forall2_nil_inv_l in HF as ->. eexists _, _, _. split; [done|]. split_and!; try done.
    by apply reowned_refl; [|constructor|intros ? ?%not_elem_of_nil]. }
  apply Forall2_cons_inv_l in HF as (d & ds2 & Hlen & HF & ->). rewrite item_blocks_cons in *. rewrite item_ptrs_cons in Hd, Hs.
  apply Forall_app in Hd as [Hd1 Hd2]. apply apart_app in Hs as [Hs1 Hs2]. apply NoDup_app in Hnd as (Hn1 & Hdis & Hn2).
  destruct (string_item_copy_spec s d st Hlen Hw Hn1 Hd1) as (rc & d' & st1 & E1 & Ho & Hl & Hc & Hf).
  { eapply apart_fewer; [|exact Hs1]. intros b Hb. apply elem_of_app. by left. }
  assert (forall b, b ∈ item_blocks ds2 -> is_Some (st_blocks st !! b) /\ b ∉ blocks (it_names d)) as Hds2.
  { intros b Hb. split; [by eapply live_blocks in Hd2|]. intros Hb'. by apply (Hdis b). }
  assert (apart_from (blocks (it_names d)) st (item_ptrs ds2)) as Hap by (split; [done|]; intros b Hb; by apply Hds2).
  destruct (apart_kept _ _ _ _ _ Ho Hap) as [Hd2' _].
  cbn [copy_string_items]. unfold mbind, M_bind. rewrite E1. cbn [fst snd]. destruct (decide (rc = SG_ERROR_NONE)) as [->|Hne].
  2: { eexists _, _, _. split; [done|]. split_and!; [|done|done]. rewrite item_blocks_cons. eapply reowned_app; [exact Ho| |exact Hds2].
       apply reowned_refl; [apply Ho|done|by apply live_blocks]. }
  assert (apart_from (blocks (it_names d)) st (item_ptrs ss)) as Has by (eapply apart_fewer; [|exact Hs2]; intros b Hb; apply elem_of_app; by left).
  destruct (values_kept _ _ _ _ _ Ho Has) as [Hs2' Es].
  destruct (IH ds2 st1 HF (re_wf _ _ _ _ Ho) Hn2 Hd2') as (rc & ds' & st2 & E2 & Ho2 & Hc2 & Hf2).
  { split; [done|]. intros b Hb Hb'. apply (proj2 Hs2 b Hb). apply elem_of_app. by right. }
  rewrite E2. eexists _, _, _. split; [done|]. cbn [fst snd]. split_and!.
  - rewrite item_blocks_cons. by eapply reowned_app.
  - intros ->. rewrite !fmap_cons. f_equal; [|by rewrite Hc2, Es].
    rewrite <- Hc by done. unfold value_of. f_equal. eapply apart_kept; [exact Ho2|]. split.
    + apply Forall_forall. intros [b|] Hb; [|done]. apply (re_live _ _ _ _ Ho). by apply elem_of_blocks.
    + intros b Hb Hb'. destruct (Hds2 b Hb') as [[u Hu] Hq]. destruct (re_new _ _ _ _ Ho b Hb); [done|congruence].
  - intros Hne. by apply (re_calm _ _ _ _ Ho), Hf2.
Qed.

Lemma free_names_spec l : forall st, wf_strings st -> NoDup (blocks l) -> Forall (live st) l ->
  exists st', free_names_of l st = Done tt st' /\ reowned st (blocks l) st' [] /\ st_env st' = st_env st.
Proof.
  induction l as [|p l IH]; intros st Hw Hnd Hl.
  { exists st. split; [done|]. split; [|done]. by apply reowned_refl; [|constructor|intros ? ?%not_elem_of_nil]. }
  apply Forall_cons in Hl as [Hp Hl]. rewrite (blocks_cons p) in Hnd. apply NoDup_app in Hnd as (_ & Hdis & Hnd).
  destruct (str_update_null p st Hw Hp) as (st1 & E1 & [_ Ho _ _]).
  assert (str_free p st = Done tt st1 /\ st_env st1 = st_env st) as [Ef Ee].
  { unfold str_update, mbind, M_bind in E1. destruct (str_free p st) as [[] st2|] eqn:E; [|done]. injection E1 as <-. split; [done|].
    unfold str_free, mbind, M_bind, gets, modify in E. destruct p as [b|]; [|by injection E as <-]. cbn in E. destruct (st_blocks st !! b); [|done].
    by injection E as <-. }
  assert (apart_from (blocks [p]) st l) as Hap by (split; [done|]; intros b Hb Hb'; by apply (Hdis b)).
  destruct (IH st1 (re_wf _ _ _ _ Ho) Hnd) as (st2 & E2 & Ho2 & Ee2); [by eapply apart_kept|].
  exists st2. cbn [free_names_of]. unfold mbind, M_bind. rewrite Ef, E2. split; [done|]. split; [|congruence].
  rewrite (blocks_cons p). change (@nil positive) with (blocks [None] ++ []). eapply reowned_app; [exact Ho|exact Ho2|].
  intros b Hb. split; [by eapply live_blocks in Hl|]. intros Hb'. by apply (Hdis b).
Qed.

Lemma destroy_items_spec ds : forall st, wf_strings st -> NoDup (item_blocks ds) -> Forall (live st) (item_ptrs ds) ->
  exists st', destroy_string_items ds st = Done tt st' /\ reowned st (item_blocks ds) st' [].
Proof.
  induction ds as [|d ds IH]; intros st Hw Hnd Hl.
  { exists st. split; [done|]. by apply reowned_refl; [|constructor|intros ? ?%not_elem_of_nil]. }
  rewrite item_blocks_cons in *. rewrite item_ptrs_cons in Hl. apply Forall_app in Hl as [Hl1 Hl2]. apply NoDup_app in Hnd as (Hn1 & Hdis & Hn2).
  destruct (IH st Hw Hn2 Hl2) as (st1 & E1 & Ho).
  assert (apart_from (item_blocks ds) st (it_names d)) as Hap by (split; [done|]; intros b Hb; by apply Hdis).
  destruct (free_names_spec _ st1 (re_wf _ _ _ _ Ho) Hn1) as (st2 & E2 & Ho2 & _); [by eapply apart_kept|].
  exists st2. cbn [destroy_string_items]. unfold mbind, M_bind. rewrite E1, E2. split; [done|].
  apply (reowned_same st (item_blocks ds ++ blocks (it_names d))); [intros b; rewrite !elem_of_app; tauto|].
  change (@nil positive) with (@nil positive ++ []). eapply reowned_app; [exact Ho|exact Ho2|].
  intros b Hb. split; [by eapply live_blocks in Hl1|]. by apply Hdis.
Qed.

(** ** The copy functions and the copy loop *)

(** C12: The copy functions of file systems, disk transfers and network counters with the text fields as
    pointers into a store of blocks: when the pointers of source and destination are NULL or point to live
    blocks, no two fields of the destination share a block and the destination shares none with the source, the
    copy ends and (1) does to the texts, the result and the error record exactly what the definition on text
    values does (so modelling a text field by its text is faithful there), (2) leaves the source as it is, (3)
    leaves the destination with live blocks of its own, each one it had before or one that did not exist,
    releases those it has given up and touches no other block; on success the destination has the values of the
    source. Covers failing, moving and staying reallocations. The copy function of interface properties is not
    included (it has its parameters the wrong way round). *)
Theorem copy_refines k s d st :
  shaped k s -> shaped k d -> wf_strings st -> NoDup (blocks (it_names d)) -> Forall (live st) (it_names d) ->
  Forall (live st) (it_names s) -> (forall b, b ∈ blocks (it_names s) -> b ∉ blocks (it_names d)) ->
  exists rc d' st', string_item_copy s d st = Done (rc, d') st' /\
    item_copy k (value_of st s) (value_of st d) (st_env st) = Done (rc, value_of st' s, value_of st' d') (st_env st') /\
    reowned st (blocks (it_names d)) st' (blocks (it_names d')) /\
    (rc = SG_ERROR_NONE -> value_of st' d' = value_of st s).
Proof.
  intros Hks Hkd Hw Hnd Hd Hs Hap.
  assert (length (it_names s) = length (it_names d)) as Hlen.
  { unfold shaped in Hks, Hkd. destruct k; try done; destruct (it_rest s), (it_rest d); try done; congruence. }
  destruct (copy_names_spec _ _ _ Hlen Hw Hnd Hd (conj Hs Hap)) as (ok & ds' & st' & E & [Hv Ho Hl Hc Hf]).
  assert (value_of st' s = value_of st s) as Es by (unfold value_of; f_equal; by eapply apart_kept).
  pose proof (item_copy_fields k s d (value_at st <$> it_names s) (value_at st <$> it_names d) (st_env st) Hks Hkd
                (length_fmap _ _) (length_fmap _ _)) as EI.
  unfold string_item_copy, mbind, M_bind in *. rewrite E. rewrite Hv in EI. fold (value_of st s) (value_of st d) in EI. rewrite EI.
  destruct ok; cbn [fst snd].
  - eexists _, _, _. split; [done|]. rewrite Es. split_and!; [done|done|]. intros _. unfold value_of. cbn. by rewrite Hc.
  - destruct (Hf eq_refl) as [_ Hg]. eexists _, _, st'.
    split; [unfold in_senv, zoom, sg_get_error, gets; cbn; by destruct st'|]. rewrite Es. by split_and!.
Qed.

Lemma clone_owned ss ds st :
  wf_strings st -> Forall2 (fun s d => length (it_names s) = length (it_names d)) ss ds ->
  NoDup (item_blocks ds) -> Forall (live st) (item_ptrs ds) -> Forall (live st) (item_ptrs ss) ->
  (forall b, b ∈ item_blocks ss -> b ∉ item_blocks ds) ->
  exists rc r st', clone_string_items ss ds st = Done (rc, r) st' /\
    ((AFail ∉ e_allocs (st_env st)) -> rc = SG_ERROR_NONE) /\ value_of st' <$> ss = value_of st <$> ss /\
    match r with
    | Some ds' =>
        rc = SG_ERROR_NONE /\ value_of st' <$> ds' = value_of st <$> ss /\ reowned st (item_blocks ds) st' (item_blocks ds') /\
        (forall b, b ∈ item_blocks ss -> b ∉ item_blocks ds')
    | None =>
        rc <> SG_ERROR_NONE /\
        (forall b, st_blocks st' !! b = if decide (b ∈ item_blocks ds) then None else st_blocks st !! b)
    end.
Proof.
  intros Hw HF Hnd Hd Hs Hap. assert (apart_from (item_blocks ds) st (item_ptrs ss)) as Ha by done.
  destruct (copy_string_items_spec ss ds st HF Hw Hnd Hd Ha) as (rc & ds' & st1 & E & Ho & Hc & Hf).
  unfold clone_string_items, mbind, M_bind. rewrite E. cbn [fst snd]. destruct (decide (rc = SG_ERROR_NONE)) as [->|Hne].
  - eexists _, _, _. split; [done|]. split_and!; [done|by eapply values_kept|done|by apply Hc|done|].
    intros b Hb Hb'. destruct (re_new _ _ _ _ Ho b Hb') as [|Hno]; [by apply (Hap b)|].
    destruct (live_blocks _ _ Hs b Hb). congruence.
  - assert (Forall (live st1) (item_ptrs ds')) as Hl1.
    { apply Forall_forall. intros [b|] Hb; [|done]. apply (re_live _ _ _ _ Ho). by apply elem_of_blocks. }
    destruct (destroy_items_spec ds' st1 (re_wf _ _ _ _ Ho) (re_distinct _ _ _ _ Ho) Hl1) as (st2 & E2 & Ho2). rewrite E2.
    assert (forall b, st_blocks st2 !! b = if decide (b ∈ item_blocks ds) then None else st_blocks st !! b) as Hb2.
    { intros b. destruct (decide (b ∈ item_blocks ds')) as [Hin|Hout].
      - rewrite (re_given_up _ _ _ _ Ho2 b Hin) by (apply not_elem_of_nil).
        destruct (re_new _ _ _ _ Ho b Hin); [by rewrite decide_True|by case_decide].
      - rewrite (re_others _ _ _ _ Ho2 b Hout) by (apply not_elem_of_nil). case_decide as Hd'.
        + by apply (re_given_up _ _ _ _ Ho).
        + by apply (re_others _ _ _ _ Ho). }
    eexists _, _, _. split; [done|]. split_and!; [intros Hno; destruct Hno; by apply Hf| |done|done].
    apply list_fmap_ext. intros i x Hx. unfold value_of. f_equal. apply list_fmap_ext. intros j p Hp. destruct p as [b|]; [|done].
    cbn. rewrite Hb2, decide_False; [done|]. apply Hap. apply elem_of_blocks, list_elem_of_join.
    exists (it_names x). split; [by eapply list_elem_of_lookup_2|]. apply list_elem_of_fmap. exists x. split; [done|]. by eapply list_elem_of_lookup_2.
Qed.

(** Items that were just initialised have no blocks: the clone has blocks of its own, which did not exist before, and a
    clone that fails, or is destroyed, leaves the store as it was. *)
Lemma clone_fresh ss ds st :
  wf_strings st -> Forall2 (fun s d => length (it_names s) = length (it_names d)) ss ds -> Forall (fun p => p = None) (item_ptrs ds) ->
  Forall (live st) (item_ptrs ss) ->
  exists rc r st', clone_string_items ss ds st = Done (rc, r) st' /\
    match r with
    | Some ds' => (forall b, b ∈ item_blocks ds' -> st_blocks st !! b = None) /\
        exists st2, destroy_string_items ds' st' = Done tt st2 /\ st_blocks st2 = st_blocks st
    | None => st_blocks st' = st_blocks st
    end.
Proof.
  intros Hw HF Hnone Hs. assert (item_blocks ds = []) as E0.
  { unfold item_blocks. fold (item_ptrs ds). induction Hnone as [|p l -> Hn IH]; [done|exact IH]. }
  destruct (clone_owned ss ds st Hw HF) as (rc & r & st1 & E & _ & _ & Hr); rewrite ?E0; try done; [apply NoDup_nil_2| |intros ? _; apply not_elem_of_nil|].
  { eapply Forall_impl; [exact Hnone|]. by intros p ->. }
  eexists _, _, _. split; [exact E|]. destruct r as [ds'|].
  - destruct Hr as (_ & _ & Ho & _). rewrite E0 in Ho. split.
    + intros b Hb. by destruct (re_new _ _ _ _ Ho b Hb) as [?%not_elem_of_nil|].
    + destruct (destroy_items_spec ds' st1 (re_wf _ _ _ _ Ho) (re_distinct _ _ _ _ Ho)) as (st2 & E2 & Ho2).
      { apply Forall_forall. intros [b|] Hb; [|done]. apply (re_live _ _ _ _ Ho). by apply elem_of_blocks. }
      exists st2. split; [done|]. apply map_eq. intros b. destruct (decide (b ∈ item_blocks ds')) as [Hin|Hout].
      * rewrite (re_given_up _ _ _ _ Ho2 b Hin) by (apply not_elem_of_nil). by destruct (re_new _ _ _ _ Ho b Hin) as [?%not_elem_of_nil|].
      * rewrite (re_others _ _ _ _ Ho2 b Hout) by (apply not_elem_of_nil). apply (re_others _ _ _ _ Ho); [apply not_elem_of_nil|done].
  - destruct Hr as [_ Hb]. apply map_eq. intros b. rewrite Hb, E0, decide_False; [done|apply not_elem_of_nil].
Qed.
(** C13: The copy loop of sg_vector_clone_into_int on items whose text fields are pointers into a store of
    blocks, for destination items as many as the source items (initialised ones or those of an earlier copy)
    whose pointers are NULL or point to live blocks, each owned by one field and none shared with the source:
    the loop ends; without a failing allocation it succeeds; on success the copy has the values of the source,
    its blocks are live, owned by one field each, none of them is a block of the source, blocks given up are
    released and all other blocks are untouched; on failure all blocks of the destination, old and new, are
    released and nothing else is: nothing is lost and nothing is released twice. The source keeps its values in
    both cases. *)
Theorem clone_strings_owned ss ds st :
  wf_strings st -> Forall2 (fun s d => length (it_names s) = length (it_names d)) ss ds ->
  NoDup (item_blocks ds) -> Forall (live st) (item_ptrs ds) -> Forall (live st) (item_ptrs ss) ->
  (forall b, b ∈ item_blocks ss -> b ∉ item_blocks ds) ->
  exists rc r st', clone_string_items ss ds st = Done (rc, r) st' /\
    ((AFail ∉ e_allocs (st_env st)) -> rc = SG_ERROR_NONE) /\ value_of st' <$> ss = value_of st <$> ss /\
    match r with
    | Some ds' =>
        rc = SG_ERROR_NONE /\ value_of st' <$> ds' = value_of st <$> ss /\ reowned st (item_blocks ds) st' (item_blocks ds') /\
        (forall b, b ∈ item_blocks ss -> b ∉ item_blocks ds')
    | None =>
        rc <> SG_ERROR_NONE /\
        (forall b, st_blocks st' !! b = if decide (b ∈ item_blocks ds) then None else st_blocks st !! b)
    end.
Proof. exact (clone_owned ss ds st). Qed.
End own.

(** * A store *)

(** Two file systems and the two items they are copied to: the first one has two texts of its own already. *)
Definition demo_store : strings :=
  mk_strings {[1%positive := "/dev/sda1"; 2%positive := "ext4"; 3%positive := "/"; 4%positive := "tmpfs"; 5%positive := "/tmp";
               6%positive := "/dev/old"; 7%positive := "xfs"]} 8 (mk_env [AStay; AMove] 0 (Some error_glob_zero) error_glob_zero).

Definition demo_rest (size : Z) : item :=
  IFs (mk_fs_stats CNull CNull CNull CNull 0 size 1 2 3 4 5 6 7 8 9 10 11 12 13 1000).

Definition demo_sources : list string_item :=
  [mk_string_item [Some 1%positive; None; Some 2%positive; Some 3%positive] (demo_rest 100);
   mk_string_item [None; None; Some 4%positive; Some 5%positive] (demo_rest 200)].

Definition demo_dests : list string_item :=
  [mk_string_item [Some 6%positive; None; Some 7%positive; None] (demo_rest 0); mk_string_item [None; None; None; None] (demo_rest 0)].

Lemma demo_store_wf : wf_strings demo_store.
Proof. apply (bool_decide_eq_true_1 _). by vm_compute. Qed.

Lemma demo_separate : (forall b, b ∈ item_blocks demo_sources -> b ∉ item_blocks demo_dests).
Proof. intros b Hb Hb'. cbn in Hb, Hb'. set_solver. Qed.

(** The computed result: in the first item one block is kept and one is moved. *)
Lemma copy_refines_witness :
  let s := mk_string_item [Some 1%positive; None; Some 2%positive; Some 3%positive] (demo_rest 100) in
  let d := mk_string_item [Some 6%positive; None; Some 7%positive; None] (demo_rest 0) in
  (exists st', string_item_copy s d demo_store =
     Done (SG_ERROR_NONE, mk_string_item [Some 6%positive; None; Some 8%positive; Some 9%positive] (demo_rest 100)) st') /\
  exists rc d' st', string_item_copy s d demo_store = Done (rc, d') st' /\
    item_copy Kfs (value_of demo_store s) (value_of demo_store d) (st_env demo_store) = Done (rc, value_of st' s, value_of st' d') (st_env st') /\
    reowned demo_store (blocks (it_names d)) st' (blocks (it_names d')) /\
    (rc = SG_ERROR_NONE -> value_of st' d' = value_of demo_store s).
Proof.
  intros s d. split; [eexists; vm_compute; reflexivity|].
  apply (copy_refines Kfs s d demo_store); [done|done|exact demo_store_wf| | | |].
  - apply (bool_decide_eq_true_1 _). by vm_compute.
  - repeat constructor; by eexists.
  - repeat constructor; by eexists.
  - intros b Hb Hb'. cbn in Hb, Hb'. set_solver.
Defined.

Lemma clone_strings_owned_witness :
  exists rc r st', clone_string_items demo_sources demo_dests demo_store = Done (rc, r) st' /\
    ((AFail ∉ e_allocs (st_env demo_store)) -> rc = SG_ERROR_NONE) /\ value_of st' <$> demo_sources = value_of demo_store <$> demo_sources /\
    match r with
    | Some ds' =>
        rc = SG_ERROR_NONE /\ value_of st' <$> ds' = value_of demo_store <$> demo_sources /\
        reowned demo_store (item_blocks demo_dests) st' (item_blocks ds') /\
        (forall b, b ∈ item_blocks demo_sources -> b ∉ item_blocks ds')
    | None =>
        rc <> SG_ERROR_NONE /\
        (forall b, st_blocks st' !! b = if decide (b ∈ item_blocks demo_dests) then None else st_blocks demo_store !! b)
    end.
Proof.
  apply (clone_strings_owned demo_sources demo_dests demo_store).
  - exact demo_store_wf.
  - by repeat constructor.
  - apply (bool_decide_eq_true_1 _). by vm_compute.
  - repeat constructor; by eexists.
  - repeat constructor; by eexists.
  - exact demo_separate.
Defined.

(** When the fifth request fails, the items that were copied are released with their blocks, and no other block is. *)
Lemma demo_clone_fails :
  match clone_string_items demo_sources demo_dests
          (mk_strings (st_blocks demo_store) 8 (mk_env [AStay; AMove; AMove; AMove; AFail] 0 (Some error_glob_zero) error_glob_zero)) with
  | Done (rc, None) st' => rc = SG_ERROR_MALLOC /\ st_blocks st' = delete 6%positive (delete 7%positive (st_blocks demo_store))
  | _ => False
  end.
Proof. vm_compute. by split. Qed.
