(* ===== verification/VectorProps.v ===== *)
(** The theorems about vector.c, each with the situation it was tried on. *)

From S2P Require Import Prelude Types CLib Errors Tools Vector VectorSpec VectorDiff Items Comp Stdio Fill Disk Demo.

Section contracts.
Context {IO : ItemOps} {IL : ItemLaws}.

(** What a caller of [sg_vector_create] finds. *)
Definition created (inf : sg_vector_init_info) (iu : Z) (w : world) (r : vptr) (w' : world) : Prop :=
  match r with
  | Some l =>
      w_vecs w !! l = None /\
      exists v, w_vecs w' = <[l := v]> (w_vecs w) /\ wf_vec v /\ used_count v = iu /\ info v = inf /\
        Forall (slot_fresh inf) (contents v)
  | None => AFail ∈ e_allocs (w_env w) /\ w_vecs w' = w_vecs w /\ failed_alloc (w_env w')
  end.

(** [sg_vector_create] with room for at least one item (asked for by
    [alloc_count] or by [initial_used]), counts and a block size of at most 2^31
    and items of less than 2^30 bytes either returns a new vector of
    [initial_used] initialised items that satisfies the representation invariant
    and leaves all other vectors alone, or (only when the allocator fails)
    returns NULL with SG_ERROR_MALLOC recorded and the heap unchanged. A vector
    for no item at all is not covered: see [create_empty_then_grow_faults]. *)
Theorem create_contract bs alloc iu inf w :
  bs <= 2 ^ 31 -> 0 <= alloc <= 2 ^ 31 -> 0 <= iu <= 2 ^ 31 -> 1 <= Z.max alloc iu ->
  info_wf inf -> item_size inf < 2 ^ 30 -> wf_heap w ->
  wp (sg_vector_create bs alloc iu inf) (created inf iu w) w.
Proof.
  intros Hbs Ha Hi Hm Hinf Hsz Hw. unfold sg_vector_create.
  destruct (shift_loop_create bs Hbs) as (b & -> & Hb & _ & _).
  assert (size_ok (round_up (Z.max alloc iu) b) inf) as Hso.
  { unfold size_ok. pose proof (round_up_bounds (Z.max alloc iu) b) as R.
    assert (2 ^ b <= 2 ^ 31) by (apply Z.pow_le_mono_r; lia).
    destruct Hinf as [? _]. unfold VECTOR_SIZE.
    assert (round_up (Z.max alloc iu) b < 2 ^ 33) by lia. nia. }
  apply wp_create_int; try done; try lia.
  intros v e _ Hv Hu Hi' _ _ Hf. cbn. split; [apply Hw; lia|]. exists v. unfold contents. by rewrite Hu.
Qed.

(** What is left after [sg_vector_resize] to at least one item. *)
Definition resize_post (l : positive) (v : sg_vector) (n : Z) (w : world) (r : vptr) (w' : world)
    : Prop :=
  match r with
  | Some l' => exists v', resized v v' n /\ moved l l' v' w w'
  | None => AFail ∈ e_allocs (w_env w) /\ w_vecs w' = delete l (w_vecs w) /\ failed_alloc (w_env w')
  end.

(** C10: [sg_vector_resize] of a well-formed vector to [n >= 1] items gives a
    well-formed vector of [n] items which keeps the items both sizes have in
    common and has fresh ones behind them; the surplus items have been destroyed
    (their slots, as far as the block still has them, hold no live string). It is
    at the same or a new address, with every other vector untouched; when the
    allocator fails the old vector is gone, NULL is returned and SG_ERROR_MALLOC
    is recorded. *)
Theorem resize_contract l v n w :
  w_vecs w !! l = Some v -> wf_vec v -> 1 <= n -> size_ok (round_up n (block_shift v)) (info v) ->
  wp (sg_vector_resize (Some l) n) (resize_post l v n w) w.
Proof.
  intros Hl Hv Hn Hs. eapply wp_resize; try done.
  intros l' v' w' Hr Hm. cbn. eauto.
Qed.

(** [sg_vector_clear] releases every item and keeps the memory: the vector
    stays well-formed with no item, and [sg_vector_free] afterwards removes
    exactly this vector from the heap. *)
Theorem clear_then_free l v w :
  w_vecs w !! l = Some v -> wf_vec v ->
  wp (sg_vector_clear (Some l);; n ← VECTOR_ITEM_COUNT (Some l); sg_vector_free (Some l);; mret n)
     (fun n w' => n = 0 /\ w_vecs w' = delete l (w_vecs w) /\ w_env w' = w_env w) w.
Proof.
  intros Hl Hv. apply wp_bind. eapply wp_vector_clear; [done..|].
  intros v' Hv' Hu Hi _ _ _. apply wp_bind, wp_bind.
  eapply wp_read_vec; [apply lookup_upd|]. apply wp_ret, wp_bind.
  eapply wp_vector_free; [apply lookup_upd | done|]. apply wp_ret.
  split_and!; [done | | done]. cbn. by rewrite delete_insert_eq.
Qed.

(** What [sg_vector_clone] leaves. *)
Definition cloned (s : positive) (sv : sg_vector) (w : world) (r : vptr) (w' : world) : Prop :=
  match r with
  | Some l =>
      w_vecs w !! l = None /\
      exists v, w_vecs w' = <[l := v]> (w_vecs w) /\ wf_vec v /\ info v = info sv /\
                contents v = contents sv
  | None => AFail ∈ e_allocs (w_env w) /\ w_vecs w' = w_vecs w /\
            eg_error (sg_get_error_glob (w_env w')) <> SG_ERROR_NONE
  end.

(** C11: [sg_vector_clone] of a vector of file systems, disks or interface
    counters (the kinds whose copy function copies from its first to its second
    argument) makes a new vector with an equal copy of every item, the source
    untouched; when an allocation fails half way the vectors of the heap are as
    before and an error is recorded. *)
Theorem clone_contract k s sv w :
  w_vecs w !! s = Some sv -> wf_vec sv -> wf_heap w -> copy_info k (info sv) ->
  size_ok (round_up (Z.max (alloc_count sv) (used_count sv)) (block_shift sv)) (info sv) ->
  wp (sg_vector_clone (Some s)) (cloned s sv w) w.
Proof.
  intros Hs Hv Hw Hi Hso. eapply wp_clone; try done.
  intros v' e _ Hv' Hi' _ _ Hc. cbn. split; [apply Hw; lia | eauto].
Qed.

(** What the difference of two snapshots leaves. *)
Definition diffed (k : kind) (dest : vptr) (cv lv : sg_vector) (w : world)
    (r : sg_error * vptr) (w' : world) : Prop :=
  match r with
  | (SG_ERROR_NONE, Some d) =>
      exists v, w_vecs w' = <[d := v]> (dropped dest w) /\ wf_vec v /\
                contents v = map (diff_item k (contents lv)) (contents cv)
  | (rc, p) => rc <> SG_ERROR_NONE /\ p = None /\ AFail ∈ e_allocs (w_env w) /\
               w_vecs w' = dropped dest w
  end.

(** C1: [sg_vector_compute_diff] implements its specification: with unique names
    in both snapshots the result holds, in the order of the current one, for
    every item with a predecessor of the same name the difference to it, and
    every other item unchanged; both snapshots stay as they are. The destination
    ([dest_ok]) is new or has the size of the current snapshot, and then a
    failing allocation releases it and an error is returned; or it has another
    size, and then the current snapshot has to be non-empty and no allocation may
    fail, as the resizing of vector.c:222 leaves a dangling pointer otherwise. *)
Theorem compute_diff_refines_pairing k dest c l cv lv w :
  wf_heap w -> w_vecs w !! c = Some cv -> w_vecs w !! l = Some lv -> wf_vec cv -> wf_vec lv ->
  diff_info k (info cv) -> info lv = info cv -> dest_ok dest c l cv w ->
  all_named k (contents lv) -> all_named k (contents cv) ->
  unique_names k (contents lv) -> unique_names k (contents cv) ->
  wp (sg_vector_compute_diff (Some dest) (Some c) (Some l)) (diffed k dest cv lv w) w.
Proof.
  intros Hw Hc Hl Hcv Hlv Hi Hil Hd Hln Hcn Hlu Hcu.
  eapply wp_compute_diff; try done.
  - intros HF rc w' Hrc Hw'. cbn. by destruct rc.
  - intros d v' w' _ Hv' Hi' Hu' Hct _ _ Hw'. cbn. exists v'. split_and!; [done..|].
    rewrite Hct. apply diff_all_spec; try done.
    + intros i Hi2. apply matched_fits; [apply wf_used in Hlv; lia|].
      unfold contents in Hi2. rewrite length_take in Hi2. lia.
    + intros b x d0 Hb. unfold matched_words in Hb. by rewrite BIT_ISSET_zero in Hb.
Qed.
End contracts.

(** C1 on two snapshots of disk counters. *)
Lemma compute_diff_refines_pairing_witness :
  wp (sg_vector_compute_diff (Some (Some 3%positive)) (Some 1%positive) (Some 2%positive))
     (diffed Kdisk_io (Some 3%positive) demo_now demo_last demo_world) demo_world.
Proof.
  apply compute_diff_refines_pairing; eauto with sg.
  - by apply vector_info_diff.
  - cbn. split_and!; [done | done |]. exists demo_one. split_and!; [done | auto with sg | done |].
    right. split_and!; [by vm_compute | set_solver | by vm_compute].
  - by repeat constructor.
  - by repeat constructor.
  - apply keys_unique. by apply (bool_decide_eq_true_1 _).
  - apply keys_unique. by apply (bool_decide_eq_true_1 _).
Defined.

(** A vector of two items grown to three and cut to one. *)
Lemma resize_contract_witness :
  wp (sg_vector_resize (Some 1%positive) 3) (resize_post 1 demo_now 3 demo_world) demo_world /\
  wp (sg_vector_resize (Some 1%positive) 1) (resize_post 1 demo_now 1 demo_world) demo_world.
Proof. split; apply resize_contract; eauto with sg; by vm_compute. Defined.

(** Room for sixteen items, two of them in use. *)
Lemma create_contract_witness :
  wp (sg_vector_create 16 16 2 (VECTOR_INIT_INFO Kdisk_io))
     (created (VECTOR_INIT_INFO Kdisk_io) 2 demo_world) demo_world.
Proof. apply create_contract; eauto using vector_info_wf with sg; by vm_compute. Defined.

(** A vector of two items. *)
Lemma clear_then_free_witness :
  wp (sg_vector_clear (Some 1%positive);; n ← VECTOR_ITEM_COUNT (Some 1%positive);
      sg_vector_free (Some 1%positive);; mret n)
     (fun n w' => n = 0 /\ w_vecs w' = delete 1%positive (w_vecs demo_world) /\
                  w_env w' = w_env demo_world) demo_world.
Proof. by apply (clear_then_free 1%positive demo_now demo_world); auto with sg. Defined.

(** The same vector. *)
Lemma clone_contract_witness :
  wp (sg_vector_clone (Some 1%positive)) (cloned 1 demo_now demo_world) demo_world.
Proof.
  apply (clone_contract Kdisk_io); eauto with sg; [|by vm_compute].
  apply (vector_info_diff Kdisk_io eq_refl).
Defined.

(** * Rounding and bit sets *)

(** NEXT_POWER2_IN gives the least multiple of the block size that holds the
    requested number of items. *)
Theorem next_power2_least x bs :
  0 <= bs < 32 -> 1 <= x <= 2 ^ 32 ->
  x <= NEXT_POWER2_IN x bs /\ (2 ^ bs | NEXT_POWER2_IN x bs) /\
  forall m, x <= m -> (2 ^ bs | m) -> NEXT_POWER2_IN x bs <= m.
Proof.
  intros Hb Hx.
  assert (NEXT_POWER2_IN x bs = round_up x bs) as ->.
  { eapply (next_power2_round x bs (VECTOR_INIT_INFO Kdisk_io)); [done | lia | apply vector_info_wf |].
    apply size_ok_small; lia. }
  pose proof (round_up_bounds x bs) as R.
  split_and!; [lia | by exists ((x - 1) / 2 ^ bs + 1) |].
  intros m Hm [q ->]. unfold round_up.
  assert (0 < 2 ^ bs) as Hp by lia.
  apply Z.mul_le_mono_nonneg_r; [lia|].
  enough ((x - 1) / 2 ^ bs < q) by lia. apply Z.div_lt_upper_bound; lia.
Qed.

Lemma next_power2_least_witness :
  NEXT_POWER2_IN 17 4 = 32 /\ 17 <= NEXT_POWER2_IN 17 4.
Proof. split; [done|]. apply (next_power2_least 17 4); lia. Defined.

(** BIT_SET sets its bit and no other, for every bit inside the array, across
    word boundaries. *)
Theorem bit_set_get m j j' :
  (j / 32 < length m)%nat ->
  BIT_ISSET (BIT_SET m j) j' = bool_decide (j = j') || BIT_ISSET m j'.
Proof. apply BIT_ISSET_SET. Qed.

Lemma bit_set_get_witness :
  BIT_ISSET (BIT_SET [0; 0] 33) 33 = bool_decide (33 = 33)%nat || BIT_ISSET [0; 0] 33.
Proof. apply bit_set_get. apply Nat.ltb_lt. reflexivity. Defined.

(** * Where the contracts end *)

Section limits.
Context {mem : Memory}.

(** The vector VECTOR_CREATE makes for no item: one claimed slot, no memory. *)
Definition slotless (k : kind) : sg_vector :=
  mk_vector SG_VECTOR_START_EYE 0 1 0 (VECTOR_INIT_INFO k) SG_VECTOR_FINAL_EYE [].

Lemma create_empty_run k w :
  e_allocs (w_env w) = [] ->
  VECTOR_CREATE (VECTOR_INIT_INFO k) 0 w
    = Done (Some (w_next w)) (new_vec (slotless k) (w_env w) w).
Proof.
  intros Ha. destruct w as [h n [al er tl pr]]. cbn in Ha. subst al.
  unfold VECTOR_CREATE, sg_vector_create.
  change (shift_loop 33 0 0) with (Some 0). unfold sg_vector_create_int.
  change (NEXT_POWER2_IN (Z.max 0 0) 0) with 0. unfold mbind, M_bind.
  assert (forall m : M world vptr, m = vec_malloc (block_bytes 0 (item_size (VECTOR_INIT_INFO k)))
      (item_size (VECTOR_INIT_INFO k))
      (mk_vector SG_VECTOR_START_EYE 0 (u64 (Z.shiftl 1 0)) 0 (VECTOR_INIT_INFO k)
         SG_VECTOR_FINAL_EYE) ->
    m (mk_world h n (mk_env [] er tl pr))
      = Done (Some n) (new_vec (slotless k) (mk_env [] er tl pr) (mk_world h n (mk_env [] er tl pr))))
    as Hm by (intros m ->; by destruct k).
  rewrite (Hm _ eq_refl). unfold sg_vector_init_new, mbind, M_bind, read_vec, new_vec. cbn [w_vecs w_next].
  rewrite lookup_insert_eq. cbn [info used_count slotless].
  destruct (init_fn (VECTOR_INIT_INFO k)); cbn; rewrite lookup_insert_eq; done.
Qed.

Lemma grow_empty_run k l w :
  item_managed k = true -> w_vecs w !! l = Some (slotless k) ->
  sg_vector_resize (Some l) 1 w = Stuck out_of_bounds.
Proof.
  intros Hk Hl. unfold sg_vector_resize, sg_prove_vector, mbind, M_bind.
  unfold read_vec at 1. rewrite Hl.
  change (assert_ (SG_VECTOR_START_EYE =? start_eye (slotless k)) w) with (Done (S := world) tt w).
  cbv iota. change (assert_ (SG_VECTOR_FINAL_EYE =? final_eye (slotless k)) w) with (Done (S := world) tt w).
  cbn [mret M_ret]. rewrite decide_False by (intros H; by apply H).
  change (1 =? 0) with false. cbv iota.
  unfold sg_vector_destroy_unused, mbind, M_bind, read_vec. rewrite Hl. cbn [used_count slotless info].
  change (1 <? 0) with false. cbv iota.
  destruct (destroy_fn (VECTOR_INIT_INFO k)) eqn:E; [|by destruct k]. cbn [mret M_ret].
  rewrite Hl. cbn [used_count slotless]. change (1 <? 0) with false. cbn [mret M_ret]. rewrite Hl.
  cbn [block_shift slotless alloc_count]. change (NEXT_POWER2_IN 1 0 =? 1) with true. cbv iota.
  unfold sg_vector_init_new, mbind, M_bind, read_vec. rewrite Hl. cbn [info slotless used_count].
  destruct (init_fn (VECTOR_INIT_INFO k)) eqn:E'; [|by destruct k].
  change (0 <? 1) with true. change (Z.to_nat (1 - 0)) with 1%nat. cbv iota.
  cbn [init_loop]. unfold mbind, M_bind, read_item, read_vec, mbind, M_bind. rewrite Hl. done.
Qed.

(** A vector created for no item claims room for one item it does not have:
    the first resize to one item writes behind the block. MULTI_COMP_DIFF creates
    such a vector when the previous snapshot was empty. *)
Theorem create_empty_then_grow_faults k w :
  item_managed k = true -> e_allocs (w_env w) = [] ->
  (VECTOR_CREATE (VECTOR_INIT_INFO k) 0 ≫= fun v => sg_vector_resize v 1) w
    = Stuck out_of_bounds.
Proof.
  intros Hk Ha. unfold mbind, M_bind. rewrite (create_empty_run k w Ha).
  apply (grow_empty_run k); [done | apply lookup_insert_eq].
Qed.

(** Overwriting a vector with an empty one resizes it to nothing. *)
Lemma clone_into_empty_run d s dv sv w :
  w_vecs w !! d = Some dv -> w_vecs w !! s = Some sv -> d <> s ->
  wf_vec dv -> wf_vec sv -> info dv = info sv -> is_Some (copy_fn (info sv)) ->
  used_count sv = 0 -> 1 <= used_count dv ->
  wp (sg_vector_clone_into (Some (Some d)) (Some s))
     (fun r w' => r = (SG_ERROR_NONE, Some d) /\ w_vecs w' = delete d (w_vecs w)) w.
Proof.
  intros Hd Hs Hne Hdv Hsv Hi [k Hk] Hu Hu'. unfold sg_vector_clone_into.
  apply wp_bind. eapply wp_prove_vector; [done..|].
  apply wp_bind. eapply wp_prove_vector; [done..|].
  apply wp_bind. unfold sg_prove_vector_compat.
  apply wp_bind. eapply wp_read_vec; [done|]. apply wp_bind. eapply wp_read_vec; [done|].
  apply wp_bind, wp_assert; [by apply bool_decide_eq_true|]. apply wp_ret, wp_bind.
  unfold sg_vector_clone_into_int.
  apply wp_bind. eapply wp_read_vec; [done|]. apply wp_bind. eapply wp_read_vec; [done|].
  apply wp_bind. destruct (Z.eqb_spec (used_count dv) (used_count sv)); [lia|]. rewrite Hu.
  eapply wp_resize_zero; [done..|]. apply wp_bind.
  eapply wp_read_vec; [by cbn; rewrite lookup_delete_ne|]. rewrite Hk.
  apply wp_bind, wp_in_env, wp_gets. cbn -[decide]. rewrite get_put_error_glob. cbn -[decide].
  by apply wp_ret.
Qed.

(** C40: when the current snapshot is empty and the destination is not,
    [sg_vector_clone_into] reports success but leaves a pointer to the vector it
    has just released in the destination. *)
Theorem clone_into_empty_dangles d s dv sv w :
  w_vecs w !! d = Some dv -> w_vecs w !! s = Some sv -> d <> s ->
  wf_vec dv -> wf_vec sv -> info dv = info sv -> is_Some (copy_fn (info sv)) ->
  used_count sv = 0 -> 1 <= used_count dv ->
  exists w', sg_vector_clone_into (Some (Some d)) (Some s) w = Done (SG_ERROR_NONE, Some d) w' /\
             w_vecs w' !! d = None /\ read_vec d w' = Stuck use_after_free.
Proof.
  intros Hd Hs Hne Hdv Hsv Hi Hk Hu Hu'.
  destruct (wp_inv _ _ _ (clone_into_empty_run d s dv sv w Hd Hs Hne Hdv Hsv Hi Hk Hu Hu'))
    as (r & w' & E & -> & Hw'). exists w'.
  assert (w_vecs w' !! d = None) as Hn by (rewrite Hw'; apply lookup_delete_eq).
  split_and!; [done | done |]. unfold read_vec. by rewrite Hn.
Qed.

(** The copy function of the interface properties takes its arguments in the
    other order than the vector code passes them: copying overwrites the source
    with the destination and leaves the destination as it was. *)
Theorem iface_copy_overwrites_source s d e :
  item_live Knetwork_iface (INetIface s) = true ->
  item_live Knetwork_iface (INetIface d) = true -> (AFail ∉ e_allocs e) ->
  wp (run_copy Knetwork_iface (INetIface s) (INetIface d))
     (fun r _ => r = (SG_ERROR_NONE, INetIface d, INetIface d)) e.
Proof.
  intros Hs Hd Ha. cbn [run_copy item_ops item_copy as_network_iface item_live] in *.
  apply wp_bind. unfold sg_network_iface_stats_item_copy. apply wp_bind, wp_update_field; [done..| |done].
  intros e' _. cbn [fst snd]. rewrite decide_False by auto. apply wp_ret, wp_ret. cbn.
  by destruct d.
Qed.
End limits.

Lemma create_empty_then_grow_faults_witness :
  (VECTOR_CREATE (VECTOR_INIT_INFO Kdisk_io) 0 ≫= fun v => sg_vector_resize v 1) demo_world
    = Stuck out_of_bounds.
Proof. by apply create_empty_then_grow_faults. Defined.

Lemma clone_into_empty_dangles_witness :
  exists w', sg_vector_clone_into (Some (Some 1%positive)) (Some 4%positive) demo_world
               = Done (SG_ERROR_NONE, Some 1%positive) w' /\
             w_vecs w' !! 1%positive = None /\ read_vec 1 w' = Stuck use_after_free.
Proof. eapply clone_into_empty_dangles; eauto with sg; done. Defined.

Definition demo_iface (name : char_ptr) (speed : Z) : sg_network_iface_stats :=
  mk_network_iface_stats name speed 1000000 SG_IFACE_DUPLEX_FULL SG_IFACE_UP 900.

Lemma iface_copy_overwrites_source_witness :
  wp (run_copy Knetwork_iface (INetIface (demo_iface (CStr "eth0") 1000))
        (INetIface (demo_iface CNull 0)))
     (fun r _ => r = (SG_ERROR_NONE, INetIface (demo_iface CNull 0),
                      INetIface (demo_iface CNull 0))) demo_env.
Proof. apply iface_copy_overwrites_source; [done | done | set_solver]. Defined.
