(* ===== verification/DiskProps.v ===== *)
(** The theorems about disk_stats.c: the counters of /proc/diskstats from the text
    of the kernel to the difference the caller gets, and the list of valid file
    system types. *)

From S2P Require Import Prelude Types CLib Errors Tools Vector VectorSpec VectorDiff Items Comp Stdio Fill Disk Demo.

Local Open Scope sg_scope.

(** * The text of /proc/diskstats *)

(** A line of the file: the numbers of the device, its name, and the numbers the
    kernel counts for it, [dl_pad1] and [dl_pad2] being the padding of the device
    numbers. The third number behind the name counts the sectors read, the seventh
    those written. *)
Record disk_line := mk_disk_line {
  dl_pad1 : string; dl_major : Z; dl_pad2 : string; dl_minor : Z; dl_name : string;
  dl_counts : list Z }.

Definition dl_sectors_read (d : disk_line) : Z := nth 2 (dl_counts d) 0.
Definition dl_sectors_written (d : disk_line) : Z := nth 6 (dl_counts d) 0.

(** The lines of partitions in old kernels have fewer numbers. *)
Definition dl_is_disk (d : disk_line) : Prop := (7 <= length (dl_counts d))%nat.
#[export] Instance dl_is_disk_dec d : Decision (dl_is_disk d).
Proof. unfold dl_is_disk. apply _. Defined.

Fixpoint counts_text (ns : list Z) (rest : string) : string :=
  match ns with
  | [] => rest
  | z :: ns' => " " +:+ (print_unsigned z +:+ counts_text ns' rest)
  end.

Definition dl_text (d : disk_line) (rest : string) : string :=
  dl_pad1 d +:+ (print_unsigned (dl_major d) +:+ (dl_pad2 d +:+ (print_unsigned (dl_minor d) +:+
  (" " +:+ (dl_name d +:+ counts_text (dl_counts d) rest))))).

Definition new_line : string := String newline EmptyString.

Definition disk_file (ds : list disk_line) : string := concat_lines ((fun d => dl_text d new_line) <$> ds).

Definition disk_name_char (c : ascii) : bool := not_space c && not_nul c.

(** A line the kernel prints: blanks as padding, a name of at most 99 characters
    without white space, 64-bit numbers, and no longer than the buffer. *)
Record dl_ok (d : disk_line) : Prop := {
  dlo_pad1 : all_chars isblank (dl_pad1 d) = true;
  dlo_pad2 : all_chars isblank (dl_pad2 d) = true;
  dlo_pad2_some : dl_pad2 d <> EmptyString;
  dlo_major : in_u64 (dl_major d);
  dlo_minor : in_u64 (dl_minor d);
  dlo_name : all_chars disk_name_char (dl_name d) = true;
  dlo_name_some : dl_name d <> EmptyString;
  dlo_name_len : (String.length (dl_name d) <= 99)%nat;
  dlo_counts : Forall in_u64 (dl_counts d);
  dlo_len : (String.length (dl_text d EmptyString) < 255)%nat }.

Lemma blank_is_space t : all_chars isblank t = true -> all_chars isspace t = true.
Proof.
  apply all_chars_impl. intros c. unfold isblank, isspace. rewrite !orb_true_iff. intros [->%Z.eqb_eq | ->%Z.eqb_eq]; auto.
Qed.

Lemma counts_at_blank ns rest : at_blank rest -> at_blank (counts_text ns rest).
Proof. by destruct ns. Qed.

Lemma pad_at_blank pad rest : all_chars isspace pad = true -> pad <> EmptyString -> at_blank (pad +:+ rest).
Proof. destruct pad as [|c pad]; [done|]. by intros [? _]%andb_true_iff. Qed.

(** The scan of the numbers behind the name. *)
Lemma scan_counts ns name :
  Forall in_u64 ns ->
  let skip := [DWhite; DConv true None 32 Cd] in let count := [DWhite; DConv false None 64 Cu] in
  let r := scan (skip ++ skip ++ count ++ skip ++ skip ++ skip ++ count) (counts_text ns new_line) [VStr name] in
  if decide (7 <= length ns)%nat then r = (3, [VStr name; VInt (nth 2 ns 0); VInt (nth 6 ns 0)])
  else r.1 <> 3.
Proof.
  intros HF. cbn [app].
  do 7 (destruct ns as [|? ns];
    [ cbn [counts_text length]; rewrite decide_False by lia; rewrite ?scan_skip_number, ?scan_u64, ?scan_skip_number
        by (done || (repeat (apply Forall_cons in HF as [? HF]); unfold in_u64 in *; done || lia)); done
    | ]).
  repeat (apply Forall_cons in HF as [? HF]). cbn [length]. rewrite decide_True by lia. cbn [counts_text].
  rewrite !scan_skip_number, scan_u64, !scan_skip_number, scan_u64
    by (done || (unfold in_u64 in *; lia) || by apply counts_at_blank). done.
Qed.

(** Scanning a line gives the name and the third and the seventh number, or
    nothing when there are fewer (print/parse round trip through [sscanf]). *)
Lemma diskstats_line_of d :
  dl_ok d ->
  diskstats_line (dl_text d new_line) =
    if decide (dl_is_disk d) then Some (dl_name d, dl_sectors_read d, dl_sectors_written d) else None.
Proof.
  intros [Hp1 Hp2 Hp2n Hma Hmi Hn Hne Hlen HF _]. apply blank_is_space in Hp1, Hp2. unfold diskstats_line, sscanf.
  assert (all_chars not_space (dl_name d) = true) as Hn'.
  { revert Hn. apply all_chars_impl. by intros c [? _]%andb_true_iff. }
  pose proof (scan_counts (dl_counts d) (dl_name d) HF) as HS. cbv zeta in HS. cbn [app] in HS.
  assert (exists ds, parse_format (String.length diskstats_format) diskstats_format = ds /\ ds =
    let skip := [DWhite; DConv true None 32 Cd] in let count := [DWhite; DConv false None 64 Cu] in
    skip ++ skip ++ [DWhite; DConv false (Some 99%nat) 32 Cs] ++ skip ++ skip ++ count ++
    skip ++ skip ++ skip ++ count) as (ds & -> & ->) by (eexists; split; reflexivity).
  unfold dl_text. cbn [app].
  rewrite !scan_skip_number, scan_word
    by (first [done | unfold in_u64 in *; lia | apply counts_at_blank; done | apply pad_at_blank; done]).
  cbn [app]. destruct (decide (7 <= length (dl_counts d))%nat) as [L|L] in HS;
    [rewrite decide_True by done; by rewrite HS | rewrite decide_False by done].
  destruct (scan _ _ _) as [nr vals]. cbn [fst] in HS. by rewrite (proj2 (Z.eqb_neq nr 3) HS).
Qed.

Lemma digits_not p z : 0 <= z -> (forall c, isdigit c = true -> p c = true) -> all_chars p (print_unsigned z) = true.
Proof. intros Hz Hp. destruct (print_unsigned_digits z Hz) as (Hd & _ & _). revert Hd. by apply all_chars_impl. Qed.

(** A line consists of characters [p] accepts when these include digits, blanks
    and the characters of a name. *)
Lemma dl_text_chars p d :
  dl_ok d -> (forall c, isdigit c = true -> p c = true) -> (forall c, isblank c = true -> p c = true) ->
  (forall c, disk_name_char c = true -> p c = true) -> all_chars p (dl_text d EmptyString) = true.
Proof.
  intros [Hp1 Hp2 _ Hma Hmi Hn _ _ HF _] Hd Hb Hc. unfold dl_text, in_u64 in *.
  rewrite !all_chars_app, !andb_true_iff. split_and!.
  1, 3: eapply all_chars_impl; [|eassumption]; done.
  1, 2: apply digits_not; [lia|done].
  { cbn. by rewrite Hb. }
  { eapply all_chars_impl; [|eassumption]; done. }
  induction HF as [|z ns Hz _ IH]; [done|]. cbn [counts_text]. rewrite !all_chars_app, !andb_true_iff.
  split_and!; [cbn; by rewrite Hb | apply digits_not; [lia|done] | done].
Qed.

Lemma dl_text_line d : dl_text d new_line = dl_text d EmptyString +:+ new_line.
Proof.
  unfold dl_text. rewrite !string_app_assoc. do 6 f_equal.
  induction (dl_counts d) as [|z ns IH]; [done|]. cbn [counts_text]. by rewrite IH, !string_app_assoc.
Qed.

Lemma dl_short d : dl_ok d -> short_line 256 (dl_text d new_line).
Proof.
  intros Hd. exists (dl_text d EmptyString). split_and!; [apply dl_text_line | | apply (dlo_len _ Hd)].
  apply dl_text_chars; [done | | |]; intros c Hc; apply bool_decide_eq_true; intros ->; by vm_compute in Hc.
Qed.

(** The entries of the file are those of its disks, in order. *)
Lemma diskstats_entries_of ds :
  Forall dl_ok ds ->
  diskstats_entries (disk_file ds) =
    (fun d => (dl_name d, dl_sectors_read d, dl_sectors_written d)) <$> filter dl_is_disk ds.
Proof.
  intros HF. unfold diskstats_entries, disk_file. rewrite file_lines_short.
  2: { apply Forall_fmap. eapply Forall_impl; [done|]. apply dl_short. }
  induction HF as [|d ds Hd _ IH]; [done|]. rewrite filter_cons, fmap_cons. cbn [omap list_omap].
  rewrite diskstats_line_of by done. case_decide; [|exact IH]. rewrite fmap_cons. by f_equal.
Qed.

Lemma disk_file_text ds : Forall dl_ok ds -> all_chars not_nul (disk_file ds) = true.
Proof.
  induction 1 as [|d ds Hd _ IH]; [done|]. unfold disk_file. cbn. rewrite dl_text_line, !all_chars_app, !andb_true_iff.
  split_and!; [|done|exact IH].
  apply dl_text_chars; [done | | |]; intros c Hc; apply bool_decide_eq_true; intros ->; by vm_compute in Hc.
Qed.

Section counters.
Context {mem : Memory} {sys : System}.

(** What is read from the line of a disk: sectors have 512 bytes. *)
Definition disk_reading (d : disk_line) : sg_disk_io_stats :=
  mk_disk_io_stats (CStr (dl_name d)) ((512 * dl_sectors_read d) mod 2 ^ 64)
    ((512 * dl_sectors_written d) mod 2 ^ 64) sys_time.

(** What the caller of [sg_get_disk_io_stats] finds. *)
Definition disk_snapshot (ds : list disk_line) (r : vptr * Z) (st : comp) : Prop :=
  let disks := filter dl_is_disk ds in
  r.2 = Z.of_nat (length disks) /\
  exists l v, r.1 = Some l /\ w_vecs (c_world st) !! l = Some v /\ wf_vec v /\
    contents v = (fun d => IDiskIo (disk_reading d)) <$> disks.

Lemma disk_item_of d :
  disk_io_item (dl_name d, dl_sectors_read d, dl_sectors_written d) = IDiskIo (disk_reading d).
Proof. cbn. unfold disk_reading. by rewrite !(Z.mul_comm 512). Qed.

Lemma disk_items_of ds :
  Forall dl_ok ds ->
  disk_io_item <$> diskstats_entries (disk_file ds) =
    (fun d => IDiskIo (disk_reading d)) <$> filter dl_is_disk ds.
Proof.
  intros HF. rewrite diskstats_entries_of, <- list_fmap_compose by done. apply list_fmap_ext.
  intros _ d _. apply disk_item_of.
Qed.

Lemma disk_entries_length ds :
  Forall dl_ok ds -> length (diskstats_entries (disk_file ds)) = length (filter dl_is_disk ds).
Proof. intros HF. by rewrite diskstats_entries_of, length_fmap. Qed.

(** [sg_get_disk_io_stats] on a /proc/diskstats of lines the kernel prints
    delivers one well-formed entry per disk (a line with at least seven numbers
    behind the name), in order: the name, the third number times 512 as the bytes
    read and the seventh times 512 as those written, modulo 2^64, and the time,
    whether or not an earlier call left a vector behind; memory must last. *)
Theorem disk_io_is_diskstats ds o vs w :
  sys_file "/proc/diskstats" = Some (disk_file ds) -> Forall dl_ok ds ->
  Z.of_nat (length (filter dl_is_disk ds)) <= 2 ^ 31 ->
  vs !! SG_DISK_IO_NOW_IDX = Some o -> slot_state Kdisk_io o w -> wf_heap w ->
  (AFail ∉ e_allocs (w_env w)) ->
  wp sg_get_disk_io_stats (disk_snapshot ds) (mk_comp (Some vs) w).
Proof.
  intros Hf HF Hlen Hvs Ho Hw Hna. rewrite <- disk_entries_length in Hlen by done.
  apply (wp_multi_access Kdisk_io _ _ _ o vs _ _ Hvs Ho Hw Hna (disk_io_fills _ Hf (disk_file_text ds HF) Hlen)).
  rewrite disk_items_of by done. intros l' v' w' Hv' Hi Hct Hl' _ _ _. split; [cbn; by rewrite length_fmap|].
  exists l', v'. by split_and!.
Qed.

Lemma disk_entries_named c :
  all_chars not_nul c = true -> all_named Kdisk_io (disk_io_item <$> diskstats_entries c).
Proof.
  intros Hc. apply Forall_fmap, Forall_forall. intros e He.
  apply list_elem_of_omap in He as (line & Hline & Hd).
  destruct e as [[name r] w]. cbn.
  eapply (diskstats_line_text line (name, r, w)); [|done]. by eapply file_lines_chars.
Qed.

Lemma disk_entries_unique c :
  NoDup ((fun e => e.1.1) <$> diskstats_entries c) ->
  unique_names Kdisk_io (disk_io_item <$> diskstats_entries c).
Proof.
  intros HN. apply keys_unique. rewrite <- list_fmap_compose.
  revert HN; generalize (diskstats_entries c); intros l.
  induction l as [|[[n r] w] l IH]; [constructor|].
  rewrite !fmap_cons, !NoDup_cons; intros [Hni HN]; split; [|by apply IH].
  intros (x & Hx & Hin)%list_elem_of_fmap; apply Hni, list_elem_of_fmap; exists x; split; [|done].
  destruct x as [[n' r'] w']; cbn in *; congruence.
Qed.

(** What a caller of [sg_get_disk_io_stats_diff] expects for the line of a disk
    when the readings [last] were taken before: the bytes read and written and the
    seconds passed since, or all bytes for a disk that was not there. *)
Definition transferred (last : list sg_disk_io_stats) (d : disk_line) : sg_disk_io_stats :=
  match list_find (fun s => dio_disk_name s = CStr (dl_name d)) last with
  | Some (_, s) =>
      mk_disk_io_stats (CStr (dl_name d)) ((512 * dl_sectors_read d - dio_read_bytes s) mod 2 ^ 64)
        ((512 * dl_sectors_written d - dio_write_bytes s) mod 2 ^ 64) (s64 (sys_time - dio_systime s))
  | None => disk_reading d
  end.

Lemma find_same_disk name r w last :
  list_find (fun l => item_same Kdisk_io l (disk_io_item (name, r, w)) = true) (IDiskIo <$> last)
    = prod_map id IDiskIo <$> list_find (fun s => dio_disk_name s = CStr name) last.
Proof.
  induction last as [|s last IH]; [done|]. cbn [list_find fmap list_fmap].
  assert (item_same Kdisk_io (IDiskIo s) (disk_io_item (name, r, w)) = true
            <-> dio_disk_name s = CStr name) as Hiff.
  { unfold item_same. rewrite bool_decide_eq_true. cbn. split; [by intros [= ->] | by intros ->]. }
  destruct (decide (dio_disk_name s = CStr name)) as [Heq|Hne].
  - by rewrite decide_True by (by apply Hiff).
  - rewrite decide_False by (by rewrite Hiff). setoid_rewrite IH.
    by destruct (list_find _ last) as [[i x]|].
Qed.

Lemma diff_item_transferred last d :
  diff_item Kdisk_io (IDiskIo <$> last) (IDiskIo (disk_reading d)) = IDiskIo (transferred last d).
Proof.
  unfold diff_item, transferred. change (@same_name _ _) with (@item_same).
  rewrite <- disk_item_of, find_same_disk, disk_item_of.
  destruct (list_find _ last) as [[i s]|]; cbn; [|done].
  unfold sg_disk_io_stats_item_compute_diff; cbn. unfold wrap. by rewrite !Zminus_mod_idemp_l.
Qed.

(** The result of [sg_get_disk_io_stats_diff] after the readings [last], and the
    readings that are kept. *)
Definition disk_difference (ds : list disk_line) (last : list sg_disk_io_stats) (r : vptr * Z) (st : comp)
    : Prop :=
  let disks := filter dl_is_disk ds in
  r.2 = Z.of_nat (length disks) /\
  (exists d v, r.1 = Some d /\ w_vecs (c_world st) !! d = Some v /\ wf_vec v /\
     contents v = (fun d => IDiskIo (transferred last d)) <$> disks) /\
  (exists vs n v, c_vectors st = Some vs /\ vs !! SG_DISK_IO_NOW_IDX = Some (Some n) /\
     w_vecs (c_world st) !! n = Some v /\ contents v = (fun d => IDiskIo (disk_reading d)) <$> disks).

Lemma disk_readings_named (last : list sg_disk_io_stats) :
  Forall (fun s => is_text (dio_disk_name s) = true) last -> all_named Kdisk_io (IDiskIo <$> last).
Proof. intros HF. by apply Forall_fmap. Qed.

Lemma disk_readings_unique (last : list sg_disk_io_stats) :
  NoDup (dio_disk_name <$> last) -> unique_names Kdisk_io (IDiskIo <$> last).
Proof.
  intros HN. apply keys_unique. rewrite <- list_fmap_compose.
  replace (_ <$> last) with ((fun p => Some [p]) <$> (dio_disk_name <$> last))
    by (rewrite <- list_fmap_compose; by apply list_fmap_ext).
  apply NoDup_fmap_2; [|done]. by intros ? ? [= ->].
Qed.

(** C5: [sg_get_disk_io_stats_diff] after earlier readings of at least one disk:
    for every disk of a /proc/diskstats that lists at least one, with different
    names, the bytes read and written since, modulo 2^64 (all bytes for a disk that
    is new), in the order of the file; the new readings are kept for the next call.
    Memory must last. *)
Theorem disk_io_diff_since_last ds last n od nv vs w :
  sys_file "/proc/diskstats" = Some (disk_file ds) -> Forall dl_ok ds ->
  1 <= Z.of_nat (length (filter dl_is_disk ds)) <= 2 ^ 31 ->
  NoDup (dl_name <$> filter dl_is_disk ds) ->
  vs !! SG_DISK_IO_NOW_IDX = Some (Some n) -> vs !! SG_DISK_IO_DIFF_IDX = Some od ->
  w_vecs w !! n = Some nv -> wf_vec nv -> info nv = VECTOR_INIT_INFO Kdisk_io ->
  1 <= used_count nv -> Z.of_nat (length (data nv)) <= 2 ^ 31 ->
  contents nv = IDiskIo <$> last ->
  Forall (fun s => is_text (dio_disk_name s) = true) last -> NoDup (dio_disk_name <$> last) ->
  od <> Some n -> slot_state Kdisk_io od w -> wf_heap w -> (AFail ∉ e_allocs (w_env w)) ->
  wp sg_get_disk_io_stats_diff (disk_difference ds last) (mk_comp (Some vs) w).
Proof.
  intros Hf HF Hlen HN Hn Hd Hnv Hwf Hi Hu Hsz Hlast Hnn Hnu Hne Hs Hw Hna.
  pose proof (disk_file_text ds HF) as Hc. rewrite <- disk_entries_length in Hlen by done.
  assert (NoDup ((fun e => e.1.1) <$> diskstats_entries (disk_file ds))) as HN'.
  { rewrite diskstats_entries_of, <- list_fmap_compose by done. exact HN. }
  assert (diff_input Kdisk_io nv (disk_io_item <$> diskstats_entries (disk_file ds))) as Hin.
  { split; rewrite ?length_fmap, ?Hlast;
      auto using disk_entries_named, disk_entries_unique, disk_readings_named, disk_readings_unique. }
  assert (Z.of_nat (length (diskstats_entries (disk_file ds))) <= 2 ^ 31) as Hlen' by lia.
  apply (wp_multi_diff Kdisk_io _ _ _ _ n od nv vs _ _ Hin Hnv Hw Hna
           (disk_io_fills _ Hf Hc Hlen')); [done | done | done | done | done | done |].
  rewrite disk_items_of by done.
  intros n' d' v' w' vs' Hv' Hct Hl' (v2 & Hv2 & Hc2) ->. split_and!; [cbn; by rewrite length_fmap | |].
  - exists d', v'. split_and!; [done.. |]. rewrite Hct, Hlast.
    change (@map ?A ?B) with (@fmap list _ A B). rewrite <- list_fmap_compose.
    apply list_fmap_ext. intros _ e _. apply diff_item_transferred.
  - eexists _, n', v2. split_and!; [done | | done | done].
    rewrite list_lookup_insert_ne by done. apply list_lookup_insert_eq. by eapply lookup_lt_Some.
Qed.
End counters.

Definition demo_comp : comp :=
  mk_comp (Some [None; None; Some 1%positive; Some 3%positive]) demo_world.

Lemma demo_slot o v :
  w_vecs demo_world !! o = Some v -> wf_vec v -> info v = VECTOR_INIT_INFO Kdisk_io ->
  slot_state Kdisk_io (Some o) demo_world.
Proof. intros. exists v. by split_and!. Qed.

(** Two disks and a partition of an old kernel. *)
Definition demo_disks : list disk_line :=
  [mk_disk_line "   " 8 "       " 0 "sda" [120; 4; 4096; 80; 60; 7; 2048; 90; 0; 70; 170];
   mk_disk_line "   " 8 "       " 1 "sda1" [120; 4096; 60; 2048];
   mk_disk_line "   " 8 "      " 16 "sdb" [10; 0; 100; 5; 0; 0; 0; 0; 0; 5; 5]].

Definition disks_system : System :=
  {| sys_file := fun p => if String.eqb p "/proc/diskstats" then Some (disk_file demo_disks) else None;
     sys_open_errno := fun _ => 2; sys_time := 1000; sys_page_size := 4096 |}.

Lemma demo_disks_ok : Forall dl_ok demo_disks.
Proof.
  repeat (apply Forall_cons; split; [split; try done; try (cbn; lia); repeat constructor; by vm_compute|]).
  by apply Forall_nil.
Qed.

Lemma disk_io_is_diskstats_witness :
  dl_name <$> filter dl_is_disk demo_disks = ["sda"; "sdb"] /\
  wp (@sg_get_disk_io_stats _ disks_system) (@disk_snapshot _ disks_system demo_disks) demo_comp.
Proof.
  split; [reflexivity|].
  apply (@disk_io_is_diskstats _ disks_system demo_disks (Some 1%positive) _ demo_world).
  - reflexivity.
  - apply demo_disks_ok.
  - vm_compute. (split; discriminate) || discriminate.
  - reflexivity.
  - apply (demo_slot _ demo_now); [reflexivity | apply demo_now_wf | reflexivity].
  - apply demo_heap.
  - apply not_elem_of_nil.
Defined.

(** Of a disk that was not there before everything counts. *)
Lemma disk_io_diff_since_last_witness :
  @transferred disks_system (as_disk_io <$> contents demo_now) (mk_disk_line "" 8 " " 3 "sdc" [0; 0; 5; 0; 0; 0; 7])
    = mk_disk_io_stats (CStr "sdc") 2560 3584 1000 /\
  wp (@sg_get_disk_io_stats_diff _ disks_system)
     (@disk_difference _ disks_system demo_disks (as_disk_io <$> contents demo_now)) demo_comp.
Proof.
  split; [reflexivity|].
  apply (@disk_io_diff_since_last _ disks_system demo_disks (as_disk_io <$> contents demo_now) 1%positive
           (Some 3%positive) demo_now _ demo_world).
  - reflexivity.
  - apply demo_disks_ok.
  - vm_compute. (split; discriminate) || discriminate.
  - apply (bool_decide_eq_true_1 _). vm_compute; reflexivity.
  - reflexivity.
  - reflexivity.
  - reflexivity.
  - apply demo_now_wf.
  - reflexivity.
  - cbn. lia.
  - cbn. lia.
  - reflexivity.
  - repeat constructor.
  - apply (bool_decide_eq_true_1 _). vm_compute; reflexivity.
  - congruence.
  - apply (demo_slot _ demo_one); [reflexivity | apply demo_one_wf | reflexivity].
  - apply demo_heap.
  - apply not_elem_of_nil.
Defined.

(** * Valid file system types *)

Definition fs_le (a b : char_ptr) : Prop := cmp_fs_ptr a b <= 0.

Lemma cmp_fs_total a b : cmp_fs_ptr a b <= 0 \/ cmp_fs_ptr b a <= 0.
Proof.
  unfold cmp_fs_ptr, cmp_valid_fs. destruct (name_of a), (name_of b); try lia.
  apply strcmp_total.
Qed.

#[export] Instance fs_le_trans : Transitive fs_le.
Proof.
  intros a b c. unfold fs_le, cmp_fs_ptr, cmp_valid_fs.
  destruct (name_of a), (name_of b), (name_of c); try lia. apply strcmp_le_trans.
Qed.

(** Along the sorted list the comparison with a type never grows. *)
Lemma fs_key_mono type l :
  key_mono (fun p => cmp_valid_fs (Some type) (name_of p)) (qsort cmp_fs_ptr l).
Proof.
  apply (key_mono_sorted fs_le).
  - apply qsort_sorted, cmp_fs_total.
  - intros x y. unfold fs_le, cmp_fs_ptr, cmp_valid_fs.
    destruct (name_of x), (name_of y); try lia. unfold strcasecmp. intros Hle.
    pose proof (strcmp_mono (map_string tolower type) _ _ Hle). lia.
Qed.

Section valid.
Context {mem : Memory}.

Lemma wp_copy_names names (Q : sg_error * list char_ptr -> env -> Prop) e :
  Forall (fun n => no_nul n = true) names -> (AFail ∉ e_allocs e) ->
  (forall e', calmer e e' -> Q (SG_ERROR_NONE, CStr <$> names) e') ->
  wp (copy_names names) Q e.
Proof.
  intros HN. revert Q e. induction HN as [|n ns Hn HN IH]; intros Q e Ha HQ.
  { apply wp_ret, HQ. reflexivity. }
  cbn [copy_names]. apply wp_bind, IH; [done|]. intros e1 H1. cbn [fst snd].
  rewrite decide_False by auto. apply wp_bind, wp_sg_update_string; [done | done | |].
  - intros e2 H2. cbn [fst snd]. rewrite decide_False by auto. apply wp_ret, HQ. by trans e1.
  - intros HA. by apply H1 in HA.
Qed.

Lemma wp_free_names l (Q : unit -> env -> Prop) e :
  Forall (fun p => ptr_live p = true) l -> Q tt e -> wp (free_names l) Q e.
Proof.
  intros HF. revert Q e. induction HF as [|p l Hp HF IH]; intros Q e HQ; [by apply wp_ret|].
  cbn. apply wp_bind, wp_free_ptr; [done|]. intros p' _. by apply IH.
Qed.

(** The list a previous call left: NULL, or live names. *)
Definition valid_fs_ok (vf : valid_fs) : Prop :=
  match vf_list vf with Some l => Forall (fun p => ptr_live p = true) l | None => True end.

(** The list a successful call stores. *)
Definition stored_fs (names : list string) : valid_fs :=
  mk_valid_fs (Some (qsort cmp_fs_ptr (CStr <$> names))) (length (CStr <$> names)).

Lemma wp_set_valid names vf (Q : sg_error * valid_fs -> env -> Prop) e :
  names <> [] -> Forall (fun n => no_nul n = true) names -> valid_fs_ok vf ->
  (AFail ∉ e_allocs e) -> (forall e', Q (SG_ERROR_NONE, stored_fs names) e') ->
  wp (sg_set_valid_filesystems (Some names) vf) Q e.
Proof.
  intros Hne HN Hvf Ha HQ. destruct names as [|n ns]; [done|].
  apply wp_bind, wp_bind, wp_alloc_request; [done|]. intros c e1 Hc H1.
  destruct c; [done| |]; (apply wp_bind, wp_copy_names; [done | by intros ?%H1 |]);
    intros e2 _; cbn [fst snd]; rewrite decide_False by auto; apply wp_ret, wp_bind;
    unfold valid_fs_ok in Hvf; (destruct (vf_list vf);
      [apply wp_free_names; [by apply Forall_take|] | apply wp_ret]); apply wp_ret, HQ.
Qed.

Lemma is_valid_stored names type :
  exists b, is_valid_fs_type (stored_fs names) type = mret b /\
            (b = true <-> exists n, n ∈ names /\ strcasecmp type n = 0).
Proof.
  eexists; split; [reflexivity|]. rewrite bool_decide_eq_true. cbn [stored_fs vf_num vf_list].
  rewrite firstn_all2 by (by rewrite qsort_perm).
  pose proof (bsearch_spec _ _ (fs_key_mono type (CStr <$> names))) as Hb.
  destruct (bsearch _ _) as [i|].
  - split; [|by eauto]. intros _. destruct Hb as (x & Hx & Hz).
    apply list_elem_of_lookup_2 in Hx. rewrite qsort_perm in Hx.
    apply list_elem_of_fmap in Hx as (m & -> & Hm). eauto.
  - split; [by intros []|]. intros (m & Hm & Hz). destruct (Hb (CStr m)); [|done].
    rewrite qsort_perm. apply list_elem_of_fmap. eauto.
Qed.

(** After [sg_set_valid_filesystems] a type is valid exactly when one of the
    given names equals it without regard to case: the names are copied, sorted
    and found again by the binary search; the previous list is released. *)
Theorem valid_fs_membership names type vf e :
  names <> [] -> Forall (fun n => no_nul n = true) names -> valid_fs_ok vf ->
  (AFail ∉ e_allocs e) ->
  wp (r ← sg_set_valid_filesystems (Some names) vf;
      ok ← is_valid_fs_type r.2 type; mret (r.1, ok))
     (fun r _ => r.1 = SG_ERROR_NONE /\
        (r.2 = true <-> exists n, n ∈ names /\ strcasecmp type n = 0)) e.
Proof.
  intros Hne HN Hvf Ha. apply wp_bind, wp_set_valid; [done..|]. intros e'.
  cbn [fst snd]. destruct (is_valid_stored names type) as (b & -> & Hb).
  apply wp_bind, wp_ret, wp_ret. done.
Qed.
End valid.

Lemma valid_fs_membership_witness :
  wp (r ← sg_set_valid_filesystems (Some ["xfs"; "ext4"; "NFS"]) (mk_valid_fs None 0);
      ok ← is_valid_fs_type r.2 "nfs"; mret (r.1, ok))
     (fun r _ => r.1 = SG_ERROR_NONE /\
        (r.2 = true <-> exists n, n ∈ ["xfs"; "ext4"; "NFS"] /\ strcasecmp "nfs" n = 0)) demo_env.
Proof.
  apply valid_fs_membership; [done | by repeat constructor | done | apply not_elem_of_nil].
Defined.
