(* ===== verification/ToolsProps.v ===== *)
(** The theorems about error.c and tools.c: error records and their messages,
    string helpers, reading lines, the Solaris device mapping and privileges. *)

From S2P Require Import Prelude Types CLib Errors Tools Stdio ToolsExt.

(** * Errors *)

(** C32: what an error-setting call recorded is what [sg_get_error_details] and the
    three accessors return, before and after the library is initialised; the
    argument is cut to the 4095 characters its buffer holds, and the record of a
    thread that has one is never mixed up with the static one. *)
Theorem error_record_roundtrip code arg e :
  wp (_ ← sg_set_error_with_errno_fmt code (Some arg);
      d ← sg_get_error_details true; c ← sg_get_error; a ← sg_get_error_arg;
      n ← sg_get_error_errno; mret (d, c, a, n))
     (fun r e' =>
        r = (SG_ERROR_NONE,
             Some (mk_error_details code (e_errno e) (Some (vsnprintf ERROR_ARG_MAX arg))),
             code, vsnprintf ERROR_ARG_MAX arg, e_errno e) /\
        (String.length (vsnprintf ERROR_ARG_MAX arg) <= 4095)%nat /\
        (is_Some (e_tls e) -> e_pre e' = e_pre e) /\ (e_tls e = None -> e_tls e' = None)) e.
Proof.
  destruct e as [al er [g|] pre]; (unfold wp; cbn -[vsnprintf ERROR_ARG_MAX];
    split_and!; [done | apply vsnprintf_length | by intros [] | done]).
Qed.

Lemma all_errors_complete c : c ∈ all_errors.
Proof. apply (bool_decide_eq_true_1 _). by destruct c. Qed.

Lemma messages_distinct : NoDup (sg_str_error <$> all_errors).
Proof. apply (bool_decide_eq_true_1 _). by vm_compute. Qed.

(** No two error codes have the same message, so that a message determines its
    code. *)
Theorem str_error_injective c c' : sg_str_error c = sg_str_error c' -> c = c'.
Proof.
  intros E.
  destruct (proj1 (list_elem_of_lookup _ _) (all_errors_complete c)) as [i Hi].
  destruct (proj1 (list_elem_of_lookup _ _) (all_errors_complete c')) as [j Hj].
  assert (i = j) as ->; [|congruence].
  eapply (NoDup_lookup _ _ _ (sg_str_error c) messages_distinct); rewrite list_lookup_fmap;
    [by rewrite Hi | rewrite Hj; cbn; by f_equal].
Qed.

Lemma str_error_injective_witness : SG_ERROR_OPEN = SG_ERROR_OPEN.
Proof. apply str_error_injective. reflexivity. Defined.

(** The text for a record: the message of the code and, in parentheses, the argument,
    behind the message of the system when there is an errno value; none when the system
    does not know that value. *)
Definition error_text (strerror_r : Z -> option string) (d : sg_error_details) : option string :=
  let arg := match ed_error_arg d with Some a => a | None => "" end in
  if decide (ed_errno_value d = 0) then Some (sg_str_error (ed_error d) +:+ " (" +:+ arg +:+ ")")
  else
    match strerror_r (ed_errno_value d) with
    | Some m => Some (sg_str_error (ed_error d) +:+ " (" +:+ m +:+ ": " +:+ arg +:+ ")")
    | None => None
    end.

(** C33: [sg_strperror] into a pointer that is NULL allocates the text for the record, cut
    to the 1023 characters that fit the block of 1024 bytes with the terminator. It
    returns NULL, with SG_ERROR_MALLOC recorded, only for a failed allocation or an errno
    value the system does not know. A NULL argument and a pointer that is not NULL,
    whatever it points to, are refused as an invalid argument. *)
Theorem strperror_bounded strerror_r buf d e :
  wp (sg_strperror strerror_r buf (Some d))
     (fun p e' =>
        match buf with
        | Some CNull =>
            match p with
            | CStr s => (String.length s <= 1023)%nat /\
                        exists t, error_text strerror_r d = Some t /\ s = String.substring 0 1023 t
            | CNull => failed_alloc e' /\ (AFail ∈ e_allocs e \/ error_text strerror_r d = None)
            | _ => False
            end
        | _ => p = CNull /\ eg_error (sg_get_error_glob e') = SG_ERROR_INVALID_ARGUMENT
        end) e.
Proof.
  assert (forall b : option char_ptr, b <> Some CNull ->
    wp (sg_strperror strerror_r b (Some d))
      (fun p e' => p = CNull /\ eg_error (sg_get_error_glob e') = SG_ERROR_INVALID_ARGUMENT) e) as Href.
  { intros b Hb. assert (wp (_ ← sg_set_error_int SG_ERROR_INVALID_ARGUMENT 0 (Some "strperror"); mret CNull)
      (fun p e' => p = CNull /\ eg_error (sg_get_error_glob e') = SG_ERROR_INVALID_ARGUMENT) e) as H.
    { apply wp_bind. unfold wp, sg_set_error_int. split; [done|]. by rewrite get_put_error_glob. }
    by destruct b as [[]|]. }
  destruct buf as [[| | |]|]; try by apply Href.
  apply wp_bind, wp_ret, wp_bind, wp_alloc_request.
  - intros Ha e'. apply wp_bind. unfold wp. cbn. unfold failed_alloc. rewrite get_put_error_glob. auto.
  - intros c e' Hc _. unfold error_text.
    assert (forall t, wp (mret (CStr (vsnprintf SG_STRPERROR_BUF_SIZE t))) (fun p e2 =>
      match p with
      | CStr s => (String.length s <= 1023)%nat /\ exists t', Some t = Some t' /\ s = String.substring 0 1023 t'
      | CNull => failed_alloc e2 /\ (AFail ∈ e_allocs e \/ Some t = None)
      | _ => False
      end) e') as Hfin.
    { intros t. apply wp_ret. split; [apply vsnprintf_length|]. by exists t. }
    destruct c; [done| |]; (case_decide as Hz; [rewrite Hz; apply Hfin|]);
      rewrite (proj2 (Z.eqb_neq _ _) Hz);
      (destruct (strerror_r (ed_errno_value d)); [apply Hfin|]);
      apply wp_bind, wp_gets, wp_bind; unfold wp; cbn; unfold failed_alloc; rewrite get_put_error_glob; auto.
Qed.

(** * Strings *)

(** [strlcpy] into a buffer of at least [siz] bytes copies the first [siz - 1]
    characters at most, always terminates the destination, stays inside it and
    returns the length of the source. *)
Theorem strlcpy_contract t rest old siz :
  NUL ∉ t -> (0 < siz)%nat -> (siz <= length old)%nat ->
  exists b, strlcpy old (t ++ NUL :: rest) siz = Some (b, length t) /\
            length b = length old /\ until_nul b = Some (take (siz - 1) t).
Proof.
  intros Ht H0 Hs. destruct (strlcpy_spec t rest old siz Ht H0 Hs) as (tail & Hl & ->).
  eexists; split; [done|]. split.
  - rewrite length_app, length_take. cbn. lia.
  - apply until_nul_app. intros Hin. apply Ht. rewrite <- (take_drop (siz - 1) t). set_solver.
Qed.

Lemma strlcpy_contract_witness :
  exists b, strlcpy (replicate 4 "x"%char) (String.list_ascii_of_string "hello" ++ NUL :: []) 4
              = Some (b, length (String.list_ascii_of_string "hello")) /\
            length b = length (replicate 4 "x"%char) /\
            until_nul b = Some (take (4 - 1) (String.list_ascii_of_string "hello")).
Proof. apply strlcpy_contract; [by apply (bool_decide_eq_true_1 _) | lia | cbn; lia]. Defined.

(** C31: [sg_update_string] on a field that is NULL or owns a text either succeeds
    and leaves exactly the new text (NULL for a NULL source), or, only when the
    allocator fails, returns SG_ERROR_MALLOC and keeps the old text. *)
Theorem update_string_contract junk dest src e :
  ptr_ok dest = true -> src_ok src = true ->
  wp (sg_update_string junk dest src)
     (fun r e' => r = (SG_ERROR_NONE, as_ptr src) \/
        (r = (SG_ERROR_MALLOC, dest) /\ AFail ∈ e_allocs e /\ failed_alloc e')) e.
Proof.
  intros Hd Hs. apply wp_sg_update_string; [done | done | by left |]. intros; right; by split_and!.
Qed.

Definition tools_env : env := mk_env [AMove; AFail] 0 (Some error_glob_zero) error_glob_zero.

Lemma update_string_contract_witness :
  wp (sg_update_string "x"%char (CStr "sda1") (Some "/dev/mapper/root"))
     (fun r e' => r = (SG_ERROR_NONE, as_ptr (Some "/dev/mapper/root")) \/
        (r = (SG_ERROR_MALLOC, CStr "sda1") /\ AFail ∈ e_allocs tools_env /\ failed_alloc e'))
     tools_env.
Proof. apply update_string_contract; reflexivity. Defined.

(** * Lines *)

Lemma lines_fuel_concat size : (2 <= size)%nat -> forall fuel f,
  (String.length f <= fuel)%nat -> concat_lines (lines_fuel fuel size f) = f.
Proof.
  intros Hs fuel. induction fuel as [|fuel IH]; intros f Hf.
  - by destruct f; cbn in *; [|lia].
  - destruct f as [|c f]; [done|].
    assert (String.length (take_line (size - 1) (String c f)).2 < String.length (String c f))%nat as Hp
      by (apply take_line_progress; [lia | done]).
    pose proof (take_line_append (size - 1) (String c f)) as Ha.
    cbn [lines_fuel fgets]. destruct (take_line (size - 1) (String c f)) as [l r]. cbn [fst snd] in *.
    cbn [concat_lines foldr]. fold concat_lines. by rewrite IH by lia.
Qed.

(** Reading a file line by line with [fgets] and a buffer of any size from two
    characters up loses nothing and reads nothing twice, also when lines are longer
    than the buffer; the loop ends. *)
Theorem read_lines_lossless size f :
  (2 <= size)%nat -> concat_lines (file_lines size f) = f.
Proof. intros Hs. by apply lines_fuel_concat. Qed.

Lemma read_lines_lossless_witness :
  concat_lines (file_lines 4 "abcdefg") = "abcdefg" /\ length (file_lines 4 "abcdefg") = 3%nat.
Proof. split; [apply read_lines_lossless; lia | reflexivity]. Defined.

(** [sg_f_read_line] returns a line of the file that starts with the wanted
    prefix, whatever the size of the buffer, and the file is positioned behind it;
    when it returns nothing no line starts with the prefix. *)
Theorem f_read_line_finds size prefix f :
  (2 <= size)%nat ->
  match sg_f_read_line f size prefix with
  | Some (l, r) => String.prefix prefix l = true /\ l ∈ file_lines size f /\
                   exists before, f = before +:+ (l +:+ r)
  | None => forall l, l ∈ file_lines size f -> String.prefix prefix l = false
  end.
Proof.
  intros Hs. unfold sg_f_read_line, file_lines.
  assert (forall fuel f,
    match read_line_loop fuel size prefix f with
    | Some (l, r) => String.prefix prefix l = true /\ l ∈ lines_fuel fuel size f /\
                     exists before, f = before +:+ (l +:+ r)
    | None => forall l, l ∈ lines_fuel fuel size f -> String.prefix prefix l = false
    end) as H; [|apply H].
  clear f. induction fuel as [|fuel IH]; intros f; cbn [read_line_loop lines_fuel].
  { intros l Hl. by apply not_elem_of_nil in Hl. }
  destruct (fgets size f) as [[l r]|] eqn:E; [|intros l Hl; by apply not_elem_of_nil in Hl].
  assert (f = l +:+ r) as Hf.
  { destruct f; [done|]. cbn [fgets] in E. injection E as E.
    rewrite <- (take_line_append (size - 1) (String a f)), E. done. }
  pose proof (strncmp_prefix prefix l) as Hp.
  destruct (Z.eqb_spec (strncmp prefix l (String.length prefix)) 0) as [Ez|Ez].
  - split_and!; [by apply Hp | left | by exists EmptyString].
  - specialize (IH r). destruct (read_line_loop fuel size prefix r) as [[l' r']|].
    + destruct IH as (? & ? & before & Hb). split_and!; [done | by right |].
      exists (l +:+ before). by rewrite string_app_assoc, <- Hb.
    + intros x [->|Hx]%elem_of_cons; [|by apply IH].
      destruct (String.prefix prefix l); [|done]. by destruct Ez; apply Hp.
Qed.

Lemma f_read_line_finds_witness :
  match sg_f_read_line "cpu 1 2 page 3 4" 6 "page" with
  | Some (l, r) => String.prefix "page" l = true /\ l ∈ file_lines 6 "cpu 1 2 page 3 4" /\
                   exists before, "cpu 1 2 page 3 4" = before +:+ (l +:+ r)
  | None => forall l, l ∈ file_lines 6 "cpu 1 2 page 3 4" -> String.prefix "page" l = false
  end.
Proof. apply f_read_line_finds. lia. Defined.

(** * Numbers *)

Lemma digit_val_range c : isdigit c = true -> 0 <= digit_val c <= 9.
Proof. unfold isdigit, digit_val. intros [? ?]%andb_true_iff. lia. Qed.

Lemma digits_acc_ge v t : 0 <= v -> all_chars isdigit t = true -> v <= digits_acc v t.
Proof.
  revert v. induction t as [|c t IH]; intros v Hv Ht; [done|]. simpl in *.
  apply andb_true_iff in Ht as [Hc Ht]. pose proof (digit_val_range c Hc).
  etrans; [|apply IH]; [lia | lia | done].
Qed.

(** The loop of the fallback computes the number as long as it fits. *)
Lemma atoll_loop_digits v t r :
  0 <= v -> all_chars isdigit t = true -> digits_acc v t < 2 ^ 63 ->
  match r with EmptyString => True | String c _ => isdigit c = false end ->
  atoll_loop v (t +:+ r) = digits_acc v t.
Proof.
  revert v. induction t as [|c t IH]; intros v Hv Ht Hb Hr.
  - change (EmptyString +:+ r) with r. destruct r as [|c r]; [done|].
    cbn [atoll_loop digits_acc]. by rewrite Hr.
  - cbn [all_chars digits_acc] in *. change (String c t +:+ r) with (String c (t +:+ r)).
    cbn [atoll_loop]. apply andb_true_iff in Ht as [Hc Ht]. rewrite Hc.
    pose proof (digit_val_range c Hc).
    assert (v * 10 + digit_val c <= digits_acc (v * 10 + digit_val c) t)
      by (apply digits_acc_ge; [lia | done]).
    rewrite (swrap_small 64 (10 * v)) by lia. rewrite swrap_small by lia.
    replace (10 * v + digit_val c) with (v * 10 + digit_val c) by lia. apply IH; (done || lia).
Qed.

Lemma skip_white_space sp s :
  all_chars isspace sp = true -> match s with EmptyString => True | String c _ => isspace c = false end ->
  skip_white (sp +:+ s) = s.
Proof. intros. unfold skip_white. by rewrite take_while_app. Qed.

(** The [atoll] that tools.c supplies agrees with the C library's on every
    decimal number that fits a [long long], with leading white space and an
    optional minus sign. *)
Theorem atoll_agrees sp z r :
  all_chars isspace sp = true -> 0 <= z < 2 ^ 63 ->
  match r with EmptyString => True | String c _ => isdigit c = false end ->
  let pos := sp +:+ (print_unsigned z +:+ r) in
  let neg := sp +:+ String "-" (print_unsigned z +:+ r) in
  atoll pos = z /\ libc_atoll pos = z /\ atoll neg = - z /\ libc_atoll neg = - z.
Proof.
  intros Hsp Hz Hr. destruct (print_unsigned_digits z) as (Hd & Hv & Hne); [lia|].
  assert (atoll_loop 0 (print_unsigned z +:+ r) = z) as Hloop.
  { rewrite atoll_loop_digits; try done; unfold digits_val in Hv; lia. }
  assert (forall neg, to_signed neg (take_while isdigit None (print_unsigned z +:+ r)).1
            = if (neg : bool) then - z else z) as Hlibc.
  { intros neg. rewrite take_while_app by done. unfold to_signed. cbn [fst]. rewrite Hv.
    destruct neg; lia. }
  destruct (print_unsigned z) as [|c t] eqn:E; [done|].
  assert (isdigit c = true) as Hc by (simpl in Hd; by apply andb_true_iff in Hd as [? _]).
  unfold atoll, libc_atoll. cbn zeta.
  rewrite !skip_white_space by (try done; simpl; by apply digit_not_space).
  assert (take_sign (String c t +:+ r) = (false, O, String c t +:+ r)) as ->
    by (simpl; destruct c as [[] [] [] [] [] [] [] []]; done).
  split_and!.
  - destruct c as [[] [] [] [] [] [] [] []]; try done; exact Hloop.
  - apply (Hlibc false).
  - rewrite Hloop. apply swrap_small; lia.
  - apply (Hlibc true).
Qed.

Lemma atoll_agrees_witness :
  atoll ("  " +:+ (print_unsigned 8192 +:+ " kB")) = 8192.
Proof. apply (atoll_agrees "  " 8192 " kB"); [reflexivity | lia | reflexivity]. Defined.

(** * Solaris device names *)

(** After [add_mapping] of a pair of new names the BSD name is translated to its
    SVR name, every other name as before; a pair of which one name is known leaves
    the mapping alone. A name without a mapping stands for itself. *)
Theorem mapping_roundtrip junk l bsd svr x e :
  no_nul bsd = true -> no_nul svr = true -> (AFail ∉ e_allocs e) ->
  wp (m ← add_mapping junk (mapping_of l) bsd svr;
      r1 ← sg_get_svr_from_bsd m bsd; r2 ← sg_get_svr_from_bsd m x; mret (m, r1, r2))
     (fun r _ =>
        (known_pair l bsd svr -> r.1.1 = mapping_of l) /\
        (~ known_pair l bsd svr -> r.1.2 = CStr svr) /\
        (x <> bsd -> r.2 = CStr (svr_of l x))) e.
Proof.
  intros Hb Hs Ha. apply wp_bind, wp_add_mapping; [done..| |]; intros e' _ Hk;
    apply wp_bind, wp_get_svr, wp_bind, wp_get_svr, wp_ret; split_and!; cbn; try done.
  - intros _. by rewrite svr_of_app_new.
  - intros Hx. by rewrite svr_of_app_other.
Qed.

Lemma mapping_roundtrip_witness :
  wp (m ← add_mapping "x"%char (mapping_of [("sd0", "c0t0d0")]) "sd1" "c0t1d0";
      r1 ← sg_get_svr_from_bsd m "sd1"; r2 ← sg_get_svr_from_bsd m "sd9"; mret (m, r1, r2))
     (fun r _ =>
        (known_pair [("sd0", "c0t0d0")] "sd1" "c0t1d0" -> r.1.1 = mapping_of [("sd0", "c0t0d0")]) /\
        (~ known_pair [("sd0", "c0t0d0")] "sd1" "c0t1d0" -> r.1.2 = CStr "c0t1d0") /\
        ("sd9" <> "sd1" -> r.2 = CStr (svr_of [("sd0", "c0t0d0")] "sd9")))
     (mk_env [] 0 None error_glob_zero).
Proof. apply mapping_roundtrip; [reflexivity | reflexivity | apply not_elem_of_nil]. Defined.

(** * Privileges *)

(** [sg_drop_privileges] never touches the real ids and never leaves effective
    ids other than the old or the real ones; it reports success exactly when both
    effective ids are the real ones, and the group goes first, so that a failure
    to change it leaves the user id alone. *)
Theorem drop_privileges_safe ok_gid ok_uid i e :
  wp (sg_drop_privileges ok_gid ok_uid i)
     (fun r e' =>
        id_uid r.2 = id_uid i /\ id_gid r.2 = id_gid i /\
        (id_euid r.2 = id_euid i \/ id_euid r.2 = id_uid i) /\
        (id_egid r.2 = id_egid i \/ id_egid r.2 = id_gid i) /\
        (r.1 = SG_ERROR_NONE -> id_euid r.2 = id_uid i /\ id_egid r.2 = id_gid i) /\
        (ok_gid = false -> r = (SG_ERROR_SETEGID, i) /\ eg_error (sg_get_error_glob e') = SG_ERROR_SETEGID) /\
        (ok_gid = true -> ok_uid = false ->
         r.1 = SG_ERROR_SETEUID /\ id_euid r.2 = id_euid i /\ id_egid r.2 = id_gid i)) e.
Proof.
  destruct i, e as [al er [g|] pre], ok_gid, ok_uid; unfold wp; cbn; split_and!; auto; done.
Qed.
