(* ===== verification/CounterProps.v ===== *)
(** The theorems about the components with one structure (memory_stats.c,
    swap_stats.c, page_stats.c, cpu_stats.c) and about the arithmetic of counters. *)

From S2P Require Import Prelude Types CLib Errors Tools Vector VectorSpec VectorDiff Items Comp Easy Stdio ToolsExt Single Cpu Demo.

Local Open Scope sg_scope.

(** * The text of /proc/meminfo *)

(** An entry: name, padding and the number of kilobytes. *)
Record meminfo_entry := mk_entry { me_name : string; me_pad : string; me_value : Z }.

Definition colon : string := ":".

Definition meminfo_line (m : meminfo_entry) : string :=
  (me_name m +:+ colon) +:+ (me_pad m +:+ (print_unsigned (me_value m) +:+
    (" kB" +:+ String newline EmptyString))).

Definition name_char (c : ascii) : bool := not_space c && negb (bool_decide (c = ":"%char)).

Record entry_ok (m : meminfo_entry) : Prop := {
  eo_name : all_chars name_char (me_name m) = true;
  eo_pad : all_chars isspace (me_pad m) = true;
  eo_pad_some : me_pad m <> EmptyString;
  eo_value : 0 <= me_value m < 2 ^ 54;
  eo_short : short_line 256 (meminfo_line m) }.

(** The value of the last entry with the name. *)
Fixpoint last_val (name : string) (ms : list meminfo_entry) (old : Z) : Z :=
  match ms with
  | [] => old
  | m :: ms' => last_val name ms' (if decide (me_name m = name) then me_value m else old)
  end.

Definition meminfo_text (ms : list meminfo_entry) : string := concat_lines (meminfo_line <$> ms).

Lemma name_colon_space s : all_chars name_char s = true -> all_chars not_space (s +:+ colon) = true.
Proof.
  induction s as [|c s IH]; [done|]. cbn [all_chars]. intros [Hc Hs]%andb_true_iff.
  change (String c s +:+ colon) with (String c (s +:+ colon)). cbn [all_chars].
  apply andb_true_iff in Hc as [-> _]. by rewrite IH.
Qed.

Lemma at_blank_pad pad r : all_chars isspace pad = true -> pad <> EmptyString -> at_blank (pad +:+ r).
Proof.
  destruct pad as [|c pad]; [done|]. cbn [all_chars]. intros [Hc _]%andb_true_iff _. exact Hc.
Qed.

Lemma name_colon_some s : s +:+ colon <> EmptyString.
Proof. by destruct s. Qed.

Lemma meminfo_scan m :
  entry_ok m ->
  sscanf (meminfo_line m) "%*s %lld kB" = (1, [VInt (me_value m)]) /\
  sscanf (meminfo_line m) "%*s %llu kB" = (1, [VInt (me_value m)]).
Proof.
  intros [Hn Hp Hps Hv _]. unfold sscanf, meminfo_line.
  change (parse_format (String.length "%*s %lld kB") "%*s %lld kB")
    with [DConv true None 32 Cs; DWhite; DConv false None 64 Cd; DWhite; DLit "k"%char; DLit "B"%char].
  change (parse_format (String.length "%*s %llu kB") "%*s %llu kB")
    with [DConv true None 32 Cs; DWhite; DConv false None 64 Cu; DWhite; DLit "k"%char; DLit "B"%char].
  rewrite !scan_skip_word
    by auto using name_colon_space, name_colon_some, at_blank_pad.
  rewrite scan_s64, scan_u64 by (try done; unfold in_u64; lia). done.
Qed.

(** The keyword test [strncmp(line, kw, strlen(kw)) == 0]. *)
Lemma keyword_prefix kw n r :
  all_chars name_char kw = true -> all_chars name_char n = true ->
  String.prefix (kw +:+ colon) ((n +:+ colon) +:+ r) = bool_decide (n = kw).
Proof.
  revert n. induction kw as [|c kw IH]; intros n Hk Hn.
  - destruct n as [|c n]; [by rewrite bool_decide_eq_true_2 by done; destruct r|]. cbn [all_chars] in Hn. apply andb_true_iff in Hn as [Hc _].
    unfold name_char in Hc. apply andb_true_iff in Hc as [_ Hc].
    rewrite negb_true_iff in Hc. apply bool_decide_eq_false in Hc.
    rewrite bool_decide_eq_false_2 by done.
    change (String.prefix (EmptyString +:+ colon) ((String c n +:+ colon) +:+ r))
      with (if Ascii.ascii_dec ":" c then String.prefix EmptyString ((n +:+ colon) +:+ r) else false).
    destruct (Ascii.ascii_dec ":" c); congruence.
  - cbn [all_chars] in Hk. apply andb_true_iff in Hk as [Hc Hk].
    destruct n as [|d n].
    + unfold name_char in Hc. apply andb_true_iff in Hc as [_ Hc].
      rewrite negb_true_iff in Hc. apply bool_decide_eq_false in Hc.
      rewrite bool_decide_eq_false_2 by done.
      change (String.prefix (String c kw +:+ colon) ((EmptyString +:+ colon) +:+ r))
        with (if Ascii.ascii_dec c ":" then String.prefix (kw +:+ colon) r else false).
      destruct (Ascii.ascii_dec c ":"); congruence.
    + cbn [all_chars] in Hn. apply andb_true_iff in Hn as [_ Hn].
      change (String.prefix (String c kw +:+ colon) ((String d n +:+ colon) +:+ r))
        with (if Ascii.ascii_dec c d then String.prefix (kw +:+ colon) ((n +:+ colon) +:+ r) else false).
      destruct (Ascii.ascii_dec c d) as [->|Hne].
      * rewrite IH by done. apply bool_decide_ext. split; congruence.
      * rewrite bool_decide_eq_false_2; congruence.
Qed.

Lemma keyword_test kw m :
  all_chars name_char kw = true -> all_chars name_char (me_name m) = true ->
  (strncmp (meminfo_line m) (kw +:+ colon) (String.length (kw +:+ colon)) =? 0)
    = bool_decide (me_name m = kw).
Proof.
  intros Hk Hn. unfold meminfo_line. rewrite <- (keyword_prefix kw (me_name m)
    (me_pad m +:+ (print_unsigned (me_value m) +:+ (" kB" +:+ String newline EmptyString)))) by done.
  apply Bool.eq_iff_eq_true. rewrite Z.eqb_eq, strncmp_sym. apply strncmp_prefix.
Qed.

Section meminfo.
Context {sys : System}.

Lemma mem_loop_spec ms b :
  Forall entry_ok ms ->
  linux_mem_loop (meminfo_line <$> ms) b =
    mk_mem_stats (last_val "MemTotal" ms (mem_total b)) (last_val "MemFree" ms (mem_free b))
      (mem_used b) (last_val "Cached" ms (mem_cache b)) (mem_systime b).
Proof.
  intros HF. revert b. induction HF as [|m ms Hm HF IH]; intros b; [by destruct b|].
  rewrite fmap_cons. cbn [linux_mem_loop last_val]. destruct (meminfo_scan m Hm) as [-> _].
  change (negb (1 =? 1)) with false. cbv iota. cbn [arg_int lookup list_lookup].
  pose proof (eo_name m Hm) as Hn.
  pose proof (keyword_test "MemTotal" m eq_refl Hn) as ET.
  pose proof (keyword_test "MemFree" m eq_refl Hn) as EF.
  pose proof (keyword_test "Cached" m eq_refl Hn) as EC.
  change ("MemTotal" +:+ colon) with "MemTotal:" in ET.
  change ("MemFree" +:+ colon) with "MemFree:" in EF.
  change ("Cached" +:+ colon) with "Cached:" in EC. cbn [String.length] in ET, EF, EC.
  rewrite ET, EF, EC. pose proof (eo_value m Hm). rewrite wrap_small by lia.
  rewrite IH. destruct (decide (me_name m = "MemTotal")) as [E1|E1];
    [rewrite bool_decide_eq_true_2 by done; rewrite E1; by rewrite !decide_False by done|].
  rewrite (bool_decide_eq_false_2 (me_name m = "MemTotal")) by done.
  destruct (decide (me_name m = "MemFree")) as [E2|E2];
    [rewrite bool_decide_eq_true_2 by done; rewrite E2; by rewrite !decide_False by done|].
  rewrite (bool_decide_eq_false_2 (me_name m = "MemFree")) by done.
  by destruct (decide (me_name m = "Cached")) as [E3|E3];
    [rewrite bool_decide_eq_true_2 by done | rewrite bool_decide_eq_false_2 by done].
Qed.

(** The memory statistics are those of /proc/meminfo: on any file of entries
    in the kernel's format the total and the cache are the kilobytes of MemTotal
    and Cached, the free memory counts the cache, all in bytes, and used and free
    memory add up to the total. *)
Theorem mem_stats_of_meminfo ms b e T F C :
  sys_file "/proc/meminfo" = Some (meminfo_text ms) -> Forall entry_ok ms ->
  last_val "MemTotal" ms (mem_total b) = T -> last_val "MemFree" ms (mem_free b) = F ->
  last_val "Cached" ms (mem_cache b) = C ->
  0 <= F -> 0 <= C -> F + C <= T < 2 ^ 54 ->
  wp (sg_get_mem_stats_int b)
     (fun r e' => e' = e /\ r.1 = SG_ERROR_NONE /\
        mem_total r.2 = 1024 * T /\ mem_free r.2 = 1024 * (F + C) /\ mem_cache r.2 = 1024 * C /\
        mem_used r.2 + mem_free r.2 = mem_total r.2) e.
Proof.
  intros Hf HF HT HFr HC H1 H2 H3. unfold sg_get_mem_stats_int, fopen. rewrite Hf.
  apply wp_bind, wp_ret. unfold meminfo_text.
  rewrite file_lines_short by (apply Forall_fmap; eapply Forall_impl; [done | intros ? []; done]).
  rewrite mem_loop_spec by done. apply wp_ret. cbn [fst snd mem_total mem_free mem_used mem_cache].
  rewrite HT, HFr, HC. rewrite (wrap_small 64 (F + C)), (wrap_small 64 (T * 1024)) by lia.
  rewrite (wrap_small 64 ((F + C) * 1024)), (wrap_small 64 (C * 1024)) by lia.
  rewrite wrap_small by lia. split_and!; (done || lia).
Qed.
End meminfo.

Definition demo_meminfo : list meminfo_entry :=
  [mk_entry "MemTotal" "       " 16000000; mk_entry "MemFree" "        " 5000000;
   mk_entry "Buffers" "  " 1000; mk_entry "Cached" "         " 3000000;
   mk_entry "SwapCached" " " 77].

Definition mem_system : System :=
  {| sys_file := fun p => if String.eqb p "/proc/meminfo" then Some (meminfo_text demo_meminfo) else None;
     sys_open_errno := fun _ => 2; sys_time := 1000; sys_page_size := 4096 |}.

Lemma demo_meminfo_ok : Forall entry_ok demo_meminfo.
Proof.
  repeat constructor; cbn; try lia; try done.
  all: unfold short_line, meminfo_line; cbn [me_name me_pad me_value].
  all: match goal with |- exists t, ?l = _ /\ _ =>
         let s := eval vm_compute in (String.substring 0 (String.length l - 1) l) in exists s end.
  all: split_and!; [by vm_compute | by vm_compute | cbn; lia].
Qed.

Lemma mem_stats_of_meminfo_witness :
  wp (@sg_get_mem_stats_int mem_system raw_mem)
     (fun r e' => e' = demo_env /\ r.1 = SG_ERROR_NONE /\
        mem_total r.2 = 1024 * 16000000 /\ mem_free r.2 = 1024 * (5000000 + 3000000) /\
        mem_cache r.2 = 1024 * 3000000 /\ mem_used r.2 + mem_free r.2 = mem_total r.2) demo_env.
Proof.
  apply (@mem_stats_of_meminfo mem_system demo_meminfo);
    [reflexivity | apply demo_meminfo_ok | reflexivity | reflexivity | reflexivity | lia..].
Defined.

(** * Paging *)

(** Without /proc/vmstat the page counters come from the line of /proc/stat that
    starts with "page"; when there is no such line no error is recorded at the end
    of the file, and the function returns whatever error was recorded before: with
    none, success and counters of zero. *)
Theorem page_stats_missing_line {sys : System} c b e :
  sys_file "/proc/vmstat" = None -> sys_file "/proc/stat" = Some c ->
  (forall l, l ∈ file_lines 256 c -> String.prefix "page" l = false) ->
  eg_error (sg_get_error_glob e) = SG_ERROR_NONE ->
  wp (sg_get_page_stats_int b)
     (fun r _ => r = (SG_ERROR_NONE, mk_page_stats 0 0 sys_time)) e.
Proof.
  intros Hv Hs Hl He. unfold sg_get_page_stats_int.
  apply wp_bind. unfold fopen. rewrite Hv. apply wp_bind, wp_modify, wp_ret.
  apply wp_bind. rewrite Hs. apply wp_ret. rewrite f_read_line_none by done.
  apply wp_bind, wp_gets, wp_ret.
  change (sg_get_error_glob (set_errno _ e)) with (sg_get_error_glob e). by rewrite He.
Qed.

Definition page_system : System :=
  {| sys_file := fun p => if String.eqb p "/proc/stat" then Some (demo_line "cpu 1 2 3 4 5") else None;
     sys_open_errno := fun _ => 2; sys_time := 1000; sys_page_size := 4096 |}.

Lemma page_stats_missing_line_witness :
  wp (@sg_get_page_stats_int page_system raw_page)
     (fun r _ => r = (SG_ERROR_NONE, mk_page_stats 0 0 1000)) demo_env.
Proof.
  apply (@page_stats_missing_line page_system (demo_line "cpu 1 2 3 4 5"));
    [reflexivity | reflexivity | | reflexivity].
  intros l Hl. vm_compute in Hl. apply list_elem_of_singleton in Hl. subst l. reflexivity.
Defined.

(** * Counters *)

(** The difference of two readings of an interface counter is what was
    transferred in between, for a counter that grew by [d] as well as for a 32-bit
    counter that wrapped once. *)
Theorem transfer_diff_recovers old d :
  0 <= d ->
  (0 <= old -> old + d < 2 ^ 63 -> transfer_diff (old + d) old = d) /\
  (0 <= old < 2 ^ 32 -> d < 2 ^ 32 -> transfer_diff (wrap 32 (old + d)) old = d).
Proof.
  intros Hd. unfold transfer_diff. split.
  - intros H1 H2. rewrite !swrap_small by lia.
    destruct (Z.leb_spec old (old + d)); [|lia]. rewrite wrap_small; lia.
  - intros H1 H2. pose proof (wrap_range 32 (old + d)) as R.
    rewrite !swrap_small by lia.
    assert (wrap 32 (old + d) = old + d \/ wrap 32 (old + d) = old + d - 2 ^ 32) as W.
    { unfold wrap. destruct (Z.lt_ge_cases (old + d) (2 ^ 32)).
      - left. rewrite Z.mod_small; lia.
      - right. replace (old + d) with ((old + d - 2 ^ 32) + 1 * 2 ^ 32) at 1 by lia.
        rewrite Z_mod_plus_full, Z.mod_small; lia. }
    unfold MAXVAL. destruct (Z.leb_spec old (wrap 32 (old + d))); rewrite wrap_small; lia.
Qed.

Lemma transfer_diff_recovers_witness :
  transfer_diff (wrap 32 (4294967000 + 1000)) 4294967000 = 1000.
Proof. apply (transfer_diff_recovers 4294967000 1000); lia. Defined.

(** A reading of the CPU counters after the increments [d]. *)
Definition cpu_advance (l d : sg_cpu_stats) : sg_cpu_stats :=
  mk_cpu_stats (cpu_user l +u cpu_user d) (cpu_kernel l +u cpu_kernel d)
    (cpu_idle l +u cpu_idle d) (cpu_iowait l +u cpu_iowait d) (cpu_swap l +u cpu_swap d)
    (cpu_nice l +u cpu_nice d) (cpu_total l +u cpu_total d)
    (cpu_context_switches l +u cpu_context_switches d)
    (cpu_voluntary_context_switches l +u cpu_voluntary_context_switches d)
    (cpu_involuntary_context_switches l +u cpu_involuntary_context_switches d)
    (cpu_syscalls l +u cpu_syscalls d) (cpu_interrupts l +u cpu_interrupts d)
    (cpu_soft_interrupts l +u cpu_soft_interrupts d) (cpu_systime l + cpu_systime d).

Definition cpu_in_range (d : sg_cpu_stats) : Prop :=
  Forall in_u64 [cpu_user d; cpu_kernel d; cpu_idle d; cpu_iowait d; cpu_swap d; cpu_nice d;
    cpu_total d; cpu_context_switches d; cpu_voluntary_context_switches d;
    cpu_involuntary_context_switches d; cpu_syscalls d; cpu_interrupts d; cpu_soft_interrupts d] /\
  in_s64 (cpu_systime d).

(** The difference of two CPU readings recovers every increment, also across an
    overflow of the 64-bit counters. *)
Theorem cpu_diff_recovers l d :
  cpu_in_range d -> sg_get_cpu_stats_diff_int (Some (cpu_advance l d)) (Some l) = d.
Proof.
  intros [HF Ht]. rewrite !Forall_cons in HF. destruct_and! HF. destruct d.
  cbn [sg_get_cpu_stats_diff_int cpu_advance] in *. unfold counter_diff. cbn in *.
  f_equal; try (apply wrap_sub_add; [lia | done]).
  match goal with |- swrap 64 (?a + ?b - ?a) = _ => replace (a + b - a) with b by lia end.
  apply swrap_small; [lia | exact Ht].
Qed.

Lemma cpu_diff_recovers_witness :
  sg_get_cpu_stats_diff_int
    (Some (cpu_advance (mk_cpu_stats (2 ^ 64 - 5) 1 2 3 0 4 (2 ^ 64 - 1) 0 0 0 0 0 0 800)
             (mk_cpu_stats 50 10 20 30 0 40 150 7 0 0 0 8 9 100)))
    (Some (mk_cpu_stats (2 ^ 64 - 5) 1 2 3 0 4 (2 ^ 64 - 1) 0 0 0 0 0 0 800))
  = mk_cpu_stats 50 10 20 30 0 40 150 7 0 0 0 8 9 100.
Proof.
  apply cpu_diff_recovers. split; [repeat constructor; cbn; lia | split; cbn; lia].
Defined.
