(* ===== verification/StatTextProps.v ===== *)
(** From the texts of /proc/stat and /proc/vmstat, as the kernel prints them, to the processor
    and paging statistics; the line of the interrupts is longer than the buffer of fgets. *)

From S2P Require Import Prelude Types CLib Errors Tools Vector VectorSpec VectorDiff Items Comp Easy Stdio ScanFields ToolsExt Single Cpu CounterProps Demo.

Local Open Scope sg_scope.

(** * Lines longer than the buffer *)

Lemma lines_fuel_enough size : (2 <= size)%nat -> forall f n m,
  (String.length f <= n)%nat -> (String.length f <= m)%nat -> lines_fuel n size f = lines_fuel m size f.
Proof.
  intros Hs f. remember (String.length f) as k eqn:E. revert f E.
  induction (lt_wf k) as [k _ IH]. intros f -> n m Hn Hm.
  destruct f as [|c f]; [by destruct n, m|]. simpl in Hn, Hm.
  destruct n as [|n]; [lia|]. destruct m as [|m]; [lia|]. cbn [lines_fuel]. unfold fgets.
  pose proof (take_line_progress (size - 1) (String c f) ltac:(lia) ltac:(done)) as P.
  destruct (take_line (size - 1) (String c f)) as [l r]. simpl snd in P. f_equal.
  apply (IH (String.length r)); [done|done|simpl in *; lia..].
Qed.

Lemma file_lines_cons size f : (2 <= size)%nat -> f <> EmptyString ->
  file_lines size f = (take_line (size - 1) f).1 :: file_lines size (take_line (size - 1) f).2.
Proof.
  intros Hs Hf. unfold file_lines at 1. destruct f as [|c f]; [done|]. cbn [String.length lines_fuel]. unfold fgets.
  pose proof (take_line_progress (size - 1) (String c f) ltac:(lia) ltac:(done)) as P.
  destruct (take_line (size - 1) (String c f)) as [l r]. simpl fst. simpl snd in *. f_equal.
  apply lines_fuel_enough; simpl in *; lia.
Qed.

(** A text that does not end within the buffer fills it. *)
Lemma take_line_long n t r :
  all_chars not_newline t = true -> (n <= String.length t)%nat ->
  exists a b, t = a +:+ b /\ String.length a = n /\ take_line n (t +:+ r) = (a, b +:+ r).
Proof.
  revert t. induction n as [|n IH]; intros t Ht Hn; [exists EmptyString, t; split_and!; try done; by destruct t, r|].
  destruct t as [|c t]; [simpl in Hn; lia|]. simpl in Ht, Hn. apply andb_true_iff in Ht as [Hc Ht].
  destruct (IH t Ht ltac:(lia)) as (a & b & -> & La & E). exists (String c a), b. split_and!; [done|simpl; lia|].
  change (String c (a +:+ b) +:+ r) with (String c ((a +:+ b) +:+ r)). cbn [take_line].
  unfold not_newline in Hc. apply bool_decide_eq_true in Hc. rewrite decide_False by done. by rewrite E.
Qed.

(** The pieces of a line: texts of its characters, none empty. *)
Lemma file_lines_pieces size q t rest :
  (2 <= size)%nat -> all_chars not_newline t = true -> all_chars q t = true -> q newline = true ->
  exists ps, file_lines size (t +:+ String newline rest) = ps ++ file_lines size rest /\
    Forall (fun p => p <> EmptyString /\ all_chars q p = true) ps.
Proof.
  intros Hs. remember (String.length t) as k eqn:E. revert t E.
  induction (lt_wf k) as [k _ IH]. intros t -> Ht Hq Hn.
  rewrite file_lines_cons by (done || by destruct t).
  destruct (decide (String.length t < size - 1)%nat) as [L|L].
  - rewrite take_line_short by done. exists [t +:+ String newline EmptyString]. split; [done|].
    constructor; [|done]. split; [by destruct t|]. rewrite all_chars_app, Hq. simpl. by rewrite Hn.
  - destruct (take_line_long (size - 1) t (String newline rest) Ht ltac:(lia)) as (a & b & -> & La & ->). simpl.
    rewrite all_chars_app in Ht, Hq. apply andb_true_iff in Ht as [_ Ht]. apply andb_true_iff in Hq as [Hqa Hqb].
    destruct (IH (String.length b)) with (t := b) as (ps & Eps & Fps); try done.
    { rewrite string_length_app. lia. }
    exists (a :: ps). rewrite Eps. split; [done|]. constructor; [|done]. split; [|done]. intros ->. simpl in La. lia.
Qed.

(** A line that begins with a short text: the first piece begins with it too. *)
Lemma file_lines_first size q p t rest :
  (2 <= size)%nat -> all_chars not_newline (p +:+ t) = true -> all_chars q t = true -> q newline = true ->
  (String.length p < size - 1)%nat ->
  exists t' ps, file_lines size ((p +:+ t) +:+ String newline rest) = (p +:+ t') :: ps ++ file_lines size rest /\
    Forall (fun p => p <> EmptyString /\ all_chars q p = true) ps /\
    (exists t'', t +:+ String newline EmptyString = t' +:+ t'') /\ t' <> EmptyString /\
    ((String.length (p +:+ t) < size - 1)%nat -> t' = t +:+ String newline EmptyString).
Proof.
  intros Hs Ht Hq Hn Lp. rewrite file_lines_cons by (done || by destruct p, t).
  destruct (decide (String.length (p +:+ t) < size - 1)%nat) as [L|L].
  - rewrite take_line_short by done. exists (t +:+ String newline EmptyString), []. simpl.
    rewrite string_app_assoc. split_and!; [done|done|exists EmptyString; by rewrite string_app_nil|by destruct t|done].
  - destruct (take_line_long (size - 1) (p +:+ t) (String newline rest) Ht ltac:(lia)) as (a & b & E & La & ->). simpl.
    assert (exists t', a = p +:+ t' /\ t = t' +:+ b /\ t' <> EmptyString) as (t' & -> & -> & Ne).
    { clear - E La Lp. rewrite <- La in Lp. clear La. revert a E Lp. induction p as [|c p IH]; intros a E Lp.
      - exists a. split_and!; [done|done|]. intros ->. simpl in Lp. lia.
      - destruct a as [|d a]; [simpl in Lp; lia|]. injection E as <- E. simpl in Lp.
        destruct (IH a E ltac:(lia)) as (t' & -> & -> & ?). by exists t'. }
    rewrite all_chars_app in Ht, Hq. apply andb_true_iff in Ht as [_ Ht].
    rewrite all_chars_app in Ht. apply andb_true_iff in Ht as [_ Ht]. apply andb_true_iff in Hq as [_ Hq].
    destruct (file_lines_pieces size q b rest Hs Ht Hq Hn) as (ps & Eps & Fps).
    exists t', ps. rewrite Eps. split_and!; [done|done| |done|done].
    exists (b +:+ String newline EmptyString). by rewrite string_app_assoc.
Qed.

(** * Entries found by their names *)

Section by_name.
Context {A : Type} (name : A -> string) (names : list string) (P : A -> Prop) `{!forall x, Decision (P x)}.
Hypothesis P_name : forall x, P x <-> name x ∈ names.
Hypothesis names_unique : NoDup names.

(** Among entries with different names as many are found as names are there. *)
Lemma found_count ls : NoDup (name <$> ls) ->
  length (filter P ls) = length (filter (fun n => n ∈ name <$> ls) names).
Proof.
  intros Hn. rewrite <- (length_fmap name). apply Permutation_length, NoDup_Permutation.
  - eapply sublist_NoDup; [exact Hn|]. apply fmap_sublist, sublist_filter.
  - by apply NoDup_filter.
  - intros x. rewrite list_elem_of_fmap, list_elem_of_filter, list_elem_of_fmap. split.
    + intros (l & -> & [Hk Hl]%list_elem_of_filter). split; [by exists l|]. by apply P_name.
    + intros [(l & -> & Hl) Hk]. exists l. split; [done|]. apply list_elem_of_filter. by rewrite P_name.
Qed.

Lemma found_bound ls : NoDup (name <$> ls) -> (length (filter P ls) <= length names)%nat.
Proof. intros Hn. rewrite found_count by done. apply length_filter. Qed.
End by_name.

(** * Lines of a name and numbers *)

Definition u64_field : nfield := mk_nfield false 64 false.

(** A line of /proc/stat: the name, the blanks behind it (two for the sum over all processors)
    and the numbers, with one blank between two of them. *)
Record stat_line := mk_stat { sl_name : string; sl_pad : string; sl_values : list Z }.

Definition sl_fields (l : stat_line) : fields :=
  match sl_values l with
  | [] => []
  | v :: vs => (u64_field, sl_pad l, v) :: ((fun v => (u64_field, " ", v)) <$> vs)
  end.

Definition nl : string := String newline EmptyString.
Definition stat_text (l : stat_line) : string := (sl_name l +:+ fields_text (sl_fields l) EmptyString) +:+ nl.

(** A name starts with a letter and has no white space; the line has the numbers that are read. *)
Record stat_ok (l : stat_line) : Prop := {
  so_first : match sl_name l with String c _ => isalpha c = true | EmptyString => False end;
  so_name : all_chars not_space (sl_name l) = true;
  so_pad : all_chars isblank (sl_pad l) = true;
  so_pad_some : sl_pad l <> EmptyString;
  so_values : Forall in_u64 (sl_values l);
  so_count : ((if decide (sl_name l = "cpu") then 5 else 1) <= length (sl_values l))%nat;
  so_short : (String.length (sl_name l) + String.length (sl_pad l) <= 128)%nat }.

Lemma fields_text_app l1 l2 r : fields_text (l1 ++ l2) r = fields_text l1 (fields_text l2 r).
Proof. induction l1 as [|[[f sp] z] l1 IH]; [done|]. simpl. by rewrite IH. Qed.

Lemma fields_text_end l r : fields_text l EmptyString +:+ r = fields_text l r.
Proof. induction l as [|[[f sp] z] l IH]; [done|]. simpl. by rewrite !string_app_assoc, IH. Qed.

Lemma isblank_isspace c : isblank c = true -> isspace c = true.
Proof. unfold isblank, isspace. cbv zeta. destruct (byte_of c =? 32); [done|]. simpl. lia. Qed.

Lemma sl_fields_ok l : stat_ok l -> Forall field_ok (sl_fields l).
Proof.
  intros H. unfold sl_fields. pose proof (so_values l H) as HF. destruct HF as [|v vs Hv HF]; [done|].
  constructor.
  - split_and!; [done|exact Hv|apply (all_chars_impl isblank), so_pad; [apply isblank_isspace|done]|by apply so_pad_some].
  - apply Forall_fmap. eapply Forall_impl; [exact HF|]. intros z Hz. by split_and!.
Qed.

Lemma sl_fields_length l : length (sl_fields l) = length (sl_values l).
Proof. unfold sl_fields. destruct (sl_values l); [done|]. simpl. by rewrite length_fmap. Qed.

Lemma fields_vals_take k l : Forall in_u64 (sl_values l) ->
  fields_vals (take k (sl_fields l)) = VInt <$> take k (sl_values l).
Proof.
  unfold sl_fields, fields_vals. intros HF. destruct HF as [|v vs Hv HF]; [by destruct k|].
  destruct k as [|k]; [done|]. simpl. unfold nf_value. simpl. rewrite wrap_small by done. f_equal.
  clear Hv. revert k. induction HF as [|z vs Hz HF IH]; intros [|k]; [done..|].
  simpl. unfold nf_value. simpl. rewrite wrap_small by done. f_equal. apply IH.
Qed.

(** Characters that cannot begin a name. *)
Definition not_letter (c : ascii) : bool := negb (isalpha c).

Lemma field_char c : isdigit c = true \/ isblank c = true -> not_letter c = true /\ not_newline c = true.
Proof.
  unfold isdigit, isblank, not_letter, isalpha, not_newline. cbv zeta. intros H. split; [lia|].
  apply bool_decide_eq_true. intros ->. by destruct H.
Qed.

(** The characters of a line behind its name. *)
Lemma fields_chars q l :
  (forall c, isdigit c = true \/ isblank c = true -> q c = true) ->
  Forall (fun p => p.1.1 = u64_field /\ in_u64 p.2 /\ all_chars isblank p.1.2 = true) l ->
  all_chars q (fields_text l EmptyString) = true.
Proof.
  intros Hq HF. induction HF as [|[[f sp] z] l (E & Hz & Hs) HF IH]; [done|]. simpl in *. subst f.
  rewrite !all_chars_app, IH. destruct (print_unsigned_digits z) as [Hd _]; [by destruct Hz|].
  change (nf_text u64_field z) with (print_unsigned z).
  rewrite (all_chars_impl isblank q sp) by auto. by rewrite (all_chars_impl isdigit q) by auto.
Qed.

Lemma sl_fields_chars l : stat_ok l ->
  Forall (fun p => p.1.1 = u64_field /\ in_u64 p.2 /\ all_chars isblank p.1.2 = true) (sl_fields l).
Proof.
  intros H. unfold sl_fields. pose proof (so_values l H) as HF. destruct HF as [|v vs Hv HF]; [done|].
  constructor; [split_and!; [done..|by apply so_pad]|].
  apply Forall_fmap. eapply Forall_impl; [exact HF|]. intros z Hz. by split_and!.
Qed.

Lemma fields_text_length l : Forall field_ok l ->
  (String.length (fields_text l EmptyString) <= 21 * length l + sum_list_with (fun p => String.length p.1.2) l)%nat.
Proof.
  induction 1 as [|[[f sp] z] l (_ & Hz & _ & _) HF IH]; [done|]. simpl. rewrite !string_length_app.
  pose proof (nf_text_length f z Hz). simpl in *. lia.
Qed.

(** The numbers that are read lie within the first piece of the line. *)
Lemma sl_head_length l k : stat_ok l -> (k <= 5)%nat ->
  (String.length (sl_name l +:+ fields_text (take k (sl_fields l)) EmptyString) < 1024 - 1)%nat.
Proof.
  intros H Hk. rewrite string_length_app. pose proof (so_short l H).
  pose proof (fields_text_length (take k (sl_fields l)) ltac:(by apply Forall_take, sl_fields_ok)) as L.
  rewrite length_take in L.
  assert (sum_list_with (fun p => String.length p.1.2) (take k (sl_fields l)) <= String.length (sl_pad l) + k)%nat.
  { unfold sl_fields. destruct (sl_values l) as [|v vs]; [destruct k; simpl; lia|]. destruct k as [|k]; [simpl; lia|].
    simpl. assert (sum_list_with (fun p : nfield * string * Z => String.length p.1.2)
      (take k ((fun v => (u64_field, " ", v)) <$> vs)) <= k)%nat; [|lia].
    clear. revert k. induction vs as [|v vs IH]; intros [|k]; [simpl; lia..|]. specialize (IH k). cbn in *. lia. }
  lia.
Qed.

(** The first line [fgets] delivers for a line of the file has the name and the numbers that are
    read, the lines that follow for the same line start with no letter. *)
Lemma stat_line_pieces l k rest : stat_ok l -> (k <= 5)%nat ->
  exists (t : string) (ps : list string), file_lines 1024 (stat_text l +:+ rest)
      = (sl_name l +:+ fields_text (take k (sl_fields l)) t) :: ps ++ file_lines 1024 rest /\
    Forall (fun p => p <> EmptyString /\ all_chars not_letter p = true) ps /\ at_blank t.
Proof.
  intros H Hk. pose proof (sl_fields_chars l H) as HC. unfold stat_text, nl.
  set (p := sl_name l +:+ fields_text (take k (sl_fields l)) EmptyString).
  set (t := fields_text (drop k (sl_fields l)) EmptyString).
  assert (sl_name l +:+ fields_text (sl_fields l) EmptyString = p +:+ t) as E.
  { unfold p, t. rewrite string_app_assoc, fields_text_end, <- fields_text_app, take_drop. done. }
  rewrite E, string_app_assoc. change (String newline EmptyString +:+ rest) with (String newline rest).
  destruct (file_lines_first 1024 not_letter p t rest) as (t' & ps & -> & Fps & (t'' & Et) & Ne & _).
  - lia.
  - rewrite <- E, all_chars_app, (fields_chars not_newline) by (done || apply field_char).
    rewrite andb_true_r. apply (all_chars_impl not_space), so_name; [|done].
    intros c Hc. apply bool_decide_eq_true. by intros ->.
  - apply fields_chars; [apply field_char|by apply Forall_drop].
  - done.
  - by apply sl_head_length.
  - exists t', ps. unfold p at 1. rewrite string_app_assoc, fields_text_end. split_and!; [done..|].
    assert (at_blank (t +:+ String newline EmptyString)) as Hb.
    { unfold t. rewrite fields_text_end. apply fields_at_blank; [by apply Forall_drop, sl_fields_ok|done]. }
    rewrite Et in Hb. by destruct t'.
Qed.

(** * /proc/stat *)

Definition stat_file (ls : list stat_line) : string := concat_lines (stat_text <$> ls).

Definition cpu_keywords : list string := ["cpu"; "intr"; "ctxt"; "softirq"].

(** The [i]-th number of the line with the name, [old] when there is no such line. *)
Fixpoint stat_value (name : string) (i : nat) (ls : list stat_line) (old : Z) : Z :=
  match ls with
  | [] => old
  | l :: ls' => if decide (sl_name l = name) then sl_values l !!! i else stat_value name i ls' old
  end.

Lemma stat_value_absent name i ls old : name ∉ sl_name <$> ls -> stat_value name i ls old = old.
Proof.
  induction ls as [|l ls IH]; intros Hn; [done|]. rewrite fmap_cons, not_elem_of_cons in Hn. destruct Hn as [Hn1 Hn2].
  cbn [stat_value]. rewrite decide_False by congruence. by apply IH.
Qed.

Lemma no_letter_prefix kw p :
  match kw with String c _ => isalpha c = true | EmptyString => False end ->
  p <> EmptyString -> all_chars not_letter p = true -> (strncmp p kw (String.length kw) =? 0) = false.
Proof.
  intros Hk Hp Hl. destruct kw as [|c kw]; [done|]. destruct p as [|d p]; [done|].
  simpl in Hl. apply andb_true_iff in Hl as [Hd _]. unfold not_letter in Hd. cbn [String.length strncmp].
  cmp_cases; [done..|]. assert (c = d) as -> by (apply byte_of_inj; lia). by rewrite Hk in Hd.
Qed.

(** The test for a keyword holds of the line with that name. *)
Lemma line_is_name kw n sp r :
  all_chars not_space kw = true -> all_chars not_space n = true -> isblank sp = true ->
  line_is kw (n +:+ String sp r) = bool_decide (n = kw).
Proof.
  intros Hk Hn Hs. unfold line_is. revert n Hn. induction kw as [|c kw IH]; intros n Hn.
  - destruct n as [|d n]; cbn [String.length strncmp]; [by rewrite bool_decide_eq_true_2|].
    rewrite bool_decide_eq_false_2 by done. simpl in Hn. apply andb_true_iff in Hn as [Hd _].
    change (isblank (char_at (String d n +:+ String sp r) 0)) with (isblank d).
    unfold not_space in Hd. apply negb_true_iff in Hd. destruct (isblank d) eqn:E; [|done].
    apply isblank_isspace in E. congruence.
  - simpl in Hk. apply andb_true_iff in Hk as [Hc Hk]. destruct n as [|d n].
    + rewrite bool_decide_eq_false_2 by done. cbn [String.length]. change (EmptyString +:+ String sp r) with (String sp r).
      cbn [strncmp]. cmp_cases; [done..|]. assert (c = sp) as -> by (apply byte_of_inj; lia).
      apply isblank_isspace in Hs. unfold not_space in Hc. by rewrite Hs in Hc.
    + simpl in Hn. apply andb_true_iff in Hn as [_ Hn]. change (String d n +:+ ?x) with (String d (n +:+ x)).
      cbn [String.length strncmp].
      change (char_at (String d (n +:+ String sp r)) (S (String.length kw)))
        with (char_at (n +:+ String sp r) (String.length kw)).
      destruct (decide (c = d)) as [->|Hne].
      * rewrite Z.ltb_irrefl, IH by done. apply bool_decide_ext. split; congruence.
      * rewrite bool_decide_eq_false_2 by congruence. cmp_cases; [done..|].
        by assert (c = d) as -> by (apply byte_of_inj; lia).
Qed.

(** What the branch of the line assigns. *)
Definition cpu_apply (b : sg_cpu_stats) (l : stat_line) : sg_cpu_stats :=
  let v i := sl_values l !!! i in
  if decide (sl_name l = "cpu") then
    cpu_set_times (v 0%nat) (v 2%nat) (v 3%nat) (v 4%nat) (cpu_swap b) (v 1%nat) (cpu_total b) b
  else if decide (sl_name l = "intr") then
    cpu_set_events (cpu_context_switches b) (cpu_voluntary_context_switches b) (cpu_involuntary_context_switches b)
      (cpu_syscalls b) (v 0%nat) (cpu_soft_interrupts b) b
  else if decide (sl_name l = "ctxt") then
    cpu_set_events (v 0%nat) (cpu_voluntary_context_switches b) (cpu_involuntary_context_switches b)
      (cpu_syscalls b) (cpu_interrupts b) (cpu_soft_interrupts b) b
  else if decide (sl_name l = "softirq") then
    cpu_set_events (cpu_context_switches b) (cpu_voluntary_context_switches b) (cpu_involuntary_context_switches b)
      (cpu_syscalls b) (cpu_interrupts b) (v 0%nat) b
  else b.

Definition is_keyword (l : stat_line) : Prop := sl_name l ∈ cpu_keywords.
#[global] Instance is_keyword_dec l : Decision (is_keyword l).
Proof. unfold is_keyword. apply _. Defined.

Lemma cpu_loop_done ls m b : 4 <= m -> linux_cpu_loop ls m b = inr (m, b).
Proof. intros Hm. destruct ls as [|l ls]; [done|]. cbn [linux_cpu_loop]. by rewrite (proj2 (Z.ltb_ge m 4)). Qed.

(** The rest of a long line is passed over. *)
Lemma cpu_loop_pieces ps ls m b :
  Forall (fun p => p <> EmptyString /\ all_chars not_letter p = true) ps ->
  linux_cpu_loop (ps ++ ls) m b = linux_cpu_loop ls m b.
Proof.
  induction 1 as [|p ps [Hp Hl] HF IH]; [done|]. destruct (Z.lt_ge_cases m 4).
  - cbn [app linux_cpu_loop]. rewrite (proj2 (Z.ltb_lt m 4)) by done. unfold line_is.
    rewrite !no_letter_prefix by done. exact IH.
  - by rewrite !cpu_loop_done.
Qed.

Lemma sscanf_keyword k fmt l t :
  parse_format (String.length fmt) fmt
    = (DLit <$> String.list_ascii_of_string (sl_name l)) ++ fields_dirs (replicate k u64_field) ->
  (k <= length (sl_values l))%nat -> stat_ok l -> at_blank t ->
  sscanf (sl_name l +:+ fields_text (take k (sl_fields l)) t) fmt = (Z.of_nat k, VInt <$> take k (sl_values l)).
Proof.
  intros Ef Hk H Ht. unfold sscanf. rewrite Ef, scan_literal.
  replace (replicate k u64_field) with (take k (sl_fields l)).*1.*1; cycle 1.
  { rewrite !fmap_take. replace (sl_fields l).*1.*1 with (replicate (length (sl_values l)) u64_field);
      [by rewrite take_replicate, Nat.min_l|].
    unfold sl_fields. destruct (sl_values l) as [|v vs]; [done|]. simpl. f_equal.
    clear. induction vs as [|v vs IH]; [done|]. cbn. f_equal. exact IH. }
  rewrite <- (app_nil_r (fields_dirs _)), scan_fields by (done || by apply Forall_take, sl_fields_ok).
  cbn [scan]. rewrite fields_vals_take by apply H. simpl. rewrite length_fmap, length_take, Nat.min_l by done. done.
Qed.

Lemma arg_int_take k i old vs :
  (i < k)%nat -> (k <= length vs)%nat -> arg_int old (VInt <$> take k vs) i = vs !!! i.
Proof.
  intros Hi Hk. unfold arg_int. destruct (lookup_lt_is_Some_2 vs i) as [z E]; [lia|].
  by rewrite list_lookup_fmap, lookup_take_lt, E, (list_lookup_total_correct _ _ _ E) by done.
Qed.

(** The number of fields that are read of a line. *)
Definition read_count (l : stat_line) : nat := if decide (sl_name l = "cpu") then 5%nat else 1%nat.

Lemma first_piece_is l t kw : stat_ok l -> all_chars not_space kw = true ->
  line_is kw (sl_name l +:+ fields_text (take (read_count l) (sl_fields l)) t) = bool_decide (sl_name l = kw).
Proof.
  intros H Hkw. unfold sl_fields. pose proof (so_count l H) as Hc. fold (read_count l) in Hc.
  destruct (read_count l) as [|k] eqn:Ek; [unfold read_count in Ek; by case_decide|].
  destruct (sl_values l) as [|v vs]; [simpl in Hc; lia|].
  pose proof (so_pad l H) as Hp. pose proof (so_pad_some l H). cbn [take fields_text].
  destruct (sl_pad l) as [|sp pad]; [done|]. simpl in Hp. apply andb_true_iff in Hp as [Hp _].
  apply line_is_name; [done|by apply so_name|done].
Qed.

(** One line of the file, the pieces [fgets] splits it into included. *)
Lemma cpu_loop_line l rest m b : stat_ok l -> m < 4 ->
  linux_cpu_loop (file_lines 1024 (stat_text l +:+ rest)) m b
    = linux_cpu_loop (file_lines 1024 rest) (m + (if decide (is_keyword l) then 1 else 0)) (cpu_apply b l).
Proof.
  intros H Hm. pose proof (so_count l H) as Hc. fold (read_count l) in Hc.
  destruct (stat_line_pieces l (read_count l) rest H) as (t & ps & -> & Fps & Ht); [unfold read_count; case_decide; lia|].
  cbn [linux_cpu_loop]. rewrite (proj2 (Z.ltb_lt m 4)) by done. cbn [negb]. rewrite !first_piece_is by done.
  unfold cpu_apply, is_keyword, cpu_keywords.
  destruct (decide (sl_name l = "cpu")) as [E|E1]; [|rewrite bool_decide_eq_false_2 by done;
  destruct (decide (sl_name l = "intr")) as [E|E2]; [|rewrite bool_decide_eq_false_2 by done;
  destruct (decide (sl_name l = "ctxt")) as [E|E3]; [|rewrite bool_decide_eq_false_2 by done;
  destruct (decide (sl_name l = "softirq")) as [E|E4]; [|rewrite bool_decide_eq_false_2 by done]]]].
  5: { rewrite decide_False by set_solver. by rewrite Z.add_0_r, cpu_loop_pieces. }
  all: rewrite bool_decide_eq_true_2, (decide_True (P := _ ∈ _)) by (done || set_solver).
  all: erewrite sscanf_keyword; [|unfold read_count; rewrite E; reflexivity|done..].
  all: unfold read_count in *; rewrite E in *; simpl in Hc; simpl; rewrite !arg_int_take by (done || simpl; lia).
  all: by rewrite cpu_loop_pieces.
Qed.

Lemma cpu_loop_lines ls : forall m b, Forall stat_ok ls -> m + Z.of_nat (length (filter is_keyword ls)) <= 4 ->
  linux_cpu_loop (file_lines 1024 (stat_file ls)) m b
    = inr (m + Z.of_nat (length (filter is_keyword ls)), foldl cpu_apply b ls).
Proof.
  induction ls as [|l ls IH]; intros m b HF Hm; [by rewrite Z.add_0_r|].
  apply Forall_cons in HF as [Hl HF]. change (stat_file (l :: ls)) with (stat_text l +:+ stat_file ls).
  rewrite filter_cons in *. destruct (Z.lt_ge_cases m 4) as [L|L].
  - rewrite cpu_loop_line by done. destruct (decide (is_keyword l)); cbn [length] in *; rewrite IH by (done || lia);
      do 2 f_equal; lia.
  - rewrite cpu_loop_done by done. destruct (decide (is_keyword l)) as [|Hk]; cbn [length] in *; [lia|].
    specialize (IH m b HF Hm). rewrite cpu_loop_done in IH by done. rewrite IH. cbn [foldl].
    replace (cpu_apply b l) with b; [done|]. unfold cpu_apply, is_keyword, cpu_keywords in *.
    by rewrite !decide_False by set_solver.
Qed.

(** Lines with different names: at most the four keywords are found. *)
Lemma keyword_lines ls : NoDup (sl_name <$> ls) -> Z.of_nat (length (filter is_keyword ls)) <= 4.
Proof.
  intros Hn. apply (inj_le _ 4), (found_bound sl_name cpu_keywords); [done| |done].
  apply (bool_decide_unpack _); vm_compute; exact I.
Qed.

Lemma cpu_apply_all ls : forall b, NoDup (sl_name <$> ls) ->
  foldl cpu_apply b ls =
    mk_cpu_stats (stat_value "cpu" 0 ls (cpu_user b)) (stat_value "cpu" 2 ls (cpu_kernel b))
      (stat_value "cpu" 3 ls (cpu_idle b)) (stat_value "cpu" 4 ls (cpu_iowait b)) (cpu_swap b)
      (stat_value "cpu" 1 ls (cpu_nice b)) (cpu_total b) (stat_value "ctxt" 0 ls (cpu_context_switches b))
      (cpu_voluntary_context_switches b) (cpu_involuntary_context_switches b) (cpu_syscalls b)
      (stat_value "intr" 0 ls (cpu_interrupts b)) (stat_value "softirq" 0 ls (cpu_soft_interrupts b)) (cpu_systime b).
Proof.
  induction ls as [|l ls IH]; intros b Hn; [by destruct b|]. rewrite fmap_cons in Hn. apply NoDup_cons in Hn as [Ha Hn].
  cbn [foldl stat_value]. rewrite IH by done. unfold cpu_apply.
  repeat case_decide; try congruence; simpl;
    match goal with E : sl_name _ = _ |- _ => rewrite E in Ha | _ => idtac end;
    by rewrite ?(stat_value_absent _ _ _ _ Ha).
Qed.

Section proc_stat.
Context {sys : System}.

Lemma stat_values_int ls b e :
  sys_file "/proc/stat" = Some (stat_file ls) -> Forall stat_ok ls -> NoDup (sl_name <$> ls) ->
  Exists is_keyword ls ->
  let cpu i := stat_value "cpu" i ls 0 in
  let first name := stat_value name 0 ls 0 in
  wp (sg_get_cpu_stats_int b)
     (fun r e' => e' = e /\ r = (SG_ERROR_NONE,
        mk_cpu_stats (cpu 0%nat) (cpu 2%nat) (cpu 3%nat) (cpu 4%nat) 0 (cpu 1%nat)
          (wrap 64 (cpu 0%nat + cpu 1%nat + cpu 2%nat + cpu 3%nat))
          (first "ctxt") 0 0 0 (first "intr") (first "softirq") sys_time)) e.
Proof.
  intros Hf HF Hn Hk cpu first. unfold sg_get_cpu_stats_int, fopen. rewrite Hf. apply wp_bind, wp_ret.
  rewrite cpu_loop_lines by (done || by apply keyword_lines). rewrite cpu_apply_all by done.
  destruct (Z.eqb_spec (0 + Z.of_nat (length (filter is_keyword ls))) 0) as [E|_].
  - apply Exists_exists in Hk as (l & Hl & Hl2). assert (filter is_keyword ls = []) as E2 by (apply length_zero_iff_nil; lia).
    exfalso. apply (not_elem_of_nil l). rewrite <- E2. by apply list_elem_of_filter.
  - apply wp_ret. split; [done|]. f_equal. unfold cpu_set_systime, set_total, cpu_set_times, linux_cpu_total. simpl.
    unfold wrap. f_equal. cbn. by rewrite Zplus_mod_idemp_l, <- Z.add_assoc, Zplus_mod_idemp_l, Z.add_assoc.
Qed.

(** C21: The processor statistics are those of /proc/stat: on any file of lines in the kernel's format
    with different names, however long, in any order and with any other lines between them, at least one
    of them of the four that are looked for, the times are the first five numbers of the line of all
    processors and the events the first numbers of their lines; a missing line leaves zeros. The total
    is the sum of the times of user, nice, system and idle modulo 2^64: the time of waiting for devices,
    which is also delivered, is not part of it ([cpu_total_without_iowait]). *)
Theorem cpu_stats_of_stat ls b e :
  sys_file "/proc/stat" = Some (stat_file ls) -> Forall stat_ok ls -> NoDup (sl_name <$> ls) ->
  Exists is_keyword ls ->
  let cpu i := stat_value "cpu" i ls 0 in
  let first name := stat_value name 0 ls 0 in
  wp (sg_get_cpu_stats_int b)
     (fun r e' => e' = e /\ r = (SG_ERROR_NONE,
        mk_cpu_stats (cpu 0%nat) (cpu 2%nat) (cpu 3%nat) (cpu 4%nat) 0 (cpu 1%nat)
          (wrap 64 (cpu 0%nat + cpu 1%nat + cpu 2%nat + cpu 3%nat))
          (first "ctxt") 0 0 0 (first "intr") (first "softirq") sys_time)) e.
Proof. apply stat_values_int. Qed.

(** So the total falls short of the sum of the times delivered by the time of waiting. *)
Corollary cpu_total_without_iowait ls b e :
  sys_file "/proc/stat" = Some (stat_file ls) -> Forall stat_ok ls -> NoDup (sl_name <$> ls) ->
  Exists is_keyword ls ->
  wp (sg_get_cpu_stats_int b)
     (fun r _ => wrap 64 (cpu_total r.2 + cpu_iowait r.2) =
        wrap 64 (cpu_user r.2 + cpu_nice r.2 + cpu_kernel r.2 + cpu_idle r.2 + cpu_iowait r.2)) e.
Proof.
  intros Hf HF Hn Hk. eapply wp_mono; [by apply stat_values_int|].
  cbn. intros r e' (_ & ->). cbn [snd cpu_total cpu_iowait cpu_user cpu_nice cpu_kernel cpu_idle].
  unfold wrap. by rewrite Zplus_mod_idemp_l.
Qed.

(** Without any of the four lines the file is reported as one that cannot be parsed. *)
Theorem cpu_stats_no_keyword ls b e :
  sys_file "/proc/stat" = Some (stat_file ls) -> Forall stat_ok ls -> ~ Exists is_keyword ls ->
  wp (sg_get_cpu_stats_int b) (fun r e' => r.1 = SG_ERROR_PARSE) e.
Proof.
  intros Hf HF Hk. unfold sg_get_cpu_stats_int, fopen. rewrite Hf. apply wp_bind, wp_ret.
  assert (filter is_keyword ls = []) as E.
  { destruct (filter is_keyword ls) as [|l ks] eqn:E; [done|]. exfalso. apply Hk, Exists_exists.
    assert (l ∈ filter is_keyword ls) as [? ?]%list_elem_of_filter by (rewrite E; by left). by exists l. }
  rewrite cpu_loop_lines by (rewrite ?E; done). rewrite E. cbn. by apply wp_bind.
Qed.
End proc_stat.

(** A file of the kernel with two processors, whose line of interrupts is longer than the buffer. *)
Definition demo_stat_lines : list stat_line :=
  [mk_stat "cpu" "  " [100; 20; 30; 4000; 50; 6; 7; 0; 0; 0]; mk_stat "cpu0" " " [60; 10; 20; 2000; 40; 3; 3; 0; 0; 0];
   mk_stat "cpu1" " " [40; 10; 10; 2000; 10; 3; 4; 0; 0; 0]; mk_stat "intr" " " (123456 :: replicate 700 0);
   mk_stat "ctxt" " " [7890]; mk_stat "btime" " " [1700000000]; mk_stat "processes" " " [4321];
   mk_stat "softirq" " " [555; 1; 2; 3]].

Definition stat_text_system : System :=
  {| sys_file := fun p => if String.eqb p "/proc/stat" then Some (stat_file demo_stat_lines) else None;
     sys_open_errno := fun _ => 2; sys_time := 1000; sys_page_size := 4096 |}.

Lemma demo_stat_lines_ok : Forall stat_ok demo_stat_lines.
Proof.
  repeat constructor; try done; try (simpl; lia); try (vm_compute; lia).
Qed.

Lemma cpu_stats_of_stat_witness :
  1024 < Z.of_nat (String.length (stat_text (mk_stat "intr" " " (123456 :: replicate 700 0)))) /\
  wp (@sg_get_cpu_stats_int stat_text_system cpu_zero)
     (fun r e' => e' = demo_env /\ r = (SG_ERROR_NONE,
        mk_cpu_stats 100 30 4000 50 0 20 (wrap 64 (100 + 20 + 30 + 4000)) 7890 0 0 0 123456 555 1000)) demo_env.
Proof.
  split; [by vm_compute|].
  apply (@cpu_stats_of_stat stat_text_system demo_stat_lines); [reflexivity|apply demo_stat_lines_ok| |].
  - apply (bool_decide_unpack _); vm_compute; exact I.
  - left. apply (bool_decide_unpack _); vm_compute; exact I.
Defined.

(** ** The difference to the last reading *)

Section cpu_access.
Context {mem : Memory} {sys : System}.

(** What /proc/stat says: the reading of its lines. *)
Definition stat_reading (ls : list stat_line) : sg_cpu_stats :=
  let cpu i := stat_value "cpu" i ls 0 in
  {| cpu_user := cpu 0%nat; cpu_nice := cpu 1%nat; cpu_kernel := cpu 2%nat; cpu_idle := cpu 3%nat;
     cpu_iowait := cpu 4%nat; cpu_swap := 0;
     cpu_total := (cpu 0%nat + cpu 1%nat + cpu 2%nat + cpu 3%nat) mod 2 ^ 64;
     cpu_context_switches := stat_value "ctxt" 0 ls 0;
     cpu_voluntary_context_switches := 0; cpu_involuntary_context_switches := 0; cpu_syscalls := 0;
     cpu_interrupts := stat_value "intr" 0 ls 0; cpu_soft_interrupts := stat_value "softirq" 0 ls 0;
     cpu_systime := sys_time |}.

(** What was counted between two readings, on counters of 64 bits. *)
Definition counted_between (last now : sg_cpu_stats) (d : sg_cpu_stats) : Prop :=
  let between (field : sg_cpu_stats -> Z) := field d = (field now - field last) mod 2 ^ 64 in
  between cpu_user /\ between cpu_nice /\ between cpu_kernel /\ between cpu_idle /\ between cpu_iowait /\
  between cpu_swap /\ between cpu_total /\ between cpu_context_switches /\
  between cpu_voluntary_context_switches /\ between cpu_involuntary_context_switches /\
  between cpu_syscalls /\ between cpu_interrupts /\ between cpu_soft_interrupts /\
  cpu_systime d = s64 (cpu_systime now - cpu_systime last).

Lemma cpu_gathers ls :
  sys_file "/proc/stat" = Some (stat_file ls) -> Forall stat_ok ls -> NoDup (sl_name <$> ls) ->
  Exists is_keyword ls ->
  gathers (on_item as_cpu ICpu sg_get_cpu_stats_int) (fun x => x = ICpu (stat_reading ls)).
Proof.
  intros Hf HF Hn Hk it Q e Hna HQ. apply wp_bind.
  eapply wp_mono; [by apply (stat_values_int ls)|]. cbn. intros r e' (-> & ->). apply wp_ret.
  apply HQ; [unfold calmer; auto | done].
Qed.

(** C22: [sg_get_cpu_stats_diff] after an earlier reading [last], on a /proc/stat as in
    [cpu_stats_of_stat]: every counter of the result is the number of the line of
    /proc/stat less that of the earlier reading, modulo 2^64, and the time the seconds
    in between; the new reading replaces the earlier one for the next call. Memory must
    last. *)
Theorem cpu_diff_since_last ls last n od vs w :
  sys_file "/proc/stat" = Some (stat_file ls) -> Forall stat_ok ls -> NoDup (sl_name <$> ls) ->
  Exists is_keyword ls ->
  vs !! SG_CPU_NOW_IDX = Some (Some n) -> vs !! SG_CPU_DIFF_IDX = Some od -> od <> Some n ->
  holds Kcpu (Some n) (ICpu last) w -> single_state Kcpu od w -> wf_heap w ->
  (AFail ∉ e_allocs (w_env w)) ->
  wp sg_get_cpu_stats_diff
     (fun r st => exists d diff, r = (Some d, 1) /\
        holds Kcpu (Some n) (ICpu (stat_reading ls)) (c_world st) /\
        holds Kcpu (Some d) (ICpu diff) (c_world st) /\ counted_between last (stat_reading ls) diff)
     (mk_comp (Some vs) w).
Proof.
  intros Hf HF Hnd Hk Hn Hd Hne Hl Ho Hh Hna.
  apply (wp_easy_diff Kcpu eq_refl _ _ (cpu_gathers ls Hf HF Hnd Hk) cpu_diff_int
    (fun now la => ICpu (sg_get_cpu_stats_diff_int (Some (as_cpu now)) (Some (as_cpu la))))
    ltac:(done) _ _ (ICpu last) n od vs); try done.
  intros d x w' -> H1 H2. eexists d, _. split_and!; [done | done | exact H2 |].
  unfold counted_between. by split_and!.
Qed.
End cpu_access.

Definition demo_cpu_last : sg_cpu_stats :=
  mk_cpu_stats 90 20 3900 50 0 (2 ^ 64 - 10) 4020 700 0 0 0 123000 500 900.

Definition cpu_world : world :=
  mk_world (<[1%positive := demo_vec Kcpu [ICpu demo_cpu_last] 2]> ∅) 2 demo_env.

(** The counter of nice has started again from 0. *)
Lemma cpu_diff_since_last_witness :
  counted_between demo_cpu_last (@stat_reading stat_text_system demo_stat_lines)
    (mk_cpu_stats 10 10 100 0 0 30 130 7190 0 0 0 456 55 100) /\
  wp (@sg_get_cpu_stats_diff demo_memory stat_text_system)
     (fun r st => exists d diff, r = (Some d, 1) /\
        holds Kcpu (Some 1%positive) (ICpu (@stat_reading stat_text_system demo_stat_lines)) (c_world st) /\
        holds Kcpu (Some d) (ICpu diff) (c_world st) /\
        counted_between demo_cpu_last (@stat_reading stat_text_system demo_stat_lines) diff)
     (mk_comp (Some [Some 1%positive; None; None]) cpu_world).
Proof.
  split; [by repeat split; vm_compute|].
  apply (@cpu_diff_since_last demo_memory stat_text_system demo_stat_lines demo_cpu_last 1%positive None);
    [reflexivity | apply demo_stat_lines_ok | | | reflexivity | reflexivity | done | | by left | |
     apply not_elem_of_nil].
  - apply (bool_decide_unpack _); vm_compute; exact I.
  - left. apply (bool_decide_unpack _); vm_compute; exact I.
  - exists 1%positive, (demo_vec Kcpu [ICpu demo_cpu_last] 2). split_and!; try reflexivity.
    apply demo_vec_wf; [cbn; lia | cbn; lia | repeat constructor].
  - intros l Hl. cbn in *. rewrite lookup_insert_ne by lia. reflexivity.
Defined.

(** * /proc/vmstat *)

(** A line of /proc/vmstat has one number, behind one blank. *)
Record vmstat_ok (l : stat_line) : Prop := {
  vo_stat : stat_ok l;
  vo_pad : sl_pad l = " ";
  vo_one : length (sl_values l) = 1%nat }.

Definition vmstat_names : list string := ["pgpgin"; "pgpgout"].
Definition is_vmstat (l : stat_line) : Prop := sl_name l ∈ vmstat_names.
#[global] Instance is_vmstat_dec l : Decision (is_vmstat l).
Proof. unfold is_vmstat. apply _. Defined.

Lemma strncmp_word kw n r :
  all_chars not_space kw = true -> all_chars not_space n = true ->
  (strncmp (n +:+ String " " r) (kw +:+ " ") (String.length (kw +:+ " ")) =? 0) = bool_decide (n = kw).
Proof.
  revert n. induction kw as [|c kw IH]; intros n Hk Hn.
  - destruct n as [|d n]; [by destruct r|]. rewrite bool_decide_eq_false_2 by done. simpl in Hn.
    apply andb_true_iff in Hn as [Hd _]. change (String d n +:+ ?x) with (String d (n +:+ x)). change (EmptyString +:+ " ") with " ". cbn [String.length strncmp].
    cmp_cases; [done..|]. by assert (d = " "%char) as -> by (apply byte_of_inj; lia).
  - simpl in Hk. apply andb_true_iff in Hk as [Hc Hk]. change (String c kw +:+ ?x) with (String c (kw +:+ x)).
    destruct n as [|d n]; cbn [String.length].
    + rewrite bool_decide_eq_false_2 by done. change (EmptyString +:+ String " " r) with (String " " r). cbn [strncmp].
      cmp_cases; [done..|]. by assert (c = " "%char) as -> by (apply byte_of_inj; lia).
    + simpl in Hn. apply andb_true_iff in Hn as [_ Hn]. change (String d n +:+ ?x) with (String d (n +:+ x)). cbn [strncmp].
      destruct (decide (c = d)) as [->|Hne].
      * rewrite Z.ltb_irrefl, IH by done. apply bool_decide_ext. split; congruence.
      * rewrite bool_decide_eq_false_2 by congruence. cmp_cases; [done..|].
        by assert (c = d) as -> by (apply byte_of_inj; lia).
Qed.

Lemma vmstat_text l : vmstat_ok l -> exists v, sl_values l = [v] /\ in_u64 v /\
  stat_text l = sl_name l +:+ String " " (print_unsigned v +:+ nl).
Proof.
  intros [H Hp Ho]. destruct (sl_values l) as [|v [|w vs]] eqn:E; [done| |done]. exists v.
  pose proof (so_values l H) as HF. rewrite E in HF. inversion_clear HF as [|? ? Hv _]. split; [done|]. split; [exact Hv|].
  unfold stat_text, sl_fields. rewrite E, Hp. cbn [fmap list_fmap fields_text].
  by rewrite string_app_assoc, string_app_nil.
Qed.

Lemma vmstat_short l : vmstat_ok l -> short_line 256 (stat_text l).
Proof.
  intros H. destruct (vmstat_text l H) as (v & _ & Hv & ->). exists (sl_name l +:+ String " " (print_unsigned v)).
  destruct (print_unsigned_digits v) as [Hd _]; [by destruct Hv|]. split_and!.
  - by rewrite string_app_assoc.
  - rewrite all_chars_app. apply andb_true_iff. split.
    + apply (all_chars_impl not_space), so_name, H. intros c Hc. apply bool_decide_eq_true. by intros ->.
    + cbn [all_chars]. apply (all_chars_impl isdigit); [|done]. intros c Hc. apply field_char. by left.
  - rewrite string_length_app. cbn [String.length]. pose proof (so_short l (vo_stat l H)).
    pose proof (print_unsigned_length 20 v ltac:(lia)) as L. cbn in L. destruct Hv. lia.
Qed.

Definition vmstat_apply (b : sg_page_stats) (l : stat_line) : sg_page_stats :=
  if decide (sl_name l = "pgpgin") then mk_page_stats (sl_values l !!! 0%nat) (pages_pageout b) (page_systime b)
  else if decide (sl_name l = "pgpgout") then mk_page_stats (pages_pagein b) (sl_values l !!! 0%nat) (page_systime b)
  else b.

Lemma vmstat_names_unique : NoDup vmstat_names.
Proof. apply (bool_decide_unpack _); vm_compute; exact I. Qed.

Lemma vmstat_loop_done ls m b : 2 <= m -> linux_vmstat_loop ls m b = (m, b).
Proof. intros Hm. destruct ls as [|l ls]; [done|]. cbn [linux_vmstat_loop]. by rewrite (proj2 (Z.ltb_ge m 2)). Qed.

Lemma vmstat_loop_line l ls m b : vmstat_ok l -> m < 2 ->
  linux_vmstat_loop (stat_text l :: ls) m b
    = linux_vmstat_loop ls (m + (if decide (is_vmstat l) then 1 else 0)) (vmstat_apply b l).
Proof.
  intros H Hm. destruct (vmstat_text l H) as (v & Ev & Hv & Et). pose proof (so_name l (vo_stat l H)) as Hn.
  assert (sscanf (stat_text l) "%*s %llu" = (1, [VInt v])) as Es.
  { rewrite Et. unfold sscanf.
    change (parse_format (String.length "%*s %llu") "%*s %llu") with [DConv true None 32 Cs; DWhite; DConv false None 64 Cu].
    rewrite scan_skip_word; [|done|by pose proof (so_first l (vo_stat l H)); destruct (sl_name l)|done].
    change (String " " (print_unsigned v +:+ nl)) with (" " +:+ (print_unsigned v +:+ nl)). by rewrite scan_u64. }
  cbn [linux_vmstat_loop]. rewrite (proj2 (Z.ltb_lt m 2)) by done. rewrite Es, Et. cbn [negb].
  change (1 =? 1) with true. cbn [negb]. cbn [arg_int lookup list_lookup].
  pose proof (strncmp_word "pgpgin" (sl_name l) (print_unsigned v +:+ nl) eq_refl Hn) as E1.
  pose proof (strncmp_word "pgpgout" (sl_name l) (print_unsigned v +:+ nl) eq_refl Hn) as E2.
  change ("pgpgin" +:+ " ") with "pgpgin " in E1. change ("pgpgout" +:+ " ") with "pgpgout " in E2. cbn [String.length] in E1, E2. rewrite E1, E2.
  unfold vmstat_apply, is_vmstat, vmstat_names. rewrite Ev.
  destruct (decide (sl_name l = "pgpgin")) as [E|N1]; [|destruct (decide (sl_name l = "pgpgout")) as [E|N2]].
  - by rewrite bool_decide_eq_true_2, (decide_True (P := _ ∈ _)) by (done || set_solver).
  - rewrite bool_decide_eq_false_2, bool_decide_eq_true_2, (decide_True (P := _ ∈ _)) by (done || set_solver). done.
  - rewrite !bool_decide_eq_false_2, decide_False by (done || set_solver). by rewrite Z.add_0_r.
Qed.

Lemma vmstat_loop_lines ls : forall m b, Forall vmstat_ok ls -> m + Z.of_nat (length (filter is_vmstat ls)) <= 2 ->
  linux_vmstat_loop (stat_text <$> ls) m b = (m + Z.of_nat (length (filter is_vmstat ls)), foldl vmstat_apply b ls).
Proof.
  induction ls as [|l ls IH]; intros m b HF Hm; [by rewrite Z.add_0_r|].
  apply Forall_cons in HF as [Hl HF]. rewrite fmap_cons, filter_cons in *. destruct (Z.lt_ge_cases m 2) as [L|L].
  - rewrite vmstat_loop_line by done. destruct (decide (is_vmstat l)); cbn [length] in *; rewrite IH by (done || lia);
      f_equal; lia.
  - rewrite vmstat_loop_done by done. destruct (decide (is_vmstat l)) as [|Hk]; cbn [length] in *; [lia|].
    specialize (IH m b HF Hm). rewrite vmstat_loop_done in IH by done. rewrite IH. cbn [foldl].
    replace (vmstat_apply b l) with b; [done|]. unfold vmstat_apply, is_vmstat, vmstat_names in *.
    by rewrite !decide_False by set_solver.
Qed.

Lemma vmstat_apply_all ls : forall b, NoDup (sl_name <$> ls) ->
  foldl vmstat_apply b ls =
    mk_page_stats (stat_value "pgpgin" 0 ls (pages_pagein b)) (stat_value "pgpgout" 0 ls (pages_pageout b)) (page_systime b).
Proof.
  induction ls as [|l ls IH]; intros b Hn; [by destruct b|]. rewrite fmap_cons in Hn. apply NoDup_cons in Hn as [Ha Hn].
  cbn [foldl stat_value]. rewrite IH by done. unfold vmstat_apply.
  repeat case_decide; try congruence; simpl;
    match goal with E : sl_name _ = _ |- _ => rewrite E in Ha | _ => idtac end;
    by rewrite ?(stat_value_absent _ _ _ _ Ha).
Qed.

Section vmstat.
Context {sys : System}.

(** The page statistics are those of /proc/vmstat, whatever the order of its lines; with one of the
    two counters missing the file is reported as one that cannot be parsed. *)
Theorem page_stats_of_vmstat ls b e :
  sys_file "/proc/vmstat" = Some (stat_file ls) -> Forall vmstat_ok ls -> NoDup (sl_name <$> ls) ->
  wp (sg_get_page_stats_int b)
     (fun r e' =>
        if decide ("pgpgin" ∈ sl_name <$> ls /\ "pgpgout" ∈ sl_name <$> ls) then
          e' = e /\ r = (SG_ERROR_NONE, mk_page_stats (stat_value "pgpgin" 0 ls 0) (stat_value "pgpgout" 0 ls 0) sys_time)
        else r.1 = SG_ERROR_PARSE /\ eg_error (sg_get_error_glob e') = SG_ERROR_PARSE) e.
Proof.
  intros Hf HF Hn. unfold sg_get_page_stats_int, fopen. rewrite Hf. apply wp_bind, wp_ret. unfold stat_file.
  rewrite file_lines_short by (apply Forall_fmap; eapply Forall_impl; [exact HF|exact vmstat_short]).
  pose proof (found_count sl_name vmstat_names is_vmstat ltac:(done) vmstat_names_unique ls Hn) as Ec.
  pose proof (found_bound sl_name vmstat_names is_vmstat ltac:(done) vmstat_names_unique ls Hn) as Lc. simpl length in Lc at 2.
  rewrite vmstat_loop_lines, vmstat_apply_all by (done || lia). rewrite Ec. unfold vmstat_names. rewrite !filter_cons, filter_nil.
  destruct (decide ("pgpgin" ∈ sl_name <$> ls)) as [H1|H1], (decide ("pgpgout" ∈ sl_name <$> ls)) as [H2|H2].
  all: destruct (decide ("pgpgin" ∈ sl_name <$> ls /\ "pgpgout" ∈ sl_name <$> ls)) as [C|C]; try tauto.
  1: by apply wp_ret.
  all: cbv beta; split; [done|]; simpl; by rewrite get_put_error_glob.
Qed.
End vmstat.

Definition demo_vmstat : list stat_line :=
  [mk_stat "nr_free_pages" " " [81920]; mk_stat "pgpgout" " " [2222]; mk_stat "pgpgin" " " [1111]; mk_stat "pswpin" " " [9]].

Definition vmstat_system : System :=
  {| sys_file := fun p => if String.eqb p "/proc/vmstat" then Some (stat_file demo_vmstat) else None;
     sys_open_errno := fun _ => 2; sys_time := 1000; sys_page_size := 4096 |}.

Lemma demo_vmstat_ok : Forall vmstat_ok demo_vmstat.
Proof. repeat constructor; try done; try (simpl; lia); try (vm_compute; lia). Qed.

Lemma page_stats_of_vmstat_witness :
  wp (@sg_get_page_stats_int vmstat_system raw_page)
     (fun r e' => e' = demo_env /\ r = (SG_ERROR_NONE, mk_page_stats 1111 2222 1000)) demo_env.
Proof.
  apply (@page_stats_of_vmstat vmstat_system demo_vmstat); [reflexivity|apply demo_vmstat_ok|].
  apply (bool_decide_unpack _); vm_compute; exact I.
Defined.

(** * The swap space of /proc/meminfo *)

Definition swap_names : list string := ["SwapTotal"; "SwapFree"].
Definition is_swap (m : meminfo_entry) : Prop := me_name m ∈ swap_names.
#[global] Instance is_swap_dec m : Decision (is_swap m).
Proof. unfold is_swap. apply _. Defined.

Definition swap_apply (b : sg_swap_stats) (m : meminfo_entry) : sg_swap_stats :=
  if decide (me_name m = "SwapTotal") then mk_swap_stats (1024 * me_value m) (swap_used b) (swap_free b) (swap_systime b)
  else if decide (me_name m = "SwapFree") then mk_swap_stats (swap_total b) (swap_used b) (1024 * me_value m) (swap_systime b)
  else b.

Lemma swap_loop_done ls m b : 2 <= m -> linux_swap_loop ls m b = (m, b).
Proof. intros Hm. destruct ls as [|l ls]; [done|]. cbn [linux_swap_loop]. by rewrite (proj2 (Z.ltb_ge m 2)). Qed.

Lemma swap_loop_line x ls m b : entry_ok x -> m < 2 ->
  linux_swap_loop (meminfo_line x :: ls) m b
    = linux_swap_loop ls (m + (if decide (is_swap x) then 1 else 0)) (swap_apply b x).
Proof.
  intros H Hm. pose proof (eo_name x H) as Hn. pose proof (eo_value x H) as Hv.
  cbn [linux_swap_loop]. rewrite (proj2 (Z.ltb_lt m 2)) by done. destruct (meminfo_scan x H) as [_ ->].
  change (negb (1 =? 1)) with false. cbn [negb arg_int lookup list_lookup].
  pose proof (keyword_test "SwapTotal" x eq_refl Hn) as E1. pose proof (keyword_test "SwapFree" x eq_refl Hn) as E2.
  change ("SwapTotal" +:+ colon) with "SwapTotal:" in E1. change ("SwapFree" +:+ colon) with "SwapFree:" in E2.
  cbn [String.length] in E1, E2. rewrite E1, E2, (wrap_small 64), (Z.mul_comm _ 1024) by lia.
  unfold swap_apply, is_swap, swap_names.
  destruct (decide (me_name x = "SwapTotal")) as [E|N1]; [|destruct (decide (me_name x = "SwapFree")) as [E|N2]].
  - by rewrite bool_decide_eq_true_2, (decide_True (P := _ ∈ _)) by (done || set_solver).
  - rewrite bool_decide_eq_false_2, bool_decide_eq_true_2, (decide_True (P := _ ∈ _)) by (done || set_solver). done.
  - rewrite !bool_decide_eq_false_2, decide_False by (done || set_solver). by rewrite Z.add_0_r.
Qed.

Lemma swap_loop_lines ms : forall m b, Forall entry_ok ms -> m + Z.of_nat (length (filter is_swap ms)) <= 2 ->
  linux_swap_loop (meminfo_line <$> ms) m b = (m + Z.of_nat (length (filter is_swap ms)), foldl swap_apply b ms).
Proof.
  induction ms as [|x ms IH]; intros m b HF Hm; [by rewrite Z.add_0_r|].
  apply Forall_cons in HF as [Hl HF]. rewrite fmap_cons, filter_cons in *. destruct (Z.lt_ge_cases m 2) as [L|L].
  - rewrite swap_loop_line by done. destruct (decide (is_swap x)); cbn [length] in *; rewrite IH by (done || lia);
      f_equal; lia.
  - rewrite swap_loop_done by done. destruct (decide (is_swap x)) as [|Hk]; cbn [length] in *; [lia|].
    specialize (IH m b HF Hm). rewrite swap_loop_done in IH by done. rewrite IH. cbn [foldl].
    replace (swap_apply b x) with b; [done|]. unfold swap_apply, is_swap, swap_names in *.
    by rewrite !decide_False by set_solver.
Qed.

Lemma swap_apply_all ms u t : forall T F, foldl swap_apply (mk_swap_stats (1024 * T) u (1024 * F) t) ms =
  mk_swap_stats (1024 * last_val "SwapTotal" ms T) u (1024 * last_val "SwapFree" ms F) t.
Proof.
  induction ms as [|m ms IH]; intros T F; [done|]. cbn [foldl last_val].
  unfold swap_apply at 2. simpl. repeat case_decide; try congruence; by rewrite IH.
Qed.

Lemma last_val_range name ms : forall old, Forall entry_ok ms -> 0 <= old < 2 ^ 54 -> 0 <= last_val name ms old < 2 ^ 54.
Proof.
  induction ms as [|m ms IH]; intros old HF Ho; [done|]. apply Forall_cons in HF as [Hm HF]. cbn [last_val].
  apply IH; [done|]. case_decide; [apply Hm|done].
Qed.

Lemma swap_names_unique : NoDup swap_names.
Proof. apply (bool_decide_unpack _); vm_compute; exact I. Qed.

Section swap.
Context {sys : System}.

(** The swap statistics are those of /proc/meminfo in bytes, and used and free space add up to the
    total; without one of the two entries the file is reported as one that cannot be parsed. *)
Theorem swap_stats_of_meminfo ms b e :
  sys_file "/proc/meminfo" = Some (meminfo_text ms) -> Forall entry_ok ms -> NoDup (me_name <$> ms) ->
  last_val "SwapFree" ms 0 <= last_val "SwapTotal" ms 0 ->
  wp (sg_get_swap_stats_int b)
     (fun r e' =>
        if decide ("SwapTotal" ∈ me_name <$> ms /\ "SwapFree" ∈ me_name <$> ms) then
          e' = e /\ r.1 = SG_ERROR_NONE /\ swap_total r.2 = 1024 * last_val "SwapTotal" ms 0 /\
          swap_free r.2 = 1024 * last_val "SwapFree" ms 0 /\ swap_used r.2 + swap_free r.2 = swap_total r.2
        else r.1 = SG_ERROR_PARSE /\ eg_error (sg_get_error_glob e') = SG_ERROR_PARSE) e.
Proof.
  intros Hf HF Hn Hle. unfold sg_get_swap_stats_int, fopen. rewrite Hf. apply wp_bind, wp_ret. unfold meminfo_text.
  rewrite file_lines_short by (apply Forall_fmap; eapply Forall_impl; [exact HF|intros ? []; done]).
  pose proof (found_count me_name swap_names is_swap ltac:(done) swap_names_unique ms Hn) as Ec.
  pose proof (found_bound me_name swap_names is_swap ltac:(done) swap_names_unique ms Hn) as Lc. simpl length in Lc at 2.
  rewrite swap_loop_lines by (done || lia).
  change (swap_zero b) with (mk_swap_stats (1024 * 0) 0 (1024 * 0) (swap_systime b)). rewrite swap_apply_all.
  rewrite Ec. unfold swap_names. rewrite !filter_cons, filter_nil.
  assert (0 <= last_val "SwapFree" ms 0 /\ last_val "SwapTotal" ms 0 < 2 ^ 54) as [H0 H1].
  { split; apply last_val_range; (done || lia). }
  destruct (decide ("SwapTotal" ∈ me_name <$> ms)) as [I1|I1], (decide ("SwapFree" ∈ me_name <$> ms)) as [I2|I2].
  all: destruct (decide ("SwapTotal" ∈ me_name <$> ms /\ "SwapFree" ∈ me_name <$> ms)) as [C|C]; try tauto.
  1: { apply wp_ret. cbn [fst snd swap_total swap_free swap_used]. rewrite (wrap_small 64) by lia. split_and!; (done || lia). }
  all: cbv beta; split; [done|]; simpl; by rewrite get_put_error_glob.
Qed.
End swap.

Definition demo_swapinfo : list meminfo_entry :=
  [mk_entry "MemTotal" "       " 16000000; mk_entry "SwapCached" " " 77;
   mk_entry "SwapTotal" "      " 2000000; mk_entry "SwapFree" " " 1500000; mk_entry "Dirty" " " 5].

Definition swap_system : System :=
  {| sys_file := fun p => if String.eqb p "/proc/meminfo" then Some (meminfo_text demo_swapinfo) else None;
     sys_open_errno := fun _ => 2; sys_time := 1000; sys_page_size := 4096 |}.

Lemma demo_swapinfo_ok : Forall entry_ok demo_swapinfo.
Proof.
  repeat constructor; cbn; try lia; try done.
  all: match goal with |- short_line _ ?l =>
         let s := eval vm_compute in (String.substring 0 (String.length l - 1) l) in exists s end.
  all: split_and!; [by vm_compute | by vm_compute | cbn; lia].
Qed.

Lemma swap_stats_of_meminfo_witness :
  wp (@sg_get_swap_stats_int swap_system raw_swap)
     (fun r e' => e' = demo_env /\ r.1 = SG_ERROR_NONE /\ swap_total r.2 = 1024 * 2000000 /\
        swap_free r.2 = 1024 * 1500000 /\ swap_used r.2 + swap_free r.2 = swap_total r.2) demo_env.
Proof.
  apply (@swap_stats_of_meminfo swap_system demo_swapinfo); [reflexivity|apply demo_swapinfo_ok| |by vm_compute].
  apply (bool_decide_unpack _); vm_compute; exact I.
Defined.
