(* ===== verification/GlobalsProps.v ===== *)
(** The theorems about globals.c: the layout of the thread storage, the table of
    named mutexes, starting and stopping the library, and what happens when the
    storage of a thread cannot be had. *)

From S2P Require Import Prelude Types CLib Errors Globals.

(** * Layout of the thread storage *)

Definition total_size (cs : list comp_init) : Z := foldr (fun c t => static_buf_size c + t) 0 cs.

Lemma total_size_cons c cs : total_size (c :: cs) = static_buf_size c + total_size cs.
Proof. done. Qed.

Lemma total_size_nonneg cs : Forall (fun c => 0 <= static_buf_size c) cs -> 0 <= total_size cs.
Proof. induction 1; [done|]. rewrite total_size_cons. lia. Qed.

Lemma layout_spec cs : forall base total ofs,
  Forall (fun c => 0 <= static_buf_size c) cs -> 0 <= base -> base + total_size cs < 2 ^ 64 ->
  layout base cs = (total, ofs) ->
  total = base + total_size cs /\ length ofs = length cs /\
  forall i c o, cs !! i = Some c -> ofs !! i = Some o -> o = base + total_size (take i cs).
Proof.
  induction cs as [|c cs IH]; intros base total ofs HF Hb Hs Hl; cbn [layout] in *.
  { injection Hl as <- <-. split_and!; [cbn; lia | done | intros i c o H; by rewrite lookup_nil in H]. }
  apply Forall_cons in HF as [Hc HF]. pose proof (total_size_nonneg cs HF) as Hn.
  rewrite total_size_cons in *. rewrite wrap_small in Hl by lia.
  destruct (layout (base + static_buf_size c) cs) as [t' o'] eqn:E. injection Hl as <- <-.
  destruct (IH (base + static_buf_size c) t' o' HF ltac:(lia) ltac:(lia) E) as (-> & Hlen & Ho).
  split_and!; [lia | cbn; lia |].
  intros [|i] x o Hx Hi; [injection Hi as <-; cbn; lia|].
  cbn [take]. rewrite (Ho i x o Hx Hi), total_size_cons. lia.
Qed.

Lemma total_take_next cs i c :
  cs !! i = Some c -> total_size (take (S i) cs) = total_size (take i cs) + static_buf_size c.
Proof.
  revert cs. induction i as [|i IH]; intros [|x cs] H; try done.
  - injection H as ->. cbn. rewrite take_0. cbn. lia.
  - cbn [take] in *. rewrite !total_size_cons. rewrite (IH cs H). lia.
Qed.

Lemma total_take_mono cs i j :
  Forall (fun c => 0 <= static_buf_size c) cs -> (i <= j)%nat ->
  total_size (take i cs) <= total_size (take j cs).
Proof.
  intros HF. revert i j. induction HF as [|c cs Hc HF IH]; intros [|i] [|j] Hij; cbn [take];
    rewrite ?total_size_cons; try lia.
  - specialize (IH 0%nat j ltac:(lia)). rewrite take_0 in IH. cbn in *. lia.
  - specialize (IH i j ltac:(lia)). lia.
Qed.

(** C26: the offsets [sg_comp_init] assigns give every component a part of the thread
    storage of its own: it ends before that of every later component begins and
    within the size that is allocated. *)
Theorem layout_disjoint cs total ofs i j ci oi oj :
  Forall (fun c => 0 <= static_buf_size c) cs -> total_size cs < 2 ^ 64 ->
  layout 0 cs = (total, ofs) ->
  cs !! i = Some ci -> ofs !! i = Some oi -> ofs !! j = Some oj ->
  0 <= oi /\ oi + static_buf_size ci <= total /\
  ((i < j)%nat -> oi + static_buf_size ci <= oj).
Proof.
  intros HF Hs Hl Hci Hoi Hoj.
  destruct (layout_spec cs 0 total ofs HF ltac:(lia) ltac:(lia) Hl) as (-> & Hlen & Ho).
  rewrite (Ho i ci oi Hci Hoi).
  pose proof (total_take_next cs i ci Hci) as Hnext.
  pose proof (total_take_mono cs 0 i HF ltac:(lia)) as H0. rewrite take_0 in H0. change (total_size []) with 0 in H0.
  pose proof (lookup_lt_Some _ _ _ Hci).
  pose proof (total_take_mono cs (S i) (length cs) HF ltac:(lia)) as H1.
  rewrite (take_ge cs (length cs)) in H1 by lia. split_and!; [lia | lia |]. intros Hij.
  destruct (lookup_lt_is_Some_2 cs j) as [cj Hcj].
  { rewrite <- Hlen. by eapply lookup_lt_Some. }
  rewrite (Ho j cj oj Hcj Hoj). pose proof (total_take_mono cs (S i) j HF ltac:(lia)). lia.
Qed.

Lemma layout_disjoint_witness :
  0 <= 4104 /\ 4104 + 24 <= 4256 /\ ((1 < 2)%nat -> 4104 + 24 <= 4128).
Proof.
  apply (layout_disjoint comp_info 4256
    [0; 4104; 4128; 4160; 4168; 4176; 4200; 4208; 4224; 4240; 4248] 1 2 (EASY_COMP_SETUP 3 []) 4104 4128);
    try reflexivity.
  repeat (apply Forall_cons; split; [by vm_compute|]). by apply Forall_nil.
Defined.

(** * The table of mutexes *)

Definition lock_le (a b : named_mutex) : Prop := cmp_locks a b <= 0.

#[export] Instance lock_le_trans : Transitive lock_le.
Proof. intros a b c. apply strcmp_le_trans. Qed.

Definition names (l : list named_mutex) : list string := nm_name <$> l.

(** The table [bsearch] relies on. *)
Definition lock_table (l : list named_mutex) : Prop := Sorted lock_le l /\ NoDup (names l).

Lemma lock_key_mono n l : Sorted lock_le l -> key_mono (cmp_named_locks n) l.
Proof.
  intros Hs. apply (key_mono_sorted lock_le); [done|]. intros x y Hle.
  pose proof (strcmp_mono n _ _ Hle). unfold cmp_named_locks. lia.
Qed.

Lemma lock_search n l :
  Sorted lock_le l ->
  match bsearch (cmp_named_locks n) l with
  | Some i => exists m, l !! i = Some m /\ nm_name m = n
  | None => n ∉ names l
  end.
Proof.
  intros Hs. pose proof (bsearch_spec _ _ (lock_key_mono n l Hs)) as Hb.
  destruct (bsearch (cmp_named_locks n) l) as [i|].
  - destruct Hb as (m & Hm & Hz). exists m. split; [done|].
    unfold cmp_named_locks in Hz. by apply strcmp_eq in Hz.
  - intros (m & -> & Hm)%list_elem_of_fmap. apply (Hb m Hm). unfold cmp_named_locks.
    by apply strcmp_eq.
Qed.

Lemma names_perm l l' : Permutation l l' -> Permutation (names l) (names l').
Proof. intros. by apply fmap_Permutation. Qed.

Lemma add_locks_spec l req :
  lock_table l ->
  lock_table (add_locks l req) /\
  (forall n, n ∈ names (add_locks l req) <-> n ∈ names l \/ n ∈ req) /\
  (forall m, m ∈ l -> m ∈ add_locks l req).
Proof.
  revert l. induction req as [|n req IH]; intros l Ht; cbn [add_locks].
  { split_and!; [done | | done]. intros n. rewrite elem_of_nil. tauto. }
  pose proof (lock_search n l (proj1 Ht)) as Hb.
  destruct (bsearch (cmp_named_locks n) l) as [i|].
  - destruct (IH l Ht) as (H1 & H2 & H3). destruct Hb as (m & Hm & Hnm).
    split_and!; [done | | done]. intros x. rewrite H2, elem_of_cons.
    assert (n ∈ names l) by (apply list_elem_of_fmap; exists m; split; [done|];
      by eapply list_elem_of_lookup_2).
    split; [tauto | intros [?|[->|?]]; auto].
  - set (l' := qsort cmp_locks (l ++ [mk_named_mutex n MUninit])).
    assert (Permutation l' (l ++ [mk_named_mutex n MUninit])) as Hp by apply qsort_perm.
    assert (lock_table l') as Ht'.
    { split; [apply qsort_sorted; intros x y; apply strcmp_total|].
      rewrite (names_perm _ _ Hp). unfold names. rewrite fmap_app. cbn.
      apply NoDup_app. split_and!; [apply Ht | | apply NoDup_singleton].
      intros x Hx ->%list_elem_of_singleton. done. }
    destruct (IH l' Ht') as (H1 & H2 & H3). split_and!; [done | |].
    + intros x. rewrite H2, (names_perm _ _ Hp). unfold names. rewrite fmap_app. cbn.
      rewrite elem_of_app, list_elem_of_singleton, elem_of_cons. tauto.
    + intros m Hm. apply H3. rewrite Hp. apply elem_of_app. by left.
Qed.

(** C28: adding the mutexes a component requires keeps the table sorted and free of
    duplicates (also when a name is listed twice or known from another component),
    loses no mutex, and afterwards the table holds exactly the old and the required
    names; so [bsearch] finds each of them. *)
Theorem add_locks_table l req :
  lock_table l ->
  lock_table (add_locks l req) /\
  (forall n, n ∈ names (add_locks l req) <-> n ∈ names l \/ n ∈ req) /\
  (forall m, m ∈ l -> m ∈ add_locks l req) /\
  (forall n, n ∈ req -> is_Some (bsearch (cmp_named_locks n) (add_locks l req))).
Proof.
  intros Ht. destruct (add_locks_spec l req Ht) as (Ht' & Hn & Hm).
  split_and!; [done | done | done |]. intros n Hreq.
  pose proof (lock_search n _ (proj1 Ht')) as Hb.
  destruct (bsearch _ _); [by eexists|]. destruct Hb. apply Hn. by right.
Qed.

Lemma add_locks_table_witness :
  lock_table (add_locks [mk_named_mutex "statgrab" MUnlocked] ["utmp"; "device"; "utmp"]) /\
  (forall n, n ∈ names (add_locks [mk_named_mutex "statgrab" MUnlocked] ["utmp"; "device"; "utmp"]) <->
     n ∈ names [mk_named_mutex "statgrab" MUnlocked] \/ n ∈ ["utmp"; "device"; "utmp"]) /\
  (forall m, m ∈ [mk_named_mutex "statgrab" MUnlocked] ->
     m ∈ add_locks [mk_named_mutex "statgrab" MUnlocked] ["utmp"; "device"; "utmp"]) /\
  (forall n, n ∈ ["utmp"; "device"; "utmp"] -> is_Some (bsearch (cmp_named_locks n)
     (add_locks [mk_named_mutex "statgrab" MUnlocked] ["utmp"; "device"; "utmp"]))).
Proof. apply add_locks_table. split; [repeat constructor | apply NoDup_singleton]. Defined.

(** * Threads whose storage cannot be had *)

(** When the storage of a thread cannot be allocated, recording that error asks
    for the same storage again: with an allocator that keeps failing
    [sg_comp_get_tls] never returns, whatever the depth of the recursion. *)
Theorem tls_oom_diverges t cs fuel id g :
  g_tls g !! t = None -> g_glob_size g <> 0 ->
  g_allocs g = replicate fuel AFail ->
  sg_comp_get_tls t cs fuel id g = Stuck out_of_fuel.
Proof.
  revert id g. induction fuel as [|fuel IH]; intros id g Ht Hs Ha; [done|].
  cbn [sg_comp_get_tls]. unfold sg_alloc_globals, mbind, M_bind, gets. rewrite Ht.
  destruct (Z.eqb_spec (g_glob_size g) 0); [done|].
  unfold g_alloc. rewrite Ha. cbn [replicate]. rewrite IH by done. done.
Qed.

Lemma tls_oom_diverges_witness :
  sg_comp_get_tls 1 comp_info 5 GLOB_MASK
    (set_allocs (replicate 5 AFail) (set_layout 4256 (replicate 11 0) globals_start))
  = Stuck out_of_fuel.
Proof. apply tls_oom_diverges; [reflexivity | discriminate | reflexivity]. Defined.

(** * The end of a thread *)

(** The clean-up calls for the first [n] components, from the last to the first. *)
Fixpoint cleanup_events (ofs : list Z) (n : nat) : list event :=
  match n with
  | O => []
  | S n' => match ofs !! n' with Some o => [ECleanup n' o] | None => [] end ++ cleanup_events ofs n'
  end.

Lemma wp_cleanup_comps n : forall (Q : unit -> globals -> Prop) g,
  (n <= length (g_ofs g))%nat ->
  (forall g', g_tls g' = g_tls g -> g_ofs g' = g_ofs g ->
     g_trace g' = g_trace g ++ cleanup_events (g_ofs g) n -> Q tt g') ->
  wp (cleanup_comps n) Q g.
Proof.
  induction n as [|n IH]; intros Q g Hn HQ; [apply wp_ret, HQ; by rewrite ?app_nil_r|].
  destruct (lookup_lt_is_Some_2 (g_ofs g) n Hn) as [o Ho].
  apply wp_bind, wp_gets. rewrite Ho. apply wp_bind, wp_modify, IH; [cbn; lia|].
  intros g' Ht Hofs Htr. apply HQ; [done | done |]. cbn [cleanup_events]. rewrite Htr, Ho. cbn.
  by rewrite <- app_assoc.
Qed.

(** C27: At the end of the process the loop over the storage of its last thread ends after one
    round: every component gets to clean up its own part once, from the last one to
    the first, and then the storage is gone. *)
Theorem thread_end_cleans t cs total ofs b g :
  Forall (fun c => 0 <= static_buf_size c) cs -> total_size cs < 2 ^ 64 -> cs <> [] ->
  layout 0 cs = (total, ofs) -> g_ofs g = ofs -> g_tls g !! t = Some b -> tb_size b = total ->
  wp (sg_destroy_main_globals t cs)
     (fun _ g' => g_tls g' = delete t (g_tls g) /\ g_trace g' = g_trace g ++ cleanup_events ofs (length cs)) g.
Proof.
  intros HF Hs Hne Hl Hofs Ht Hb.
  destruct (layout_spec cs 0 total ofs HF ltac:(lia) ltac:(lia) Hl) as (Htot & Hlen & Ho).
  unfold sg_destroy_main_globals. cbn [destroy_main_loop]. apply wp_bind, wp_gets. rewrite Ht.
  apply wp_bind. unfold sg_destroy_globals. apply wp_bind, wp_gets. rewrite Ht.
  apply wp_bind, wp_cleanup_comps; [by rewrite Hofs, Hlen|]. intros g1 Ht1 Ho1 Htr1.
  apply wp_bind, wp_gets. rewrite Ho1, Hofs.
  destruct (exists_last Hne) as (front & c & ->). rewrite length_app in *. cbn in Hlen.
  destruct ofs as [|o0 ofs' _] using rev_ind; [cbn in Hlen; lia|]. rewrite length_app in Hlen. cbn in Hlen.
  rewrite !last_snoc.
  assert (o0 = total_size front) as ->.
  { rewrite (Ho (length front) c o0), take_app_length; [lia | by rewrite lookup_app_r, Nat.sub_diag by lia |].
    rewrite lookup_app_r by lia. by replace (length front - length ofs')%nat with 0%nat by lia. }
  pose proof (total_take_next (front ++ [c]) (length front) c) as Hn.
  rewrite take_ge, take_app_length in Hn by (rewrite length_app; cbn; lia).
  rewrite lookup_app_r, Nat.sub_diag in Hn by lia. specialize (Hn eq_refl).
  pose proof HF as [Hf%total_size_nonneg [Hc _]%Forall_cons]%Forall_app.
  rewrite wrap_small, (proj2 (Z.ltb_ge _ _)) by lia. apply wp_modify.
  apply wp_bind, wp_gets. cbn. rewrite Ht1, lookup_delete_eq. apply wp_ret. cbn.
  rewrite Htr1, Hofs. done.
Qed.

Lemma thread_end_cleans_witness :
  wp (sg_destroy_main_globals 1 comp_info)
     (fun _ g' => g_tls g' = ∅ /\
        take 2 (g_trace g') = [ECleanup 10 4248; ECleanup 9 4240] /\ length (g_trace g') = 11%nat)
     (set_tls {[ 1%nat := mk_tls_buf 4256 error_glob_zero ]}
        (set_layout 4256 [0; 4104; 4128; 4160; 4168; 4176; 4200; 4208; 4224; 4240; 4248] globals_start)).
Proof.
  eapply wp_mono; [eapply (thread_end_cleans 1 comp_info 4256); try reflexivity; [|done] |].
  - repeat (apply Forall_cons; split; [by vm_compute|]). by apply Forall_nil.
  - cbn. intros _ g' [-> ->]. done.
Defined.
