(* ===== verification/LifeCycle.v ===== *)
(** Starting and stopping the library: [sg_comp_init] and [sg_comp_destroy] of
    globals.c against a reference-counted specification, for any table of
    components whose init functions succeed. *)

From S2P Require Import Prelude Types CLib Errors Globals GlobalsProps.

(** * The specification *)

Inductive lib_op := OInit | ODestroy.

(** The calls to the components: forward with their ids, and backward. *)
Definition init_events (i : nat) (cs : list comp_init) : list event :=
  imap (fun j _ => EInit (i + j) (u32 (Z.of_nat (i + j) + GLOB_MASK))) cs.

Fixpoint destroy_events (n : nat) : list event :=
  match n with O => [] | S n' => EDestroy n' :: destroy_events n' end.

(** The number of users and the events of a sequence of calls; [None] when a call
    to destroy has no matching init. *)
Fixpoint spec_run (cs : list comp_init) (ops : list lib_op) (n : nat) : option (nat * list event) :=
  match ops with
  | [] => Some (n, [])
  | OInit :: ops' =>
      r ← spec_run cs ops' (S n);
      Some (r.1, (if decide (n = O) then init_events 0 cs else []) ++ r.2)
  | ODestroy :: ops' =>
      match n with
      | O => None
      | S n' =>
          r ← spec_run cs ops' n';
          Some (r.1, (if decide (n' = O) then destroy_events (length cs) else []) ++ r.2)
      end
  end.

Section life.
Context (t : nat) (cs : list comp_init).

(** The calls, each of which returns SG_ERROR_NONE. *)
Fixpoint run_ops (ops : list lib_op) : M globals bool :=
  match ops with
  | [] => mret true
  | op :: ops' =>
      rc ← match op with
           | OInit => sg_comp_init t cs false
           | ODestroy => sg_comp_destroy t cs
           end;
      if decide (rc = SG_ERROR_NONE) then run_ops ops' else mret false
  end.

(** A table whose components start without an error. *)
Definition comp_ok (c : comp_init) : Prop :=
  (ci_init_fn c = InitError \/ ci_init_fn c = InitOther SG_ERROR_NONE) /\ 0 <= static_buf_size c.

Definition table_ok : Prop :=
  Forall comp_ok cs /\ 0 < total_size cs < 2 ^ 64 /\ Z.of_nat (length cs) < 2 ^ 16.

Definition fold_locks (l : list named_mutex) (cs : list comp_init) : list named_mutex :=
  foldl (fun l c => add_locks l (required_locks c)) l cs.

Definition statgrab_lock : named_mutex := mk_named_mutex "statgrab" (MLocked t 1).

(** The mutexes of a running library. *)
Definition running_locks : list named_mutex :=
  (fun m => if decide (nm_name m = "statgrab") then m else mk_named_mutex (nm_name m) MUnlocked)
    <$> fold_locks [statgrab_lock] cs.

(** [n] users hold the library. *)
Record lib_inv (n : nat) (g : globals) : Prop := {
  li_lock : g_glob_lock g = MUnlocked;
  li_count : g_initialized g = Z.of_nat n;
  li_allocs : g_allocs g = [];
  li_stopped : n = O -> g_locks g = [];
  li_running : (0 < n)%nat ->
    (g_glob_size g, g_ofs g) = layout 0 cs /\ g_locks g = running_locks }.

(** * Storage of the calling thread *)

(** The state after the storage of the thread was asked for. *)
Definition with_tls (g : globals) : globals :=
  match g_tls g !! t with
  | Some _ => g
  | None => set_tls (<[t := mk_tls_buf (g_glob_size g) error_glob_zero]> (g_tls g)) g
  end.

Lemma get_tls_run fuel id o g :
  g_allocs g = [] -> g_glob_size g <> 0 -> u32 (id - GLOB_MASK) < Z.of_nat (length cs) ->
  g_ofs g !! Z.to_nat (u32 (id - GLOB_MASK)) = Some o ->
  sg_comp_get_tls t cs (S fuel) id g = Done (Some o) (with_tls g).
Proof.
  intros Ha Hs Hid Ho. cbn [sg_comp_get_tls]. unfold with_tls, sg_alloc_globals, mbind, M_bind, gets.
  assert ((Z.of_nat (length cs) <=? u32 (id - GLOB_MASK)) = false) as Hlt by lia.
  destruct (g_tls g !! t) eqn:E; cbn [mret M_ret negb].
  - rewrite Hlt, Ho. done.
  - destruct (Z.eqb_spec (g_glob_size g) 0); [done|]. unfold g_alloc. rewrite Ha.
    cbn [modify mret M_ret negb]. rewrite Hlt. cbn [g_ofs set_tls]. rewrite Ho. done.
Qed.

(** * The loop over the components *)

(** What the loop leaves as it is. *)
Record same_base (g g' : globals) : Prop := {
  sb_lock : g_glob_lock g' = g_glob_lock g;
  sb_count : g_initialized g' = g_initialized g;
  sb_size : g_glob_size g' = g_glob_size g;
  sb_ofs : g_ofs g' = g_ofs g;
  sb_allocs : g_allocs g' = g_allocs g }.

#[local] Instance same_base_trans : Transitive same_base.
Proof. intros x y z [] []. split; congruence. Qed.

Lemma wp_call_init_fn i c (Q : sg_error -> globals -> Prop) g :
  comp_ok c -> (i < length cs)%nat -> Z.of_nat (length cs) < 2 ^ 16 ->
  g_allocs g = [] -> g_glob_size g <> 0 -> length (g_ofs g) = length cs ->
  (forall g', same_base g g' -> g_locks g' = g_locks g ->
     g_trace g' = g_trace g ++ [EInit i (u32 (Z.of_nat i + GLOB_MASK))] -> Q SG_ERROR_NONE g') ->
  wp (call_init_fn t cs i c) Q g.
Proof.
  intros [Hc _] Hi Hlen Ha Hs Ho HQ. apply wp_bind, wp_modify.
  destruct Hc as [-> | ->]; [|apply wp_ret, HQ; done].
  set (id := u32 (Z.of_nat i + GLOB_MASK)).
  assert (u32 (id - GLOB_MASK) = Z.of_nat i) as Hid.
  { unfold id, wrap. rewrite Zminus_mod_idemp_l.
    replace (Z.of_nat i + GLOB_MASK - GLOB_MASK) with (Z.of_nat i) by lia.
    apply Z.mod_small. lia. }
  destruct (lookup_lt_is_Some_2 (g_ofs g) i) as [o Ho']; [lia|].
  set (g1 := log_event (EInit i id) g).
  apply wp_bind. eapply wp_done.
  { apply (get_tls_run 2 id o g1); [done | done | lia |]. by rewrite Hid, Nat2Z.id. }
  apply wp_bind, wp_modify, wp_bind, wp_gets, wp_bind.
  assert (forall g', same_base g1 g' /\ g_locks g' = g_locks g1 /\ g_trace g' = g_trace g1 ->
            Q SG_ERROR_NONE g') as HQ'.
  { intros g' (H1 & H2 & H3). apply HQ; [|done|done]. destruct H1. by split. }
  assert (same_base g1 (with_tls g1) /\ g_locks (with_tls g1) = g_locks g1 /\
          g_trace (with_tls g1) = g_trace g1) as (H1 & H2 & H3).
  { unfold with_tls. by destruct (g_tls g1 !! t). }
  destruct (decide (eg_error (g_pre (set_error_id id (with_tls g1))) = SG_ERROR_NONE));
    [apply wp_ret, wp_ret | apply wp_modify, wp_ret]; apply HQ'; destruct H1; by split_and!.
Qed.

Lemma count_new_zero l ns : Sorted lock_le l -> count_new l ns = O -> add_locks l ns = l.
Proof.
  intros Hs. induction ns as [|n ns IH]; [done|]. cbn [count_new add_locks].
  by destruct (bsearch (cmp_named_locks n) l).
Qed.

Lemma wp_init_loop_ok rest : forall i errc (Q : sg_error + sg_error -> globals -> Prop) g,
  Forall comp_ok rest -> (i + length rest = length cs)%nat -> Z.of_nat (length cs) < 2 ^ 16 ->
  g_allocs g = [] -> g_glob_size g <> 0 -> length (g_ofs g) = length cs ->
  lock_table (g_locks g) ->
  (forall g', same_base g g' -> g_locks g' = fold_locks (g_locks g) rest ->
     g_trace g' = g_trace g ++ init_events i rest -> Q (inr errc) g') ->
  wp (Globals.init_loop t cs false i rest errc) Q g.
Proof.
  induction rest as [|c rest IH]; intros i errc Q g HF Hi Hlen Ha Hs Ho Ht HQ.
  { apply wp_ret, HQ; [by split | done | by rewrite app_nil_r]. }
  apply Forall_cons in HF as [Hc HF]. cbn [Globals.init_loop]. cbn [length] in Hi.
  apply wp_bind, wp_call_init_fn; [done | lia | done..|]. intros g1 Hb Hl1 Htr1.
  rewrite decide_False by auto. apply wp_bind, wp_gets. rewrite Hl1.
  assert (forall g2, same_base g1 g2 -> g_locks g2 = add_locks (g_locks g) (required_locks c) ->
    g_trace g2 = g_trace g1 -> wp (Globals.init_loop t cs false (S i) rest errc) Q g2) as Hgo.
  { intros g2 Hb2 Hl2 Htr2. assert (same_base g g2) as [] by (by transitivity g1).
    apply IH; [done | lia | done | congruence | congruence | congruence | |].
    - rewrite Hl2. apply (add_locks_spec _ _ Ht).
    - intros g3 Hb3 Hl3 Htr3. apply HQ; [|by rewrite Hl3, Hl2 |].
      + transitivity g2; [by split | done].
      + rewrite Htr3, Htr2, Htr1, <- app_assoc. f_equal. cbn. unfold init_events. cbn.
        rewrite Nat.add_0_r. f_equal. apply imap_ext. intros j x _. cbn.
        by rewrite Nat.add_succ_r. }
  destruct (decide (count_new (g_locks g) (required_locks c) = O)) as [Hz|Hz].
  - apply Hgo; [by split | by rewrite Hl1, count_new_zero by (done || apply Ht) | done].
  - apply wp_bind. eapply wp_done; [unfold g_alloc; destruct Hb; rewrite sb_allocs0, Ha; done|].
    apply wp_bind, wp_modify. apply Hgo; [by split | done | done].
Qed.

Lemma wp_global_lock (Q : sg_error -> globals -> Prop) g :
  g_glob_lock g = MUnlocked -> Q SG_ERROR_NONE (set_lock (MLocked t 1) g) ->
  wp (sg_global_lock t) Q g.
Proof. intros Hl HQ. apply wp_bind, wp_gets. rewrite Hl. by apply wp_bind, wp_modify, wp_ret. Qed.

Lemma wp_global_unlock (Q : sg_error -> globals -> Prop) g :
  g_glob_lock g = MLocked t 1 -> Q SG_ERROR_NONE (set_lock MUnlocked g) ->
  wp (sg_global_unlock t) Q g.
Proof.
  intros Hl HQ. apply wp_bind, wp_gets. rewrite Hl. cbn [pthread_mutex_unlock].
  rewrite decide_True by done. by apply wp_bind, wp_modify, wp_ret.
Qed.

Lemma statgrab_table : lock_table [statgrab_lock].
Proof. split; [repeat constructor | apply NoDup_singleton]. Qed.

Lemma layout_facts : table_ok ->
  exists ofs, layout 0 cs = (total_size cs, ofs) /\ length ofs = length cs.
Proof.
  intros (HF & Hs & _). destruct (layout 0 cs) as [total ofs] eqn:E.
  destruct (layout_spec cs 0 total ofs) as (-> & Hl & _); [|lia | lia | done | eauto].
  eapply Forall_impl; [exact HF | by intros ? []].
Qed.

(** Starting: the first user initialises the components, the others are counted. *)
Lemma wp_comp_init n (Q : sg_error -> globals -> Prop) g :
  table_ok -> lib_inv n g -> Z.of_nat (S n) < 2 ^ 32 ->
  (forall g', lib_inv (S n) g' ->
     g_trace g' = g_trace g ++ (if decide (n = O) then init_events 0 cs else []) ->
     Q SG_ERROR_NONE g') ->
  wp (sg_comp_init t cs false) Q g.
Proof.
  intros Hok [Hl Hc Ha Hst Hru] Hn HQ. apply wp_bind.
  assert (forall P : unit -> globals -> Prop,
    (forall b, P tt (mk_globals b MUnlocked (g_locks g) (g_initialized g) (g_glob_size g) (g_ofs g)
       (g_status g) (g_error_id g) (g_tls g) (g_pre g) (g_allocs g) (g_trace g))) ->
    wp sg_init_thread_local P g) as Honce.
  { intros P HP. apply wp_bind, wp_gets. destruct g as [[] m]; cbn in *; subst m.
    - apply wp_ret, HP.
    - apply wp_bind, wp_modify, wp_modify. apply (HP true). }
  apply Honce. intros b. apply wp_bind, wp_global_lock; [done|].
  apply wp_bind, wp_gets, wp_bind, wp_modify. cbn [g_initialized set_lock]. rewrite Hc.
  rewrite wrap_small by lia. destruct n as [|n].
  - destruct (layout_facts Hok) as (ofs & Elay & Hofs). rewrite Elay. destruct Hok as (HF & Hs & Hlen).
    change (negb (Z.of_nat 0 =? 0)) with false. cbv iota. apply wp_bind, wp_modify, wp_bind.
    eapply wp_done; [unfold g_alloc; cbn [g_allocs set_layout set_initialized set_lock];
      rewrite Ha; done|].
    apply wp_bind, wp_gets, wp_bind, wp_modify, wp_bind.
    apply wp_init_loop_ok; [done | done | done | done | cbn; lia | done | apply statgrab_table |].
    intros g1 [] Hl1 Htr1. cbn in *. apply wp_bind, wp_modify, wp_bind, wp_global_unlock; [done|].
    apply wp_ret, HQ; [|done]. split; cbn; try done; try lia.
    intros _. by rewrite sb_size0, sb_ofs0, Hl1, Elay.
  - rewrite (proj2 (Z.eqb_neq (Z.of_nat (S n)) 0)) by lia. cbn [negb].
    apply wp_global_unlock; [done|]. apply HQ; [|by rewrite app_nil_r].
    split; cbn; try done; try lia. intros _. apply Hru. lia.
Qed.

Lemma wp_destroy_comps n (Q : unit -> globals -> Prop) g :
  (forall g', same_base g g' -> g_locks g' = g_locks g ->
     g_trace g' = g_trace g ++ destroy_events n -> Q tt g') ->
  wp (destroy_comps n) Q g.
Proof.
  revert Q g. induction n as [|n IH]; intros Q g HQ.
  - apply wp_ret, HQ; [by split | done | by rewrite app_nil_r].
  - apply wp_bind, wp_modify, IH. intros g' [] Hl Htr. apply HQ; [by split | done |].
    rewrite Htr. cbn. by rewrite <- app_assoc.
Qed.

(** Stopping: the last user shuts the components down in reverse order. *)
Lemma wp_comp_destroy n (Q : sg_error -> globals -> Prop) g :
  lib_inv (S n) g -> Z.of_nat (S n) < 2 ^ 32 ->
  (forall g', lib_inv n g' ->
     g_trace g' = g_trace g ++ (if decide (n = O) then destroy_events (length cs) else []) ->
     Q SG_ERROR_NONE g') ->
  wp (sg_comp_destroy t cs) Q g.
Proof.
  intros [Hl Hc Ha Hst Hru] Hn HQ. apply wp_bind, wp_global_lock; [done|].
  apply wp_bind, wp_gets, wp_bind, wp_modify. cbn [g_initialized set_lock]. rewrite Hc.
  rewrite wrap_small by lia. destruct n as [|n].
  - change (negb (Z.of_nat 1 - 1 =? 0)) with false. cbv iota.
    apply wp_bind, wp_gets, wp_bind, wp_modify, wp_bind, wp_destroy_comps.
    intros g1 [] Hl1 Htr1. cbn in *. apply wp_bind, wp_modify, wp_global_unlock; [done|].
    apply HQ; [|done]. split; cbn; try done; try lia; congruence.
  - rewrite (proj2 (Z.eqb_neq (Z.of_nat (S (S n)) - 1) 0)) by lia. cbn [negb].
    apply wp_global_unlock; [done|]. apply HQ; [|by rewrite app_nil_r].
    split; cbn; try done; try lia. intros _. apply Hru. lia.
Qed.

Lemma run_ops_refines ops : forall n m evs g,
  table_ok -> lib_inv n g -> Z.of_nat (n + length ops) < 2 ^ 32 ->
  spec_run cs ops n = Some (m, evs) ->
  wp (run_ops ops) (fun ok g' => ok = true /\ lib_inv m g' /\ g_trace g' = g_trace g ++ evs) g.
Proof.
  induction ops as [|op ops IH]; intros n m evs g Hok Hinv Hn Hs; cbn [spec_run length] in *.
  { injection Hs as <- <-. apply wp_ret. by rewrite app_nil_r. }
  cbn [run_ops]. apply wp_bind. destruct op.
  - destruct (spec_run cs ops (S n)) as [[m' ev']|] eqn:E; [|done]. injection Hs as <- <-.
    apply (wp_comp_init n); [done | done | lia |]. intros g1 Hinv1 Htr1.
    rewrite decide_True by done. eapply wp_mono; [eapply (IH (S n)); [done | done | lia | done]|].
    cbn. intros ok g2 (H1 & H2 & H3). split_and!; [done | done |].
    by rewrite H3, Htr1, <- app_assoc.
  - destruct n as [|n]; [done|]. destruct (spec_run cs ops n) as [[m' ev']|] eqn:E; [|done].
    injection Hs as <- <-. apply (wp_comp_destroy n); [done | lia |]. intros g1 Hinv1 Htr1.
    rewrite decide_True by done. eapply wp_mono; [eapply (IH n); [done | done | lia | done]|].
    cbn. intros ok g2 (H1 & H2 & H3). split_and!; [done | done |].
    by rewrite H3, Htr1, <- app_assoc.
Qed.

End life.

Lemma linux_table_ok : table_ok comp_info.
Proof.
  split_and!; [|by vm_compute..].
  repeat (apply Forall_cons; split; [split; [by (left + right) | by vm_compute]|]).
  by apply Forall_nil.
Qed.

Lemma start_inv t : lib_inv t comp_info 0 globals_start.
Proof. split; try done; lia. Qed.

Definition demo_ops : list lib_op := [OInit; OInit; ODestroy; ODestroy; OInit].


(** * The named mutexes of a running library *)

(** The search looks at the names only. *)
Lemma search_names n l l' :
  names l = names l' -> bsearch (cmp_named_locks n) l = bsearch (cmp_named_locks n) l'.
Proof.
  intros Hn. assert (length l = length l') as Hlen.
  { rewrite <- (length_fmap nm_name l), <- (length_fmap nm_name l'). by f_equal. }
  enough (forall fuel a b, bsearch_loop fuel (cmp_named_locks n) l a b
                           = bsearch_loop fuel (cmp_named_locks n) l' a b) as H
    by (unfold bsearch; by rewrite Hlen, H).
  intros fuel. induction fuel as [|fuel IH]; intros a b; [done|]. cbn [bsearch_loop].
  destruct (b <=? a)%nat; [done|].
  assert (nm_name <$> l !! ((a + b) / 2)%nat = nm_name <$> l' !! ((a + b) / 2)%nat) as E
    by (rewrite <- !list_lookup_fmap; unfold names in Hn; by rewrite Hn).
  destruct (l !! _) as [x|], (l' !! _) as [y|]; try done. injection E as E.
  unfold cmp_named_locks. rewrite E. by rewrite !IH.
Qed.

Section mutexes.
Context (t : nat) (cs : list comp_init).

Lemma fold_locks_spec l : lock_table l ->
  lock_table (fold_locks l cs) /\ (forall m, m ∈ l -> m ∈ fold_locks l cs) /\
  (forall n c, c ∈ cs -> n ∈ required_locks c -> n ∈ names (fold_locks l cs)).
Proof.
  revert l. induction cs as [|c cs' IH]; intros l Ht.
  { split_and!; [done | done | intros n c Hc; by apply not_elem_of_nil in Hc]. }
  destruct (add_locks_spec l (required_locks c) Ht) as (H1 & H2 & H3).
  destruct (IH _ H1) as (I1 & I2 & I3). split_and!; [done | auto |].
  intros n d [->|Hd]%elem_of_cons Hn; [|by eapply I3].
  assert (n ∈ names (add_locks l (required_locks c))) as (m & -> & Hm)%list_elem_of_fmap
    by (apply H2; by right).
  apply list_elem_of_fmap. eauto.
Qed.

Lemma running_names : names (running_locks t cs) = names (fold_locks [statgrab_lock t] cs).
Proof.
  unfold running_locks, names. rewrite <- list_fmap_compose. apply list_fmap_ext.
  intros i m _. cbn. by destruct (decide (nm_name m = "statgrab")).
Qed.

Lemma running_table : lock_table (running_locks t cs).
Proof.
  destruct (fold_locks_spec [statgrab_lock t] (statgrab_table t)) as ([Hs Hn] & _ & _).
  split; [|by rewrite running_names].
  unfold running_locks. revert Hs. generalize (fold_locks [statgrab_lock t] cs). intros l.
  set (f := fun m => if decide (nm_name m = "statgrab") then m else mk_named_mutex (nm_name m) MUnlocked).
  assert (forall m, nm_name (f m) = nm_name m) as Hf by (intros m; unfold f; by case_decide).
  induction 1 as [|m l Hs IH Hh]; [constructor|]. rewrite fmap_cons. constructor; [done|].
  destruct Hh as [|m' l Hle]; [constructor|]. rewrite fmap_cons. constructor.
  unfold lock_le, cmp_locks in *. by rewrite !Hf.
Qed.

(** The entry of a name, found by its only occurrence. *)
Lemma running_entry n m :
  m ∈ running_locks t cs -> nm_name m = n ->
  exists i, bsearch (cmp_named_locks n) (running_locks t cs) = Some i /\
            running_locks t cs !! i = Some m.
Proof.
  intros Hin Hn. destruct running_table as [Hs HN].
  pose proof (lock_search n _ Hs) as Hb. destruct (bsearch _ _) as [i|].
  - exists i. split; [done|]. destruct Hb as (m' & Hm' & Hn').
    apply list_elem_of_lookup in Hin as [j Hj]. assert (i = j) as ->; [|done].
    eapply (NoDup_lookup _ _ _ n HN); unfold names; rewrite list_lookup_fmap.
    + rewrite Hm'. cbn. by f_equal.
    + rewrite Hj. cbn. by f_equal.
  - destruct Hb. apply list_elem_of_fmap. eauto.
Qed.

Lemma statgrab_running : statgrab_lock t ∈ running_locks t cs.
Proof.
  destruct (fold_locks_spec [statgrab_lock t] (statgrab_table t)) as (_ & Hk & _).
  apply list_elem_of_fmap. exists (statgrab_lock t). split; [done|]. apply Hk. left.
Qed.

(** The table holds a copy of the global mutex that was taken while the mutex
    was locked: [sg_lock_mutex("statgrab")] of the thread that started the library
    (or of any other) blocks forever, although nobody holds the global mutex. *)
Theorem statgrab_mutex_deadlocks t' n g :
  lib_inv t cs (S n) g ->
  g_glob_lock g = MUnlocked /\ sg_lock_mutex t' cs "statgrab" g = Stuck deadlock.
Proof.
  intros [Hl _ _ _ Hru]. destruct Hru as [_ Hlk]; [lia|]. split; [done|].
  unfold sg_lock_mutex, mbind, M_bind, gets. rewrite Hlk.
  destruct (running_entry "statgrab" _ statgrab_running eq_refl) as (i & -> & ->). done.
Qed.

(** C25: a mutex a component requires can be locked once the library runs; while one
    thread holds it every other thread waits, and unlocking it brings back the
    state from before. *)
Theorem required_mutex_excludes t1 t2 name c n g :
  lib_inv t cs (S n) g -> c ∈ cs -> name ∈ required_locks c -> name <> "statgrab" -> t1 <> t2 ->
  exists g1, sg_lock_mutex t1 cs name g = Done SG_ERROR_NONE g1 /\
    sg_lock_mutex t2 cs name g1 = Stuck deadlock /\
    sg_unlock_mutex t1 cs name g1 = Done SG_ERROR_NONE g.
Proof.
  intros [_ _ _ _ Hru] Hc Hn Hne Ht. destruct Hru as [_ Hlk]; [lia|].
  assert (mk_named_mutex name MUnlocked ∈ running_locks t cs) as Hin.
  { destruct (fold_locks_spec [statgrab_lock t] (statgrab_table t)) as (_ & _ & Hr).
    destruct (proj1 (list_elem_of_fmap _ _ _) (Hr name c Hc Hn)) as (m & -> & Hm).
    apply list_elem_of_fmap. exists m. split; [by rewrite decide_False|done]. }
  destruct (running_entry name _ Hin eq_refl) as (i & Hb & Hi).
  set (ls := running_locks t cs) in *.
  assert (bsearch (cmp_named_locks name) (<[i := mk_named_mutex name (MLocked t1 1)]> ls) = Some i /\
          (<[i := mk_named_mutex name (MLocked t1 1)]> ls) !! i = Some (mk_named_mutex name (MLocked t1 1)))
    as [Hb1 Hi1].
  { split; [|by apply list_lookup_insert_eq; eapply lookup_lt_Some].
    rewrite <- Hb. apply search_names. unfold names. rewrite list_fmap_insert.
    apply list_insert_id. rewrite list_lookup_fmap. by rewrite Hi. }
  exists (set_locks (<[i := mk_named_mutex name (MLocked t1 1)]> ls) g). split_and!.
  - unfold sg_lock_mutex, mbind, M_bind, gets. rewrite Hlk, Hb, Hi. done.
  - unfold sg_lock_mutex, mbind, M_bind, gets. cbn [g_locks set_locks]. rewrite Hb1, Hi1.
    cbn. rewrite (bool_decide_eq_false_2 (t1 = t2)) by done. by rewrite andb_false_r.
  - unfold sg_unlock_mutex, mbind, M_bind, gets. cbn [g_locks set_locks]. rewrite Hb1, Hi1.
    cbn -[decide]. rewrite decide_True by done. unfold modify. cbn. f_equal.
    rewrite list_insert_insert_eq, list_insert_id by done. destruct g; cbn in *. by rewrite Hlk.
Qed.
End mutexes.

(** The library after one [sg_comp_init] on Linux. *)
Definition started : globals :=
  match sg_comp_init 1 comp_info false globals_start with
  | Done _ g => g
  | Stuck _ => globals_start
  end.

Lemma started_inv : lib_inv 1 comp_info 1 started.
Proof.
  assert (wp (sg_comp_init 1 comp_info false) (fun _ g => lib_inv 1 comp_info 1 g) globals_start) as H
    by (apply (wp_comp_init 1 comp_info 0);
        [apply linux_table_ok | apply start_inv | by vm_compute | done]).
  apply wp_inv in H as (rc & g & E & HI). unfold started. rewrite E. exact HI.
Qed.

Lemma statgrab_mutex_deadlocks_witness :
  g_glob_lock started = MUnlocked /\ sg_lock_mutex 1 comp_info "statgrab" started = Stuck deadlock.
Proof. apply (statgrab_mutex_deadlocks 1 comp_info 1 0), started_inv. Defined.

Lemma required_mutex_excludes_witness :
  exists g1, sg_lock_mutex 1 comp_info "utmp" started = Done SG_ERROR_NONE g1 /\
    sg_lock_mutex 2 comp_info "utmp" g1 = Stuck deadlock /\
    sg_unlock_mutex 1 comp_info "utmp" g1 = Done SG_ERROR_NONE started.
Proof.
  apply (required_mutex_excludes 1 comp_info 1 2 "utmp"
           (mk_comp_init (InitOther SG_ERROR_NONE) (vectors 1) ["utmp"] true) 0);
    [apply started_inv | repeat ((left; reflexivity) || right) | left | done | done].
Defined.
