(* ===== verification/ProcessProps.v ===== *)
(** The theorems about process_stats.c. *)

From S2P Require Import Prelude Types CLib Errors Tools Vector VectorSpec VectorDiff Items Comp Stdio ToolsExt Fill Single Disk Demo Process.

Local Open Scope sg_scope.

(** * Command lines *)

(** The contents of /proc/<pid>/cmdline: every argument with its terminator. *)
Definition argv_bytes (args : list (list ascii)) : list ascii := mjoin ((fun a => a ++ [NUL]) <$> args).

Definition space : ascii := " "%char.

(** The arguments with a space behind each. *)
Definition spaced (args : list (list ascii)) : list ascii := mjoin ((fun a => a ++ [space]) <$> args).

Definition arg_ok (a : list ascii) : Prop := (NUL ∉ a) /\ (2 <= length a)%nat.

Lemma spaced_snoc args a : spaced (args ++ [a]) = spaced args ++ a ++ [space].
Proof. unfold spaced. rewrite fmap_app, join_app. cbn. by rewrite app_nil_r. Qed.

Lemma length_spaced args : length (spaced args) = length (argv_bytes args).
Proof.
  unfold spaced, argv_bytes. induction args as [|a args IH]; [done|]. cbn.
  unfold mjoin, list_join in *. rewrite !length_app. cbn. lia.
Qed.

Lemma lookup_at {A} (pre post : list A) i : i = length pre -> (pre ++ post) !! i = head post.
Proof. intros ->. rewrite lookup_app_r, Nat.sub_diag by lia. by destruct post. Qed.

Lemma in_loop len p :
  (len = 0 \/ p < len)%nat -> negb (len =? 0)%nat && negb (p <? len)%nat = false.
Proof. destruct (Nat.eqb_spec len 0), (Nat.ltb_spec p len); try done; lia. Qed.

(** Over an argument of two characters or more the loop goes to the terminator. *)
Lemma adjust_over_arg fuel pre a rest len :
  arg_ok a -> (len = 0 \/ length pre < len)%nat ->
  adjust_loop (S fuel) (pre ++ a ++ NUL :: rest) len (length pre)
    = adjust_loop fuel (pre ++ a ++ NUL :: rest) len (length pre + length a).
Proof.
  intros [Hn H2] Hlen. destruct a as [|x [|y a]]; cbn [length] in H2; try lia.
  cbn [adjust_loop]. rewrite in_loop by done.
  assert (buf_read (pre ++ (x :: y :: a) ++ NUL :: rest) (S (length pre)) = Some y) as ->.
  { unfold buf_read. rewrite lookup_app_r by lia. by replace (S (length pre) - length pre)%nat with 1%nat by lia. }
  cbn [mbind option_bind]. rewrite decide_False by set_solver.
  assert (buf_read (pre ++ (x :: y :: a) ++ NUL :: rest) (length pre) = Some x) as ->
    by (unfold buf_read; by rewrite lookup_at).
  cbn [mbind option_bind]. rewrite decide_False by set_solver.
  rewrite drop_app_length, strlen_spec by done. done.
Qed.

(** At a terminator before another argument it writes a space. *)
Lemma adjust_over_nul fuel pre c rest len :
  c <> NUL -> (len = 0 \/ length pre < len)%nat ->
  adjust_loop (S fuel) (pre ++ NUL :: c :: rest) len (length pre)
    = adjust_loop fuel ((pre ++ [space]) ++ c :: rest) len (length (pre ++ [space])).
Proof.
  intros Hc Hlen. cbn [adjust_loop].
  rewrite in_loop by done.
  assert (buf_read (pre ++ NUL :: c :: rest) (S (length pre)) = Some c) as ->.
  { unfold buf_read. rewrite lookup_app_r by lia. by replace (S (length pre) - length pre)%nat with 1%nat by lia. }
  cbn [mbind option_bind]. rewrite decide_False by done.
  assert (buf_read (pre ++ NUL :: c :: rest) (length pre) = Some NUL) as ->
    by (unfold buf_read; by rewrite lookup_at).
  cbn [mbind option_bind]. rewrite decide_True by done.
  rewrite write_mid by done. rewrite length_app, Nat.add_1_r, <- app_assoc. done.
Qed.

(** And before the end of the block, or on a single character, it stops. *)
Lemma adjust_stop fuel pre x rest len :
  (len = 0 \/ length pre < len)%nat ->
  adjust_loop (S fuel) (pre ++ x :: NUL :: rest) len (length pre)
    = Some (pre ++ x :: NUL :: rest, length pre).
Proof.
  intros Hlen. cbn [adjust_loop].
  rewrite in_loop by done.
  assert (buf_read (pre ++ x :: NUL :: rest) (S (length pre)) = Some NUL) as ->.
  { unfold buf_read. rewrite lookup_app_r by lia. by replace (S (length pre) - length pre)%nat with 1%nat by lia. }
  cbn [mbind option_bind]. by rewrite decide_True.
Qed.

(** All arguments before another one get their space. *)
Lemma adjust_args args : forall fuel pre c rest len,
  Forall arg_ok args -> c <> NUL -> (length pre + length (argv_bytes args) < len)%nat ->
  (2 * length args <= fuel)%nat ->
  adjust_loop fuel (pre ++ argv_bytes args ++ c :: rest) len (length pre)
    = adjust_loop (fuel - 2 * length args) (pre ++ spaced args ++ c :: rest) len
        (length (pre ++ spaced args)).
Proof.
  induction args as [|a args IH]; intros fuel pre c rest len HF Hc Hlen Hfuel.
  { cbn. by rewrite Nat.sub_0_r, app_nil_r. }
  apply Forall_cons in HF as [Ha HF]. cbn [length] in Hfuel.
  destruct fuel as [|[|fuel]]; try lia.
  assert (argv_bytes (a :: args) = a ++ NUL :: argv_bytes args) as E
    by (unfold argv_bytes; cbn; by rewrite <- app_assoc).
  assert (spaced (a :: args) = a ++ space :: spaced args) as E'
    by (unfold spaced; cbn; by rewrite <- app_assoc).
  rewrite E in *. rewrite E'. rewrite length_app in Hlen. cbn [length] in Hlen.
  rewrite <- app_assoc, <- app_comm_cons. rewrite adjust_over_arg by (done || lia).
  assert (exists d rest', argv_bytes args ++ c :: rest = d :: rest' /\ d <> NUL) as (d & rest' & Ed & Hd).
  { destruct args as [|b args]; [by eexists _, _|]. apply Forall_cons in HF as [[Hn H2] _].
    destruct b as [|y b]; [cbn in H2; lia|]. eexists _, _. split; [reflexivity | set_solver]. }
  rewrite Ed. rewrite app_assoc, <- (length_app pre a), adjust_over_nul
    by (done || rewrite length_app; lia).
  rewrite <- Ed. rewrite <- (app_assoc (pre ++ a) [space]).
  rewrite (app_assoc (pre ++ a) [space]).
  rewrite (IH fuel) by (done || rewrite ?length_app; cbn; lia).
  replace (S (S fuel) - 2 * length (a :: args))%nat with (fuel - 2 * length args)%nat by (cbn; lia).
  by rewrite <- !app_assoc.
Qed.

Lemma argv_snoc args a : argv_bytes (args ++ [a]) = argv_bytes args ++ a ++ [NUL].
Proof. unfold argv_bytes. rewrite fmap_app, join_app. cbn. by rewrite app_nil_r. Qed.

Lemma spaced_no_nul args : Forall arg_ok args -> NUL ∉ spaced args.
Proof.
  induction 1 as [|a args [Ha _] HF IH]; [apply not_elem_of_nil|].
  unfold spaced in *. cbn. unfold mjoin, list_join in *.
  rewrite !elem_of_app, list_elem_of_singleton. intros [[?|?]|?]; [done | done | auto].
Qed.


Lemma argv_fuel args : Forall arg_ok args -> (3 * length args <= length (argv_bytes args))%nat.
Proof.
  induction 1 as [|a args [_ Ha] HF IH]; [done|]. unfold argv_bytes in *. cbn.
  unfold mjoin, list_join in *. rewrite !length_app. cbn. lia.
Qed.

(** The last write of adjust_procname_cmndline, on a block that ends in a terminator. *)
Lemma adjust_finish b len b' p :
  (0 < len)%nat -> length b' = S len -> adjust_loop (S (length b)) b len 0 = Some (b', p) ->
  adjust_procname_cmndline b len = Some (<[len := NUL]> b').
Proof.
  intros Hl Hb E. unfold adjust_procname_cmndline. rewrite E. cbn [mbind option_bind fst snd].
  rewrite (proj2 (Nat.eqb_neq len 0)) by lia. unfold buf_write. by rewrite decide_True by lia.
Qed.

Lemma adjust_joins args last :
  Forall arg_ok args -> arg_ok last ->
  let bytes := argv_bytes (args ++ [last]) in
  until_nul <$> adjust_procname_cmndline (bytes ++ [NUL]) (length bytes)
    = Some (Some (spaced args ++ last)).
Proof.
  intros HF Hl. cbn zeta. pose proof (argv_fuel args HF) as Hfuel.
  pose proof Hl as [Hn H2]. destruct last as [|c t]; [cbn in H2; lia|].
  set (len := length (argv_bytes (args ++ [c :: t]))).
  assert (len = length (argv_bytes args) + S (S (length t)))%nat as Elen
    by (unfold len; rewrite argv_snoc, !length_app; cbn; lia).
  assert (argv_bytes (args ++ [c :: t]) ++ [NUL] = argv_bytes args ++ c :: t ++ [NUL; NUL]) as Eb
    by (by rewrite argv_snoc, <- !app_assoc).
  rewrite Eb. erewrite (adjust_finish _ len (spaced args ++ c :: t ++ [NUL; NUL])); first last.
  { pose proof (adjust_args args (S (length (argv_bytes args ++ c :: t ++ [NUL; NUL]))) [] c
      (t ++ [NUL; NUL]) len HF) as E. cbn [app length] in E. rewrite E; clear E;
      [| set_solver | lia | rewrite !length_app; cbn; lia].
    set (f := (S (length (argv_bytes args ++ c :: t ++ [NUL; NUL])) - 2 * length args)%nat).
    assert (2 <= f)%nat by (unfold f; rewrite !length_app; cbn; lia).
    destruct f as [|[|f]]; try lia.
    rewrite (adjust_over_arg _ (spaced args) (c :: t) [NUL]) by (done || rewrite length_spaced; lia).
    rewrite <- length_app. change (c :: t ++ [NUL; NUL]) with ((c :: t) ++ NUL :: NUL :: []).
    rewrite app_assoc. apply (adjust_stop _ (spaced args ++ c :: t) NUL []).
    rewrite length_app, length_spaced. cbn. lia. }
  { rewrite length_app. cbn. rewrite length_app, length_spaced. cbn. lia. }
  { lia. }
  cbn [fmap option_fmap option_map]. f_equal.
  change (c :: t ++ [NUL; NUL]) with ((c :: t) ++ NUL :: [NUL]). rewrite app_assoc.
  rewrite insert_app_r_alt by (rewrite length_app, length_spaced; cbn; lia).
  replace (len - length (spaced args ++ c :: t))%nat with 1%nat
    by (rewrite length_app, length_spaced; cbn; lia).
  cbn [insert list_insert]. apply until_nul_app. rewrite elem_of_app.
  intros [?|?]; [by eapply spaced_no_nul | done].
Qed.

(** The command line of a process whose arguments all have at least two
    characters is the arguments joined with spaces; the function stays inside the
    block it is given. *)
Theorem cmdline_joins_args args last :
  Forall arg_ok args -> arg_ok last ->
  let bytes := argv_bytes (args ++ [last]) in
  until_nul <$> adjust_procname_cmndline (bytes ++ [NUL]) (length bytes)
    = Some (Some (spaced args ++ last)).
Proof.
  exact (adjust_joins args last).
Qed.

Definition chars (s : string) : list ascii := String.list_ascii_of_string s.

Lemma cmdline_joins_args_witness :
  until_nul <$> adjust_procname_cmndline (argv_bytes [chars "ls"; chars "-la"; chars "/tmp"] ++ [NUL])
                  (length (argv_bytes [chars "ls"; chars "-la"; chars "/tmp"]))
    = Some (Some (chars "ls -la /tmp")).
Proof.
  apply (cmdline_joins_args [chars "ls"; chars "-la"] (chars "/tmp"));
    repeat constructor; cbn; try lia; by apply (bool_decide_eq_true_1 _).
Defined.

(** An argument of one character ends the command line: the test for the end of
    the block looks at the character behind the current one and takes the
    terminator of the short argument for it, so that everything behind it is lost. *)
Theorem cmdline_cut_after_short_arg args c more :
  Forall arg_ok args -> c <> NUL ->
  let bytes := argv_bytes args ++ c :: NUL :: more in
  until_nul <$> adjust_procname_cmndline (bytes ++ [NUL]) (length bytes)
    = Some (Some (spaced args ++ [c])).
Proof.
  intros HF Hc. cbn zeta. pose proof (argv_fuel args HF) as Hfuel.
  set (bytes := argv_bytes args ++ c :: NUL :: more).
  assert (length bytes = length (argv_bytes args) + S (S (length more)))%nat as Elen
    by (unfold bytes; rewrite length_app; cbn; lia).
  assert (bytes ++ [NUL] = argv_bytes args ++ c :: NUL :: more ++ [NUL]) as Eb
    by (unfold bytes; by rewrite <- app_assoc).
  rewrite Eb. erewrite (adjust_finish _ _ (spaced args ++ c :: NUL :: more ++ [NUL])); first last.
  { pose proof (adjust_args args (S (length (argv_bytes args ++ c :: NUL :: more ++ [NUL]))) [] c
      (NUL :: more ++ [NUL]) (length bytes) HF Hc) as E. cbn [app length] in E. rewrite E; clear E;
      [| lia | rewrite length_app; cbn; lia].
    set (f := (S (length (argv_bytes args ++ c :: NUL :: more ++ [NUL])) - 2 * length args)%nat).
    assert (1 <= f)%nat by (unfold f; rewrite length_app; cbn; lia).
    destruct f as [|f]; [lia|]. apply adjust_stop. rewrite length_spaced. lia. }
  { rewrite length_app, length_spaced. cbn. rewrite length_app. cbn. lia. }
  { lia. }
  cbn [fmap option_fmap option_map]. f_equal.
  rewrite insert_app_r_alt by (rewrite length_spaced; lia).
  replace (length bytes - length (spaced args))%nat with (S (S (length more)))
    by (rewrite length_spaced; lia).
  cbn [insert list_insert].
  change (c :: NUL :: ?x) with ([c] ++ NUL :: x). rewrite app_assoc. apply until_nul_app.
  rewrite elem_of_app, list_elem_of_singleton. intros [?|?]; [by eapply spaced_no_nul | congruence].
Qed.

Lemma cmdline_cut_after_short_arg_witness :
  until_nul <$> adjust_procname_cmndline
      ((argv_bytes [chars "ps"] ++ "a"%char :: NUL :: argv_bytes [chars "xx"]) ++ [NUL])
      (length (argv_bytes [chars "ps"] ++ "a"%char :: NUL :: argv_bytes [chars "xx"]))
    = Some (Some (chars "ps a")).
Proof.
  apply (cmdline_cut_after_short_arg [chars "ps"] "a"%char (argv_bytes [chars "xx"]));
    [|done]. repeat constructor; cbn; try lia; by apply (bool_decide_eq_true_1 _).
Defined.

(** * The process ids of /proc *)

Section scan.
Context {sys : System}.

Definition page_fits (page : list Z) : Prop :=
  items_offset + 4 * Z.of_nat (length page) <= sys_page_size.

Lemma wp_alloc_page (Q : option (list Z) -> env -> Prop) e :
  (AFail ∉ e_allocs e) -> (forall e', calmer e e' -> Q (Some []) e') ->
  wp alloc_pids_in_proc_dir Q e.
Proof.
  intros Ha HQ. apply wp_bind, wp_alloc_request; [done|]. intros c e' Hc He.
  destruct c; [done| |]; apply wp_ret; auto.
Qed.

(** No page is empty, but for the only one of a directory without ids. *)
Definition filled_pages (chain : pids_in_proc_dir_t) : Prop :=
  (exists page, chain = [page]) \/ Forall (fun page => page <> []) chain.

Lemma filled_add front wrk pid : filled_pages (front ++ [wrk]) -> filled_pages (front ++ [wrk ++ [pid]]).
Proof.
  intros [[page E]|H].
  - left. destruct front as [|f [|]]; [by eexists | done..].
  - right. apply Forall_app in H as [H _]. apply Forall_app. split; [done|]. apply Forall_singleton. by destruct wrk.
Qed.

Lemma filled_next front wrk pid :
  wrk <> [] -> filled_pages (front ++ [wrk]) -> filled_pages ((front ++ [wrk]) ++ [[pid]]).
Proof.
  intros Hw H. right. apply Forall_app. split; [|by apply Forall_singleton]. destruct H as [[page E]|H]; [|done].
  destruct front as [|f [|]]; [by apply Forall_singleton | done..].
Qed.

Lemma filled_tail page chain : filled_pages (page :: chain) -> Forall (fun page => page <> []) chain.
Proof. intros [[x E]|H]; [by injection E as -> -> | by apply Forall_cons in H as [_ H]]. Qed.

Lemma wp_scan_loop entries : forall front wrk (Q : option pids_in_proc_dir_t -> env -> Prop) e,
  (AFail ∉ e_allocs e) -> items_offset + 4 <= sys_page_size ->
  Forall page_fits front -> page_fits wrk -> filled_pages (front ++ [wrk]) ->
  (forall chain e', calmer e e' -> chain <> [] -> Forall page_fits chain -> filled_pages chain ->
     mjoin chain = mjoin front ++ wrk ++ omap entry_pid entries -> Q (Some chain) e') ->
  wp (scan_loop entries front wrk) Q e.
Proof.
  induction entries as [|d entries IH]; intros front wrk Q e Ha Hsz Hf Hw Hfl HQ; cbn [scan_loop].
  { apply wp_ret, HQ; [reflexivity | by destruct front | | done |].
    - apply Forall_app. by split; [|apply Forall_singleton].
    - rewrite join_app. cbn. by rewrite !app_nil_r. }
  cbn [omap list_omap] in HQ. destruct (entry_pid d) as [pid|] eqn:Ed; [|by apply IH].
  apply wp_bind. unfold add_pid_to_pids_in_proc_dir.
  destruct (PIPD_IS_FULL wrk) eqn:Efull.
  - apply wp_bind, wp_alloc_page; [done|]. intros e1 He1. apply wp_ret.
    apply IH; [by intros ?%He1 | done | | | |].
    + apply Forall_app. by split; [|apply Forall_singleton].
    + unfold page_fits. cbn. lia.
    + apply filled_next; [|done]. intros ->. unfold PIPD_IS_FULL, items_offset in *. apply Z.ltb_lt in Efull. cbn [length Z.of_nat] in Efull. lia.
    + intros chain e' He' Hne Hfit Hfl' Hj. apply HQ; [by transitivity e1 | done | done | done |].
      rewrite Hj, join_app. cbn. by rewrite app_nil_r, <- !app_assoc.
  - apply wp_ret, IH; [done | done | done | | by apply filled_add |].
    + unfold page_fits, PIPD_IS_FULL in *. rewrite length_app. cbn. lia.
    + intros chain e' He' Hne Hfit Hfl' Hj. apply HQ; [done | done | done | done |].
      rewrite Hj. by rewrite <- !app_assoc.
Qed.

Lemma wp_scan_proc_dir path entries (Q : option pids_in_proc_dir_t -> env -> Prop) e :
  (AFail ∉ e_allocs e) -> items_offset + 4 <= sys_page_size ->
  (forall chain e', calmer e e' -> chain <> [] -> Forall page_fits chain -> filled_pages chain ->
     mjoin chain = omap entry_pid entries -> Q (Some chain) e') ->
  wp (scan_proc_dir path (inl (entries, 0))) Q e.
Proof.
  intros Ha Hsz HQ. apply wp_bind, wp_alloc_page; [done|]. intros e1 He1.
  apply wp_bind, wp_alloc_request; [by intros ?%He1|]. intros c e2 Hc He2.
  assert (forall m : M env (option pids_in_proc_dir_t),
    wp m Q e2 -> wp (match c with AFail => mret None | _ => m end) Q e2) as Hc' by (intros m Hm; by destruct c).
  apply Hc'. apply wp_bind, wp_scan_loop; [by intros ?%He2%He1 | done | by apply List.Forall_nil | | left; by eexists |].
  - unfold page_fits. cbn. lia.
  - intros chain e' He' Hne Hfit Hfl Hj. apply wp_bind, wp_ret, wp_ret. apply HQ; try done.
    trans e1; [done|]. by trans e2.
Qed.

(** [scan_proc_dir] collects the process ids of the directory in order, none
    lost and none twice, however many pages they need, and never writes past the
    end of a page. *)
Theorem scan_proc_dir_complete path entries e :
  (AFail ∉ e_allocs e) -> items_offset + 4 <= sys_page_size ->
  wp (scan_proc_dir path (inl (entries, 0)))
     (fun r _ => exists chain, r = Some chain /\ chain <> [] /\
        mjoin chain = omap entry_pid entries /\ Forall page_fits chain) e.
Proof. intros Ha Hsz. apply wp_scan_proc_dir; [done | done |]. eauto 10. Qed.
End scan.

Lemma scan_proc_dir_complete_witness :
  wp (@scan_proc_dir demo_system "/proc" (inl (["."; ".."; "1"; "42"; "self"; "4711"], 0)))
     (fun r _ => exists chain, r = Some chain /\ chain <> [] /\
        mjoin chain = omap entry_pid ["."; ".."; "1"; "42"; "self"; "4711"] /\
        Forall page_fits chain) demo_env.
Proof. apply scan_proc_dir_complete; [apply not_elem_of_nil | by vm_compute]. Defined.

(** * The loop over the processes *)

Section loop.
Context {mem : Memory} {sys : System}.

(** A process whose comm file is empty stops the library: the loop goes on
    without taking the next id and reads the same file again, for ever. *)
Theorem empty_comm_never_ends ticks fuel uptime page rest i pid n v w :
  page !! i = Some pid -> sys_file (proc_path pid "comm") = Some EmptyString ->
  process_loop ticks fuel uptime (page :: rest) i n v w = Stuck out_of_fuel.
Proof.
  intros Hp Hf. induction fuel as [|fuel IH]; [done|]. cbn [process_loop]. rewrite Hp.
  unfold mbind, M_bind, in_env, zoom, read_comm, fopen, mbind, M_bind. rewrite Hf.
  cbn. destruct w. exact IH.
Qed.

(** A command name that contains a closing parenthesis loses its first
    character and everything from the parenthesis on: the code that strips the
    parentheses of the stat file is also applied to the name from the comm file. *)
Theorem comm_with_paren_is_mangled c inner after :
  before_char ")" inner = None ->
  process_name_of (String c (inner +:+ String ")" after)) = inner.
Proof.
  intros Hi. cbn [process_name_of].
  assert (before_char ")" (inner +:+ String ")" after) = Some inner) as ->; [|done].
  revert Hi. induction inner as [|x s IH]; intros Hi; [done|].
  change (String x s +:+ ?y) with (String x (s +:+ y)). cbn [before_char] in *.
  destruct (decide (x = ")"%char)); [done|].
  destruct (before_char ")" s); [done|]. rewrite IH by done. done.
Qed.

(** * Counts *)

Definition state_of (it : item) : sg_process_state := ps_state (as_process it).

Definition count_of (st : sg_process_state) (l : list item) : Z :=
  Z.of_nat (length (filter (fun it => state_of it = st) l)).

(** The counters after the processes [l]. *)
Definition counted (l : list item) (c : sg_process_count) : sg_process_count :=
  mk_process_count (pc_total c)
    (pc_running c + count_of SG_PROCESS_STATE_RUNNING l)
    (pc_sleeping c + count_of SG_PROCESS_STATE_SLEEPING l)
    (pc_stopped c + count_of SG_PROCESS_STATE_STOPPED l)
    (pc_zombie c + count_of SG_PROCESS_STATE_ZOMBIE l)
    (pc_unknown c + count_of SG_PROCESS_STATE_UNKNOWN l) (pc_systime c).

Definition counts_below (n : Z) (c : sg_process_count) : Prop :=
  Forall (fun z => 0 <= z /\ z + n < 2 ^ 64)
    [pc_running c; pc_sleeping c; pc_stopped c; pc_zombie c; pc_unknown c].

Lemma count_of_snoc st l it :
  count_of st (l ++ [it]) = count_of st l + (if decide (state_of it = st) then 1 else 0).
Proof.
  unfold count_of. rewrite filter_app, length_app. cbn.
  destruct (decide (state_of it = st)); cbn; lia.
Qed.

Lemma count_of_range st l : 0 <= count_of st l <= Z.of_nat (length l).
Proof. unfold count_of. pose proof (length_filter (fun it => state_of it = st) l). lia. Qed.

Lemma counted_snoc l it c :
  counts_below (Z.of_nat (length l) + 1) c ->
  counted l (count_state (state_of it) c) = counted (l ++ [it]) c /\
  counts_below (Z.of_nat (length l)) (count_state (state_of it) c).
Proof.
  intros HF. unfold counts_below in HF. rewrite !Forall_cons in HF. destruct_and! HF.
  unfold counted, counts_below. rewrite !count_of_snoc.
  destruct (state_of it); cbn [count_state pc_total pc_running pc_sleeping pc_stopped pc_zombie
    pc_unknown pc_systime]; rewrite wrap_small by lia;
    (split; [f_equal; repeat case_decide; try done; lia | rewrite !Forall_cons; split_and!; (lia || by apply Forall_nil)]).
Qed.

Lemma wp_count_loop l v n : forall c (Q : sg_process_count -> world -> Prop) w,
  w_vecs w !! l = Some v -> (n <= length (data v))%nat -> counts_below (Z.of_nat n) c ->
  Q (counted (take n (data v)) c) w -> wp (count_loop l n c) Q w.
Proof.
  induction n as [|n IH]; intros c Q w Hl Hn Hc HQ; cbn [count_loop].
  { apply wp_ret. unfold counted, count_of in HQ. cbn in HQ. rewrite !Z.add_0_r in HQ.
    by destruct c. }
  destruct (lookup_lt_is_Some_2 (data v) n) as [it Hit]; [lia|].
  apply wp_bind. eapply wp_read_item; [done..|].
  assert (length (take n (data v)) = n) as Hlen by (rewrite length_take; lia).
  destruct (counted_snoc (take n (data v)) it c) as [E1 E2].
  { rewrite Hlen. by replace (Z.of_nat n + 1) with (Z.of_nat (S n)) by lia. }
  apply IH; [done | lia | by rewrite Hlen in E2 |].
  unfold state_of in E1. rewrite E1. by rewrite <- take_S_r.
Qed.

(** The process counts are the numbers of processes in each state, and add up
    to the total. *)
Theorem process_count_partition l v w :
  w_vecs w !! l = Some v -> wf_vec v -> 1 <= used_count v < 2 ^ 64 ->
  wp (sg_get_process_count_int l)
     (fun r w' => w' = w /\ r.1 = SG_ERROR_NONE /\ pc_total r.2 = used_count v /\
        pc_running r.2 = count_of SG_PROCESS_STATE_RUNNING (contents v) /\
        pc_sleeping r.2 = count_of SG_PROCESS_STATE_SLEEPING (contents v) /\
        pc_stopped r.2 = count_of SG_PROCESS_STATE_STOPPED (contents v) /\
        pc_zombie r.2 = count_of SG_PROCESS_STATE_ZOMBIE (contents v) /\
        pc_unknown r.2 = count_of SG_PROCESS_STATE_UNKNOWN (contents v) /\
        pc_running r.2 + pc_sleeping r.2 + pc_stopped r.2 + pc_zombie r.2 + pc_unknown r.2
          = pc_total r.2) w.
Proof.
  intros Hl Hv Hu. pose proof (wf_used v Hv) as Hu'. apply wp_bind. eapply wp_read_vec; [done|].
  destruct (lookup_lt_is_Some_2 (data v) 0) as [it Hit]; [lia|].
  apply wp_bind. eapply wp_read_item; [done..|]. apply wp_bind.
  eapply wp_count_loop; [done | lia | |].
  { unfold counts_below. rewrite !Forall_cons. cbn. rewrite Z2Nat.id by lia.
    split_and!; (lia || by apply Forall_nil). }
  apply wp_ret. cbn [fst snd counted pc_total pc_running pc_sleeping pc_stopped pc_zombie pc_unknown].
  fold (contents v). split_and!; try done.
  assert (forall ls, count_of SG_PROCESS_STATE_RUNNING ls + count_of SG_PROCESS_STATE_SLEEPING ls +
    count_of SG_PROCESS_STATE_STOPPED ls + count_of SG_PROCESS_STATE_ZOMBIE ls +
    count_of SG_PROCESS_STATE_UNKNOWN ls = Z.of_nat (length ls)) as Hsum.
  { intros ls. induction ls as [|x ls IH] using rev_ind; [done|].
    rewrite !count_of_snoc, length_app. cbn [length].
    destruct (state_of x); repeat case_decide; try done; lia. }
  specialize (Hsum (contents v)). rewrite length_contents in Hsum by done. lia.
Qed.
End loop.

Definition demo_process (name : string) (st : sg_process_state) : item :=
  IProcess (mk_process_stats (CStr name) (CStr name) 1 0 1 0 0 0 0 0 0 0 0 0 0 0 0
              (double_of 0) 0 st 900).

Definition demo_processes : sg_vector :=
  demo_vec Kprocess [demo_process "init" SG_PROCESS_STATE_SLEEPING;
                     demo_process "cc1" SG_PROCESS_STATE_RUNNING;
                     demo_process "vim" SG_PROCESS_STATE_SLEEPING] 4.

Definition process_world : world := mk_world (<[1%positive := demo_processes]> ∅) 2 demo_env.

Lemma process_count_partition_witness :
  wp (sg_get_process_count_int 1)
     (fun r w' => w' = process_world /\ r.1 = SG_ERROR_NONE /\ pc_total r.2 = used_count demo_processes /\
        pc_running r.2 = count_of SG_PROCESS_STATE_RUNNING (contents demo_processes) /\
        pc_sleeping r.2 = count_of SG_PROCESS_STATE_SLEEPING (contents demo_processes) /\
        pc_stopped r.2 = count_of SG_PROCESS_STATE_STOPPED (contents demo_processes) /\
        pc_zombie r.2 = count_of SG_PROCESS_STATE_ZOMBIE (contents demo_processes) /\
        pc_unknown r.2 = count_of SG_PROCESS_STATE_UNKNOWN (contents demo_processes) /\
        pc_running r.2 + pc_sleeping r.2 + pc_stopped r.2 + pc_zombie r.2 + pc_unknown r.2
          = pc_total r.2) process_world.
Proof.
  apply process_count_partition; [reflexivity | | cbn; lia].
  apply demo_vec_wf; [cbn; lia | cbn; lia | by repeat constructor].
Defined.

Definition comm_system : System :=
  {| sys_file := fun p => if String.eqb p "/proc/7/comm" then Some EmptyString else None;
     sys_open_errno := fun _ => 2; sys_time := 1000; sys_page_size := 4096 |}.

Lemma empty_comm_never_ends_witness :
  @process_loop demo_memory comm_system 100 1000 12345 [[7; 8]] 0 0 None process_world
    = Stuck out_of_fuel.
Proof. apply (@empty_comm_never_ends demo_memory comm_system 100 1000 12345 [7; 8] [] 0 7); reflexivity. Defined.

Lemma comm_with_paren_is_mangled_witness : process_name_of "weird)name" = "eird".
Proof. apply (comm_with_paren_is_mangled "w"%char "eird" "name"). reflexivity. Defined.
