(* ===== verification/UserHostProps.v ===== *)
(** The theorems about user_stats.c and os_info.c. *)

From S2P Require Import Prelude Types CLib Errors Tools Vector VectorSpec VectorDiff Items Comp Stdio ScanFields ToolsExt Fill Single Disk Demo UserHost HostSys.

(** * Texts in arrays *)

(** The text of an array. *)
Definition field_text (a : list ascii) : string := default EmptyString (text_of a).

Lemma field_text_holds a : NUL ∈ a -> holds_text a (field_text a).
Proof.
  intros Hin. unfold field_text, text_of.
  assert (exists t rest, until_nul a = Some t /\ a = t ++ NUL :: rest /\ NUL ∉ t)
    as (t & rest & -> & -> & Ht).
  { induction a as [|c a IH]; [by apply not_elem_of_nil in Hin|]. cbn [until_nul].
    destruct (decide (c = NUL)) as [->|Hc].
    - exists [], a. split_and!; [done | done | apply not_elem_of_nil].
    - apply elem_of_cons in Hin as [?|Hin]; [congruence|].
      destruct (IH Hin) as (t & rest & -> & -> & Ht). exists (c :: t), rest.
      split_and!; [done | done |]. rewrite elem_of_cons. intros [?|?]; congruence. }
  cbn. unfold holds_text, no_nul, c_str. rewrite String.list_ascii_of_string_of_list_ascii.
  split; [by apply bool_decide_eq_true|]. exists rest. by rewrite <- app_assoc.
Qed.

Section users.
Context {mem : Memory} {sys : System}.

(** Storing a terminated member. *)
Lemma wp_lupdate tgt a t (Q : sg_error * char_ptr -> env -> Prop) e :
  ptr_ok tgt = true -> holds_text a t -> (AFail ∉ e_allocs e) ->
  (forall e', calmer e e' -> Q (SG_ERROR_NONE, CStr t) e') -> wp (lupdate tgt a) Q e.
Proof.
  intros Hp Ht Ha HQ. apply wp_sg_lupdate_string with t; try done.
  destruct Ht as [_ [rest ->]]. rewrite length_app, length_c_str. lia.
Qed.

Lemma wp_update_mem tgt bytes (Q : sg_error * char_ptr -> env -> Prop) e :
  ptr_live tgt = true -> bytes <> [] -> (AFail ∉ e_allocs e) ->
  (forall e', calmer e e' -> Q (SG_ERROR_NONE, CStr (String.string_of_list_ascii bytes)) e') ->
  wp (sg_update_mem junk tgt (Some bytes)) Q e.
Proof.
  intros Hp Hb Ha HQ. unfold sg_update_mem.
  assert (length bytes <> O) by (by destruct bytes). rewrite decide_False by done.
  apply wp_bind, wp_sg_realloc; [done | lia | done |]. intros b e' _ He. by apply wp_ret, HQ.
Qed.

(** An entry as the system writes it: every text has its terminator. *)
Record entry_terminated (e : utent) : Prop := {
  et_user : NUL ∈ ut_user e;
  et_host : NUL ∈ ut_host e;
  et_line : NUL ∈ ut_line e;
  et_id : ut_id e <> [] }.

Definition user_item (e : utent) : item :=
  IUser (mk_user_stats (CStr (field_text (ut_user e))) (CStr (String.string_of_list_ascii (ut_id e)))
           (Z.of_nat (length (ut_id e))) (CStr (field_text (ut_line e)))
           (CStr (field_text (ut_host e))) (ut_pid e) (ut_sec e) sys_time).

Ltac fill_user :=
  first [ apply wp_bind; eapply wp_lupdate; [done | eassumption | calm |]
        | apply wp_bind, wp_update_mem; [done | done | calm |] ];
  intros ? ?; cbn [fst snd]; rewrite decide_False by auto.

Lemma fill_user_ok fill e :
  fill = fill_utmpx e \/ fill = fill_utmp e ->
  entry_terminated e -> fills_item Kuser fill (user_item e).
Proof.
  intros Hf [Hu%field_text_holds Hh%field_text_holds Hl%field_text_holds Hid]. split.
  { cbn. destruct Hu as [-> _], Hh as [-> _], Hl as [-> _]. done. }
  intros it Q e0 Hit Ha HQ. destruct it as [| | | | |u| | | | | | | | |]; try done.
  cbn [item_live] in Hit. split_andb.
  destruct Hf as [-> | ->]; [unfold fill_utmpx | unfold fill_utmp]; cbn [as_user];
    do 4 fill_user; apply wp_ret, HQ; unfold calmer in *; auto.
Qed.

(** The entries of processes of users. *)
Definition logged_in (db : list utent) : list utent := filter (fun e => ut_type e = 7) db.

Lemma users_logged_in db : users db = logged_in db.
Proof.
  unfold logged_in. induction db as [|e db IH]; [done|]. cbn [users]. rewrite filter_cons. unfold USER_PROCESS.
  destruct (Z.eqb_spec 7 (ut_type e)); case_decide; try lia; cbn; by rewrite IH.
Qed.

(** The users are those of utmpx or, when it has none, of utmp. *)
Definition users_of (utmpx utmp : list utent) : list utent :=
  if decide (logged_in utmpx = []) then logged_in utmp else logged_in utmpx.

(** C35: [sg_get_user_stats_int], given an empty vector (as the access function does), with
    memory available and entries whose texts have their terminators, stores one record per
    entry of type 7 (USER_PROCESS) of the utmpx database, or of utmp when utmpx has none,
    in order: login name, record id with its size, device, host, process and time; it
    closes the database and leaves the utmp mutex as often held as before. Entries without
    a terminator are read past their end: see [lupdate_overreads]. *)
Theorem users_of_utmpx utmpx utmp l v n op w :
  let db := users_of utmpx utmp in
  Forall entry_terminated db -> Z.of_nat (length db) <= 2 ^ 31 ->
  w_vecs w !! l = Some v -> wf_vec v -> info v = VECTOR_INIT_INFO Kuser -> used_count v = 0 ->
  wf_heap w -> (AFail ∉ e_allocs (w_env w)) ->
  wp (sg_get_user_stats_int utmpx utmp (Some l))
     (fun r s => r.1 = SG_ERROR_NONE /\ us_locked s = n /\ us_open s = false /\
        exists l' v', r.2 = Some l' /\ w_vecs (us_world s) !! l' = Some v' /\ wf_vec v' /\
          contents v' = user_item <$> db)
     (mk_user_sys w n op).
Proof.
  intros db HT Hlen Hl Hv Hi Hu Hw Ha. subst db. unfold users_of in *.
  unfold sg_get_user_stats_int. rewrite !users_logged_in.
  apply wp_bind, wp_modify, wp_bind, wp_modify, wp_bind, wp_zoom.
  destruct (decide (logged_in utmpx = [])) as [->|Hne].
  - apply wp_ret. cbn [fst snd]. rewrite decide_False by auto.
    apply wp_bind, wp_modify, wp_bind, wp_bind, wp_modify, wp_bind, wp_zoom. cbn [us_world us_locked us_open].
    eapply (wp_append_loop Kuser eq_refl fill_utmp user_item) with (l0 := l) (w0 := w) (v := v) (n := O);
      [| done | by apply replaced_refl | done | done | done | done | done |].
    { intros e He. apply fill_user_ok; [by right|]. by eapply Forall_forall in HT. }
    intros l' v' w' Hv' Hi' Hc (_ & _ & Hvecs & _).
    apply wp_bind, wp_modify, wp_ret, wp_bind, wp_modify, wp_ret. cbn.
    split_and!; [done | done | done |]. exists l', v'. split_and!; [done | | done |].
    + rewrite Hvecs. apply lookup_insert_eq.
    + rewrite Hc. unfold contents. by rewrite Hu.
  - eapply (wp_append_loop Kuser eq_refl fill_utmpx user_item) with (l0 := l) (w0 := w) (v := v) (n := O);
      [| done | by apply replaced_refl | done | done | done | done | done |].
    { intros e He. apply fill_user_ok; [by left|]. by eapply Forall_forall in HT. }
    intros l' v' w' Hv' Hi' Hc (_ & _ & Hvecs & _). cbn [fst snd].
    rewrite decide_False by auto. apply wp_bind, wp_modify, wp_bind.
    rewrite ?decide_False by done. apply wp_ret, wp_bind, wp_modify, wp_ret. cbn.
    split_and!; [done | done | done |]. exists l', v'. split_and!; [done | | done |].
    + rewrite Hvecs. apply lookup_insert_eq.
    + rewrite Hc. unfold contents. by rewrite Hu.
Qed.

(** A member that fills its whole array without a terminator (a login name of 32
    characters, say) makes [sg_lupdate_string] read behind the array, although it
    is given the size of the array. *)
Theorem lupdate_overreads tgt a e :
  NUL ∉ a -> a <> [] -> lupdate tgt a e = Stuck out_of_bounds.
Proof.
  intros Hn Hne. unfold lupdate, sg_lupdate_string.
  assert (sg_strnlen a (length a) = None) as ->; [|done].
  unfold sg_strnlen. rewrite decide_False by (by destruct a).
  assert (forall fuel k, (k <= length a)%nat -> strnlen_loop fuel k (length a) a = None) as H;
    [|apply H; lia].
  induction fuel as [|fuel IH]; intros k Hk; [done|]. cbn [strnlen_loop]. unfold buf_read.
  destruct (a !! k) as [c|] eqn:E; [|done]. cbn.
  pose proof (lookup_lt_Some _ _ _ E).
  rewrite decide_False by (intros ->; apply Hn; by eapply list_elem_of_lookup_2).
  rewrite decide_False by lia. apply IH. lia.
Qed.
End users.

Definition demo_array (s : string) (n : nat) : list ascii := c_str s ++ replicate n NUL.

Definition demo_utmpx : list utent :=
  [mk_utent 2 (demo_array "reboot" 3) (demo_array "" 3) (demo_array "~" 3) (demo_array "~~" 1) 0 500;
   mk_utent 7 (demo_array "alice" 3) (demo_array "10.0.0.1" 3) (demo_array "pts/0" 3)
     (demo_array "ts0" 0) 4711 600].

Definition user_world : world := mk_world (<[1%positive := demo_vec Kuser [] 16]> ∅) 2 demo_env.

(** The users of utmpx, and those of utmp when utmpx has only the start of the system. *)
Lemma users_of_utmpx_witness :
  (field_text ∘ ut_user <$> users_of demo_utmpx [] = ["alice"]) /\
  (field_text ∘ ut_user <$> users_of (take 1 demo_utmpx) demo_utmpx = ["alice"]) /\
  wp (sg_get_user_stats_int (take 1 demo_utmpx) demo_utmpx (Some 1%positive))
     (fun r s => r.1 = SG_ERROR_NONE /\ us_locked s = 0%nat /\ us_open s = false /\
        exists l' v', r.2 = Some l' /\ w_vecs (us_world s) !! l' = Some v' /\ wf_vec v' /\
          contents v' = user_item <$> users_of (take 1 demo_utmpx) demo_utmpx)
     (mk_user_sys user_world 0 false).
Proof.
  split_and!; [reflexivity | reflexivity |].
  apply (users_of_utmpx (take 1 demo_utmpx) demo_utmpx 1%positive (demo_vec Kuser [] 16));
    [| by vm_compute | done | | done | done | | apply not_elem_of_nil].
  - apply Forall_cons; split; [|by apply Forall_nil].
    split; [apply (bool_decide_eq_true_1 _); vm_compute; reflexivity..|done].
  - apply demo_vec_wf; [cbn; lia | cbn; lia | constructor].
  - intros l Hl. cbn in *. rewrite lookup_insert_ne by lia. reflexivity.
Defined.

Lemma lupdate_overreads_witness :
  lupdate CNull (String.list_ascii_of_string "exactly_32_characters_login_name") demo_env
    = Stuck out_of_bounds.
Proof. apply lupdate_overreads; [by apply (bool_decide_eq_true_1 _) | done]. Defined.

(** * os_info.c *)

(** The word size of an architecture by its name. The 64-bit names are found, but
    because names are compared over the shorter length only, the 32-bit sparc, mips
    and hppa, whose names begin those of 64-bit machines, are reported as 64-bit; and
    sh3el, which stands before sh3eb in the list, is not found by the search. *)
Theorem bitwidth_by_prefix :
  Forall (fun a => get_bitwidth_by_arch_name isa32_bsd isa64_bsd a = 64) isa64_bsd /\
  Forall (fun a => get_bitwidth_by_arch_name isa32_solaris isa64_solaris a = 64) isa64_solaris /\
  (forall a, a ∈ isa32_bsd ->
     get_bitwidth_by_arch_name isa32_bsd isa64_bsd a
       = if decide (a ∈ ["hppa"; "mips"; "sparc"]) then 64 else if decide (a = "sh3el") then 0 else 32) /\
  get_bitwidth_by_arch_name isa32_solaris isa64_solaris "sparc" = 64 /\
  get_bitwidth_by_arch_name isa32_solaris isa64_solaris "i386" = 32.
Proof.
  split_and!; [by apply (bool_decide_eq_true_1 _) | by apply (bool_decide_eq_true_1 _) | | done | done].
  apply Forall_forall. by apply (bool_decide_eq_true_1 _).
Qed.

Section host.
Context {mem : Memory} {sys : System}.

Definition host_live (d : sg_host_info) : Prop := item_live Khost (IHost d) = true.

Definition uname_ok (u : utsname) : Prop :=
  no_nul (un_sysname u) = true /\ no_nul (un_release u) = true /\ no_nul (un_version u) = true /\
  no_nul (un_machine u) = true /\ no_nul (un_nodename u) = true.

Lemma wp_host_names u d (Q : sg_error * sg_host_info -> env -> Prop) e :
  uname_ok u -> host_live d -> (AFail ∉ e_allocs e) ->
  (forall e', calmer e e' ->
     Q (SG_ERROR_NONE, hi_set_names (CStr (un_sysname u)) (CStr (un_release u)) (CStr (un_version u))
                         (CStr (un_machine u)) (CStr (un_nodename u)) d) e') ->
  wp (host_names u d) Q e.
Proof.
  intros (H1 & H2 & H3 & H4 & H5) Hd Ha HQ. unfold host_live in Hd. cbn [item_live] in Hd. split_andb.
  unfold host_names.
  do 5 (apply wp_bind, wp_sg_update_string; [done | done | intros ? ? | calm]; cbn [fst snd];
        rewrite decide_False by auto).
  apply wp_ret, HQ. unfold calmer in *. auto 12.
Qed.

(** On Linux the host description carries the five names of [uname] and the
    seconds at the start of /proc/uptime; nothing of an earlier call is left. *)
Theorem host_info_of_uname hs u t frac rest d e :
  hs_uname hs = inl u -> uname_ok u -> host_live d -> (AFail ∉ e_allocs e) ->
  sys_file "/proc/uptime" = Some (print_unsigned t +:+ String "." (frac +:+ rest)) ->
  0 <= t < 2 ^ 63 ->
  wp (sg_get_host_info_int hs d)
     (fun r _ => r = (SG_ERROR_NONE,
        mk_host_info (CStr (un_sysname u)) (CStr (un_release u)) (CStr (un_version u))
          (CStr (un_machine u)) (CStr (un_nodename u))
          (if hs_vsyscall hs then 64 else u32 (hs_long_bit hs)) sg_unknown_configuration
          (u32 (hs_ncpus hs)) (u32 (hs_maxcpus hs)) t sys_time)) e.
Proof.
  intros Hu Hok Hd Ha Hf Ht. unfold sg_get_host_info_int. rewrite Hu.
  apply wp_bind, wp_ret, wp_bind, wp_host_names; [done..|]. intros e' He'.
  rewrite decide_False by auto. apply wp_bind. unfold fopen. rewrite Hf. apply wp_ret.
  rewrite uptime_scan by done. by apply wp_ret.
Qed.

(** Solaris: the loop around [sysinfo] ends after a second call at most, and the word
    size is that of the architecture however long its name is; the uptime is the time
    since the boot time of the kernel statistics. *)
Theorem host_info_of_sysinfo u boottime ncpus maxcpus arch d e :
  uname_ok u -> host_live d -> (AFail ∉ e_allocs e) ->
  wp (host_info_solaris (inl u) (inr boottime) ncpus maxcpus (inl arch) d)
     (fun r _ => r = (SG_ERROR_NONE,
        mk_host_info (CStr (un_sysname u)) (CStr (un_release u)) (CStr (un_version u))
          (CStr (un_machine u)) (CStr (un_nodename u))
          (get_bitwidth_by_arch_name isa32_solaris isa64_solaris arch) sg_unknown_configuration
          (u32 ncpus) (u32 maxcpus) (s64 (sys_time - u32 boottime)) sys_time)) e.
Proof.
  intros Hok Hd Ha. apply wp_bind, wp_ret, wp_bind, wp_host_names; [done..|]. intros e1 H1. cbn [fst snd].
  rewrite decide_False by auto.
  apply wp_bind, wp_sg_realloc; [done | lia | calm |]. intros b e2 _ H2. apply wp_bind. cbn [sysinfo_loop].
  apply wp_bind, wp_ret. destruct (Nat.ltb_spec 32 (S (String.length arch))); [|by apply wp_ret, wp_ret].
  apply wp_bind, wp_sg_realloc; [done | lia | calm |]. intros b' e3 _ H3.
  apply wp_bind, wp_ret. rewrite Nat.ltb_irrefl. by apply wp_ret, wp_ret.
Qed.
End host.

Definition demo_utsname : utsname :=
  mk_utsname "Linux" "6.1.0" "#1 SMP" "x86_64" "statgrab.example".

Definition host_system : System :=
  {| sys_file := fun p => if String.eqb p "/proc/uptime" then Some (demo_line "86400.25 170000.00") else None;
     sys_open_errno := fun _ => 2; sys_time := 1000; sys_page_size := 4096 |}.

Lemma host_info_of_uname_witness :
  wp (@sg_get_host_info_int demo_memory host_system
        (mk_host_sys (inl demo_utsname) 4 8 true 64) host_zero)
     (fun r _ => r = (SG_ERROR_NONE,
        mk_host_info (CStr "Linux") (CStr "6.1.0") (CStr "#1 SMP") (CStr "x86_64")
          (CStr "statgrab.example") 64 sg_unknown_configuration (u32 4) (u32 8) 86400 1000)) demo_env.
Proof.
  apply (@host_info_of_uname demo_memory host_system (mk_host_sys (inl demo_utsname) 4 8 true 64)
           demo_utsname 86400 "25" (demo_line " 170000.00"));
    [reflexivity | by split_and! | reflexivity | apply not_elem_of_nil | reflexivity | lia].
Defined.

Definition demo_isalist : string := "amd64 pentium_pro+mmx pentium_pro pentium".

Lemma host_info_of_sysinfo_witness :
  get_bitwidth_by_arch_name isa32_solaris isa64_solaris demo_isalist = 64 /\
  wp (host_info_solaris (inl demo_utsname) (inr 400) 4 8 (inl demo_isalist) host_zero)
     (fun r _ => r = (SG_ERROR_NONE,
        mk_host_info (CStr "Linux") (CStr "6.1.0") (CStr "#1 SMP") (CStr "x86_64") (CStr "statgrab.example")
          (get_bitwidth_by_arch_name isa32_solaris isa64_solaris demo_isalist) sg_unknown_configuration
          (u32 4) (u32 8) (s64 (sys_time - u32 400)) sys_time)) demo_env.
Proof.
  split; [vm_compute; reflexivity|].
  apply (host_info_of_sysinfo demo_utsname 400 4 8 demo_isalist host_zero demo_env);
    [by split_and! | reflexivity | apply not_elem_of_nil].
Defined.

(** Windows of another major version than 5: the name is a literal, which is freed. *)
Lemma newer_windows_frees_literal :
  host_info_win32 15 (Some "HOST") (Some (mk_osversion 6 1 7601 1 0 true false false false false))
    ARCHITECTURE_AMD64 (Some 1000) host_zero demo_env = Stuck undefined_op.
Proof. vm_compute. reflexivity. Qed.

Lemma windows_2003_named :
  match host_info_win32 15 (Some "HOST") (Some (mk_osversion 5 2 3790 2 1 false false false true false))
          ARCHITECTURE_INTEL (Some 1000) host_zero demo_env with
  | Done (rc, d) _ => rc = SG_ERROR_NONE /\ hi_os_name d = CStr "Windows Server 2003 Enterprise Edition SP2.1" /\
                      hi_platform d = CStr "Intel" /\ hi_uptime d = 1000
  | Stuck _ => False
  end.
Proof. vm_compute. by split_and!. Qed.
