(* ===== verification/Win32Props.v ===== *)
(** The theorems about win32.c: the capture is a switch, and what it delivers about a
    disk is what the library counts for it. *)

From S2P Require Import Prelude Types CLib Errors Tools Vector VectorSpec Items Comp Fill Stdio Disk Demo Win32.

Local Open Scope sg_scope.

Section capture.
Context {mem : Memory} (api : pdh_api).

(** ** The specification: a switch *)

Inductive capture_op := Start | Snapshot | End_ | ReadLarge (c : pdh_enum) | ReadDisk (no : Z).

Definition can_open : bool := match PdhOpenQuery api with None => true | Some _ => false end.

(** Whether the capture runs after a call. *)
Definition running_after (running : bool) (op : capture_op) : bool :=
  match op with
  | Start => running || can_open
  | End_ => false
  | _ => running
  end.

Fixpoint running (ops : list capture_op) (r : bool) : bool :=
  match ops with
  | [] => r
  | op :: ops' => running ops' (running_after r op)
  end.

(** ** The implementation *)

Definition run_op (op : capture_op) : M pdh_state unit :=
  match op with
  | Start => _ ← sg_win32_start_capture api; mret tt
  | Snapshot => _ ← sg_win32_snapshot api; mret tt
  | End_ => sg_win32_end_capture
  | ReadLarge c => _ ← read_counter_large api c; mret tt
  | ReadDisk no => _ ← get_diskio api no; mret tt
  end.

Fixpoint run_ops (ops : list capture_op) : M pdh_state unit :=
  match ops with
  | [] => mret tt
  | op :: ops' => run_op op;; run_ops ops'
  end.

Definition disk_path (path : string -> string) (n : string) : string := vsnprintf 512 (path n).

(** What the library counts for a disk. *)
Definition disk_reading (n : string) : option (string * Z * Z) :=
  rh ← PdhAddCounter api (disk_path PDH_DISKIOREAD n);
  wh ← PdhAddCounter api (disk_path PDH_DISKIOWRITE n);
  r ← PdhFormattedLarge api rh;
  w ← PdhFormattedLarge api wh;
  Some (n, r, w).

(** ** The library has disks *)

Context (instances : list string).

Definition disks : list string := filter (fun i => strcmp i "_Total" <> 0) instances.

(** PDH lists its instances, and knows the two counters of every disk. *)
Record pdh_lists_disks : Prop := {
  lists_sizes : exists i c, EnumSizes api = Some (S i, S c);
  lists_items : EnumItems api = Some instances;
  lists_text : Forall (fun i => no_nul i = true) instances;
  lists_counters : forall n, n ∈ disks -> is_Some (PdhAddCounter api (disk_path PDH_DISKIOREAD n)) /\
                                          is_Some (PdhAddCounter api (disk_path PDH_DISKIOWRITE n)) }.

Context (Hapi : pdh_lists_disks).

Definition handle_of (path : string -> string) (n : string) : hcounter :=
  match PdhAddCounter api (disk_path path n) with Some h => HCounter h | None => HJunk end.

(** The state in which the capture is off or on. *)
Record capture_wf (on : bool) (s : pdh_state) : Prop := {
  cap_started : is_started s = on;
  cap_current : length (current_han s) = SG_WIN32_SIZE /\ Forall (fun h => h <> HJunk) (current_han s);
  cap_disks : if on then diskio_names s = BAlloc (CStr <$> disks) /\
                         diskio_rhan s = BAlloc (handle_of PDH_DISKIOREAD <$> disks) /\
                         diskio_whan s = BAlloc (handle_of PDH_DISKIOWRITE <$> disks) /\
                         diskio_no s = length disks
              else diskio_no s = O;
  cap_query : h_query s = on;
  cap_calm : AFail ∉ e_allocs (pdh_env s) }.

Lemma wp_on_env {A} (m : M env A) (Q : A -> pdh_state -> Prop) s :
  wp m (fun a e => Q a (mk_pdh (h_query s) (current_han s) (diskio_names s) (diskio_rhan s)
                          (diskio_whan s) (diskio_no s) (is_started s) e)) (pdh_env s) ->
  wp (on_env m) Q s.
Proof. unfold on_env, wp, zoom. by destruct (m (pdh_env s)). Qed.

Lemma wp_set_error code arg (Q : sg_error -> env -> Prop) e :
  (forall e', calmer e e' -> Q code e') -> wp (sg_set_error_fmt code arg) Q e.
Proof.
  intros HQ. apply HQ, calmer_put_error. reflexivity.
Qed.

(** Changing the environment only. *)
Lemma capture_env on s e :
  capture_wf on s -> calmer (pdh_env s) e ->
  capture_wf on (mk_pdh (h_query s) (current_han s) (diskio_names s) (diskio_rhan s)
                   (diskio_whan s) (diskio_no s) (is_started s) e).
Proof. intros [] He. split; try done. cbn. calm. Qed.

Lemma wp_malloc n (Q : option (list ascii) -> env -> Prop) e :
  n <> O -> (AFail ∉ e_allocs e) -> (forall b e', calmer e e' -> Q (Some b) e') ->
  wp (sg_realloc junk CNull n) Q e.
Proof. intros Hn Ha HQ. apply wp_sg_realloc; [done | lia | done |]. intros b e' _ He. by apply HQ. Qed.

Lemma wp_read_counter {A} (format : Z -> option A) h (Q : option A -> env -> Prop) e :
  h <> HJunk -> (AFail ∉ e_allocs e) ->
  (forall e', calmer e e' -> Q (match h with HCounter c => format c | _ => None end) e') ->
  wp (read_counter_int format h) Q e.
Proof.
  intros Hh Ha HQ. destruct h as [|c|]; [| |done].
  - apply wp_ret, HQ. reflexivity.
  - apply wp_bind, wp_malloc; [done | done|]. intros b e' He. by apply wp_ret, HQ.
Qed.

Lemma wp_instance_loop l : forall acc (Q : option (list char_ptr) * nat -> env -> Prop) e,
  (AFail ∉ e_allocs e) ->
  (forall e', calmer e e' ->
     let names := acc ++ (CStr <$> filter (fun i => strcmp i "_Total" <> 0) l) in
     Q (Some names, length names) e') ->
  wp (instance_loop l acc) Q e.
Proof.
  induction l as [|i l IH]; intros acc Q e Ha HQ; cbn [instance_loop].
  { apply wp_ret. specialize (HQ e ltac:(reflexivity)). cbn in HQ. by rewrite app_nil_r in HQ. }
  destruct (Z.eqb_spec (strcmp i "_Total") 0) as [Ez|Ez].
  - apply IH; [done|]. intros e' He'. specialize (HQ e' He').
    by rewrite filter_cons_False in HQ by auto.
  - apply wp_bind, wp_malloc; [lia | done |]. intros b1 e1 H1.
    apply wp_bind, wp_malloc; [lia | calm |]. intros b2 e2 H2.
    apply IH; [calm|]. intros e' He'. specialize (HQ e' ltac:(unfold calmer in *; auto)).
    rewrite filter_cons_True in HQ by done. by rewrite <- app_assoc.
Qed.

Lemma wp_get_instance_list (Q : option (list char_ptr) * nat -> env -> Prop) e :
  (AFail ∉ e_allocs e) ->
  (forall e', calmer e e' -> Q (Some (CStr <$> disks), length disks) e') ->
  wp (get_instance_list api) Q e.
Proof.
  intros Ha HQ. destruct Hapi as [(i & c & Hs) Hi _ _]. apply wp_bind. unfold get_instances. rewrite Hs, Hi.
  apply wp_bind, wp_malloc; [done | done |]. intros b1 e1 H1.
  apply wp_bind, wp_malloc; [done | calm |]. intros b2 e2 H2. apply wp_ret.
  apply wp_bind, wp_malloc; [done | calm |]. intros b3 e3 H3.
  apply wp_instance_loop; [calm|]. intros e' He'. cbn. rewrite length_fmap. apply HQ.
  unfold calmer in *; auto.
Qed.

Lemma wp_disk_handles path l (Q : list hcounter -> pdh_state -> Prop) s :
  Q (handle_of path <$> l) s -> wp (disk_handles api path (CStr <$> l)) Q s.
Proof.
  revert Q. induction l as [|n l IH]; intros Q HQ; [by apply wp_ret|].
  cbn [fmap list_fmap disk_handles] in *. apply wp_bind. unfold disk_handle.
  apply wp_bind, wp_ret, wp_ret, wp_bind, IH, wp_ret.
  replace (add_counter api _ HJunk).2 with (handle_of path n); [done|].
  unfold handle_of, add_counter, disk_path. by destruct (PdhAddCounter api _).
Qed.

Lemma monitors_known cur :
  length cur = SG_WIN32_SIZE -> Forall (fun h => h <> HJunk) cur ->
  let l := zip_with (fun path h => (add_counter api path h).2) monitor_paths cur in
  length l = SG_WIN32_SIZE /\ Forall (fun h => h <> HJunk) l.
Proof.
  intros Hl HF. split.
  - by rewrite length_zip_with, Hl.
  - clear Hl. generalize monitor_paths. induction HF as [|h cur Hh HF IH]; intros [|p ps]; cbn; try constructor; auto.
    unfold add_counter. by destruct (PdhAddCounter api p).
Qed.

(** ** Every operation keeps the state well formed *)

(** The handles of the disks, once there is room for them. *)
Lemma wp_fill_handles s (Q : Z -> pdh_state -> Prop) :
  Q 0 (mk_pdh (h_query s) (current_han s) (diskio_names s) (BAlloc (handle_of PDH_DISKIOREAD <$> disks))
         (BAlloc (handle_of PDH_DISKIOWRITE <$> disks)) (diskio_no s) (is_started s) (pdh_env s)) ->
  wp (rh ← disk_handles api PDH_DISKIOREAD (CStr <$> disks); set_rhan (BAlloc rh);;
      wh ← disk_handles api PDH_DISKIOWRITE (CStr <$> disks); set_whan (BAlloc wh);;
      mret 0) Q s.
Proof.
  intros HQ. apply wp_bind, wp_disk_handles, wp_bind, wp_modify, wp_bind, wp_disk_handles, wp_bind, wp_modify, wp_ret.
  exact HQ.
Qed.

Lemma wp_add_all_monitors s (Q : Z -> pdh_state -> Prop) :
  length (current_han s) = SG_WIN32_SIZE -> Forall (fun h => h <> HJunk) (current_han s) ->
  (AFail ∉ e_allocs (pdh_env s)) ->
  (forall cur e, length cur = SG_WIN32_SIZE -> Forall (fun h => h <> HJunk) cur -> calmer (pdh_env s) e ->
     Q 0 (mk_pdh (h_query s) cur (BAlloc (CStr <$> disks)) (BAlloc (handle_of PDH_DISKIOREAD <$> disks))
            (BAlloc (handle_of PDH_DISKIOWRITE <$> disks)) (length disks) (is_started s) e)) ->
  wp (add_all_monitors api) Q s.
Proof.
  intros Hl HF Ha HQ. destruct (monitors_known (current_han s) Hl HF) as [Hl' HF'].
  apply wp_bind, wp_gets, wp_bind, wp_modify.
  set (cur := zip_with _ monitor_paths (current_han s)) in *.
  apply wp_bind, wp_on_env, wp_get_instance_list; [done|]. intros e1 H1.
  apply wp_bind, wp_modify, wp_bind, wp_on_env, wp_alloc_request; [cbn [pdh_env]; calm|]. intros c2 e2 Hc2 H2.
  cbn [pdh_env h_query current_han diskio_names diskio_rhan diskio_whan diskio_no is_started] in *.
  assert (forall c3 e3, c3 <> AFail -> calmer e2 e3 -> calmer (pdh_env s) e3) as Hc.
  { intros c3 e3 _ H3. trans e2; [|done]. by trans e1. }
  destruct c2; [done | |]; (apply wp_bind, wp_modify, wp_bind, wp_on_env, wp_alloc_request;
    [cbn [pdh_env]; calm|]); intros c3 e3 Hc3 H3; (destruct c3; [done | |]);
    apply wp_fill_handles; cbn [pdh_env h_query current_han diskio_names diskio_rhan diskio_whan diskio_no is_started];
    apply HQ; [done | done | by eapply Hc | done | done | by eapply Hc | done | done | by eapply Hc | done | done | by eapply Hc].
Qed.

Lemma wp_start on s (Q : Z -> pdh_state -> Prop) :
  capture_wf on s ->
  (forall r s', capture_wf (on || can_open) s' -> Q r s') -> wp (sg_win32_start_capture api) Q s.
Proof.
  intros Hs HQ. pose proof Hs as [Hst [Hcl HcF] Hd Hq Ha]. apply wp_bind, wp_gets. rewrite Hst.
  unfold can_open in HQ. destruct on; cbn [orb] in *; [by apply wp_ret, HQ|].
  destruct (PdhOpenQuery api) as [status|].
  { apply wp_on_env, wp_bind, wp_set_error. intros e' He'. by apply wp_ret, HQ, capture_env. }
  apply wp_bind, wp_modify, wp_bind, wp_add_all_monitors; [done | done | done |].
  intros cur e Hl HF He. change (0 =? -1) with false. cbv iota. apply wp_bind, wp_modify, wp_ret, HQ.
  split; [done | done | by split_and! | done |]. cbn [pdh_env] in *. calm.
Qed.

Lemma wp_end_loop l s (Q : unit -> pdh_state -> Prop) : forall i,
  diskio_names s = BAlloc (CStr <$> disks) -> diskio_rhan s = BAlloc (handle_of PDH_DISKIOREAD <$> disks) ->
  diskio_whan s = BAlloc (handle_of PDH_DISKIOWRITE <$> disks) -> drop i disks = l ->
  Q tt s -> wp (end_loop i (length l)) Q s.
Proof.
  induction l as [|n l IH]; intros i Hn Hr Hw Hd HQ; [by apply wp_ret|]. cbn [length end_loop].
  assert (disks !! i = Some n) as Hi.
  { rewrite <- (Nat.add_0_r i), <- lookup_drop, Hd. done. }
  apply wp_bind, wp_gets. cbn. rewrite Hn, Hr, Hw. cbn. rewrite !list_lookup_fmap, Hi. cbn.
  do 3 apply wp_bind, wp_ret. apply wp_bind, wp_free_ptr; [done|]. intros p' _.
  apply IH; try done. by rewrite <- Nat.add_1_r, <- drop_drop, Hd.
Qed.

Lemma wp_end on s (Q : unit -> pdh_state -> Prop) :
  capture_wf on s -> (forall s', capture_wf false s' -> Q tt s') -> wp sg_win32_end_capture Q s.
Proof.
  intros Hs HQ. pose proof Hs as [Hst Hcur Hd Hq Ha]. apply wp_bind, wp_gets. rewrite Hst.
  destruct on; cbn [negb]; [|by apply wp_ret, HQ]. destruct Hd as (Hn & Hr & Hw & Hno).
  apply wp_bind, wp_modify, wp_bind, wp_modify, wp_bind, wp_gets. cbn. rewrite Hno.
  apply wp_bind, (wp_end_loop disks); [done | done | done | by rewrite drop_0 |].
  apply wp_bind, wp_gets. cbn. rewrite Hn, Hr, Hw.
  do 3 (apply wp_bind, wp_ret, wp_bind, wp_modify). apply wp_bind, wp_modify, wp_modify, HQ.
  split; cbn; try done. split; [done|]. repeat constructor; done.
Qed.

(** Reading a disk. *)
Lemma wp_get_diskio on s no (Q : option (string * Z * Z) -> pdh_state -> Prop) :
  capture_wf on s ->
  (forall s', capture_wf on s' ->
     Q (if on && (0 <=? no) then disks !! Z.to_nat no ≫= disk_reading else None) s') ->
  wp (get_diskio api no) Q s.
Proof.
  intros Hs HQ. pose proof Hs as [Hst Hcur Hd Hq Ha]. apply wp_bind, wp_gets. cbn [id].
  destruct on; cbn [andb] in *.
  2: { rewrite Hd. destruct (Z.leb_spec (Z.of_nat 0) no); cbn [orb]; [by apply wp_ret, HQ|].
       destruct (Z.ltb_spec no 0); [by apply wp_ret, HQ | lia]. }
  destruct Hd as (Hn & Hr & Hw & Hno). rewrite Hno.
  destruct (Z.leb_spec 0 no) as [H0|H0]; cycle 1.
  { destruct (Z.ltb_spec no 0); [|lia]. rewrite orb_true_r. by apply wp_ret, HQ. }
  destruct (Z.leb_spec (Z.of_nat (length disks)) no) as [Hge|Hlt]; cbn [orb].
  { rewrite lookup_ge_None_2 in HQ by lia. by apply wp_ret, HQ. }
  destruct (Z.ltb_spec no 0); [lia|].
  destruct (lookup_lt_is_Some_2 disks (Z.to_nat no)) as [n Hi]; [lia|]. rewrite Hi in HQ. cbn [mbind option_bind] in HQ.
  destruct (lists_counters Hapi n) as [[rh Erh] [wh Ewh]]; [by eapply list_elem_of_lookup_2|].
  assert (no_nul n = true) as Hnn.
  { pose proof (lists_text Hapi) as HF. rewrite Forall_forall in HF. apply HF.
    apply list_elem_of_lookup_2 in Hi. by apply list_elem_of_filter in Hi as [_ Hi]. }
  unfold disk_reading in HQ. rewrite Erh, Ewh in HQ. cbn [mbind option_bind] in HQ.
  rewrite Hr, Hw, Hn. unfold block_get. rewrite !list_lookup_fmap, Hi. cbn [fmap option_fmap option_map].
  unfold handle_of. rewrite Erh, Ewh.
  apply wp_bind, wp_ret, wp_bind, wp_on_env, wp_read_counter; [done | done |]. intros e1 H1.
  apply wp_bind, wp_ret, wp_bind, wp_on_env, wp_read_counter; [done | cbn; calm |]. intros e2 H2. cbn in H2.
  assert (capture_wf true (mk_pdh (h_query s) (current_han s) (diskio_names s) (diskio_rhan s) (diskio_whan s)
            (diskio_no s) (is_started s) e2)) as Hs2 by (apply capture_env; [done | by trans e1]).
  destruct (PdhFormattedLarge api rh) as [r|]; cbn [mbind option_bind] in HQ;
    [destruct (PdhFormattedLarge api wh) as [w|]; cbn [mbind option_bind] in HQ|].
  - apply wp_bind, wp_ret, wp_bind, wp_ret, wp_bind, wp_on_env, wp_sg_update_string; [done | done | | cbn; calm].
    intros e3 H3. cbn [fst snd]. rewrite decide_False by auto. apply wp_ret, HQ. exact (capture_env true _ e3 Hs2 H3).
  - apply wp_on_env, wp_bind, wp_set_error. intros e3 H3. apply wp_ret, HQ. exact (capture_env true _ e3 Hs2 H3).
  - apply wp_on_env, wp_bind, wp_set_error. intros e3 H3. apply wp_ret, HQ. exact (capture_env true _ e3 Hs2 H3).
Qed.

Lemma wp_read_large on s c (Q : option Z -> pdh_state -> Prop) :
  capture_wf on s -> (forall r s', capture_wf on s' -> Q r s') -> wp (read_counter_large api c) Q s.
Proof.
  intros Hs HQ. pose proof Hs as [Hst [Hl HF] Hd Hq Ha]. apply wp_bind, wp_gets.
  destruct (lookup_lt_is_Some_2 (current_han s) (pdh_index c)) as [h Hh]; [rewrite Hl; destruct c; cbn; unfold SG_WIN32_SIZE; lia|].
  rewrite Hh. apply wp_on_env, wp_read_counter; [|done|].
  - rewrite Forall_forall in HF. apply HF. by eapply list_elem_of_lookup_2.
  - intros e' He'. by apply HQ, capture_env.
Qed.

Lemma wp_run_op on op s (Q : unit -> pdh_state -> Prop) :
  capture_wf on s -> (forall s', capture_wf (running_after on op) s' -> Q tt s') -> wp (run_op op) Q s.
Proof.
  intros Hs HQ. destruct op; cbn [run_op running_after] in *.
  - apply wp_bind, (wp_start on); [done|]. intros. by apply wp_ret, HQ.
  - apply wp_bind. pose proof Hs as [Hst _ _ _ _]. apply wp_bind, wp_gets. rewrite Hst.
    destruct on; cbn [negb]; [|by apply wp_ret, wp_ret, HQ].
    destruct (PdhCollectQueryData api); [by apply wp_ret, wp_ret, HQ|].
    apply wp_on_env, wp_bind, wp_set_error. intros e' He'. by apply wp_ret, wp_ret, HQ, capture_env.
  - by apply (wp_end on).
  - apply wp_bind, (wp_read_large on); [done|]. intros. by apply wp_ret, HQ.
  - apply wp_bind, (wp_get_diskio on); [done|]. intros. by apply wp_ret, HQ.
Qed.

Lemma wp_run_ops ops : forall on s (Q : unit -> pdh_state -> Prop),
  capture_wf on s -> (forall s', capture_wf (running ops on) s' -> Q tt s') -> wp (run_ops ops) Q s.
Proof.
  induction ops as [|op ops IH]; intros on s Q Hs HQ; [by apply wp_ret, HQ|].
  apply wp_bind, (wp_run_op on); [done|]. intros s' Hs'. by apply (IH (running_after on op)).
Qed.

Lemma pdh_zero_wf e : (AFail ∉ e_allocs e) -> capture_wf false (pdh_zero e).
Proof. intros Ha. split; cbn; try done. split; [done|]. repeat constructor; done. Qed.

(** C14: Whatever sequence of the calls of win32.c is made, on a machine whose disks PDH
    lists, none of them goes wrong and the capture behaves as a switch: reading a disk
    afterwards delivers its name and what PDH counts for it exactly when the capture is
    on and the number is that of a disk, and nothing otherwise; the handles are
    well formed throughout. *)
Theorem capture_is_switch ops no e :
  (AFail ∉ e_allocs e) ->
  wp (run_ops ops;; get_diskio api no)
     (fun r s => capture_wf (running ops false) s /\
        r = if running ops false && (0 <=? no) then disks !! Z.to_nat no ≫= disk_reading else None)
     (pdh_zero e).
Proof.
  intros Ha. apply wp_bind, (wp_run_ops _ false); [by apply pdh_zero_wf|]. intros s Hs.
  apply (wp_get_diskio (running ops false)); [done|]. intros s' Hs'. done.
Qed.
End capture.

(** A machine with two disks. *)
Definition demo_pdh : pdh_api := mk_pdh_api None true (fun p => Some (Z.of_nat (String.length p)))
  (fun h => Some (100 * h)) (fun _ => None) (Some (20, 20)%nat) (Some ["0 C:"; "_Total"; "1 DATA:"]).

Lemma capture_is_switch_witness :
  let ops := [ReadDisk 0; Start; Snapshot; Start; ReadLarge SG_WIN32_UPTIME; End_; End_; Start; ReadDisk 5] in
  running demo_pdh ops false = true /\
  disks ["0 C:"; "_Total"; "1 DATA:"] !! 1%nat ≫= disk_reading demo_pdh = Some ("1 DATA:", 4200, 4300) /\
  wp (run_ops demo_pdh ops;; get_diskio demo_pdh 1)
     (fun r s => capture_wf demo_pdh ["0 C:"; "_Total"; "1 DATA:"] (running demo_pdh ops false) s /\
        r = if running demo_pdh ops false && (0 <=? 1)
            then disks ["0 C:"; "_Total"; "1 DATA:"] !! Z.to_nat 1 ≫= disk_reading demo_pdh else None)
     (pdh_zero demo_env).
Proof.
  split; [reflexivity|]. split; [vm_compute; reflexivity|].
  apply (capture_is_switch demo_pdh ["0 C:"; "_Total"; "1 DATA:"]); [|apply not_elem_of_nil].
  split.
  - by exists 19%nat, 19%nat.
  - reflexivity.
  - by repeat constructor.
  - intros n _. split; by eexists.
Defined.

(** The instances cannot be listed the second time. *)
Definition demo_pdh_none : pdh_api := mk_pdh_api None true (fun _ => None) (fun _ => None) (fun _ => None) None None.

(** A second capture during which PDH lists no disk is not ended: the handles of the
    first one are released again. *)
Lemma second_capture_double_free :
  (sg_win32_start_capture demo_pdh;; sg_win32_end_capture;;
   sg_win32_start_capture demo_pdh_none;; sg_win32_end_capture) (pdh_zero demo_env) = Stuck double_free.
Proof. vm_compute. reflexivity. Qed.

(** When the memory for the list of names runs out, the number of disks counted so far
    stays, and reading one of them goes through NULL. *)
Lemma instance_list_failure_faults :
  (sg_win32_start_capture demo_pdh;; get_diskio demo_pdh 0)
    (pdh_zero (mk_env [AMove; AMove; AMove; AMove; AMove; AFail] 0 (Some error_glob_zero) error_glob_zero))
    = Stuck null_deref.
Proof. vm_compute. reflexivity. Qed.
