(* ===== verification/NetworkProps.v ===== *)
(** The theorems about network_stats.c: from the text of /proc/net/dev to the
    counters and differences of the caller, the lists of the other systems, and the
    buffer of the interface configuration on AIX. *)

From S2P Require Import Prelude Types CLib Errors Tools Vector VectorSpec VectorDiff Items Comp Stdio ToolsExt Fill Single Disk Demo Network NetworkSys.

Local Open Scope sg_scope.

(** * Growing the buffer of the interface configuration *)

(** What the loop ends with: a buffer in which a page stayed free, or an error. *)
Definition ifconf_result (conf : Z -> option Z) (page_size : Z) (r : sg_error + Z) : Prop :=
  match r with
  | inr n => exists len, conf (n * page_size) = Some len /\ len < (n - 1) * page_size
  | inl rc => rc = SG_ERROR_MALLOC
  end.

Lemma ifconf_loop_ends fuel conf page_size : forall n e,
  1 <= page_size -> 1 <= n -> 2 ^ 31 <= n * 2 ^ Z.of_nat fuel ->
  wp (ifconf_loop (S fuel) conf page_size n) (fun r _ => ifconf_result conf page_size r) e.
Proof.
  induction fuel as [|fuel IH]; intros n e Hp Hn Hf; cbn [ifconf_loop].
  all: destruct (negb _) eqn:Efull.
  1, 3: apply wp_ret; destruct (conf (n * page_size)) as [len|] eqn:Ec; [|done];
    exists len; split; [done|]; cbv zeta in Efull; destruct (Z.leb_spec ((n - 1) * page_size) len); [done|lia].
  all: destruct (Z.ltb_spec (2 ^ 31 - 1) (n * 2 * page_size)) as [Hb|Hb].
  1, 3: by apply wp_bind.
  - change (2 ^ Z.of_nat 0) with 1 in Hf. nia.
  - apply wp_bind. unfold alloc_request, wp at 1.
    assert (2 ^ 31 <= n * 2 * 2 ^ Z.of_nat fuel) as Hf'.
    { rewrite Nat2Z.inj_succ, Z.pow_succ_r in Hf by lia. lia. }
    destruct (e_allocs e) as [|[] r]; try (apply IH; [done | lia | done]).
    by apply wp_bind.
Qed.

(** The loop of AIX that doubles the buffer for SIOCGIFCONF ends within its 32
    rounds, whatever the ioctl answers and however the allocator behaves: with a
    buffer in which a page stayed free, so that the list is complete, or with
    SG_ERROR_MALLOC. *)
Theorem ifconf_terminates conf page_size e :
  1 <= page_size ->
  wp (ifconf_loop 32 conf page_size 2) (fun r _ => ifconf_result conf page_size r) e.
Proof. intros Hp. apply ifconf_loop_ends; lia. Qed.

Lemma ifconf_terminates_witness :
  ifconf_loop 32 (fun len => if len <? 70000 then None else Some 65000) 4096 2 demo_env
    = Done (inr 32) demo_env /\
  wp (ifconf_loop 32 (fun _ => None) 4096 2) (fun r _ => ifconf_result (fun _ => None) 4096 r) demo_env.
Proof.
  split; [vm_compute; reflexivity|]. apply (ifconf_terminates (fun _ => None) 4096 demo_env). lia.
Defined.

(** A system that stores its requests, [len] bytes of them, when there is room, and otherwise fails or
    fills the buffer: the loop finds a buffer with room. *)
Record ifconf_answers (page_size len : Z) (conf : Z -> option Z) : Prop := {
  ia_len : 0 <= len; ia_small : len + page_size < 2 ^ 30;
  ia_room : forall m, len + page_size < m -> conf m = Some len;
  ia_full : forall m x, conf m = Some x -> x < m - page_size -> x = len }.

Lemma wp_ifconf_loop page_size len conf (Q : sg_error + Z -> env -> Prop) :
  1 <= page_size -> ifconf_answers page_size len conf ->
  forall fuel n e, 1 <= n -> n * page_size <= 2 * (len + page_size) -> len + page_size < n * 2 ^ Z.of_nat fuel ->
  (AFail ∉ e_allocs e) ->
  (forall n' e', conf (n' * page_size) = Some len -> calmer e e' -> Q (inr n') e') ->
  wp (ifconf_loop (S fuel) conf page_size n) Q e.
Proof.
  intros Hp [Hl Hsm Hroom Hfull]. induction fuel as [|fuel IH]; intros n e Hn Hb Hf Ha HQ; cbn [ifconf_loop]; cbv zeta.
  all: destruct (negb _) eqn:Efull.
  1, 3: apply wp_ret, HQ; [|done]; destruct (conf (n * page_size)) as [x|] eqn:Ec; [|done]; f_equal;
    apply (Hfull (n * page_size)); [done|]; destruct (Z.leb_spec ((n - 1) * page_size) x); [done|lia].
  all: assert (n * page_size <= len + page_size) as Hno by
    (apply Z.nlt_ge; intros Hlt; rewrite (Hroom _ Hlt) in Efull; destruct (Z.leb_spec ((n - 1) * page_size) len); [lia|done]).
  - change (2 ^ Z.of_nat 0) with 1 in Hf. nia.
  - rewrite (proj2 (Z.ltb_ge _ _)) by lia. apply wp_bind, wp_alloc_request; [done|]. intros c e1 Hc He1.
    assert (forall (x y : M env (sg_error + Z)), match c with AFail => x | _ => y end = y) as -> by (by destruct c).
    rewrite Nat2Z.inj_succ, Z.pow_succ_r in Hf by lia. apply IH; [lia|lia|lia|calm|].
    intros n' e' Hn' He'. apply HQ; [done|]. by trans e1.
Qed.

(** * The requests in the buffer *)

(** The requests stand one behind the other from [pos] to [lifr]. *)
Inductive laid_out (size : ifreq -> Z) (buf : Z -> ifreq) (lifr : Z) : Z -> list ifreq -> Prop :=
  | laid_end : laid_out size buf lifr lifr []
  | laid_req pos reqs : laid_out size buf lifr (pos + size (buf pos)) reqs -> laid_out size buf lifr pos (buf pos :: reqs).

Lemma laid_out_length size buf lifr pos reqs :
  (forall i, 1 <= size i) -> laid_out size buf lifr pos reqs -> pos + Z.of_nat (length reqs) <= lifr.
Proof. intros Hs. induction 1 as [|pos reqs H IH]; cbn [length]; [lia|]. specialize (Hs (buf pos)). lia. Qed.

Lemma wp_ifreq_walk size buf lifr pos reqs : (forall i, 1 <= size i) -> laid_out size buf lifr pos reqs ->
  forall fuel (Q : list ifreq -> env -> Prop) e, (length reqs <= fuel)%nat -> Q reqs e -> wp (ifreq_walk fuel size buf pos lifr) Q e.
Proof.
  intros Hs H. pose proof (laid_out_length _ _ _ _ _ Hs H) as Hlen.
  induction H as [|pos reqs H IH]; intros fuel Q e Hf HQ.
  { destruct fuel; cbn [ifreq_walk]; rewrite Z.ltb_irrefl; by apply wp_ret. }
  destruct fuel as [|fuel]; cbn [length] in *; [lia|]. cbn [ifreq_walk]. rewrite (proj2 (Z.ltb_lt _ _)) by lia.
  apply wp_bind, IH; [by apply (laid_out_length size buf)|lia|]. by apply wp_ret.
Qed.

(** The buffer is left after a bounded number of steps whatever stands in it. *)
Lemma ifreq_walk_ends size buf lifr : (forall i, 1 <= size i) ->
  forall fuel pos e, lifr - pos <= Z.of_nat fuel -> exists l, ifreq_walk fuel size buf pos lifr e = Done l e.
Proof.
  intros Hs. induction fuel as [|fuel IH]; intros pos e Hf; cbn [ifreq_walk]; destruct (Z.ltb_spec pos lifr); try (by eexists); [lia|].
  specialize (Hs (buf pos)). destruct (IH (pos + size (buf pos)) e) as [l E]; [lia|]. eexists. unfold mbind, M_bind. by rewrite E.
Qed.

Lemma aix_size_pos sz i : 1 <= sizeof_ifreq sz -> 1 <= SIZEOF_ADDR_IFREQ_aix sz i.
Proof. unfold SIZEOF_ADDR_IFREQ_aix. destruct (Z.ltb_spec (sizeof_sockaddr sz) (ir_sa_len i)); lia. Qed.

Lemma hpux_size_pos sz i : 1 <= sizeof_ifreq sz -> 1 <= SIZEOF_ADDR_IFREQ_hpux sz i.
Proof. unfold SIZEOF_ADDR_IFREQ_hpux. destruct (Z.ltb_spec (sizeof_sockaddr sz) (SA_LEN sz i)); lia. Qed.

(** * The text of /proc/net/dev *)

Definition is_blank (c : ascii) : bool := bool_decide (c = " "%char).

(** Numbers, each with the blanks before it. *)
Fixpoint numbers_text (nums : list (string * Z)) (rest : string) : string :=
  match nums with
  | [] => rest
  | (sp, z) :: nums' => sp +:+ (print_unsigned z +:+ numbers_text nums' rest)
  end.

(** The line of an interface: ["%6s: %7lu %7lu ..."]. *)
Record net_dev := mk_net_dev { nd_pad : string; nd_name : string; nd_numbers : list (string * Z) }.

Definition nd_text (d : net_dev) : string :=
  nd_pad d +:+ (nd_name d +:+ String ":" (numbers_text (nd_numbers d) EmptyString)).

Definition nd_line (d : net_dev) : string := nd_text d +:+ String newline EmptyString.

Definition name_ok (c : ascii) : bool :=
  negb (isspace c) && negb (bool_decide (c = ":"%char)) && not_nul c.

Definition counter_ok (n : string * Z) : Prop := all_chars is_blank n.1 = true /\ 0 <= n.2 < 2 ^ 63.

(** At least the fourteen columns that are read, with blanks between them. *)
Record nd_ok (d : net_dev) : Prop := {
  nd_pad_ok : all_chars is_blank (nd_pad d) = true;
  nd_name_ok : all_chars name_ok (nd_name d) = true;
  nd_name_ne : nd_name d <> EmptyString;
  nd_columns : (14 <= length (nd_numbers d))%nat;
  nd_counters : Forall counter_ok (nd_numbers d);
  nd_blanks : Forall (fun n => n.1 <> EmptyString) (drop 1 (nd_numbers d));
  nd_length : (String.length (nd_text d) < 1023)%nat }.

Lemma blank_space s : all_chars is_blank s = true -> all_chars isspace s = true.
Proof. apply all_chars_impl. by intros c ->%bool_decide_eq_true. Qed.

Lemma numbers_at_blank nums rest :
  Forall counter_ok nums -> Forall (fun n => n.1 <> EmptyString) nums -> at_blank rest ->
  at_blank (numbers_text nums rest).
Proof.
  intros Hc Hn Hr. destruct nums as [|[sp z] nums]; [done|].
  apply Forall_cons in Hc as [[Hsp _] _]. apply Forall_cons in Hn as [Hsp0 _]. cbn in *.
  apply blank_space in Hsp. destruct sp as [|c sp]; [done|]. simpl in *. by apply andb_true_iff in Hsp as [-> _].
Qed.

Lemma numbers_text_app nums r1 r2 : numbers_text nums r1 +:+ r2 = numbers_text nums (r1 +:+ r2).
Proof. induction nums as [|[sp z] nums IH]; [done|]. cbn [numbers_text]. by rewrite !string_app_assoc, IH. Qed.

Lemma rx_numbers_text n : forall nums rest first,
  (n <= length nums)%nat -> Forall counter_ok nums ->
  (first = false -> Forall (fun n => n.1 <> EmptyString) nums) ->
  Forall (fun n => n.1 <> EmptyString) (drop 1 nums) -> at_blank rest ->
  rx_numbers first n (numbers_text nums rest) = Some ((fun n => print_unsigned n.2) <$> take n nums).
Proof.
  induction n as [|n IH]; intros nums rest first Hn Hc Hf Hd Hr; [done|].
  destruct nums as [|[sp z] nums]; [simpl in Hn; lia|]. cbn [drop] in Hd.
  apply Forall_cons in Hc as [[Hsp Hz] Hc]. cbn [fst snd] in *. apply blank_space in Hsp.
  destruct (print_unsigned_digits z) as (Hdig & _ & Hne); [lia|].
  cbn [rx_numbers numbers_text].
  rewrite take_while_app; [|done|].
  2: { destruct (print_unsigned z) as [|c t]; [done|]. simpl in *. apply andb_true_iff in Hdig as [Hc' _].
       by apply digit_not_space. }
  rewrite take_while_app; [|done|].
  2: { apply at_blank_digit, numbers_at_blank; done. }
  rewrite IH; [|simpl in Hn; lia | done | done | by apply Forall_drop | done].
  cbn [take fmap list_fmap option_fmap option_map].
  destruct (print_unsigned z) as [|c t] eqn:E; [done|].
  destruct first; cbn [snd]; [by rewrite E|].
  destruct sp; [|by rewrite E]. specialize (Hf eq_refl). by apply Forall_cons in Hf as [? _].
Qed.

Lemma rx_name_text pad name r :
  all_chars is_blank pad = true -> all_chars name_ok name = true -> name <> EmptyString ->
  rx_name (pad +:+ (name +:+ String ":" r)) = Some (name, r).
Proof.
  intros Hp Hn Hne. unfold rx_name. rewrite take_while_app.
  2: by apply blank_space.
  2: { destruct name as [|c t]; [done|]. simpl in *. apply andb_true_iff in Hn as [Hc _].
       unfold name_ok in Hc. apply andb_true_iff in Hc as [[Hc _]%andb_true_iff _]. by destruct (isspace c). }
  rewrite take_while_app; [by destruct name | | done].
  revert Hn. apply all_chars_impl. intros c Hc. unfold name_ok in Hc.
  by apply andb_true_iff in Hc as [[_ ?]%andb_true_iff _].
Qed.

Lemma atoll_print z : 0 <= z < 2 ^ 63 -> libc_atoll (print_unsigned z) = z.
Proof.
  intros Hz. destruct (print_unsigned_digits z) as (Hd & Hv & Hne); [lia|].
  unfold libc_atoll. rewrite <- (string_app_nil (print_unsigned z)), skip_white_digit by done.
  rewrite take_sign_digits by done. rewrite take_while_app by done.
  cbn [fst]. unfold to_signed. rewrite Hv. lia.
Qed.

(** The columns of a line by their position. *)
Definition nd_number (d : net_dev) (i : nat) : Z := default 0 (snd <$> nd_numbers d !! i).

Lemma network_io_rx_text d :
  nd_ok d ->
  network_io_rx (nd_line d) = Some (nd_name d, (fun n => print_unsigned n.2) <$> take 14 (nd_numbers d)).
Proof.
  intros []. unfold network_io_rx, nd_line, nd_text. rewrite !string_app_assoc.
  change (String ":" ?x +:+ ?y) with (String ":" (x +:+ y)). rewrite numbers_text_app.
  rewrite rx_name_text, rx_numbers_text by done. done.
Qed.

Lemma number_at_text d i :
  nd_ok d -> (i < 14)%nat ->
  number_at ((fun n => print_unsigned n.2) <$> take 14 (nd_numbers d)) i = nd_number d i.
Proof.
  intros [] Hi. unfold number_at, nd_number. rewrite list_lookup_fmap, lookup_take_lt by done.
  destruct (lookup_lt_is_Some_2 (nd_numbers d) i) as [[sp z] E]; [lia|]. rewrite E. cbn.
  apply (Forall_lookup_1 _ _ _ _ nd_counters0) in E as [_ Hz]. cbn in Hz.
  rewrite atoll_print by done. apply wrap_small. lia.
Qed.

Section counters.
Context {mem : Memory} {sys : System}.

Definition nd_stats (d : net_dev) : sg_network_io_stats :=
  mk_network_io_stats (CStr (nd_name d)) (nd_number d 8) (nd_number d 0) (nd_number d 1)
    (nd_number d 9) (nd_number d 2) (nd_number d 10) (nd_number d 13) sys_time.

Lemma nd_name_text d : nd_ok d -> no_nul (nd_name d) = true.
Proof.
  intros []. apply no_nul_chars. revert nd_name_ok0. apply all_chars_impl.
  intros c Hc. by apply andb_true_iff in Hc as [_ ?].
Qed.

(** The item a line of the file is stored as. *)
Definition net_item (e : string * list string) : item :=
  let '(name, nums) := e in
  INetIo (mk_network_io_stats (CStr name) (number_at nums 8) (number_at nums 0) (number_at nums 1)
            (number_at nums 9) (number_at nums 2) (number_at nums 10) (number_at nums 13) sys_time).

Lemma fill_network_io_ok e :
  no_nul e.1 = true -> fills_item Knetwork_io (fill_network_io e) (net_item e).
Proof.
  destruct e as [name nums]. intros Hn. split; [done|]. intros it Q e Hit Hna HQ.
  destruct it as [| | | | | | | | |s| | | | |]; try done. cbn [fill_network_io as_network_io].
  apply wp_bind.
  assert (wp (match nio_interface_name s with CNull => mret tt | p => _ ← free_ptr p; mret tt end)
             (fun _ e' => e' = e) e) as Hfree.
  { cbn in Hit. destruct (nio_interface_name s); try done. }
  eapply wp_mono; [exact Hfree|]. intros _ e' ->. apply wp_bind.
  assert (String.substring 0 (String.length name - 0) name = name) as Es.
  { apply substring_all. lia. }
  apply wp_bind, wp_alloc_request; [by intros Ha%Hna|].
  intros a e' Hnf He. destruct a; try done; rewrite Es; by apply wp_ret, HQ.
Qed.

Lemma net_item_text d :
  nd_ok d -> net_item (nd_name d, (fun n => print_unsigned n.2) <$> take 14 (nd_numbers d))
             = INetIo (nd_stats d).
Proof. intros Hd. unfold net_item, nd_stats. by rewrite !number_at_text by (done || lia). Qed.

(** The file: two title lines and one line per interface. *)
Definition net_dev_file (t1 t2 : string) (ds : list net_dev) : string :=
  concat_lines (t1 :: t2 :: (nd_line <$> ds)).

Lemma nd_line_short d : nd_ok d -> short_line 1024 (nd_line d).
Proof.
  intros Hd. exists (nd_text d). split; [done|]. split; [|apply (nd_length _ Hd)].
  destruct Hd. unfold nd_text. rewrite !all_chars_app. apply andb_true_iff. split.
  { revert nd_pad_ok0. apply all_chars_impl. by intros c ->%bool_decide_eq_true. }
  apply andb_true_iff. split.
  { revert nd_name_ok0. apply all_chars_impl. intros c Hc. apply bool_decide_eq_true. intros ->.
    done. }
  cbn [all_chars]. change (not_newline ":") with true. cbn [andb].
  clear -nd_counters0. induction nd_counters0 as [|[sp z] nums [Hsp Hz] _ IH]; [done|].
  cbn [numbers_text fst snd] in *. rewrite !all_chars_app. apply andb_true_iff. split.
  { revert Hsp. apply all_chars_impl. by intros c ->%bool_decide_eq_true. }
  apply andb_true_iff. split; [|done].
  destruct (print_unsigned_digits z) as (Hd & _ & _); [lia|]. revert Hd. apply all_chars_impl.
  intros c Hc. apply bool_decide_eq_true. by intros ->.
Qed.

Lemma network_io_fills t1 t2 ds :
  sys_file "/proc/net/dev" = Some (net_dev_file t1 t2 ds) ->
  short_line 1024 t1 -> short_line 1024 t2 -> Forall nd_ok ds -> Z.of_nat (length ds) <= 2 ^ 31 ->
  fills Knetwork_io sg_get_network_io_stats_int (INetIo ∘ nd_stats <$> ds).
Proof.
  intros Hf H1 H2 Hds Hlen l v Q w Hh Hl Hwf Hu Hi Hna HQ. unfold sg_get_network_io_stats_int.
  apply wp_bind. unfold fopen. rewrite Hf. apply wp_in_env, wp_ret.
  unfold net_dev_lines, net_dev_file. rewrite file_lines_short.
  2: { repeat constructor; try done. apply Forall_fmap. eapply Forall_impl; [done|]. apply nd_line_short. }
  set (entry d := (nd_name d, (fun n : string * Z => print_unsigned n.2) <$> take 14 (nd_numbers d))).
  assert (omap network_io_rx (nd_line <$> ds) = entry <$> ds) as ->.
  { clear -Hds. induction Hds as [|d ds Hd _ IH]; [done|]. cbn. rewrite network_io_rx_text by done.
    by f_equal. }
  eapply (wp_append_loop Knetwork_io eq_refl fill_network_io net_item)
    with (l0 := l) (w0 := w) (v := v) (n := O); try done;
    [| destruct w; by apply replaced_refl | |].
  - intros e (d & -> & Hd)%list_elem_of_fmap. apply fill_network_io_ok.
    apply nd_name_text. by eapply Forall_forall.
  - by rewrite length_fmap.
  - intros l' v' w' Hw' Hi' Hc' Hr. apply (HQ l' v'); try done.
    rewrite Hc', <- list_fmap_compose. unfold contents. rewrite Hu. cbn.
    apply list_fmap_ext. intros i d Hd. apply net_item_text. by eapply Forall_lookup.
Qed.

(** What a counter has counted since an earlier reading [old]: a counter that is
    smaller than before is taken for one of 32 bits that has started again from 0. *)
Definition counted_since (old new : Z) : Z :=
  if decide (old <= new) then new - old else (2 ^ 32 - old + new) mod 2 ^ 64.

(** What was transferred since the readings [last]: the differences of the
    counters to the reading of the same interface, or all for a new interface. *)
Definition net_transferred (last : list sg_network_io_stats) (s : sg_network_io_stats)
    : sg_network_io_stats :=
  match list_find (fun x => nio_interface_name x = nio_interface_name s) last with
  | Some (_, x) =>
      {| nio_interface_name := nio_interface_name s;
         nio_tx := counted_since (nio_tx x) (nio_tx s);
         nio_rx := counted_since (nio_rx x) (nio_rx s);
         nio_ipackets := counted_since (nio_ipackets x) (nio_ipackets s);
         nio_opackets := counted_since (nio_opackets x) (nio_opackets s);
         nio_ierrors := counted_since (nio_ierrors x) (nio_ierrors s);
         nio_oerrors := counted_since (nio_oerrors x) (nio_oerrors s);
         nio_collisions := counted_since (nio_collisions x) (nio_collisions s);
         nio_systime := s64 (nio_systime s - nio_systime x) |}
  | None => s
  end.

(** Readings of [atoll]: no counter is negative. *)
Record net_reading (s : sg_network_io_stats) : Prop := {
  nr_tx : 0 <= nio_tx s < 2 ^ 63; nr_rx : 0 <= nio_rx s < 2 ^ 63;
  nr_ipackets : 0 <= nio_ipackets s < 2 ^ 63; nr_opackets : 0 <= nio_opackets s < 2 ^ 63;
  nr_ierrors : 0 <= nio_ierrors s < 2 ^ 63; nr_oerrors : 0 <= nio_oerrors s < 2 ^ 63;
  nr_collisions : 0 <= nio_collisions s < 2 ^ 63 }.

Lemma transfer_diff_counted new old :
  0 <= old < 2 ^ 63 -> 0 <= new < 2 ^ 63 -> transfer_diff new old = counted_since old new.
Proof.
  intros Ho Hn. unfold transfer_diff, counted_since. rewrite !swrap_small by lia.
  destruct (Z.leb_spec old new); case_decide; try lia; [by rewrite wrap_small by lia|].
  unfold wrap. f_equal. unfold MAXVAL. lia.
Qed.

Lemma find_same_iface s last :
  list_find (fun l => item_same Knetwork_io l (INetIo s) = true) (INetIo <$> last)
    = prod_map id INetIo <$> list_find (fun x => nio_interface_name x = nio_interface_name s) last.
Proof.
  induction last as [|x last IH]; [done|]. cbn [list_find fmap list_fmap].
  assert (item_same Knetwork_io (INetIo x) (INetIo s) = true
            <-> nio_interface_name x = nio_interface_name s) as Hiff.
  { unfold item_same. rewrite bool_decide_eq_true. cbn. split; [by intros [= ->] | by intros ->]. }
  destruct (decide (nio_interface_name x = nio_interface_name s)) as [Heq|Hne].
  - by rewrite decide_True by (by apply Hiff).
  - rewrite decide_False by (by rewrite Hiff). setoid_rewrite IH.
    by destruct (list_find _ last) as [[i y]|].
Qed.

Lemma diff_item_net last s :
  Forall net_reading last -> net_reading s ->
  diff_item Knetwork_io (INetIo <$> last) (INetIo s) = INetIo (net_transferred last s).
Proof.
  intros HF [? ? ? ? ? ? ?]. unfold diff_item, net_transferred.
  change (@same_name _ _) with (@item_same). rewrite find_same_iface.
  destruct (list_find _ last) as [[i x]|] eqn:E; [|done].
  apply list_find_Some in E as (Hx & _). apply (Forall_lookup_1 _ _ _ _ HF) in Hx as [? ? ? ? ? ? ?].
  cbn. unfold sg_network_io_stats_item_compute_diff. by rewrite !transfer_diff_counted by done.
Qed.

Lemma nd_reading d : nd_ok d -> net_reading (nd_stats d).
Proof.
  intros Hd. assert (forall i, (i < 14)%nat -> 0 <= nd_number d i < 2 ^ 63) as Hn.
  { intros i Hi. unfold nd_number. destruct Hd.
    destruct (lookup_lt_is_Some_2 (nd_numbers d) i) as [[sp z] E]; [lia|]. rewrite E. cbn.
    by apply (Forall_lookup_1 _ _ _ _ nd_counters0) in E as [_ ?]. }
  split; apply Hn; lia.
Qed.

Lemma net_named (l : list sg_network_io_stats) :
  Forall (fun s => is_text (nio_interface_name s) = true) l -> all_named Knetwork_io (INetIo <$> l).
Proof. intros HF. by apply Forall_fmap. Qed.

Lemma net_unique (l : list sg_network_io_stats) :
  NoDup (nio_interface_name <$> l) -> unique_names Knetwork_io (INetIo <$> l).
Proof.
  intros HN. apply keys_unique. rewrite <- list_fmap_compose.
  replace (_ <$> l) with ((fun p => Some [p]) <$> (nio_interface_name <$> l))
    by (rewrite <- list_fmap_compose; by apply list_fmap_ext).
  apply NoDup_fmap_2; [|done]. by intros ? ? [= ->].
Qed.

(** The difference the caller gets, and the readings that are kept. *)
Definition net_difference (ds : list net_dev) (last : list sg_network_io_stats) (r : vptr * Z)
    (st : comp) : Prop :=
  r.2 = Z.of_nat (length ds) /\
  (exists d v, r.1 = Some d /\ w_vecs (c_world st) !! d = Some v /\ wf_vec v /\
     contents v = INetIo <$> (net_transferred last <$> (nd_stats <$> ds))) /\
  (exists vs n v, c_vectors st = Some vs /\ vs !! SG_NETWORK_IO_NOW_IDX = Some (Some n) /\
     w_vecs (c_world st) !! n = Some v /\ contents v = INetIo <$> (nd_stats <$> ds)).

(** C6: [sg_get_network_io_stats_diff] after earlier readings of at least one
    interface, on the text the kernel writes to /proc/net/dev for at least one
    interface (counters below 2^63, different names): for every interface of the
    file, in order, what its columns have counted since the earlier reading of that
    interface (all for a new one), a counter that has become smaller being one of
    32 bits that started again; the new readings are kept for the next call. Memory
    must last. *)
Theorem network_io_diff_since_last t1 t2 ds last n od nv vs w :
  sys_file "/proc/net/dev" = Some (net_dev_file t1 t2 ds) ->
  short_line 1024 t1 -> short_line 1024 t2 -> Forall nd_ok ds ->
  1 <= Z.of_nat (length ds) <= 2 ^ 31 -> NoDup (nd_name <$> ds) ->
  vs !! SG_NETWORK_IO_NOW_IDX = Some (Some n) -> vs !! SG_NETWORK_IO_DIFF_IDX = Some od ->
  w_vecs w !! n = Some nv -> wf_vec nv -> info nv = VECTOR_INIT_INFO Knetwork_io ->
  1 <= used_count nv -> Z.of_nat (length (data nv)) <= 2 ^ 31 ->
  contents nv = INetIo <$> last ->
  Forall net_reading last ->
  Forall (fun s => is_text (nio_interface_name s) = true) last -> NoDup (nio_interface_name <$> last) ->
  od <> Some n -> slot_state Knetwork_io od w -> wf_heap w -> (AFail ∉ e_allocs (w_env w)) ->
  wp sg_get_network_io_stats_diff (net_difference ds last) (mk_comp (Some vs) w).
Proof.
  intros Hf H1 H2 Hds Hlen HN Hn Hd Hnv Hwf Hi Hu Hsz Hlast Hrd Hnn Hnu Hne Hs Hw Hna.
  pose proof (network_io_fills t1 t2 ds Hf H1 H2 Hds (proj2 Hlen)) as Hfill.
  rewrite list_fmap_compose in Hfill.
  assert (diff_input Knetwork_io nv (INetIo <$> (nd_stats <$> ds))) as Hin.
  { split; rewrite ?length_fmap, ?Hlast; auto using net_named, net_unique.
    - apply net_named, Forall_fmap. eapply Forall_impl; [done|]. intros d Hd'. by apply nd_name_text.
    - apply net_unique. rewrite <- list_fmap_compose.
      replace (_ <$> ds) with (CStr <$> (nd_name <$> ds))
        by (rewrite <- list_fmap_compose; by apply list_fmap_ext).
      apply NoDup_fmap_2; [|done]. by intros ? ? [= ->]. }
  apply (wp_multi_diff Knetwork_io _ _ _ _ n od nv vs _ _ Hin Hnv Hw Hna Hfill); [done..|].
  intros n' d' v' w' vs' Hv' Hct Hl' (v2 & Hv2 & Hc2) ->.
  split_and!; [cbn; by rewrite !length_fmap | |].
  - exists d', v'. split_and!; [done.. |]. rewrite Hct, Hlast.
    change (@map ?A ?B) with (@fmap list _ A B). rewrite <- !list_fmap_compose.
    apply list_fmap_ext. intros i e He. apply diff_item_net; [done|]. apply nd_reading. by eapply Forall_lookup.
  - eexists _, n', v2. split_and!; [done | | done | done].
    rewrite list_lookup_insert_ne by done. apply list_lookup_insert_eq. by eapply lookup_lt_Some.
Qed.
End counters.

(** ** A machine with two interfaces *)

Definition demo_columns (l : list Z) : list (string * Z) := (fun z => (" ", z)) <$> l.
Definition demo_lo : net_dev :=
  mk_net_dev "    " "lo" (demo_columns [500; 5; 0; 0; 0; 0; 0; 0; 500; 5; 0; 0; 0; 0; 0; 0]).
Definition demo_eth : net_dev :=
  mk_net_dev "  " "eth0" (demo_columns [4096; 7; 1; 0; 0; 0; 0; 0; 1000; 9; 2; 0; 0; 3; 0; 0]).
Definition demo_title : string := demo_line "Inter-|   Receive".

#[local] Instance demo_net_system : System := {
  sys_file p := if String.eqb p "/proc/net/dev"
                then Some (net_dev_file demo_title demo_title [demo_lo; demo_eth]) else None;
  sys_open_errno _ := 2; sys_time := 1000; sys_page_size := 4096 }.

Definition demo_net_last : list sg_network_io_stats :=
  [mk_network_io_stats (CStr "eth0") 400 4294967000 2 3 0 1 0 990].

Definition demo_net_world : world :=
  mk_world {[1%positive := demo_vec Knetwork_io (INetIo <$> demo_net_last) 2]} 2 demo_env.

Lemma demo_net_ok : Forall nd_ok [demo_lo; demo_eth].
Proof.
  repeat constructor; try (vm_compute; congruence); try (cbn; lia);
    try (repeat constructor; (discriminate || (cbn; lia))).
Qed.

Lemma network_io_diff_since_last_witness :
  (net_transferred demo_net_last <$> (nd_stats <$> [demo_lo; demo_eth]))
    = [mk_network_io_stats (CStr "lo") 500 500 5 5 0 0 0 1000;
       mk_network_io_stats (CStr "eth0") 600 4392 5 6 1 1 3 10] /\
  wp sg_get_network_io_stats_diff (net_difference [demo_lo; demo_eth] demo_net_last)
    (mk_comp (Some [Some 1%positive; None; None]) demo_net_world).
Proof.
  split; [vm_compute; reflexivity|].
  assert (short_line 1024 demo_title) as Ht.
  { exists "Inter-|   Receive". split; [reflexivity|]. split; [reflexivity | cbn; lia]. }
  apply (network_io_diff_since_last demo_title demo_title [demo_lo; demo_eth] demo_net_last 1%positive None
           (demo_vec Knetwork_io (INetIo <$> demo_net_last) 2) _ demo_net_world).
  - reflexivity.
  - exact Ht.
  - exact Ht.
  - exact demo_net_ok.
  - cbn; lia.
  - apply (bool_decide_eq_true_1 _). vm_compute; reflexivity.
  - reflexivity.
  - reflexivity.
  - reflexivity.
  - apply demo_vec_wf; cbn; [lia | lia | by repeat constructor].
  - reflexivity.
  - cbn; lia.
  - cbn; lia.
  - reflexivity.
  - repeat constructor; cbn; lia.
  - repeat constructor.
  - apply (bool_decide_eq_true_1 _). vm_compute; reflexivity.
  - discriminate.
  - exact I.
  - intros l Hl. cbn in *. apply lookup_singleton_ne. lia.
  - apply not_elem_of_nil.
Defined.

(** * The lists of the other systems *)

Lemma length_omap_le {A B} (f : A -> option B) (l : list A) : (length (omap f l) <= length l)%nat.
Proof. induction l as [|x l IH]; [done|]. cbn. destruct (f x); cbn; lia. Qed.

Section lists.
Context {mem : Memory} {sys : System}.

Definition counters_item (c : if_counters) : item :=
  INetIo (mk_network_io_stats (CStr (ic_name c)) (ic_tx c) (ic_rx c) (ic_ipackets c) (ic_opackets c)
            (ic_ierrors c) (ic_oerrors c) (ic_collisions c) sys_time).

Lemma fill_if_counters_ok c :
  no_nul (ic_name c) = true -> fills_item Knetwork_io (fill_if_counters c) (counters_item c).
Proof.
  intros Hn. split; [done|]. intros it Q e Hit Hna HQ.
  destruct it as [| | | | | | | | |s| | | | |]; try done.
  apply wp_bind, wp_sg_update_string; [done | done | | intros Ha; by apply Hna in Ha].
  intros e' He'. cbn [fst snd]. rewrite decide_False by auto. by apply wp_ret, HQ.
Qed.

Definition properties_item (p : if_properties) : item :=
  INetIface (mk_network_iface_stats (CStr (ip_name p)) (ip_speed p) (ip_factor p) (ip_duplex p)
               (up_of (ip_up p)) sys_time).

Lemma fill_if_properties_ok p :
  no_nul (ip_name p) = true -> fills_item Knetwork_iface (fill_if_properties p) (properties_item p).
Proof.
  intros Hn. split; [done|]. intros it Q e Hit Hna HQ.
  destruct it as [| | | | | | | | | |s| | | |]; try done.
  apply wp_bind, wp_sg_update_string; [done | done | | intros Ha; by apply Hna in Ha].
  intros e' He'. cbn [fst snd]. rewrite decide_False by auto. by apply wp_ret, HQ.
Qed.

(** What a gathering function leaves that makes the vector for [count] items and
    fills the first of them with [filled]. *)
Definition filled_first (k : kind) (count : nat) (filled : list item) (r : sg_error * vptr)
    (w' : world) : Prop :=
  exists l' v' rest, r = (SG_ERROR_NONE, Some l') /\ w_vecs w' !! l' = Some v' /\ wf_vec v' /\
    contents v' = filled ++ rest /\ (length filled + length rest = count)%nat /\
    Forall (fun it => item_live k it = true) rest.

Lemma wp_sized_first {A} k (Hk : item_managed k = true) (fill : A -> item -> M env (sg_error * item)) f
    entries count bang l v w :
  (forall e, e ∈ entries -> fills_item k (fill e) (f e)) ->
  wf_heap w -> w_vecs w !! l = Some v -> wf_vec v -> info v = VECTOR_INIT_INFO k ->
  (length entries <= count)%nat -> 1 <= Z.of_nat count <= 2 ^ 31 -> (AFail ∉ e_allocs (w_env w)) ->
  wp (sized_fill k count bang fill entries (Some l)) (filled_first k count (f <$> entries)) w.
Proof.
  intros Hf Hh Hl Hwf Hi Hle Hc Hna. eapply (wp_sized_fill k Hk fill f); try done.
  intros l' v' w' rest Hw' Hi' Hc' Hlen Hlive Hr. exists l', v', rest. split_and!; try done.
  - destruct Hr as (_ & _ & E & _). rewrite E. apply lookup_insert_eq.
  - by rewrite length_fmap.
Qed.

(** On the BSDs the counters are those of the link-level addresses of
    [getifaddrs], in their order, and of nothing else. *)
Theorem network_io_bsd_links net l v w :
  Forall (fun e => no_nul (ic_name e.2) = true) net ->
  1 <= Z.of_nat (length (filter (fun e => e.1 = true) net)) <= 2 ^ 31 ->
  wf_heap w -> w_vecs w !! l = Some v -> wf_vec v -> info v = VECTOR_INIT_INFO Knetwork_io ->
  (AFail ∉ e_allocs (w_env w)) ->
  wp (network_io_bsd (inl net) (Some l)) (fun r w' =>
    exists l' v', r = (SG_ERROR_NONE, Some l') /\ w_vecs w' !! l' = Some v' /\ wf_vec v' /\
      contents v' = counters_item ∘ snd <$> filter (fun e => e.1 = true) net) w.
Proof.
  intros Hn Hlen Hh Hl Hwf Hi Hna. apply wp_bind, wp_in_env, wp_ret. destruct w as [vecs nx e].
  eapply wp_mono.
  - apply (wp_sized_first Knetwork_io eq_refl _ counters_item) with (v := v); try done.
    + intros c ([b c'] & -> & Hc)%list_elem_of_fmap. apply fill_if_counters_ok.
      apply list_elem_of_filter in Hc as [_ Hc].
      by apply (proj1 (Forall_forall _ _) Hn) in Hc.
    + by rewrite length_fmap.
  - intros r w' (l' & v' & rest & -> & Hl' & Hw' & Hc & Hr & _). exists l', v'. split_and!; try done.
    rewrite !length_fmap in Hr. assert (rest = []) as -> by (destruct rest; simpl in *; [done|lia]).
    by rewrite Hc, app_nil_r, <- list_fmap_compose.
Qed.

(** The properties of the interfaces on the BSDs: there is an item for every
    link-level address; the first ones are the interfaces whose flags the system
    knows, in order, each with its state, speed and duplex; as many items as there are
    other addresses follow that were never filled. *)
Theorem network_iface_bsd_items net sock l v w :
  let links := filter (fun i => bi_link i = true) net in
  Forall (fun i => no_nul (bi_name i) = true) net ->
  1 <= Z.of_nat (length links) <= 2 ^ 31 -> sock <> 0 ->
  wf_heap w -> w_vecs w !! l = Some v -> wf_vec v -> info v = VECTOR_INIT_INFO Knetwork_iface ->
  (AFail ∉ e_allocs (w_env w)) ->
  wp (network_iface_bsd (inl net) (inl sock) (Some l))
     (filled_first Knetwork_iface (length links) (properties_item <$> omap bsd_properties links)) w.
Proof.
  intros links Hn Hlen Hs Hh Hl Hwf Hi Hna. apply wp_bind, wp_in_env, wp_ret.
  apply wp_bind, wp_in_env, wp_ret. rewrite decide_False by congruence. destruct w as [vecs nx e].
  apply wp_sized_first with (v := v); try done; [|apply length_omap_le].
  intros p (i & Hi' & Hp)%list_elem_of_omap. apply fill_if_properties_ok.
  apply list_elem_of_filter in Hi' as [_ Hi']. apply (proj1 (Forall_forall _ _) Hn) in Hi'.
  unfold bsd_properties in Hp. destruct (bi_flags i); [|done].
  destruct (media_properties (bi_media i)) as [[? ?] ?]. by injection Hp as <-.
Qed.

(** The requests as the system stores them from offset [pos] to [lifr]: the name of the interface and what else stands
    before the address, and the address, which takes the room of a struct sockaddr or, when it is longer, its length. *)
Fixpoint stored_requests (sz : ifreq_sizes) (buf : Z -> ifreq) (pos lifr : Z) (reqs : list ifreq) : Prop :=
  match reqs with
  | [] => pos = lifr
  | r :: reqs' =>
      buf pos = r /\
      stored_requests sz buf (pos + (sizeof_ifreq sz - sizeof_sockaddr sz) + Z.max (sizeof_sockaddr sz) (ir_sa_len r)) lifr reqs'
  end.

Lemma stored_laid_out sz buf lifr reqs : forall pos,
  stored_requests sz buf pos lifr reqs -> laid_out (SIZEOF_ADDR_IFREQ_aix sz) buf lifr pos reqs.
Proof.
  induction reqs as [|r reqs IH]; intros pos; cbn [stored_requests]; [intros ->; constructor|].
  intros [<- H]. constructor. apply IH. unfold SIZEOF_ADDR_IFREQ_aix. destruct (Z.ltb_spec (sizeof_sockaddr sz) (ir_sa_len (buf pos))).
  - by replace (pos + (sizeof_ifreq sz - sizeof_sockaddr sz + ir_sa_len (buf pos)))
      with (pos + (sizeof_ifreq sz - sizeof_sockaddr sz) + Z.max (sizeof_sockaddr sz) (ir_sa_len (buf pos))) by lia.
  - by replace (pos + sizeof_ifreq sz)
      with (pos + (sizeof_ifreq sz - sizeof_sockaddr sz) + Z.max (sizeof_sockaddr sz) (ir_sa_len (buf pos))) by lia.
Qed.

(** The item of an interface whose flags are known. *)
Definition aix_item (i : ifreq) : option item :=
  match ir_flags i with
  | None => None
  | Some up => Some (INetIface (mk_network_iface_stats (CStr (ir_name i)) 0 0 SG_IFACE_DUPLEX_UNKNOWN
                                  (if up then SG_IFACE_UP else SG_IFACE_DOWN) sys_time))
  end.

Lemma aix_items (links : list ifreq) : properties_item <$> omap ifreq_properties links = omap aix_item links.
Proof.
  induction links as [|i links IH]; [done|]. cbn. unfold ifreq_properties at 1, aix_item at 1.
  destruct (ir_flags i); cbn; by rewrite <- IH.
Qed.

Lemma ir_links (reqs : list ifreq) : filter (fun i => ir_link i = true) reqs = filter (fun i => ir_family i = AF_LINK) reqs.
Proof. apply list_filter_iff. intros i. unfold ir_link. by destruct (ir_family i). Qed.

(** C39: On AIX, for a SIOCGIFCONF that stores its requests (len bytes, len plus a page below 2^30) in any
    buffer with more than a page of room beside them, and for a smaller buffer fails or leaves no page free, and
    requests that stand one behind the other, each with the room of its name part and of its address (the length
    of the address, at least sizeof(struct sockaddr)): the buffer is doubled until there is room, the walk finds
    every request and ends, and the call succeeds with as many items as there are requests with a link-level
    address (AF_LINK); the first ones are those whose flags the system knows, in order, each with its name, its
    state (up or down), speed and factor 0, duplex unknown and the time of the call. The other items are only
    known to be well formed: the code never fills them. Conditions: a vector of an earlier call, at least one
    link-level address and at most 2^31, names without zero bytes, the socket can be opened, no allocation
    fails. *)
Theorem network_iface_aix_items sz conf buf len reqs l v w :
  let links := filter (fun i => ir_family i = AF_LINK) reqs in
  1 <= sys_page_size -> 1 <= sizeof_ifreq sz -> ifconf_answers sys_page_size len conf ->
  (forall n, conf (n * sys_page_size) = Some len -> stored_requests sz (buf n) 0 len reqs) ->
  Forall (fun i => no_nul (ir_name i) = true) reqs -> 1 <= Z.of_nat (length links) <= 2 ^ 31 ->
  wf_heap w -> w_vecs w !! l = Some v -> wf_vec v -> info v = VECTOR_INIT_INFO Knetwork_iface ->
  (AFail ∉ e_allocs (w_env w)) ->
  wp (network_iface_aix sz (inl tt) conf buf (Some l)) (filled_first Knetwork_iface (length links) (omap aix_item links)) w.
Proof.
  cbv zeta. rewrite <- ir_links. set (links := filter _ reqs). rewrite <- aix_items.
  intros Hp Hs Hc Hb Hn Hlen Hh Hl Hwf Hi Hna. apply wp_bind, wp_in_env, wp_ret.
  apply wp_bind, wp_in_env, wp_alloc_request; [done|]. intros c e1 Hc1 He1.
  assert (forall (x y : M world (sg_error * vptr)), match c with AFail => x | _ => y end = y) as -> by (by destruct c).
  apply wp_bind, wp_in_env. eapply wp_ifconf_loop; [done|exact Hc|lia|..].
  { destruct Hc. lia. }
  { destruct Hc. lia. }
  { cbn. calm. }
  intros n e2 Hn2 He2. rewrite Hn2. cbn [default option_fmap]. apply wp_bind, wp_in_env.
  pose proof (stored_laid_out _ _ _ _ _ (Hb n Hn2)) as Hlaid.
  pose proof (laid_out_length _ _ _ _ _ (fun i => aix_size_pos sz i Hs) Hlaid) as Hr.
  eapply wp_ifreq_walk; [by intros i; apply aix_size_pos|exact Hlaid|cbn [default id] in *; lia|].
  destruct w as [vecs nx e]. apply wp_sized_first with (v := v); try done; [|apply length_omap_le|cbn in *; calm].
  intros p (i & Hi' & Hpi)%list_elem_of_omap. apply fill_if_properties_ok.
  apply list_elem_of_filter in Hi' as [_ Hi']. apply (proj1 (Forall_forall _ _) Hn) in Hi'.
  unfold ifreq_properties in Hpi. destruct (ir_flags i); [|done]. by injection Hpi as <-.
Qed.
End lists.

Definition demo_bsd_net : list bsd_if :=
  [mk_bsd_if true "em0" (Some true) (Some (mk_ifmedia true (IFM_ETHER IFM_1000_T) true false));
   mk_bsd_if false "em0" (Some true) None; mk_bsd_if true "gif0" None None].

Definition demo_iface_world : world :=
  mk_world {[1%positive := demo_vec Knetwork_iface [] 2]} 2 demo_env.

Lemma network_iface_bsd_items_witness :
  (properties_item <$> omap bsd_properties (filter (fun i => bi_link i = true) demo_bsd_net))
    = [INetIface (mk_network_iface_stats (CStr "em0") 1000 1000000 SG_IFACE_DUPLEX_FULL SG_IFACE_UP 1000)] /\
  wp (network_iface_bsd (inl demo_bsd_net) (inl 3) (Some 1%positive))
     (filled_first Knetwork_iface 2
        (properties_item <$> omap bsd_properties (filter (fun i => bi_link i = true) demo_bsd_net)))
     demo_iface_world.
Proof.
  split; [vm_compute; reflexivity|].
  apply (network_iface_bsd_items demo_bsd_net 3 1%positive (demo_vec Knetwork_iface [] 2)).
  - repeat constructor.
  - vm_compute. split; discriminate.
  - discriminate.
  - intros l Hl. cbn in *. apply lookup_singleton_ne. lia.
  - reflexivity.
  - apply demo_vec_wf; cbn; [lia | lia | by repeat constructor].
  - reflexivity.
  - apply not_elem_of_nil.
Defined.

(** An address of 32 bytes and 110 link-level addresses, which are longer than struct sockaddr: their requests have 40
    bytes. Two pages of 4096 bytes are too small for them. *)
Definition demo_requests (pos : Z) : ifreq :=
  if pos =? 0 then mk_ifreq AF_OTHER 16 "en0" (Some true)
  else let i := (pos - 32) / 40 in mk_ifreq AF_LINK 24 ("en" +:+ pretty i) (if i =? 7 then None else Some (i <? 100)).

Definition demo_sizes : ifreq_sizes := mk_ifreq_sizes 32 16 1025 28.
Definition demo_conf (m : Z) : option Z := if m <? 8400 then None else Some 4432.
Definition demo_reqs : list ifreq := demo_requests 0 :: ((fun i => demo_requests (32 + 40 * i)) <$> seqZ 0 110).

Lemma network_iface_aix_items_witness :
  let links := filter (fun i => ir_family i = AF_LINK) demo_reqs in
  demo_conf (2 * 4096) = None /\ length links = 110%nat /\ length (omap aix_item links) = 109%nat /\
  wp (network_iface_aix demo_sizes (inl tt) demo_conf (fun _ => demo_requests) (Some 1%positive))
     (filled_first Knetwork_iface (length links) (omap aix_item links)) demo_iface_world.
Proof.
  intros links. split; [done|]. split; [by vm_compute|]. split; [by vm_compute|].
  apply (network_iface_aix_items demo_sizes demo_conf (fun _ => demo_requests) 4432 demo_reqs 1%positive (demo_vec Knetwork_iface [] 2)).
  - by vm_compute.
  - by vm_compute.
  - split; [lia|by vm_compute| |]; unfold demo_conf.
    + intros m Hm. change sys_page_size with 4096 in Hm. destruct (Z.ltb_spec m 8400); [lia|done].
    + intros m x. destruct (Z.ltb_spec m 8400); [done|congruence].
  - intros n _. vm_compute. by repeat split.
  - by repeat constructor.
  - by vm_compute.
  - intros l Hl. cbn in *. apply lookup_singleton_ne. lia.
  - reflexivity.
  - apply demo_vec_wf; cbn; [lia | lia | by repeat constructor].
  - reflexivity.
  - apply not_elem_of_nil.
Defined.

Definition demo_row (name : string) : if_row := mk_if_row name 1 2 3 4 5 6 0 0 1000000000 true 1.

(** On Windows the vector is made for one item: the counters of the second adapter
    are written behind it. *)
Lemma win32_second_adapter_overruns :
  network_io_win32 100 None (Some [demo_row "card"; demo_row "other card"]) None (mk_world ∅ 1 demo_env)
    = Stuck out_of_bounds.
Proof. vm_compute. reflexivity. Qed.
