(* ===== verification/FsProps.v ===== *)
(** The theorems about the file systems of disk_stats.c: which mounts are reported
    and with what numbers, and which types are valid after the initialisation. *)

From S2P Require Import Prelude Types CLib Errors Tools Vector VectorSpec VectorDiff Items Comp Stdio ToolsExt Fill Disk Single NetworkSys DiskSys Demo DiskProps.

Local Open Scope sg_scope.

(** * Scanning a bit set *)

Lemma wp_BIT_SCAN_FWD vect b (Q : nat -> world -> Prop) w fuel : forall i,
  fits vect b -> BIT_ISSET vect b = true -> (i <= b)%nat ->
  (forall c, (i <= c < b)%nat -> BIT_ISSET vect c = false) -> (b - i < fuel)%nat ->
  Q b w -> wp (BIT_SCAN_FWD fuel vect i) Q w.
Proof.
  induction fuel as [|fuel IH]; intros i Hf Hb Hi Hc Hn HQ; [lia|]. cbn [BIT_SCAN_FWD].
  assert (i / 32 < length vect)%nat as Hlt.
  { unfold fits in Hf. assert (i / 32 <= b / 32)%nat by (apply Nat.Div0.div_le_mono; lia). lia. }
  destruct (Nat.leb_spec (length vect) (i / 32)); [lia|].
  destruct (decide (i = b)) as [->|Hne]; [by rewrite Hb; apply wp_ret|].
  rewrite Hc by lia. apply IH; try done; [lia | intros; apply Hc; lia | lia].
Qed.

(** The first entry a filter lets through. *)
Lemma omap_first {A B} (f : A -> option B) l x xs : forall i,
  omap f (drop i l) = x :: xs ->
  exists b m, (i <= b)%nat /\ l !! b = Some m /\ f m = Some x /\ omap f (drop (S b) l) = xs /\
    (forall c y, (i <= c < b)%nat -> l !! c = Some y -> f y = None).
Proof.
  induction l as [|y l IH]; intros i; [by rewrite drop_nil|].
  assert (forall j, omap f (drop j l) = x :: xs -> exists b m, (S j <= b)%nat /\ (y :: l) !! b = Some m /\
    f m = Some x /\ omap f (drop (S b) (y :: l)) = xs /\
    (forall c z, (S j <= c < b)%nat -> (y :: l) !! c = Some z -> f z = None)) as Hgo.
  { intros j Hj. destruct (IH j Hj) as (b & m & Hb & Hm & Hf & Hd & Hc).
    exists (S b), m. split_and!; [lia | done | done | done |].
    intros [|c] z Hz; [lia|]. apply Hc. lia. }
  destruct i as [|i]; [|apply Hgo].
  cbn [drop omap list_omap]. destruct (f y) as [x'|] eqn:E.
  - intros [= -> <-]. exists O, y. split_and!; [lia | done | done | by rewrite drop_0 | lia].
  - intros H. destruct (Hgo O) as (b & m & Hb & Hm & Hf & Hd & Hc); [by rewrite drop_0|].
    exists b, m. split_and!; [lia | done | done | done |].
    intros [|c] z Hz; [by intros [= ->] | apply Hc; lia].
Qed.

Section file_systems.
Context {mem : Memory} {sys : System} (ps : paths).

(** * What is reported for a mount *)

(** The device behind symbolic links. *)
Definition canonical (dev : string) : string :=
  if p_is_link ps dev then default dev (p_realpath ps dev) else dev.

(** The sizes of a mount in bytes, inodes and blocks, from the numbers of [statvfs]:
    blocks are counted in units of the fragment size. *)
Definition mount_stats (m : mntent) (b : statvfs_buf) : sg_fs_stats :=
  let bytes n := (f_frsize b * n) mod 2 ^ 64 in
  {| fs_device_name := CStr (mnt_fsname m); fs_device_canonical := CStr (canonical (mnt_fsname m));
     fs_fs_type := CStr (mnt_type m); fs_mnt_point := CStr (mnt_dir m); fs_device_type := 0;
     fs_size := bytes (f_blocks b);
     fs_used := bytes ((f_blocks b - f_bfree b) mod 2 ^ 64);
     fs_free := bytes (f_bfree b);
     fs_avail := bytes (f_bavail b);
     fs_total_inodes := f_files b;
     fs_used_inodes := (f_files b - f_ffree b) mod 2 ^ 64;
     fs_free_inodes := f_ffree b;
     fs_avail_inodes := f_favail b;
     fs_io_size := f_bsize b;
     fs_block_size := f_frsize b;
     fs_total_blocks := f_blocks b;
     fs_free_blocks := f_bfree b;
     fs_used_blocks := (f_blocks b - f_bfree b) mod 2 ^ 64;
     fs_avail_blocks := f_bavail b;
     fs_systime := sys_time |}.

(** The entry for a mount whose type is valid and whose size can be had. *)
Definition reported (fs_ok : string -> bool) (m : mntent) : option item :=
  if fs_ok (mnt_type m) then (fun b => IFs (mount_stats m b)) <$> p_statvfs ps (mnt_dir m) else None.

(** The entry the mount list has for a mount, whatever its numbers are. *)
Definition mounted (m : mntent) (it : item) : Prop :=
  exists d, it = IFs d /\ fs_device_name d = CStr (mnt_fsname m) /\
    fs_device_canonical d = CStr (canonical (mnt_fsname m)) /\ fs_fs_type d = CStr (mnt_type m) /\
    fs_mnt_point d = CStr (mnt_dir m) /\ fs_device_type d = 0.

Definition mount_text (m : mntent) : Prop :=
  no_nul (mnt_fsname m) = true /\ no_nul (mnt_type m) = true /\ no_nul (mnt_dir m) = true.

(** realpath: the result is no link and fits the buffer. *)
Definition realpath_canonical : Prop :=
  forall s t, p_realpath ps s = Some t ->
    p_is_link ps t = false /\ no_nul t = true /\ (String.length t <= 4096)%nat.

Context (Hreal : realpath_canonical).

Lemma wp_resolve s (Q : sg_error * char_ptr -> env -> Prop) e :
  no_nul s = true -> (AFail ∉ e_allocs e) ->
  (forall e', calmer e e' -> Q (SG_ERROR_NONE, CStr (canonical s)) e') ->
  wp (resolve ps 3 (CStr s)) Q e.
Proof.
  intros Hs Ha HQ. cbn [resolve]. unfold canonical in HQ. apply wp_bind, wp_ret.
  destruct (p_is_link ps s) eqn:El; cbn [negb]; [|by apply wp_ret, HQ].
  destruct (p_realpath ps s) as [t|] eqn:Er; [|by apply wp_ret, HQ].
  destruct (Hreal _ _ Er) as (Hl & Ht & Hlen).
  apply wp_bind, wp_sg_lupdate_string with t; [done | | lia | done |].
  { split; [done|]. exists []. by rewrite app_nil_r. }
  intros e' He. cbn [fst snd]. rewrite decide_False by auto. apply wp_bind, wp_ret.
  rewrite Hl. by apply wp_ret, HQ.
Qed.

Lemma canonical_text m : mount_text m -> no_nul (canonical (mnt_fsname m)) = true.
Proof.
  intros (Hn & _). unfold canonical. destruct (p_is_link ps _); [|done].
  destruct (p_realpath ps (mnt_fsname m)) as [t|] eqn:E; [|done]. by apply Hreal in E as (_ & ? & _).
Qed.

Lemma fill_mount_ok m :
  mount_text m -> fills_item_then Kfs (fun e => e_errno e = 0) (mounted m) (fill_mount ps m).
Proof.
  intros Hm it Q e Hit Ha HQ. pose proof (canonical_text m Hm) as Hcan. destruct Hm as (Hn & Ht & Hd).
  destruct it as [| | | | | | |d| | | | | | |]; try done. cbn [item_live] in Hit. split_andb.
  unfold fill_mount, fill_fs. cbn [as_fs].
  do 4 (apply wp_bind, wp_sg_update_string; [done | done | intros ? ? | calm];
        cbn [fst snd]; rewrite decide_False by auto; cbn [fs_set_names fs_device_name fs_device_canonical
          fs_fs_type fs_mnt_point]).
  apply wp_bind, wp_resolve; [done | calm |]. intros e5 He5. cbn [fst snd].
  rewrite decide_False by auto. apply wp_bind, wp_modify, wp_ret, HQ.
  - cbn. by rewrite Hn, Hcan, Ht, Hd.
  - by eexists.
  - unfold calmer in *. cbn. by auto 12.
  - done.
Qed.

(** * The selection *)

Context (vf : valid_fs) (fs_ok : string -> bool)
        (Hok : forall ty, is_valid_fs_type vf ty = mret (fs_ok ty)).
Context (ms : list mntent) (Hms : Forall mount_text ms).

Local Abbreviation sel := (reported fs_ok).

Lemma reported_live m x : mount_text m -> sel m = Some x -> item_live Kfs x = true.
Proof.
  intros Hm. unfold reported. destruct (fs_ok _); [|done].
  destruct (p_statvfs ps _); [|done]. intros [= <-]. pose proof (canonical_text m Hm) as Hc.
  destruct Hm as (Hn & Ht & Hd). cbn. by rewrite Hn, Hc, Ht, Hd.
Qed.

Lemma mounted_live m it : mount_text m -> mounted m it -> item_live Kfs it = true.
Proof.
  intros Hm (d & -> & E1 & E2 & E3 & E4 & _). pose proof (canonical_text m Hm) as Hc.
  destruct Hm as (Hn & Ht & Hd). cbn. by rewrite E1, E2, E3, E4; cbn; rewrite Hn, Hc, Ht, Hd.
Qed.

(** Entries [i] and above have been looked at. *)
Record selected (i : nat) (valid : list Z) (n : nat) (v : sg_vector) : Prop := {
  sel_wf : wf_vec v;
  sel_info : info v = VECTOR_INIT_INFO Kfs;
  sel_used : used_count v = Z.of_nat (length ms);
  sel_words : length valid = (length ms / 32 + 1)%nat;
  sel_bits : forall j, BIT_ISSET valid j = true <-> (i <= j)%nat /\ exists m x, ms !! j = Some m /\ sel m = Some x;
  sel_number : n = length (omap sel (drop i ms));
  sel_done : forall j m x, (i <= j)%nat -> ms !! j = Some m -> sel m = Some x -> data v !! j = Some x;
  sel_todo : forall j m, (j < i)%nat -> ms !! j = Some m -> exists it, data v !! j = Some it /\ mounted m it }.

Lemma sel_fits valid j : length valid = (length ms / 32 + 1)%nat -> (j < length ms)%nat -> fits valid j.
Proof.
  intros Hl Hj. unfold fits. rewrite Hl.
  assert (j / 32 <= length ms / 32)%nat by (apply Nat.Div0.div_le_mono; lia). lia.
Qed.

(** An entry that is not reported. *)
Lemma selected_skip i valid n v m :
  ms !! i = Some m -> sel m = None -> selected (S i) valid n v -> selected i valid n v.
Proof.
  intros Hm Hs [? ? ? ? Hb Hn Hd Ht]. split; try done.
  - intros j. rewrite Hb. split; [intros [? ?]; split; [lia | done]|].
    intros [Hj (m' & x & Hm' & Hx)]. split; [|by eauto].
    destruct (decide (i = j)) as [->|]; [congruence | lia].
  - rewrite Hn. rewrite (drop_S _ m i Hm). cbn. by rewrite Hs.
  - intros j m' x Hj Hm' Hx. apply (Hd j m'); [|done..]. destruct (decide (i = j)) as [->|]; [congruence | lia].
  - intros j m' Hj. apply Ht. lia.
Qed.

Lemma selected_take i valid n v m x :
  ms !! i = Some m -> sel m = Some x -> selected (S i) valid n v ->
  selected i (BIT_SET valid i) (S n) (set_data (<[i := x]> (data v)) v).
Proof.
  intros Hm Hs [Hw Hi Hu Hl Hb Hn Hd Ht].
  assert (i < length ms)%nat as Hlt by (by eapply lookup_lt_Some).
  pose proof (wf_used _ Hw) as Hb0. rewrite Hu in Hb0. split; try done.
  - eapply wf_write; [done | by rewrite Hi |]. eapply reported_live; [|done]. by eapply Forall_lookup_1.
  - by rewrite BIT_SET_length.
  - intros j. rewrite BIT_ISSET_SET by (by apply sel_fits). rewrite orb_true_iff, bool_decide_eq_true, Hb.
    split.
    + intros [<-|[? ?]]; [by eauto | split; [lia | done]].
    + intros [Hj ?]. destruct (decide (i = j)) as [->|]; [by left | right; split; [lia | done]].
  - rewrite Hn. rewrite (drop_S _ m i Hm). cbn. by rewrite Hs.
  - intros j m' x' Hj Hm' Hx'. cbn. destruct (decide (i = j)) as [->|].
    + rewrite list_lookup_insert_eq by lia. congruence.
    + rewrite list_lookup_insert_ne by done. apply (Hd j m'); [lia | done..].
  - intros j m' Hj Hm'. cbn. rewrite list_lookup_insert_ne by lia. apply Ht; [lia | done].
Qed.

Lemma fill_mounted m d b : mounted m (IFs d) -> fs_fill b d = mount_stats m b.
Proof.
  intros (d' & [= <-] & E1 & E2 & E3 & E4 & E5). unfold fs_fill. by rewrite E1, E2, E3, E4, E5.
Qed.

(** The size of a mount of a valid type. *)
Lemma wp_fill_stat m d (Q : sg_error * sg_fs_stats -> env -> Prop) e :
  mounted m (IFs d) -> fs_ok (mnt_type m) = true ->
  match sel m with
  | Some x => forall d', x = IFs d' -> Q (SG_ERROR_NONE, d') e
  | None => forall e', calmer e e' -> Q (SG_ERROR_DISKINFO, d) e'
  end -> wp (sg_fill_fs_stat_int ps d) Q e.
Proof.
  intros Hm Ho. pose proof (fun b => fill_mounted m d b Hm) as Hfill.
  destruct Hm as (d' & [= <-] & E1 & _ & E3 & E4 & _).
  unfold reported, sg_fill_fs_stat_int. rewrite Ho, E4. intros HQ. apply wp_bind, wp_ret.
  destruct (p_statvfs ps (mnt_dir m)) as [b|]; cbn in HQ.
  - apply wp_ret. rewrite Hfill. by apply HQ.
  - rewrite E1, E3. apply wp_bind, wp_ret, wp_bind, wp_ret, wp_bind.
    apply wp_bind, wp_bind, wp_bind, wp_gets. apply wp_ret, wp_ret, wp_ret. apply HQ.
    apply calmer_put_error. reflexivity.
Qed.

(** The loop that marks the mounts to report. *)
Lemma wp_select_loop t i : forall valid n v (Q : list Z * nat -> world -> Prop) w,
  (i <= length ms)%nat -> w_vecs w !! t = Some v -> selected i valid n v ->
  (forall valid' n' v' e, selected 0 valid' n' v' -> calmer (w_env w) e ->
     Q (valid', n') (with_env e (upd t v' w))) ->
  wp (select_loop ps vf t i valid n) Q w.
Proof.
  induction i as [|i IH]; intros valid n v Q w Hi Ht Hs HQ; cbn [select_loop].
  { apply wp_ret. specialize (HQ valid n v (w_env w) Hs ltac:(reflexivity)).
    destruct w. unfold upd, with_env, set_vecs in HQ. cbn in *. by rewrite insert_id in HQ. }
  destruct (lookup_lt_is_Some_2 ms i) as [m Hm]; [lia|].
  pose proof Hs as [Hw Hin Hu _ _ _ _ Htodo].
  destruct (Htodo i m) as (it & Hit & Hmo); [lia | done|].
  pose proof Hmo as (d & -> & E1 & E2 & E3 & E4 & E5).
  apply wp_bind. eapply wp_read_item; [done..|]. cbn [as_fs].
  rewrite E3. apply wp_bind, wp_in_env, wp_ret, wp_bind, wp_in_env. rewrite Hok. apply wp_ret.
  destruct (fs_ok (mnt_type m)) eqn:Eo; cbn [negb].
  2: { apply (IH _ _ v); [lia | done | | done]. apply (selected_skip i _ _ _ m); [done | | done].
       unfold reported. by rewrite Eo. }
  apply wp_bind, wp_in_env, (wp_fill_stat m); [done | done |].
  pose proof (wf_used _ Hw) as Hb. destruct (sel m) as [x|] eqn:Ex.
  - intros d' ->. cbn [fst snd]. apply wp_bind. eapply wp_write_item; [done | lia |].
    rewrite decide_False by auto. eapply IH; [lia | apply lookup_upd | by eapply selected_take |].
    intros valid' n' v' e Hs' He. specialize (HQ valid' n' v' e Hs' He). destruct w. cbn in *.
    unfold upd, set_vecs, with_env in *. cbn in *. by rewrite insert_insert_eq.
  - intros e' He'. cbn [fst snd]. apply wp_bind. eapply wp_write_item; [done | lia |].
    rewrite decide_True by done. rewrite (list_insert_id (data v)) by done.
    replace (set_data (data v) v) with v by (by destruct v).
    eapply (IH _ _ v); [lia | apply lookup_upd | by eapply selected_skip |].
    intros valid' n' v' e Hs' He. specialize (HQ valid' n' v' e Hs' ltac:(by trans e')). destruct w. cbn in *.
    unfold upd, set_vecs, with_env in *. cbn in *. by rewrite insert_insert_eq.
Qed.

(** The loop that copies the marked entries. *)
Lemma wp_report_loop t l valid total tv xs : forall i j v (Q : nat -> world -> Prop) w,
  t <> l -> selected 0 valid total tv -> w_vecs w !! t = Some tv -> w_vecs w !! l = Some v ->
  wf_vec v -> info v = VECTOR_INIT_INFO Kfs -> used_count v = Z.of_nat (j + length xs) ->
  (AFail ∉ e_allocs (w_env w)) -> omap sel (drop i ms) = xs ->
  (forall v' e, wf_vec v' -> info v' = VECTOR_INIT_INFO Kfs -> contents v' = take j (contents v) ++ xs ->
     calmer (w_env w) e -> Q (j + length xs)%nat (with_env e (upd l v' w))) ->
  wp (report_loop t l (length ms) valid i j (length xs)) Q w.
Proof.
  induction xs as [|x xs IH]; intros i j v Q w Hne Hs Ht Hl Hv Hi Hu Ha Hx HQ; cbn [report_loop length].
  { apply wp_ret. specialize (HQ v (w_env w) Hv Hi). cbn [length] in *. rewrite Nat.add_0_r in *.
    destruct w. unfold upd, with_env, set_vecs in HQ. cbn in HQ. rewrite insert_id in HQ by done.
    apply HQ; [|reflexivity]. rewrite app_nil_r, take_ge; [done|].
    pose proof (length_contents v Hv). lia. }
  destruct (omap_first sel ms x xs i Hx) as (b & m & Hib & Hm & Hsel & Hrest & Hno).
  assert (b < length ms)%nat as Hlt by (by eapply lookup_lt_Some).
  pose proof Hs as [Hw Hin Htu Hlen Hbits _ Hdone _].
  assert (BIT_ISSET valid b = true) as Hset by (apply Hbits; split; [lia | by eauto]).
  apply wp_bind, (wp_BIT_SCAN_FWD valid b); [by apply sel_fits | done | done | | |].
  { intros c Hc. destruct (BIT_ISSET valid c) eqn:Eb; [|done].
    apply Hbits in Eb as (_ & m' & x' & Hm' & Hx'). by rewrite (Hno c m') in Hx'. }
  { rewrite Hlen. pose proof (Nat.div_mod_eq (length ms) 32).
    pose proof (Nat.mod_upper_bound (length ms) 32). lia. }
  destruct (Nat.leb_spec (length ms) b); [lia|].
  pose proof (wf_used _ Hv) as Hb. rewrite Hu in Hb. cbn [length] in Hb.
  apply wp_bind. eapply wp_read_item; [exact Ht | eapply (Hdone b m); [lia | done..] |].
  destruct (lookup_lt_is_Some_2 (data v) j) as [d Hd]; [lia|].
  apply wp_bind. eapply wp_read_item; [exact Hl | exact Hd |].
  assert (item_live Kfs x = true) as Hxl by (eapply reported_live; [by eapply Forall_lookup_1 | done]).
  assert (item_live Kfs d = true) as Hdl.
  { change (item_ok Kfs d = true). eapply (wf_slot_ok v Kfs j d); [done | by rewrite Hi | rewrite Hu; cbn [length]; lia | done]. }
  destruct x as [| | | | | | |xs0| | | | | | |]; try done. destruct d as [| | | | | | |ds0| | | | | | |]; try done.
  apply wp_bind, wp_in_env, wp_fs_copy; [done | done | | done]. intros e He. cbn [as_fs fst snd].
  apply wp_bind. eapply wp_write_item; [exact Hl | lia |].
  eapply (IH (S b) (S j) (set_data (<[j := IFs xs0]> (data v)) v)); try done.
  - cbn. by rewrite lookup_insert_ne.
  - cbn. apply lookup_insert_eq.
  - eapply wf_write; [done | by rewrite Hi | done].
  - cbn [used_count set_data]. rewrite Hu. cbn [length]. lia.
  - cbn. calm.
  - intros v' e' Hv' Hi' Hc' He'. specialize (HQ v' e' Hv' Hi'). cbn in He'.
    cbn [length] in *. replace (S j + length xs)%nat with (j + S (length xs))%nat by lia.
    destruct w. unfold upd, set_vecs, with_env in *. cbn in *. rewrite insert_insert_eq.
    apply HQ; [|by trans e]. rewrite Hc'. unfold contents. cbn [used_count data set_data].
    rewrite !take_take, !Nat.min_l by lia. rewrite (take_S_r _ j (IFs xs0)) by (apply list_lookup_insert_eq; lia).
    rewrite take_insert_ge by lia. by rewrite <- app_assoc.
Qed.

(** The mount list. *)
Lemma wp_fs_list (Q : sg_error * vptr -> world -> Prop) w :
  ms <> [] -> Z.of_nat (length ms) <= 2 ^ 31 -> wf_heap w -> (AFail ∉ e_allocs (w_env w)) ->
  (forall t v w', created t v w w' -> selected (length ms) (replicate (length ms / 32 + 1) 0) 0 v ->
     Q (SG_ERROR_NONE, Some t) w') ->
  wp (sg_get_fs_list_int ps (Some ms) None) Q w.
Proof.
  intros Hne Hlen Hh Ha HQ. apply wp_bind, wp_in_env, wp_modify, wp_bind.
  eapply (wp_append_new Kfs eq_refl (fun e => e_errno e = 0) mounted); [done | | done | done | done |].
  { intros m Hm. apply fill_mount_ok. by eapply Forall_forall. }
  intros t v w' xs Hv Hi HF Hc Hcr He. cbn [fst snd]. rewrite decide_False by auto.
  apply wp_bind, wp_in_env, wp_gets. rewrite He. cbn [negb Z.eqb]. apply wp_ret.
  pose proof (length_contents v Hv) as Hlc. rewrite Hc in Hlc.
  pose proof (Forall2_length _ _ _ HF) as Hl2.
  apply (HQ t v).
  - destruct w'. exact Hcr.
  - split; try done.
    + lia.
    + by rewrite length_replicate.
    + intros j. rewrite BIT_ISSET_zero. split; [done|]. intros (Hj & m & x & Hm & _).
      apply lookup_lt_Some in Hm. lia.
    + by rewrite drop_all.
    + intros j m x Hj Hm. apply lookup_lt_Some in Hm. lia.
    + intros j m Hj Hm. destruct (Forall2_lookup_l _ _ _ _ _ HF Hm) as (it & Hit & Hmo).
      exists it. split; [|done]. rewrite <- Hc in Hit. unfold contents in Hit. by apply lookup_take_Some in Hit as [? _].
Qed.

(** The heap when the mount list has been freed again. *)
Lemma replaced_freed t tv l l' v w w1 e1 w3 :
  created t tv w w1 -> wf_heap w -> is_Some (w_vecs w !! l) -> calmer (w_env w1) e1 ->
  forall tv', replaced l l' v (with_env e1 (upd t tv' w1)) w3 ->
  replaced l l' v w (set_vecs (delete t (w_vecs w3)) w3) /\ t <> l' /\ w_vecs w3 !! t = Some tv'.
Proof.
  intros (Hlt & Hc1 & E1 & Hh1 & Hn1) Hh [y Hy] He tv' (Hl' & Hc3 & E3 & Hh3 & Hn3). cbn in *.
  assert (w_vecs w !! t = None) as Hnt by (by apply Hh).
  assert (t <> l) as Htl by (intros ->; congruence).
  assert (t <> l') as Htl'.
  { intros <-. destruct Hl' as [->|Hl']; [done|].
    specialize (Hh1 t Hl'). by rewrite E1, lookup_insert_eq in Hh1. }
  assert (w_vecs w3 !! t = Some tv') as Ht3.
  { rewrite E3, lookup_insert_ne, lookup_delete_ne by done. apply lookup_insert_eq. }
  split_and!; [|done|done]. split_and!; cbn.
  - destruct Hl' as [->|Hl']; [by left | right; lia].
  - transitivity (w_env w1); [done|]. by transitivity e1.
  - rewrite E3, E1, insert_insert_eq.
    rewrite (delete_insert_ne _ t l') by done. f_equal.
    rewrite (delete_insert_ne _ l t) by done. rewrite delete_insert_id; [done|].
    by rewrite lookup_delete_ne.
  - intros x Hx. cbn in *. rewrite lookup_delete_None. right. by apply Hh3.
  - lia.
Qed.

Lemma fs_stats_fills :
  omap sel ms <> [] -> Z.of_nat (length ms) <= 2 ^ 31 ->
  fills Kfs (sg_get_fs_stats_int ps vf (Some ms)) (omap sel ms).
Proof.
  intros Hne Hlen l v Q w Hh Hl Hwf Hu Hi Hna HQ.
  assert (length (omap sel ms) <= length ms)%nat as Hle.
  { clear. induction ms as [|m l IH]; [done|]. cbn. destruct (sel m); cbn; lia. }
  apply wp_bind, wp_fs_list; [by intros -> | done..|]. intros t tv w1 Hcr Hs.
  pose proof Hcr as (_ & Hc1 & E1 & Hh1 & _).
  assert (w_vecs w1 !! t = Some tv) as Ht by (rewrite E1; apply lookup_insert_eq).
  apply wp_bind, wp_bind. eapply wp_read_vec; [exact Ht|]. apply wp_ret.
  rewrite (sel_used _ _ _ _ Hs), Nat2Z.id. apply wp_bind. rewrite decide_True by done.
  eapply (wp_select_loop t (length ms)); [done | exact Ht | exact Hs |].
  intros valid n tv' e1 Hs' He1.
  pose proof (sel_number _ _ _ _ Hs') as ->. rewrite drop_0. set (xs := omap sel ms) in *.
  assert (0 < length xs)%nat by (destruct xs; [done | cbn; lia]).
  set (w2 := with_env e1 (upd t tv' w1)).
  assert (w_vecs w2 !! l = Some v) as Hl2.
  { cbn. rewrite E1, insert_insert_eq, lookup_insert_ne; [done|]. intros ->.
    destruct Hcr as (Hlt & _). rewrite (Hh l Hlt) in Hl. done. }
  assert (wf_heap w2) as Hh2.
  { intros x Hx. cbn in *. rewrite lookup_insert_ne; [by apply Hh1|]. intros <-. by rewrite (Hh1 t Hx) in Ht. }
  apply wp_bind. eapply (wp_update_vector Kfs); [done | by apply replaced_refl | done | done | lia | by cbn; calm |].
  intros l' v3 w3 [Hw3 Hu3 Hi3 _ _ _] Hc3 Hr.
  destruct (replaced_freed t tv l l' v3 w w1 e1 w3 Hcr Hh ltac:(eauto) He1 tv' Hr) as (_ & Htl & Ht3).
  assert (w_vecs w3 !! l' = Some v3) as Hl3 by (by eapply replaced_lookup).
  apply wp_bind.
  eapply (wp_report_loop t l' valid (length (omap sel (drop 0 ms))) tv' xs 0 0 v3);
    [done | done | done | done | done | congruence | done | | by rewrite drop_0 |].
  { cbn in Hc3. calm. }
  intros v4 e4 Hv4 Hi4 Hc4 He4. cbn [Nat.add].
  apply wp_bind, wp_assert; [by rewrite bool_decide_true|].
  assert (replaced l l' v4 w2 (with_env e4 (upd l' v4 w3))) as Hr4
    by (by apply replaced_env; [apply replaced_write with v3 | ]).
  destruct (replaced_freed t tv l l' v4 w w1 e1 _ Hcr Hh ltac:(eauto) He1 tv' Hr4) as (Hfin & _ & Ht4).
  apply wp_bind. eapply (wp_vector_free t tv'); [exact Ht4 | apply Hs' |]. apply wp_ret.
  by apply (HQ l' v4).
Qed.
End file_systems.

(** * The list of valid types *)

(** The list holds these names: sorted, with the unused entries at the end. *)
Definition vf_holds (vf : valid_fs) (names : list string) : Prop :=
  exists l, vf_list vf = Some l /\ vf_num vf = length l /\ Sorted fs_le l /\
    forall n, CStr n ∈ l <-> n ∈ names.

Definition type_in (names : list string) (ty : string) : bool :=
  bool_decide (Exists (fun n => strcasecmp ty n = 0) names).

Lemma fs_key_sorted type l :
  Sorted fs_le l -> key_mono (fun p => cmp_valid_fs (Some type) (name_of p)) l.
Proof.
  intros Hs. apply (key_mono_sorted fs_le); [done|].
  intros x y. unfold fs_le, cmp_fs_ptr, cmp_valid_fs.
  destruct (name_of x), (name_of y); try lia. unfold strcasecmp. intros Hle.
  pose proof (strcmp_mono (map_string tolower type) _ _ Hle). lia.
Qed.

Lemma is_valid_holds vf names ty :
  vf_holds vf names -> is_valid_fs_type vf ty = mret (type_in names ty).
Proof.
  intros (l & El & En & Hs & Hl). unfold is_valid_fs_type. rewrite El. f_equal.
  apply bool_decide_ext. rewrite En, firstn_all, Exists_exists.
  pose proof (bsearch_spec _ _ (fs_key_sorted ty l Hs)) as Hb. destruct (bsearch _ _) as [i|].
  - split; [|by eauto]. intros _. destruct Hb as (x & Hx & Hz).
    apply list_elem_of_lookup_2 in Hx. destruct x as [|n| |]; try done.
    exists n. split; [by apply Hl | done].
  - split; [by intros []|]. intros (n & Hn & Hz). by destruct (Hb (CStr n)); [apply Hl|].
Qed.

(** Behind the first gap of a sorted list there are only gaps. *)
Lemma gap_is_last l :
  StronglySorted fs_le l -> Forall (fun p => p = CNull \/ exists n, p = CStr n) l ->
  Forall (fun p => exists n, p = CStr n) (take (first_gap l) l) /\
  Forall (eq CNull) (drop (first_gap l) l).
Proof.
  intros HS HF. induction HS as [|p l HS IH Hall]; [by split|].
  apply Forall_cons_1 in HF as [[->|[n ->]] HF]; cbn [first_gap take drop].
  - split; [constructor|]. constructor; [done|]. apply Forall_forall. intros q Hq.
    rewrite Forall_forall in Hall, HF. specialize (Hall q Hq). destruct (HF q Hq) as [->|[m ->]]; [done|].
    unfold fs_le, cmp_fs_ptr in Hall. cbn in Hall. lia.
  - destruct (IH HF) as [? ?]. split; [constructor; [by eexists | done] | done].
Qed.

Lemma names_kept l : Forall (fun p => exists n, p = CStr n) l -> filter (fun p => p <> CNull) l = l.
Proof.
  intros HF. induction HF as [|p l [n ->] HF IH]; [done|].
  rewrite filter_cons_True by done. by rewrite IH.
Qed.

Lemma gaps_dropped l : Forall (eq CNull) l -> filter (fun p => p <> CNull) l = [].
Proof.
  intros HF. induction HF as [|p l <- HF IH]; [done|].
  rewrite filter_cons_False by auto. done.
Qed.

(** What sorting and cutting off the gaps leaves. *)
Lemma sorted_cut (l : list char_ptr) :
  Forall (fun p => p = CNull \/ exists n, p = CStr n) l ->
  let s := qsort cmp_fs_ptr l in
  Sorted fs_le s /\ Sorted fs_le (take (first_gap s) s) /\ (first_gap s <= length l)%nat /\
  (forall n, CStr n ∈ take (first_gap s) s <-> CStr n ∈ l) /\
  first_gap s = length (filter (fun p => p <> CNull) l).
Proof.
  intros HF s. assert (Sorted fs_le s) as Hs by (apply qsort_sorted, cmp_fs_total).
  assert (s ≡ₚ l) as Hp by apply qsort_perm.
  assert (Forall (fun p => p = CNull \/ exists n, p = CStr n) s) as HFs by (by rewrite Hp).
  pose proof Hs as HSS%Sorted_StronglySorted; [|apply _].
  destruct (gap_is_last s HSS HFs) as [Ht Hd].
  assert (length s = length l) as Hlen by (by rewrite Hp).
  assert (forall x : list char_ptr, (first_gap x <= length x)%nat) as Hle.
  { induction x as [|[| | |] x IH]; cbn; lia. }
  specialize (Hle s). split_and!; [done | | lia | |].
  - apply StronglySorted_Sorted. rewrite <- (take_drop (first_gap s) s) in HSS.
    by apply StronglySorted_app_1_l in HSS.
  - intros n. rewrite <- Hp. split; [by intros (i & Hi & _)%elem_of_take; eapply list_elem_of_lookup_2|].
    rewrite <- (take_drop (first_gap s) s) at 1. rewrite elem_of_app. intros [?|Hin]; [done|].
    rewrite Forall_forall in Hd. by specialize (Hd _ Hin).
  - rewrite <- Hp. rewrite <- (take_drop (first_gap s) s) at 2. rewrite filter_app, length_app.
    rewrite (names_kept _ Ht), (gaps_dropped _ Hd), length_take. cbn. lia.
Qed.

Lemma take_while_all p s : all_chars p (take_while p None s).1 = true.
Proof.
  induction s as [|c s IH]; [done|]. cbn. destruct (p c) eqn:E; [|done].
  change (match None with Some x => Some (Nat.pred x) | None => None end) with (@None nat).
  destruct (take_while p None s) as [t r]. cbn in *. by rewrite E, IH.
Qed.

Lemma fs_line_name_text line n : fs_line_name line = Some n -> no_nul n = true.
Proof.
  unfold fs_line_name. destruct (take_while isblank None _) as [[|b bs] r2]; [done|].
  pose proof (take_while_all isalnum r2) as Ha. destruct (take_while isalnum None r2) as [[|c name] r3]; [done|].
  intros [= <-]. apply no_nul_chars. revert Ha. apply all_chars_impl. intros x Hx.
  apply bool_decide_eq_true. by intros ->.
Qed.

Section types.
Context {mem : Memory} {sys : System}.

Lemma wp_proc_fs_loop ls : forall names num (Q : sg_error * list char_ptr * nat -> env -> Prop) e,
  (length names <= num)%nat -> (AFail ∉ e_allocs e) ->
  (forall num' e', (length names + length (omap fs_line_name ls) <= num')%nat -> calmer e e' ->
     Q (SG_ERROR_NONE, names ++ (CStr <$> omap fs_line_name ls), num') e') ->
  wp (proc_fs_loop ls names num) Q e.
Proof.
  induction ls as [|line ls IH]; intros names num Q e Hn Ha HQ; cbn [proc_fs_loop omap list_omap] in *.
  { apply wp_ret. specialize (HQ num e). cbn in HQ. rewrite app_nil_r in HQ. apply HQ; [lia | reflexivity]. }
  destruct (fs_line_name line) as [n|] eqn:E; [|by apply IH].
  pose proof (fs_line_name_text _ _ E) as Ht.
  assert (forall num1 e1, (S (length names) <= num1)%nat -> calmer e e1 ->
    wp (r ← sg_update_string junk CNull (Some n);
        if decide (r.1 <> SG_ERROR_NONE) then mret (r.1, names, num1)
        else proc_fs_loop ls (names ++ [r.2]) num1) Q e1) as Hgo.
  { intros num1 e1 Hn1 He1. apply wp_bind, wp_sg_update_string; [done | done | | calm].
    intros e2 He2. cbn [fst snd]. rewrite decide_False by auto.
    apply IH; [rewrite length_app; cbn; lia | calm |].
    intros num' e' Hn' He'. cbn [fmap list_fmap length] in *. rewrite length_app in Hn'. cbn in Hn'.
    rewrite <- app_assoc. apply HQ; [lia|]. trans e2; [|done]. by trans e1. }
  apply wp_bind. destruct (Nat.leb_spec num (length names)).
  - apply wp_alloc_request; [calm|]. intros c e1 Hc He1. destruct c; [done | |]; apply Hgo; done || lia.
  - apply wp_ret, Hgo; [lia | reflexivity].
Qed.

(** Every entry is a name or a gap. *)
Lemma names_and_gaps (ns : list string) k :
  Forall (fun p => p = CNull \/ exists n, p = CStr n) ((CStr <$> ns) ++ replicate k CNull).
Proof.
  apply Forall_app. split; [apply Forall_fmap, Forall_true; cbn; eauto | apply Forall_replicate; auto].
Qed.

Lemma sorted_names ns k :
  let s := qsort cmp_fs_ptr ((CStr <$> ns) ++ replicate k CNull) in
  first_gap s = length ns /\
  (forall vf, vf_list vf = Some (take (first_gap s) s) -> vf_num vf = length ns -> vf_holds vf ns) /\
  (forall vf, vf_list vf = Some s -> vf_num vf = (length ns + k)%nat -> vf_holds vf ns).
Proof.
  intros s. destruct (sorted_cut _ (names_and_gaps ns k)) as (Hs & Hc & Hle & Hin & Hg). fold s in Hs, Hc, Hle, Hin, Hg.
  assert (first_gap s = length ns) as Hlen.
  { rewrite Hg, filter_app, length_app, names_kept, gaps_dropped, length_fmap; [cbn; lia | |].
    - apply Forall_replicate. done.
    - apply Forall_fmap, Forall_true. cbn. eauto. }
  assert (length s = (length ns + k)%nat) as Hls.
  { unfold s. by rewrite qsort_perm, length_app, length_fmap, length_replicate. }
  assert (forall n, CStr n ∈ (CStr <$> ns) ++ replicate k CNull <-> n ∈ ns) as Hmem.
  { intros n. rewrite elem_of_app, list_elem_of_fmap, elem_of_replicate. split.
    - intros [(y & [= ->] & ?)|[[=] _]]. done.
    - intros Hn. left. by exists n. }
  split_and!; [done | |].
  - intros vf Hl Hn. exists (take (first_gap s) s). split_and!; [done | | done | by intros n; rewrite Hin].
    rewrite length_take. lia.
  - intros vf Hl Hn. exists s. split_and!; [done | lia | done |]. intros n. unfold s. by rewrite qsort_perm.
Qed.

(** The names of /proc/filesystems. *)
Definition proc_fs_names (c : string) : list string := omap fs_line_name (file_lines 4096 c).

Lemma wp_init_valid c vf (Q : sg_error * valid_fs -> env -> Prop) e :
  sys_file "/proc/filesystems" = Some c -> (AFail ∉ e_allocs e) ->
  (forall vf' e', vf_holds vf' (proc_fs_names c) -> calmer e e' -> Q (SG_ERROR_NONE, vf') e') ->
  wp (init_valid_fs_types vf) Q e.
Proof.
  intros Hc Ha HQ. apply wp_bind. unfold fopen. rewrite Hc. apply wp_ret.
  apply wp_bind, wp_alloc_request; [calm|]. intros ch e1 Hch He1.
  assert (wp (r ← proc_fs_loop (file_lines 4096 c) [] 15;
      let '(rc, names, num) := (r : sg_error * list char_ptr * nat) in
      if decide (rc <> SG_ERROR_NONE) then mret (rc, mk_valid_fs None 0)
      else
        let i := length names in
        let sorted := qsort cmp_fs_ptr (names ++ replicate (num - i) CNull) in
        if (i <? num)%nat then
          _ ← alloc_request;
          mret (SG_ERROR_NONE, mk_valid_fs (Some (take i sorted)) i)
        else mret (SG_ERROR_NONE, mk_valid_fs (Some sorted) num)) Q e1) as Hgo; [|by destruct ch].
  apply wp_bind, wp_proc_fs_loop; [cbn; lia | calm |]. intros num e2 Hnum He2. cbn [app].
  rewrite decide_False by auto. cbv zeta. fold (proc_fs_names c) in *. cbn in Hnum. rewrite length_fmap.
  destruct (sorted_names (proc_fs_names c) (num - length (proc_fs_names c))) as (Hg & Hcut & Hall).
  destruct (Nat.ltb_spec (length (proc_fs_names c)) num).
  - apply wp_bind, wp_alloc_request; [calm|]. intros ch2 e3 _ He3. apply wp_ret, HQ.
    + apply Hcut; cbn; by rewrite ?Hg.
    + trans e2; [|done]. by trans e1.
  - apply wp_ret, HQ; [|by trans e1]. apply Hall; cbn; [done | lia].
Qed.

(** A line of /proc/filesystems: "nodev" or nothing, a tab and the name of a type, which
    begins with letters and digits, [fl_word], and may go on with something else,
    [fl_tail]. *)
Record fs_line := mk_fs_line { fl_nodev : bool; fl_word : string; fl_tail : string }.

Definition fl_name (l : fs_line) : string := fl_word l +:+ fl_tail l.

Definition fl_text (l : fs_line) : string :=
  (if fl_nodev l then "nodev" else EmptyString) +:+ (String "009"%char EmptyString +:+ (fl_word l +:+ fl_tail l)).

Record fl_ok (l : fs_line) : Prop := {
  flo_word : all_chars isalnum (fl_word l) = true;
  flo_some : fl_word l <> EmptyString;
  flo_tail : match fl_tail l with EmptyString => True | String c _ => isalnum c = false end;
  flo_line : all_chars not_newline (fl_tail l) = true;
  flo_len : (String.length (fl_text l) < 4095)%nat }.

Definition fs_file (ls : list fs_line) : string := concat_lines ((fun l => fl_text l +:+ new_line) <$> ls).

(** The expression finds the beginning of the name. *)
Lemma fs_line_name_of l : fl_ok l -> fs_line_name (fl_text l +:+ new_line) = Some (fl_word l).
Proof.
  intros [Hw Hs Ht _ _]. unfold fs_line_name, fl_text. rewrite !string_app_assoc.
  rewrite (take_while_app isalnum (if fl_nodev l then "nodev" else EmptyString)) by (by destruct (fl_nodev l)).
  cbn [snd]. rewrite (take_while_app isblank (String "009"%char EmptyString)); [|done|].
  2: { destruct (fl_word l) as [|c t]; [done|]. cbn in *. apply andb_true_iff in Hw as [Hc _].
       apply not_true_iff_false. intros Hb. unfold isblank in Hb. apply orb_true_iff in Hb.
       unfold isalnum, isalpha, isdigit in Hc. lia. }
  rewrite take_while_app; [|done|].
  - by destruct (fl_word l).
  - by destruct (fl_tail l).
Qed.

Lemma fl_short l : fl_ok l -> short_line 4096 (fl_text l +:+ new_line).
Proof.
  intros [Hw _ _ Ht Hl]. exists (fl_text l). split_and!; [done | | lia]. unfold fl_text.
  rewrite !all_chars_app, Ht, andb_true_r, !andb_true_iff. split_and!; [by destruct (fl_nodev l) | done |].
  revert Hw. apply all_chars_impl. intros c Hc. apply bool_decide_eq_true. intros ->. by vm_compute in Hc.
Qed.

Lemma proc_fs_names_of ls : Forall fl_ok ls -> proc_fs_names (fs_file ls) = fl_word <$> ls.
Proof.
  intros HF. unfold proc_fs_names, fs_file. rewrite file_lines_short.
  2: { apply Forall_fmap. eapply Forall_impl; [done|]. apply fl_short. }
  induction HF as [|l ls Hl _ IH]; [done|]. rewrite !fmap_cons. cbn [omap list_omap].
  rewrite fs_line_name_of by done. by f_equal.
Qed.

(** C20: After the initialisation of the component with the lines [ls] of /proc/filesystems a
    type is valid exactly when it equals, without regard to case, the beginning of letters
    and digits of a listed name, however many types there are: the entries are collected
    into an array that grows, sorted with the unused entries at its end, cut, and found by
    binary search. So a name of letters and digits is valid, but of a name like rpc_pipefs
    only rpc ([fs_type_cut]). Memory must last. *)
Theorem fs_types_of_proc ls ty vf e :
  sys_file "/proc/filesystems" = Some (fs_file ls) -> Forall fl_ok ls -> (AFail ∉ e_allocs e) ->
  wp (r ← init_valid_fs_types vf; ok ← is_valid_fs_type r.2 ty; mret (r.1, ok))
     (fun r _ => r.1 = SG_ERROR_NONE /\
        (r.2 = true <-> Exists (fun l => strcasecmp ty (fl_word l) = 0) ls)) e.
Proof.
  intros Hc HF Ha. apply wp_bind. eapply wp_init_valid; [done..|]. intros vf' e' Hvf _. cbn [fst snd].
  rewrite (is_valid_holds _ _ ty Hvf). apply wp_bind, wp_ret, wp_ret. split; [done|]. cbn.
  rewrite proc_fs_names_of by done. unfold type_in. rewrite bool_decide_eq_true. by rewrite Exists_fmap.
Qed.

(** A listed name with another character is not valid unless its beginning is another
    listed name. *)
Lemma fs_type_cut l vf e :
  sys_file "/proc/filesystems" = Some (fs_file [l]) -> fl_ok l -> (AFail ∉ e_allocs e) ->
  strcasecmp (fl_name l) (fl_word l) <> 0 ->
  wp (r ← init_valid_fs_types vf; ok ← is_valid_fs_type r.2 (fl_name l); mret ok) (fun ok _ => ok = false) e.
Proof.
  intros Hc Hl Ha Hne. assert (Forall fl_ok [l]) as HF by (by apply Forall_singleton).
  apply wp_bind. eapply wp_init_valid; [done..|]. intros vf' e' Hvf _. cbn [fst snd].
  rewrite (is_valid_holds _ _ _ Hvf). apply wp_bind, wp_ret, wp_ret. rewrite proc_fs_names_of by done.
  apply bool_decide_eq_false. intros [|[]%Exists_nil]%Exists_cons. done.
Qed.

(** The names among the values the other systems deliver. *)
Definition given_names (curs : list (option string)) : list string :=
  omap (fun c => match c with None | Some EmptyString => None | Some s => Some s end) curs.

Definition entry_of (c : option string) : char_ptr :=
  match c with None | Some EmptyString => CNull | Some s => CStr s end.

Lemma wp_fill_fs_loop curs : forall names (Q : sg_error * list char_ptr -> env -> Prop) e,
  Forall (fun n => no_nul n = true) (given_names curs) -> (AFail ∉ e_allocs e) ->
  (forall e', calmer e e' -> Q (SG_ERROR_NONE, names ++ (entry_of <$> curs)) e') ->
  wp (fill_fs_loop curs names) Q e.
Proof.
  induction curs as [|cur curs IH]; intros names Q e Hn Ha HQ; cbn [fill_fs_loop fmap list_fmap] in *.
  { apply wp_ret. rewrite app_nil_r in HQ. apply HQ. reflexivity. }
  assert (forall p e1, p = entry_of cur -> calmer e e1 -> Forall (fun n => no_nul n = true) (given_names curs) ->
    wp (fill_fs_loop curs (names ++ [p])) Q e1) as Hgo.
  { intros p e1 -> He1 Hn1. apply IH; [done | calm |]. intros e' He'. rewrite <- app_assoc. apply HQ. by trans e1. }
  destruct cur as [[|c s0]|]; [by apply Hgo | | by apply Hgo]. cbn in Hn.
  apply Forall_cons_1 in Hn as [Hs Hn].
  apply wp_bind, wp_sg_update_string; [done | done | | calm]. intros e1 He1. cbn [fst snd].
  rewrite decide_False by auto. by apply Hgo.
Qed.

Lemma entries_hold curs :
  Forall (fun p => p = CNull \/ exists n, p = CStr n) (entry_of <$> curs) /\
  forall n, CStr n ∈ (entry_of <$> curs) <-> n ∈ given_names curs.
Proof.
  split.
  - apply Forall_fmap, Forall_forall. intros [[|c s0]|] _; cbn; eauto.
  - intros n. unfold given_names. rewrite list_elem_of_fmap, list_elem_of_omap. split.
    + intros (cur & E & Hc). exists cur. split; [done|]. destruct cur as [[|c s0]|]; cbn in *; congruence.
    + intros (cur & Hc & E). exists cur. split; [|done]. destruct cur as [[|c s0]|]; cbn in *; congruence.
Qed.

(** On the systems that deliver the names in one piece or have a built-in list, a
    type is valid afterwards exactly when a non-empty name of the list equals it without
    regard to case; the gaps the list may have are sorted to the end and, where the
    system says so, cut off. *)
Theorem fs_types_filled shrink curs ty e :
  Forall (fun n => no_nul n = true) (given_names curs) -> (AFail ∉ e_allocs e) ->
  wp (r ← fill_valid_fs shrink curs; ok ← is_valid_fs_type r.2 ty; mret (r.1, ok))
     (fun r _ => r.1 = SG_ERROR_NONE /\ r.2 = type_in (given_names curs) ty) e.
Proof.
  intros Hn Ha. destruct (entries_hold curs) as [HF Hin].
  destruct (sorted_cut _ HF) as (Hs & Hcut & Hle & Hmem & _). set (s := qsort cmp_fs_ptr (entry_of <$> curs)) in *.
  assert (length s = length curs) as Hls by (unfold s; by rewrite qsort_perm, length_fmap).
  rewrite length_fmap in Hle.
  assert (forall vf e1, vf_holds vf (given_names curs) ->
    wp (ok ← is_valid_fs_type vf ty; mret (SG_ERROR_NONE, ok))
       (fun r _ => r.1 = SG_ERROR_NONE /\ r.2 = type_in (given_names curs) ty) e1) as Hend.
  { intros vf e1 Hvf. rewrite (is_valid_holds _ _ ty Hvf). by apply wp_bind, wp_ret, wp_ret. }
  apply wp_bind. unfold fill_valid_fs. apply wp_bind, wp_alloc_request; [calm|]. intros ch e1 Hch He1.
  destruct ch; [done | |]; (apply wp_bind, wp_fill_fs_loop; [done | calm |]); intros e2 He2; cbn [app];
    rewrite decide_False by auto; fold s; (destruct (shrink && (first_gap s <? length curs)%nat);
    [apply wp_bind, wp_alloc_request; [calm|]; intros ch2 e3 _ _; apply wp_ret, Hend; exists (take (first_gap s) s)
    |apply wp_ret, Hend; exists s]); split_and!; try done; try (cbn; rewrite ?length_take; lia);
    intros n; rewrite <- Hin; [by apply Hmem | unfold s; by rewrite qsort_perm | by apply Hmem | unfold s; by rewrite qsort_perm].
Qed.

(** What the caller of [sg_get_fs_stats] finds: the entries in a vector that takes the
    place of the one [o] an earlier call has left, in a heap that is otherwise as before. *)
Definition fs_snapshot (ps : paths) (names : list string) (ms : list mntent) (o : vptr) (w : world)
    (r : vptr * Z) (st : comp) : Prop :=
  let items := omap (reported ps (type_in names)) ms in
  r.2 = Z.of_nat (length items) /\
  exists l v, r.1 = Some l /\ wf_vec v /\ contents v = items /\
    w_vecs (c_world st) = <[l := v]> (dropped o w) /\ (Some l = o \/ w_vecs w !! l = None).

(** C3: [sg_get_fs_stats], when at least one mount is to be reported, reports in the order
    of the mount table exactly the mounts whose type is in the list of valid types and
    whose [statvfs] succeeds, each with its device, the device behind symbolic links, and
    the sizes in bytes, inodes and blocks computed from [statvfs]; the vector with them
    takes the place of the one of the last call and the temporary list of mounts is gone:
    there is no other change to the vectors of the heap. Memory must last. *)
Theorem fs_stats_selects ps names ms vf o vs w :
  vf_holds vf names -> realpath_canonical ps -> Forall mount_text ms ->
  omap (reported ps (type_in names)) ms <> [] -> Z.of_nat (length ms) <= 2 ^ 31 ->
  vs !! SG_FS_STAT_NOW_IDX = Some o -> slot_state Kfs o w -> wf_heap w -> (AFail ∉ e_allocs (w_env w)) ->
  wp (sg_get_fs_stats ps vf (Some ms)) (fs_snapshot ps names ms o w) (mk_comp (Some vs) w).
Proof.
  intros Hvf Hr Hms Hne Hlen Hvs Ho Hw Hna.
  pose proof (fs_stats_fills ps Hr vf (type_in names) (fun ty => is_valid_holds vf names ty Hvf) ms Hms Hne Hlen) as Hfill.
  apply (wp_multi_access Kfs _ _ _ o vs _ _ Hvs Ho Hw Hna Hfill).
  intros l' v' w' Hv' Hi Hct Hl' [Hoth [v2 Ev2]] _ _. split; [done|]. exists l', v'. split_and!; try done.
  - rewrite Ev2 in Hl'. rewrite lookup_insert_eq in Hl'. cbn. rewrite Ev2. congruence.
  - destruct (w_vecs w !! l') as [x|] eqn:E; [left|by right]. destruct (decide (Some l' = o)); [done|].
    by destruct (Hoth l') as [? _]; [| eauto |].
Qed.
End types.

(** * A machine with mounts *)

Definition demo_filesystems : list fs_line :=
  [mk_fs_line true "sysfs" EmptyString; mk_fs_line false "ext4" EmptyString; mk_fs_line false "XFS" EmptyString;
   mk_fs_line true "rpc" "_pipefs"].

#[local] Instance fs_system : System | 0 := {
  sys_file p := if String.eqb p "/proc/filesystems" then Some (fs_file demo_filesystems) else None;
  sys_open_errno _ := 2; sys_time := 1000; sys_page_size := 4096 }.

Lemma fs_types_of_proc_witness :
  strcasecmp "xfs" "XFS" = 0 /\ strcasecmp "rpc_pipefs" "rpc" <> 0 /\
  wp (r ← init_valid_fs_types (mk_valid_fs None 0); ok ← is_valid_fs_type r.2 "xfs"; mret (r.1, ok))
     (fun r _ => r.1 = SG_ERROR_NONE /\
        (r.2 = true <-> Exists (fun l => strcasecmp "xfs" (fl_word l) = 0) demo_filesystems)) demo_env.
Proof.
  split; [vm_compute; reflexivity|]. split; [vm_compute; discriminate|].
  apply (fs_types_of_proc demo_filesystems); [reflexivity | | apply not_elem_of_nil].
  repeat constructor; done || (cbn; lia).
Defined.

Lemma fs_types_filled_witness :
  type_in (given_names VALID_FS_TYPES_AIX) "cifs" = true /\
  wp (r ← fill_valid_fs true VALID_FS_TYPES_AIX; ok ← is_valid_fs_type r.2 "cifs"; mret (r.1, ok))
     (fun r _ => r.1 = SG_ERROR_NONE /\ r.2 = type_in (given_names VALID_FS_TYPES_AIX) "cifs") demo_env.
Proof.
  split; [vm_compute; reflexivity|].
  apply fs_types_filled; [by repeat constructor | apply not_elem_of_nil].
Defined.

(** /dev/root is a link to the real device; the last mount cannot be read. *)
Definition demo_paths : paths := mk_paths
  (fun p => String.eqb p "/dev/root")
  (fun p => if String.eqb p "/dev/root" then Some "/dev/sda1" else None)
  (fun p => if String.eqb p "/gone" then None else Some (mk_statvfs 100 40 30 4096 1024 1000 600 500)).

Definition demo_mounts : list mntent :=
  [mk_mntent "/dev/root" "ext4" "/"; mk_mntent "proc" "proc" "/proc"; mk_mntent "/dev/sdb1" "xfs" "/srv";
   mk_mntent "/dev/sdc1" "ext4" "/gone"].

Definition demo_types : valid_fs := mk_valid_fs (Some [CStr "ext4"; CStr "XFS"]) 2.

Lemma fs_stats_selects_witness :
  ((fun it => (fs_device_canonical (as_fs it), fs_size (as_fs it), fs_used (as_fs it))) <$>
     omap (reported demo_paths (type_in ["ext4"; "XFS"])) demo_mounts)
    = [(CStr "/dev/sda1", 1024000, 409600); (CStr "/dev/sdb1", 1024000, 409600)] /\
  wp (sg_get_fs_stats demo_paths demo_types (Some demo_mounts)) 
    (fs_snapshot demo_paths ["ext4"; "XFS"] demo_mounts None (mk_world ∅ 1 demo_env)) (mk_comp (Some [None; None; None; None]) (mk_world ∅ 1 demo_env)).
Proof.
  split; [vm_compute; reflexivity|].
  apply (fs_stats_selects demo_paths ["ext4"; "XFS"] demo_mounts demo_types None).
  - exists [CStr "ext4"; CStr "XFS"]. split_and!; [done | done | |].
    + repeat constructor. discriminate.
    + intros n. rewrite !elem_of_cons, !elem_of_nil. split; intros; intuition congruence.
  - intros p q. cbn. destruct (String.eqb p "/dev/root"); [|done]. intros [= <-].
    split_and!; [done | done | cbn; lia].
  - by repeat constructor.
  - vm_compute. discriminate.
  - cbn. lia.
  - done.
  - done.
  - intros x _. apply lookup_empty.
  - apply not_elem_of_nil.
Defined.

(** * The sizes of a file system *)

Section sizes.
Context {sys : System}.

(** What holds between the numbers of a file system of [total] blocks of [size] bytes, [free] of them free and
    [avail] of these for everybody: no product has overflowed. *)
Definition adds_up (size total free avail : Z) (d : sg_fs_stats) : Prop :=
  fs_size d = size * total /\ fs_used d + fs_free d = fs_size d /\ fs_used_blocks d + fs_free_blocks d = fs_total_blocks d /\
  fs_avail d <= fs_free d <= fs_size d /\ fs_free d = size * free /\ fs_avail d = size * avail.

Lemma fs_sizes_add_up ti ui fi ai io size total free avail d :
  0 <= size -> 0 <= avail <= free -> free <= total < 2 ^ 64 -> size * total < 2 ^ 64 ->
  adds_up size total free avail (fs_sizes ti ui fi ai io size total free (total -u free) avail d).
Proof.
  intros Hs Ha Hf Ht. assert (total -u free = total - free) as E by (apply wrap_small; lia).
  unfold adds_up, fs_sizes. cbn. rewrite E, !wrap_small by nia. split_and!; nia.
Qed.

(** The numbers of a mounted file system add up with each of the calls: used and free space are the size, what
    is available is free, and blocks and bytes agree, the unit being [f_frsize] for statvfs64 and statvfs (or
    [f_bsize] where the structure lacks it) and [f_bsize] for statfs. *)
Theorem fs_accounting_exact d :
  (forall b, 0 <= f_frsize b -> 0 <= f_bavail b <= f_bfree b -> f_bfree b <= f_blocks b < 2 ^ 64 -> f_frsize b * f_blocks b < 2 ^ 64 ->
     adds_up (f_frsize b) (f_blocks b) (f_bfree b) (f_bavail b) (fs_fill b d)) /\
  (forall b, let size := default (sv_bsize b) (sv_frsize b) in
     0 <= size -> 0 <= sv_bavail b <= sv_bfree b -> sv_bfree b <= sv_blocks b < 2 ^ 64 -> size * sv_blocks b < 2 ^ 64 ->
     adds_up size (sv_blocks b) (sv_bfree b) (sv_bavail b) (fs_fill_statvfs b d)) /\
  (forall b, 0 <= sf_bsize b -> 0 <= sf_bavail b <= sf_bfree b -> sf_bfree b <= sf_blocks b < 2 ^ 64 -> sf_bsize b * sf_blocks b < 2 ^ 64 ->
     adds_up (sf_bsize b) (sf_blocks b) (sf_bfree b) (sf_bavail b) (fs_fill_statfs b d)).
Proof. split_and!; intros b; [exact (fs_sizes_add_up _ _ _ _ _ _ _ _ _ d)..]. Qed.
End sizes.

(** On Windows they do not: a disk of 1000 clusters of 4096 bytes, 400 of them free, has 4096000 blocks and more
    than 16 GB, and what is available is what is used. *)
Lemma windows_sizes_wrong d :
  let r := fs_fill_win32 8 512 400 1000 d in
  fs_block_size r = 4096 /\ fs_total_blocks r = 4096000 /\ fs_size r = 16777216000 /\ fs_free r = 1638400 /\ fs_avail r = fs_used r.
Proof. by vm_compute. Qed.
