(* ===== verification/SystemProps.v ===== *)
(** Theorems about the systems other than Linux: the swap areas of HP-UX and FreeBSD, the
    users of Windows. *)

From S2P Require Import Prelude Types CLib Errors Tools Vector VectorSpec VectorDiff Items Comp Stdio ToolsExt Fill Single UserHost SingleSys Demo UserHostProps.

Local Open Scope sg_scope.

(** * Swap areas *)

Section swap.
Context {mem : Memory} {sys : System}.

(** The bytes and the used bytes of an area. *)
Definition area_total (si : pst_swapinfo) : Z :=
  if pss_enabled si then (if pss_block si then pss_nblksavail si * 1024 else 0) +
                         (if pss_fs si then pss_limit si * 1024 else 0) else 0.
Definition area_used (si : pst_swapinfo) : Z :=
  if pss_enabled si then (if pss_block si then pss_nfpgs si * 1024 else 0) +
                         (if pss_fs si then pss_allocated si * 1024 else 0) else 0.

Definition sum_of {A} (f : A -> Z) (l : list A) : Z := foldr (fun a s => f a + s) 0 l.

(** The structure counts [total] and [used] bytes so far. *)
Definition counts (total used t : Z) (b : sg_swap_stats) : Prop :=
  b = mk_swap_stats (u64 total) (u64 used) (u64 (total - used)) t.

Lemma swap_add_counts total used x y t b :
  counts total used t b -> counts (total + x) (used + y) t (swap_add (u64 x) (u64 y) b).
Proof.
  intros ->. unfold counts, swap_add. cbn. rewrite !wrap_add_wrap, wrap_wrap_sub. done.
Qed.

Lemma swap_area_counts total used t b si :
  counts total used t b -> counts (total + area_total si) (used + area_used si) t (swap_area b si).
Proof.
  intros H. unfold swap_area, area_total, area_used.
  destruct (pss_enabled si); cbn [negb]; [|by rewrite !Z.add_0_r].
  destruct (pss_block si), (pss_fs si); cbn zeta; rewrite ?Z.add_0_r, ?Z.add_0_l, ?Z.add_assoc;
    repeat apply swap_add_counts; done.
Qed.

Lemma swap_areas_count l : forall total used t b,
  counts total used t b ->
  counts (total + sum_of area_total l) (used + sum_of area_used l) t (foldl swap_area b l).
Proof.
  induction l as [|si l IH]; intros total used t b H; cbn; [by rewrite !Z.add_0_r|].
  rewrite !Z.add_assoc. by apply IH, swap_area_counts.
Qed.

(** The entries from an index on, and the documented behaviour of [pstat_getswap]: the
    next ones of them, at most [count] but one if there is one. *)
Definition from_idx (idx : Z) (areas : list pst_swapinfo) : list pst_swapinfo :=
  filter (fun si => idx <= pss_idx si) areas.

Definition lists_areas (getswap : nat -> Z -> list pst_swapinfo + Z) (areas : list pst_swapinfo) : Prop :=
  forall count idx, (0 < count)%nat -> exists k, (0 < k <= count)%nat /\
    getswap count idx = inl (take k (from_idx idx areas)).

Definition by_idx (a b : pst_swapinfo) : Prop := pss_idx a < pss_idx b.

Section batches.
Context (getswap : nat -> Z -> list pst_swapinfo + Z) (areas : list pst_swapinfo).
Hypothesis Hlists : lists_areas getswap areas.
Hypothesis Hsorted : StronglySorted by_idx areas.
Hypothesis Hrange : Forall (fun si => 0 <= pss_idx si < 2 ^ 31 - 1) areas.

Lemma hpux_swap_loop_spec (Q : sg_error * sg_swap_stats -> env -> Prop) e : forall fuel idx b,
  (length (from_idx idx areas) < fuel)%nat ->
  Q (SG_ERROR_NONE, foldl swap_area b (from_idx idx areas)) e ->
  wp (hpux_swap_loop fuel getswap idx b) Q e.
Proof using Hlists Hsorted Hrange.
  induction fuel as [|fuel IH]; intros idx b Hf HQ; [lia|]. cbn [hpux_swap_loop].
  destruct (Hlists SWAP_BATCH idx) as (k & Hk & ->); [unfold SWAP_BATCH; lia|].
  set (rest := from_idx idx areas) in *.
  apply wp_bind, wp_ret. destruct (last (take k rest)) as [si|] eqn:El.
  - assert (si ∈ rest) as Hin.
    { rewrite <- (take_drop k rest). apply elem_of_app. left. by apply last_Some_elem_of. }
    apply list_elem_of_filter in Hin as [Hi Hin].
    assert (StronglySorted by_idx rest) as Hsr by by apply StronglySorted_filter.
    pose proof Hrange as Hr. rewrite Forall_forall in Hr. specialize (Hr _ Hin). rewrite swrap_small by lia.
    pose proof (from_index_after pss_idx _ _ _ Hsr El) as E.
    unfold rest, from_idx in E. fold (from_index pss_idx idx areas) in E. rewrite from_index_later in E by lia.
    change (from_idx (pss_idx si + 1) areas = drop k rest) in E.
    assert (take k rest <> []) by (intros H; by rewrite H in El).
    apply IH; rewrite E.
    + rewrite length_drop. destruct rest; [by rewrite take_nil in *|]. cbn [length] in *. lia.
    + by rewrite <- foldl_app, take_drop.
  - apply last_None in El. assert (rest = []) as Er.
    { destruct k; [lia|]. by destruct rest. }
    apply wp_ret. by rewrite Er in HQ.
Qed.

(** C37: However the kernel divides the swap areas into batches, the loop of HP-UX ends after
    the last of them and counts every enabled area once: total and used space are the sums
    over the areas, and the free space is their difference. *)
Theorem swap_areas_summed b e :
  wp (swap_stats_hpux (S (length areas)) getswap b) (fun r _ =>
    let total := sum_of area_total areas in
    let used := sum_of area_used areas in
    r = (SG_ERROR_NONE, mk_swap_stats (u64 total) (u64 used) (u64 (total - used)) sys_time)) e.
Proof using Hlists Hsorted Hrange.
  assert (from_idx 0 areas = areas) as E0.
  { apply filter_every. eapply Forall_impl; [done|]. by intros si [H _]. }
  apply wp_bind, hpux_swap_loop_spec; rewrite E0; [lia|].
  pose proof (swap_areas_count areas 0 0 (swap_systime b) (swap_zero b) eq_refl) as H.
  rewrite !Z.add_0_l in H. apply wp_ret. rewrite H. done.
Qed.
End batches.

(** ** Swap devices *)

(** The devices by number. *)
Definition device_of (ds : list xswdev) (n : nat) : xswdev + Z :=
  match ds !! n with Some d => inl d | None => inr ENOENT end.

Lemma next_device_of ds name n e : wp (next_device name (device_of ds) n) (fun r _ => r = inr (ds !! n)) e.
Proof. unfold next_device, device_of. by destruct (ds !! n). Qed.

Lemma next_entry_of ds sz n e :
  (0 < sz)%nat -> Forall (fun d => xsw_size d = sz) ds -> ds <> [] -> (n <= length ds)%nat ->
  wp (next_entry ds (length ds * sz) n) (fun r _ => r = inr (ds !! n)) e.
Proof.
  intros Hsz Hs Hne Hn. unfold next_entry. destruct ds as [|d0 l] eqn:E; [done|].
  apply Forall_cons in Hs as [-> _]. rewrite Nat.div_mul by lia.
  destruct (Nat.eqb_spec sz 0); [lia|]. rewrite <- E in *.
  destruct (Nat.leb_spec (length ds) n).
  - apply wp_ret. by rewrite lookup_ge_None_2.
  - destruct (lookup_lt_is_Some_2 ds n) as [d ->]; done.
Qed.

Section devices.
Context (ds : list xswdev) (version : Z).
Hypothesis Hversion : Forall (fun d => xsw_version d = version) ds.

Lemma xswdev_loop_spec next (Q : sg_error * sg_swap_stats -> env -> Prop) t :
  (forall n e, (n <= length ds)%nat -> wp (next n) (fun r _ => r = inr (ds !! n)) e) ->
  forall fuel n total used e,
  (length ds - n < fuel)%nat -> (n <= length ds)%nat ->
  (forall e', Q (SG_ERROR_NONE, mk_swap_stats (u64 (total + sum_of xsw_nblks (drop n ds)))
                   (u64 (used + sum_of xsw_used (drop n ds))) 0 t) e') ->
  wp (xswdev_loop fuel version next n (mk_swap_stats (u64 total) (u64 used) 0 t)) Q e.
Proof using Hversion.
  intros Hnext. induction fuel as [|fuel IH]; intros n total used e Hf Hn HQ; [lia|].
  cbn [xswdev_loop]. apply wp_bind. eapply wp_mono; [by apply Hnext|]. intros r e' ->.
  destruct (ds !! n) as [d|] eqn:Ed.
  - pose proof (Forall_lookup_1 _ _ _ _ Hversion Ed) as ->. rewrite Z.eqb_refl. cbn [negb swap_total swap_used
      swap_free swap_systime].
    pose proof (lookup_lt_Some _ _ _ Ed). rewrite !wrap_add_wrap. apply IH; [lia..|].
    intros e2. specialize (HQ e2). rewrite (drop_S _ _ _ Ed) in HQ. cbn in HQ. by rewrite !Z.add_assoc in HQ.
  - apply wp_ret. apply lookup_ge_None in Ed. rewrite drop_ge in HQ by done. cbn in HQ.
    rewrite !Z.add_0_r in HQ. apply HQ.
Qed.

(** FreeBSD and DragonFly: whether the devices are asked for one by one or all at once,
    the loop ends behind the last of them and the result is the same: the sums of the
    blocks and of the used blocks, in bytes, and their difference as the free space. *)
Theorem swap_devices_summed si sz b e :
  (0 < sz)%nat -> Forall (fun d => xsw_size d = sz) ds -> ds <> [] -> (AFail ∉ e_allocs e) ->
  wp (swap_stats_xswdev (S (length ds)) si version (device_of ds) (inl (length ds * sz)%nat)
        (inl (ds, (length ds * sz)%nat)) b) (fun r _ =>
    let total := sum_of xsw_nblks ds in
    let used := sum_of xsw_used ds in
    r = (SG_ERROR_NONE, mk_swap_stats (u64 (total * sys_page_size)) (u64 (used * sys_page_size))
                          (u64 ((total - used) * sys_page_size)) sys_time)) e.
Proof using Hversion.
  intros Hsz Hs Hne Ha.
  assert (forall next e1, (forall n e, (n <= length ds)%nat -> wp (next n) (fun r _ => r = inr (ds !! n)) e) ->
    wp (r ← xswdev_loop (S (length ds)) version next 0 (swap_zero b);
        if decide (r.1 <> SG_ERROR_NONE) then mret r else mret (swap_done (SG_ERROR_NONE, swap_in_pages r.2)))
      (fun r _ => r = (SG_ERROR_NONE, mk_swap_stats (u64 (sum_of xsw_nblks ds * sys_page_size))
         (u64 (sum_of xsw_used ds * sys_page_size))
         (u64 ((sum_of xsw_nblks ds - sum_of xsw_used ds) * sys_page_size)) sys_time)) e1) as Hrun.
  { intros next e1 Hnext. apply wp_bind. change (swap_zero b) with (mk_swap_stats (u64 0) (u64 0) 0 (swap_systime b)).
    apply xswdev_loop_spec; [done | lia | lia |]. intros e2. rewrite decide_False by auto. apply wp_ret.
    rewrite drop_0, !Z.add_0_l. unfold swap_done, swap_in_pages. cbn. rewrite decide_False by auto.
    rewrite wrap_wrap_sub, !wrap_mul_wrap, <- Z.mul_sub_distr_r.
    by rewrite <- (wrap_mul_wrap _ (u64 _ - u64 _)), wrap_wrap_sub, wrap_mul_wrap. }
  unfold swap_stats_xswdev. destruct (swapinfo_array si).
  - apply wp_bind, wp_ret, wp_bind, wp_sg_realloc; [done | | done |].
    { destruct ds; [done|]. cbn. lia. }
    intros blk e1 _ He1. apply wp_bind, wp_ret. apply Hrun. intros n e2 Hn. by apply next_entry_of.
  - apply Hrun. intros n e2 _. apply next_device_of.
Qed.
End devices.
End swap.

(** * The users of Windows *)

Section users.
Context {mem : Memory} {sys : System}.

(** What an item says about the user called [name]. *)
Definition wksta_item (name : string) (it : item) : Prop :=
  exists u, it = IUser u /\ usr_login_name u = CStr name /\ usr_systime u = sys_time.

Lemma fill_wksta_user_ok name :
  no_nul name = true ->
  fills_item_then Kuser (fun e => AFail ∉ e_allocs e) (wksta_item name) (fill_wksta_user name).
Proof.
  intros Hn it Q e Hit Ha HQ. destruct it as [| | | | |u| | | | | | | | |]; try done.
  cbn [item_live] in Hit. split_andb. unfold fill_wksta_user. cbn [as_user].
  apply wp_bind, wp_sg_update_string; [done | done | | calm].
  intros e1 He1. cbn [fst snd]. rewrite decide_False by auto. apply wp_ret, HQ; [| | done | calm].
  - cbn. rewrite Hn. by repeat (apply andb_true_intro; split).
  - by eexists.
Qed.

(** The list in parts: every answer but the last says that more follows. *)
Definition in_parts (parts : list (option (list string))) (final : option (list string))
    : list (net_status * option (list string)) :=
  ((ERROR_MORE_DATA,.) <$> parts) ++ [(NERR_Success, final)].

Definition part_names (parts : list (option (list string))) : list string := parts ≫= default [].

Lemma wp_wksta_users final parts : forall l v n l0 w0 (Q : sg_error * vptr -> world -> Prop) w,
  let names := part_names parts ++ default [] final in
  Forall (fun s => no_nul s = true) names ->
  wf_heap w0 -> replaced l0 l v w0 w -> wf_vec v -> info v = VECTOR_INIT_INFO Kuser ->
  used_count v = Z.of_nat n -> Z.of_nat (n + length names) <= 2 ^ 31 -> (AFail ∉ e_allocs (w_env w)) ->
  (forall l' v' w' xs, wf_vec v' -> Forall2 wksta_item names xs -> contents v' = contents v ++ xs ->
     replaced l0 l' v' w0 w' -> Q (SG_ERROR_NONE, Some l') w') ->
  wp (user_stats_win32 (in_parts parts final) n (Some l)) Q w.
Proof.
  assert (forall (names : list string) s, Forall (fun s => no_nul s = true) names -> s ∈ names ->
    fills_item_then Kuser (fun e => AFail ∉ e_allocs e) (wksta_item s) (fill_wksta_user s)) as Hfill.
  { intros names s H Hs. apply fill_wksta_user_ok. by eapply Forall_forall in H. }
  induction parts as [|p parts IH]; intros l v n l0 w0 Q w names Hn Hh Hr Hwf Hi Hu Hlen Ha HQ; cbn.
  - apply wp_bind. eapply (wp_append_loop_then Kuser eq_refl (fun e => AFail ∉ e_allocs e) wksta_item); try done; [by eauto|].
    intros l' v' w' xs Hw' _ Hxs Hc Hr' _. cbn [fst]. rewrite decide_False by auto. by eapply wp_ret, HQ.
  - subst names. unfold part_names in *. cbn in Hn, Hlen, HQ. rewrite <- app_assoc in Hn, Hlen, HQ.
    apply Forall_app in Hn as [Hp Hn]. rewrite length_app in Hlen.
    apply wp_bind. eapply (wp_append_loop_then Kuser eq_refl (fun e => AFail ∉ e_allocs e) wksta_item); try done; [by eauto | lia |].
    intros l' v' w' xs Hw' Hi' Hxs Hc Hr' Ha'. cbn [fst snd]. rewrite decide_False by auto.
    pose proof (length_contents _ Hwf) as L. pose proof (length_contents _ Hw') as L'.
    rewrite Hc, length_app in L'. pose proof (Forall2_length _ _ _ Hxs). pose proof (wf_used _ Hw').
    eapply IH; try done; [lia | lia |].
    intros l2 v2 w2 ys Hw2 Hys Hc2 Hr2. eapply (HQ _ _ _ (xs ++ ys)); try done.
    + by apply Forall2_app.
    + by rewrite Hc2, Hc, <- app_assoc.
Qed.

(** However many parts Windows delivers the list of users in, and with parts that have no
    buffer in between, every user of every part gets an item, in order, with the
    name and the time of the reading. *)
Theorem users_of_windows parts final l v w :
  let names := part_names parts ++ default [] final in
  Forall (fun s => no_nul s = true) names -> Z.of_nat (length names) <= 2 ^ 31 ->
  w_vecs w !! l = Some v -> wf_vec v -> info v = VECTOR_INIT_INFO Kuser -> used_count v = 0 ->
  wf_heap w -> (AFail ∉ e_allocs (w_env w)) ->
  wp (user_stats_win32 (in_parts parts final) 0 (Some l))
     (fun r w' => r.1 = SG_ERROR_NONE /\ exists l' v', r.2 = Some l' /\ w_vecs w' !! l' = Some v' /\
        wf_vec v' /\ Forall2 wksta_item names (contents v')) w.
Proof.
  intros names Hn Hlen Hl Hv Hi Hu Hw Ha.
  eapply (wp_wksta_users final parts l v 0 l w); try done; [by apply replaced_refl|].
  intros l' v' w' xs Hv' Hxs Hc (_ & _ & E & _). split; [done|]. exists l', v'. split_and!; try done.
  - rewrite E. apply lookup_insert_eq.
  - rewrite Hc. unfold contents at 1. by rewrite Hu.
Qed.
End users.

(** * Runs *)

Definition demo_areas : list pst_swapinfo :=
  [mk_pst_swapinfo 0 true true false 1000 400 0 0; mk_pst_swapinfo 1 false true false 7 7 0 0;
   mk_pst_swapinfo 2 true false true 0 0 500 100; mk_pst_swapinfo 4 true true false 20 0 0 0;
   mk_pst_swapinfo 5 true true false 1 1 0 0; mk_pst_swapinfo 6 true true false 2 0 0 0;
   mk_pst_swapinfo 9 true true true 3 1 4 2].

(** A kernel that delivers at most two entries at a time. *)
Definition demo_getswap (count : nat) (idx : Z) : list pst_swapinfo + Z :=
  inl (take (Nat.min 2 count) (from_idx idx demo_areas)).

Lemma swap_areas_summed_witness :
  sum_of area_total demo_areas = 1530 * 1024 /\
  wp (swap_stats_hpux (S (length demo_areas)) demo_getswap (mk_swap_stats 1 2 3 4)) (fun r _ =>
    let total := sum_of area_total demo_areas in
    let used := sum_of area_used demo_areas in
    r = (SG_ERROR_NONE, mk_swap_stats (u64 total) (u64 used) (u64 (total - used)) sys_time)) demo_env.
Proof.
  split; [reflexivity|]. apply (swap_areas_summed demo_getswap demo_areas).
  - intros count idx Hc. exists (Nat.min 2 count). split; [lia | done].
  - repeat constructor; unfold by_idx; cbn; lia.
  - repeat constructor; cbn; lia.
Defined.

Definition demo_devices : list xswdev := [mk_xswdev 64 1 1000 10; mk_xswdev 64 1 2000 0; mk_xswdev 64 1 500 90].

Lemma swap_devices_summed_witness :
  sum_of xsw_nblks demo_devices = 3500 /\
  wp (swap_stats_xswdev (S (length demo_devices)) (mk_swapinfo true "vm.swap_info_array") 1 (device_of demo_devices)
        (inl (length demo_devices * 64)%nat) (inl (demo_devices, (length demo_devices * 64)%nat))
        (mk_swap_stats 1 2 3 4)) (fun r _ =>
    let total := sum_of xsw_nblks demo_devices in
    let used := sum_of xsw_used demo_devices in
    r = (SG_ERROR_NONE, mk_swap_stats (u64 (total * sys_page_size)) (u64 (used * sys_page_size))
                          (u64 ((total - used) * sys_page_size)) sys_time)) demo_env.
Proof.
  split; [reflexivity|]. apply (swap_devices_summed demo_devices 1).
  - by repeat constructor.
  - lia.
  - by repeat constructor.
  - done.
  - apply not_elem_of_nil.
Defined.

Lemma users_of_windows_witness :
  wp (user_stats_win32 (in_parts [Some ["alice"; "bob"]; None; Some ["carol"]] (Some ["dave"])) 0 (Some 1%positive))
     (fun r w' => r.1 = SG_ERROR_NONE /\ exists l' v', r.2 = Some l' /\ w_vecs w' !! l' = Some v' /\
        wf_vec v' /\ Forall2 wksta_item ["alice"; "bob"; "carol"; "dave"] (contents v')) user_world.
Proof.
  apply (users_of_windows [Some ["alice"; "bob"]; None; Some ["carol"]] (Some ["dave"]) 1%positive
           (demo_vec Kuser [] 16)).
  - by repeat constructor.
  - by vm_compute.
  - reflexivity.
  - apply demo_vec_wf; [cbn; lia | cbn; lia | constructor].
  - done.
  - done.
  - intros l Hl. cbn in *. rewrite lookup_insert_ne by lia. reflexivity.
  - apply not_elem_of_nil.
Defined.
