(* ===== verification/DiskListProps.v ===== *)
(** The disks of HP-UX: from what pstat_getdisk delivers in batches and the device directories tell to
    the items of the list. *)

From S2P Require Import Prelude Types CLib Errors Tools Vector VectorSpec VectorDiff Items Comp Stdio ToolsExt Fill Single Disk NetworkSys DiskSys Demo.

Local Open Scope sg_scope.

Section disk_list.
Context {mem : Memory} {sys : System} (dir : dev_dir).

(** The name of a disk in the directories, the second one before the first. *)
Definition dev_name (id : Z) (paths : list string) : option string := last (omap (find_dev dir id) paths).

Definition names_ok (id : Z) (paths : list string) : Prop :=
  Forall (fun n => no_nul n = true) (omap (find_dev dir id) paths).

Lemma wp_dev_names id paths : forall name (Q : sg_error * char_ptr -> env -> Prop) e,
  ptr_ok name = true -> names_ok id paths -> (AFail ∉ e_allocs e) ->
  (forall e', calmer e e' -> Q (SG_ERROR_NONE, from_option CStr name (dev_name id paths)) e') ->
  wp (dev_names dir id paths name) Q e.
Proof.
  induction paths as [|p paths IH]; intros name Q e Hp Hn Ha HQ; cbn [dev_names].
  { by apply wp_ret, HQ. }
  unfold names_ok, dev_name in *. cbn [omap list_omap] in *. destruct (find_dev dir id p) as [n|]; [|by apply IH].
  apply Forall_cons in Hn as [Hn1 Hn]. apply wp_bind, wp_sg_update_string; [done|done| |by intros ?%Ha].
  intros e1 He1. cbn [fst snd]. rewrite decide_False by auto. apply IH; [done|done|by intros ?%He1|].
  intros e2 He2. assert (calmer e e2) as He by (by trans e1). specialize (HQ e2 He). rewrite last_cons in HQ.
  by destruct (last (omap _ _)).
Qed.

(** The item of a disk that has a name. *)
Definition disk_item (di : pst_diskinfo) : item :=
  IDiskIo (mk_disk_io_stats (CStr (default EmptyString (dev_name (diskid di) disk_devs_in)))
             (u64 (psd_counters di).1) (u64 (psd_counters di).2) sys_time).

Definition disk_named (di : pst_diskinfo) : Prop :=
  names_ok (diskid di) disk_devs_in /\ is_Some (dev_name (diskid di) disk_devs_in).

Lemma fill_diskinfo_ok di : disk_named di -> fills_item Kdisk_io (fill_diskinfo dir di) (disk_item di).
Proof.
  intros [Hn [name E]]. unfold disk_item. rewrite E. cbn [default]. split.
  { cbn. unfold names_ok in Hn. rewrite Forall_forall in Hn. apply Hn. apply last_Some_elem_of in E. exact E. }
  intros it Q e Hit Ha HQ. destruct it as [| | | | | |d| | | | | | | |]; try done. unfold fill_diskinfo. cbn [as_disk_io].
  destruct (psd_counters di) as [rb wb]. apply wp_bind, wp_dev_names; [exact Hit|done|done|].
  intros e' He'. rewrite E. cbn [fst snd from_option]. rewrite decide_False by auto. by apply wp_ret, HQ.
Qed.

Definition enabled (ds : list pst_diskinfo) : list pst_diskinfo := filter (fun d => psd_status d <> 0) ds.

(** No index comes near INT_MAX, where the scan would begin again. *)
Definition small_idx (d : pst_diskinfo) : Prop := 0 <= psd_idx d < 2 ^ 31 - 2.

(** The vector at [l], which the list has become, begins with [xs]. *)
Record begins (l0 : positive) (w0 : world) (xs : list item) (l : positive) (v : sg_vector) (w : world) : Prop := {
  bg_replaced : replaced l0 l v w0 w; bg_wf : wf_vec v; bg_info : info v = VECTOR_INIT_INFO Kdisk_io;
  bg_items : take (length xs) (contents v) = xs; bg_calm : AFail ∉ e_allocs (w_env w) }.

Lemma wp_room l0 w0 count bang xs l v (Q : vptr * option sg_error -> world -> Prop) w :
  wf_heap w0 -> begins l0 w0 xs l v w -> 1 <= count <= 2 ^ 31 -> Z.of_nat (length xs) <= count ->
  (forall l1 v1 w1, begins l0 w0 xs l1 v1 w1 -> used_count v1 = count -> Q (Some l1, None) w1) ->
  wp (VECTOR_UPDATE (Some l) count bang (VECTOR_INIT_INFO Kdisk_io)) Q w.
Proof.
  intros Hh [Hr Hw Hi Hx Ha] Hc Hn HQ. eapply (wp_update_vector Kdisk_io); [done|exact Hr|done|done|lia|done|].
  intros l1 v1 w1 Hrs Hc1 Hr1. pose proof (length_contents v Hw) as Hlen.
  assert (length xs <= length (contents v))%nat as Hle by (rewrite <- Hx, length_take; lia).
  destruct Hrs as [Hw1 Hu1 Hi1 _ Hkeep _]. apply (HQ l1 v1 w1); [|done]. split; [done|done|congruence| |by intros ?%Hc1].
  rewrite <- Hx at 2. unfold contents in *. rewrite !take_take.
  apply (f_equal (take (length xs))) in Hkeep. rewrite !take_take in Hkeep. rewrite !Nat.min_l in Hkeep by lia.
  by rewrite !Nat.min_l by lia.
Qed.

(** A batch: the disks of it that are enabled are appended. *)
Lemma wp_disk_batch fuel getdisk i batch final l0 w0 xs l v (Q : sg_error * vptr -> world -> Prop) w :
  let items := disk_item <$> enabled batch in
  getdisk i = inl batch -> last batch = Some final -> small_idx final -> Forall (disk_named) (enabled batch) ->
  wf_heap w0 -> (AFail ∉ e_allocs (w_env w0)) -> begins l0 w0 xs l v w -> 1 <= Z.of_nat (length xs + length items) <= 2 ^ 31 ->
  (forall l' v' w', begins l0 w0 (xs ++ items) l' v' w' -> contents v' = xs ++ items ->
     wp (hpux_batches fuel getdisk dir (psd_idx final + 1) (length (xs ++ items)) (Some l')) Q w') ->
  wp (hpux_batches (S fuel) getdisk dir i (length xs) (Some l)) Q w.
Proof.
  intros items E El Hf Hn Hh Ha Hb Hc HQ. cbn [hpux_batches]. rewrite E. apply wp_bind, wp_in_env, wp_ret. rewrite El.
  change (filter _ batch) with (enabled batch). unfold items in *. rewrite length_fmap in Hc.
  assert (begins l0 w0 xs l v (with_env (w_env w) w)) as Hb' by (by destruct w).
  apply wp_bind. eapply wp_room; [done|exact Hb'|done|lia|]. intros l1 v1 w1 [Hr1 Hw1 Hi1 Hx1 Ha1] Hu1.
  apply wp_bind, wp_in_env, wp_alloc_request; [done|]. intros c e1 Hc1 He1.
  assert (forall (x y : M world (sg_error * vptr)), match c with AFail => x | _ => y end = y) as -> by (by destruct c).
  apply wp_bind. eapply (wp_fill_slots Kdisk_io eq_refl (fill_diskinfo dir) (disk_item)); [|by apply replaced_env|done|done|lia|cbn; by intros ?%He1|].
  { intros d Hd. apply fill_diskinfo_ok. by eapply Forall_forall in Hn. }
  intros v2 w2 Hw2 Hi2 Hu2 Hc2 Hr2. cbn [fst snd]. rewrite decide_False by auto. destruct Hf as [Hf0 Hf1].
  rewrite (proj2 (Z.leb_gt _ _)) by lia. rewrite Z.rem_small by lia.
  rewrite Hx1, drop_ge, app_nil_r in Hc2 by (pose proof (length_contents v1 Hw1); lia).
  replace (length xs + length (enabled batch))%nat with (length (xs ++ (disk_item <$> enabled batch))) by (by rewrite length_app, length_fmap).
  eapply HQ; [|exact Hc2]. split; [exact Hr2|done|done|by rewrite Hc2, firstn_all|]. by destruct Hr2 as (_ & Hc' & _); intros ?%Hc'.
Qed.

Lemma enabled_app k k' : enabled (k ++ k') = enabled k ++ enabled k'.
Proof. apply filter_app. Qed.

Lemma last_Forall {A} (P : A -> Prop) l x : Forall P l -> last l = Some x -> P x.
Proof. intros HF Hx. rewrite Forall_forall in HF. by apply HF, last_Some_elem_of. Qed.

Lemma wp_hpux_batches getdisk i ds : batches psd_idx getdisk i ds ->
  forall fuel l0 w0 xs l v (Q : sg_error * vptr -> world -> Prop) w,
  (length ds < fuel)%nat -> Forall disk_named (enabled ds) -> Forall small_idx ds -> wf_heap w0 -> (AFail ∉ e_allocs (w_env w0)) ->
  begins l0 w0 xs l v w -> contents v = xs -> (1 <= length xs)%nat -> Z.of_nat (length xs + length (enabled ds)) <= 2 ^ 31 ->
  (forall l' v' w', wf_vec v' -> contents v' = xs ++ (disk_item <$> enabled ds) -> replaced l0 l' v' w0 w' -> Q (SG_ERROR_NONE, Some l') w') ->
  wp (hpux_batches fuel getdisk dir i (length xs) (Some l)) Q w.
Proof.
  induction 1 as [i E|i batch final rest E El Hb IH]; intros fuel l0 w0 xs l v Q w Hf Hn Hs Hh Ha Hbg Hx Hpos Hlen HQ;
    (destruct fuel as [|fuel]; [lia|]).
  { cbn [hpux_batches]. rewrite E. apply wp_bind, wp_in_env, wp_ret, wp_ret. replace (with_env (w_env w) w) with w by (by destruct w).
    eapply HQ; [apply Hbg|by rewrite app_nil_r|apply Hbg]. }
  rewrite enabled_app, length_app in *. apply Forall_app in Hn as [Hn1 Hn2]. apply Forall_app in Hs as [Hs1 Hs2].
  assert (0 < length batch)%nat by (destruct batch; [done|cbn; lia]).
  eapply wp_disk_batch; [exact E|exact El|by apply (last_Forall small_idx batch)|done|exact Hh|done|exact Hbg|rewrite length_fmap; lia|].
  intros l' v' w' Hbg' Hc'. eapply IH; [lia|done|done|exact Hh|done|exact Hbg'|done|rewrite length_app; lia|rewrite length_app, length_fmap; lia|].
  intros l2 v2 w2 Hw2 Hc2 Hr2. eapply HQ; [done| |exact Hr2]. by rewrite Hc2, fmap_app, app_assoc.
Qed.

(** On HP-UX the list has one item per disk that is enabled, in the order of pstat_getdisk, with the bytes read and
    written and the name the disk has in /dev/disk or else in /dev/dsk, whatever the batches and whatever an earlier
    call has left; the loop ends. *)
Theorem hpux_disk_list getdisk batch final rest fuel l v w :
  let ds := batch ++ rest in
  getdisk 0 = inl batch -> last batch = Some final -> enabled batch <> [] -> batches psd_idx getdisk (psd_idx final + 1) rest ->
  (length ds < fuel)%nat -> Forall disk_named (enabled ds) -> Forall small_idx ds -> Z.of_nat (length ds) <= 2 ^ 31 ->
  w_vecs w !! l = Some v -> wf_vec v -> info v = VECTOR_INIT_INFO Kdisk_io -> wf_heap w -> (AFail ∉ e_allocs (w_env w)) ->
  wp (disk_io_hpux fuel getdisk dir (Some l)) (fun r w' => exists l' v', r = (SG_ERROR_NONE, Some l') /\ w_vecs w' !! l' = Some v' /\
    wf_vec v' /\ contents v' = disk_item <$> enabled ds) w.
Proof.
  intros ds E El Hne Hb Hf Hn Hs Hlen Hl Hw Hi Hh Ha. unfold ds in *. rewrite enabled_app, length_app in *.
  apply Forall_app in Hn as [Hn1 Hn2]. apply Forall_app in Hs as [Hs1 Hs2]. destruct fuel as [|fuel]; [lia|].
  assert (0 < length (enabled batch))%nat by (destruct (enabled batch); [done|cbn; lia]).
  assert (forall k, (length (enabled k) <= length k)%nat) as Hen by (intros k; apply length_filter).
  pose proof (Hen batch) as Hb1. pose proof (Hen rest) as Hb2.
  eapply (wp_disk_batch fuel getdisk 0 batch final l w []); [done|exact El|by apply (last_Forall small_idx batch)|done|done|done| |cbn; rewrite length_fmap; lia|].
  { split; [by apply replaced_refl|done|done|done|done]. }
  intros l' v' w' Hbg' Hc'. eapply wp_hpux_batches; [exact Hb|lia|done|done|exact Hh|done|exact Hbg'|done|cbn; rewrite length_fmap; lia|cbn; rewrite length_fmap; lia|].
  intros l2 v2 w2 Hw2 Hc2 Hr2. exists l2, v2. split_and!; [done|by eapply replaced_lookup|done|]. by rewrite Hc2, fmap_app.
Qed.
End disk_list.

(** * Concrete disks *)

Definition demo_psd (idx status minor r w : Z) : pst_diskinfo := mk_pst_diskinfo idx status 31 minor "8/0/19/1/0.8.0" (inl (r, w)).

(** The second disk is disabled; the third comes with the next batch and has a name in both directories. *)
Definition demo_getdisk (i : Z) : list pst_diskinfo + Z :=
  if i =? 0 then inl [demo_psd 0 1 1 512 1024; demo_psd 3 0 2 0 0]
  else if i =? 4 then inl [demo_psd 5 1 3 4096 0]
  else inl [].

Definition demo_dev_dir : dev_dir := fun path =>
  if String.eqb path "/dev/dsk" then
    Some [("gone", None); ("c0t1d0", Some (diskid (demo_psd 0 1 1 0 0))); ("c0t3d0", Some (diskid (demo_psd 5 1 3 0 0)))]
  else if String.eqb path "/dev/disk" then Some [("disk3", Some (diskid (demo_psd 5 1 3 0 0)))]
  else None.

Lemma hpux_disk_list_witness :
  disk_item demo_dev_dir <$> [demo_psd 0 1 1 512 1024; demo_psd 5 1 3 4096 0]
    = [demo_disk "c0t1d0" 512 1024 1000; demo_disk "disk3" 4096 0 1000] /\
  wp (disk_io_hpux 4 demo_getdisk demo_dev_dir (Some 1%positive)) (fun r w' => exists l' v',
    r = (SG_ERROR_NONE, Some l') /\ w_vecs w' !! l' = Some v' /\ wf_vec v' /\
    contents v' = disk_item demo_dev_dir <$> enabled ([demo_psd 0 1 1 512 1024; demo_psd 3 0 2 0 0] ++ [demo_psd 5 1 3 4096 0])) demo_world.
Proof.
  split; [reflexivity|].
  apply (hpux_disk_list demo_dev_dir demo_getdisk [demo_psd 0 1 1 512 1024; demo_psd 3 0 2 0 0] (demo_psd 3 0 2 0 0)
           [demo_psd 5 1 3 4096 0] 4 1%positive demo_now); try done.
  - eapply (batches_more _ _ _ [_] _ []); [reflexivity..|]. by apply batches_end.
  - cbn. lia.
  - replace (enabled _) with [demo_psd 0 1 1 512 1024; demo_psd 5 1 3 4096 0] by reflexivity.
    apply Forall_cons. split; [|apply Forall_cons; split; [|constructor]]; (split; [by repeat constructor|by eexists]).
  - repeat constructor; cbn; lia.
  - apply demo_now_wf.
  - apply demo_heap.
  - apply not_elem_of_nil.
Defined.

(** A disk without a name in the directories gets its hardware path only in a fresh item: in one that an
    earlier call has used for another disk that disk's name stays. *)
Lemma stale_disk_name :
  match fill_diskinfo (fun _ => None) (demo_psd 7 1 9 10 20) (demo_disk "c0t1d0" 1 2 3) demo_env with
  | Done r _ => r = (SG_ERROR_NONE, demo_disk "c0t1d0" 10 20 1000)
  | Stuck _ => False
  end.
Proof. by vm_compute. Qed.
