(* ===== verification/MappingProps.v ===== *)
(** Theorems about the names of disks on Solaris. *)

From S2P Require Import Prelude Types CLib Errors Tools Vector Items Stdio ToolsExt ToolsSys Fill Demo.

(** * The list of drivers *)

Lemma take_while_length p s : (String.length (take_while p None s).1 <= String.length s)%nat.
Proof.
  induction s as [|c s IH]; [done|]. cbn. destruct (p c); [|apply Nat.le_0_l].
  change (match None with Some x => Some (Nat.pred x) | None => None end) with (@None nat).
  destruct (take_while p None s) as [t r]. cbn in IH |- *. by apply le_n_S.
Qed.

Lemma driver_name_short s : (String.length (driver_name s) < MAXPATHLEN)%nat.
Proof.
  unfold driver_name. eapply Nat.le_lt_trans; [apply take_while_length|].
  pose proof (substring_length (MAXPATHLEN - 1) 0 s). unfold MAXPATHLEN in *. lia.
Qed.

Lemma driver_known_spec d drivers : forall x,
  Forall (fun d => String.length d < MAXPATHLEN)%nat drivers -> (x + length drivers <= BIG_ENOUGH)%nat ->
  driver_known drivers x d = Some (bool_decide (d ∈ drivers)).
Proof.
  induction drivers as [|d' drivers IH]; intros x Hl Hx; cbn [driver_known].
  { by rewrite bool_decide_eq_false_2 by apply not_elem_of_nil. }
  apply Forall_cons in Hl as [Hd Hl]. cbn [length] in Hx.
  destruct (Nat.leb_spec BIG_ENOUGH x); [lia|].
  pose proof (strncmp_whole d' d MAXPATHLEN Hd).
  destruct (Z.eqb_spec (strncmp d' d MAXPATHLEN) 0) as [E|E].
  - rewrite bool_decide_eq_true_2; [done|]. apply elem_of_cons. left. symmetry. tauto.
  - rewrite IH by (done || lia). f_equal. apply bool_decide_ext. rewrite elem_of_cons. split; [by right|].
    intros [->|?]; [tauto | done].
Qed.

(** * What the machine says *)

Section names.
Context {mem : Memory} (tree : string -> list di_node) (entries : list dsk_entry) (chain : list disk_kstat).

(** The path of a minor node, and the first entry of the directory that links to it. *)
Definition minor_path (node : di_node) (minor_name : string) : string :=
  "/devices" +:+ (di_devfs_path node +:+ (":" +:+ minor_name)).

Definition links_to (path : string) (dp : dsk_entry) : bool :=
  bool_decide (d_stat dp = Some true) && bool_decide (d_link dp = Some ("../.." +:+ path)).

Definition svr_name (path : string) : option string := d_name <$> head (filter (fun dp => links_to path dp = true) entries).

(** The names of a node, if it has both, and of all nodes of a driver. *)
Definition node_names (alias : string) (node : di_node) : option (string * string) :=
  minor_name ← di_minor node; svr ← svr_name (minor_path node minor_name);
  Some (alias +:+ print_signed (di_instance node), svr).

Definition driver_names (alias : string) : list (string * string) := omap (node_names alias) (tree alias).

(** The disks of the chain, and their drivers in the order they appear first. *)
Definition is_disk (k : disk_kstat) : bool :=
  bool_decide (dk_class k = "disk") && dk_is_io k && negb (bool_decide (dk_module k = "md")) && dk_readable k.

Fixpoint drivers_after (seen : list string) (l : list disk_kstat) : list string :=
  match l with
  | [] => []
  | k :: l' =>
      let d := driver_name (dk_name k) in
      if is_disk k && bool_decide (d ∉ seen) then d :: drivers_after (seen ++ [d]) l' else drivers_after seen l'
  end.

Definition all_names : list (string * string) := drivers_after [] chain ≫= driver_names.

(** * The machine is as it should be *)

(** Every entry can be examined, every block device among them is a link, and the texts
    fit their buffers. *)
Definition entry_ok (dp : dsk_entry) : Prop :=
  no_nul (d_name dp) = true /\
  exists b, d_stat dp = Some b /\
    (b = true -> exists t, d_link dp = Some t /\ (String.length t < MAXPATHLEN)%nat).

Definition node_ok (alias : string) (node : di_node) : Prop :=
  (String.length (alias +:+ print_signed (di_instance node)) <= MAXPATHLEN)%nat /\
  no_nul (alias +:+ print_signed (di_instance node)) = true /\
  forall m, di_minor node = Some m -> (String.length ("../.." +:+ minor_path node m) < MAXPATHLEN)%nat.

(** A name stands for one disk. *)
Definition unambiguous (l : list (string * string)) : Prop := NoDup l.*1 /\ NoDup l.*2.

Lemma unknown_next l p rest : unambiguous (l ++ p :: rest) -> ~ known_pair l p.1 p.2.
Proof.
  intros [H1 H2] (q & Hq & Hor). rewrite fmap_app, fmap_cons in H1, H2.
  apply NoDup_app in H1 as (_ & H1 & _). apply NoDup_app in H2 as (_ & H2 & _).
  destruct Hor as [E|E].
  - apply (H1 (q.1)); [by apply list_elem_of_fmap_2|]. rewrite E. left.
  - apply (H2 (q.2)); [by apply list_elem_of_fmap_2|]. rewrite E. left.
Qed.

Lemma svr_of_named l p : unambiguous l -> p ∈ l -> svr_of l p.1 = p.2.
Proof.
  intros [HN _] Hp. induction l as [|q l IH]; [set_solver|]. cbn in *.
  apply NoDup_cons in HN as [Hq HN]. apply elem_of_cons in Hp as [->|Hp]; [by rewrite decide_True|].
  rewrite decide_False; [by apply IH|]. intros E. apply Hq. rewrite E. by apply list_elem_of_fmap_2.
Qed.

(** * The directory *)

Lemma links_to_spec path dp :
  links_to path dp = true <-> d_stat dp = Some true /\ d_link dp = Some ("../.." +:+ path).
Proof. unfold links_to. by rewrite andb_true_iff, !bool_decide_eq_true. Qed.

Lemma read_dir_loop_spec path (Q : char_ptr -> env -> Prop) e es : forall stbuf,
  (String.length ("../.." +:+ path) < MAXPATHLEN)%nat -> Forall entry_ok es -> (AFail ∉ e_allocs e) ->
  (forall e', calmer e e' ->
     Q (match d_name <$> head (filter (fun dp => links_to path dp = true) es) with Some n => CStr n | None => CNull end) e') ->
  wp (read_dir_loop ("../.." +:+ path) es stbuf) Q e.
Proof.
  induction es as [|dp es IH]; intros stbuf Hp Hes Ha HQ; cbn [read_dir_loop].
  { apply wp_ret, HQ. reflexivity. }
  apply Forall_cons in Hes as [(Hn & b & Hb & Hl) Hes]. rewrite Hb. cbn [default].
  rewrite filter_cons in HQ.
  destruct b; [|rewrite decide_False in HQ by (rewrite links_to_spec; intros [? _]; congruence); by apply IH].
  destruct (Hl eq_refl) as (t & Et & Ht). rewrite Et, substring_all by (unfold MAXPATHLEN in *; lia).
  destruct (Z.eqb_spec (strcmp t ("../.." +:+ path)) 0) as [E%strcmp_eq|E].
  - subst t. rewrite decide_True in HQ by by apply links_to_spec.
    apply wp_bind, wp_sg_update_string; [done | done | | done].
    intros e1 He1. cbn [fst snd]. rewrite decide_False by auto. by apply wp_ret, HQ.
  - rewrite decide_False in HQ; [by apply IH|]. rewrite links_to_spec. intros [_ El]. apply E, strcmp_eq. congruence.
Qed.

Lemma foldl_app_length l : forall s, (String.length s <= String.length (foldl String.append s l))%nat.
Proof.
  induction l as [|t l IH]; intros s; cbn; [done|]. specialize (IH (s +:+ t)). rewrite string_length_app in IH. lia.
Qed.

Lemma joined_fits size l : forall s,
  (String.length (foldl String.append s l) < size)%nat ->
  foldl (fun s t => vsnprintf size (s +:+ t)) s l = foldl String.append s l.
Proof.
  induction l as [|t l IH]; intros s Hs; cbn in *; [done|].
  pose proof (foldl_app_length l (s +:+ t)). rewrite vsnprintf_fits by lia. by apply IH.
Qed.

Lemma joined_path node m :
  (String.length (minor_path node m) < MAXPATHLEN)%nat ->
  joined MAXPATHLEN ["/devices"; di_devfs_path node; ":"; m] = minor_path node m.
Proof.
  intros H. unfold joined. rewrite joined_fits; cbn [foldl].
  - by rewrite !string_app_assoc.
  - by rewrite !string_app_assoc.
Qed.

(** * The whole mapping *)

Context (so : solaris).
Hypothesis Htree : so_tree so = Some tree.
Hypothesis Hdir : so_osa_dsk so = Some entries \/ (so_osa_dsk so = None /\ so_dsk so = inl entries).
Hypothesis Hentries : Forall entry_ok entries.
Hypothesis Hnodes : forall alias, Forall (node_ok alias) (tree alias).

Lemma wp_read_dir path (Q : char_ptr -> env -> Prop) e :
  (String.length ("../.." +:+ path) < MAXPATHLEN)%nat -> (AFail ∉ e_allocs e) ->
  (forall e', calmer e e' -> Q (match svr_name path with Some n => CStr n | None => CNull end) e') ->
  wp (read_dir so path) Q e.
Proof using Hdir Hentries.
  intros Hp Ha HQ. unfold read_dir. rewrite vsnprintf_fits by done.
  destruct Hdir as [-> | [-> ->]]; by apply read_dir_loop_spec.
Qed.

Lemma wp_alias_nodes alias nodes : forall l rest (Q : mapping_t -> env -> Prop) e,
  Forall (node_ok alias) nodes -> unambiguous (l ++ omap (node_names alias) nodes ++ rest) ->
  (AFail ∉ e_allocs e) ->
  (forall e', calmer e e' -> Q (mapping_of (l ++ omap (node_names alias) nodes)) e') ->
  wp (alias_nodes so alias nodes (mapping_of l)) Q e.
Proof using Hdir Hentries.
  induction nodes as [|node nodes IH]; intros l rest Q e Hn Hu Ha HQ; cbn [alias_nodes].
  { apply wp_ret. cbn in HQ. rewrite app_nil_r in HQ. apply HQ. reflexivity. }
  apply Forall_cons in Hn as [(Hlen & Ht & Hm) Hn]. cbn in Hu, HQ. unfold node_names at 1 in Hu. unfold node_names at 1 in HQ.
  destruct (di_minor node) as [m|]; [|by apply (IH l rest)]. specialize (Hm m eq_refl).
  assert (String.length (minor_path node m) < MAXPATHLEN)%nat by (rewrite string_length_app in Hm; lia).
  rewrite joined_path, vsnprintf_fits by lia. cbn [mbind option_bind] in Hu, HQ.
  apply wp_bind, wp_read_dir; [done | done |]. intros e1 He1.
  destruct (svr_name (minor_path node m)) as [svr|] eqn:Es.
  - set (bsd := alias +:+ print_signed (di_instance node)) in *. apply wp_bind, wp_ret, wp_bind.
    assert (no_nul svr = true) as Hsvr.
    { unfold svr_name in Es. apply fmap_Some in Es as (dp & Hdp & ->). apply head_Some_elem_of in Hdp.
      apply list_elem_of_filter in Hdp as [_ Hdp]. rewrite Forall_forall in Hentries. by apply Hentries in Hdp as [? _]. }
    eapply wp_mono.
    + apply (wp_add_mapping junk l bsd svr (fun mp e' => calmer e1 e' /\ mp = mapping_of (l ++ [(bsd, svr)]))); [done | done | calm | |].
      * intros e' _ Hk. by apply (unknown_next l (bsd, svr) (omap (node_names alias) nodes ++ rest)) in Hk.
      * done.
    + intros mp e2 [He2 ->]. apply (IH _ rest); [done | by rewrite <- app_assoc | calm |].
      intros e3 He3. rewrite <- app_assoc. apply HQ. trans e1; [done|]. by trans e2.
  - apply (IH l rest); [done | done | calm |]. intros e2 He2. apply HQ. by trans e1.
Qed.

Lemma wp_mapping_loop ks : forall seen l (Q : Z * mapping_t -> env -> Prop) e,
  Forall (fun d => String.length d < MAXPATHLEN)%nat seen ->
  (length seen + length (drivers_after seen ks) <= BIG_ENOUGH)%nat ->
  unambiguous (l ++ (drivers_after seen ks ≫= driver_names)) -> (AFail ∉ e_allocs e) ->
  (forall e', calmer e e' -> Q (0, mapping_of (l ++ (drivers_after seen ks ≫= driver_names))) e') ->
  wp (mapping_loop so ks seen (mapping_of l)) Q e.
Proof using Hdir Hentries Hnodes Htree.
  induction ks as [|k ks IH]; intros seen l Q e Hs Hb Hu Ha HQ; cbn [mapping_loop].
  { apply wp_ret. cbn in HQ. rewrite app_nil_r in HQ. apply HQ. reflexivity. }
  cbn [drivers_after] in Hb, Hu, HQ. set (d := driver_name (dk_name k)) in *. unfold is_disk in Hb, Hu, HQ.
  pose proof (strcmp_eq (dk_class k) "disk"). pose proof (strcmp_eq (dk_module k) "md").
  destruct (Z.eqb_spec (strcmp (dk_class k) "disk") 0) as [E|E]; cbn [negb].
  2: { rewrite bool_decide_eq_false_2 in Hb, Hu, HQ by tauto. cbn in Hb, Hu, HQ. by apply IH. }
  rewrite bool_decide_eq_true_2 in Hb, Hu, HQ by tauto.
  destruct (dk_is_io k); cbn [negb andb] in *; [|by apply IH].
  destruct (Z.eqb_spec (strcmp (dk_module k) "md") 0) as [E'|E'].
  { rewrite bool_decide_eq_true_2 in Hb, Hu, HQ by tauto. cbn in Hb, Hu, HQ. by apply IH. }
  rewrite (bool_decide_eq_false_2 (dk_module k = "md")) in Hb, Hu, HQ by tauto.
  destruct (dk_readable k); cbn [negb andb] in *; [|by apply IH].
  assert (length seen <= BIG_ENOUGH)%nat by lia. rewrite driver_known_spec by done.
  destruct (decide (d ∈ seen)) as [Hin|Hin].
  { rewrite (bool_decide_eq_false_2 (d ∉ seen)) in Hb, Hu, HQ by tauto. rewrite bool_decide_eq_true_2 by done. by apply IH. }
  rewrite (bool_decide_eq_true_2 (d ∉ seen)) in Hb, Hu, HQ by done. rewrite bool_decide_eq_false_2 by done.
  cbn [length] in Hb. set (next := drivers_after (seen ++ [d]) ks) in *.
  change ((d :: next) ≫= driver_names) with (driver_names d ++ (next ≫= driver_names)) in Hu, HQ.
  apply wp_bind. unfold get_alias. rewrite Htree.
  apply wp_bind. eapply wp_alias_nodes; [apply Hnodes | apply Hu | done |]. intros e1 He1. apply wp_ret.
  destruct (Nat.ltb_spec (length seen) BIG_ENOUGH); [|lia].
  apply IH.
  - apply Forall_app. split; [done|]. apply Forall_singleton, driver_name_short.
  - rewrite length_app. fold next. cbn [length]. lia.
  - by rewrite <- app_assoc.
  - calm.
  - intros e2 He2. rewrite <- app_assoc. apply HQ. by trans e1.
Qed.

(** On a machine whose disk entries are links, with at most 512 drivers and a name for one
    disk only, [build_mapping] succeeds, and afterwards [sg_get_svr_from_bsd] gives every
    disk that has an entry in the directory the name of that entry, and leaves the names of
    all others as they are. *)
Theorem disk_names_mapped bsd e :
  so_chain so = Some chain -> (length (drivers_after [] chain) <= BIG_ENOUGH)%nat ->
  unambiguous all_names -> (AFail ∉ e_allocs e) ->
  wp (r ← build_mapping so []; p ← sg_get_svr_from_bsd r.2 bsd; mret (r.1, p)) (fun r _ =>
    r.1 = 0 /\ (forall svr, (bsd, svr) ∈ all_names -> r.2 = CStr svr) /\
    (bsd ∉ all_names.*1 -> r.2 = CStr bsd)) e.
Proof using Hdir Hentries Hnodes Htree.
  intros Hc Hb Hu Ha. apply wp_bind. unfold build_mapping. rewrite Hc.
  apply (wp_mapping_loop chain [] []); [done | done | done | done |]. intros e1 He1.
  apply wp_bind, wp_get_svr, wp_ret. split; [done|]. split.
  - intros svr Hin. cbn. by rewrite (svr_of_named _ (bsd, svr)).
  - intros Hn. cbn. f_equal. fold all_names. clear -Hn. induction all_names as [|p l IH]; [done|]. cbn in *.
    rewrite decide_False by set_solver. apply IH. set_solver.
Qed.
End names.

(** * A machine with three disks *)

Definition demo_tree (driver : string) : list di_node :=
  if String.eqb driver "sd" then
    [mk_di_node 0 "/pci@1f,0/scsi@2/sd@0,0" (Some "a"); mk_di_node 1 "/pci@1f,0/scsi@2/sd@1,0" (Some "a");
     mk_di_node 2 "/pci@1f,0/scsi@2/sd@2,0" None]
  else if String.eqb driver "ssd" then [mk_di_node 7 "/pci@1f,0/fibre@4/ssd@7,0" (Some "a")] else [].

Definition demo_dsk : list dsk_entry :=
  [mk_dsk_entry "." (Some false) None;
   mk_dsk_entry "c0t0d0s0" (Some true) (Some "../../devices/pci@1f,0/scsi@2/sd@0,0:a");
   mk_dsk_entry "c1t7d0s0" (Some true) (Some "../../devices/pci@1f,0/fibre@4/ssd@7,0:a")].

Definition demo_chain : list disk_kstat :=
  [mk_disk_kstat "disk" true "sd" true "sd0"; mk_disk_kstat "net" true "hme" true "hme0";
   mk_disk_kstat "disk" true "sd" true "sd1"; mk_disk_kstat "disk" true "md" true "md10";
   mk_disk_kstat "disk" true "ssd" true "ssd7"].

Definition demo_solaris : solaris := mk_solaris None (inl demo_dsk) (Some demo_tree) (Some demo_chain) false.

Ltac by_running := apply (bool_decide_eq_true_1 _); vm_compute; reflexivity.

Lemma demo_dsk_ok : Forall entry_ok demo_dsk.
Proof.
  repeat apply Forall_cons_2; try apply Forall_nil_2;
    (split; [reflexivity|]; eexists; split; [reflexivity|]; intros H;
     first [discriminate H | (eexists; split; [reflexivity | by_running])]).
Qed.

Lemma demo_tree_ok alias : Forall (node_ok alias) (demo_tree alias).
Proof.
  unfold demo_tree.
  destruct (String.eqb_spec alias "sd") as [->|_]; [|destruct (String.eqb_spec alias "ssd") as [->|_]];
    repeat apply Forall_cons_2; try apply Forall_nil_2;
    (split; [by_running | split; [reflexivity | intros m [= <-]; by_running]]).
Qed.

Lemma disk_names_mapped_witness :
  all_names demo_tree demo_dsk demo_chain = [("sd0", "c0t0d0s0"); ("ssd7", "c1t7d0s0")] /\
  wp (r ← build_mapping demo_solaris []; p ← sg_get_svr_from_bsd r.2 "ssd7"; mret (r.1, p)) (fun r _ =>
    r.1 = 0 /\ (forall svr, ("ssd7", svr) ∈ all_names demo_tree demo_dsk demo_chain -> r.2 = CStr svr) /\
    ("ssd7" ∉ (all_names demo_tree demo_dsk demo_chain).*1 -> r.2 = CStr "ssd7")) demo_env.
Proof.
  assert (all_names demo_tree demo_dsk demo_chain = [("sd0", "c0t0d0s0"); ("ssd7", "c1t7d0s0")]) as E
    by (vm_compute; reflexivity).
  split; [exact E|].
  apply (disk_names_mapped demo_tree demo_dsk demo_chain demo_solaris).
  - reflexivity.
  - right. by split.
  - apply demo_dsk_ok.
  - apply demo_tree_ok.
  - reflexivity.
  - by_running.
  - rewrite E. split; by_running.
  - apply not_elem_of_nil.
Defined.

(** The list of drivers has room for 512; the test for it comes one driver too late, and
    the next one is written behind the array. *)
Definition many_drivers (n : nat) : list disk_kstat :=
  let letter i := ascii_of_nat (97 + i) in
  (fun i => mk_disk_kstat "disk" true "x" true
              (String (letter (i / 26)%nat) (String (letter (i mod 26)%nat) EmptyString))) <$> seq 0 n.

Lemma driver_list_overruns :
  build_mapping (mk_solaris None (inl []) (Some (fun _ => [])) (Some (many_drivers 513)) false) [] demo_env
    = Stuck out_of_bounds.
Proof. vm_compute. reflexivity. Qed.

(** A block device in the directory that is no link puts the terminator in front of the
    buffer. *)
Lemma plain_device_underruns :
  build_mapping (mk_solaris None (inl [mk_dsk_entry "c0t0d0" (Some true) None]) (Some demo_tree)
                   (Some demo_chain) false) [] demo_env = Stuck out_of_bounds.
Proof. vm_compute. reflexivity. Qed.
