(* ===== verification/ProcTextProps.v ===== *)
(** From the texts of /proc to the list of processes: the scan of the stat file with the
    format that is made from the command name, the status file, and the loop over all
    processes. *)

From S2P Require Import Prelude Types CLib Errors Tools Vector VectorSpec VectorDiff Items Comp Stdio ScanFields ToolsExt Fill Single Disk Demo Process.

Local Open Scope sg_scope.

(** * The command name in the stat file *)

(** The runs of white space of a text, behind white space or not. *)
Fixpoint space_runs (in_space : bool) (s : string) : nat :=
  match s with
  | EmptyString => 0
  | String c s' => if isspace c then (if in_space then 0 else 1) + space_runs true s' else space_runs false s'
  end%nat.

(** One more ["%*s"]. *)
Definition one_word (jmp : string) : string := strncat_buf 32 (strncat_buf 32 jmp " ") "%*s".

Lemma space_runs_skip s : space_runs true s = space_runs true (skip_white s).
Proof.
  induction s as [|c s IH]; [done|]. unfold skip_white in *. cbn [space_runs take_while]. destruct (isspace c) eqn:E.
  - rewrite IH. cbn. by destruct (take_while isspace None s).
  - cbn. by rewrite E.
Qed.

Lemma skip_white_first s : match skip_white s with EmptyString => True | String c _ => isspace c = false end.
Proof.
  induction s as [|c s IH]; [done|]. unfold skip_white in *. cbn [take_while]. destruct (isspace c) eqn:E; [|done].
  cbn. by destruct (take_while isspace None s).
Qed.

Lemma skip_white_length s : (String.length (skip_white s) <= String.length s)%nat.
Proof.
  induction s as [|c s IH]; [done|]. unfold skip_white in *. cbn [take_while]. destruct (isspace c) eqn:E; [|done].
  cbn. destruct (take_while isspace None s). cbn in *. lia.
Qed.

(** The loop adds a word for every run. *)
Lemma comm_jmp_loop_spec fuel : forall tok jmp,
  (String.length tok <= fuel)%nat ->
  comm_jmp_loop fuel tok jmp = Nat.iter (space_runs false tok) one_word jmp.
Proof.
  induction fuel as [|fuel IH]; intros [|c tok] jmp Hf; try done; [simpl in Hf; lia|].
  cbn [comm_jmp_loop space_runs]. cbn [String.length] in Hf. destruct (isspace c) eqn:E; [|apply IH; lia].
  replace ((take_while isspace None (String c tok)).2) with (skip_white tok)
    by (unfold skip_white; cbn [take_while]; rewrite E; cbn; by destruct (take_while isspace None tok)).
  rewrite space_runs_skip. pose proof (skip_white_first tok) as Hw. pose proof (skip_white_length tok).
  rewrite Nat.iter_add. destruct (skip_white tok) as [|x t]; [done|]. cbn [space_runs]. rewrite Hw.
  rewrite IH by (cbn in *; lia). rewrite <- Nat.iter_add, Nat.add_comm, Nat.iter_add. done.
Qed.

(** * The format *)

Definition word_dir : directive := DConv true None 32 Cs.

(** The words of the command name and its parentheses. *)
Definition word_dirs (k : nat) : list directive := word_dir :: mjoin (replicate k [DWhite; word_dir]).

Definition sd : nfield := mk_nfield true 32 true.
Definition su : nfield := mk_nfield true 32 false.
Definition d32 : nfield := mk_nfield false 32 true.
Definition u64f : nfield := mk_nfield false 64 false.

(** The numbers behind the state. *)
Definition stat_fields : list nfield :=
  [d32; d32] ++ ([sd; sd; sd] ++ replicate 5 su) ++ [u64f; u64f] ++ [sd; sd; sd] ++ [d32] ++ [sd; sd] ++
  [u64f; u64f; u64f] ++ (replicate 13 su ++ [sd; sd]).

(** The format that belongs to a command name of at most eight words. *)
Lemma stat_format comm :
  (space_runs false comm <= 7)%nat ->
  parse_format (String.length (proc_stat_fmt comm)) (proc_stat_fmt comm)
    = nf_dir d32 :: DWhite :: word_dirs (space_runs false comm) ++
      DWhite :: DConv false None 32 Cc :: fields_dirs stat_fields.
Proof.
  intros Hk. unfold proc_stat_fmt, comm_jmp. rewrite comm_jmp_loop_spec by done.
  revert Hk. generalize (space_runs false comm). intros k Hk.
  do 8 (destruct k as [|k]; [vm_compute; reflexivity|]). lia.
Qed.

(** * The text of the stat file *)

Definition closing : string := ")".

Lemma word_dirs_S k : word_dirs (S k) = word_dir :: DWhite :: word_dirs k.
Proof. done. Qed.

Lemma snoc_text t c (r : string) : t +:+ String c r = (t +:+ String c EmptyString) +:+ r.
Proof. by rewrite string_app_assoc. Qed.

(** The scan goes over the name with all its words: [t] is the beginning of a word that has
    been seen, or there is white space before. *)
Lemma scan_words ds r vals comm :
  at_blank r ->
  (forall t, all_chars not_space t = true -> t <> EmptyString ->
     scan (word_dirs (space_runs false comm) ++ ds) (t +:+ (comm +:+ (closing +:+ r))) vals = scan ds r vals) /\
  scan (DWhite :: word_dirs (space_runs true comm) ++ ds) (comm +:+ (closing +:+ r)) vals = scan ds r vals.
Proof.
  intros Hr. induction comm as [|c comm [IHA IHB]].
  { split; [|by apply (scan_skip_word ds closing)]. intros t Ht Hne.
    change (EmptyString +:+ (closing +:+ r)) with (closing +:+ r). rewrite <- string_app_assoc.
    apply scan_skip_word; [|by destruct t|done]. rewrite all_chars_app, Ht. done. }
  change (String c comm +:+ ?x) with (String c (comm +:+ x)). cbn [space_runs]. destruct (isspace c) eqn:E.
  - split.
    + intros t Ht Hne. change (1 + space_runs true comm)%nat with (S (space_runs true comm)). rewrite word_dirs_S.
      cbn [app]. rewrite scan_skip_word by done. rewrite <- IHB. cbn [scan]. f_equal.
      unfold skip_white. cbn [take_while]. rewrite E. cbn. by destruct (take_while isspace None _).
    + rewrite <- IHB. cbn [scan Nat.add]. f_equal.
      unfold skip_white. cbn [take_while]. rewrite E. cbn. by destruct (take_while isspace None _).
  - split.
    + intros t Ht Hne. rewrite snoc_text. apply IHA; [|by destruct t].
      rewrite all_chars_app, Ht. cbn. unfold not_space. by rewrite E.
    + cbn [scan]. assert (skip_white (String c (comm +:+ (closing +:+ r))) = String c EmptyString +:+ (comm +:+ (closing +:+ r))) as ->
        by (unfold skip_white; cbn [take_while]; by rewrite E).
      apply IHA; [|done]. cbn. unfold not_space. by rewrite E.
Qed.

(** The state behind the name. *)
Lemma scan_state ds c r vals :
  isspace c = false ->
  scan (DWhite :: DConv false None 32 Cc :: ds) (" " +:+ (String c EmptyString +:+ r)) vals
    = scan ds r (vals ++ [VStr (String c EmptyString)]).
Proof.
  intros Hc. change (" " +:+ ?x) with (String " " x). cbn [scan]. unfold skip_white. cbn [take_while isspace].
  change (String c EmptyString +:+ r) with (String c r). cbn [take_while]. rewrite Hc. done.
Qed.

(** What the kernel prints, with the numbers the library does not look at in four groups. *)
Record proc_stat := mk_proc_stat {
  st_pid : Z; st_comm : string; st_state : ascii; st_ppid : Z; st_pgrp : Z; st_group1 : list Z;
  st_utime : Z; st_stime : Z; st_group2 : list Z; st_nice : Z; st_group3 : list Z;
  st_starttime : Z; st_vsize : Z; st_rss : Z; st_group4 : list Z; st_rest : string }.

Definition spaced_fields (fs : list nfield) (zs : list Z) : fields := zip_with (fun f z => (f, " ", z)) fs zs.

Definition stat_numbers (s : proc_stat) : fields :=
  spaced_fields [d32; d32] [st_ppid s; st_pgrp s] ++
  spaced_fields ([sd; sd; sd] ++ replicate 5 su) (st_group1 s) ++
  spaced_fields [u64f; u64f] [st_utime s; st_stime s] ++ spaced_fields [sd; sd; sd] (st_group2 s) ++
  spaced_fields [d32] [st_nice s] ++ spaced_fields [sd; sd] (st_group3 s) ++
  spaced_fields [u64f; u64f; u64f] [st_starttime s; st_vsize s; st_rss s] ++
  spaced_fields (replicate 13 su ++ [sd; sd]) (st_group4 s).

Definition stat_text (s : proc_stat) : string :=
  print_signed (st_pid s) +:+ (" " +:+ ("(" +:+ (st_comm s +:+ (closing +:+
  (" " +:+ (String (st_state s) EmptyString +:+ fields_text (stat_numbers s) (st_rest s))))))).

Record stat_ok (s : proc_stat) : Prop := {
  so_words : (space_runs false (st_comm s) <= 7)%nat;
  so_char : isspace (st_state s) = false;
  so_ids : in_s32 (st_pid s) /\ in_s32 (st_ppid s) /\ in_s32 (st_pgrp s) /\ in_s32 (st_nice s);
  so_counts : in_u64 (st_utime s) /\ in_u64 (st_stime s) /\ in_u64 (st_starttime s) /\
              in_u64 (st_vsize s) /\ in_u64 (st_rss s);
  so_groups : length (st_group1 s) = 8%nat /\ length (st_group2 s) = 3%nat /\ length (st_group3 s) = 2%nat /\
              length (st_group4 s) = 15%nat;
  so_other : Forall (fun z => - 2 ^ 63 <= z < 2 ^ 64) (st_group1 s ++ st_group2 s ++ st_group3 s ++ st_group4 s);
  so_rest : at_blank (st_rest s) }.

Lemma spaced_fields_ok fs zs :
  Forall (fun f => 0 < nf_bits f) fs -> Forall2 nf_in fs zs -> Forall field_ok (spaced_fields fs zs).
Proof.
  intros Hb H. induction H as [|f z fs zs Hz H IH]; [constructor|]. apply Forall_cons in Hb as [Hb Hbs].
  constructor; [by split_and! | auto].
Qed.

(** Numbers that are skipped may be any the kernel prints, -1 and 2^64 - 1 included. *)
Lemma all_in fs zs :
  Forall (fun f => nf_skip f = true) fs -> length zs = length fs -> Forall (fun z => - 2 ^ 63 <= z < 2 ^ 64) zs ->
  Forall2 nf_in fs zs.
Proof.
  intros HF. revert zs. induction HF as [|f fs Hf _ IH]; intros [|z zs] Hl Hz; try done.
  apply Forall_cons in Hz as [Hz Hzs]. constructor; [unfold nf_in; rewrite Hf; lia | apply IH; cbn in *; [lia | done]].
Qed.

Lemma fields_of_spaced fs zs : length zs = length fs -> (spaced_fields fs zs).*1.*1 = fs.
Proof.
  revert zs. induction fs as [|f fs IH]; intros [|z zs] Hl; try done. cbn. f_equal. apply IH. cbn in Hl. lia.
Qed.

Lemma skipped_no_value fs zs : Forall (fun f => nf_skip f = true) fs -> fields_vals (spaced_fields fs zs) = [].
Proof.
  intros H. revert zs. induction H as [|f fs Hf H IH]; intros [|z zs]; try done. cbn. rewrite Hf. apply IH.
Qed.

Lemma fields_vals_app l1 l2 : fields_vals (l1 ++ l2) = fields_vals l1 ++ fields_vals l2.
Proof. unfold fields_vals. by rewrite omap_app. Qed.

Lemma stat_numbers_ok s : stat_ok s -> Forall field_ok (stat_numbers s).
Proof.
  intros [_ _ (_ & ? & ? & ?) (? & ? & ? & ? & ?) (G1 & G2 & G3 & G4) Ho _]. unfold in_s32, in_u64 in *.
  apply Forall_app in Ho as [O1 Ho]. apply Forall_app in Ho as [O2 Ho]. apply Forall_app in Ho as [O3 O4].
  unfold stat_numbers. repeat (apply Forall_app; split);
    (apply spaced_fields_ok; [repeat constructor | first [by apply all_in; [repeat constructor|..] | repeat constructor; unfold nf_in; cbn; lia]]).
Qed.

Lemma stat_numbers_fields s : stat_ok s -> (stat_numbers s).*1.*1 = stat_fields.
Proof.
  intros [_ _ _ _ (G1 & G2 & G3 & G4) _ _]. unfold stat_numbers. rewrite !fmap_app.
  rewrite !fields_of_spaced by done. done.
Qed.

Lemma stat_numbers_vals s :
  stat_ok s -> fields_vals (stat_numbers s)
    = VInt <$> [st_ppid s; st_pgrp s; st_utime s; st_stime s; st_nice s; st_starttime s; st_vsize s; st_rss s].
Proof.
  intros [_ _ (_ & ? & ? & ?) (? & ? & ? & ? & ?) _ _ _]. unfold in_s32, in_u64 in *. unfold stat_numbers.
  rewrite !fields_vals_app. rewrite !(skipped_no_value (_ ++ _)) by (repeat constructor).
  rewrite !(skipped_no_value (sd :: _)) by (repeat constructor). cbn. unfold nf_value. cbn.
  rewrite !swrap_small, !wrap_small by lia. done.
Qed.

Lemma stat_scanned s :
  stat_ok s ->
  sscanf (stat_text s) (proc_stat_fmt (st_comm s))
    = (10, VInt (st_pid s) :: VStr (String (st_state s) EmptyString) ::
           (VInt <$> [st_ppid s; st_pgrp s; st_utime s; st_stime s; st_nice s; st_starttime s; st_vsize s; st_rss s])).
Proof.
  intros Hs. pose proof Hs as [Hw Hc (Hp & _) _ _ _ Hr]. unfold in_s32 in *. unfold sscanf.
  rewrite stat_format by done. unfold stat_text. cbn [scan]. unfold nf_dir at 1.
  rewrite (convert_field d32); [|done | done | unfold nf_in; cbn; lia | done]. unfold nf_value at 1. cbn [d32 nf_signed nf_bits nf_skip].
  rewrite swrap_small by lia. cbn [app].
  change (skip_white (" " +:+ ?x)) with (skip_white x).
  change (skip_white ("(" +:+ ?x)) with ("(" +:+ x).
  set (rest := " " +:+ _).
  destruct (scan_words (DWhite :: DConv false None 32 Cc :: fields_dirs stat_fields) rest [VInt (st_pid s)] (st_comm s)) as [H _]; [done|].
  rewrite H by done. subst rest. clear H. rewrite scan_state by done.
  rewrite <- (stat_numbers_fields s), <- (app_nil_r (fields_dirs _)), scan_fields; [|by apply stat_numbers_ok | done | done].
  by rewrite stat_numbers_vals.
Qed.

(** C34: The scan of a stat file, with the format that was made from the command name, delivers
    the ten values the kernel printed: for names with white space and parentheses too, as
    long as they have at most seven runs of white space, and with any numbers of 64 bits,
    negative ones included, in the columns that are skipped. *)
Theorem proc_stat_roundtrip s :
  stat_ok s ->
  sscanf (stat_text s) (proc_stat_fmt (st_comm s))
    = (10, VInt (st_pid s) :: VStr (String (st_state s) EmptyString) ::
           (VInt <$> [st_ppid s; st_pgrp s; st_utime s; st_stime s; st_nice s; st_starttime s; st_vsize s; st_rss s])).
Proof. apply stat_scanned. Qed.

Definition demo_stat : proc_stat :=
  mk_proc_stat 4711 "Web (x) y" "S" 1 4711 [4711; 0; -1; 4194304; 100; 0; 3; 0] 1234 567 [0; 0; 20] (-5) [4; 0]
    98765 123456789 2048 [18446744073709551615; 1; 2; 3; 4; 5; 0; 0; 4096; 17; 0; 0; 0; 17; 3] (String newline EmptyString).

Lemma demo_stat_ok : stat_ok demo_stat.
Proof.
  split; cbn -[Z.pow]; unfold in_s32, in_u64; split_and?; try reflexivity; try lia; try (repeat (constructor; [lia|]); constructor).
  vm_compute. lia.
Defined.

Lemma proc_stat_roundtrip_witness :
  sscanf (stat_text demo_stat) (proc_stat_fmt "Web (x) y")
    = (10, [VInt 4711; VStr "S"; VInt 1; VInt 4711; VInt 1234; VInt 567; VInt (-5); VInt 98765; VInt 123456789; VInt 2048]).
Proof. exact (proc_stat_roundtrip demo_stat demo_stat_ok). Defined.

(** A name with eight gaps, at both of its ends and between seven letters, has one word
    more than the format: the scan stops at the state and the process is left out. *)
Lemma eight_gaps_lose_process :
  let comm := " a b c d e f g " in
  space_runs false comm = 8%nat /\
  sscanf ("4711 (" +:+ comm +:+ ") S 1 4711 4711 0 -1 4194304 100 0 3 0 12 5 0 0 20 0 1 0 98 1000 20 0") (proc_stat_fmt comm)
    = (2, [VInt 4711; VStr ")"]).
Proof. by vm_compute. Qed.
