(* ===== verification/ProcListProps.v ===== *)
(** From /proc to the list of processes on Linux: the names in the directory, and the four
    files of every process. *)

From S2P Require Import Prelude Types CLib Errors Tools Vector VectorSpec VectorDiff Items Comp Stdio ScanFields ToolsExt Fill Single Disk Demo Process ProcessProps ProcTextProps.

Local Open Scope sg_scope.

Definition tab : string := String "009" EmptyString.
Definition nl : string := String newline EmptyString.

(** * Looking for a line *)

(** A line without its end that is read with one call and does not have the prefix. *)
Definition other_line (prefix t : string) : Prop :=
  all_chars not_newline t = true /\ (String.length t < 4095)%nat /\ String.prefix prefix (t +:+ nl) = false.

Definition wanted_line (prefix t : string) : Prop :=
  all_chars not_newline t = true /\ (String.length t < 4095)%nat /\ String.prefix prefix (t +:+ nl) = true.

Definition lines_text (ls : list string) (r : string) : string := foldr (fun t r => t +:+ (nl +:+ r)) r ls.

Lemma fgets_line t r :
  all_chars not_newline t = true -> (String.length t < 4095)%nat ->
  fgets 4096 (t +:+ (nl +:+ r)) = Some (t +:+ nl, r).
Proof.
  intros Ht Hl. unfold nl. change (String newline EmptyString +:+ r) with (String newline r). unfold fgets.
  assert (exists c f, t +:+ String newline r = String c f) as (c & f & E) by (destruct t; eexists _, _; reflexivity).
  rewrite E, <- E. by rewrite take_line_short.
Qed.

Lemma read_line_behind prefix before t r :
  Forall (other_line prefix) before -> wanted_line prefix t ->
  sg_f_read_line (lines_text before (t +:+ (nl +:+ r))) 4096 prefix = Some (t +:+ nl, r).
Proof.
  intros HF (Ht & Hl & Hp). unfold sg_f_read_line.
  assert (forall fuel, (length before < fuel)%nat ->
    read_line_loop fuel 4096 prefix (lines_text before (t +:+ (nl +:+ r))) = Some (t +:+ nl, r)) as H.
  { induction HF as [|x before (Hx & Hxl & Hxp) HF IH]; intros [|fuel] Hf; cbn [length] in Hf; try lia.
    - cbn [lines_text foldr read_line_loop]. rewrite fgets_line by done.
      pose proof (strncmp_prefix prefix (t +:+ nl)) as Hz. by rewrite (proj2 Hz Hp).
    - cbn [lines_text foldr read_line_loop]. rewrite fgets_line by done.
      pose proof (strncmp_prefix prefix (x +:+ nl)) as Hz.
      rewrite (proj2 (Z.eqb_neq _ 0)) by (intros E%Hz; congruence). apply IH. lia. }
  apply H. clear. induction before as [|x before IH]; cbn [lines_text foldr length].
  - rewrite string_length_app. change (nl +:+ r) with (String newline r). cbn [String.length]. lia.
  - rewrite string_length_app. change (nl +:+ ?y) with (String newline y). cbn [String.length].
    fold (lines_text before (t +:+ (nl +:+ r))). lia.
Qed.

(** * The status file *)

Definition u32f : nfield := mk_nfield false 32 false.

(** The line of the four user or group ids. *)
Definition ids_line (tag : string) (a b c d : Z) : string :=
  tag +:+ fields_text [(u32f, tab, a); (u32f, tab, b); (sd, tab, c); (sd, tab, d)] EmptyString.

Definition switches_line (tag : string) (n : Z) : string := tag +:+ fields_text [(u64f, tab, n)] EmptyString.

Lemma print_signed_chars (q : ascii -> bool) z :
  (forall c, isdigit c = true -> q c = true) -> q "-"%char = true -> all_chars q (print_signed z) = true.
Proof.
  intros Hd Hm. unfold print_signed. destruct (Z.ltb_spec z 0).
  - destruct (print_unsigned_digits (- z)) as (H1 & _ & _); [lia|]. cbn. rewrite Hm. revert H1. by apply all_chars_impl.
  - destruct (print_unsigned_digits z) as (H1 & _ & _); [lia|]. revert H1. by apply all_chars_impl.
Qed.

Lemma nf_text_chars (q : ascii -> bool) f z :
  nf_in f z -> (forall c, isdigit c = true -> q c = true) -> q "-"%char = true -> all_chars q (nf_text f z) = true.
Proof.
  intros Hz Hd Hm. unfold nf_text, nf_in in *. destruct (nf_skip f); [by apply print_signed_chars|]. cbn [orb].
  destruct (nf_signed f); [by apply print_signed_chars|].
  destruct (print_unsigned_digits z) as (H1 & _ & _); [lia|]. revert H1. by apply all_chars_impl.
Qed.

Lemma digit_not_newline c : isdigit c = true -> not_newline c = true.
Proof. intros H. apply bool_decide_eq_true. intros ->. done. Qed.

(** A line of a tag and numbers behind tabs is scanned by the format of the tag and the
    conversions. *)
Lemma scan_tagged tag l fmt more :
  Forall field_ok l -> parse_format (String.length fmt) fmt
    = (DLit <$> String.list_ascii_of_string tag) ++ fields_dirs l.*1.*1 ++ more ->
  more = [] \/ more = [DWhite] ->
  sscanf ((tag +:+ fields_text l EmptyString) +:+ nl) fmt = (Z.of_nat (length (fields_vals l)), fields_vals l).
Proof.
  intros Hl Hf Hm. unfold sscanf. rewrite Hf, string_app_assoc, scan_literal.
  assert (fields_text l EmptyString +:+ nl = fields_text l nl) as ->.
  { clear. induction l as [|[[f sp] z] l IH]; [done|]. cbn [fields_text]. by rewrite !string_app_assoc, IH. }
  rewrite scan_fields by done. by destruct Hm as [-> | ->].
Qed.

Lemma tabbed_ok f z : 0 < nf_bits f -> nf_in f z -> field_ok (f, tab, z).
Proof. intros Hb Hz. by split_and!. Qed.

Lemma ids_scan tag fmt a b c d :
  in_u32 a -> in_u32 b -> in_s64 c -> in_s64 d -> - 2 ^ 63 < c -> - 2 ^ 63 < d ->
  parse_format (String.length fmt) fmt
    = (DLit <$> String.list_ascii_of_string tag) ++ fields_dirs [u32f; u32f; sd; sd] ++ [DWhite] ->
  sscanf (ids_line tag a b c d +:+ nl) fmt = (2, [VInt a; VInt b]).
Proof.
  unfold in_u32, in_s64. intros Ha Hb Hc Hd Hc' Hd' Hf. unfold ids_line.
  rewrite (scan_tagged tag _ fmt [DWhite]); [|repeat (apply Forall_cons; split; [by apply tabbed_ok; unfold nf_in; cbn; lia|]); by apply Forall_nil | done | by right].
  cbn. unfold nf_value. cbn. by rewrite !wrap_small by lia.
Qed.

Lemma switches_scan tag fmt n :
  in_u64 n -> parse_format (String.length fmt) fmt
    = (DLit <$> String.list_ascii_of_string tag) ++ fields_dirs [u64f] ++ [] ->
  sscanf (switches_line tag n +:+ nl) fmt = (1, [VInt n]).
Proof.
  unfold in_u64. intros Hn Hf. unfold switches_line.
  rewrite (scan_tagged tag _ fmt []); [|repeat (apply Forall_cons; split; [by apply tabbed_ok; unfold nf_in; cbn; lia|]); by apply Forall_nil | done | by left].
  cbn. unfold nf_value. cbn. by rewrite wrap_small by lia.
Qed.

Lemma fields_line_short tag l :
  all_chars not_newline tag = true -> (String.length tag <= 100)%nat -> (length l <= 10)%nat ->
  Forall (fun p => p.1.2 = tab /\ nf_in p.1.1 p.2) l ->
  all_chars not_newline (tag +:+ fields_text l EmptyString) = true /\
  (String.length (tag +:+ fields_text l EmptyString) < 4095)%nat.
Proof.
  intros Ht Hl Hn HF. rewrite all_chars_app, Ht, string_length_app. cbn [andb].
  assert (all_chars not_newline (fields_text l EmptyString) = true /\
          (String.length (fields_text l EmptyString) <= length l * 22)%nat) as [H1 H2]; [|split; [done | lia]].
  clear Ht Hn. induction HF as [|[[f sp] z] l [E Hz] HF [IH1 IH2]]; [done|]. cbn [fst snd] in *. subst sp.
  cbn [fields_text length]. rewrite !all_chars_app, !string_length_app, IH1.
  rewrite (nf_text_chars not_newline f z) by (done || apply digit_not_newline).
  split; [done|]. pose proof (nf_text_length f z Hz). cbn [tab String.length]. lia.
Qed.

Lemma prefix_tag tag x : String.prefix tag (tag +:+ x) = true.
Proof.
  induction tag as [|c tag IH]; [by destruct x|]. change (String c tag +:+ x) with (String c (tag +:+ x)). cbn.
  by destruct (ascii_dec c c).
Qed.

Lemma ids_line_wanted tag a b c d :
  all_chars not_newline tag = true -> (String.length tag <= 100)%nat ->
  in_u32 a -> in_u32 b -> in_s64 c -> in_s64 d -> - 2 ^ 63 < c -> - 2 ^ 63 < d ->
  wanted_line tag (ids_line tag a b c d).
Proof.
  unfold in_u32, in_s64. intros. unfold wanted_line, ids_line. split_and!.
  1,2: apply fields_line_short; [done | done | cbn; lia |];
       repeat (apply Forall_cons; split; [split; [done | unfold nf_in; cbn; lia]|]); by apply Forall_nil.
  rewrite string_app_assoc. apply prefix_tag.
Qed.

Lemma switches_line_wanted tag n :
  all_chars not_newline tag = true -> (String.length tag <= 100)%nat -> in_u64 n ->
  wanted_line tag (switches_line tag n).
Proof.
  unfold in_u64. intros. unfold wanted_line, switches_line. split_and!.
  1,2: apply fields_line_short; [done | done | cbn; lia |];
       repeat (apply Forall_cons; split; [split; [done | unfold nf_in; cbn; lia]|]); by apply Forall_nil.
  rewrite string_app_assoc. apply prefix_tag.
Qed.

(** * One process *)

(** What the kernel shows of a process: the contents of stat; the ids, the context
    switches and the other lines of status; the arguments. *)
Record proc := mk_proc {
  pr_stat : proc_stat;
  pr_uid : Z; pr_euid : Z; pr_suid : Z; pr_fsuid : Z;
  pr_gid : Z; pr_egid : Z; pr_sgid : Z; pr_fsgid : Z;
  pr_vol : Z; pr_invol : Z;
  pr_before_uid : list string; pr_before_gid : list string;
  pr_before_vol : list string; pr_before_invol : list string; pr_behind : string;
  pr_args : list (list ascii) }.

Definition pr_comm (p : proc) : string := st_comm (pr_stat p).

Definition vol_tag : string := "voluntary_ctxt_switches:".
Definition invol_tag : string := "nonvoluntary_ctxt_switches:".

Definition status_text (p : proc) : string :=
  lines_text (pr_before_uid p) (ids_line "Uid:" (pr_uid p) (pr_euid p) (pr_suid p) (pr_fsuid p) +:+ (nl +:+
  lines_text (pr_before_gid p) (ids_line "Gid:" (pr_gid p) (pr_egid p) (pr_sgid p) (pr_fsgid p) +:+ (nl +:+
  lines_text (pr_before_vol p) (switches_line vol_tag (pr_vol p) +:+ (nl +:+
  lines_text (pr_before_invol p) (switches_line invol_tag (pr_invol p) +:+ (nl +:+ pr_behind p)))))))).

Record status_ok (p : proc) : Prop := {
  su_ids : Forall in_u32 [pr_uid p; pr_euid p; pr_suid p; pr_fsuid p; pr_gid p; pr_egid p; pr_sgid p; pr_fsgid p];
  su_switches : in_u64 (pr_vol p) /\ in_u64 (pr_invol p);
  su_uid : Forall (other_line "Uid:") (pr_before_uid p);
  su_gid : Forall (other_line "Gid:") (pr_before_gid p);
  su_vol : Forall (other_line vol_tag) (pr_before_vol p);
  su_invol : Forall (other_line invol_tag) (pr_before_invol p) }.

(** The ids and the switches are found and read. *)
Lemma read_status_of p d :
  status_ok p ->
  read_status (status_text p) d
    = (true, ps_set_switches (pr_vol p +u pr_invol p) (pr_vol p) (pr_invol p)
               (ps_set_ids (pr_uid p) (pr_euid p) (pr_gid p) (pr_egid p) d)).
Proof.
  intros [Hids [Hv Hi] H1 H2 H3 H4]. unfold in_u64, in_u32 in *. repeat apply Forall_cons in Hids as [? Hids].
  assert (forall tag a b c x, tag = "Uid:" \/ tag = "Gid:" -> 0 <= a < 2 ^ 32 -> 0 <= b < 2 ^ 32 -> 0 <= c < 2 ^ 32 ->
    0 <= x < 2 ^ 32 -> wanted_line tag (ids_line tag a b c x)) as Hw.
  { intros tag a b c x Htag ? ? ? ?.
    apply ids_line_wanted; try (by destruct Htag as [-> | ->]); unfold in_u32, in_s64; try lia.
    destruct Htag as [-> | ->]; cbn; lia. }
  unfold read_status, status_text.
  rewrite read_line_behind by (try apply Hw; by auto).
  rewrite ids_scan; [|unfold in_u32, in_s64; lia..|done].
  rewrite read_line_behind by (try apply Hw; by auto).
  rewrite ids_scan; [|unfold in_u32, in_s64; lia..|done].
  rewrite read_line_behind; [|done | by apply switches_line_wanted; [|cbn; lia|]].
  rewrite switches_scan by done.
  rewrite read_line_behind; [|done | by apply switches_line_wanted; [|cbn; lia|]].
  rewrite switches_scan by done.
  done.
Qed.

(** ** What is stored *)

(** The arguments with a space between them. *)
Fixpoint joined_args (args : list (list ascii)) : list ascii :=
  match args with
  | [] => []
  | [a] => a
  | a :: args' => a ++ space :: joined_args args'
  end.

Lemma joined_snoc args last : joined_args (args ++ [last]) = spaced args ++ last.
Proof.
  induction args as [|a args IH]; [done|]. unfold spaced in *. cbn. unfold mjoin, list_join in *.
  rewrite <- !app_assoc. cbn. rewrite <- IH. by destruct args.
Qed.

(** The title: the arguments, or the name of a process that has none (a kernel thread). *)
Definition title_of (p : proc) : string :=
  match pr_args p with
  | [] => "[" +:+ pr_comm p +:+ "]"
  | args => String.string_of_list_ascii (joined_args args)
  end.

Section list.
Context {mem : Memory} {sys : System} (tickspersec uptime : Z).

Definition cpu_of (p : proc) : double :=
  let s := pr_stat p in
  double_div (double_mul (double_of 100) (double_of (st_utime s + st_stime s)))
    (double_sub (double_mul (double_of uptime) (double_of 100)) (double_of (st_starttime s))).

(** The states by the letter of the kernel: uninterruptible sleep counts as stopped. *)
Definition state_of (c : ascii) : sg_process_state :=
  if decide (c = "R"%char) then SG_PROCESS_STATE_RUNNING
  else if decide (c = "S"%char) then SG_PROCESS_STATE_SLEEPING
  else if decide (c = "D"%char \/ c = "T"%char) then SG_PROCESS_STATE_STOPPED
  else if decide (c = "Z"%char) then SG_PROCESS_STATE_ZOMBIE
  else SG_PROCESS_STATE_UNKNOWN.

Lemma process_state_of c : process_state (String c EmptyString) = state_of c.
Proof. by destruct c as [[] [] [] [] [] [] [] []]. Qed.

(** The structure of a process; the session is not read on Linux. *)
Definition process_of (p : proc) (sessid : Z) : sg_process_stats :=
  let s := pr_stat p in
  {| ps_process_name := CStr (pr_comm p); ps_proctitle := CStr (title_of p);
     ps_pid := st_pid s; ps_parent := st_ppid s; ps_pgid := st_pgrp s; ps_sessid := sessid;
     ps_uid := pr_uid p; ps_euid := pr_euid p; ps_gid := pr_gid p; ps_egid := pr_egid p;
     ps_context_switches := (pr_vol p + pr_invol p) mod 2 ^ 64;
     ps_voluntary_context_switches := pr_vol p; ps_involuntary_context_switches := pr_invol p;
     ps_proc_size := st_vsize s; ps_proc_resident := (st_rss s + 3) * sys_page_size;
     ps_start_time := sys_time - uptime + st_starttime s / tickspersec;
     ps_time_spent := (st_utime s + st_stime s) / tickspersec;
     ps_cpu_percent := cpu_of p; ps_nice := st_nice s; ps_state := state_of (st_state s);
     ps_systime := sys_time |}.

Definition name_char (c : ascii) : bool := not_newline c && not_nul c && bool_decide (c <> ")"%char).

Record proc_ok (p : proc) : Prop := {
  po_stat : stat_ok (pr_stat p);
  po_status : status_ok p;
  po_name : all_chars name_char (pr_comm p) = true;
  po_size : (0 < String.length (pr_comm p) < 4094)%nat;
  po_args : Forall arg_ok (pr_args p);
  po_times : st_utime (pr_stat p) + st_stime (pr_stat p) < 2 ^ 63 /\ st_starttime (pr_stat p) < 2 ^ 62;
  po_resident : (st_rss (pr_stat p) + 3) * sys_page_size < 2 ^ 64 }.

(** The files of process [pid]: all four, or those of a process that has ended. *)
Definition shows (pid : Z) (o : option proc) : Prop :=
  match o with
  | Some p =>
      proc_ok p /\
      sys_file (proc_path pid "comm") = Some (pr_comm p +:+ nl) /\
      sys_file (proc_path pid "stat") = Some (stat_text (pr_stat p)) /\
      sys_file (proc_path pid "status") = Some (status_text p) /\
      sys_file (proc_path pid "cmdline") = Some (String.string_of_list_ascii (argv_bytes (pr_args p)))
  | None => sys_file (proc_path pid "comm") <> Some EmptyString /\ sys_file (proc_path pid "stat") = None
  end.

Lemma name_unchanged comm : all_chars name_char comm = true -> process_name_of comm = comm.
Proof.
  unfold process_name_of. destruct comm as [|c r]; [done|]. intros H. cbn in H. apply andb_true_iff in H as [_ H].
  enough (before_char ")" r = None) as -> by done. induction r as [|x r IH]; [done|]. cbn in H.
  apply andb_true_iff in H as [Hx H]. unfold name_char in Hx. rewrite !andb_true_iff in Hx.
  destruct Hx as [_ Hx%bool_decide_eq_true]. cbn [before_char]. rewrite decide_False by done. by rewrite IH.
Qed.

(** ** The command line *)

Lemma wp_grow_title n : forall (Q : bool -> env -> Prop) e,
  (AFail ∉ e_allocs e) -> (forall e', calmer e e' -> Q true e') -> wp (grow_title n) Q e.
Proof.
  induction n as [|n IH]; intros Q e Ha HQ; [by apply wp_ret, HQ|]. cbn [grow_title].
  apply wp_bind, wp_alloc_request; [done|]. intros c e1 Hc He1.
  destruct c; [done| |]; (apply IH; [calm|]; intros e2 He2; apply HQ; by trans e1).
Qed.

Lemma cmdline_block args :
  args <> [] -> Forall arg_ok args ->
  exists b, adjust_procname_cmndline (argv_bytes args ++ [NUL]) (length (argv_bytes args)) = Some b /\
            text_of b = Some (String.string_of_list_ascii (joined_args args)).
Proof.
  intros Hne HF. destruct (exists_last Hne) as (front & last & ->). apply Forall_app in HF as [HF [Hl _]%Forall_cons].
  pose proof (adjust_joins front last HF Hl) as H. cbn zeta in H. rewrite joined_snoc.
  destruct (adjust_procname_cmndline _ _) as [b|]; [|done]. exists b. split; [done|].
  cbn in H. injection H as H. unfold text_of. by rewrite H.
Qed.

Lemma argv_nonempty args : args <> [] -> (0 < length (argv_bytes args))%nat.
Proof.
  intros Hne. destruct (exists_last Hne) as (front & last & ->). rewrite argv_snoc, !length_app. cbn. lia.
Qed.

Lemma wp_read_cmdline args name d (Q : step * sg_process_stats -> env -> Prop) e :
  Forall arg_ok args -> ps_process_name d = CStr name -> (args = [] -> ps_proctitle d = CNull) ->
  (AFail ∉ e_allocs e) ->
  (forall e', calmer e e' ->
     Q (Stored, ps_set_names (CStr name)
          (CStr (match args with [] => "[" +:+ name +:+ "]" | _ => String.string_of_list_ascii (joined_args args) end)) d) e') ->
  wp (read_cmdline (String.string_of_list_ascii (argv_bytes args)) d) Q e.
Proof.
  intros HF Hname Hnull Ha HQ. unfold read_cmdline. apply wp_bind, wp_grow_title; [done|]. intros e1 He1. cbn [negb].
  rewrite Hname. destruct (decide (args = [])) as [->|Hne].
  - cbn [argv_bytes fmap list_fmap mjoin list_join String.string_of_list_ascii String.length Nat.eqb].
    rewrite Hnull by done. apply wp_bind, wp_ret. apply wp_bind, wp_ret.
    apply wp_bind, wp_alloc_request; [calm|]. intros c e2 Hc He2.
    destruct c; [done| |]; apply wp_ret, HQ; by trans e1.
  - pose proof (argv_nonempty args Hne) as Hlen.
    assert (String.length (String.string_of_list_ascii (argv_bytes args)) = length (argv_bytes args)) as El
      by (generalize (argv_bytes args); intros l; induction l; cbn; congruence).
    rewrite El, (proj2 (Nat.eqb_neq _ 0)) by lia. apply wp_bind, wp_ret. cbv iota.
    rewrite String.list_ascii_of_string_of_list_ascii. unfold buf_write. rewrite decide_True by (rewrite length_app; cbn; lia).
    rewrite insert_app_r_alt, Nat.sub_diag by lia. cbn [insert list_insert].
    destruct (cmdline_block args Hne HF) as (b & -> & Hb). apply wp_bind. unfold own_block. rewrite Hb. apply wp_ret, wp_ret.
    specialize (HQ e1 He1). by destruct args.
Qed.

(** ** The structure of a process *)

Context (Hticks : 0 < tickspersec) (Hpage : 0 < sys_page_size) (Hup : 0 <= uptime <= sys_time).
Context (Htime : sys_time < 2 ^ 62).

Lemma fopen_there path c (Q : option string -> env -> Prop) e :
  sys_file path = Some c -> Q (Some c) e -> wp (fopen path) Q e.
Proof. intros H HQ. unfold fopen. rewrite H. by apply wp_ret. Qed.

Lemma name_no_nul comm : all_chars name_char comm = true -> no_nul comm = true.
Proof.
  intros H. apply no_nul_chars. revert H. apply all_chars_impl. intros c Hc. unfold name_char in Hc.
  rewrite !andb_true_iff in Hc. tauto.
Qed.

(** The name may be stored in an item whose texts are live; a process without arguments
    needs an item without a title. *)
Lemma wp_fill_process pid p it (Q : step * sg_process_stats -> env -> Prop) e :
  shows pid (Some p) -> item_live Kprocess (IProcess it) = true ->
  (pr_args p = [] -> ps_proctitle it = CNull) -> (AFail ∉ e_allocs e) ->
  (forall e', calmer e e' -> Q (Stored, process_of p (ps_sessid it)) e') ->
  wp (fill_process tickspersec uptime pid (Some (pr_comm p)) (stat_text (pr_stat p)) it) Q e.
Proof using Hticks Hpage Hup Htime.
  intros (Hok & _ & _ & Hst & Hcmd) Hlive Hnull Ha HQ. destruct Hok as [Hs Hss Hn Hsz Harg (Ht1 & Ht2) Hr].
  pose proof (stat_scanned _ Hs) as Hscan. destruct Hs as [_ _ _ (Hu & Hst2 & Hstart & Hvs & Hrss) _ _ _].
  unfold in_u64 in *. cbn [item_live] in Hlive. apply andb_true_iff in Hlive as [Hl1 Hl2].
  unfold fill_process. fold (pr_comm p) in Hscan. rewrite Hscan. cbn [fmap list_fmap lookup list_lookup arg_int Z.ltb Z.compare Pos.compare Pos.compare_cont].
  rewrite (name_unchanged _ Hn). apply wp_bind, wp_sg_update_string; [done | cbn; by apply name_no_nul | | by calm].
  intros e1 He1. cbn [fst snd as_ptr]. rewrite decide_False by auto.
  rewrite (proj2 (Z.eqb_neq tickspersec 0)), (proj2 (Z.ltb_ge tickspersec 0)) by lia.
  apply wp_bind, (fopen_there _ (status_text p)); [done|]. rewrite read_status_of by done. cbn [negb].
  apply wp_bind, (fopen_there _ _ _ _ Hcmd).
  apply wp_bind, (wp_read_cmdline (pr_args p) (pr_comm p)); [done | done | | calm |].
  { intros E. cbn. by apply Hnull. }
  intros e2 He2. apply wp_ret.
  match goal with |- Q (Stored, ?x) _ => replace x with (process_of p (ps_sessid it)); [apply HQ; by trans e1|] end.
  assert (0 <= st_starttime (pr_stat p) / tickspersec <= st_starttime (pr_stat p)) as Hd1
    by (split; [apply Z.div_pos; lia | apply Z.div_le_upper_bound; nia]).
  assert (0 <= (st_utime (pr_stat p) + st_stime (pr_stat p)) / tickspersec <= st_utime (pr_stat p) + st_stime (pr_stat p)) as Hd2
    by (split; [apply Z.div_pos; lia | apply Z.div_le_upper_bound; nia]).
  unfold process_of, cpu_of, title_of. rewrite <- process_state_of. cbn -[wrap swrap Z.pow double_div double_mul double_sub double_of].
  rewrite (wrap_small 64 (st_utime _ + _)) by lia. rewrite (wrap_small 64 (st_rss _ + 3)) by nia.
  rewrite (wrap_small 64 ((st_rss _ + 3) * _)) by nia.
  rewrite (swrap_small 64 (sys_time - uptime)) by lia.
  rewrite (wrap_small 64 (sys_time - uptime + _)) by lia. rewrite (swrap_small 64 (sys_time - uptime + _)) by lia.
  rewrite swrap_small by lia. by destruct (pr_args p).
Qed.

Lemma before_newline t : all_chars not_newline t = true -> before_char newline (t +:+ nl) = Some t.
Proof.
  induction t as [|c t IH]; [done|]. intros H. cbn in H. apply andb_true_iff in H as [Hc H].
  apply bool_decide_eq_true in Hc. change (String c t +:+ nl) with (String c (t +:+ nl)). cbn [before_char].
  rewrite decide_False by done. by rewrite IH.
Qed.

Lemma wp_read_comm pid p (Q : option (option string) -> env -> Prop) e :
  shows pid (Some p) -> Q (Some (Some (pr_comm p))) e -> wp (read_comm pid) Q e.
Proof.
  intros (Hok & Hf & _) HQ. destruct Hok as [_ _ Hn Hsz _ _ _].
  assert (all_chars not_newline (pr_comm p) = true) as Hnl.
  { revert Hn. apply all_chars_impl. intros c Hc. unfold name_char in Hc. rewrite !andb_true_iff in Hc. tauto. }
  apply wp_bind, (fopen_there _ _ _ _ Hf). unfold fgets.
  destruct (pr_comm p +:+ nl) as [|c r] eqn:E; [by destruct (pr_comm p)|]. rewrite <- E.
  unfold nl. rewrite take_line_short by (done || lia). fold nl. rewrite before_newline by done. by apply wp_ret.
Qed.

(** A process that has ended: its name may still be read, its stat file is gone. *)
Lemma wp_read_comm_gone pid (Q : option (option string) -> env -> Prop) e :
  shows pid None -> (forall r e', r <> Some None -> calmer e e' -> Q r e') -> wp (read_comm pid) Q e.
Proof.
  intros [Hf _] HQ. apply wp_bind. unfold fopen. destruct (sys_file (proc_path pid "comm")) as [c|].
  - apply wp_ret. destruct c as [|x c]; [done|]. cbn [fgets]. destruct (take_line _ _). by apply wp_ret, HQ.
  - apply wp_bind, wp_modify, wp_ret, wp_ret, HQ; [done|]. unfold calmer. by cbn.
Qed.

(** * The loop over the processes *)

(** The first [n] items of the vector are those of the processes found so far. *)
Record listing (l0 : positive) (w0 : world) (n : nat) (xs : list item) (l : positive) (v : sg_vector) (w : world)
    : Prop := {
  ls_rep : replaced l0 l v w0 w;
  ls_wf : wf_vec v;
  ls_info : info v = VECTOR_INIT_INFO Kprocess;
  ls_room : Z.of_nat n <= used_count v;
  ls_items : take n (contents v) = xs;
  ls_calm : AFail ∉ e_allocs (w_env w) }.

(** The items behind them have no texts. *)
Definition spare (n : nat) (v : sg_vector) : Prop :=
  Forall (fun it => item_fresh Kprocess it = true) (drop n (contents v)).

Lemma contents_resized v v' m k :
  resized v v' m -> wf_vec v -> (k <= Z.to_nat (used_count v))%nat -> (k <= Z.to_nat m)%nat ->
  take k (contents v') = take k (contents v).
Proof.
  intros [_ Hu _ _ Hk _] Hwf Hk1 Hk2. unfold contents. rewrite Hu, !take_take, !Nat.min_l by lia.
  apply (f_equal (take k)) in Hk. rewrite !take_take in Hk. by rewrite !Nat.min_l in Hk by lia.
Qed.

Lemma spare_resized n v v' m :
  resized v v' m -> wf_vec v -> info v = VECTOR_INIT_INFO Kprocess ->
  Z.of_nat n <= used_count v -> Z.of_nat n <= m -> spare n v -> spare n v'.
Proof.
  intros Hr Hwf Hi Hn Hm Hs. pose proof (rs_new _ _ _ Hr) as Hnew. pose proof (wf_used _ Hwf) as Hb.
  pose proof (rs_used _ _ _ Hr) as Hu. unfold spare.
  set (k := Z.to_nat (Z.min (used_count v) m)) in *.
  rewrite <- (take_drop k (contents v')). rewrite drop_app. apply Forall_app. split.
  - rewrite (contents_resized v v' m) by (done || lia). rewrite skipn_firstn_comm. by apply Forall_take.
  - apply Forall_drop. unfold contents. rewrite Hu. unfold slot_fresh in Hnew. by rewrite Hi in Hnew.
Qed.

Lemma listing_resized l0 w0 n xs l v w l' v' w' m :
  listing l0 w0 n xs l v w -> resized v v' m -> Z.of_nat n <= m -> replaced l0 l' v' w0 w' ->
  calmer (w_env w) (w_env w') -> listing l0 w0 n xs l' v' w'.
Proof.
  intros [Hr Hw Hi Hn Hx Hc] Hrs Hm Hr' Hc'. split; try done.
  - apply Hrs.
  - rewrite (rs_info _ _ _ Hrs). done.
  - rewrite (rs_used _ _ _ Hrs). lia.
  - rewrite (contents_resized v v' m) by (done || lia). done.
  - calm.
Qed.

(** The item of process [p], whatever session it has. *)
Definition listed (p : proc) (it : item) : Prop := exists sess, it = IProcess (process_of p sess).

(** Writing the next item. *)
Lemma listing_write l0 w0 n xs l v w it e :
  listing l0 w0 n xs l v w -> Z.of_nat n + 1 <= used_count v -> item_live Kprocess it = true -> calmer (w_env w) e ->
  listing l0 w0 (S n) (xs ++ [it]) l (set_data (<[n := it]> (data v)) v)
    (upd l (set_data (<[n := it]> (data v)) v) (with_env e w)).
Proof.
  intros [Hr Hw Hi Hn Hx Hc] Hu Hit He. pose proof (wf_used _ Hw) as Hb. split.
  - by apply (replaced_write l0 l v), replaced_env.
  - eapply wf_write; [done | rewrite Hi; by apply destroy_info | done].
  - done.
  - cbn. lia.
  - unfold contents in *. cbn [used_count data set_data]. rewrite <- Hx, !take_take, !Nat.min_l by lia.
    rewrite (take_S_r _ _ it) by (apply list_lookup_insert_eq; lia). by rewrite take_insert_ge by lia.
  - cbn. calm.
Qed.

Lemma joined_no_nul args : Forall arg_ok args -> NUL ∉ joined_args args.
Proof.
  induction 1 as [|a args [Ha _] HF IH]; [apply not_elem_of_nil|]. cbn. destruct args; [done|].
  rewrite elem_of_app, elem_of_cons. intros [?|[?|?]]; [done | done | by apply IH].
Qed.

Lemma title_no_nul p : proc_ok p -> no_nul (title_of p) = true.
Proof.
  intros Hok. pose proof (name_no_nul _ (po_name _ Hok)) as Hn. apply bool_decide_eq_true in Hn. unfold title_of.
  apply bool_decide_eq_true. pose proof (joined_no_nul _ (po_args _ Hok)) as Hj. destruct (pr_args p) as [|a args].
  - change ("[" +:+ ?x) with (String "[" x). cbn [String.list_ascii_of_string].
    rewrite list_ascii_app. rewrite elem_of_cons, elem_of_app. cbn. rewrite list_elem_of_singleton.
    intros [?|[?|?]]; done.
  - by rewrite String.list_ascii_of_string_of_list_ascii.
Qed.

Lemma process_live p sess : proc_ok p -> item_live Kprocess (IProcess (process_of p sess)) = true.
Proof.
  intros Hok. cbn. apply andb_true_iff. split; [by apply name_no_nul, po_name | by apply title_no_nul].
Qed.

(** The ids that are still to come. *)
Definition pids_left (chain : pids_in_proc_dir_t) (i : nat) : list Z :=
  match chain with [] => [] | page :: rest => drop i page ++ mjoin rest end.

(** A process without arguments needs an item without a title. *)
Definition start_ok (n : nat) (v : sg_vector) (ps : list (option proc)) : Prop :=
  spare n v \/ match omap id ps with p :: _ => pr_args p <> [] | [] => True end.

Section loop.
Context (l0 : positive) (w0 : world) (Hh0 : wf_heap w0).

(** The item of the next process, at the end of the list. *)
Lemma wp_next_item p n xs l v (Q : vptr * option sg_error -> world -> Prop) w :
  listing l0 w0 n xs l v w -> Z.of_nat n < 2 ^ 31 -> (spare n v \/ pr_args p <> []) ->
  (forall l1 v1 w1 it, listing l0 w0 n xs l1 v1 w1 -> used_count v1 = Z.of_nat n + 1 ->
     data v1 !! n = Some (IProcess it) -> item_live Kprocess (IProcess it) = true ->
     (pr_args p = [] -> ps_proctitle it = CNull) -> Q (Some l1, None) w1) ->
  wp (VECTOR_UPDATE (Some l) (Z.of_nat n + 1) true (VECTOR_INIT_INFO Kprocess)) Q w.
Proof using Hh0.
  intros Hls Hn Hsp HQ. pose proof Hls as [Hr Hw Hi Hroom _ Hc].
  eapply (wp_update_vector Kprocess); [done | exact Hr | done | done | lia | done |].
  intros l1 v1 w1 Hrs Hc1 Hr1. assert (listing l0 w0 n xs l1 v1 w1) as Hls1 by (eapply listing_resized; try done; lia).
  pose proof (rs_used _ _ _ Hrs) as Hu1. pose proof (rs_wf _ _ _ Hrs) as Hw1. pose proof (wf_used _ Hw1) as Hb1.
  destruct (lookup_lt_is_Some_2 (data v1) n) as [it Hit]; [lia|].
  assert (item_live Kprocess it = true) as Hlive.
  { change (item_ok Kprocess it = true). eapply (wf_slot_ok v1 Kprocess n it); [done | | lia | done].
    rewrite (ls_info _ _ _ _ _ _ _ Hls1). by apply destroy_info. }
  destruct it as [| | | | | | | | | | | |d| |]; try done.
  apply (HQ l1 v1 w1 d); try done. intros Hargs. destruct Hsp as [Hsp|]; [|done].
  apply (spare_resized n v v1 (Z.of_nat n + 1)) in Hsp; [|done | done | done | lia | lia].
  unfold spare, contents in Hsp. rewrite Hu1 in Hsp. rewrite Forall_lookup in Hsp. specialize (Hsp 0%nat (IProcess d)).
  rewrite lookup_drop, Nat.add_0_r, lookup_take_lt in Hsp by lia. specialize (Hsp Hit). cbn in Hsp.
  rewrite !andb_true_iff in Hsp. by destruct Hsp as [[_ H%bool_decide_eq_true] _].
Qed.

(** What the loop leaves when the processes [ps] were still to come. *)
Definition all_listed (n : nat) (xs : list item) (ps : list (option proc))
    (Q : sg_error * nat * vptr -> world -> Prop) : Prop :=
  forall l v w ys, Forall2 listed (omap id ps) ys -> listing l0 w0 (n + length ys) (xs ++ ys) l v w ->
    Q (SG_ERROR_NONE, (n + length ys)%nat, Some l) w.

(** The end of a page: room for the processes of the next one. *)
Lemma wp_next_page (page : list Z) n xs l v m ps (Q : vptr * option sg_error -> world -> Prop) w :
  listing l0 w0 n xs l v w -> m = (n + length page)%nat -> page <> [] -> Z.of_nat m <= 2 ^ 31 -> start_ok n v ps ->
  (forall l1 v1 w1, listing l0 w0 n xs l1 v1 w1 -> start_ok n v1 ps -> Q (Some l1, None) w1) ->
  wp (VECTOR_UPDATE (Some l) (Z.of_nat m) ((n =? 0)%nat || negb (length page =? 0)%nat) (VECTOR_INIT_INFO Kprocess)) Q w.
Proof using Hh0.
  intros Hls -> Hpg Hm Hst HQ. pose proof Hls as [Hr Hw Hi Hroom _ Hc].
  assert (0 < length page)%nat by (destruct page; [done | cbn; lia]).
  eapply (wp_update_vector Kprocess); [done | exact Hr | done | done | lia | done |].
  intros l1 v1 w1 Hrs Hc1 Hr1. apply (HQ l1 v1 w1); [eapply listing_resized; try done; lia|].
  destruct Hst as [Hst|Hst]; [left | by right].
  eapply spare_resized; try done; lia.
Qed.

Lemma all_listed_more n xs p ps sess Q :
  all_listed n xs (Some p :: ps) Q -> all_listed (S n) (xs ++ [IProcess (process_of p sess)]) ps Q.
Proof.
  intros HQ l v w ys Hys Hls. specialize (HQ l v w (IProcess (process_of p sess) :: ys)). cbn [length] in HQ.
  rewrite Nat.add_succ_r in HQ. apply HQ; [|by rewrite <- app_assoc in Hls].
  cbn. constructor; [by eexists | done].
Qed.

Lemma listing_env n xs l v w e : listing l0 w0 n xs l v w -> calmer (w_env w) e -> listing l0 w0 n xs l v (with_env e w).
Proof. intros [Hr Hw Hi Hn Hx Hc] He. split; try done; [by apply replaced_env | cbn; calm]. Qed.

Lemma wp_process_loop fuel : forall chain i n xs l v ps (Q : sg_error * nat * vptr -> world -> Prop) w,
  Forall2 shows (pids_left chain i) ps -> filled_pages chain -> (length ps + length chain < fuel)%nat ->
  Z.of_nat (n + length ps) <= 2 ^ 31 -> listing l0 w0 n xs l v w -> start_ok n v ps -> all_listed n xs ps Q ->
  wp (process_loop tickspersec fuel uptime chain i n (Some l)) Q w.
Proof using Hh0 Hticks Hpage Hup Htime.
  induction fuel as [|fuel IH]; intros chain i n xs l v ps Q w Hsh Hfl Hf Hlen Hls Hst HQ; [lia|].
  cbn [process_loop]. destruct chain as [|page rest].
  { apply Forall2_nil_inv_l in Hsh as ->. apply wp_ret. specialize (HQ l v w []). cbn in HQ.
    rewrite Nat.add_0_r, app_nil_r in HQ. apply HQ; [constructor | done]. }
  cbn [pids_left length] in *. destruct (page !! i) as [pid|] eqn:Ei.
  - rewrite (drop_S _ _ _ Ei) in Hsh. cbn [app] in Hsh. apply Forall2_cons_inv_l in Hsh as (o & ps' & Ho & Hsh & ->).
    cbn [length] in *. destruct o as [p|].
    + apply wp_bind, wp_in_env, (wp_read_comm pid p); [done|]. cbn [mjoin option_join].
      apply wp_bind, wp_in_env. apply (fopen_there _ (stat_text (pr_stat p))); [apply Ho|].
      apply wp_bind, (wp_next_item p n xs l v); [by destruct w | lia | |].
      { destruct Hst as [|Hst]; [by left | right; exact Hst]. }
      intros l1 v1 w1 it Hls1 Hu1 Hit Hlive Hnull.
      assert (w_vecs w1 !! l1 = Some v1) as Hl1 by (apply replaced_lookup with l0 w0; apply Hls1).
      apply wp_bind. eapply wp_read_item; [done | done |]. cbn [as_process].
      apply wp_bind, wp_in_env, wp_fill_process; [done | done | done | apply Hls1 |]. intros e He. cbn [fst snd].
      apply wp_bind. eapply wp_write_item; [done | by eapply lookup_lt_Some |].
      apply (listing_write _ _ _ _ _ _ _ (IProcess (process_of p (ps_sessid it))) e) in Hls1;
        [|lia | by apply process_live, Ho | done].
      eapply (IH (page :: rest) (S i) (S n)); [done | done | cbn [length]; lia | lia | exact Hls1 | | by apply all_listed_more].
      left. unfold spare. rewrite drop_ge; [constructor|]. unfold contents. cbn. rewrite length_take, Hu1. lia.
    + apply wp_bind, wp_in_env, wp_read_comm_gone; [done|]. intros r e Hr He.
      assert (forall e1, calmer (w_env w) e1 ->
        wp (process_loop tickspersec fuel uptime (page :: rest) (S i) n (Some l)) Q (with_env e1 w)) as Hgo.
      { intros e1 He1. eapply (IH (page :: rest) (S i) n xs); [done | done | cbn [length]; lia | lia | by apply listing_env | done |].
        exact HQ. }
      destruct r as [[c|]|]; [|done|]; apply wp_bind, wp_in_env; unfold fopen; rewrite (proj2 Ho);
        (apply wp_bind, wp_modify, wp_ret; apply Hgo; unfold calmer in *; cbn; auto).
  - rewrite drop_ge in Hsh by (by apply lookup_ge_None). cbn [app] in Hsh. cbn [free_pids_in_proc_dir tail].
    destruct rest as [|page' rest'].
    { apply (IH [] 0%nat n xs l v ps); try done; cbn in *; [by right | lia]. }
    apply filled_tail, Forall_cons in Hfl as [Hpg Hfl]. cbn [length] in *.
    assert (length page' <= length ps)%nat.
    { rewrite <- (Forall2_length _ _ _ Hsh). cbn. rewrite length_app. lia. }
    apply wp_bind. eapply (wp_next_page page' n xs l v _ ps); [done | done | done | lia | done |].
    intros l1 v1 w1 Hls1 Hst1. eapply (IH (page' :: rest') 0%nat n xs l1 v1 ps); try done; cbn [length]; try lia.
    right. by apply Forall_cons.
Qed.
End loop.

(** The end: the vector holds the listed processes and nothing else. *)
Lemma wp_trim_processes l0 w0 items xs l v (Q : sg_error * vptr -> world -> Prop) w :
  wf_heap w0 -> listing l0 w0 items xs l v w -> (1 <= items)%nat -> Z.of_nat items <= 2 ^ 31 ->
  (forall l' v' w', replaced l0 l' v' w0 w' -> wf_vec v' -> contents v' = xs -> Q (SG_ERROR_NONE, Some l') w') ->
  wp (trim_processes items (Some l)) Q w.
Proof.
  intros Hh Hls Hi1 Hi2 HQ. pose proof Hls as [Hr Hw Hi Hroom Hx Hc]. apply wp_bind.
  eapply wp_read_vec; [by eapply replaced_lookup|]. destruct (Z.eqb_spec (used_count v) (Z.of_nat items)) as [E|E].
  - apply wp_ret, (HQ l v w); [done | done |]. rewrite <- Hx, take_ge; [done|]. unfold contents. rewrite length_take. lia.
  - apply wp_bind. eapply (wp_update_vector Kprocess); [done | exact Hr | done | done | lia | done |].
    intros l' v' w' Hrs Hc' Hr'. apply wp_ret. cbn [fst snd default]. apply (HQ l' v' w'); [done | apply Hrs |].
    rewrite <- Hx, <- (contents_resized v v' (Z.of_nat items)) by (done || lia).
    rewrite take_ge; [done|]. unfold contents. rewrite (rs_used _ _ _ Hrs), length_take. lia.
Qed.

(** The vector of an earlier call, if there was one. A process without arguments gets the
    title of its name only in an item that has none, which holds for all items but the
    first of an old vector. *)
Definition old_vector (o : vptr) (ps : list (option proc)) (w : world) : Prop :=
  match o with
  | None => True
  | Some l => exists v, w_vecs w !! l = Some v /\ wf_vec v /\ info v = VECTOR_INIT_INFO Kprocess /\
      match omap id ps with p :: _ => pr_args p <> [] | [] => True end
  end.

(** Room for the first page. *)
Lemma wp_first_page count bang o ps (Q : vptr * option sg_error -> world -> Prop) w :
  old_vector o ps w -> wf_heap w -> 1 <= count <= 2 ^ 31 -> (AFail ∉ e_allocs (w_env w)) ->
  (forall l0 w0 l v w', wf_heap w0 -> listing l0 w0 0 [] l v w' -> used_count v = count -> start_ok 0 v ps -> Q (Some l, None) w') ->
  wp (VECTOR_UPDATE o count bang (VECTOR_INIT_INFO Kprocess)) Q w.
Proof.
  intros Ho Hh Hc Ha HQ. destruct o as [l|].
  - destruct Ho as (v & Hl & Hw & Hi & Hfirst).
    eapply (wp_update_vector Kprocess); [done | by apply replaced_refl | done | done | done | done |].
    intros l' v' w' Hrs Hc' Hr'. apply (HQ l w l' v' w'); [done | | by apply rs_used in Hrs | by right].
    split; [done | apply Hrs | by rewrite (rs_info _ _ _ Hrs) | rewrite (rs_used _ _ _ Hrs); lia | done | calm].
  - apply wp_bind. cbn [VECTOR_CREATE_OR_RESIZE]. apply wp_vector_create_fresh; [lia | lia | done |].
    intros v e He Hw Hu Hi Hf. apply wp_bind, wp_bind. eapply wp_read_vec; [apply lookup_insert_eq|]. apply wp_ret.
    apply wp_bind, wp_assert; [by rewrite Hu, Z.eqb_refl|]. apply wp_ret.
    assert (wf_heap (new_vec v e w)) as Hh1 by (by apply wf_heap_new).
    apply (HQ (w_next w) (new_vec v e w) (w_next w) v); [done | | done | left].
    + split; [|done | done | rewrite Hu; lia | done | cbn; calm].
      apply replaced_refl; [apply lookup_insert_eq | done].
    + unfold spare. rewrite drop_0. exact Hf.
Qed.

End list.

(** * A machine with three ids in /proc, of which one has just ended *)

Definition args_of (l : list string) : list (list ascii) := String.list_ascii_of_string <$> l.

Definition demo_init : proc :=
  mk_proc (mk_proc_stat 1 "systemd" "S" 0 1 [1; 0; -1; 4194560; 100; 0; 3; 0] 1200 300 [0; 0; 20] 0 [1; 0]
             50 170000000 3000 [18446744073709551615; 1; 2; 3; 4; 5; 0; 0; 4096; 17; 0; 0; 0; 17; 3] nl)
    0 0 0 0 0 0 0 0 900 100 ["Name: systemd"; "Umask: 0000"] [] ["Groups: "] [] EmptyString (args_of ["/sbin/init"; "splash"]).

Definition demo_worker : proc :=
  mk_proc (mk_proc_stat 42 "kworker 0" "I" 2 0 [0; 0; -1; 69238880; 0; 0; 0; 0] 0 700 [0; 0; 20] (-20) [1; 0]
             60 0 0 [18446744073709551615; 1; 2; 3; 4; 5; 0; 0; 4096; 17; 0; 0; 0; 17; 3] nl)
    0 0 0 0 0 0 0 0 33 2 ["Name: kworker 0"] [] [] [] EmptyString [].

#[local] Instance demo_proc_system : System := {|
  sys_file := fun path =>
    if decide (path = "/proc/uptime") then Some "4000.17 15000.00"
    else if decide (path = "/proc/1/comm") then Some (pr_comm demo_init +:+ nl)
    else if decide (path = "/proc/1/stat") then Some (stat_text (pr_stat demo_init))
    else if decide (path = "/proc/1/status") then Some (status_text demo_init)
    else if decide (path = "/proc/1/cmdline") then Some (String.string_of_list_ascii (argv_bytes (pr_args demo_init)))
    else if decide (path = "/proc/42/comm") then Some (pr_comm demo_worker +:+ nl)
    else if decide (path = "/proc/42/stat") then Some (stat_text (pr_stat demo_worker))
    else if decide (path = "/proc/42/status") then Some (status_text demo_worker)
    else if decide (path = "/proc/42/cmdline") then Some EmptyString
    else None;
  sys_open_errno := fun _ => 2; sys_time := 1700000000; sys_page_size := 4096 |}.

Lemma demo_stats_ok : stat_ok (pr_stat demo_init) /\ stat_ok (pr_stat demo_worker).
Proof.
  split; (split; cbn -[Z.pow]; unfold in_s32, in_u64; split_and?; try reflexivity; try lia;
    try (repeat (constructor; [lia|]); constructor)); vm_compute; lia.
Qed.

Lemma demo_status_ok : status_ok demo_init /\ status_ok demo_worker.
Proof.
  assert (forall prefix t, all_chars not_newline t && (String.length t <? 4095)%nat && negb (String.prefix prefix (t +:+ nl)) = true ->
            other_line prefix t) as Hline.
  { intros prefix t H. rewrite !andb_true_iff in H. destruct H as [[H1 H2%Nat.ltb_lt] H3%negb_true_iff]. done. }
  split; (split; cbn -[Z.pow]; unfold in_u32, in_u64; split_and?; try lia;
    repeat (apply Forall_cons; split; [first [lia | by apply Hline]|]); by apply Forall_nil).
Qed.

Lemma demo_init_shown : shows 1 (Some demo_init).
Proof.
  split; [|done]. split; [apply demo_stats_ok | apply demo_status_ok | done | cbn; lia | | cbn; lia | cbn; lia].
  repeat (apply Forall_cons; split; [split; [by apply (bool_decide_eq_true_1 _) | cbn; lia]|]); by apply Forall_nil.
Qed.

Lemma demo_worker_shown : shows 42 (Some demo_worker).
Proof.
  split; [|done]. split; [apply demo_stats_ok | apply demo_status_ok | done | cbn; lia | | cbn; lia | cbn; lia].
  by apply Forall_nil.
Qed.


(** Why the first item of an old list is excepted: it has a title, and for a process
    without arguments in its place the loop over the title, which has no length to stop
    at, reads behind the block. *)
Lemma old_title_overrun :
  read_cmdline EmptyString (mk_process_stats (CStr "kthreadd") (CStr "/sbin/init") 2 0 0 0 0 0 0 0 0 0 0 0 0 0 0
    (double_of 0) 0 SG_PROCESS_STATE_SLEEPING 0) demo_env = Stuck out_of_bounds.
Proof. by vm_compute. Qed.
