(* ===== verification/ProcSysProps.v ===== *)
(** The process lists of HP-UX, Solaris, FreeBSD and its relatives: from what the system calls
    deliver to the items of the list. *)

From S2P Require Import Prelude Types CLib Errors Tools Vector VectorSpec VectorDiff Items Comp Stdio ToolsExt Fill Single NetworkSys DiskSys Demo Process ProcessProps ProcListProps ProcessSys.

Local Open Scope sg_scope.

(** * Items *)

Section process_lists.
Context {mem : Memory} {sys : System}.

(** [fill] turns any live process into a live one with [R]. *)
Definition fills_process (R : sg_process_stats -> Prop)
    (fill : sg_process_stats -> M env (sg_error * sg_process_stats)) : Prop :=
  forall d (Q : sg_error * sg_process_stats -> env -> Prop) e,
    item_live Kprocess (IProcess d) = true -> (AFail ∉ e_allocs e) ->
    (forall d' e', item_live Kprocess (IProcess d') = true -> R d' -> calmer e e' -> Q (SG_ERROR_NONE, d') e') ->
    wp (fill d) Q e.

Lemma wp_set_texts name title d (Q : sg_error * sg_process_stats -> env -> Prop) e :
  item_live Kprocess (IProcess d) = true -> no_nul name = true -> no_nul title = true -> (AFail ∉ e_allocs e) ->
  (forall e', calmer e e' -> Q (SG_ERROR_NONE, ps_set_names (CStr name) (CStr title) d) e') ->
  wp (set_texts name title d) Q e.
Proof.
  intros Hd Hn Ht Ha HQ. cbn in Hd. apply andb_true_iff in Hd as [H1 H2].
  apply wp_bind, wp_sg_update_string; [done|done| |done]. intros e1 He1. cbn [fst snd].
  rewrite decide_False by auto. apply wp_bind, wp_sg_update_string; [done|done| |by intros ?%He1].
  intros e2 He2. apply wp_ret, HQ. by trans e1.
Qed.

Section listing.
Context (l0 : positive) (w0 : world) (Hh0 : wf_heap w0).

Lemma listing_length n xs l v w : listing l0 w0 n xs l v w -> length xs = n.
Proof.
  intros [_ Hw _ Hn <- _]. rewrite length_take. unfold contents. rewrite length_take. pose proof (wf_used _ Hw). lia.
Qed.

(** The structure behind the end of the list. *)
Lemma listing_slot n xs l v w :
  listing l0 w0 n xs l v w -> Z.of_nat n + 1 <= used_count v ->
  exists d, data v !! n = Some (IProcess d) /\ item_live Kprocess (IProcess d) = true.
Proof.
  intros Hls Hn. pose proof Hls as [_ Hw Hi _ _ _]. pose proof (wf_used _ Hw) as Hb.
  destruct (lookup_lt_is_Some_2 (data v) n) as [it Hit]; [lia|].
  assert (item_live Kprocess it = true) as Hlive.
  { change (item_ok Kprocess it = true). eapply (wf_slot_ok v Kprocess n it); [done | rewrite Hi; by apply destroy_info | lia | done]. }
  destruct it as [| | | | | | | | | | | |d| |]; try done. by exists d.
Qed.

Lemma listing_back n xs it l v w : listing l0 w0 (S n) (xs ++ [it]) l v w -> listing l0 w0 n xs l v w.
Proof.
  intros Hls. pose proof (listing_length _ _ _ _ _ Hls) as Hl. rewrite length_app in Hl. cbn in Hl.
  destruct Hls as [Hr Hw Hi Hn Hx Hc]. split; try done; [lia|]. apply (f_equal (take n)) in Hx.
  rewrite take_take, Nat.min_l in Hx by lia. rewrite Hx, take_app_length'; [done|lia].
Qed.

(** Changing it: it is not on the list yet, or is its end. *)
Lemma wp_update_slot fill n xs l v d (Q : sg_error -> world -> Prop) w :
  listing l0 w0 n xs l v w -> Z.of_nat n + 1 <= used_count v -> data v !! n = Some (IProcess d) ->
  wp (fill d) (fun r e' => item_live Kprocess (IProcess r.2) = true /\ calmer (w_env w) e' /\
    forall v' w', used_count v' = used_count v -> w_env w' = e' -> data v' !! n = Some (IProcess r.2) ->
      listing l0 w0 n xs l v' w' -> listing l0 w0 (S n) (xs ++ [IProcess r.2]) l v' w' -> Q r.1 w') (w_env w) ->
  wp (update_process l n fill) Q w.
Proof.
  intros Hls Hn Hd Hf. pose proof Hls as [Hr Hw _ _ _ _]. pose proof (wf_used _ Hw) as Hb.
  assert (w_vecs w !! l = Some v) as Hl by (by eapply replaced_lookup).
  apply wp_bind. eapply wp_read_item; [done..|]. apply wp_bind, wp_in_env. eapply wp_mono; [exact Hf|].
  intros r e' (Hlive & Hc & HQ). cbn [fst snd]. apply wp_bind. eapply wp_write_item; [done|lia|]. apply wp_ret.
  pose proof (listing_write l0 w0 n xs l v w (IProcess r.2) e' Hls Hn Hlive Hc) as Hls'.
  eapply HQ; [..|exact Hls']; [done|done| |by eapply listing_back]. apply list_lookup_insert_eq. lia.
Qed.

(** The process at the end of the list. *)
Lemma wp_update_process R fill n xs l v (Q : sg_error -> world -> Prop) w :
  listing l0 w0 n xs l v w -> Z.of_nat n + 1 <= used_count v -> fills_process R fill ->
  (forall v' w' d, R d -> used_count v' = used_count v -> listing l0 w0 (S n) (xs ++ [IProcess d]) l v' w' -> Q SG_ERROR_NONE w') ->
  wp (update_process l n fill) Q w.
Proof.
  intros Hls Hn Hf HQ. destruct (listing_slot _ _ _ _ _ Hls Hn) as (d & Hd & Hlive).
  eapply wp_update_slot; [done..|]. apply Hf; [done|apply Hls|]. intros d' e' Hd' HR He'. split_and!; [done|done|].
  intros v' w' Hu _ _ _ Hls'. by eapply HQ.
Qed.

Lemma wp_fill_listing {A} (R : A -> sg_process_stats -> Prop) (fill : A -> item -> M env (sg_error * item)) entries :
  (forall a, a ∈ entries -> fills_item_then Kprocess (fun _ => True) (fun it => exists d, it = IProcess d /\ R a d) (fill a)) ->
  forall n xs l v (Q : sg_error * vptr -> world -> Prop) w,
  listing l0 w0 n xs l v w -> Z.of_nat (n + length entries) <= used_count v ->
  (forall v' w' ds, Forall2 R entries ds -> used_count v' = used_count v ->
     listing l0 w0 (n + length entries) (xs ++ (IProcess <$> ds)) l v' w' -> Q (SG_ERROR_NONE, Some l) w') ->
  wp (fill_slots fill entries n l) Q w.
Proof.
  induction entries as [|a entries IH]; intros Hf n xs l v Q w Hls Hn HQ; cbn [fill_slots].
  { apply wp_ret. eapply (HQ v w []); [constructor|done|]. by rewrite Nat.add_0_r, app_nil_r. }
  cbn [length] in Hn. pose proof Hls as [Hr Hw Hi _ _ Hc]. pose proof (wf_used _ Hw) as Hb.
  assert (w_vecs w !! l = Some v) as Hl by (by eapply replaced_lookup).
  destruct (lookup_lt_is_Some_2 (data v) n) as [it Hit]; [lia|].
  apply wp_bind. eapply wp_read_item; [done..|]. apply wp_bind, wp_in_env, Hf; [set_solver| |done|].
  { change (item_ok Kprocess it = true). eapply (wf_slot_ok v Kprocess n it); [done | rewrite Hi; by apply destroy_info | lia | done]. }
  intros x e' Hx (d & -> & HR) He' _. cbn [fst snd]. apply wp_bind. eapply wp_write_item; [done|lia|].
  rewrite decide_False by auto. eapply IH; [set_solver|apply listing_write; [exact Hls|lia|done|done]|cbn; lia|].
  intros v' w' ds Hds Hu Hls'. apply (HQ v' w' (d :: ds)); [by constructor|done|].
  cbn [length fmap list_fmap]. rewrite <- app_assoc in Hls'. by rewrite Nat.add_succ_r.
Qed.

(** Room for more. *)
Lemma wp_grow count bang n xs l v (Q : vptr * option sg_error -> world -> Prop) w :
  listing l0 w0 n xs l v w -> 1 <= count <= 2 ^ 31 -> Z.of_nat n <= count ->
  (forall l1 v1 w1, listing l0 w0 n xs l1 v1 w1 -> used_count v1 = count -> Q (Some l1, None) w1) ->
  wp (VECTOR_UPDATE (Some l) count bang (VECTOR_INIT_INFO Kprocess)) Q w.
Proof using Hh0.
  intros Hls Hc Hn HQ. pose proof Hls as [Hr Hw Hi Hroom _ Ha].
  eapply (wp_update_vector Kprocess); [done | exact Hr | done | done | lia | done |].
  intros l1 v1 w1 Hrs Hc1 Hr1. apply (HQ l1 v1 w1); [eapply listing_resized; try done; lia|]. by apply rs_used in Hrs.
Qed.
End listing.

(** The vector of an earlier call, if there was one. *)
Definition old_list (o : vptr) (w : world) : Prop :=
  match o with
  | None => True
  | Some l => exists v, w_vecs w !! l = Some v /\ wf_vec v /\ info v = VECTOR_INIT_INFO Kprocess
  end.

Lemma wp_first_room count bang o (Q : vptr * option sg_error -> world -> Prop) w :
  old_list o w -> wf_heap w -> 1 <= count <= 2 ^ 31 -> (AFail ∉ e_allocs (w_env w)) ->
  (forall l0 w0 l v w', wf_heap w0 -> listing l0 w0 0 [] l v w' -> used_count v = count -> Q (Some l, None) w') ->
  wp (VECTOR_UPDATE o count bang (VECTOR_INIT_INFO Kprocess)) Q w.
Proof.
  intros Ho Hh Hc Ha HQ. apply (wp_first_page _ _ _ []); [|done..|].
  - destruct o as [l|]; [|done]. destruct Ho as (v & ? & ? & ?). by exists v.
  - intros l0 w0 l v w' Hh0 Hls Hu _. by apply (HQ l0 w0 l v w').
Qed.

(** The vector at [p], or the one to be made, has the items [xs] of the list and can be made longer. *)
Definition room (p : vptr) (n : nat) (xs : list item) (w : world) : Prop :=
  forall count bang (Q : vptr * option sg_error -> world -> Prop), 1 <= count <= 2 ^ 31 -> Z.of_nat n <= count ->
  (forall l0 w0 l v w', wf_heap w0 -> listing l0 w0 n xs l v w' -> used_count v = count -> Q (Some l, None) w') ->
  wp (VECTOR_UPDATE p count bang (VECTOR_INIT_INFO Kprocess)) Q w.

(** It is there already. *)
Definition listed_at (p : vptr) (n : nat) (xs : list item) (w : world) : Prop :=
  exists l0 w0 l v, wf_heap w0 /\ p = Some l /\ listing l0 w0 n xs l v w.

Lemma room_first o w : old_list o w -> wf_heap w -> (AFail ∉ e_allocs (w_env w)) -> room o 0 [] w.
Proof. intros Ho Hh Ha count bang Q Hc _ HQ. by apply wp_first_room. Qed.

Lemma room_grow l0 w0 n xs l v w : wf_heap w0 -> listing l0 w0 n xs l v w -> room (Some l) n xs w.
Proof. intros Hh Hls count bang Q Hc Hn HQ. eapply wp_grow; [done|exact Hls|done|done|]. intros l1 v1 w1. by apply HQ. Qed.

(** What a gathering function is to leave: the processes [ps] in their order, related to the items by
    [R], and nothing else. *)
Definition delivers_list {A} (R : A -> sg_process_stats -> Prop) (ps : list A) (r : sg_error * vptr) (w : world) : Prop :=
  r.1 = SG_ERROR_NONE /\ exists l v ds, r.2 = Some l /\ w_vecs w !! l = Some v /\ wf_vec v /\ Forall2 R ps ds /\
    contents v = IProcess <$> ds.

Lemma wp_trim_list {A} (R : A -> sg_process_stats -> Prop) ps ds l0 w0 l v w :
  wf_heap w0 -> listing l0 w0 (length ps) (IProcess <$> ds) l v w -> Forall2 R ps ds -> ps <> [] -> Z.of_nat (length ps) <= 2 ^ 31 ->
  wp (trim_processes (length ps) (Some l)) (delivers_list R ps) w.
Proof.
  intros Hh Hls HF Hne Hlen. eapply wp_trim_processes; [exact Hh|exact Hls| |done|].
  { destruct ps; [done|]. simpl. lia. }
  intros l' v' w' Hr Hw Hc. split; [done|]. exists l', v', ds. split_and!; try done. by eapply replaced_lookup.
Qed.

(** * HP-UX *)

(** The item of a process, whatever session the structure had before. *)
Definition hpux_listed (i : pst_status) (d : sg_process_stats) : Prop :=
  exists sess state, d = mk_process_stats (CStr (pst_ucomm i)) (CStr (pst_cmd i)) (pst_pid i) (pst_ppid i) (pst_pgrp i) sess
    (pst_uid i) (pst_euid i) (pst_gid i) (pst_egid i) ((pst_nvcsw i + pst_nivcsw i) mod 2 ^ 64) (pst_nvcsw i mod 2 ^ 64) (pst_nivcsw i mod 2 ^ 64)
    (((pst_dsize i + pst_tsize i + pst_ssize i) * sys_page_size) mod 2 ^ 64) ((pst_rssize i * sys_page_size) mod 2 ^ 64)
    (pst_start i) (pst_time i) (double_div (double_mul (double_of (pst_pctcpu i)) (double_of 100)) (double_of 32768))
    (pst_nice i) state sys_time /\
  (pst_stat i = PS_SLEEP -> state = SG_PROCESS_STATE_SLEEPING) /\ (pst_stat i = PS_RUN -> state = SG_PROCESS_STATE_RUNNING) /\
  (pst_stat i = PS_STOP -> state = SG_PROCESS_STATE_STOPPED) /\ (pst_stat i = PS_ZOMBIE -> state = SG_PROCESS_STATE_ZOMBIE) /\
  (pst_stat i = PS_IDLE \/ pst_stat i = PS_OTHER -> state = SG_PROCESS_STATE_UNKNOWN).

Definition pst_texts_ok (i : pst_status) : Prop := no_nul (pst_ucomm i) = true /\ no_nul (pst_cmd i) = true.

Lemma fill_pst_ok i : pst_texts_ok i ->
  fills_item_then Kprocess (fun _ => True) (fun it => exists d, it = IProcess d /\ hpux_listed i d) (fill_pst_status i).
Proof.
  intros [Hn Hc] it Q e Hit Ha HQ. destruct it as [| | | | | | | | | | | |d| |]; try done.
  apply wp_bind. cbn [as_process]. apply wp_set_texts; [exact Hit|done|done|done|]. intros e' He'. cbn [fst snd].
  rewrite decide_False by auto. apply wp_ret, HQ; [cbn; by rewrite Hn, Hc| |done|done].
  eexists; split; [reflexivity|]. eexists _, _; split; [reflexivity|]. cbn. destruct (pst_stat i); naive_solver.
Qed.

Lemma wp_hpux_processes getproc i ps : batches pst_idx getproc i ps ->
  forall fuel n xs p (Q : sg_error * nat * vptr -> world -> Prop) w,
  (length ps < fuel)%nat -> Forall pst_texts_ok ps -> room p n xs w -> ps <> [] \/ listed_at p n xs w ->
  Z.of_nat (n + length ps) <= 2 ^ 31 ->
  (forall l0 w0 l' v' w' ds, wf_heap w0 -> Forall2 hpux_listed ps ds -> listing l0 w0 (n + length ps) (xs ++ (IProcess <$> ds)) l' v' w' ->
     Q (SG_ERROR_NONE, (n + length ps)%nat, Some l') w') ->
  wp (hpux_processes fuel getproc i n p) Q w.
Proof.
  induction 1 as [i E|i batch final rest E El Hb IH]; intros fuel n xs p Q w Hf Ht Hroom Hor Hlen HQ;
    (destruct fuel as [|fuel]; [lia|]); cbn [hpux_processes]; rewrite E;
    apply wp_bind, wp_in_env, wp_ret; change (mk_world (w_vecs w) (w_next w) (w_env w)) with (with_env (w_env w) w);
    (replace (with_env (w_env w) w) with w by (by destruct w)).
  { destruct Hor as [Hne|(l0 & w0 & l & v & Hh & -> & Hls)]; [done|]. apply wp_ret. specialize (HQ l0 w0 l v w []). cbn in HQ.
    rewrite Nat.add_0_r, app_nil_r in HQ. apply HQ; [done|constructor|done]. }
  rewrite length_app in *. assert (0 < length batch)%nat as Hpos by (destruct batch; [done|simpl; lia]).
  apply Forall_app in Ht as [Ht1 Ht2]. rewrite El. apply wp_bind, Hroom; [lia|lia|].
  intros l0 w0 l1 v1 w1 Hh Hls1 Hu1. apply wp_bind. eapply (wp_fill_listing l0 w0 ltac:(done) hpux_listed); [|exact Hls1|lia|].
  { intros a Ha. apply fill_pst_ok. by eapply Forall_forall in Ht1. }
  intros v2 w2 ds Hds Hu2 Hls2. cbn [fst snd]. rewrite decide_False by auto.
  eapply IH; [lia|done|by eapply room_grow|right; by eexists _, _, _, _|lia|]. intros l2 w3 l3 v3 w4 ds' Hh3 Hds' Hls3.
  rewrite <- Nat.add_assoc. apply (HQ l2 w3 l3 v3 w4 (ds ++ ds')); [done|by apply Forall2_app|].
  rewrite fmap_app, app_assoc, Nat.add_assoc. done.
Qed.

(** C38: On HP-UX, for a non-empty process table in the order of its non-negative indices and a pstat_getproc
    that delivers from an index on the next entries of the table, at least one if there is one and however many
    it chooses (its documented behaviour), the loop ends: with fuel for one call more than there are processes
    the call succeeds, and the list has exactly one item per process of the table, in order, with the two texts,
    the ids, context switches and sizes modulo 2^64, the times, the cpu percentage, the nice value and the state
    of the process. Conditions: at most 2^31 processes, texts without zero bytes, an earlier list (if there is
    one) well formed, no allocation fails. The session id is not claimed: the code does not set it. *)
Theorem hpux_process_list getproc ps fuel o w :
  StronglySorted (fun i j => pst_idx i < pst_idx j) ps -> Forall (fun i => 0 <= pst_idx i) ps -> lists_table pst_idx getproc ps ->
  ps <> [] -> (length ps < fuel)%nat -> Z.of_nat (length ps) <= 2 ^ 31 -> Forall pst_texts_ok ps ->
  old_list o w -> wf_heap w -> (AFail ∉ e_allocs (w_env w)) ->
  wp (process_stats_hpux fuel getproc o) (delivers_list hpux_listed ps) w.
Proof.
  intros Hs H0 Hg Hne Hf Hlen Ht Ho Hh Ha. pose proof (batches_of_table _ _ _ Hs H0 Hg) as Hb. unfold process_stats_hpux, allocated.
  apply wp_bind, wp_in_env, wp_alloc_request; [done|]. intros c e1 Hc He1.
  assert (forall (x y : M world (sg_error * vptr)), match c with AFail => x | _ => y end = y) as -> by (by destruct c).
  apply wp_bind. eapply wp_hpux_processes; [exact Hb|done|done| |by left|done|].
  { apply room_first; [by destruct o|done|cbn; calm]. }
  intros l0 w0 l v w' ds Hh0 Hds Hls. cbn [fst snd Nat.add app] in *. rewrite decide_False by auto. by eapply wp_trim_list.
Qed.

(** * Solaris *)

(** A file that is read in one piece whenever it can be opened; [file] is what it holds. *)
Definition read_whole {A} (file : Z -> option A) : proc_file A := fun pid => (fun a _ => Some a) <$> file pid.

Section solaris.
Context (info : Z -> option psinfo_t) (switches : Z -> option (Z * Z)).

(** The processes whose psinfo file can still be opened, and what their two files hold. *)
Definition shown_by (pids : list Z) : list (psinfo_t * option (Z * Z)) :=
  omap (fun pid => (fun i => (i, switches pid)) <$> info pid) pids.

(** The item of a process. The session is not told, the switches are told by the usage file only, and the state is
    told for the numbers 1 to 5. *)
Definition solaris_listed (p : psinfo_t * option (Z * Z)) (d : sg_process_stats) : Prop :=
  let i := p.1 in
  exists sessid all vol invol state,
  d = mk_process_stats (CStr (pr_fname i)) (CStr (pr_psargs i)) (pr_pid i) (pr_ppid i) (pr_pgid i) sessid
    (pr_uid i) (pr_euid i) (pr_gid i) (pr_egid i) all vol invol ((pr_size i * 1024) mod 2 ^ 64) ((pr_rssize i * 1024) mod 2 ^ 64)
    (pr_start i) (pr_time i)
    (double_div (double_mul (double_of (pr_pctcpu i)) (double_of 100)) (double_of 32768)) (pr_nice i - 20) state sys_time /\
  (forall vctx ictx, p.2 = Some (vctx, ictx) -> vol = vctx /\ invol = ictx /\ all = (vctx + ictx) mod 2 ^ 64) /\
  (pr_state i = 1 -> state = SG_PROCESS_STATE_SLEEPING) /\
  (pr_state i = 2 \/ pr_state i = 5 -> state = SG_PROCESS_STATE_RUNNING) /\
  (pr_state i = 3 -> state = SG_PROCESS_STATE_ZOMBIE) /\
  (pr_state i = 4 -> state = SG_PROCESS_STATE_STOPPED).

Definition psinfo_texts_ok (p : psinfo_t * option (Z * Z)) : Prop := no_nul (pr_fname p.1) = true /\ no_nul (pr_psargs p.1) = true.

Lemma fill_psinfo_ok i u : psinfo_texts_ok (i, u) -> fills_process (solaris_listed (i, u)) (fill_psinfo i (Some <$> u)).
Proof.
  clear info switches. intros [Hn Ht] d Q e Hd Ha HQ. apply wp_bind, wp_set_texts; [exact Hd|done|done|done|]. intros e' He'. cbn [fst snd].
  rewrite decide_False by auto. destruct u as [[vctx ictx]|]; cbn; apply wp_ret, HQ; try done; try (cbn; cbn in Hn, Ht; by rewrite Hn, Ht).
  - eexists _, _, _, _, _. split; [reflexivity|]. cbn. unfold solaris_state. split; [by intros ?? [= <- <-]|].
    repeat split; intros H; repeat case_match; naive_solver lia.
  - eexists _, _, _, _, _. split; [reflexivity|]. cbn. unfold solaris_state. split; [by intros|].
    repeat split; intros H; repeat case_match; naive_solver lia.
Qed.

Lemma wp_solaris_page l0 w0 page : forall n bufs xs l v (Q : sg_error * nat * solaris_locals -> world -> Prop) w,
  Forall psinfo_texts_ok (shown_by page) -> listing l0 w0 n xs l v w -> Z.of_nat (n + length page) <= used_count v ->
  (forall v' w' ds bufs', Forall2 solaris_listed (shown_by page) ds -> listing l0 w0 (n + length ds) (xs ++ (IProcess <$> ds)) l v' w' ->
     Q (SG_ERROR_NONE, (n + length ds)%nat, bufs') w') ->
  wp (solaris_page (read_whole info) (read_whole switches) page n bufs (Some l)) Q w.
Proof.
  induction page as [|pid page IH]; intros n bufs xs l v Q w Ht Hls Hn HQ; cbn [solaris_page].
  { apply wp_ret. specialize (HQ v w [] bufs). cbn in HQ. rewrite Nat.add_0_r, app_nil_r in HQ. by apply HQ. }
  cbn [length] in Hn. unfold shown_by in Ht, HQ. cbn [omap list_omap] in Ht, HQ. unfold read_whole at 1.
  destruct (info pid) as [i|]; cbn [fmap option_fmap option_map] in *.
  2: { eapply IH; [done|exact Hls|lia|done]. }
  apply Forall_cons in Ht as [Hi Ht]. apply wp_bind.
  replace (_ <$> read_whole switches pid) with (Some <$> switches pid).
  2: { unfold read_whole. by destruct (switches pid). }
  eapply (wp_update_process l0 w0 (solaris_listed (i, switches pid))); [exact Hls|lia|by apply fill_psinfo_ok|].
  intros v' w' d Hd Hu Hls'. rewrite decide_False by auto. eapply IH; [done|exact Hls'|lia|].
  intros v2 w2 ds bufs' Hds Hls2. specialize (HQ v2 w2 (d :: ds) bufs'). cbn [length fmap list_fmap] in HQ.
  rewrite Nat.add_succ_r in HQ. apply HQ; [by constructor|]. by rewrite <- app_assoc in Hls2.
Qed.

Lemma shown_length pids : (length (shown_by pids) <= length pids)%nat.
Proof. induction pids as [|pid pids IH]; [done|]. unfold shown_by in *. cbn. destruct (info pid); cbn; lia. Qed.

Lemma wp_solaris_pages chain : Forall (fun page => page <> []) chain ->
  forall n bufs xs p (Q : sg_error * nat * vptr -> world -> Prop) w,
  Forall psinfo_texts_ok (shown_by (mjoin chain)) -> room p n xs w -> chain <> [] \/ listed_at p n xs w ->
  Z.of_nat (n + length (mjoin chain)) <= 2 ^ 31 ->
  (forall l0 w0 l' v' w' ds, wf_heap w0 -> Forall2 solaris_listed (shown_by (mjoin chain)) ds ->
     listing l0 w0 (n + length ds) (xs ++ (IProcess <$> ds)) l' v' w' -> Q (SG_ERROR_NONE, (n + length ds)%nat, Some l') w') ->
  wp (solaris_pages (read_whole info) (read_whole switches) chain n bufs p) Q w.
Proof.
  intros HF. induction HF as [|page chain Hp HF IH]; intros n bufs xs p Q w Ht Hroom Hor Hlen HQ; cbn [solaris_pages].
  { destruct Hor as [Hne|(l0 & w0 & l & v & Hh & -> & Hls)]; [done|]. apply wp_ret. specialize (HQ l0 w0 l v w []). cbn in HQ.
    rewrite Nat.add_0_r, app_nil_r in HQ. by apply HQ. }
  assert (shown_by (mjoin (page :: chain)) = shown_by page ++ shown_by (mjoin chain)) as Es by (unfold shown_by; apply omap_app).
  rewrite Es in *. change (mjoin (page :: chain)) with (page ++ mjoin chain) in Hlen. rewrite length_app in Hlen.
  apply Forall_app in Ht as [Ht1 Ht2]. assert (0 < length page)%nat by (destruct page; [done|cbn; lia]).
  apply wp_bind, Hroom; [lia|lia|]. intros l0 w0 l1 v1 w1 Hh Hls1 Hu1.
  apply wp_bind. eapply wp_solaris_page; [done|exact Hls1|lia|]. intros v2 w2 ds bufs' Hds Hls2. cbn [fst snd].
  rewrite decide_False by auto. pose proof (Forall2_length _ _ _ Hds) as Hl. pose proof (shown_length page).
  eapply IH; [done|by eapply room_grow|right; by eexists _, _, _, _|lia|]. intros l2 w3 l3 v3 w4 ds' Hh3 Hds' Hls3.
  specialize (HQ l2 w3 l3 v3 w4 (ds ++ ds')). rewrite length_app, Nat.add_assoc, fmap_app, app_assoc in HQ.
  apply HQ; [done|by apply Forall2_app|done].
Qed.

(** C24: On Solaris, when every psinfo or usage file that can be opened is read completely (the code does not
    look at the result of fread: lemma solaris_stale_entry and a finding show what a failed read does), /proc
    can be opened and read to its end, at least one process is shown, there are at most 2^31 process entries,
    the texts hold no zero byte, an earlier list (if there is one) is well formed, no allocation fails and a
    page holds at least one id, the call succeeds and the list has exactly one item per process of /proc whose
    psinfo file can still be opened, in the order of the directory, however many pages the ids need, with the
    two texts, the ids, the sizes in bytes modulo 2^64, the times, the cpu percentage and the nice value of the
    file; the state for the state numbers 1 to 5 (other numbers leave it open), and the context switches when
    the usage file can be opened. The session id is not claimed: the code does not set it. *)
Theorem solaris_process_list entries o w :
  items_offset + 4 <= sys_page_size ->
  let ps := shown_by (omap entry_pid entries) in
  ps <> [] -> Z.of_nat (length (omap entry_pid entries)) <= 2 ^ 31 -> Forall psinfo_texts_ok ps ->
  old_list o w -> wf_heap w -> (AFail ∉ e_allocs (w_env w)) ->
  wp (process_stats_solaris (read_whole info) (read_whole switches) (inl (entries, 0)) o) (delivers_list solaris_listed ps) w.
Proof.
  intros Hsz ps Hne Hlen Ht Ho Hh Ha. apply wp_bind, wp_in_env, wp_scan_proc_dir; [done|done|].
  intros chain e He Hch _ Hfl Hj. unfold ps in *. rewrite <- Hj in *. clear Hj ps. destruct chain as [|page chain]; [done|].
  assert (page <> []) as Hp.
  { intros ->. destruct Hfl as [[x [= <- ->]]|Hfl]; [done|]. by apply Forall_cons in Hfl as [? _]. }
  apply wp_bind. eapply wp_solaris_pages; [constructor; [done|by apply filled_tail in Hfl]|done| |by left|done|].
  { apply room_first; [by destruct o|done|cbn; calm]. }
  intros l0 w0 l v w1 ds Hh0 Hds Hls. cbn [fst snd Nat.add app] in *. rewrite decide_False by auto.
  pose proof (shown_length (mjoin (page :: chain))). rewrite <- (Forall2_length _ _ _ Hds) in *. eapply wp_trim_list; [done|exact Hls|done|done|lia].
Qed.
End solaris.

(** The result of the [fread] is not looked at: when nothing can be read from the files of a process, process_info
    still holds the process before it, which is listed a second time under its id. *)
Lemma solaris_stale_entry psinfo l0 w0 pid pid' i n bufs xs l v (Q : sg_error * nat * solaris_locals -> world -> Prop) w usage :
  psinfo pid = Some (fun _ => Some i) -> psinfo pid' = Some (fun before => before) -> usage pid = None -> usage pid' = None ->
  psinfo_texts_ok (i, None) -> listing l0 w0 n xs l v w -> Z.of_nat (n + 2) <= used_count v ->
  (forall v' w' d d' bufs', solaris_listed (i, None) d -> solaris_listed (i, None) d' ->
     listing l0 w0 (S (S n)) (xs ++ [IProcess d; IProcess d']) l v' w' -> Q (SG_ERROR_NONE, S (S n), bufs') w') ->
  wp (solaris_page psinfo usage [pid; pid'] n bufs (Some l)) Q w.
Proof.
  intros H1 H2 U1 U2 Ht Hls Hu HQ. cbn [solaris_page]. rewrite H1, U1. cbn [fmap option_fmap option_map].
  apply wp_bind. eapply (wp_update_process l0 w0 (solaris_listed (i, None))); [exact Hls|lia|by apply (fill_psinfo_ok i None)|].
  intros v1 w1 d1 Hd1 Hu1 Hls1. rewrite decide_False by auto. rewrite H2, U2. cbn [fst snd default option_fmap option_map fmap].
  apply wp_bind. eapply (wp_update_process l0 w0 (solaris_listed (i, None))); [exact Hls1|lia|by apply (fill_psinfo_ok i None)|].
  intros v2 w2 d2 Hd2 Hu2 Hls2. rewrite decide_False by auto. apply wp_ret. eapply (HQ v2 w2 d1 d2); [done|done|].
  by rewrite <- app_assoc in Hls2.
Qed.

(** * FreeBSD, DragonFly, OpenBSD and Mac OS X *)

Section kinfo.
Context {A : Type} (view : A -> kinfo_proc) (assign : A -> kl_stat_t -> sg_process_stats -> sg_process_stats).
Context (darwin : bool) (base : Z) (argv : argv_call) (arg_max : nat).
(** The assignments are those of a process and leave the texts alone. *)
Hypothesis assign_pid : forall a t d, ps_pid (assign a t d) = kp_pid (view a).
Hypothesis assign_texts : forall a t d, ps_process_name (assign a t d) = ps_process_name d /\ ps_proctitle (assign a t d) = ps_proctitle d.

(** What is found out about the title of a process: [inl tt] when it is skipped, [inr None] for a kernel process. *)
Definition title_is (a : A) (t : unit + option string) : Prop :=
  if kp_pid (view a) =? 0 then t = inr None
  else match t with inr (Some s) => no_nul s = true | _ => True end /\
       forall e, exists er, kinfo_title darwin base argv arg_max (kp_pid (view a)) e = Done t (set_errno er e).

(** The processes that are stored, with the titles that are shown. *)
Fixpoint stored_of (l : list (A * (unit + option string))) : list (A * option string) :=
  match l with
  | [] => []
  | (a, t) :: l' =>
      match t with
      | inr title => if kp_used (view a) then (a, title) :: stored_of l' else stored_of l'
      | inl _ => stored_of l'
      end
  end.

(** The item of the [j]-th process stored has the name of the [j]-th process of all. *)
Definition kinfo_listed (p : (A * option string) * A) (d : sg_process_stats) : Prop :=
  let '((a, title), named) := p in
  let name := kp_comm (view named) in
  exists d0, d = ps_set_systime sys_time (ps_set_names (CStr name) (CStr (default ("[" +:+ name +:+ "]") title))
                   (assign a (kl_stat (view named)) d0)).

Lemma wp_kernel_proctitle arg name d (Q : sg_error * sg_process_stats -> env -> Prop) e :
  ps_process_name d = CStr name -> (AFail ∉ e_allocs e) ->
  (forall e', calmer e e' -> Q (SG_ERROR_NONE, ps_set_names (CStr name) (CStr ("[" +:+ name +:+ "]")) d) e') ->
  wp (kernel_proctitle arg d) Q e.
Proof.
  intros Hn Ha HQ. unfold kernel_proctitle. rewrite Hn. apply wp_bind, wp_ret, wp_bind, wp_alloc_request; [done|].
  intros c e' Hc He'. destruct c; [done|apply wp_ret, HQ; done..].
Qed.

Lemma bracketed_no_nul name : no_nul name = true -> no_nul ("[" +:+ name +:+ "]") = true.
Proof.
  intros Hn. apply bool_decide_eq_true in Hn. apply bool_decide_eq_true.
  change ("[" +:+ ?x) with (String "[" x). cbn [String.list_ascii_of_string]. rewrite list_ascii_app, elem_of_cons, elem_of_app.
  cbn. rewrite list_elem_of_singleton. intros [?|[?|?]]; done.
Qed.

Lemma wp_kinfo_step l0 w0 a named t n xs l v (Q : sg_error * bool -> world -> Prop) w :
  title_is a t -> no_nul (kp_comm (view named)) = true ->
  listing l0 w0 n xs l v w -> Z.of_nat n + 1 <= used_count v ->
  (forall v' w', used_count v' = used_count v ->
     match t with
     | inl _ => listing l0 w0 n xs l v' w' -> Q (SG_ERROR_NONE, false) w'
     | inr title => forall d, kinfo_listed (a, title, named) d -> listing l0 w0 (S n) (xs ++ [IProcess d]) l v' w' -> Q (SG_ERROR_NONE, true) w'
     end) ->
  wp (kinfo_step darwin base argv arg_max (kp_comm (view named)) (assign a (kl_stat (view named))) l n) Q w.
Proof.
  intros Ht Hn Hls Hu HQ. set (name := kp_comm (view named)) in *. set (asg := assign a (kl_stat (view named))).
  destruct (listing_slot _ _ _ _ _ _ _ Hls Hu) as (d0 & Hd0 & Hlive0).
  apply wp_bind. eapply wp_update_slot; [done..|]. pose proof Hlive0 as [Hl1 Hl2]%andb_true_iff.
  apply wp_bind, wp_sg_update_string; [done|done| |intros Ha; by destruct (ls_calm _ _ _ _ _ _ _ Hls)]. intros e1 He1. cbn [fst snd].
  rewrite decide_False by auto. set (d1 := ps_set_names (CStr name) (ps_proctitle d0) d0).
  destruct (assign_texts a (kl_stat (view named)) d1) as [En Et]. fold asg in En, Et.
  assert (item_live Kprocess (IProcess (asg d1)) = true) as Hlive1 by (cbn; rewrite En, Et; cbn; by rewrite Hn, Hl2).
  apply wp_ret. split_and!; [done|done|]. intros v1 w1 Hu1 Hw1 Hd1 Hls1 _. cbn [fst]. rewrite decide_False by auto.
  assert (w_vecs w1 !! l = Some v1) as Hl by (eapply replaced_lookup; apply Hls1).
  apply wp_bind. eapply wp_read_item; [done..|].
  change (ps_pid (as_process _)) with (ps_pid (assign a (kl_stat (view named)) d1)). rewrite assign_pid.
  assert (exists e2, calmer (w_env w1) e2 /\ forall (R : unit + option string -> world -> Prop), R t (with_env e2 w1) ->
    wp (if kp_pid (view a) =? 0 then mret (inr None) else in_env (kinfo_title darwin base argv arg_max (kp_pid (view a)))) R w1) as (e2 & He2 & Htitle).
  { unfold title_is in Ht. destruct (kp_pid (view a) =? 0).
    - subst t. exists (w_env w1). split; [done|]. intros R HR. apply wp_ret. by destruct w1.
    - destruct Ht as [_ Ht]. destruct (Ht (w_env w1)) as [er E]. exists (set_errno er (w_env w1)). split; [by unfold calmer|].
      intros R HR. apply wp_in_env. unfold wp. by rewrite E. }
  apply wp_bind, Htitle. assert (listing l0 w0 n xs l v1 (with_env e2 w1)) as Hls2 by (by apply listing_env).
  destruct t as [[]|title]; [by apply wp_ret, (HQ v1)|].
  assert (forall s, title = Some s -> no_nul s = true) as Hs.
  { intros s ->. unfold title_is in Ht. destruct (kp_pid (view a) =? 0); [done|]. apply Ht. }
  assert (Z.of_nat n + 1 <= used_count v1) as Hu1' by lia.
  apply wp_bind. eapply wp_update_slot; [exact Hls2|done|exact Hd1|]. cbn [snd].
  set (shown := default ("[" +:+ name +:+ "]") title).
  assert (no_nul shown = true) as Hshown.
  { unfold shown. destruct title as [s|]; [by apply Hs|by apply bracketed_no_nul]. }
  apply wp_bind. match goal with |- wp ?m ?R ?e => assert (forall e', calmer e2 e' -> R (SG_ERROR_NONE, ps_set_names (CStr name) (CStr shown) (asg d1)) e') as HR end.
  { intros e' He'. cbn [fst snd]. rewrite decide_False by auto. apply wp_ret. split_and!; [cbn; by rewrite Hn, Hshown|done|].
    intros v2 w2 Hu2 _ _ _ Hls3. apply wp_ret. cbn [fst]. rewrite bool_decide_eq_true_2 by done.
    eapply (HQ v2); [lia| |exact Hls3]. by exists d1. }
  destruct title as [s|].
  - apply wp_bind, wp_sg_update_string; [change (ptr_ok (ps_proctitle (asg d1)) = true); by rewrite Et|by apply Hs| |intros Ha; by destruct (ls_calm _ _ _ _ _ _ _ Hls2)].
    intros e' He'. cbn [fst snd]. rewrite decide_False by auto. apply wp_ret.
    change (ps_set_names _ _ _) with (ps_set_names (ps_process_name (asg d1)) (CStr shown) (asg d1)). rewrite En. by apply HR.
  - apply (wp_kernel_proctitle None name); [done|apply Hls2|done].
Qed.

Definition kinfo_names_ok (l : list A) : Prop := Forall (fun a => no_nul (kp_comm (view a)) = true) l.

Lemma stored_length l : (length (stored_of l) <= length l)%nat.
Proof. induction l as [|[a [u|t]] l IH]; cbn; [done|lia|]. destruct (kp_used (view a)); cbn; lia. Qed.

Lemma wp_kinfo_loop l0 w0 all ks ts : Forall2 (fun a t => kp_used (view a) = true -> title_is a t) ks ts -> kinfo_names_ok all ->
  forall n xs l v (Q : sg_error * nat -> world -> Prop) w,
  listing l0 w0 n xs l v w -> (n + length ks <= length all)%nat -> Z.of_nat (n + length ks) <= used_count v ->
  (forall v' w' ds, Forall2 kinfo_listed (zip (stored_of (zip ks ts)) (drop n all)) ds -> used_count v' = used_count v ->
     listing l0 w0 (n + length ds) (xs ++ (IProcess <$> ds)) l v' w' -> Q (SG_ERROR_NONE, (n + length ds)%nat) w') ->
  wp (kinfo_loop view assign darwin base argv arg_max all ks l n) Q w.
Proof using assign_pid assign_texts.
  intros HF Hall. induction HF as [|a t ks ts Ht HF IH]; intros n xs l v Q w Hls Hn Hu HQ; cbn [kinfo_loop].
  { apply wp_ret. specialize (HQ v w []). cbn in HQ. rewrite Nat.add_0_r, app_nil_r in HQ. by apply HQ. }
  cbn [length zip zip_with stored_of] in *.
  destruct (kp_used (view a)) eqn:Eu; cbn [negb].
  2: { eapply (IH n); [exact Hls|lia|lia|]. by destruct t. }
  destruct (lookup_lt_is_Some_2 all n) as [named En]; [lia|]. rewrite En. apply wp_bind.
  eapply wp_kinfo_step; [by apply Ht|exact (Forall_lookup_1 _ _ _ _ Hall En)|exact Hls|lia|].
  intros v' w' Hu'. destruct t as [[]|title].
  - intros Hls'. cbn [fst snd]. rewrite decide_False by auto. eapply (IH n); [exact Hls'|lia|lia|].
    intros v2 w2 ds Hds Hu2. apply HQ; [done|lia].
  - intros d Hd Hls'. cbn [fst snd]. rewrite decide_False by auto. eapply (IH (S n)); [exact Hls'|lia|lia|].
    intros v2 w2 ds Hds Hu2 Hls2. specialize (HQ v2 w2 (d :: ds)). cbn [length fmap list_fmap] in HQ.
    rewrite Nat.add_succ_r in HQ. apply HQ; [|lia|by rewrite <- app_assoc in Hls2].
    rewrite (drop_S _ _ _ En). cbn. by constructor.
Qed.

(** The call that is repeated while the list does not fit. *)
Lemma wp_sysctl_processes sizeof_kp arg (again : list nat) n (ks : list A) (Q : sg_error + (nat * list A) -> env -> Prop) e :
  (1 <= sizeof_kp)%nat -> Forall (fun m => 1 <= m)%nat (again ++ [n]) -> (AFail ∉ e_allocs e) ->
  (forall e', calmer e e' -> Q (inr (n, ks)) e') ->
  wp (sysctl_processes sizeof_kp arg (((fun m => (inl m, inr ENOMEM)) <$> again) ++ [(inl n, inl ks)])) Q e.
Proof.
  intros Hs. revert Q e. induction again as [|m again IH]; intros Q e HF Ha HQ; apply Forall_cons in HF as [Hm HF];
    cbn [fmap list_fmap app sysctl_processes]; apply wp_bind, wp_ret, wp_bind;
    (apply wp_sg_realloc; [done|nia|by intros ?%Ha|]); intros b e1 Hb He1; apply wp_bind.
  - by apply wp_ret, wp_ret, HQ.
  - apply wp_bind, wp_modify, wp_ret, wp_bind, wp_gets. cbn. apply IH; [done|cbn; by intros ?%He1|].
    intros e' He'. apply HQ. intros ?%He'. by apply He1.
Qed.

Lemma wp_store_processes {B} (R : B -> sg_process_stats -> Prop) ps ds l0 w0 l v w :
  wf_heap w0 -> listing l0 w0 (length ps) (IProcess <$> ds) l v w -> Forall2 R ps ds -> ps <> [] -> Z.of_nat (length ps) <= 2 ^ 31 ->
  wp (store_processes (length ps) (Some l)) (delivers_list R ps) w.
Proof.
  intros Hh Hls HF Hne Hlen. assert (0 < length ps)%nat by (destruct ps; [done|cbn; lia]).
  apply wp_bind. eapply (wp_grow l0 w0 Hh _ _ (length ps)); [exact Hls|lia|lia|]. intros l1 v1 w1 Hls1 _. by eapply wp_trim_list.
Qed.

(** The processes in the order of the system, those that are not used or whose title cannot be read left out; the
    [j]-th item has the name of the [j]-th process the system delivered. *)
Lemma wp_process_stats_kinfo sizeof_kp again ks ts o w :
  (1 <= sizeof_kp)%nat -> (1 <= arg_max)%nat -> Forall (fun m => 1 <= m)%nat again ->
  Forall2 (fun a t => kp_used (view a) = true -> title_is a t) ks ts -> kinfo_names_ok ks -> stored_of (zip ks ts) <> [] ->
  Z.of_nat (length ks) <= 2 ^ 31 -> old_list o w -> wf_heap w -> (AFail ∉ e_allocs (w_env w)) ->
  wp (process_stats_kinfo view assign darwin sizeof_kp arg_max base
        (((fun m => (inl m, inr ENOMEM)) <$> again) ++ [(inl (length ks), inl ks)]) argv o)
     (delivers_list kinfo_listed (zip (stored_of (zip ks ts)) ks)) w.
Proof using assign_pid assign_texts.
  intros Hs Hm Hag HF Hn Hne Hlen Ho Hh Ha. unfold process_stats_kinfo, malloced.
  pose proof (stored_length (zip ks ts)) as Hst. pose proof (Forall2_length _ _ _ HF) as Hlt. rewrite length_zip_with_l_eq in Hst by lia.
  assert (1 <= length ks)%nat as Hk by (destruct (stored_of (zip ks ts)); [done|cbn in Hst; lia]).
  apply wp_bind, wp_in_env, wp_sg_realloc; [done|lia|by intros ?%Ha|]. intros b e1 _ He1.
  apply wp_bind, wp_in_env, wp_sysctl_processes; [done|by apply Forall_app; split; [|by apply Forall_singleton]|cbn; calm|].
  intros e2 He2. rewrite (proj2 (Nat.ltb_ge _ _)) by lia. rewrite take_ge by lia.
  apply wp_bind, wp_first_room; [by destruct o|done|cbn; lia|cbn; calm|].
  intros l0 w0 l v w1 Hh0 Hls Hu. destruct ks as [|k ks']; [cbn in Hk; lia|]. set (ks := k :: ks') in *.
  apply wp_bind. eapply (wp_kinfo_loop l0 w0 ks ks ts); [done|done|exact Hls|lia|cbn in *; lia|].
  intros v2 w2 ds Hds Hu2 Hls2. cbn [fst snd]. rewrite decide_False by auto. cbn [Nat.add app drop] in *.
  pose proof (Forall2_length _ _ _ Hds) as Hd.
  rewrite <- Hd in *. eapply wp_store_processes; [exact Hh0|exact Hls2|exact Hds| |].
  - destruct (stored_of (zip ks ts)); done.
  - rewrite length_zip_with; lia.
Qed.
End kinfo.

Lemma stored_all {A} (view : A -> kinfo_proc) ks titles :
  Forall (fun a => kp_used (view a) = true) ks -> stored_of view (zip ks (inr <$> titles)) = zip ks titles.
Proof.
  intros HF. revert titles. induction HF as [|a ks Ha HF IH]; intros [|t titles]; try done. cbn. rewrite Ha. f_equal. apply IH.
Qed.

(** The item of a process with its title, [None] for a kernel process. *)
Definition titled {A} (view : A -> kinfo_proc) (assign : A -> sg_process_stats -> sg_process_stats)
    (p : A * option string) (d : sg_process_stats) : Prop :=
  let name := kp_comm (view p.1) in
  exists d0, d = ps_set_systime sys_time (ps_set_names (CStr name) (CStr (default ("[" +:+ name +:+ "]") p.2)) (assign p.1 d0)).

Lemma delivers_own {A} (view : A -> kinfo_proc) assign ks titles r w :
  length titles = length ks ->
  delivers_list (kinfo_listed view assign) (zip (zip ks titles) ks) r w ->
  delivers_list (titled view (fun k => assign k (kl_stat (view k)))) (zip ks titles) r w.
Proof.
  intros Hl (Hr & l & v & ds & H1 & H2 & H3 & HF & H4). split; [done|]. exists l, v, ds. split_and!; try done. clear - HF Hl.
  revert titles ds Hl HF. induction ks as [|k ks IH]; intros [|t titles] ds Hl HF; try done.
  { apply Forall2_nil_inv_l in HF as ->. constructor. }
  cbn in Hl, HF. apply Forall2_cons_inv_l in HF as (d & ds' & Hd & HF & ->). cbn. constructor; [exact Hd|]. apply IH; [lia|done].
Qed.

(** Every entry of the list of the kernel is a process and the arguments of all of them can be read. *)
Lemma wp_kinfo_complete {A} (view : A -> kinfo_proc) assign darwin base argv sizeof_kp arg_max again ks titles o w :
  (forall a t d, ps_pid (assign a t d) = kp_pid (view a)) ->
  (forall a t d, ps_process_name (assign a t d) = ps_process_name d /\ ps_proctitle (assign a t d) = ps_proctitle d) ->
  (1 <= sizeof_kp)%nat -> (1 <= arg_max)%nat -> Forall (fun m => 1 <= m)%nat again ->
  Forall (fun k => kp_used (view k) = true /\ no_nul (kp_comm (view k)) = true) ks ->
  Forall2 (fun k t => title_is view darwin base argv arg_max k (inr t)) ks titles -> ks <> [] ->
  Z.of_nat (length ks) <= 2 ^ 31 -> old_list o w -> wf_heap w -> (AFail ∉ e_allocs (w_env w)) ->
  wp (process_stats_kinfo view assign darwin sizeof_kp arg_max base
        (((fun m => (inl m, inr ENOMEM)) <$> again) ++ [(inl (length ks), inl ks)]) argv o)
     (delivers_list (titled view (fun k => assign k (kl_stat (view k)))) (zip ks titles)) w.
Proof.
  intros Hpid Htx Hs Hm Hag Hks Ht Hne Hlen Ho Hh Ha. pose proof (Forall2_length _ _ _ Ht) as Hl.
  assert (Forall (fun k => kp_used (view k) = true) ks) as Hu by (eapply Forall_impl; [exact Hks|by intros ? []]).
  eapply wp_mono; [|intros r w'; by apply delivers_own].
  rewrite <- (stored_all view ks titles) by done. eapply wp_process_stats_kinfo; try done.
  - apply Forall2_fmap_r. eapply Forall2_impl; [exact Ht|]. by intros k t H _.
  - eapply Forall_impl; [exact Hks|by intros ? []].
  - rewrite stored_all by done. destruct ks, titles; try done.
Qed.

(** The item on FreeBSD, DragonFly and OpenBSD, and the one on Mac OS X. *)
Definition bsd_listed (var : kinfo_variant) : kinfo_proc * option string -> sg_process_stats -> Prop :=
  titled (fun k => k) (fun k => assign_kinfo var k (kl_stat k)).

Definition darwin_listed (FSCALE : Z) : darwin_proc * option string -> sg_process_stats -> Prop :=
  titled dp_kinfo (assign_darwin FSCALE).

(** On FreeBSD, DragonFly and OpenBSD, where every entry of the list of the kernel is a process and the arguments
    of all of them can be read, the list has one item per process, in order, with its name, its title (the name in
    brackets for a kernel process), ids, sizes, times and state; also when the list outgrows the buffer several
    times before it fits. *)
Theorem bsd_process_list var base argv sizeof_kp arg_max again ks titles o w :
  (1 <= sizeof_kp)%nat -> (1 <= arg_max)%nat -> Forall (fun m => 1 <= m)%nat again ->
  Forall (fun k => kp_used k = true /\ no_nul (kp_comm k) = true) ks ->
  Forall2 (fun k t => title_is (fun k => k) false base argv arg_max k (inr t)) ks titles -> ks <> [] ->
  Z.of_nat (length ks) <= 2 ^ 31 -> old_list o w -> wf_heap w -> (AFail ∉ e_allocs (w_env w)) ->
  wp (process_stats_bsd var sizeof_kp arg_max base
        (((fun m => (inl m, inr ENOMEM)) <$> again) ++ [(inl (length ks), inl ks)]) argv o)
     (delivers_list (bsd_listed var) (zip ks titles)) w.
Proof. apply wp_kinfo_complete; by intros a t d; destruct var. Qed.

(** The same on Mac OS X, with the values of the task and process calls. *)
Theorem darwin_process_list FSCALE base argv sizeof_kp arg_max again ks titles o w :
  (1 <= sizeof_kp)%nat -> (1 <= arg_max)%nat -> Forall (fun m => 1 <= m)%nat again ->
  Forall (fun k => kp_used (dp_kinfo k) = true /\ no_nul (kp_comm (dp_kinfo k)) = true) ks ->
  Forall2 (fun k t => title_is dp_kinfo true base argv arg_max k (inr t)) ks titles -> ks <> [] ->
  Z.of_nat (length ks) <= 2 ^ 31 -> old_list o w -> wf_heap w -> (AFail ∉ e_allocs (w_env w)) ->
  wp (process_stats_darwin FSCALE sizeof_kp arg_max base
        (((fun m => (inl m, inr ENOMEM)) <$> again) ++ [(inl (length ks), inl ks)]) argv o)
     (delivers_list (darwin_listed FSCALE) (zip ks titles)) w.
Proof.
  apply (wp_kinfo_complete dp_kinfo (fun p _ => assign_darwin FSCALE p));
    intros a t d; unfold assign_darwin; destruct (default _ (dp_task a)) as [[[[]]]], (default _ (dp_ru a)); done.
Qed.

(** * AIX *)

Section aix.
Context (ncpus : Z) (now_time : double) (comm_size : nat) (base : Z).
(** What getargs and adjust_procname_cmndline make of the arguments of a process. *)
Context (cmndline : procentry64 -> option string).

Definition aix_listed (i : procentry64) (d : sg_process_stats) : Prop :=
  let '(utime, stime) := aix_times i in
  let comm := aix_comm comm_size i in
  exists sess, d = mk_process_stats (CStr comm) (CStr (default comm (cmndline i))) (pi_pid i) (pi_ppid i) (pi_pgrp i) sess
    (crx_ruid i) (crx_uid i) (crx_rgid i) (crx_gid i) (u64 (ru_nvcsw i + ru_nivcsw i)) (u64 (ru_nvcsw i)) (u64 (ru_nivcsw i))
    (u64 (pi_dvm i * 4096)) (u64 ((pi_drss i + pi_trss i) * 4096)) (pi_start i) (utime + stime)
    (double_div (double_div (double_mul (double_of (utime + stime)) (double_of 100)) (double_sub now_time (double_of (pi_start i)))) (double_of ncpus))
    (pi_nice i) (aix_state (pi_state i)) sys_time.

Definition aix_texts_ok (i : procentry64) : Prop :=
  no_nul (aix_comm comm_size i) = true /\ no_nul (default EmptyString (cmndline i)) = true /\
  forall e, aix_cmndline base i e = Done (cmndline i) e.

Lemma fill_procentry64_ok i : aix_texts_ok i ->
  fills_item_then Kprocess (fun _ => True) (fun it => exists d, it = IProcess d /\ aix_listed i d)
    (fill_procentry64 ncpus now_time comm_size base i).
Proof.
  intros (Hn & Ht & Hc) it Q e Hit Ha HQ. destruct it as [| | | | | | | | | | | |d| |]; try done.
  unfold fill_procentry64, aix_listed in *. cbn [as_process]. destruct (aix_times i) as [utime stime].
  pose proof Hit as [H1 H2]%andb_true_iff.
  assert (no_nul (default (aix_comm comm_size i) (cmndline i)) = true) as Htt by (by destruct (cmndline i)).
  apply wp_bind. unfold wp at 1. rewrite Hc. apply wp_bind, wp_sg_update_string; [exact H2|exact Htt| |by intros ?%Ha].
  intros e1 He1. cbn [fst snd]. rewrite decide_False by auto.
  apply wp_bind, wp_sg_update_string; [exact H1|exact Hn| |by intros ?%He1]. intros e2 He2.
  apply wp_ret, HQ; [cbn; by rewrite Hn, Htt|by eexists; split; [|by eexists]|by trans e1|done].
Qed.

(** getprocs64 is called again as long as it delivers 250 processes. *)
Inductive answered : list (option (list procentry64)) -> list procentry64 -> Prop :=
  | answered_last batch calls : (length batch < 250)%nat -> answered (Some batch :: calls) batch
  | answered_more batch calls rest : (250 <= length batch)%nat -> answered calls rest -> answered (Some batch :: calls) (batch ++ rest).

Lemma wp_aix_processes calls ps : answered calls ps -> forall n xs p (Q : sg_error * nat * vptr -> world -> Prop) w,
  Forall aix_texts_ok ps -> room p n xs w -> 1 <= Z.of_nat (n + length ps) <= 2 ^ 31 ->
  (forall l0 w0 l v w' ds, wf_heap w0 -> Forall2 aix_listed ps ds -> listing l0 w0 (n + length ps) (xs ++ (IProcess <$> ds)) l v w' ->
     Q (SG_ERROR_NONE, (n + length ps)%nat, Some l) w') ->
  wp (aix_processes (fill_procentry64 ncpus now_time comm_size base) calls n p) Q w.
Proof.
  induction 1 as [batch calls Hb|batch calls rest Hb Hc IH]; intros n xs p Q w Ht Hroom Hlen HQ; cbn [aix_processes]; cbv zeta;
    rewrite ?length_app in *; rewrite wrap_small by lia; rewrite <- Nat2Z.inj_add.
  all: apply wp_bind, Hroom; [lia|lia|]; intros l0 w0 l v w1 Hh Hls Hu; cbn [default id].
  all: apply wp_bind; eapply (wp_fill_listing l0 w0 ltac:(done) aix_listed); [|exact Hls|lia|].
  1, 3: intros a Ha; apply fill_procentry64_ok; eapply Forall_forall in Ht; [exact Ht|set_solver].
  all: intros v2 w2 ds Hds Hu2 Hls2; cbn [fst snd]; rewrite decide_False by auto.
  - rewrite (proj2 (Z.leb_gt _ _)) by lia. apply wp_ret. by eapply HQ.
  - rewrite (proj2 (Z.leb_le _ _)) by lia. apply Forall_app in Ht as [_ Ht].
    eapply IH; [done|by eapply room_grow|lia|]. intros l2 w3 l3 v3 w4 ds' Hh3 Hds' Hls3.
    rewrite <- Nat.add_assoc. apply (HQ l2 w3 l3 v3 w4 (ds ++ ds')); [done|by apply Forall2_app|].
    by rewrite fmap_app, app_assoc, Nat.add_assoc.
Qed.
End aix.

(** On AIX the list has one item per process getprocs64 delivers, in order, in calls of 250 as long as they are full, with
    the name (marked for a kernel process), the command line or else the name as title, the ids, sizes, times and state. *)
Theorem aix_process_list online now_tval comm_size arg_max base cmndline calls ps o w :
  answered calls ps -> ps <> [] -> Forall (aix_texts_ok comm_size base cmndline) ps -> Z.of_nat (length ps) <= 2 ^ 31 ->
  old_list o w -> wf_heap w -> (AFail ∉ e_allocs (w_env w)) ->
  wp (process_stats_aix online now_tval comm_size arg_max base calls o)
     (delivers_list (aix_listed (if online =? -1 then 1 else online) (tval_to_sec 1000000 now_tval) comm_size cmndline) ps) w.
Proof.
  intros Hc Hne Ht Hlen Ho Hh Ha. unfold process_stats_aix, allocated. apply wp_bind, wp_in_env, wp_alloc_request; [done|].
  intros c e1 Hc1 He1. assert (forall (x y : M world (sg_error * vptr)), match c with AFail => x | _ => y end = y) as -> by (by destruct c).
  apply wp_bind, wp_in_env, wp_sg_realloc; [done|lia|cbn; by intros ?%He1|]. intros b e2 _ He2.
  assert (1 <= length ps)%nat by (destruct ps; [done|cbn; lia]).
  apply wp_bind. eapply wp_aix_processes; [exact Hc|exact Ht| |lia|].
  { apply room_first; [by destruct o|done|cbn in *; calm]. }
  intros l0 w0 l v w' ds Hh0 Hds Hls. cbn [fst snd Nat.add app] in *. rewrite decide_False by auto. by eapply wp_trim_list.
Qed.
End process_lists.

(** * NetBSD *)

(** ** Titles *)

Lemma argv_cons a args : argv_bytes (a :: args) = a ++ NUL :: argv_bytes args.
Proof. unfold argv_bytes. cbn. by rewrite <- app_assoc. Qed.

(** Arguments that are not empty have no two terminators side by side. *)
Lemma argv_no_pair args : Forall arg_ok args -> forall i, argv_bytes args !! i = Some NUL -> argv_bytes args !! S i <> Some NUL.
Proof.
  induction 1 as [|a args [Hn H2] HF IH]; intros i Hi; [done|]. rewrite argv_cons in *.
  destruct (decide (i < length a)%nat) as [Hlt|Hge].
  { rewrite lookup_app_l in Hi by done. by apply list_elem_of_lookup_2 in Hi. }
  rewrite lookup_app_r in * by lia. replace (S i - length a)%nat with (S (i - length a)) by lia. cbn [lookup list_lookup].
  destruct (i - length a)%nat as [|j]; [|by apply IH]. destruct HF as [|b args [Hb Hb2] HF]; [done|].
  rewrite argv_cons. destruct b as [|c b]; [cbn in Hb2; lia|]. intros [= ->]. set_solver.
Qed.

Lemma pointer_in_nonneg n : forall b, 0 <= pointer_in n b.
Proof. induction n as [|n IH]; intros [|c b]; cbn; try lia. specialize (IH b). lia. Qed.

Lemma pointer_in_ge n : forall b i c, b !! i = Some c -> c <> NUL -> (i < n)%nat -> 256 ^ Z.of_nat i <= pointer_in n b.
Proof.
  induction n as [|n IH]; intros [|x b] [|i] c Hi Hc Hlt; try done; try lia; cbn [pointer_in].
  - injection Hi as ->. pose proof (pointer_in_nonneg n b). destruct (nat_of_ascii c) as [|m] eqn:E; [|cbn; lia].
    exfalso. apply Hc. by rewrite <- (ascii_nat_embedding c), E.
  - specialize (IH b i c Hi Hc ltac:(lia)). rewrite Nat2Z.inj_succ, Z.pow_succ_r by lia. lia.
Qed.

(** The first eight bytes of the arguments are no address a process can have. *)
Lemma argv_pointer args rest : Forall arg_ok args -> (8 < length (argv_bytes args))%nat -> 2 ^ 48 <= pointer_in 8 (argv_bytes args ++ rest).
Proof.
  intros HF Hlen. destruct (lookup_lt_is_Some_2 (argv_bytes args) 6 ltac:(lia)) as [c6 E6].
  destruct (lookup_lt_is_Some_2 (argv_bytes args) 7 ltac:(lia)) as [c7 E7]. pose proof (argv_no_pair _ HF 6%nat) as Hp. rewrite E6, E7 in Hp.
  destruct (decide (c6 = NUL)) as [->|H6].
  - pose proof (pointer_in_ge 8 (argv_bytes args ++ rest) 7 c7 ltac:(by apply lookup_app_l_Some) ltac:(intros ->; by apply Hp) ltac:(lia)). lia.
  - pose proof (pointer_in_ge 8 (argv_bytes args ++ rest) 6 c6 ltac:(by apply lookup_app_l_Some) H6 ltac:(lia)). lia.
Qed.

(** The arguments are joined with spaces in a buffer that is larger than they are. *)
Lemma adjust_joins_within front last rest :
  Forall arg_ok front -> arg_ok last ->
  let bytes := argv_bytes (front ++ [last]) in
  until_nul <$> adjust_procname_cmndline (bytes ++ rest) (length bytes - 1) = Some (Some (spaced front ++ last)).
Proof.
  intros HF Hl bytes. pose proof (argv_fuel front HF) as Hfuel. pose proof Hl as [Hn H2].
  set (len := (length bytes - 1)%nat).
  assert (len = length (argv_bytes front) + length last)%nat as Elen by (unfold len, bytes; rewrite argv_snoc, !length_app; cbn; lia).
  assert (bytes ++ rest = argv_bytes front ++ last ++ NUL :: rest) as -> by (unfold bytes; by rewrite argv_snoc, <- !app_assoc).
  assert (adjust_loop (S (length (argv_bytes front ++ last ++ NUL :: rest))) (argv_bytes front ++ last ++ NUL :: rest) len 0
    = Some (spaced front ++ last ++ NUL :: rest, len)) as E.
  { destruct last as [|c t]; [cbn in H2; lia|]. cbn [length] in Elen.
    pose proof (adjust_args front (S (length (argv_bytes front ++ (c :: t) ++ NUL :: rest))) [] c (t ++ NUL :: rest) len HF) as E.
    cbn [app length] in E. cbn [app length]. rewrite E; clear E; [|set_solver|lia|rewrite length_app; cbn; lia].
    set (f := (_ - 2 * length front)%nat). assert (2 <= f)%nat by (unfold f; rewrite !length_app; cbn; lia). destruct f as [|[|f]]; try lia.
    rewrite (adjust_over_arg _ (spaced front) (c :: t) rest) by (done || rewrite length_spaced; lia).
    cbn [adjust_loop]. replace (length (spaced front) + length (c :: t))%nat with len by (rewrite length_spaced; cbn; lia).
    rewrite Nat.ltb_irrefl, (proj2 (Nat.eqb_neq len 0)) by lia. done. }
  unfold adjust_procname_cmndline. rewrite E. cbn [mbind option_bind fst snd]. rewrite (proj2 (Nat.eqb_neq len 0)) by lia.
  unfold buf_write. rewrite decide_True by (rewrite !length_app, length_spaced; cbn; lia). cbn. f_equal.
  rewrite (app_assoc (spaced front)), write_mid by (rewrite length_app, length_spaced; lia).
  apply until_nul_app. rewrite elem_of_app. intros [?|?]; [by eapply spaced_no_nul|done].
Qed.

Lemma adjust_table_joins base args rest :
  args <> [] -> Forall arg_ok args -> base + Z.of_nat (length (argv_bytes args)) <= 2 ^ 48 ->
  exists b, adjust_procname_table base (argv_bytes args ++ rest) (length (argv_bytes args) - 1) = Some b /\
            text_of b = Some (String.string_of_list_ascii (joined_args args)).
Proof.
  intros Hne HF Hb. set (len := (length (argv_bytes args) - 1)%nat). unfold adjust_procname_table.
  set (p := if (8 <? len)%nat then _ else _). set (c := _ && _).
  assert (c = false) as ->.
  { unfold c, p. destruct (Nat.ltb_spec 8 len) as [Hlt|Hge].
    - pose proof (argv_pointer args rest HF ltac:(lia)). rewrite (proj2 (Nat.ltb_ge _ _)) by lia. by rewrite andb_false_r.
    - rewrite (proj2 (Z.leb_gt _ _)) by lia. by rewrite andb_false_r. }
  destruct (exists_last Hne) as (front & last & ->). apply Forall_app in HF as [HF [Hl _]%Forall_cons].
  pose proof (adjust_joins_within front last rest HF Hl) as H. cbn zeta in H. fold len in H. rewrite joined_snoc.
  destruct (adjust_procname_cmndline _ _) as [b|]; [|done]. exists b. split; [done|].
  cbn in H. injection H as H. unfold text_of. by rewrite H.
Qed.

Section kinfo2.
Context {mem : Memory} {sys : System} (fuel : nat) (FSCALE base : Z) (argv : argv_call).

(** What the kernel answers about the arguments of a process: for the process with the id 0 it is not asked, for
    another one of the kernel ([args] is empty) it answers EINVAL, and otherwise it delivers the arguments, each with
    its terminator, into a buffer of [need] bytes or more and refuses a smaller one with that number. *)
Definition argv_answers (k : kinfo_proc2) (args : list (list ascii)) : Prop :=
  match args with
  | [] => k2_pid k = 0 \/ (k2_ppid k = 0 /\ forall n, exists size, argv (k2_pid k) n = inr (EINVAL, size))
  | _ => k2_pid k <> 0 /\ Forall arg_ok args /\ base + Z.of_nat (length (argv_bytes args)) <= 2 ^ 48 /\
         exists need, forall n, argv (k2_pid k) n = if (n <? need)%nat then inr (ENOMEM, need) else inl (argv_bytes args)
  end.

(** The title to be shown, [None] for a process of the kernel. *)
Definition args_title (args : list (list ascii)) : option string :=
  match args with [] => None | _ => Some (String.string_of_list_ascii (joined_args args)) end.

(** What is found out about the title of a process, whatever the size of the buffer. *)
Definition title2_is (k : kinfo_proc2) (t : option string) : Prop :=
  match t with Some s => no_nul s = true | None => True end /\
  if k2_pid k =? 0 then t = None
  else forall bufsize (Q : (option sg_error + option string) * nat -> env -> Prop) e,
    (AFail ∉ e_allocs e) -> (forall b e', calmer e e' -> Q (inr t, b) e') -> wp (kinfo2_title fuel base argv k bufsize) Q e.

(** A buffer that is too small is replaced by one of the size asked for: the second call succeeds. *)
Lemma title2_read k args : (2 <= fuel)%nat -> argv_answers k args -> title2_is k (args_title args).
Proof.
  intros Hf Hk. destruct args as [|a0 args0]; cbn [argv_answers args_title] in *.
  { split; [done|]. destruct (Z.eqb_spec (k2_pid k) 0) as [|Hp]; [done|]. destruct Hk as [|[Hpp Hk]]; [done|].
    intros bufsize Q e Ha HQ. destruct fuel as [|f]; [lia|]. cbn [kinfo2_title]. destruct (Hk bufsize) as (size & ->).
    apply wp_bind, wp_modify. rewrite Hpp. apply wp_ret, HQ. by intros ?. }
  set (args := a0 :: args0) in *. destruct Hk as (Hp & HF & Hb & need & Hargv).
  split; [apply bool_decide_eq_true; rewrite String.list_ascii_of_string_of_list_ascii; by apply joined_no_nul|].
  rewrite (proj2 (Z.eqb_neq _ _)) by done. intros bufsize Q e Ha HQ. assert (2 <= length (argv_bytes args))%nat as Hlen.
  { pose proof (argv_fuel _ HF) as H3. change (length args) with (S (length args0)) in H3. lia. }
  assert (forall n f e', calmer e e' -> (need <= n)%nat -> wp (kinfo2_title (S f) base argv k n) Q e') as Hfits.
  { intros n f e' He' Hle. cbn [kinfo2_title]. rewrite Hargv, (proj2 (Nat.ltb_ge _ _)) by done.
    rewrite (proj2 (Nat.leb_gt _ _)) by lia.
    destruct (adjust_table_joins base args (replicate (n - length (argv_bytes args)) junk) ltac:(done) HF Hb) as (b & -> & Et).
    unfold own_block. rewrite Et. apply wp_bind, wp_ret, wp_bind, wp_ret, wp_ret.
    apply Forall_cons in HF as [[_ H2] _]. destruct a0 as [|c a0]; [cbn in H2; lia|]. destruct args0; by apply HQ. }
  destruct fuel as [|[|f]]; [lia|lia|]. destruct (decide (need <= bufsize)%nat) as [Hle|Hlt]; [by apply Hfits|].
  cbn [kinfo2_title]. rewrite Hargv, (proj2 (Nat.ltb_lt _ _)) by lia. apply wp_bind, wp_modify.
  rewrite (andb_comm _ (ENOMEM =? EINVAL)). change (ENOMEM =? EINVAL) with false. cbn [andb].
  change (ENOMEM =? ENOMEM) with true. cbv iota.
  apply wp_bind, wp_sg_realloc; [done|lia|by intros ?%Ha|]. intros b e1 _ He1. apply Hfits; [|done]. by intros ?%He1.
Qed.

(** ** The list *)

(** The item of a process: the effective user and group of the kernel's structure are stored as the user and the group,
    and the real ones as the effective ones. *)
Definition netbsd_listed (p : kinfo_proc2 * option string) (d : sg_process_stats) : Prop :=
  let '(k, title) := p in
  exists state,
  d = mk_process_stats (CStr (k2_comm k)) (CStr (default ("[" +:+ k2_comm k +:+ "]") title)) (k2_pid k) (k2_ppid k) (k2_pgid k) (k2_sid k)
    (k2_uid k) (k2_ruid k) (k2_gid k) (k2_rgid k)
    ((k2_nvcsw k + k2_nivcsw k) mod 2 ^ 64) (k2_nvcsw k mod 2 ^ 64) (k2_nivcsw k mod 2 ^ 64)
    (((k2_vm_dsize k + k2_vm_ssize k) * sys_page_size) mod 2 ^ 64) ((k2_vm_rssize k * sys_page_size) mod 2 ^ 64)
    (k2_ustart_sec k) ((k2_uutime_sec k + k2_ustime_sec k) mod 2 ^ 64)
    (double_mul (double_div (double_of (k2_cpticks k)) (double_of FSCALE)) (double_of 100)) (k2_nice k) state sys_time /\
  (k2_stat k ∈ [L_IDL; L_SLEEP; L_RUN; L_SUSPENDED] -> state = SG_PROCESS_STATE_SLEEPING) /\
  (k2_stat k = L_ONPROC -> state = SG_PROCESS_STATE_RUNNING) /\
  (k2_stat k = L_DEAD \/ k2_stat k = L_ZOMB -> state = SG_PROCESS_STATE_ZOMBIE) /\
  (k2_stat k = L_STOP -> state = SG_PROCESS_STATE_STOPPED) /\
  (k2_stat k = L_OTHER -> state = SG_PROCESS_STATE_UNKNOWN).

Lemma assign_kinfo2_listed k title d0 :
  netbsd_listed (k, title) (ps_set_systime sys_time (ps_set_names (CStr (k2_comm k)) (CStr (default ("[" +:+ k2_comm k +:+ "]") title))
    (assign_kinfo2 FSCALE k (u64 (k2_nvcsw k) +u u64 (k2_nivcsw k)) d0))).
Proof.
  exists (kinfo2_state (k2_stat k)). split.
  - unfold ps_set_systime, ps_set_names, assign_kinfo2. cbn. f_equal.
    + unfold wrap. by rewrite <- Zplus_mod.
    + unfold wrap. by rewrite Zmult_mod_idemp_l.
  - destruct (k2_stat k); set_solver.
Qed.

Lemma wp_kinfo2_step l0 w0 k t n bufsize xs l v (Q : sg_error * bool * nat -> world -> Prop) w :
  title2_is k t -> no_nul (k2_comm k) = true -> listing l0 w0 n xs l v w -> Z.of_nat n + 1 <= used_count v ->
  (forall v' w' d b, used_count v' = used_count v -> netbsd_listed (k, t) d -> listing l0 w0 (S n) (xs ++ [IProcess d]) l v' w' ->
     Q (SG_ERROR_NONE, true, b) w') ->
  wp (kinfo2_step fuel FSCALE base argv k l n n bufsize) Q w.
Proof.
  intros [Hs Ht] Hn Hls Hu HQ. unfold kinfo2_step. set (name := k2_comm k) in *.
  destruct (listing_slot _ _ _ _ _ _ _ Hls Hu) as (d0 & Hd0 & Hlive0). pose proof Hlive0 as [Hl1 Hl2]%andb_true_iff.
  apply wp_bind. eapply wp_update_slot; [done..|].
  apply wp_bind, wp_sg_update_string; [done|done| |intros Ha; by destruct (ls_calm _ _ _ _ _ _ _ Hls)]. intros e1 He1.
  apply wp_ret. cbn [fst snd as_ptr]. split_and!; [cbn; by rewrite Hn, Hl2|done|]. intros v1 w1 Hu1 _ Hd1 Hls1 _.
  rewrite decide_False by auto. assert (Z.of_nat n + 1 <= used_count v1) as Hu1' by lia.
  apply wp_bind. eapply wp_update_slot; [exact Hls1|done|exact Hd1|]. apply wp_ret. cbn [fst snd].
  split_and!; [cbn; by rewrite Hn, Hl2|done|]. intros v2 w2 Hu2 _ Hd2 Hls2 _.
  assert (Z.of_nat n + 1 <= used_count v2) as Hu2' by lia.
  assert (w_vecs w2 !! l = Some v2) as Hv2 by (eapply replaced_lookup; apply Hls2).
  apply wp_bind. eapply wp_read_item; [done..|]. cbv zeta. cbn [as_process].
  apply wp_bind. eapply wp_update_slot; [exact Hls2|done|exact Hd2|]. apply wp_ret. cbn [fst snd].
  split_and!; [cbn; by rewrite Hn, Hl2|done|]. intros v3 w3 Hu3 _ Hd3 Hls3 _.
  assert (Z.of_nat n + 1 <= used_count v3) as Hu3' by lia.
  set (d3 := assign_kinfo2 _ _ _ _) in *.
  assert (forall b e3, calmer (w_env w3) e3 -> wp (match (inr t, b) : (option sg_error + option string) * nat with
     | (inl None, bufsize) => mret (SG_ERROR_NONE, false, bufsize)
     | (inl (Some rc), bufsize) => mret (rc, false, bufsize)
     | (inr title, bufsize) =>
         rc ← update_process l n (fun d =>
               match title with
               | None => kernel_proctitle (Some ("pid=" +:+ pretty (k2_pid k))) d
               | Some s =>
                   r ← sg_update_string junk (ps_proctitle d) (Some s);
                   let d := ps_set_names (ps_process_name d) r.2 d in
                   if decide (SG_ERROR_NONE <> r.1) then rc ← sg_get_error; mret (rc, d)
                   else mret (SG_ERROR_NONE, d)
               end);
         if decide (rc <> SG_ERROR_NONE) then mret (rc, false, bufsize)
         else
           _ ← update_process l n (fun d => mret (SG_ERROR_NONE, ps_set_systime sys_time d));
           mret (SG_ERROR_NONE, true, bufsize) end) Q (with_env e3 w3)) as Hrest.
  2: { destruct (k2_pid k =? 0).
    - subst t. apply wp_bind, wp_ret. specialize (Hrest bufsize (w_env w3) ltac:(done)). by destruct w3.
    - apply wp_bind, wp_in_env, Ht; [apply Hls3|]. intros b e3 He3. by apply Hrest. }
  intros b e3 He3. cbv iota beta.
  assert (listing l0 w0 n xs l v3 (with_env e3 w3)) as Hls4 by (by apply listing_env).
  set (shown := default ("[" +:+ name +:+ "]") t).
  assert (no_nul shown = true) as Hshown by (unfold shown; destruct t as [s|]; [done|by apply bracketed_no_nul]).
  apply wp_bind. eapply wp_update_slot; [exact Hls4|done|exact Hd3|].
  match goal with |- wp ?m ?R ?e => assert (forall e', calmer e3 e' -> R (SG_ERROR_NONE, ps_set_names (CStr name) (CStr shown) d3) e') as HR end.
  { intros e' He'. split_and!; [cbn; by rewrite Hn, Hshown|done|]. intros v5 w5 Hu5 _ Hd5 Hls5 _. cbn [fst].
    rewrite decide_False by auto. assert (Z.of_nat n + 1 <= used_count v5) as Hu5' by lia.
    apply wp_bind. eapply wp_update_slot; [exact Hls5|done|exact Hd5|]. apply wp_ret. cbn [fst snd].
    split_and!; [cbn; by rewrite Hn, Hshown|done|]. intros v6 w6 Hu6 _ _ _ Hls6. apply wp_ret.
    eapply (HQ v6); [lia| |exact Hls6]. apply assign_kinfo2_listed. }
  destruct t as [s|].
  - apply wp_bind, wp_sg_update_string; [exact Hl2|done| |intros Ha; by destruct (ls_calm _ _ _ _ _ _ _ Hls4)].
    intros e' He'. cbn [fst snd]. rewrite decide_False by auto. apply wp_ret. by apply HR.
  - apply (wp_kernel_proctitle _ name); [done|apply Hls4|done].
Qed.

Lemma wp_kinfo2_loop l0 w0 ks ts : Forall2 title2_is ks ts -> Forall (fun k => no_nul (k2_comm k) = true) ks ->
  forall n bufsize xs l v (Q : sg_error * nat -> world -> Prop) w,
  listing l0 w0 n xs l v w -> Z.of_nat (n + length ks) <= used_count v ->
  (forall v' w' ds, Forall2 netbsd_listed (zip ks ts) ds -> listing l0 w0 (n + length ks) (xs ++ (IProcess <$> ds)) l v' w' ->
     Q (SG_ERROR_NONE, (n + length ks)%nat) w') ->
  wp (kinfo2_loop fuel FSCALE base argv ks l n n bufsize) Q w.
Proof.
  intros HF. induction HF as [|k t ks ts Ht HF IH]; intros Hn n bufsize xs l v Q w Hls Hu HQ; cbn [kinfo2_loop].
  { apply wp_ret. specialize (HQ v w []). cbn in HQ. rewrite Nat.add_0_r, app_nil_r in HQ. by apply HQ. }
  apply Forall_cons in Hn as [Hn1 Hn]. cbn [length] in *. apply wp_bind.
  eapply wp_kinfo2_step; [done|done|exact Hls|lia|]. intros v' w' d b Hu' Hd Hls'. cbv iota beta. rewrite decide_False by auto.
  eapply IH; [done|exact Hls'|lia|]. intros v2 w2 ds Hds Hls2. specialize (HQ v2 w2 (d :: ds)).
  cbn [fmap list_fmap] in HQ. rewrite Nat.add_succ_r in HQ. apply HQ; [by constructor|]. by rewrite <- app_assoc in Hls2.
Qed.

(** C36: On NetBSD, when the kernel answers for every process about its arguments - it delivers them, each of
    two characters or more and with its terminator, into a buffer of some size and refuses a smaller one with
    ENOMEM and that size; for a child of process 0 it may answer EINVAL; process 0 is not asked - the call
    succeeds and the list has exactly one item per process of the list of the kernel, in order, with its name,
    its title (the arguments joined with spaces, or the name in brackets for process 0 and the processes with
    EINVAL), the ids, context switches, sizes and times modulo 2^64, the cpu percentage, the nice value and the
    state, also when the list has to be fetched again (ENOMEM) or the arguments outgrow their buffer. The
    effective user and group of the kernel structure are stored as uid and gid and the real ones as euid and
    egid, as the code has it (a finding). Conditions: at least one process and at most 2^31, names without zero
    bytes, the argument buffer ends below address 2^48, an earlier list (if there is one) well formed, no
    allocation fails. A process whose arguments are refused with another error is not covered. *)
Theorem netbsd_process_list sizeof_kp arg_max again ks args o w :
  (2 <= fuel)%nat -> (1 <= sizeof_kp)%nat -> (1 <= arg_max)%nat -> Forall (fun m => 1 <= m)%nat again ->
  Forall (fun k => no_nul (k2_comm k) = true) ks -> Forall2 argv_answers ks args -> ks <> [] ->
  Z.of_nat (length ks) <= 2 ^ 31 -> old_list o w -> wf_heap w -> (AFail ∉ e_allocs (w_env w)) ->
  wp (process_stats_kinfo2 fuel sizeof_kp arg_max FSCALE base
        (((fun m => (inl m, inr ENOMEM)) <$> again) ++ [(inl (length ks), inl ks)]) argv o)
     (delivers_list netbsd_listed (zip ks (args_title <$> args))) w.
Proof.
  intros Hfu Hs Hm Hag Hn HA Hne Hlen Ho Hh Ha. unfold process_stats_kinfo2, malloced.
  assert (Forall2 title2_is ks (args_title <$> args)) as HF.
  { apply Forall2_fmap_r. eapply Forall2_impl; [exact HA|]. intros k a. by apply title2_read. }
  set (titles := args_title <$> args) in *.
  assert (1 <= length ks)%nat as Hk by (destruct ks; [done|cbn; lia]). pose proof (Forall2_length _ _ _ HF) as Hl.
  apply wp_bind, wp_in_env, wp_sg_realloc; [done|lia|by intros ?%Ha|]. intros b e1 _ He1.
  apply wp_bind, wp_in_env, wp_sysctl_processes; [done|by apply Forall_app; split; [|by apply Forall_singleton]|cbn; calm|].
  intros e2 He2. apply wp_bind, wp_first_room; [by destruct o|done|cbn; lia|cbn; calm|].
  intros l0 w0 l v w1 Hh0 Hls Hu. destruct ks as [|k ks']; [cbn in Hk; lia|]. set (ks := k :: ks') in *.
  apply wp_bind. eapply (wp_kinfo2_loop l0 w0 ks titles); [done|done|exact Hls|cbn in *; lia|].
  intros v2 w2 ds Hds Hls2. cbn [fst snd]. rewrite decide_False by auto. cbn [Nat.add app] in *.
  assert (length ks = length (zip ks titles)) as Hz by (rewrite length_zip_with; lia).
  rewrite Hz in *. eapply wp_store_processes; [exact Hh0|exact Hls2|exact Hds|by destruct titles|lia].
Qed.
End kinfo2.

(** * Concrete lists *)

Definition demo_pst (idx pid : Z) (comm cmd : string) : pst_status :=
  mk_pst_status idx pid 1 pid 0 0 0 0 3 4 10 20 30 40 900 5 16384 20 PS_RUN comm cmd.

(** Three processes, with gaps in the process table, delivered in batches of at most two. *)
Definition demo_table : list pst_status :=
  [demo_pst 0 0 "swapper" "swapper"; demo_pst 4 1 "init" "/sbin/init"; demo_pst 9 77 "sh" "sh -c statgrab"].

Definition demo_getproc (i : Z) : list pst_status + Z := inl (take 2 (from_index pst_idx i demo_table)).

Lemma hpux_process_list_witness :
  map (fun i => match demo_getproc i with inl b => length b | inr _ => 9%nat end) [0; 5; 10] = [2; 1; 0]%nat /\
  wp (process_stats_hpux 4 demo_getproc None) (delivers_list hpux_listed demo_table) demo_world.
Proof.
  split; [done|]. apply hpux_process_list; [|..|done|cbn; lia|cbn; lia|by repeat constructor|done|apply demo_heap|apply not_elem_of_nil].
  - repeat constructor.
  - by repeat constructor.
  - intros i. exists 2%nat. split; [lia|done].
Defined.

Definition demo_psinfo (pid : Z) : option psinfo_t :=
  if pid =? 1 then Some (mk_psinfo 1 0 1 0 0 0 0 2048 1024 100 7 16384 20 1 "init" "/sbin/init")
  else if pid =? 42 then Some (mk_psinfo 42 1 42 100 100 10 10 512 256 900 1 0 24 2 "sh" "sh -c statgrab")
  else None.

Definition demo_switches (pid : Z) : option (Z * Z) := if pid =? 42 then Some (3, 4) else None.

Lemma solaris_process_list_witness :
  let ps := shown_by demo_psinfo demo_switches [1; 17; 42] in
  length ps = 2%nat /\
  wp (process_stats_solaris (read_whole demo_psinfo) (read_whole demo_switches) (inl (["."; "1"; "17"; "42"], 0)) None)
    (delivers_list solaris_listed ps) demo_world.
Proof.
  split; [done|].
  apply (solaris_process_list demo_psinfo demo_switches ["."; "1"; "17"; "42"]);
    [by vm_compute|done|by vm_compute|by repeat constructor|done|apply demo_heap|apply not_elem_of_nil].
Defined.

Definition demo_kinfo (pid : Z) (comm : string) : kinfo_proc :=
  mk_kinfo_proc true SRUN LSRUN comm pid 1 pid pid 0 0 0 0 5000000 0 0 900 0 20 8192 2.

(** The kernel has process 0, the arguments of the others end in a zero byte. *)
Definition demo_argv : argv_call := fun pid _ =>
  if pid =? 1 then inl (String.list_ascii_of_string "init" ++ [NUL])
  else if pid =? 42 then inl (String.list_ascii_of_string "sh" ++ [NUL] ++ String.list_ascii_of_string "-x" ++ [NUL])
  else inr (3, 0%nat).

Definition demo_kinfos : list kinfo_proc := [demo_kinfo 0 "kernel"; demo_kinfo 1 "init"; demo_kinfo 42 "sh"].

Lemma demo_title pid comm t :
  pid <> 0 -> no_nul t = true -> (forall e, kinfo_title false 4096 demo_argv 64 pid e = Done (inr (Some t)) e) ->
  title_is (fun k => k) false 4096 demo_argv 64 (demo_kinfo pid comm) (inr (Some t)).
Proof.
  intros Hp Ht Hk. unfold title_is. cbn [demo_kinfo kp_pid]. rewrite (proj2 (Z.eqb_neq pid 0)) by done. split; [done|].
  intros e. exists (e_errno e). rewrite Hk. by destruct e.
Qed.

(** The list did not fit the first time. *)
Lemma bsd_process_list_witness :
  wp (process_stats_bsd KI_STAT 1088 64 4096 [(inl 2%nat, inr ENOMEM); (inl 3%nat, inl demo_kinfos)] demo_argv None)
    (delivers_list (bsd_listed KI_STAT) (zip demo_kinfos [None; Some "init "; Some "sh -x "])) demo_world.
Proof.
  apply (bsd_process_list KI_STAT 4096 demo_argv 1088 64 [2%nat]);
    [lia|lia|by repeat constructor|by repeat constructor| |done|cbn; lia|done|apply demo_heap|apply not_elem_of_nil].
  constructor; [done|]. constructor; [by apply demo_title|]. constructor; [by apply demo_title|]. constructor.
Defined.

(** A process whose arguments cannot be read moves the names of those behind it: [sh] is shown as [cron]. *)
Lemma kinfo_misnamed :
  wp (process_stats_bsd KI_STAT 1088 64 4096
        [(inl 3%nat, inl [demo_kinfo 1 "init"; demo_kinfo 7 "cron"; demo_kinfo 42 "sh"])] demo_argv None)
    (fun r w => r.1 = SG_ERROR_NONE /\ exists l v d1 d2, r.2 = Some l /\ w_vecs w !! l = Some v /\
       contents v = [IProcess d1; IProcess d2] /\ ps_pid d2 = 42 /\ ps_process_name d2 = CStr "cron") demo_world.
Proof.
  eapply wp_mono.
  - apply (wp_process_stats_kinfo (fun k => k) (assign_kinfo KI_STAT) false 4096 demo_argv 64 ltac:(done) ltac:(done) 1088 []
      [demo_kinfo 1 "init"; demo_kinfo 7 "cron"; demo_kinfo 42 "sh"] [inr (Some "init "); inl tt; inr (Some "sh -x ")]);
      [lia|lia|constructor| |by repeat constructor|done|cbn; lia|done|apply demo_heap|apply not_elem_of_nil].
    constructor; [intros _; by apply demo_title|]. constructor; [|constructor; [intros _; by apply demo_title|constructor]].
    intros _. split; [done|]. intros e. exists 3. reflexivity.
  - intros r w (Hr & l & v & ds & Hl & Hv & _ & HF & Hc). split; [done|]. cbn in HF.
    apply Forall2_cons_inv_l in HF as (d1 & ds1 & _ & HF & ->). apply Forall2_cons_inv_l in HF as (d2 & ds2 & (d0 & ->) & HF & ->).
    apply Forall2_nil_inv_l in HF as ->. exists l, v, d1. eexists. split_and!; [done|done|exact Hc|done|done].
Qed.

Definition demo_kinfo2 (pid ppid : Z) (comm : string) : kinfo_proc2 :=
  mk_kinfo_proc2 comm pid ppid pid pid 100 101 10 11 3 4 20 30 40 900 5 6 1024 20 L_RUN.

(** The arguments need a buffer of 100 bytes. *)
Definition demo_argv2 : argv_call := fun pid n =>
  if pid =? 7 then inr (EINVAL, 0%nat)
  else if (n <? 100)%nat then inr (ENOMEM, 100%nat)
  else inl (argv_bytes (if pid =? 1 then [chars "/sbin/init"] else [chars "sh"; chars "-x"])).

(** The buffer has 64 bytes at first; the list did not fit the first time. *)
Lemma netbsd_process_list_witness :
  let ks := [demo_kinfo2 0 0 "system"; demo_kinfo2 7 0 "pagedaemon"; demo_kinfo2 1 0 "init"; demo_kinfo2 42 1 "sh"] in
  let titles := args_title <$> [[]; []; [chars "/sbin/init"]; [chars "sh"; chars "-x"]] in
  titles = [None; None; Some "/sbin/init"; Some "sh -x"] /\
  wp (process_stats_kinfo2 2 700 64 2048 4096 [(inl 2%nat, inr ENOMEM); (inl 4%nat, inl ks)] demo_argv2 None)
    (delivers_list (netbsd_listed 2048) (zip ks titles)) demo_world.
Proof.
  intros ks titles. split; [done|].
  apply (netbsd_process_list 2 2048 4096 demo_argv2 700 64 [2%nat]);
    [lia|lia|lia|by repeat constructor|by repeat constructor| |done|cbn; lia|done|apply demo_heap|apply not_elem_of_nil].
  constructor; [by left|]. constructor; [right; split; [done|]; intros n; by exists 0%nat|].
  constructor; [|constructor; [|constructor]]; (split_and!; [done| |by vm_compute|by exists 100%nat]);
    repeat constructor; try (by apply (bool_decide_eq_true_1 _)); cbn; lia.
Defined.
