(* ===== verification/Statgrab.v ===== *)
(** The statgrab command (src/statgrab/statgrab.c): the table of named statistics
    it builds from what the library delivers, the selection of sections and of
    statistics by the command line, the output formats and the list of file
    systems given with [-F]. The library is the interface [library]: the
    structures its public functions return. *)

From S2P Require Import Prelude Types CLib Errors Tools Vector Items Stdio ToolsExt Single Disk.

(** * Data *)

Inductive stat_type :=
| STAT_TYPE_LONG_LONG | STAT_TYPE_UNSIGNED_LONG_LONG | STAT_TYPE_BYTES | STAT_TYPE_TIME_T
| STAT_TYPE_FLOAT | STAT_TYPE_DOUBLE | STAT_TYPE_STRING | STAT_TYPE_INT | STAT_TYPE_UNSIGNED
| STAT_TYPE_BOOL | STAT_TYPE_DUPLEX.

Inductive display_mode_type :=
| DISPLAY_LINUX | DISPLAY_BSD | DISPLAY_GRAPHITE | DISPLAY_MRTG | DISPLAY_PLAIN.

Inductive repeat_mode_type := REPEAT_NONE | REPEAT_ONCE | REPEAT_FOREVER.

#[export] Instance stat_type_eq_dec : EqDecision stat_type.
Proof. solve_decision. Defined.
#[export] Instance display_mode_eq_dec : EqDecision display_mode_type.
Proof. solve_decision. Defined.
#[export] Instance repeat_mode_eq_dec : EqDecision repeat_mode_type.
Proof. solve_decision. Defined.

(** The object a [void *stat] points to: an integer of some width, a double, a
    [char *] or one of the two enumerations of the interface properties. The
    objects belong to the library or are static; they do not change between
    [get_stats] and [print_stats]. *)
Inductive cell :=
| CellInt (z : Z)
| CellDouble (d : double)
| CellText (p : char_ptr)
| CellDuplex (d : sg_iface_duplex).

Record stat_item := mk_stat_item { si_name : string; si_type : stat_type; si_stat : cell }.

(** The options, static variables of the program. *)
Record options := mk_options {
  display_mode : display_mode_type; repeat_mode : repeat_mode_type; repeat_time : Z;
  use_cpu_percent : bool; use_diffs : bool; float_scale_factor : Z; bytes_scale_factor : Z;
  graphite_prefix : option string; fslist : option string }.

Definition default_options : options :=
  mk_options DISPLAY_LINUX REPEAT_NONE 1 false false 0 0 None None.

(** [stat_items] with [num_stats] entries and room for [alloc_stats]; the array
    is NULL as long as nothing was ever added. *)
Record prog := mk_prog {
  p_items : list stat_item; p_alloc : Z; p_graphite_ts : Z;
  p_out : string; p_err : string; p_env : env }.

Definition set_items (l : list stat_item) (p : prog) : prog :=
  mk_prog l (p_alloc p) (p_graphite_ts p) (p_out p) (p_err p) (p_env p).
Definition set_alloc_stats (z : Z) (p : prog) : prog :=
  mk_prog (p_items p) z (p_graphite_ts p) (p_out p) (p_err p) (p_env p).
Definition set_ts (t : Z) (p : prog) : prog :=
  mk_prog (p_items p) (p_alloc p) t (p_out p) (p_err p) (p_env p).
Definition printf (s : string) : M prog unit :=
  modify (fun p => mk_prog (p_items p) (p_alloc p) (p_graphite_ts p) (p_out p +:+ s) (p_err p) (p_env p)).
Definition eprintf (s : string) : M prog unit :=
  modify (fun p => mk_prog (p_items p) (p_alloc p) (p_graphite_ts p) (p_out p) (p_err p +:+ s) (p_env p)).
Definition in_penv {A} (m : M env A) : M prog A :=
  zoom p_env (fun e p => mk_prog (p_items p) (p_alloc p) (p_graphite_ts p) (p_out p) (p_err p) e) m.

(** [die]: a message and [exit(1)]. *)
Definition die {S A} : M S A := stuck process_abort.

(** * The table of statistics *)

(** [free] of every name: a name is freed once and not used again, so that the
    entries just go; the array and its size stay. *)
Definition clear_stats : M prog unit := modify (set_items []).

(** The first loop of [add_stat]: [len += 1 + strlen(part)] in an [int]. *)
Fixpoint name_len (parts : list string) : Z :=
  match parts with
  | [] => 0
  | part :: parts' => 1 + Z.of_nat (String.length part) + name_len parts'
  end.

(** [memcpy(p, part, partlen)] and the replacement of spaces and dots, from the
    front; the result is the block and the next position. *)
Definition name_char (c : ascii) : ascii :=
  if Ascii.eqb c " "%char || Ascii.eqb c "."%char then "_"%char else c.

Fixpoint paste_part (part : list ascii) (p : nat) (b : list ascii) : option (list ascii * nat) :=
  match part with
  | [] => Some (b, p)
  | c :: part' =>
      match buf_write b p (name_char c) with
      | Some b' => paste_part part' (S p) b'
      | None => None
      end
  end.

Fixpoint paste_name (parts : list string) (p : nat) (b : list ascii) : option (list ascii * nat) :=
  match parts with
  | [] => Some (b, p)
  | part :: parts' =>
      match paste_part (String.list_ascii_of_string part) p b with
      | None => None
      | Some (b', p') =>
          match buf_write b' p' "."%char with
          | Some b'' => paste_name parts' (S p') b''
          | None => None
          end
      end
  end.

(** [*--p = 0] and the text of the block. *)
Definition finish_name (r : option (list ascii * nat)) : option string :=
  match r with
  | Some (b, S p) => match buf_write b p NUL with Some b' => text_of b' | None => None end
  | _ => None
  end.

(** * Output of numbers *)

(** A quotient rounded to nearest, ties to even. *)
Definition round_div (num den : Z) : Z :=
  let q := num / den in
  let r := num mod den in
  if 2 * r <? den then q
  else if den <? 2 * r then q + 1
  else if Z.even q then q else q + 1.

Definition pad6 (z : Z) : string :=
  let d := print_unsigned z in String.concat "" (replicate (6 - String.length d) "0") +:+ d.

(** [%f] of [printf]: six decimals of the exact value. *)
Definition print_f (d : double) : string :=
  let sign (s : bool) (t : string) := if s then String "-" t else t in
  match d with
  | S754_zero s => sign s "0.000000"
  | S754_infinity s => sign s "inf"
  | S754_nan => "nan"
  | S754_finite s m e =>
      let n := if 0 <=? e then Zpos m * 2 ^ e * 1000000
               else round_div (Zpos m * 1000000) (2 ^ (- e)) in
      sign s (print_unsigned (n / 1000000) +:+ String "." (pad6 (n mod 1000000)))
  end.

(** The conversion to [long], towards zero; [None] when the value does not fit. *)
Definition double_to_long (d : double) : option Z :=
  match d with
  | S754_zero _ => Some 0
  | S754_finite s m e =>
      let n := if 0 <=? e then Zpos m * 2 ^ e else Zpos m / 2 ^ (- e) in
      let z := if (s : bool) then - n else n in
      if decide (in_s64 z) then Some z else None
  | _ => None
  end.

Definition INCREMENT_STATS : Z := 64.

Definition graphite_skips (type : stat_type) : bool :=
  match type with STAT_TYPE_BOOL | STAT_TYPE_STRING | STAT_TYPE_DUPLEX => true | _ => false end.

Section statgrab.
Context {mem : Memory}.

Definition add_stat (o : options) (type : stat_type) (stat : cell) (parts : list string)
    : M prog unit :=
  if bool_decide (display_mode o = DISPLAY_GRAPHITE) && graphite_skips type then mret tt
  else
    let len := name_len parts in
    if 2 ^ 31 <=? len then stuck undefined_op
    else
      a ← in_penv alloc_request;
      match a with
      | AFail => die
      | _ =>
          match finish_name (paste_name parts 0 (replicate (Z.to_nat len) junk)) with
          | None => stuck out_of_bounds
          | Some name =>
              p ← gets id;
              (if p_alloc p <=? Z.of_nat (length (p_items p)) then
                 a ← in_penv alloc_request;
                 match a with
                 | AFail => die
                 | _ => modify (set_alloc_stats (p_alloc p + INCREMENT_STATS))
                 end
               else mret tt);;
              modify (fun p => set_items (p_items p ++ [mk_stat_item name type stat]) p)
          end
      end.

Definition stats_compare (a b : string) : Z := strcmp a b.

Definition stats_compare_prefix (key item : string) : Z := strncmp key item (String.length key).

(** * The sections *)

(** What the library delivers to one round of [get_stats], [None] for NULL. The
    flag of the functions with a [_diff] variant says which one is called. *)
Record library := mk_library {
  lib_cpu_stats : bool -> option sg_cpu_stats;
  lib_cpu_percents : sg_cpu_percent_source -> option sg_cpu_percents;
  lib_mem_stats : option sg_mem_stats;
  lib_load_stats : option sg_load_stats;
  lib_user_stats : option (list sg_user_stats);
  lib_swap_stats : option sg_swap_stats;
  lib_host_info : option sg_host_info;
  lib_fs_stats : option (list sg_fs_stats);
  lib_disk_io_stats : bool -> option (list sg_disk_io_stats);
  lib_process_count : option sg_process_count;
  lib_network_io_stats : bool -> option (list sg_network_io_stats);
  lib_network_iface_stats : option (list sg_network_iface_stats);
  lib_page_stats : bool -> option sg_page_stats;
  lib_time : Z }.

(** A sequence of [add_stat] calls with the same first parts of the name. *)
Fixpoint add_stats (o : options) (pre : list string) (l : list (stat_type * cell * string))
    : M prog unit :=
  match l with
  | [] => mret tt
  | (type, stat, last) :: l' => add_stat o type stat (pre ++ [last]);; add_stats o pre l'
  end.

Abbreviation ULL z := (STAT_TYPE_UNSIGNED_LONG_LONG, CellInt z) (only parsing).
Abbreviation BYTES z := (STAT_TYPE_BYTES, CellInt z) (only parsing).
Abbreviation TIME z := (STAT_TYPE_TIME_T, CellInt z) (only parsing).
Abbreviation DOUBLE d := (STAT_TYPE_DOUBLE, CellDouble d) (only parsing).
Abbreviation TEXT p := (STAT_TYPE_STRING, CellText p) (only parsing).

Definition populate_const (o : options) (lib : library) : M prog unit :=
  add_stats o ["const"] [(STAT_TYPE_INT, CellInt 0, "0")].

Definition populate_cpu (o : options) (lib : library) : M prog unit :=
  let cpu_s := lib_cpu_stats lib (use_diffs o) in
  (if use_cpu_percent o then
     let cps := if use_diffs o then sg_last_diff_cpu_percent else sg_entire_cpu_percent in
     match lib_cpu_percents lib cps with
     | Some p =>
         add_stats o ["cpu"] [(DOUBLE (pct_user p), "user"); (DOUBLE (pct_kernel p), "kernel");
           (DOUBLE (pct_idle p), "idle"); (DOUBLE (pct_iowait p), "iowait");
           (DOUBLE (pct_swap p), "swap"); (DOUBLE (pct_nice p), "nice");
           (TIME (pct_time_taken p), "time_taken")]
     | None => mret tt
     end
   else
     match cpu_s with
     | Some c =>
         add_stats o ["cpu"] [(ULL (cpu_user c), "user"); (ULL (cpu_kernel c), "kernel");
           (ULL (cpu_idle c), "idle"); (ULL (cpu_iowait c), "iowait"); (ULL (cpu_swap c), "swap");
           (ULL (cpu_nice c), "nice"); (ULL (cpu_total c), "total");
           (TIME (cpu_systime c), "systime")]
     | None => mret tt
     end);;
  match cpu_s with
  | Some c =>
      add_stats o ["cpu"] [(ULL (cpu_context_switches c), "ctxsw");
        (ULL (cpu_voluntary_context_switches c), "vctxsw");
        (ULL (cpu_involuntary_context_switches c), "nvctxsw"); (ULL (cpu_syscalls c), "syscalls");
        (ULL (cpu_interrupts c), "intrs"); (ULL (cpu_soft_interrupts c), "softintrs")]
  | None => mret tt
  end.

Definition populate_mem (o : options) (lib : library) : M prog unit :=
  match lib_mem_stats lib with
  | Some m =>
      add_stats o ["mem"] [(BYTES (mem_total m), "total"); (BYTES (mem_free m), "free");
        (BYTES (mem_used m), "used"); (BYTES (mem_cache m), "cache")]
  | None => mret tt
  end.

Definition populate_load (o : options) (lib : library) : M prog unit :=
  match lib_load_stats lib with
  | Some l =>
      add_stats o ["load"] [(DOUBLE (load_min1 l), "min1"); (DOUBLE (load_min5 l), "min5");
        (DOUBLE (load_min15 l), "min15")]
  | None => mret tt
  end.

(** [strncpy(name_list + pos, name, strlen(name))] *)
Fixpoint write_at (b : list ascii) (pos : nat) (cs : list ascii) : option (list ascii) :=
  match cs with
  | [] => Some b
  | c :: cs' => match buf_write b pos c with Some b' => write_at b' (S pos) cs' | None => None end
  end.

(** The second loop of [populate_user]: every name and a space behind it. *)
Fixpoint paste_names (names : list string) (pos : nat) (b : list ascii)
    : option (list ascii * nat) :=
  match names with
  | [] => Some (b, pos)
  | n :: names' =>
      match write_at b pos (String.list_ascii_of_string n) with
      | None => None
      | Some b' =>
          match buf_write b' (pos + String.length n) " "%char with
          | Some b'' => paste_names names' (S (pos + String.length n)) b''
          | None => None
          end
      end
  end.

(** The block of [name_list_length + 1] bytes after the loop and [name_list[pos] = 0]. *)
Definition user_names (names : list string) : option string :=
  let len := list_sum ((fun n => S (String.length n)) <$> names) in
  match paste_names names 0 (replicate (S len) junk) with
  | Some (b, pos) =>
      let pos := match names with [] => pos | _ => Nat.pred pos end in
      match buf_write b pos NUL with Some b' => text_of b' | None => None end
  | None => None
  end.

(** The first loop: the entries of every user; the result is the login names. *)
Fixpoint populate_users (o : options) (users : list sg_user_stats) : M prog (list string) :=
  match users with
  | [] => mret []
  | u :: users' =>
      name ← read_ptr (usr_login_name u);
      tty ← read_ptr (usr_device u);
      add_stats o ["user"; tty] [(TEXT (usr_login_name u), "login_name");
        (TEXT (usr_device u), "tty"); (TEXT (usr_hostname u), "from");
        (TIME (usr_login_time u), "login_time")];;
      names ← populate_users o users';
      mret (name :: names)
  end.

(** [realloc] of the list of names is not checked. *)
Definition populate_user (o : options) (lib : library) : M prog unit :=
  match lib_user_stats lib with
  | None => mret tt
  | Some users =>
      names ← populate_users o users;
      a ← in_penv alloc_request;
      match a with
      | AFail => stuck null_deref
      | _ =>
          match user_names names with
          | None => stuck out_of_bounds
          | Some name_list =>
              add_stat o STAT_TYPE_INT (CellInt (Z.of_nat (length users))) ["user"; "num"];;
              add_stat o STAT_TYPE_STRING (CellText (CStr name_list)) ["user"; "names"]
          end
      end
  end.

Definition populate_swap (o : options) (lib : library) : M prog unit :=
  match lib_swap_stats lib with
  | Some s =>
      add_stats o ["swap"] [(BYTES (swap_total s), "total"); (BYTES (swap_used s), "used");
        (BYTES (swap_free s), "free")]
  | None => mret tt
  end.

(** [host_states[host->host_state]]; every state has an entry. *)
Definition host_states (s : sg_host_state) : string :=
  match s with
  | sg_unknown_configuration => "unknown"
  | sg_physical_host => "physical host"
  | sg_virtual_machine => "virtual machine (full virtualized)"
  | sg_paravirtual_machine => "virtual machine (paravirtualized)"
  | sg_hardware_virtualized => "hardware virtualization"
  end.

Definition populate_general (o : options) (lib : library) : M prog unit :=
  match lib_host_info lib with
  | Some h =>
      add_stats o ["general"] [(TEXT (hi_os_name h), "os_name");
        (TEXT (hi_os_release h), "os_release"); (TEXT (hi_os_version h), "os_version");
        (TEXT (hi_platform h), "platform"); (TEXT (hi_hostname h), "hostname");
        (STAT_TYPE_UNSIGNED, CellInt (hi_ncpus h), "ncpus");
        (STAT_TYPE_UNSIGNED, CellInt (hi_maxcpus h), "ncpus_cfg");
        (STAT_TYPE_UNSIGNED, CellInt (hi_bitwidth h), "bitwidth");
        (TEXT (CStr (host_states (hi_host_state h))), "hoststate"); (TIME (hi_uptime h), "uptime")]
  | None => mret tt
  end.

(** The name of a file system in the table: the device without /dev/, with the
    slashes replaced; [buf] is a copy from [strdup]. *)
Definition fs_name (device : string) : string :=
  let device := if strcmp device "/" =? 0 then "root" else device in
  let name :=
    match device with
    | String c (String ":" EmptyString) => String c EmptyString
    | _ => device
    end in
  let name := if strncmp name "/dev/" 5 =? 0 then String.substring 5 (String.length name) name
              else name in
  map_string (fun c => if Ascii.eqb c "/"%char then "_"%char else c) name.

Fixpoint populate_disks (o : options) (disk : list sg_fs_stats) : M prog unit :=
  match disk with
  | [] => mret tt
  | d :: disk' =>
      device ← read_ptr (fs_device_name d);
      a ← in_penv alloc_request;
      match a with
      | AFail => die
      | _ =>
          add_stats o ["fs"; fs_name device] [(TEXT (fs_device_name d), "device_name");
            (TEXT (fs_device_canonical d), "device_canonical"); (TEXT (fs_fs_type d), "fs_type");
            (TEXT (fs_mnt_point d), "mnt_point"); (BYTES (fs_size d), "size");
            (BYTES (fs_used d), "used"); (BYTES (fs_avail d), "avail");
            (ULL (fs_total_inodes d), "total_inodes"); (ULL (fs_used_inodes d), "used_inodes");
            (ULL (fs_free_inodes d), "free_inodes"); (ULL (fs_avail_inodes d), "avail_inodes");
            (BYTES (fs_io_size d), "io_size"); (BYTES (fs_block_size d), "block_size");
            (ULL (fs_total_blocks d), "total_blocks"); (ULL (fs_free_blocks d), "free_blocks");
            (ULL (fs_avail_blocks d), "avail_blocks"); (ULL (fs_used_blocks d), "used_blocks")];;
          populate_disks o disk'
      end
  end.

Definition populate_fs (o : options) (lib : library) : M prog unit :=
  match lib_fs_stats lib with Some disk => populate_disks o disk | None => mret tt end.

Fixpoint populate_diskio (o : options) (diskio : list sg_disk_io_stats) : M prog unit :=
  match diskio with
  | [] => mret tt
  | d :: diskio' =>
      name ← read_ptr (dio_disk_name d);
      add_stats o ["disk"; name] [(TEXT (dio_disk_name d), "disk_name");
        (BYTES (dio_read_bytes d), "read_bytes"); (BYTES (dio_write_bytes d), "write_bytes");
        (TIME (dio_systime d), "systime")];;
      populate_diskio o diskio'
  end.

Definition populate_disk (o : options) (lib : library) : M prog unit :=
  match lib_disk_io_stats lib (use_diffs o) with
  | Some diskio => populate_diskio o diskio
  | None => mret tt
  end.

(** Without counts the code hands [sg_strperror] a buffer pointer nobody set. *)
Definition populate_proc (o : options) (lib : library) : M prog unit :=
  match lib_process_count lib with
  | Some p =>
      add_stats o ["proc"] [(ULL (pc_total p), "total"); (ULL (pc_running p), "running");
        (ULL (pc_sleeping p), "sleeping"); (ULL (pc_stopped p), "stopped");
        (ULL (pc_zombie p), "zombie")]
  | None => stuck wild_pointer
  end.

Fixpoint populate_io (o : options) (io : list sg_network_io_stats) : M prog unit :=
  match io with
  | [] => mret tt
  | d :: io' =>
      name ← read_ptr (nio_interface_name d);
      add_stats o ["net"; name] [(TEXT (nio_interface_name d), "interface_name");
        (BYTES (nio_tx d), "tx"); (BYTES (nio_rx d), "rx"); (ULL (nio_ipackets d), "ipackets");
        (ULL (nio_opackets d), "opackets"); (ULL (nio_ierrors d), "ierrors");
        (ULL (nio_oerrors d), "oerrors"); (ULL (nio_collisions d), "collisions");
        (TIME (nio_systime d), "systime")];;
      populate_io o io'
  end.

(** The search for an entry of the same name among the counters. *)
Fixpoint had_io (io : list sg_network_io_stats) (name : string) : M prog bool :=
  match io with
  | [] => mret false
  | d :: io' =>
      n ← read_ptr (nio_interface_name d);
      if strcmp n name =? 0 then mret true else had_io io' name
  end.

Fixpoint populate_iface (o : options) (io : list sg_network_io_stats)
    (iface : list sg_network_iface_stats) : M prog unit :=
  match iface with
  | [] => mret tt
  | d :: iface' =>
      name ← read_ptr (nif_interface_name d);
      had ← had_io io name;
      (if (had : bool) then mret tt
       else add_stats o ["net"; name] [(TEXT (nif_interface_name d), "interface_name")]);;
      add_stats o ["net"; name] [(ULL (nif_speed d), "speed");
        (STAT_TYPE_BOOL, CellInt (if decide (nif_up d = SG_IFACE_UP) then 1 else 0), "up");
        (STAT_TYPE_DUPLEX, CellDuplex (nif_duplex d), "duplex")];;
      populate_iface o io iface'
  end.

Definition populate_net (o : options) (lib : library) : M prog unit :=
  let io := lib_network_io_stats lib (use_diffs o) in
  match io with Some io => populate_io o io | None => mret tt end;;
  match lib_network_iface_stats lib with
  | Some iface => populate_iface o (default [] io) iface
  | None => mret tt
  end.

Definition populate_page (o : options) (lib : library) : M prog unit :=
  match lib_page_stats lib (use_diffs o) with
  | Some p =>
      add_stats o ["page"] [(ULL (pages_pagein p), "in"); (ULL (pages_pageout p), "out");
        (TIME (page_systime p), "systime")]
  | None => mret tt
  end.

Record toplevel := mk_toplevel { t_name : string; t_populate : options -> library -> M prog unit }.

(** The flag [interesting] of every section is kept beside the table. *)
Definition toplevels : list toplevel :=
  [mk_toplevel "const." populate_const; mk_toplevel "cpu." populate_cpu;
   mk_toplevel "mem." populate_mem; mk_toplevel "load." populate_load;
   mk_toplevel "user." populate_user; mk_toplevel "swap." populate_swap;
   mk_toplevel "general." populate_general; mk_toplevel "fs." populate_fs;
   mk_toplevel "disk." populate_disk; mk_toplevel "proc." populate_proc;
   mk_toplevel "net." populate_net; mk_toplevel "page." populate_page].

(** The inner loop of [select_interesting] for one argument: the first section
    whose name starts it. *)
Fixpoint mark_section (arg : string) (ts : list toplevel) (flags : list bool) : list bool :=
  match ts, flags with
  | t :: ts', f :: flags' =>
      if strncmp arg (t_name t) (String.length (t_name t)) =? 0 then true :: flags'
      else f :: mark_section arg ts' flags'
  | _, _ => flags
  end.

Definition select_interesting (args : list string) (flags : list bool) : list bool :=
  match args with
  | [] => (fun _ => true) <$> flags
  | _ => foldl (fun fl a => mark_section a toplevels fl) flags args
  end.

Fixpoint populate (o : options) (lib : library) (ts : list toplevel) (flags : list bool)
    : M prog unit :=
  match ts, flags with
  | t :: ts', f :: flags' =>
      (if (f : bool) then t_populate t o lib else mret tt);; populate o lib ts' flags'
  | _, _ => mret tt
  end.

(** [qsort] on the names; the array is NULL when nothing was ever added. *)
Definition sort_stats (l : list stat_item) : list stat_item :=
  qsort (fun a b => stats_compare (si_name a) (si_name b)) l.

Definition get_stats (o : options) (lib : library) (flags : list bool) : M prog unit :=
  clear_stats;;
  populate o lib toplevels flags;;
  p ← gets id;
  (if p_alloc p =? 0 then mret tt else modify (fun p => set_items (sort_stats (p_items p)) p));;
  (if decide (display_mode o = DISPLAY_GRAPHITE) then modify (set_ts (lib_time lib)) else mret tt).

(** * Output *)

(** [v.ull >>= factor - 1; ++v.ull; v.ull >>= 1] *)
Definition scale_bytes (factor v : Z) : Z :=
  if factor =? 0 then v
  else Z.shiftr (u64 (Z.shiftr v (factor - 1) + 1)) 1.

Definition print_stat_value (o : options) (s : stat_item) : M prog unit :=
  match si_type s, si_stat s with
  | STAT_TYPE_LONG_LONG, CellInt z => printf (print_signed (s64 z))
  | STAT_TYPE_UNSIGNED_LONG_LONG, CellInt z => printf (print_unsigned (u64 z))
  | STAT_TYPE_BYTES, CellInt z => printf (print_unsigned (scale_bytes (bytes_scale_factor o) (u64 z)))
  | STAT_TYPE_TIME_T, CellInt z => printf (print_signed (s64 z))
  | (STAT_TYPE_FLOAT | STAT_TYPE_DOUBLE), CellDouble d =>
      if float_scale_factor o =? 0 then printf (print_f d)
      else
        match double_to_long (double_mul (double_of (float_scale_factor o)) d) with
        | Some z => printf (print_signed z)
        | None => stuck undefined_op
        end
  | STAT_TYPE_STRING, CellText p => t ← read_ptr p; printf t
  | STAT_TYPE_INT, CellInt z => printf (print_signed (s32 z))
  | STAT_TYPE_UNSIGNED, CellInt z => printf (print_unsigned (u32 z))
  | STAT_TYPE_BOOL, CellInt z => printf (if s32 z =? 0 then "false" else "true")
  | STAT_TYPE_DUPLEX, CellDuplex d =>
      printf (match d with
              | SG_IFACE_DUPLEX_FULL => "full"
              | SG_IFACE_DUPLEX_HALF => "half"
              | SG_IFACE_DUPLEX_UNKNOWN => "unknown"
              end)
  | _, _ => stuck undefined_op
  end.

Definition print_stat (o : options) (s : stat_item) : M prog unit :=
  match display_mode o with
  | DISPLAY_LINUX => printf (si_name s +:+ " = ")
  | DISPLAY_BSD => printf (si_name s +:+ ": ")
  | DISPLAY_GRAPHITE =>
      match graphite_prefix o with
      | None => printf (si_name s +:+ " ")
      | Some pre => printf (pre +:+ String "." (si_name s +:+ " "))
      end
  | DISPLAY_MRTG | DISPLAY_PLAIN => mret tt
  end;;
  print_stat_value o s;;
  ts ← gets p_graphite_ts;
  (if decide (display_mode o = DISPLAY_GRAPHITE) then printf (String " " (print_signed ts))
   else mret tt);;
  printf (String newline EmptyString).

Fixpoint print_range (o : options) (l : list stat_item) : M prog unit :=
  match l with
  | [] => mret tt
  | s :: l' => print_stat o s;; print_range o l'
  end.

(** [for (; s >= stat_items; s--)]: the first entry of the range, looked for
    downwards; [s + 1] entries are left, so 0 is the place before the array. *)
Fixpoint range_start (cmp : string -> Z) (l : list stat_item) (s1 : nat) : nat :=
  match s1 with
  | O => O
  | S s => match l !! s with
           | Some x => if cmp (si_name x) =? 0 then range_start cmp l s else s1
           | None => s1
           end
  end.

(** [for (end = s; end < &stat_items[num_stats]; end++)] *)
Fixpoint range_end (cmp : string -> Z) (rest : list stat_item) : nat :=
  match rest with
  | [] => O
  | x :: rest' => if cmp (si_name x) =? 0 then S (range_end cmp rest') else O
  end.

(** The comparison an argument selects: [name[strlen(name) - 1]] of an empty
    argument is outside of it. *)
Definition arg_compare (name : string) : option (string -> Z) :=
  match String.get (String.length name - 1) name with
  | None => None
  | Some c =>
      Some (if Ascii.eqb c "."%char then stats_compare_prefix name else stats_compare name)
  end.

Fixpoint print_args (o : options) (args : list string) : M prog unit :=
  match args with
  | [] => mret tt
  | name :: args' =>
      match arg_compare name with
      | None => stuck out_of_bounds
      | Some cmp =>
          l ← gets p_items;
          match bsearch (fun x => cmp (si_name x)) l with
          | None => eprintf ("Unknown stat " +:+ name +:+ String newline EmptyString)
          | Some i =>
              let s := range_start cmp l (S i) in
              let rest := drop s l in
              print_range o (take (range_end cmp rest) rest)
          end;;
          print_args o args'
      end
  end.

Definition print_stats (o : options) (args : list string) : M prog unit :=
  match args with
  | [] => l ← gets p_items; print_range o l
  | _ => print_args o args
  end.

(** * The list of file systems *)

Definition STACK_UNIT : nat := 4.

(** [realloc] of the stack to [desired] pointers. *)
Definition push_item (stack : list char_ptr) (item : char_ptr) (items : nat)
    : M env (list char_ptr) :=
  let stack_size := items in
  let desired := (items / STACK_UNIT * STACK_UNIT)%nat in
  let items := S items in
  s ← (if (desired <? items)%nat then
         let desired := ((items / STACK_UNIT + 1) * STACK_UNIT)%nat in
         if (stack_size <=? desired)%nat then
           a ← alloc_request;
           match a with
           | AFail => die
           | _ => mret (take desired (stack ++ replicate (desired - length stack) CWild))
           end
         else mret stack
       else mret stack);
  if (stack_size <? length s)%nat then mret (<[stack_size := item]> s) else stuck out_of_bounds.

Definition sg_is_spc (c : ascii) : bool := isspace c.

Definition is_sep (c : ascii) : bool := sg_is_spc c || Ascii.eqb c ","%char.

(** [strndup] *)
Definition strndup (s : string) : M env char_ptr :=
  a ← alloc_request;
  mret (match a with AFail => CNull | _ => CStr s end).

Fixpoint split_loop (fuel : nat) (l : string) (sp : list char_ptr) (items : nat)
    : M env (list char_ptr * nat) :=
  match l, fuel with
  | EmptyString, _ => mret (sp, items)
  | _, O => stuck out_of_fuel
  | _, S fuel' =>
      let '(word, rest) := take_while (fun c => negb (is_sep c)) None l in
      w ← strndup word;
      sp ← push_item sp w items;
      split_loop fuel' (take_while is_sep None rest).2 sp (S items)
  end.

Definition split_list (l : string) : M env (list char_ptr) :=
  r ← split_loop (String.length l) l [] 0;
  push_item r.1 CNull r.2.

Definition fsnmcmp (a b : char_ptr) : Z :=
  match name_of a, name_of b with
  | Some x, Some y => strcasecmp x y
  | Some _, None => -1
  | None, Some _ => 1
  | None, None => 0
  end.

(** [for(newfs = given_fs; *newfs; ++newfs)]: the entries before the NULL. *)
Fixpoint before_null (l : list char_ptr) : M env (list char_ptr) :=
  match l with
  | [] => stuck out_of_bounds
  | CNull :: _ => mret []
  | CWild :: _ => stuck wild_pointer
  | p :: l' => r ← before_null l'; mret (p :: r)
  end.

Fixpoint keep_loop (given old : list char_ptr) (newfs : list char_ptr) (new_items : nat)
    : M env (list char_ptr * nat) :=
  match old with
  | [] => mret (newfs, new_items)
  | p :: old' =>
      match bsearch (fsnmcmp p) given with
      | None => newfs ← push_item newfs p new_items; keep_loop given old' newfs (S new_items)
      | Some _ => keep_loop given old' newfs new_items
      end
  end.

Fixpoint read_names (l : list char_ptr) : M env (list string) :=
  match l with
  | [] => mret []
  | p :: l' => s ← read_ptr p; r ← read_names l'; mret (s :: r)
  end.

Definition skip_spc (s : string) : string := (take_while sg_is_spc None s).2.

Definition set_valid_filesystems (list_ : string) (vf : valid_fs) : M env valid_fs :=
  let list_ := skip_spc list_ in
  r ← match list_ with
      | String "!" l =>
          match (sg_get_valid_filesystems vf).1 with
          | None => die
          | Some old =>
              given_fs ← split_list (skip_spc l);
              given ← before_null given_fs;
              old ← before_null (old ++ [CNull]);
              k ← keep_loop (qsort fsnmcmp given) old [] 0;
              newfs ← push_item k.1 CNull k.2;
              mret (newfs, given)
          end
      | _ => given_fs ← split_list list_; given ← before_null given_fs; mret (given_fs, given)
      end;
  new ← before_null r.1;
  names ← read_names new;
  s ← sg_set_valid_filesystems (Some names) vf;
  if decide (s.1 <> SG_ERROR_NONE) then die
  else free_names r.2;; mret s.2.

(** * The program *)

(** One option as [getopt] delivers it; [None] is [usage], which exits. *)
Definition set_option (c : ascii) (optarg : string) (o : options) : option options :=
  let mode m pre := mk_options m (repeat_mode o) (repeat_time o) (use_cpu_percent o) (use_diffs o)
                      (float_scale_factor o) (bytes_scale_factor o) pre (fslist o) in
  let rep r t := mk_options (display_mode o) r t (use_cpu_percent o) (use_diffs o)
                   (float_scale_factor o) (bytes_scale_factor o) (graphite_prefix o) (fslist o) in
  let scale f b := mk_options (display_mode o) (repeat_mode o) (repeat_time o) (use_cpu_percent o)
                     (use_diffs o) f b (graphite_prefix o) (fslist o) in
  let atoi s := s32 (libc_atoll s) in
  match c with
  | "l"%char => Some (mode DISPLAY_LINUX (graphite_prefix o))
  | "b"%char => Some (mode DISPLAY_BSD (graphite_prefix o))
  | "m"%char => Some (mode DISPLAY_MRTG (graphite_prefix o))
  | "r"%char => Some (mode DISPLAY_GRAPHITE (graphite_prefix o))
  | "R"%char => Some (mode DISPLAY_GRAPHITE (Some optarg))
  | "u"%char => Some (mode DISPLAY_PLAIN (graphite_prefix o))
  | "n"%char => Some (rep REPEAT_NONE (repeat_time o))
  | "s"%char => Some (rep REPEAT_FOREVER (repeat_time o))
  | "o"%char => Some (rep REPEAT_ONCE (repeat_time o))
  | "t"%char => Some (rep (repeat_mode o) (atoi optarg))
  | "p"%char =>
      Some (mk_options (display_mode o) (repeat_mode o) (repeat_time o) true (use_diffs o)
              (float_scale_factor o) (bytes_scale_factor o) (graphite_prefix o) (fslist o))
  | "f"%char => Some (scale (libc_atoll optarg) (bytes_scale_factor o))
  | "F"%char =>
      Some (mk_options (display_mode o) (repeat_mode o) (repeat_time o) (use_cpu_percent o)
              (use_diffs o) (float_scale_factor o) (bytes_scale_factor o) (graphite_prefix o)
              (Some optarg))
  | "K"%char => Some (scale (float_scale_factor o) 10)
  | "M"%char => Some (scale (float_scale_factor o) 20)
  | "G"%char => Some (scale (float_scale_factor o) 30)
  | _ => None
  end.

Fixpoint set_options (l : list (ascii * string)) (o : options) : option options :=
  match l with
  | [] => Some o
  | (c, optarg) :: l' =>
      match set_option c optarg o with Some o' => set_options l' o' | None => None end
  end.

(** [use_diffs] after the options. *)
Definition finish_options (o : options) : options :=
  mk_options (display_mode o) (repeat_mode o) (repeat_time o) (use_cpu_percent o)
    (bool_decide (repeat_mode o <> REPEAT_NONE)) (float_scale_factor o) (bytes_scale_factor o)
    (graphite_prefix o) (fslist o).

Definition default_fslist : string := "!nfs, nfs3, nfs4, cifs, smbfs, samba, autofs".

(** The rounds of [REPEAT_FOREVER], one per element of [libs]. *)
Fixpoint repeat_rounds (o : options) (args : list string) (flags : list bool) (libs : list library)
    : M prog unit :=
  match libs with
  | [] => mret tt
  | lib :: libs' =>
      get_stats o lib flags;; print_stats o args;; printf (String newline EmptyString);;
      repeat_rounds o args flags libs'
  end.

(** [opts] and [args]: the command line as [getopt] splits it; [dropped]: whether
    [sg_drop_privileges] succeeded; [vf]: the file systems the library knows;
    [libs]: what it delivers in the rounds, as many as are looked at. *)
Definition main (opts : list (ascii * string)) (args : list string) (dropped : bool) (vf : valid_fs)
    (libs : list library) : M prog valid_fs :=
  match set_options opts default_options with
  | None => die
  | Some o =>
      if decide (display_mode o = DISPLAY_MRTG /\
                 (length args <> 2%nat \/ repeat_mode o = REPEAT_FOREVER)) then die
      else
        let o := finish_options o in
        let flags := select_interesting args ((fun _ => false) <$> toplevels) in
        if negb dropped then die
        else
          vf' ← in_penv (set_valid_filesystems (default default_fslist (fslist o)) vf);
          match repeat_mode o, libs with
          | REPEAT_NONE, lib :: _ => get_stats o lib flags;; print_stats o args
          | REPEAT_ONCE, lib1 :: lib2 :: _ =>
              get_stats o lib1 flags;; get_stats o lib2 flags;; print_stats o args
          | REPEAT_FOREVER, _ => repeat_rounds o args flags libs
          | _, _ => mret tt
          end;;
          (if decide (display_mode o = DISPLAY_MRTG) then
             printf (String newline EmptyString);; printf ("statgrab" +:+ String newline EmptyString)
           else mret tt);;
          mret vf'
  end.
End statgrab.
