(* ===== verification/StatgrabProps.v ===== *)
(** Theorems about the statgrab command: the selection of statistics by the
    command line, the names of the table, the scaling of byte counts and the
    lists of file systems. *)

From stdpp Require Import fin_maps.
From S2P Require Import Prelude Types CLib Errors Tools Vector Items Stdio ToolsExt Single Disk Demo DiskProps Statgrab.

(** * Selection *)

(** What the manual promises: an argument names a statistic, or with a dot at its
    end all statistics that start with it. *)
Definition selects (arg name : string) : bool :=
  match String.get (String.length arg - 1) arg with
  | Some c => if Ascii.eqb c "."%char then String.prefix arg name else String.eqb arg name
  | None => false
  end.

Definition selected (arg : string) (l : list stat_item) : list stat_item :=
  filter (fun s => selects arg (si_name s) = true) l.

Definition name_le (a b : stat_item) : Prop := strcmp (si_name a) (si_name b) <= 0.

#[export] Instance name_le_trans : Transitive name_le.
Proof. intros a b c. apply strcmp_le_trans. Qed.

Definition by_name (l : list stat_item) : Prop := Sorted name_le l.

Section range.
Context (cmp : string -> Z) (l : list stat_item).
Hypothesis Hmono : key_mono (fun x => cmp (si_name x)) l.

Local Abbreviation hit := (fun x : stat_item => cmp (si_name x) = 0).

Lemma range_start_le s1 : (range_start cmp l s1 <= s1)%nat.
Proof.
  induction s1 as [|s IH]; cbn; [lia|]. destruct (l !! s); [|lia].
  destruct (cmp (si_name s0) =? 0); lia.
Qed.

(** The entries from the start to [s1] belong to the range, and the one before it does not. *)
Lemma range_start_spec s1 :
  (forall j x, (range_start cmp l s1 <= j < s1)%nat -> l !! j = Some x -> hit x) /\
  (forall s x, range_start cmp l s1 = S s -> (S s <= length l)%nat -> l !! s = Some x -> ~ hit x).
Proof.
  induction s1 as [|s [IH1 IH2]]; cbn; [split; [lia | done]|].
  destruct (l !! s) as [y|] eqn:Ey.
  - destruct (Z.eqb_spec (cmp (si_name y)) 0) as [E|E].
    + split; [|done]. intros j x Hj Hx. destruct (decide (j = s)) as [->|]; [by simplify_eq|].
      eapply IH1; [|done]. lia.
    + split; [lia|]. intros s' x [= <-] _ Hx. by simplify_eq.
  - split; [lia|]. intros s' x [= <-] Hs Hx. congruence.
Qed.

Lemma range_end_spec rest :
  Forall hit (take (range_end cmp rest) rest) /\
  (forall x rest', drop (range_end cmp rest) rest = x :: rest' -> ~ hit x).
Proof.
  induction rest as [|y rest [IH1 IH2]]; cbn; [by split|].
  destruct (Z.eqb_spec (cmp (si_name y)) 0) as [E|E]; cbn.
  - split; [by constructor | done].
  - split; [constructor|]. by intros x rest' [= -> ->].
Qed.

(** The two scans from an entry that [bsearch] found deliver all entries the
    comparison selects. *)
Lemma range_filter i x :
  l !! i = Some x -> hit x ->
  let s := range_start cmp l (S i) in
  take (range_end cmp (drop s l)) (drop s l) = filter hit l.
Proof.
  intros Hi Hx. cbv zeta. destruct (range_start_spec (S i)) as [Hin Hbefore].
  pose proof (range_start_le (S i)) as Hsi.
  set (s := range_start cmp l (S i)) in *. clearbody s.
  destruct (range_end_spec (drop s l)) as [Hall Hafter].
  pose proof (lookup_lt_Some _ _ _ Hi) as Hil.
  rewrite <- (take_drop s l) at 3. rewrite filter_app.
  rewrite (filter_none hit (take s l)).
  2: { apply Forall_lookup. intros j y (Hj & Hlt)%lookup_take_Some Hy.
       destruct s as [|s']; [lia|].
       destruct (l !! s') as [z|] eqn:Ez; [|apply lookup_ge_None in Ez; lia].
       assert (~ hit z) as Hz by (eapply Hbefore; [done | lia | done]).
       destruct (decide (s' = i)) as [->|]; [congruence|].
       destruct (Hmono s' i z x) as [H1 H2]; [lia | done | done |].
       destruct (decide (j = s')) as [->|]; [by simplify_eq|].
       destruct (Hmono j s' y z) as [H3 H4]; [lia | done | done |].
       cbv beta in *. lia. }
  cbn [app]. rewrite <- (take_drop (range_end cmp (drop s l)) (drop s l)) at 3.
  rewrite filter_app, (filter_every _ _ Hall).
  rewrite filter_none; [by rewrite app_nil_r|].
  destruct (drop (range_end cmp (drop s l)) (drop s l)) as [|z rest] eqn:Ed; [constructor|].
  assert (~ hit z) as Hz by (by eapply Hafter).
  assert (drop (s + range_end cmp (drop s l)) l = z :: rest) as Ed' by (by rewrite <- drop_drop).
  set (e := (s + range_end cmp (drop s l))%nat) in *.
  assert (l !! e = Some z) as Ee.
  { replace (l !! e) with (drop e l !! 0%nat) by (rewrite lookup_drop; f_equal; lia).
    by rewrite Ed'. }
  assert (i < e)%nat as Hie.
  { destruct (decide (i < e)%nat); [done|]. exfalso. apply Hz. eapply Hin; [|done]. lia. }
  apply Forall_lookup. intros j y Hj Hy.
  assert (l !! (e + j)%nat = Some y) as Hey by (by rewrite <- lookup_drop, Ed').
  destruct (Hmono i e x z) as [_ H2]; [done | done | done |].
  destruct j as [|j]; [rewrite Nat.add_0_r in Hey; by simplify_eq|].
  destruct (Hmono e (e + S j)%nat z y) as [H3 _]; [lia | done | done |].
  cbv beta in *. lia.
Qed.
End range.

(** Printing leaves the table alone. *)
Definition keeps_items {A} (m : M prog A) : Prop :=
  forall p a p', m p = Done a p' -> p_items p' = p_items p.

Lemma keeps_bind {A B} (m : M prog A) (f : A -> M prog B) :
  keeps_items m -> (forall a, keeps_items (f a)) -> keeps_items (m ≫= f).
Proof.
  intros Hm Hf p b p'. unfold mbind, M_bind. destruct (m p) as [a p1|] eqn:E; [|done].
  intros H. by rewrite (Hf a p1 b p' H), (Hm p a p1 E).
Qed.

Lemma keeps_ret {A} (a : A) : keeps_items (mret a).
Proof. by intros p a' p' [= <- <-]. Qed.
Lemma keeps_printf s : keeps_items (printf s).
Proof. by intros p a' p' [= <- <-]. Qed.
Lemma keeps_eprintf s : keeps_items (eprintf s).
Proof. by intros p a' p' [= <- <-]. Qed.
Lemma keeps_gets {A} (f : prog -> A) : keeps_items (gets f).
Proof. by intros p a' p' [= <- <-]. Qed.
Lemma keeps_stuck {A} f : keeps_items (stuck f : M prog A).
Proof. done. Qed.
Lemma keeps_read_ptr p : keeps_items (read_ptr p).
Proof. destruct p; first [apply keeps_ret | done]. Qed.

Create HintDb keeps.
#[local] Hint Resolve keeps_ret keeps_printf keeps_eprintf keeps_gets keeps_stuck keeps_read_ptr
  : keeps.

Ltac keeps_step :=
  lazymatch goal with
  | |- keeps_items (_ ≫= _) => apply keeps_bind; [|intros ?]
  | |- keeps_items (match ?x with _ => _ end) => destruct x
  | |- keeps_items (if ?x then _ else _) => destruct x
  | |- _ => auto with keeps
  end.

Lemma keeps_print_value o s : keeps_items (print_stat_value o s).
Proof. unfold print_stat_value. repeat keeps_step. Qed.

Lemma keeps_print_range o l : keeps_items (print_range o l).
Proof.
  pose proof (keeps_print_value o). induction l as [|s l IH]; cbn [print_range]; unfold print_stat;
    repeat keeps_step; auto.
Qed.
#[local] Hint Resolve keeps_print_range : keeps.

(** The specification of [print_stats]: a look at every entry of the table. *)
Fixpoint spec_args (o : options) (args : list string) : M prog unit :=
  match args with
  | [] => mret tt
  | name :: args' =>
      l ← gets p_items;
      match selected name l with
      | [] => eprintf ("Unknown stat " +:+ name +:+ String newline EmptyString)
      | sel => print_range o sel
      end;;
      spec_args o args'
  end.

Definition spec_print (o : options) (args : list string) : M prog unit :=
  match args with [] => l ← gets p_items; print_range o l | _ => spec_args o args end.

Lemma last_char arg : arg <> EmptyString -> is_Some (String.get (String.length arg - 1) arg).
Proof.
  intros Ha. assert (forall s n, (n < String.length s)%nat -> is_Some (String.get n s)) as H.
  { induction s as [|c s IH]; intros n Hn; cbn in *; [lia|]. destruct n; [eauto|]. apply IH. lia. }
  apply H. destruct arg; [done|]. cbn. lia.
Qed.

(** The comparison an argument selects finds the selected names, and goes along
    with the order of the table. *)
Lemma arg_compare_spec arg :
  arg <> EmptyString ->
  exists cmp, arg_compare arg = Some cmp /\
    (forall n, cmp n = 0 <-> selects arg n = true) /\
    (forall a b, strcmp a b <= 0 -> cmp b <= cmp a).
Proof.
  intros (c & Hc)%last_char. unfold arg_compare, selects. rewrite Hc.
  destruct (Ascii.eqb c "."); eexists; (split; [done|]).
  - split; [intros n; apply strncmp_prefix | intros a b; apply strncmp_mono].
  - split; [|intros a b; apply strcmp_mono].
    intros n. unfold stats_compare. by rewrite strcmp_eq, String.eqb_eq.
Qed.

Lemma by_name_mono cmp l :
  by_name l -> (forall a b, strcmp a b <= 0 -> cmp b <= cmp a) ->
  key_mono (fun x => cmp (si_name x)) l.
Proof.
  intros Hl Hc. apply (key_mono_sorted name_le); [done|]. intros x y Hxy%Hc. lia.
Qed.

Lemma bsearch_range arg cmp l :
  by_name l -> (forall n, cmp n = 0 <-> selects arg n = true) ->
  (forall a b, strcmp a b <= 0 -> cmp b <= cmp a) ->
  match bsearch (fun x => cmp (si_name x)) l with
  | None => selected arg l = []
  | Some i => selected arg l <> [] /\
      let s := range_start cmp l (S i) in
      take (range_end cmp (drop s l)) (drop s l) = selected arg l
  end.
Proof.
  intros Hl H0 Hc. pose proof (by_name_mono cmp l Hl Hc) as Hm.
  assert (selected arg l = filter (fun x => cmp (si_name x) = 0) l) as Hsel.
  { apply list_filter_iff. intros x. symmetry. apply H0. }
  pose proof (bsearch_spec _ l Hm) as Hb. destruct (bsearch _ l) as [i|].
  - destruct Hb as (x & Hx & Hz). split.
    + rewrite Hsel. intros Hn. apply list_elem_of_lookup_2 in Hx.
      eapply filter_nil_not_elem_of; [exact Hn | exact Hz | exact Hx].
    + rewrite Hsel. by apply (range_filter cmp l Hm i x).
  - rewrite Hsel. apply filter_none, Forall_forall. auto.
Qed.

Lemma print_stats_spec o args p :
  by_name (p_items p) -> (EmptyString ∉ args) -> print_stats o args p = spec_print o args p.
Proof.
  intros Hl Ha. destruct args as [|a0 args0]; [done|]. unfold print_stats, spec_print.
  revert p Hl Ha. generalize (a0 :: args0); clear a0 args0.
  intros args. induction args as [|arg args IH]; intros p Hl Ha; [done|].
  apply not_elem_of_cons in Ha as [Hne Ha].
  destruct (arg_compare_spec arg) as (cmp & Hcmp & H0 & Hc); [done|].
  cbn [print_args spec_args]. rewrite Hcmp.
  pose proof (bsearch_range arg cmp (p_items p) Hl H0 Hc) as Hb.
  unfold mbind, M_bind, gets. destruct (bsearch _ (p_items p)) as [i|].
  - destruct Hb as [Hne' Hb]. cbv zeta in Hb |- *. rewrite Hb.
    destruct (selected arg (p_items p)) as [|x sel] eqn:Es; [done|].
    destruct (print_range o (x :: sel) p) as [[] p1|] eqn:E; [|done].
    apply IH; [|done]. by rewrite (keeps_print_range _ _ _ _ _ E).
  - rewrite Hb. apply IH; done.
Qed.

(** C8: [print_stats] on a sorted table prints, for every argument, exactly the
    statistics the argument selects, in the order of the table, and reports the
    argument as unknown when there is none: the binary search and the two scans
    from the entry it finds are equivalent to a look at every entry. *)
Theorem print_stats_selects o args p :
  by_name (p_items p) -> (EmptyString ∉ args) -> print_stats o args p = spec_print o args p.
Proof. apply print_stats_spec. Qed.

(** * Names *)

Local Abbreviation chars := String.list_ascii_of_string.

(** The name of a statistic: its parts without spaces and dots, joined with dots. *)
Fixpoint dotted (parts : list string) : string :=
  match parts with
  | [] => EmptyString
  | [part] => map_string name_char part
  | part :: parts' => map_string name_char part +:+ String "." (dotted parts')
  end.

Definition dotted_bytes (parts : list string) : list ascii :=
  mjoin ((fun part => (name_char <$> chars part) ++ ["."%char]) <$> parts).

Lemma dotted_bytes_cons part parts :
  dotted_bytes (part :: parts)
    = ((name_char <$> chars part) ++ ["."%char]) ++ dotted_bytes parts.
Proof. done. Qed.

Lemma write_next (pre rest : list ascii) x c :
  buf_write (pre ++ x :: rest) (length pre) c = Some ((pre ++ [c]) ++ rest).
Proof.
  unfold buf_write. rewrite decide_True by (rewrite length_app; cbn; lia).
  by rewrite (write_mid pre rest x c) by done; rewrite <- app_assoc.
Qed.

Lemma paste_part_spec cs pre rest :
  (length cs <= length rest)%nat ->
  paste_part cs (length pre) (pre ++ rest)
    = Some ((pre ++ (name_char <$> cs)) ++ drop (length cs) rest, length (pre ++ (name_char <$> cs))).
Proof.
  revert pre rest. induction cs as [|c cs IH]; intros pre rest Hl; cbn.
  { by rewrite !app_nil_r. }
  destruct rest as [|x rest]; cbn in Hl; [lia|]. rewrite write_next.
  replace (S (length pre)) with (length (pre ++ [name_char c])) by (rewrite length_app; cbn; lia).
  rewrite IH by lia. do 2 f_equal; rewrite <- !app_assoc; done.
Qed.

Lemma chars_length s : length (chars s) = String.length s.
Proof. induction s; cbn; congruence. Qed.

Lemma paste_name_spec parts pre rest :
  (length (dotted_bytes parts) <= length rest)%nat ->
  paste_name parts (length pre) (pre ++ rest)
    = Some ((pre ++ dotted_bytes parts) ++ drop (length (dotted_bytes parts)) rest,
            length (pre ++ dotted_bytes parts)).
Proof.
  revert pre rest. induction parts as [|part parts IH]; intros pre rest; cbn [paste_name].
  { intros _. cbn. by rewrite !app_nil_r. }
  rewrite dotted_bytes_cons, !length_app, length_fmap. cbn [length]. intros Hl.
  rewrite paste_part_spec by lia.
  destruct (drop (length (chars part)) rest) as [|x rest'] eqn:Er.
  { apply (f_equal length) in Er. rewrite length_drop in Er. cbn in Er. lia. }
  rewrite write_next.
  match goal with |- context [paste_name parts (S (length ?q))] =>
    replace (S (length q)) with (length (q ++ ["."%char])) by (rewrite length_app; cbn; lia) end.
  assert (rest' = drop (S (length (chars part))) rest) as Hr'.
  { rewrite <- Nat.add_1_r, <- drop_drop, Er. done. }
  rewrite IH.
  - rewrite Hr', drop_drop, !length_app, length_fmap. cbn [length].
    f_equal. f_equal; [|lia]. rewrite <- !app_assoc. cbn [app]. do 4 f_equal. f_equal. lia.
  - rewrite Hr', length_drop. lia.
Qed.

Lemma name_len_bytes parts : name_len parts = Z.of_nat (length (dotted_bytes parts)).
Proof.
  induction parts as [|part parts IH]; [done|]. cbn [name_len].
  rewrite dotted_bytes_cons, !length_app, length_fmap, chars_length, IH. cbn [length]. lia.
Qed.

Lemma chars_app a b : chars (a +:+ b) = chars a ++ chars b.
Proof. apply list_ascii_app. Qed.

Lemma chars_map f s : chars (map_string f s) = f <$> chars s.
Proof. induction s as [|c s IH]; [done|]. exact (f_equal (cons (f c)) IH). Qed.

(** The pasted bytes are the name and the dot that gives way to the terminator. *)
Lemma dotted_bytes_snoc parts :
  parts <> [] -> dotted_bytes parts = chars (dotted parts) ++ ["."%char].
Proof.
  induction parts as [|part [|q parts] IH]; intros Hp; [done | |].
  - rewrite dotted_bytes_cons. cbn [dotted]. rewrite chars_map. apply app_nil_r.
  - rewrite dotted_bytes_cons, IH by done.
    change (dotted (part :: q :: parts)) with
      (map_string name_char part +:+ String "." (dotted (q :: parts))).
    rewrite chars_app, chars_map. by rewrite <- !app_assoc.
Qed.

Lemma dotted_no_nul parts :
  Forall (fun s => no_nul s = true) parts -> no_nul (dotted parts) = true.
Proof.
  assert (forall s, no_nul s = true -> NUL ∉ chars (map_string name_char s)) as Hm.
  { intros s Hs%bool_decide_eq_true. rewrite chars_map. intros (c & Hc & Hin)%list_elem_of_fmap.
    unfold name_char in Hc. destruct (_ || _); [done|]. by subst. }
  intros HF. apply bool_decide_eq_true. induction HF as [|part [|q parts] Hp HF IH]; cbn [dotted].
  - apply not_elem_of_nil.
  - by apply Hm.
  - rewrite chars_app. intros [H|[H|H]%elem_of_cons]%elem_of_app; [by eapply Hm | done | by apply IH].
Qed.

Lemma finish_name_spec parts j :
  parts <> [] -> Forall (fun s => no_nul s = true) parts ->
  finish_name (paste_name parts 0 (replicate (Z.to_nat (name_len parts)) j)) = Some (dotted parts).
Proof.
  intros Hp HF. rewrite name_len_bytes, Nat2Z.id.
  set (b := replicate _ j). assert (length b = length (dotted_bytes parts)) as Hb
    by apply length_replicate. clearbody b.
  pose proof (paste_name_spec parts [] b) as Hn. cbn [app length] in Hn. rewrite Hn by lia.
  rewrite drop_ge by lia. rewrite app_nil_r, dotted_bytes_snoc by done.
  rewrite length_app, Nat.add_1_r. cbn [finish_name].
  rewrite (write_next (chars (dotted parts)) [] "." NUL), app_nil_r.
  pose proof (text_of_c_str (dotted parts) []) as Ht. rewrite app_nil_r in Ht.
  by apply Ht, dotted_no_nul.
Qed.

(** ** [add_stat] *)

Section table.
Context {mem : Memory}.

Definition skipped (o : options) (type : stat_type) : bool :=
  bool_decide (display_mode o = DISPLAY_GRAPHITE) && graphite_skips type.

(** Names that fit an [int] and have no terminator inside. *)
Definition parts_ok (parts : list string) : Prop :=
  parts <> [] /\ Forall (fun s => no_nul s = true) parts /\ name_len parts < 2 ^ 31.

(** The table has room for its entries and exists when it has any. *)
Definition table_ok (p : prog) : Prop := Z.of_nat (length (p_items p)) <= p_alloc p.

(** [m] appends the entries [l], whatever the table holds, returns [a] and does
    nothing else to the table and the output. *)
Definition adds {A} (m : M prog A) (a : A) (l : list stat_item) : Prop :=
  forall p (Q : A -> prog -> Prop),
    table_ok p -> (AFail ∉ e_allocs (p_env p)) ->
    (forall p', table_ok p' -> (AFail ∉ e_allocs (p_env p')) -> p_items p' = p_items p ++ l ->
       p_out p' = p_out p -> p_err p' = p_err p -> Q a p') ->
    wp m Q p.

Lemma adds_ret {A} (a : A) : adds (mret a) a [].
Proof. intros p Q Ht Ha HQ. apply wp_ret, HQ; try done. by rewrite app_nil_r. Qed.

Lemma adds_bind {A B} (m : M prog A) a (f : A -> M prog B) b l l' :
  adds m a l -> adds (f a) b l' -> adds (m ≫= f) b (l ++ l').
Proof.
  intros Hm Hm' p Q Ht Ha HQ. apply wp_bind, Hm; [done | done |]. intros p1 Ht1 Ha1 Hi1 Ho1 He1.
  apply Hm'; [done | done |]. intros p2 Ht2 Ha2 Hi2 Ho2 He2. apply HQ; try done; try congruence.
  by rewrite Hi2, Hi1, app_assoc.
Qed.

Lemma wp_palloc (Q : alloc_choice -> prog -> Prop) p :
  (AFail ∉ e_allocs (p_env p)) ->
  (forall c e', c <> AFail -> (AFail ∉ e_allocs e') ->
     Q c (mk_prog (p_items p) (p_alloc p) (p_graphite_ts p) (p_out p) (p_err p) e')) ->
  wp (in_penv alloc_request) Q p.
Proof.
  intros Ha HQ. apply wp_zoom, wp_alloc_request; [done|]. intros c e' Hc He. apply HQ; [done|]. auto.
Qed.

(** The entry of the table for a call of [add_stat]. *)
Definition entry (o : options) (type : stat_type) (stat : cell) (parts : list string)
    : list stat_item :=
  if skipped o type then [] else [mk_stat_item (dotted parts) type stat].

(** [add_stat] appends one entry whose name is the parts, with spaces and dots
    replaced, joined with dots; the block it measured out first is filled exactly,
    the array grows when it is full, and nothing else changes. In Graphite mode
    what is not a number is left out. *)
Theorem add_stat_appends o type stat parts :
  parts_ok parts -> adds (add_stat o type stat parts) tt (entry o type stat parts).
Proof.
  intros (Hne & HF & Hlen) p Q Ht Ha HQ. unfold entry in HQ. unfold add_stat.
  destruct (skipped o type) eqn:Es; unfold skipped in Es; rewrite Es.
  { apply wp_ret, HQ; try done. by rewrite app_nil_r. }
  destruct (Z.leb_spec (2 ^ 31) (name_len parts)); [lia|].
  apply wp_bind, wp_palloc; [done|]. intros c e1 Hc Ha1.
  assert (forall (x y : M prog unit), match c with AFail => x | _ => y end = y) as Hm
    by (by destruct c).
  rewrite Hm, finish_name_spec by done. clear Hm.
  apply wp_bind, wp_gets. cbn [p_alloc p_items id].
  destruct (Z.leb_spec (p_alloc p) (Z.of_nat (length (p_items p)))) as [Hfull|Hroom].
  - apply wp_bind, wp_bind, wp_palloc; [done|]. intros c' e2 Hc' Ha2.
    assert (forall (x y : M prog unit), match c' with AFail => x | _ => y end = y) as Hm
      by (by destruct c').
    rewrite Hm. apply wp_modify, wp_modify, HQ; unfold table_ok in *; cbn; try done.
    rewrite length_app. cbn. unfold INCREMENT_STATS. lia.
  - apply wp_bind, wp_ret, wp_modify, HQ; unfold table_ok in *; cbn; try done.
    rewrite length_app. cbn. lia.
Qed.

(** ** The sections *)

Definition in_section (sect : string) (s : stat_item) : Prop :=
  String.prefix sect (si_name s) = true.

(** [m] appends entries whose names start with [sect]. *)
Definition section_adds {A} (sect : string) (m : M prog A) (a : A) : Prop :=
  exists l, adds m a l /\ Forall (in_section sect) l.

Lemma section_ret {A} sect (a : A) : section_adds sect (mret a) a.
Proof. exists []. split; [apply adds_ret | constructor]. Qed.

Lemma section_bind {A B} sect (m : M prog A) a (f : A -> M prog B) b :
  section_adds sect m a -> section_adds sect (f a) b -> section_adds sect (m ≫= f) b.
Proof.
  intros (l & Hl & Fl) (l' & Hl' & Fl'). exists (l ++ l').
  split; [by eapply adds_bind | by apply Forall_app].
Qed.

(** A pointer the program can read a name from. *)
Definition named_ptr (p : char_ptr) : Prop :=
  exists s, p = CStr s /\ no_nul s = true /\ Z.of_nat (String.length s) < 2 ^ 30.

Lemma section_read {A} sect s (f : string -> M prog A) a :
  section_adds sect (f s) a -> section_adds sect (read_ptr (CStr s) ≫= f) a.
Proof. intros (l & Hl & Fl). exists l. split; [|done]. intros p Q. apply (Hl p Q). Qed.

Lemma section_alloc {A} sect (x y : M prog A) a :
  section_adds sect y a ->
  section_adds sect (c ← in_penv alloc_request; match c with AFail => x | _ => y end) a.
Proof.
  intros (l & Hl & Fl). exists l. split; [|done]. intros p Q Ht Ha HQ.
  apply wp_bind, wp_palloc; [done|]. intros c e Hc He.
  assert (forall (x y : M prog A), match c with AFail => x | _ => y end = y) as Hm
    by (by destruct c).
  rewrite Hm. apply Hl; [done | done |]. intros p' Ht' Ha' Hi Ho He'. by apply HQ.
Qed.

(** Names with a given first part. *)
Lemma dotted_section sect part parts :
  map_string name_char sect = sect ->
  String.prefix (sect +:+ ".") (dotted (sect :: part :: parts)) = true.
Proof.
  intros Hs. change (dotted (sect :: part :: parts)) with
    (map_string name_char sect +:+ String "." (dotted (part :: parts))). rewrite Hs. clear Hs.
  induction sect as [|c sect IH]; [by destruct (dotted (part :: parts))|].
  change (String c sect +:+ ?x) with (String c (sect +:+ x)). cbn [String.prefix].
  by destruct (Ascii.ascii_dec c c).
Qed.

Definition last_ok (s : string) : bool := no_nul s && (String.length s <? 100)%nat.

Lemma name_len_app a b : name_len (a ++ b) = name_len a + name_len b.
Proof. induction a as [|x a IH]; cbn [name_len app]; lia. Qed.

Lemma section_add_stat o sect more last type stat :
  map_string name_char sect = sect -> Forall (fun s => no_nul s = true) (sect :: more) ->
  name_len (sect :: more) < 2 ^ 31 - 200 -> last_ok last = true ->
  section_adds (sect +:+ ".") (add_stat o type stat ((sect :: more) ++ [last])) tt.
Proof.
  intros Hs HF Hlen (Hn & Hl%Nat.ltb_lt)%andb_true_iff. eexists. split.
  - apply add_stat_appends. split_and!; [done | |].
    + apply Forall_app. split; [done | by constructor].
    + rewrite name_len_app. cbn [name_len] in *. lia.
  - unfold entry. destruct (skipped o type); [constructor|]. constructor; [|constructor].
    unfold in_section; cbn [si_name]. destruct more; by apply dotted_section.
Qed.

Lemma section_add_stats o sect more l :
  map_string name_char sect = sect -> Forall (fun s => no_nul s = true) (sect :: more) ->
  name_len (sect :: more) < 2 ^ 31 - 200 -> Forall (fun x => last_ok x.2 = true) l ->
  section_adds (sect +:+ ".") (add_stats o (sect :: more) l) tt.
Proof.
  intros Hs HF Hlen HL. induction HL as [|[[type stat] last] l Hl HL IH]; [apply section_ret|].
  cbn [add_stats]. eapply section_bind; [by apply section_add_stat | done].
Qed.

(** The list of login names: the block of [populate_user] holds them with a space
    behind each. *)
Definition spaced_names (names : list string) : list ascii :=
  mjoin ((fun n => chars n ++ [" "%char]) <$> names).

Lemma spaced_cons n names : spaced_names (n :: names) = (chars n ++ [" "%char]) ++ spaced_names names.
Proof. done. Qed.

Lemma spaced_length names :
  length (spaced_names names) = list_sum ((fun n => S (String.length n)) <$> names).
Proof.
  induction names as [|n names IH]; [done|].
  rewrite spaced_cons, fmap_cons, !length_app, IH, chars_length.
  change (list_sum (?x :: ?l)) with (x + list_sum l)%nat. cbn [length]. lia.
Qed.

Lemma write_at_spec cs pre rest :
  (length cs <= length rest)%nat ->
  write_at (pre ++ rest) (length pre) cs = Some ((pre ++ cs) ++ drop (length cs) rest).
Proof.
  revert pre rest. induction cs as [|c cs IH]; intros pre rest Hl; cbn [write_at].
  { by rewrite app_nil_r. }
  destruct rest as [|x rest]; cbn in Hl; [lia|]. rewrite write_next.
  replace (S (length pre)) with (length (pre ++ [c])) by (rewrite length_app; cbn; lia).
  rewrite IH by lia. by rewrite <- (app_assoc pre [c] cs).
Qed.

Lemma paste_names_spec names pre rest :
  (length (spaced_names names) <= length rest)%nat ->
  paste_names names (length pre) (pre ++ rest)
    = Some ((pre ++ spaced_names names) ++ drop (length (spaced_names names)) rest,
            length (pre ++ spaced_names names)).
Proof.
  revert pre rest. induction names as [|n names IH]; intros pre rest; cbn [paste_names].
  { intros _. cbn. by rewrite !app_nil_r. }
  rewrite spaced_cons, !length_app. cbn [length]. intros Hl. rewrite write_at_spec by lia.
  destruct (drop (length (chars n)) rest) as [|x rest'] eqn:Er.
  { apply (f_equal length) in Er. rewrite length_drop in Er. cbn in Er. lia. }
  assert (length pre + String.length n = length (pre ++ chars n))%nat as ->
    by (rewrite length_app, chars_length; lia).
  rewrite write_next.
  replace (S (length (pre ++ chars n))) with (length ((pre ++ chars n) ++ [" "%char]))
    by (rewrite length_app; cbn; lia).
  assert (rest' = drop (S (length (chars n))) rest) as Hr'.
  { rewrite <- Nat.add_1_r, <- drop_drop, Er. done. }
  rewrite IH.
  - rewrite Hr', drop_drop, !length_app. cbn [length].
    f_equal. f_equal; [|lia]. rewrite <- !app_assoc. cbn [app]. do 4 f_equal. f_equal. lia.
  - rewrite Hr', length_drop. lia.
Qed.

Lemma concat_names n names : 
  spaced_names (n :: names) = chars (String.concat " " (n :: names)) ++ [" "%char].
Proof.
  revert n. induction names as [|m names IH]; intros n; rewrite spaced_cons.
  { by rewrite app_nil_r. }
  rewrite IH. change (String.concat " " (n :: m :: names)) with
    (n +:+ " " +:+ String.concat " " (m :: names)).
  rewrite !chars_app. by rewrite <- !app_assoc.
Qed.

Lemma user_names_spec names :
  Forall (fun s => no_nul s = true) names -> user_names names = Some (String.concat " " names).
Proof.
  intros HF. unfold user_names. rewrite <- spaced_length.
  set (b := replicate _ junk). assert (length b = S (length (spaced_names names))) as Hb
    by apply length_replicate. clearbody b.
  pose proof (paste_names_spec names [] b) as Hp. cbn [app length] in Hp. rewrite Hp by lia. clear Hp.
  destruct names as [|n names].
  { destruct b as [|x [|]]; [done | done | done]. }
  rewrite concat_names, length_app, Nat.add_1_r. cbn [Nat.pred]. rewrite <- app_assoc. cbn [app].
  rewrite write_next. apply text_of_c_str.
  apply bool_decide_eq_true. clear b Hb. revert n HF.
  induction names as [|m names IH]; intros n [Hn HF]%Forall_cons.
  - by apply bool_decide_eq_true in Hn.
  - change (String.concat " " (n :: m :: names)) with (n +:+ " " +:+ String.concat " " (m :: names)).
    rewrite !chars_app. apply bool_decide_eq_true in Hn.
    intros [H|[H|H]%elem_of_app]%elem_of_app; [done | by apply list_elem_of_singleton in H |].
    by apply (IH m HF).
Qed.

Lemma chars_substring n m s : chars (String.substring n m s) = take m (drop n (chars s)).
Proof.
  revert n m. induction s as [|c s IH]; intros [|n] [|m]; cbn; try done; [|by rewrite IH..].
  by rewrite IH, drop_0.
Qed.

(** The name of a file system is one the table can take. *)
Lemma fs_name_ok device :
  no_nul device = true ->
  no_nul (fs_name device) = true /\ (String.length (fs_name device) <= String.length device + 4)%nat.
Proof.
  assert (forall f s, (forall c, c <> NUL -> f c <> NUL) -> no_nul s = true ->
            no_nul (map_string f s) = true) as Hmap.
  { intros f s Hf Hs%bool_decide_eq_true. apply bool_decide_eq_true. rewrite chars_map.
    intros (c & Hc & Hin)%list_elem_of_fmap. destruct (decide (c = NUL)) as [->|]; [done|].
    by eapply Hf. }
  assert (forall n m s, no_nul s = true -> no_nul (String.substring n m s) = true) as Hsub.
  { intros n m s Hs%bool_decide_eq_true. apply bool_decide_eq_true. rewrite chars_substring.
    intros Hin. apply Hs. rewrite <- (take_drop n (chars s)). apply elem_of_app; right.
    rewrite <- (take_drop m (drop n (chars s))). apply elem_of_app. by left. }
  assert (forall n m s, String.length (String.substring n m s) <= String.length s)%nat as Hlen.
  { intros n m s. rewrite <- !chars_length, chars_substring, length_take, length_drop. lia. }
  assert (forall f s, String.length (map_string f s) = String.length s) as Hlm.
  { intros f s. induction s; cbn; congruence. }
  intros Hd. unfold fs_name. set (dev := if _ =? 0 then "root" else device).
  assert (no_nul dev = true /\ String.length dev <= String.length device + 4)%nat as [Hn1 Hl1].
  { subst dev. destruct (_ =? 0); cbn; split; try done; lia. }
  clearbody dev.
  match goal with |- context [strncmp ?n "/dev/" 5] => set (name := n) end.
  assert (no_nul name = true /\ String.length name <= String.length dev)%nat as [Hn2 Hl2].
  { subst name. destruct dev as [|c [|c' [|? ?]]]; try (by split).
    - destruct c' as [[] [] [] [] [] [] [] []]; try (by split).
      split; [|cbn; lia]. by apply (Hsub 0%nat 1%nat) in Hn1.
    - destruct c' as [[] [] [] [] [] [] [] []]; by split. }
  clearbody name. split.
  - apply Hmap; [intros c ?; by destruct (Ascii.eqb c "/")|]. destruct (_ =? 0); auto.
  - rewrite Hlm. destruct (_ =? 0); [pose proof (Hlen 5%nat (String.length name) name)|]; lia.
Qed.

(** What the program relies on: the names in the structures of the library are
    texts, and the process counts are delivered. *)
Record library_ok (lib : library) : Prop := {
  ok_users : forall l, lib_user_stats lib = Some l ->
    Forall (fun u => named_ptr (usr_login_name u) /\ named_ptr (usr_device u)) l;
  ok_fs : forall l, lib_fs_stats lib = Some l -> Forall (fun d => named_ptr (fs_device_name d)) l;
  ok_disks : forall b l, lib_disk_io_stats lib b = Some l ->
    Forall (fun d => named_ptr (dio_disk_name d)) l;
  ok_io : forall b l, lib_network_io_stats lib b = Some l ->
    Forall (fun d => named_ptr (nio_interface_name d)) l;
  ok_iface : forall l, lib_network_iface_stats lib = Some l ->
    Forall (fun d => named_ptr (nif_interface_name d)) l;
  ok_proc : is_Some (lib_process_count lib) }.

(** The side conditions of [section_add_stats] for literal names. *)
Ltac section_side :=
  [> reflexivity | repeat constructor; assumption | cbn [name_len String.length]; lia
   | first [assumption | reflexivity | repeat constructor]].

Lemma section_users o l :
  Forall (fun u => named_ptr (usr_login_name u) /\ named_ptr (usr_device u)) l ->
  exists names, Forall (fun s => no_nul s = true) names /\
    section_adds "user." (populate_users o l) names.
Proof.
  induction 1 as [|u l [(s & Hs & Hsn & Hsl) (d & Hd & Hdn & Hdl)] HF (names & Hnn & IH)].
  { exists []. split; [constructor | apply section_ret]. }
  exists (s :: names). split; [by constructor|]. cbn [populate_users]. rewrite Hs, Hd.
  apply section_read, section_read. eapply section_bind.
  { apply (section_add_stats o "user" [d]); section_side. }
  eapply section_bind; [exact IH | apply section_ret].
Qed.

Lemma section_user o lib : library_ok lib -> section_adds "user." (populate_user o lib) tt.
Proof.
  intros Hok. unfold populate_user. destruct (lib_user_stats lib) as [l|] eqn:E; [|apply section_ret].
  destruct (section_users o l (ok_users lib Hok l E)) as (names & Hnn & Hl).
  eapply section_bind; [exact Hl|]. apply section_alloc. rewrite user_names_spec by done.
  eapply section_bind.
  - apply (section_add_stat o "user" []); section_side.
  - apply (section_add_stat o "user" []); section_side.
Qed.

Lemma section_fs o lib : library_ok lib -> section_adds "fs." (populate_fs o lib) tt.
Proof.
  intros Hok. unfold populate_fs. destruct (lib_fs_stats lib) as [l|] eqn:E; [|apply section_ret].
  pose proof (ok_fs lib Hok l E) as HF. clear E.
  induction HF as [|d l (s & Hs & Hsn & Hsl) HF IH]; cbn [populate_disks]; [apply section_ret|].
  rewrite Hs. apply section_read, section_alloc. destruct (fs_name_ok s Hsn) as [Hn Hl].
  eapply section_bind; [|exact IH]. apply (section_add_stats o "fs" [fs_name s]); section_side.
Qed.

Lemma section_disk o lib : library_ok lib -> section_adds "disk." (populate_disk o lib) tt.
Proof.
  intros Hok. unfold populate_disk.
  destruct (lib_disk_io_stats lib (use_diffs o)) as [l|] eqn:E; [|apply section_ret].
  pose proof (ok_disks lib Hok _ l E) as HF. clear E.
  induction HF as [|d l (s & Hs & Hsn & Hsl) HF IH]; cbn [populate_diskio]; [apply section_ret|].
  rewrite Hs. apply section_read. eapply section_bind; [|exact IH].
  apply (section_add_stats o "disk" [s]); section_side.
Qed.

Lemma had_io_reads io name :
  Forall (fun d => named_ptr (nio_interface_name d)) io ->
  exists b, section_adds "net." (had_io io name) b.
Proof.
  induction 1 as [|d io (s & Hs & _) HF (b & IH)]; cbn [had_io].
  { exists false. apply section_ret. }
  rewrite Hs. destruct (strcmp s name =? 0) eqn:E.
  - exists true. apply section_read. rewrite E. apply section_ret.
  - exists b. apply section_read. by rewrite E.
Qed.

Lemma section_io o io :
  Forall (fun d => named_ptr (nio_interface_name d)) io -> section_adds "net." (populate_io o io) tt.
Proof.
  induction 1 as [|d l (s & Hs & Hsn & Hsl) HF IH]; cbn [populate_io]; [apply section_ret|].
  rewrite Hs. apply section_read. eapply section_bind; [|exact IH].
  apply (section_add_stats o "net" [s]); section_side.
Qed.

Lemma section_iface o io iface :
  Forall (fun d => named_ptr (nio_interface_name d)) io ->
  Forall (fun d => named_ptr (nif_interface_name d)) iface ->
  section_adds "net." (populate_iface o io iface) tt.
Proof.
  intros Hio. induction 1 as [|d l (s & Hs & Hsn & Hsl) HF IH]; cbn [populate_iface];
    [apply section_ret|].
  rewrite Hs. apply section_read. destruct (had_io_reads io s Hio) as (b & Hb).
  assert (forall l', Forall (fun x => last_ok x.2 = true) l' ->
            section_adds "net." (add_stats o ["net"; s] l') tt) as Hadd.
  { intros l' HL. apply (section_add_stats o "net" [s]); section_side. }
  eapply section_bind; [exact Hb|]. eapply section_bind.
  - destruct b; [apply section_ret | apply Hadd; repeat constructor].
  - eapply section_bind; [apply Hadd; repeat constructor | exact IH].
Qed.

Lemma section_net o lib : library_ok lib -> section_adds "net." (populate_net o lib) tt.
Proof.
  intros Hok. unfold populate_net.
  assert (Forall (fun d => named_ptr (nio_interface_name d))
            (default [] (lib_network_io_stats lib (use_diffs o)))) as Hio.
  { destruct (lib_network_io_stats lib (use_diffs o)) eqn:E; [|constructor]. by eapply ok_io. }
  eapply section_bind.
  - destruct (lib_network_io_stats lib (use_diffs o)); [by apply section_io | apply section_ret].
  - destruct (lib_network_iface_stats lib) as [l|] eqn:E; [|apply section_ret].
    apply section_iface; [done | by eapply ok_iface].
Qed.

(** Every section appends entries that carry its name. *)
Lemma sections_add o lib :
  library_ok lib -> Forall (fun t => section_adds (t_name t) (t_populate t o lib) tt) toplevels.
Proof.
  intros Hok. unfold toplevels. repeat (apply Forall_cons; split; [cbn [t_name t_populate]|]);
    [.. | constructor]; auto using section_user, section_fs, section_disk, section_net.
  - unfold populate_const. (apply section_add_stats; section_side).
  - unfold populate_cpu. eapply section_bind.
    + destruct (use_cpu_percent o).
      * destruct (lib_cpu_percents lib _); [(apply section_add_stats; section_side) | apply section_ret].
      * destruct (lib_cpu_stats lib _); [(apply section_add_stats; section_side) | apply section_ret].
    + destruct (lib_cpu_stats lib _); [(apply section_add_stats; section_side) | apply section_ret].
  - unfold populate_mem. destruct (lib_mem_stats lib); [(apply section_add_stats; section_side) | apply section_ret].
  - unfold populate_load. destruct (lib_load_stats lib); [(apply section_add_stats; section_side) | apply section_ret].
  - unfold populate_swap. destruct (lib_swap_stats lib); [(apply section_add_stats; section_side) | apply section_ret].
  - unfold populate_general. destruct (lib_host_info lib); [(apply section_add_stats; section_side) | apply section_ret].
  - unfold populate_proc. destruct (ok_proc lib Hok) as [c ->]. (apply section_add_stats; section_side).
  - unfold populate_page. destruct (lib_page_stats lib _); [(apply section_add_stats; section_side) | apply section_ret].
Qed.

(** ** The flags *)

(** The entries of the flagged sections. *)
Definition flagged (flags : list bool) (ls : list (list stat_item)) : list stat_item :=
  mjoin (zip_with (fun (f : bool) l => if f then l else []) flags ls).

Lemma flagged_cons f flags l ls :
  flagged (f :: flags) (l :: ls) = (if f then l else []) ++ flagged flags ls.
Proof. done. Qed.

Lemma populate_adds o lib ts flags ls :
  length flags = length ts ->
  Forall2 (fun t l => adds (t_populate t o lib) tt l) ts ls ->
  adds (populate o lib ts flags) tt (flagged flags ls).
Proof.
  intros Hlen HF. revert flags Hlen. induction HF as [|t l ts ls Ht HF IH]; intros [|f flags] Hlen;
    try done; [apply adds_ret|].
  cbn [populate]. eapply (adds_bind _ tt _ tt (if f then l else [])); [|apply IH; by injection Hlen].
  destruct f; [done | apply adds_ret].
Qed.

Lemma wp_get_stats o lib flags ls p (Q : unit -> prog -> Prop) :
  length flags = length toplevels ->
  Forall2 (fun t l => adds (t_populate t o lib) tt l) toplevels ls ->
  0 <= p_alloc p -> (AFail ∉ e_allocs (p_env p)) ->
  (forall p', p_items p' = sort_stats (flagged flags ls) -> p_out p' = p_out p -> p_err p' = p_err p ->
     (display_mode o = DISPLAY_GRAPHITE -> p_graphite_ts p' = lib_time lib) -> Q tt p') ->
  wp (get_stats o lib flags) Q p.
Proof.
  intros Hlen HF Hp Ha HQ. unfold get_stats. apply wp_bind, wp_modify.
  apply wp_bind, (populate_adds o lib toplevels flags ls Hlen HF); [by unfold table_ok | done |].
  intros p' Ht Ha' Hi Ho He. cbn [p_items set_items app p_out p_err] in Hi, Ho, He.
  apply wp_bind, wp_gets. cbn [id].
  assert (forall p1, p_items p1 = sort_stats (flagged flags ls) -> p_out p1 = p_out p -> p_err p1 = p_err p ->
            wp (if decide (display_mode o = DISPLAY_GRAPHITE) then modify (set_ts (lib_time lib)) else mret tt) Q p1) as Hts.
  { intros p1 H1 H2 H3. destruct (decide _); [by apply wp_modify, HQ | by apply wp_ret, HQ]. }
  apply wp_bind. destruct (Z.eqb_spec (p_alloc p') 0) as [E|E].
  - apply wp_ret. unfold table_ok in Ht. rewrite Hi in Ht.
    destruct (flagged flags ls) as [|x l] eqn:El; [|cbn in Ht; lia]. apply Hts; [exact Hi|done|done].
  - apply wp_modify, Hts; cbn; [by rewrite Hi|done|done].
Qed.

Lemma mark_length arg ts flags : length (mark_section arg ts flags) = length flags.
Proof.
  revert flags. induction ts as [|t ts IH]; intros [|f flags]; try done. cbn.
  destruct (_ =? 0); cbn; congruence.
Qed.

Lemma mark_mono arg ts flags i : flags !! i = Some true -> mark_section arg ts flags !! i = Some true.
Proof.
  revert flags i. induction ts as [|t ts IH]; intros [|f flags] i Hi; try done. cbn.
  destruct (_ =? 0); [by destruct i|]. destruct i; [done|]. by apply IH.
Qed.

Lemma select_length args flags : length (select_interesting args flags) = length flags.
Proof.
  unfold select_interesting. destruct args as [|a0 args0]; [apply length_fmap|].
  generalize (a0 :: args0). intros l. revert flags.
  induction l as [|a l IH]; intros flags; [done|]. cbn [foldl]. by rewrite IH, mark_length.
Qed.

(** An argument marks the section whose name starts it. *)
Lemma mark_hits arg ts flags i t :
  length flags = length ts -> ts !! i = Some t -> String.prefix (t_name t) arg = true ->
  (forall j t', (j < i)%nat -> ts !! j = Some t' -> String.prefix (t_name t') arg = false) ->
  mark_section arg ts flags !! i = Some true.
Proof.
  revert flags i. induction ts as [|t0 ts IH]; intros [|f flags] i Hlen Hi Ht Hb; try done.
  assert (forall n, strncmp arg n (String.length n) = 0 <-> String.prefix n arg = true) as Hsn.
  { intros n. rewrite strncmp_sym. apply strncmp_prefix. }
  cbn [mark_section]. destruct (Z.eqb_spec (strncmp arg (t_name t0) (String.length (t_name t0))) 0) as [E|E].
  - destruct i as [|i]; [done|]. apply Hsn in E. by rewrite (Hb 0%nat t0) in E by (done || lia).
  - destruct i as [|i]; [injection Hi as ->; apply Hsn in Ht; congruence|].
    apply IH; [by injection Hlen | done | done |]. intros j t' Hj. by apply (Hb (S j)); lia.
Qed.

Lemma prefix_comparable a b s :
  String.prefix a s = true -> String.prefix b s = true ->
  String.prefix a b = true \/ String.prefix b a = true.
Proof.
  revert b s. induction a as [|x a IH]; intros [|y b] s; cbn [String.prefix]; auto.
  destruct s as [|z s]; [done|]. cbn [String.prefix].
  destruct (Ascii.ascii_dec x z) as [->|]; [|done]. destruct (Ascii.ascii_dec y z) as [->|]; [|done].
  destruct (Ascii.ascii_dec z z); [|done]. apply IH.
Qed.

(** No section name starts another one. *)
Lemma section_names_apart i j t t' :
  toplevels !! i = Some t -> toplevels !! j = Some t' ->
  String.prefix (t_name t) (t_name t') = true -> i = j.
Proof.
  assert (Forall (fun k => Forall (fun k' =>
            String.prefix k.2 k'.2 = true -> k.1 = k'.1) (imap pair (t_name <$> toplevels)))
            (imap pair (t_name <$> toplevels))) as H.
  { cbn. repeat constructor; done. }
  intros Hi Hj Hp. rewrite Forall_lookup in H.
  assert (forall i t, toplevels !! i = Some t ->
            imap pair (t_name <$> toplevels) !! i = Some (i, t_name t)) as Hl.
  { intros k u Hk. by rewrite list_lookup_imap, list_lookup_fmap, Hk. }
  specialize (H i _ (Hl i t Hi)). rewrite Forall_lookup in H.
  exact (H j _ (Hl j t' Hj) Hp).
Qed.

Lemma select_hits args arg flags i t :
  arg ∈ args -> length flags = length toplevels -> toplevels !! i = Some t ->
  String.prefix (t_name t) arg = true -> select_interesting args flags !! i = Some true.
Proof.
  intros Hin Hlen Hi Ht. unfold select_interesting. destruct args as [|a0 args0]; [by apply elem_of_nil in Hin|].
  revert flags Hlen Hin. generalize (a0 :: args0); clear a0 args0. intros args.
  assert (forall args flags, flags !! i = Some true ->
            foldl (fun fl a => mark_section a toplevels fl) flags args !! i = Some true) as Hmono.
  { intros l. induction l as [|a l IH]; intros flags Hf; [done|]. cbn [foldl]. by apply IH, mark_mono. }
  induction args as [|a args IH]; intros flags Hlen Hin; [by apply elem_of_nil in Hin|]. cbn [foldl].
  apply elem_of_cons in Hin as [<-|Hin].
  - apply Hmono. eapply mark_hits; [done | done | done |].
    intros j t' Hj Ht'. destruct (String.prefix (t_name t') arg) eqn:E; [|done].
    destruct (prefix_comparable _ _ _ Ht E) as [H|H].
    + pose proof (section_names_apart i j t t' Hi Ht' H). lia.
    + pose proof (section_names_apart j i t' t Ht' Hi H). lia.
  - apply IH; [|done]. by rewrite mark_length.
Qed.

(** Section names have their only dot at the end. *)
Definition dot_last (n : string) : bool :=
  forallb (fun k => implb (bool_decide (String.get (k - 1) (String.substring 0 k n) = Some "."%char))
                          (k =? String.length n)%nat) (seq 0 (S (String.length n))).

Lemma prefix_of_section a n :
  dot_last n = true -> String.prefix a n = true ->
  String.get (String.length a - 1) a = Some "."%char -> a = n.
Proof.
  intros Hd Hp Hg. apply String.prefix_correct in Hp.
  assert (String.length a <= String.length n)%nat as Hl.
  { rewrite <- Hp, <- !chars_length, chars_substring, length_take, length_drop. lia. }
  unfold dot_last in Hd. rewrite forallb_forall in Hd.
  specialize (Hd (String.length a)). rewrite Hp, bool_decide_true in Hd by done.
  assert (String.length a = String.length n) as He.
  { apply Nat.eqb_eq. apply Hd, in_seq. lia. }
  rewrite <- Hp, He. apply substring_all. lia.
Qed.

(** Only arguments that start with the name of a section select its entries. *)
Lemma selects_section t arg s :
  t ∈ toplevels -> in_section (t_name t) s -> selects arg (si_name s) = true ->
  String.prefix (t_name t) arg = true.
Proof.
  intros Ht Hs. unfold selects. destruct (String.get _ arg) as [c|] eqn:Eg; [|done].
  destruct (Ascii.eqb_spec c ".") as [->|Hc].
  2: { intros ->%String.eqb_eq. exact Hs. }
  intros Hp. destruct (prefix_comparable _ _ _ Hs Hp) as [H|H]; [done|].
  assert (dot_last (t_name t) = true) as Hd.
  { assert (Forall (fun u => dot_last (t_name u) = true) toplevels) as HF by (repeat constructor).
    rewrite Forall_forall in HF. by apply HF. }
  rewrite (prefix_of_section arg (t_name t)); [|done..].
  clear. induction (t_name t) as [|c n IH]; [done|]. cbn. by destruct (Ascii.ascii_dec c c).
Qed.

Lemma selected_flagged arg (flags : list bool) (ts : list toplevel) ls :
  length flags = length ts -> Forall2 (fun t l => Forall (in_section (t_name t)) l) ts ls ->
  (forall t, t ∈ ts -> t ∈ toplevels) ->
  (forall i t, ts !! i = Some t -> String.prefix (t_name t) arg = true -> flags !! i = Some true) ->
  selected arg (flagged flags ls) = selected arg (flagged ((fun _ => true) <$> ts) ls).
Proof.
  intros Hlen HF. revert flags Hlen.
  induction HF as [|t l ts ls Ht HF IH]; intros [|f flags] Hlen Hin Hflag; try done.
  rewrite fmap_cons, !flagged_cons. unfold selected in *. rewrite !filter_app, (IH flags);
    [|by injection Hlen | intros; apply Hin; by right |].
  2: { intros i t' Hi. by apply (Hflag (S i)). }
  destruct f; [done|]. f_equal. symmetry. apply filter_none, Forall_forall.
  intros s Hs Hsel. rewrite Forall_forall in Ht.
  assert (false = true); [|done]. enough (Some false = Some true) by congruence.
  apply (Hflag 0%nat t); [done|]. eapply selects_section; [apply Hin; by left | by apply Ht | done].
Qed.

(** What the sections add, each under its name. *)
Lemma sections_of o lib : library_ok lib ->
  exists ls, Forall2 (fun t l => adds (t_populate t o lib) tt l) toplevels ls /\
    Forall2 (fun t l => Forall (in_section (t_name t)) l) toplevels ls.
Proof.
  intros Hok. pose proof (sections_add o lib Hok) as HS.
  induction HS as [|t ts (l & Hl & Fl) HS (ls & IH1 & IH2)]; [exists []; by split | exists (l :: ls); split; by constructor].
Qed.

(** The sections the arguments name have all the entries the arguments select. *)
Lemma selected_interesting args arg ls :
  Forall2 (fun t l => Forall (in_section (t_name t)) l) toplevels ls -> arg ∈ args ->
  Permutation (selected arg (sort_stats (flagged (select_interesting args ((fun _ : toplevel => false) <$> toplevels)) ls)))
    (selected arg (flagged ((fun _ : toplevel => true) <$> toplevels) ls)).
Proof.
  intros HI Harg. unfold sort_stats, selected. rewrite qsort_perm.
  change (Permutation (selected arg (flagged (select_interesting args ((fun _ : toplevel => false) <$> toplevels)) ls))
            (selected arg (flagged ((fun _ : toplevel => true) <$> toplevels) ls))).
  rewrite (selected_flagged arg _ toplevels ls); [done | by rewrite select_length | done | done |].
  intros i t Hi Ht. by eapply select_hits.
Qed.

(** C9: fetching only the sections that the arguments name is enough:
    [get_stats] with the sections [select_interesting] chose delivers, for every
    argument, the same statistics as with all sections, sorted by name for the
    search of [print_stats]; without arguments all sections are fetched. *)
Theorem interesting_suffices o lib args p :
  library_ok lib -> 0 <= p_alloc p -> (AFail ∉ e_allocs (p_env p)) ->
  exists p1 p2,
    get_stats o lib (select_interesting args ((fun _ : toplevel => false) <$> toplevels)) p = Done tt p1 /\
    get_stats o lib ((fun _ : toplevel => true) <$> toplevels) p = Done tt p2 /\
    by_name (p_items p1) /\ (args = [] -> p_items p1 = p_items p2) /\
    (forall arg, arg ∈ args ->
       Permutation (selected arg (p_items p1)) (selected arg (p_items p2))).
Proof.
  intros Hok Hp Ha. destruct (sections_of o lib Hok) as (ls & HA & HI).
  set (fl := select_interesting args _). assert (length fl = length toplevels) as Hfl by (subst fl; by rewrite select_length).
  destruct (wp_inv _ _ _ (wp_get_stats o lib fl ls p (fun _ p' => p_items p' = sort_stats (flagged fl ls))
              Hfl HA Hp Ha (fun _ H _ _ _ => H))) as ([] & p1 & H1 & I1).
  destruct (wp_inv _ _ _ (wp_get_stats o lib ((fun _ : toplevel => true) <$> toplevels) ls p
              (fun _ p' => p_items p' = sort_stats (flagged ((fun _ : toplevel => true) <$> toplevels) ls))
              (length_fmap _ _) HA Hp Ha (fun _ H _ _ _ => H))) as ([] & p2 & H2 & I2).
  exists p1, p2. rewrite I1, I2. split_and!; [done | done | | |].
  - apply qsort_sorted. intros x y. apply strcmp_total.
  - intros ->. done.
  - intros arg Harg. subst fl. rewrite selected_interesting by done. unfold sort_stats, selected. by rewrite qsort_perm.
Qed.
End table.

(** * Byte counts *)

(** A byte count scaled by 2^factor is rounded to the nearest number, halves
    upwards, without overflow for any 64-bit count. *)
Theorem scale_bytes_rounds factor v :
  2 <= factor -> in_u64 v ->
  scale_bytes factor v = (v + 2 ^ (factor - 1)) / 2 ^ factor /\
  - 2 ^ (factor - 1) < 2 ^ factor * scale_bytes factor v - v <= 2 ^ (factor - 1).
Proof.
  intros Hf [Hv1 Hv2].
  assert (2 ^ factor = 2 ^ (factor - 1) * 2) as Ef.
  { rewrite Z.mul_comm, <- Z.pow_succ_r by lia. f_equal. lia. }
  assert (2 <= 2 ^ (factor - 1)) as Hp.
  { change 2 with (2 ^ 1) at 1. apply Z.pow_le_mono_r; lia. }
  assert (scale_bytes factor v = (v + 2 ^ (factor - 1)) / 2 ^ factor) as E.
  { unfold scale_bytes. destruct (Z.eqb_spec factor 0); [lia|].
    rewrite !Z.shiftr_div_pow2 by lia. rewrite wrap_small.
    - rewrite Ef, <- Z.div_div by lia. f_equal.
      replace (v + 2 ^ (factor - 1)) with (v + 1 * 2 ^ (factor - 1)) by lia.
      by rewrite Z.div_add by lia.
    - pose proof (Z.div_pos v (2 ^ (factor - 1))).
      assert (v / 2 ^ (factor - 1) <= v / 2) by (apply Z.div_le_compat_l; lia).
      assert (v / 2 < 2 ^ 63) by (apply Z.div_lt_upper_bound; lia). lia. }
  split; [done|]. rewrite E.
  pose proof (Z.div_mod (v + 2 ^ (factor - 1)) (2 ^ factor)).
  pose proof (Z.mod_pos_bound (v + 2 ^ (factor - 1)) (2 ^ factor)). lia.
Qed.

Lemma scale_bytes_rounds_witness :
  scale_bytes 10 1536 = (1536 + 2 ^ 9) / 2 ^ 10 /\
  - 2 ^ 9 < 2 ^ 10 * scale_bytes 10 1536 - 1536 <= 2 ^ 9.
Proof. apply (scale_bytes_rounds 10 1536); unfold in_u64; lia. Defined.

(** * Lists of file systems *)

Section filesystems.
Context {mem : Memory}.

(** A stack of pointers whose first entries are [l]. *)
Definition stack_holds (st l : list char_ptr) : Prop := exists rest, st = l ++ rest.

Lemma wp_push_item st l item (Q : list char_ptr -> env -> Prop) e :
  stack_holds st l -> (AFail ∉ e_allocs e) ->
  (forall st' e', stack_holds st' (l ++ [item]) -> (AFail ∉ e_allocs e') -> Q st' e') ->
  wp (push_item st item (length l)) Q e.
Proof.
  intros [rest ->] Ha HQ. unfold push_item, STACK_UNIT. set (n := length l).
  pose proof (Nat.div_mod_eq n 4). pose proof (Nat.div_mod_eq (S n) 4).
  pose proof (Nat.mod_upper_bound (S n) 4).
  destruct (Nat.ltb_spec (n / 4 * 4) (S n)); [|lia].
  set (d := ((S n / 4 + 1) * 4)%nat). assert (S n < d)%nat as Hd by (subst d; lia).
  destruct (Nat.leb_spec n d); [|lia].
  apply wp_bind, wp_bind, wp_alloc_request; [done|]. intros c e1 Hc He1.
  assert (exists rest', length l < length (l ++ rest') /\
            take d ((l ++ rest) ++ replicate (d - length (l ++ rest)) CWild) = l ++ rest')%nat
    as (rest' & Hr & Et).
  { rewrite <- app_assoc, take_app_ge by (subst n; lia). eexists. split; [|done].
    rewrite !length_app, length_take, !length_app, length_replicate. subst n. lia. }
  rewrite Et. assert (forall (x y : M env (list char_ptr)), match c with AFail => x | _ => y end = y)
    as Hm by (by destruct c).
  rewrite Hm. apply wp_ret. destruct (Nat.ltb_spec n (length (l ++ rest'))); [|lia].
  apply wp_ret, HQ; [|by intros ?%He1].
  destruct rest' as [|x rest']; [rewrite app_nil_r in Hr; lia|]. exists rest'.
  by rewrite (write_mid l rest' x item) by done; rewrite <- app_assoc.
Qed.

(** A list on the command line: words, each with the separators behind it; only
    the last word may have none. *)
Fixpoint listing (ws : list (string * string)) : string :=
  match ws with
  | [] => EmptyString
  | (w, s) :: ws' => w +:+ (s +:+ listing ws')
  end.

Definition word_ok (w : string) : Prop :=
  w <> EmptyString /\ all_chars (fun c => negb (is_sep c)) w = true /\ no_nul w = true.

Fixpoint listing_ok (ws : list (string * string)) : Prop :=
  match ws with
  | [] => True
  | (w, s) :: ws' =>
      word_ok w /\ all_chars is_sep s = true /\ (s = EmptyString -> ws' = []) /\ listing_ok ws'
  end.

Lemma take_word w s r :
  word_ok w -> all_chars is_sep s = true -> (s = EmptyString -> r = EmptyString) ->
  take_while (fun c => negb (is_sep c)) None (w +:+ (s +:+ r)) = (w, s +:+ r).
Proof.
  intros (_ & Hw & _) Hs Hr. apply take_while_app; [done|].
  destruct s as [|c s]; [by rewrite Hr|]. cbn [all_chars] in Hs.
  change (negb (is_sep c) = false). by apply andb_true_iff in Hs as [-> _].
Qed.

Lemma take_seps s ws :
  all_chars is_sep s = true -> listing_ok ws ->
  take_while is_sep None (s +:+ listing ws) = (s, listing ws).
Proof.
  intros Hs Hws. apply take_while_app; [done|]. destruct ws as [|[[|c w] s'] ws]; [done | |].
  - by destruct Hws as [[? _] _].
  - destruct Hws as [(_ & Hw & _) _]. cbn [all_chars] in Hw. apply andb_true_iff in Hw as [Hc _].
    by apply negb_true_iff in Hc.
Qed.

Lemma wp_split_loop ws l fuel sp (Q : list char_ptr * nat -> env -> Prop) e :
  listing_ok ws -> (String.length (listing ws) <= fuel)%nat -> stack_holds sp l ->
  (AFail ∉ e_allocs e) ->
  (forall sp' e', stack_holds sp' (l ++ (CStr <$> ws.*1)) -> (AFail ∉ e_allocs e') ->
     Q (sp', length (l ++ (CStr <$> ws.*1))) e') ->
  wp (split_loop fuel (listing ws) sp (length l)) Q e.
Proof.
  revert l fuel sp Q e. induction ws as [|[w s] ws IH]; intros l fuel sp Q e Hok Hf Hsp Ha HQ.
  { destruct fuel; cbn in HQ; rewrite app_nil_r in HQ; by apply wp_ret, HQ. }
  destruct Hok as (Hw & Hs & Hlast & Hok). cbn [listing] in *.
  assert (exists c t, w +:+ (s +:+ listing ws) = String c t /\
            String.length (listing ws) <= String.length t)%nat as (c & t & Et & Hlt).
  { destruct Hw as (Hne & _). destruct w as [|c w]; [done|]. exists c, (w +:+ (s +:+ listing ws)).
    split; [done|]. rewrite <- !chars_length, !chars_app, !length_app. lia. }
  pose proof (take_word w s (listing ws) Hw Hs) as Htw. rewrite Et in Hf, Htw |- *. cbn in Hf.
  destruct fuel as [|fuel]; [lia|]. cbn [split_loop].
  rewrite Htw by (intros ->; by rewrite Hlast). rewrite take_seps by done. cbn [snd].
  apply wp_bind, wp_bind, wp_alloc_request; [done|]. intros a e1 Hc H1. apply wp_ret.
  assert ((match a with AFail => CNull | _ => CStr w end) = CStr w) as -> by (by destruct a).
  apply wp_bind, wp_push_item; [done | by intros ?%H1 |]. intros st e2 Hst Ha2.
  replace (S (length l)) with (length (l ++ [CStr w])) by (rewrite length_app; cbn; lia).
  apply IH; [done | lia | done | done |]. intros sp' e3 H3 Ha3. cbn [fmap list_fmap fst] in HQ.
  rewrite <- app_assoc in H3 |- *. by apply HQ.
Qed.

Lemma wp_split_list ws (Q : list char_ptr -> env -> Prop) e :
  listing_ok ws -> (AFail ∉ e_allocs e) ->
  (forall sp e', stack_holds sp ((CStr <$> ws.*1) ++ [CNull]) -> (AFail ∉ e_allocs e') -> Q sp e') ->
  wp (split_list (listing ws)) Q e.
Proof.
  intros Hok Ha HQ. apply wp_bind. apply (wp_split_loop ws []); [done | done | by exists [] | done |].
  intros sp e' Hsp Ha'. cbn [app fst snd] in *. by apply wp_push_item.
Qed.

Lemma before_null_spec names rest (Q : list char_ptr -> env -> Prop) e :
  Q (CStr <$> names) e -> wp (before_null ((CStr <$> names) ++ CNull :: rest)) Q e.
Proof.
  revert Q. induction names as [|n names IH]; intros Q HQ; [by apply wp_ret|].
  cbn. apply wp_bind, IH, wp_ret, HQ.
Qed.

Lemma read_names_spec names (Q : list string -> env -> Prop) e :
  Q names e -> wp (read_names (CStr <$> names)) Q e.
Proof.
  revert Q. induction names as [|n names IH]; intros Q HQ; [by apply wp_ret|].
  cbn. apply wp_bind, wp_ret, wp_bind, IH, wp_ret, HQ.
Qed.

(** The file systems that remain. *)
Definition excluded (ws : list string) (n : string) : Prop :=
  Exists (fun w => strcasecmp n w = 0) ws.

#[local] Instance excluded_dec ws n : Decision (excluded ws n).
Proof. unfold excluded. apply _. Defined.

Definition kept (ws old : list string) : list string := filter (fun n => ~ excluded ws n) old.

Lemma search_given ws n :
  match bsearch (fsnmcmp (CStr n)) (qsort fsnmcmp (CStr <$> ws)) with
  | Some _ => excluded ws n
  | None => ~ excluded ws n
  end.
Proof.
  pose proof (bsearch_spec _ _ (fs_key_mono n (CStr <$> ws))) as Hb.
  change (fun p => cmp_valid_fs (Some n) (name_of p)) with (fsnmcmp (CStr n)) in Hb.
  change cmp_fs_ptr with fsnmcmp in Hb. unfold excluded.
  destruct (bsearch _ _) as [i|]; rewrite Exists_exists.
  - destruct Hb as (x & Hx & Hz). apply list_elem_of_lookup_2 in Hx. rewrite qsort_perm in Hx.
    apply list_elem_of_fmap in Hx as (m & -> & Hm). eauto.
  - intros (m & Hm & Hz). destruct (Hb (CStr m)); [|done].
    rewrite qsort_perm. apply list_elem_of_fmap. eauto.
Qed.

Lemma wp_keep_loop ws old l newfs (Q : list char_ptr * nat -> env -> Prop) e :
  stack_holds newfs l -> (AFail ∉ e_allocs e) ->
  (forall st e', stack_holds st (l ++ (CStr <$> kept ws old)) -> (AFail ∉ e_allocs e') ->
     Q (st, length (l ++ (CStr <$> kept ws old))) e') ->
  wp (keep_loop (qsort fsnmcmp (CStr <$> ws)) (CStr <$> old) newfs (length l)) Q e.
Proof.
  revert l newfs Q e. induction old as [|n old IH]; intros l newfs Q e Hst Ha HQ.
  { cbn in HQ. rewrite app_nil_r in HQ. by apply wp_ret, HQ. }
  cbn [fmap list_fmap keep_loop]. pose proof (search_given ws n) as Hs. unfold kept in HQ.
  change (bsearch (fsnmcmp (CStr n)) (qsort fsnmcmp (list_fmap string char_ptr CStr ws)))
    with (bsearch (fsnmcmp (CStr n)) (qsort fsnmcmp (CStr <$> ws))).
  destruct (bsearch _ _).
  - apply IH; [done | done |]. rewrite filter_cons_False in HQ by tauto. exact HQ.
  - apply wp_bind, wp_push_item; [done | done |]. intros st e1 H1 Ha1.
    replace (S (length l)) with (length (l ++ [CStr n])) by (rewrite length_app; cbn; lia).
    apply IH; [done | done |]. rewrite filter_cons_True in HQ by done. intros st' e2 H2 Ha2.
    rewrite <- app_assoc in H2 |- *. by apply HQ.
Qed.

Lemma casecmp_trans a b c : strcasecmp a b = 0 -> strcasecmp a c = 0 -> strcasecmp b c = 0.
Proof. unfold strcasecmp. rewrite !strcmp_eq. congruence. Qed.

Lemma kept_valid ws old type :
  (exists n, n ∈ kept ws old /\ strcasecmp type n = 0) <->
  (exists n, n ∈ old /\ strcasecmp type n = 0) /\ ~ exists w, w ∈ ws /\ strcasecmp type w = 0.
Proof.
  unfold kept. split.
  - intros (n & [Hx Hn]%list_elem_of_filter & Hz). split; [eauto|]. intros (w & Hw & Hzw). apply Hx.
    apply Exists_exists. exists w. split; [done|]. by apply (casecmp_trans type).
  - intros [(n & Hn & Hz) Hx]. exists n. split; [|done]. apply list_elem_of_filter. split; [|done].
    intros (w & Hw & Hzw)%Exists_exists. apply Hx. exists w. split; [done|].
    apply (casecmp_trans n); [|done]. unfold strcasecmp in *. rewrite !strcmp_eq in *. congruence.
Qed.

Lemma wp_finish_list names given vf type old (Q : bool -> env -> Prop) e :
  Forall (fun n => no_nul n = true) names -> vf_list vf = Some (CStr <$> old) ->
  (AFail ∉ e_allocs e) ->
  (forall b e', (b = true <-> exists n, n ∈ names /\ strcasecmp type n = 0) -> Q b e') ->
  wp (sg_set_valid_filesystems (Some names) vf)
     (fun s => wp (if decide (s.1 <> SG_ERROR_NONE) then die
                   else free_names (CStr <$> given);; mret s.2)
                  (fun vf' => wp (is_valid_fs_type vf' type) Q)) e.
Proof.
  intros HF Hvf Ha HQ.
  assert (forall l, Forall (fun p => ptr_live p = true) (CStr <$> l)) as Hlive.
  { intros l. by apply Forall_fmap, Forall_forall. }
  destruct names as [|n ns].
  - apply wp_bind, wp_ret. rewrite Hvf. apply wp_bind, wp_free_names; [by apply Forall_take|].
    apply wp_ret. cbn [fst snd]. rewrite decide_False by auto.
    apply wp_bind, wp_free_names; [done|]. apply wp_ret, wp_ret, HQ.
    split; [done|]. by intros (? & ?%elem_of_nil & _).
  - apply wp_set_valid; [done | done | unfold valid_fs_ok; by rewrite Hvf | done |].
    intros e'. cbn [fst snd]. rewrite decide_False by auto.
    apply wp_bind, wp_free_names; [done|]. apply wp_ret.
    destruct (is_valid_stored (n :: ns) type) as (b & -> & Hb). by apply wp_ret, HQ.
Qed.

(** The text behind "!": the words, with white space in front. *)
Lemma skip_spc_listing sp ws :
  all_chars sg_is_spc sp = true -> listing_ok ws -> skip_spc (sp +:+ listing ws) = listing ws.
Proof.
  intros Hsp Hws. unfold skip_spc. rewrite take_while_app; [done | done |].
  destruct ws as [|[[|c w] s'] ws]; [done | by destruct Hws as [[? _] _] |].
  destruct Hws as [(_ & Hw & _) _]. cbn [all_chars] in Hw. apply andb_true_iff in Hw as [Hc _].
  apply negb_true_iff, orb_false_iff in Hc as [Hc _]. done.
Qed.

(** C19: [-F "!list"] takes the listed file systems out: afterwards the library
    accepts a type exactly when it was in its list before and none of the listed
    words, separated by commas and white space, equals it without regard to case.
    The growing stacks of pointers are never overrun and always terminated. *)
Theorem exclude_filesystems ws sp0 sp1 old vf type e :
  listing_ok ws -> all_chars sg_is_spc sp0 = true -> all_chars sg_is_spc sp1 = true ->
  vf_list vf = Some (CStr <$> old) -> Forall (fun n => no_nul n = true) old ->
  (AFail ∉ e_allocs e) ->
  wp (vf' ← set_valid_filesystems (sp0 +:+ String "!" (sp1 +:+ listing ws)) vf;
      is_valid_fs_type vf' type)
     (fun b _ => b = true <-> (exists n, n ∈ old /\ strcasecmp type n = 0) /\
                              ~ exists w, w ∈ ws.*1 /\ strcasecmp type w = 0) e.
Proof.
  intros Hok H0 H1 Hvf HF Ha. unfold set_valid_filesystems.
  assert (skip_spc (sp0 +:+ String "!" (sp1 +:+ listing ws)) = String "!" (sp1 +:+ listing ws)) as ->.
  { unfold skip_spc. by rewrite take_while_app. }
  rewrite skip_spc_listing by done. unfold sg_get_valid_filesystems. cbn [fst]. rewrite Hvf.
  apply wp_bind, wp_bind, wp_bind, wp_split_list; [done | done |]. intros sp e1 [r1 ->] Ha1.
  rewrite <- app_assoc. apply wp_bind, before_null_spec, wp_bind.
  rewrite <- (app_nil_r [CNull]). apply (before_null_spec old []), wp_bind.
  apply (wp_keep_loop ws.*1 old []); [by exists [] | done |]. intros st e2 Hst Ha2. cbn [app fst snd] in *.
  apply wp_bind, wp_push_item; [done | done |]. intros st' e3 [r3 ->] Ha3. apply wp_ret. cbn [fst snd].
  rewrite <- app_assoc. apply wp_bind, before_null_spec, wp_bind, read_names_spec.
  apply wp_bind, (wp_finish_list _ _ _ _ old); [| done | done |].
  { rewrite Forall_forall in HF |- *. intros n [_ Hn]%list_elem_of_filter. by apply HF. }
  intros b e4 ->. apply kept_valid.
Qed.
End filesystems.

(** * A run *)

Definition demo_cpu : sg_cpu_stats := mk_cpu_stats 10 20 70 5 0 1 106 900 800 100 0 77 12 1000.

(** A machine with one disk and one interface, nobody logged in. *)
Definition demo_library : library :=
  mk_library (fun _ => Some demo_cpu) (fun _ => None) (Some (mk_mem_stats 4096 1024 3072 512 1000))
    None (Some []) (Some (mk_swap_stats 0 0 0 1000)) None
    (Some [mk_fs_stats (CStr "/dev/sda1") (CStr "/dev/sda1") (CStr "ext4") (CStr "/") 0
             4096 1024 3072 3072 10 1 9 9 512 512 8 6 2 6 1000])
    (fun _ => Some [mk_disk_io_stats (CStr "sda") 4096 2048 1000])
    (Some (mk_process_count 3 1 2 0 0 0 1000))
    (fun _ => Some [mk_network_io_stats (CStr "eth0") 1 2 3 4 5 6 7 1000])
    (Some [mk_network_iface_stats (CStr "eth0") 1000 1000000 SG_IFACE_DUPLEX_FULL SG_IFACE_UP 1000])
    (fun _ => None) 1000.

Definition demo_prog (items : list stat_item) : prog :=
  mk_prog items 64 0 EmptyString EmptyString demo_env.

Definition demo_items : list stat_item :=
  [mk_stat_item "cpu.idle" STAT_TYPE_UNSIGNED_LONG_LONG (CellInt 70);
   mk_stat_item "cpu.user" STAT_TYPE_UNSIGNED_LONG_LONG (CellInt 10);
   mk_stat_item "mem.free" STAT_TYPE_BYTES (CellInt 1024)].

Lemma demo_items_sorted : by_name demo_items.
Proof. repeat (constructor; try (by vm_compute)). Qed.

(** The output for the arguments "cpu." and "page.in". *)
Lemma print_stats_selects_witness :
  print_stats default_options ["cpu."; "page.in"] (demo_prog demo_items)
    = spec_print default_options ["cpu."; "page.in"] (demo_prog demo_items).
Proof.
  apply print_stats_selects; [exact demo_items_sorted|].
  apply (bool_decide_eq_true_1 _). vm_compute; reflexivity.
Defined.

Lemma add_stat_appends_witness :
  adds (add_stat default_options STAT_TYPE_BYTES (CellInt 5) ["fs"; "a b.c"; "size"]) tt
    (entry default_options STAT_TYPE_BYTES (CellInt 5) ["fs"; "a b.c"; "size"]).
Proof. apply add_stat_appends. split_and!; [done | by repeat constructor | by vm_compute]. Defined.

Lemma demo_library_ok : library_ok demo_library.
Proof.
  split; cbn; try (intros; simplify_eq; repeat constructor); try done.
  all: eexists; split_and!; [reflexivity | reflexivity | cbn; lia].
Qed.

Lemma interesting_suffices_witness :
  exists p1 p2,
    get_stats default_options demo_library
      (select_interesting ["disk."; "cpu.user"] ((fun _ : toplevel => false) <$> toplevels))
      (demo_prog []) = Done tt p1 /\
    get_stats default_options demo_library ((fun _ : toplevel => true) <$> toplevels)
      (demo_prog []) = Done tt p2 /\
    by_name (p_items p1) /\ (["disk."; "cpu.user"] = [] -> p_items p1 = p_items p2) /\
    (forall arg, arg ∈ ["disk."; "cpu.user"] ->
       Permutation (selected arg (p_items p1)) (selected arg (p_items p2))).
Proof.
  apply (interesting_suffices default_options demo_library ["disk."; "cpu.user"] (demo_prog [])).
  - exact demo_library_ok.
  - cbn; lia.
  - apply not_elem_of_nil.
Defined.

(** The default list of the program on a machine that knows three types. *)
Definition demo_words : list (string * string) :=
  [("nfs", ", "); ("nfs3", ", "); ("nfs4", ", "); ("cifs", ", "); ("smbfs", ", ");
   ("samba", ", "); ("autofs", EmptyString)].

Definition demo_known : list string := ["CIFS"; "ext4"; "nfs"].

Lemma exclude_filesystems_witness :
  wp (vf' ← set_valid_filesystems default_fslist
              (mk_valid_fs (Some (CStr <$> demo_known)) 3);
      is_valid_fs_type vf' "ext4")
     (fun b _ => b = true <-> (exists n, n ∈ demo_known /\ strcasecmp "ext4" n = 0) /\
                              ~ exists w, w ∈ demo_words.*1 /\ strcasecmp "ext4" w = 0) demo_env.
Proof.
  apply (exclude_filesystems demo_words EmptyString EmptyString demo_known
           (mk_valid_fs (Some (CStr <$> demo_known)) 3) "ext4" demo_env).
  - repeat split; done.
  - reflexivity.
  - reflexivity.
  - reflexivity.
  - repeat constructor.
  - apply not_elem_of_nil.
Defined.
