(* ===== verification/StatgrabTable.v ===== *)
(** What statgrab shows of what the library delivers, written down without the program: the name, the type and the
    value of every statistic, the options of the command line, and that the sections of the program (src/statgrab/statgrab.c)
    and its option loop come to the same. *)

From S2P Require Import Prelude Types CLib Errors Tools Vector Items Stdio ToolsExt Disk Demo Statgrab StatgrabProps.

Local Open Scope sg_scope.

(** * The statistics *)

Local Abbreviation counter n z := (mk_stat_item n STAT_TYPE_UNSIGNED_LONG_LONG (CellInt z)) (only parsing).
Local Abbreviation bytes n z := (mk_stat_item n STAT_TYPE_BYTES (CellInt z)) (only parsing).
Local Abbreviation seconds n z := (mk_stat_item n STAT_TYPE_TIME_T (CellInt z)) (only parsing).
Local Abbreviation real n d := (mk_stat_item n STAT_TYPE_DOUBLE (CellDouble d)) (only parsing).
Local Abbreviation text n p := (mk_stat_item n STAT_TYPE_STRING (CellText p)) (only parsing).
Local Abbreviation small n z := (mk_stat_item n STAT_TYPE_UNSIGNED (CellInt z)) (only parsing).

(** A name that is part of a longer one: no dots and spaces. *)
Definition label (s : string) : string :=
  map_string (fun c => if decide (c = " "%char \/ c = "."%char) then "_"%char else c) s.

(** The text behind a pointer of the library. *)
Definition text_at (p : char_ptr) : string := match p with CStr s => s | _ => EmptyString end.

Definition whenever {A} (rows : A -> list stat_item) (delivered : option A) : list stat_item :=
  match delivered with Some a => rows a | None => [] end.

Definition cpu_rows (c : sg_cpu_stats) : list stat_item :=
  [counter "cpu.user" (cpu_user c); counter "cpu.kernel" (cpu_kernel c); counter "cpu.idle" (cpu_idle c);
   counter "cpu.iowait" (cpu_iowait c); counter "cpu.swap" (cpu_swap c); counter "cpu.nice" (cpu_nice c);
   counter "cpu.total" (cpu_total c); seconds "cpu.systime" (cpu_systime c)].

Definition cpu_percent_rows (p : sg_cpu_percents) : list stat_item :=
  [real "cpu.user" (pct_user p); real "cpu.kernel" (pct_kernel p); real "cpu.idle" (pct_idle p);
   real "cpu.iowait" (pct_iowait p); real "cpu.swap" (pct_swap p); real "cpu.nice" (pct_nice p);
   seconds "cpu.time_taken" (pct_time_taken p)].

Definition cpu_count_rows (c : sg_cpu_stats) : list stat_item :=
  [counter "cpu.ctxsw" (cpu_context_switches c); counter "cpu.vctxsw" (cpu_voluntary_context_switches c);
   counter "cpu.nvctxsw" (cpu_involuntary_context_switches c); counter "cpu.syscalls" (cpu_syscalls c);
   counter "cpu.intrs" (cpu_interrupts c); counter "cpu.softintrs" (cpu_soft_interrupts c)].

Definition mem_rows (m : sg_mem_stats) : list stat_item :=
  [bytes "mem.total" (mem_total m); bytes "mem.free" (mem_free m); bytes "mem.used" (mem_used m); bytes "mem.cache" (mem_cache m)].

Definition load_rows (l : sg_load_stats) : list stat_item :=
  [real "load.min1" (load_min1 l); real "load.min5" (load_min5 l); real "load.min15" (load_min15 l)].

Definition user_rows (u : sg_user_stats) : list stat_item :=
  let of_tty what := "user." +:+ label (text_at (usr_device u)) +:+ what in
  [text (of_tty ".login_name") (usr_login_name u); text (of_tty ".tty") (usr_device u);
   text (of_tty ".from") (usr_hostname u); seconds (of_tty ".login_time") (usr_login_time u)].

Definition users_rows (l : list sg_user_stats) : list stat_item :=
  mjoin (user_rows <$> l) ++
  [mk_stat_item "user.num" STAT_TYPE_INT (CellInt (Z.of_nat (length l)));
   text "user.names" (CStr (String.concat " " ((fun u => text_at (usr_login_name u)) <$> l)))].

Definition swap_rows (s : sg_swap_stats) : list stat_item :=
  [bytes "swap.total" (swap_total s); bytes "swap.used" (swap_used s); bytes "swap.free" (swap_free s)].

Definition host_rows (h : sg_host_info) : list stat_item :=
  [text "general.os_name" (hi_os_name h); text "general.os_release" (hi_os_release h);
   text "general.os_version" (hi_os_version h); text "general.platform" (hi_platform h);
   text "general.hostname" (hi_hostname h); small "general.ncpus" (hi_ncpus h);
   small "general.ncpus_cfg" (hi_maxcpus h); small "general.bitwidth" (hi_bitwidth h);
   text "general.hoststate" (CStr (match hi_host_state h with
     | sg_unknown_configuration => "unknown" | sg_physical_host => "physical host"
     | sg_virtual_machine => "virtual machine (full virtualized)"
     | sg_paravirtual_machine => "virtual machine (paravirtualized)"
     | sg_hardware_virtualized => "hardware virtualization" end));
   seconds "general.uptime" (hi_uptime h)].

(** A file system goes by its device: "/" is root, a drive letter loses its colon, any other device the /dev/ before
    it, and slashes become underscores. *)
Definition fs_label (device : string) : string :=
  map_string (fun c => if decide (c = "/"%char) then "_"%char else c)
    (if String.eqb device "/" then "root"
     else match device with
          | String c (String ":" EmptyString) => String c EmptyString
          | _ => if String.prefix "/dev/" device then String.substring 5 (String.length device) device else device
          end).

Definition fs_rows (d : sg_fs_stats) : list stat_item :=
  let of_fs what := "fs." +:+ label (fs_label (text_at (fs_device_name d))) +:+ what in
  [text (of_fs ".device_name") (fs_device_name d); text (of_fs ".device_canonical") (fs_device_canonical d);
   text (of_fs ".fs_type") (fs_fs_type d); text (of_fs ".mnt_point") (fs_mnt_point d);
   bytes (of_fs ".size") (fs_size d); bytes (of_fs ".used") (fs_used d); bytes (of_fs ".avail") (fs_avail d);
   counter (of_fs ".total_inodes") (fs_total_inodes d); counter (of_fs ".used_inodes") (fs_used_inodes d);
   counter (of_fs ".free_inodes") (fs_free_inodes d); counter (of_fs ".avail_inodes") (fs_avail_inodes d);
   bytes (of_fs ".io_size") (fs_io_size d); bytes (of_fs ".block_size") (fs_block_size d);
   counter (of_fs ".total_blocks") (fs_total_blocks d); counter (of_fs ".free_blocks") (fs_free_blocks d);
   counter (of_fs ".avail_blocks") (fs_avail_blocks d); counter (of_fs ".used_blocks") (fs_used_blocks d)].

Definition disk_rows (d : sg_disk_io_stats) : list stat_item :=
  let of_disk what := "disk." +:+ label (text_at (dio_disk_name d)) +:+ what in
  [text (of_disk ".disk_name") (dio_disk_name d); bytes (of_disk ".read_bytes") (dio_read_bytes d);
   bytes (of_disk ".write_bytes") (dio_write_bytes d); seconds (of_disk ".systime") (dio_systime d)].

Definition process_rows (p : sg_process_count) : list stat_item :=
  [counter "proc.total" (pc_total p); counter "proc.running" (pc_running p); counter "proc.sleeping" (pc_sleeping p);
   counter "proc.stopped" (pc_stopped p); counter "proc.zombie" (pc_zombie p)].

Definition of_net (p : char_ptr) (what : string) : string := "net." +:+ label (text_at p) +:+ what.

Definition net_io_rows (d : sg_network_io_stats) : list stat_item :=
  let i := nio_interface_name d in
  [text (of_net i ".interface_name") i; bytes (of_net i ".tx") (nio_tx d); bytes (of_net i ".rx") (nio_rx d);
   counter (of_net i ".ipackets") (nio_ipackets d); counter (of_net i ".opackets") (nio_opackets d);
   counter (of_net i ".ierrors") (nio_ierrors d); counter (of_net i ".oerrors") (nio_oerrors d);
   counter (of_net i ".collisions") (nio_collisions d); seconds (of_net i ".systime") (nio_systime d)].

(** The name is there already when the interface has counters. *)
Definition counted (io : list sg_network_io_stats) (p : char_ptr) : bool :=
  existsb (fun d => String.eqb (text_at (nio_interface_name d)) (text_at p)) io.

Definition iface_rows (io : list sg_network_io_stats) (d : sg_network_iface_stats) : list stat_item :=
  let i := nif_interface_name d in
  (if counted io i then [] else [text (of_net i ".interface_name") i]) ++
  [counter (of_net i ".speed") (nif_speed d);
   mk_stat_item (of_net i ".up") STAT_TYPE_BOOL (CellInt (match nif_up d with SG_IFACE_UP => 1 | SG_IFACE_DOWN => 0 end));
   mk_stat_item (of_net i ".duplex") STAT_TYPE_DUPLEX (CellDuplex (nif_duplex d))].

Definition page_rows (p : sg_page_stats) : list stat_item :=
  [counter "page.in" (pages_pagein p); counter "page.out" (pages_pageout p); seconds "page.systime" (page_systime p)].

(** Graphite takes numbers only. *)
Definition shown_in (mode : display_mode_type) (l : list stat_item) : list stat_item :=
  match mode with
  | DISPLAY_GRAPHITE => filter (fun s => si_type s ∉ [STAT_TYPE_BOOL; STAT_TYPE_STRING; STAT_TYPE_DUPLEX]) l
  | _ => l
  end.

(** The sections of the table; [percent]: the shares of the processor instead of its ticks, [diffs]: what has changed
    since the round before instead of the counts. *)
Definition section_rows (percent diffs : bool) (lib : library) : list (list stat_item) :=
  let io := lib_network_io_stats lib diffs in
  [[mk_stat_item "const.0" STAT_TYPE_INT (CellInt 0)];
   (if percent then whenever cpu_percent_rows (lib_cpu_percents lib (if diffs then sg_last_diff_cpu_percent else sg_entire_cpu_percent))
    else whenever cpu_rows (lib_cpu_stats lib diffs)) ++ whenever cpu_count_rows (lib_cpu_stats lib diffs);
   whenever mem_rows (lib_mem_stats lib);
   whenever load_rows (lib_load_stats lib);
   whenever users_rows (lib_user_stats lib);
   whenever swap_rows (lib_swap_stats lib);
   whenever host_rows (lib_host_info lib);
   whenever (fun l => mjoin (fs_rows <$> l)) (lib_fs_stats lib);
   whenever (fun l => mjoin (disk_rows <$> l)) (lib_disk_io_stats lib diffs);
   whenever process_rows (lib_process_count lib);
   whenever (fun l => mjoin (net_io_rows <$> l)) io ++
   whenever (fun l => mjoin (iface_rows (default [] io) <$> l)) (lib_network_iface_stats lib);
   whenever page_rows (lib_page_stats lib diffs)].

Definition sections_shown (o : options) (lib : library) : list (list stat_item) :=
  shown_in (display_mode o) <$> section_rows (use_cpu_percent o) (use_diffs o) lib.

(** All statistics of a round. *)
Definition stat_table (o : options) (lib : library) : list stat_item := mjoin (sections_shown o lib).

(** * The program adds these statistics *)

Section adds.
Context {mem : Memory}.

Lemma label_parts s : map_string name_char s = label s.
Proof.
  unfold label. induction s as [|c s IH]; cbn; [done|]. rewrite IH. f_equal. unfold name_char.
  destruct (Ascii.eqb_spec c " "), (Ascii.eqb_spec c "."); subst; cbn; repeat case_decide; naive_solver.
Qed.

(** The rows of a sequence of calls with the same first parts of the name. *)
Definition rows_of (pre : list string) (l : list (stat_type * cell * string)) : list stat_item :=
  (fun x => mk_stat_item (dotted (pre ++ [x.2])) x.1.1 x.1.2) <$> l.

Lemma shown_in_app mode a b : shown_in mode (a ++ b) = shown_in mode a ++ shown_in mode b.
Proof. destruct mode; try done. cbn. by rewrite filter_app. Qed.

Lemma entry_shown o type stat parts : entry o type stat parts = shown_in (display_mode o) [mk_stat_item (dotted parts) type stat].
Proof. unfold entry, skipped. destruct (display_mode o); try done. by destruct type. Qed.

Lemma adds_row o type stat pre last :
  Forall (fun s => no_nul s = true) pre -> name_len pre < 2 ^ 31 - 200 -> last_ok last = true ->
  adds (add_stat o type stat (pre ++ [last])) tt (shown_in (display_mode o) [mk_stat_item (dotted (pre ++ [last])) type stat]).
Proof.
  intros HF Hlen (Hn & Hl%Nat.ltb_lt)%andb_true_iff. rewrite <- entry_shown. apply add_stat_appends. split_and!.
  - by destruct pre.
  - apply Forall_app. split; [done|by constructor].
  - rewrite name_len_app. cbn [name_len] in *. lia.
Qed.

Lemma adds_rows o pre l :
  Forall (fun s => no_nul s = true) pre -> name_len pre < 2 ^ 31 - 200 -> Forall (fun x => last_ok x.2 = true) l ->
  adds (add_stats o pre l) tt (shown_in (display_mode o) (rows_of pre l)).
Proof.
  intros HF Hlen HL. induction HL as [|[[type stat] last] l Hl HL IH].
  { unfold rows_of. cbn. replace (shown_in _ []) with (@nil stat_item) by (by destruct (display_mode o)). apply adds_ret. }
  cbn [add_stats]. change (rows_of pre ((type, stat, last) :: l)) with ([mk_stat_item (dotted (pre ++ [last])) type stat] ++ rows_of pre l).
  rewrite shown_in_app. eapply adds_bind; [by apply adds_row|done].
Qed.

Lemma adds_read {A} s (f : string -> M prog A) a l : adds (f s) a l -> adds (read_ptr (CStr s) ≫= f) a l.
Proof. intros Hl p Q. apply (Hl p Q). Qed.

Lemma adds_alloc {A} (x y : M prog A) a l :
  adds y a l -> adds (c ← in_penv alloc_request; match c with AFail => x | _ => y end) a l.
Proof.
  intros Hl p Q Ht Ha HQ. apply wp_bind, wp_palloc; [done|]. intros c e Hc He.
  assert (forall (x y : M prog A), match c with AFail => x | _ => y end = y) as -> by (by destruct c).
  apply Hl; [done|done|]. intros p' Ht' Ha' Hi Ho He'. by apply HQ.
Qed.

Lemma adds_none {A} o (a : A) : adds (mret a) a (shown_in (display_mode o) []).
Proof. replace (shown_in _ []) with (@nil stat_item) by (by destruct (display_mode o)). apply adds_ret. Qed.

(** A sequence of calls with rows that can be read off. *)
Ltac rows :=
  lazymatch goal with
  | |- adds (add_stats ?o ?pre ?l) _ (shown_in _ ?r) =>
      replace r with (rows_of pre l); [apply adds_rows; [repeat constructor; assumption|cbn [name_len String.length]; lia|repeat constructor]|]
  end.

Lemma fs_name_label device : fs_name device = fs_label device.
Proof.
  unfold fs_name, fs_label. assert (forall s, map_string (fun c => if Ascii.eqb c "/" then "_"%char else c) s =
    map_string (fun c => if decide (c = "/"%char) then "_"%char else c) s) as ->.
  { intros s. induction s as [|c s IH]; cbn; [done|]. rewrite IH. f_equal. destruct (Ascii.eqb_spec c "/"); by case_decide. }
  f_equal. destruct (String.eqb_spec device "/") as [->|Hne]; [done|].
  assert ((strcmp device "/" =? 0) = false) as -> by (apply Z.eqb_neq; by rewrite strcmp_eq).
  assert (forall s, (if strncmp s "/dev/" 5 =? 0 then String.substring 5 (String.length s) s else s) =
    if String.prefix "/dev/" s then String.substring 5 (String.length s) s else s) as Hp.
  { intros s. destruct (String.prefix "/dev/" s) eqn:E.
    - apply (strncmp_prefix "/dev/") in E. apply strncmp_sym in E. change (String.length "/dev/") with 5%nat in E. by rewrite (proj2 (Z.eqb_eq _ _) E).
    - destruct (Z.eqb_spec (strncmp s "/dev/" 5) 0) as [E'|]; [|done]. apply strncmp_sym in E'. apply (strncmp_prefix "/dev/") in E'. congruence. }
  assert (forall c, (if strncmp (String c "") "/dev/" 5 =? 0 then String.substring 5 1 (String c "") else String c "") = String c "") as Hc.
  { intros c. destruct (Z.eqb_spec (strncmp (String c "") "/dev/" 5) 0) as [E|]; [|done]. apply strncmp_sym in E. apply (strncmp_prefix "/dev/") in E.
    by destruct c as [[] [] [] [] [] [] [] []]. }
  rewrite <- Hp. destruct device as [|c [|c' [|c'' r]]]; try done.
  all: by destruct c' as [[] [] [] [] [] [] [] []].
Qed.

Lemma adds_users o l :
  Forall (fun u => named_ptr (usr_login_name u) /\ named_ptr (usr_device u)) l ->
  adds (populate_users o l) ((fun u => text_at (usr_login_name u)) <$> l) (shown_in (display_mode o) (mjoin (user_rows <$> l))).
Proof.
  induction 1 as [|u l [(s & Hs & Hsn & Hsl) (d & Hd & Hdn & Hdl)] HF IH]; [apply adds_none|].
  cbn [populate_users]. rewrite fmap_cons. change (mjoin (user_rows <$> u :: l)) with (user_rows u ++ mjoin (user_rows <$> l)).
  rewrite shown_in_app, Hs, Hd. apply adds_read, adds_read. eapply adds_bind.
  - rows. unfold user_rows. rewrite Hs, Hd. cbn [text_at]. by rewrite <- label_parts.
  - rewrite <- (app_nil_r (shown_in _ _)). eapply adds_bind; [exact IH|]. apply adds_ret.
Qed.

(** An entry of a list at a time. *)
Lemma shown_join {A} o (rows : A -> list stat_item) (populate : list A -> M prog unit) (ok : A -> Prop) l :
  populate [] = mret tt ->
  (forall x l', ok x -> adds (populate l') tt (shown_in (display_mode o) (mjoin (rows <$> l'))) ->
     adds (populate (x :: l')) tt (shown_in (display_mode o) (rows x) ++ shown_in (display_mode o) (mjoin (rows <$> l')))) ->
  Forall ok l -> adds (populate l) tt (shown_in (display_mode o) (mjoin (rows <$> l))).
Proof.
  intros H0 Hs. induction 1 as [|x l Hx HF IH]; [rewrite H0; apply adds_none|].
  change (mjoin (rows <$> x :: l)) with (rows x ++ mjoin (rows <$> l)). rewrite shown_in_app. by apply Hs.
Qed.

Lemma adds_disks o l : Forall (fun d => named_ptr (fs_device_name d)) l ->
  adds (populate_disks o l) tt (shown_in (display_mode o) (mjoin (fs_rows <$> l))).
Proof.
  apply shown_join; [done|]. intros d l' (s & Hs & Hsn & Hsl) IH. cbn [populate_disks]. rewrite Hs.
  apply adds_read, adds_alloc. destruct (fs_name_ok s Hsn) as [Hn Hl]. eapply adds_bind; [|exact IH].
  rows. unfold fs_rows. rewrite Hs. cbn [text_at]. by rewrite <- label_parts, <- fs_name_label.
Qed.

Lemma adds_diskio o l : Forall (fun d => named_ptr (dio_disk_name d)) l ->
  adds (populate_diskio o l) tt (shown_in (display_mode o) (mjoin (disk_rows <$> l))).
Proof.
  apply shown_join; [done|]. intros d l' (s & Hs & Hsn & Hsl) IH. cbn [populate_diskio]. rewrite Hs.
  apply adds_read. eapply adds_bind; [|exact IH]. rows. unfold disk_rows. rewrite Hs. cbn [text_at]. by rewrite <- label_parts.
Qed.

Lemma adds_io o l : Forall (fun d => named_ptr (nio_interface_name d)) l ->
  adds (populate_io o l) tt (shown_in (display_mode o) (mjoin (net_io_rows <$> l))).
Proof.
  apply shown_join; [done|]. intros d l' (s & Hs & Hsn & Hsl) IH. cbn [populate_io]. rewrite Hs.
  apply adds_read. eapply adds_bind; [|exact IH]. rows. unfold net_io_rows, of_net. rewrite Hs. cbn [text_at]. by rewrite <- label_parts.
Qed.

Lemma adds_had io s : Forall (fun d => named_ptr (nio_interface_name d)) io -> adds (had_io io s) (counted io (CStr s)) [].
Proof.
  induction 1 as [|d io (n & Hn & _) HF IH]; cbn [had_io]; [apply adds_ret|]. rewrite Hn. apply adds_read.
  unfold counted in *. cbn [existsb]. rewrite Hn. cbn [text_at].
  destruct (Z.eqb_spec (strcmp n s) 0) as [->%strcmp_eq|Hne].
  - rewrite String.eqb_refl. apply adds_ret.
  - rewrite strcmp_eq in Hne. destruct (String.eqb_spec n s); [done|exact IH].
Qed.

Lemma adds_iface o io l :
  Forall (fun d => named_ptr (nio_interface_name d)) io -> Forall (fun d => named_ptr (nif_interface_name d)) l ->
  adds (populate_iface o io l) tt (shown_in (display_mode o) (mjoin (iface_rows io <$> l))).
Proof.
  intros Hio. apply shown_join; [done|]. intros d l' (s & Hs & Hsn & Hsl) IH. cbn [populate_iface]. rewrite Hs.
  apply adds_read. change (?a ++ ?b) with ([] ++ a ++ b). eapply adds_bind; [by apply adds_had|].
  unfold iface_rows. rewrite Hs, shown_in_app, <- app_assoc. unfold of_net. cbn [text_at]. rewrite <- label_parts. eapply adds_bind.
  - destruct (counted io (CStr s)); [apply adds_none|]. by rows.
  - eapply adds_bind; [|exact IH]. rows. unfold rows_of. by destruct (nif_up d).
Qed.

Lemma shown_whenever {A} o (rows : A -> list stat_item) (m : A -> M prog unit) x :
  (forall a, x = Some a -> adds (m a) tt (shown_in (display_mode o) (rows a))) ->
  adds (match x with Some a => m a | None => mret tt end) tt (shown_in (display_mode o) (whenever rows x)).
Proof. intros H. destruct x; [by apply H|apply adds_none]. Qed.

(** Every section of the program adds the rows of its section. *)
Lemma sections_add_rows o lib : library_ok lib ->
  Forall2 (fun t l => adds (t_populate t o lib) tt l) toplevels (sections_shown o lib).
Proof.
  intros Hok. unfold toplevels, sections_shown, section_rows. cbv zeta. repeat (rewrite fmap_cons; constructor); cbn [t_populate].
  - unfold populate_const. by rows.
  - unfold populate_cpu. cbv zeta. rewrite shown_in_app. eapply adds_bind.
    + destruct (use_cpu_percent o); apply shown_whenever; intros c _; by rows.
    + apply shown_whenever. intros c _. by rows.
  - unfold populate_mem. apply shown_whenever. intros m _. by rows.
  - unfold populate_load. apply shown_whenever. intros m _. by rows.
  - unfold populate_user. apply shown_whenever. intros l E. pose proof (ok_users lib Hok l E) as HF. unfold users_rows. rewrite shown_in_app.
    eapply adds_bind; [by apply adds_users|]. apply adds_alloc. rewrite user_names_spec.
    + match goal with |- adds _ _ (shown_in _ [?x; ?y]) => change [x; y] with ([x] ++ [y]) end. rewrite shown_in_app.
      eapply adds_bind; apply (adds_row o _ _ ["user"]); by repeat constructor.
    + apply Forall_fmap. eapply Forall_impl; [exact HF|]. intros u [(s & E' & Hs & _) _]. cbn. by rewrite E'.
  - unfold populate_swap. apply shown_whenever. intros m _. by rows.
  - unfold populate_general. apply shown_whenever. intros m _. rows. unfold host_rows, rows_of. by destruct (hi_host_state m).
  - unfold populate_fs. apply (shown_whenever o (fun l => mjoin (fs_rows <$> l))). intros l E. by eapply adds_disks, ok_fs.
  - unfold populate_disk. apply (shown_whenever o (fun l => mjoin (disk_rows <$> l))). intros l E. by eapply adds_diskio, ok_disks.
  - unfold populate_proc. destruct (ok_proc lib Hok) as [c ->]. by rows.
  - unfold populate_net. cbv zeta. rewrite shown_in_app.
    assert (Forall (fun d => named_ptr (nio_interface_name d)) (default [] (lib_network_io_stats lib (use_diffs o)))) as Hio.
    { destruct (lib_network_io_stats lib (use_diffs o)) eqn:E; [|constructor]. by eapply ok_io. }
    eapply adds_bind.
    + apply (shown_whenever o (fun l => mjoin (net_io_rows <$> l))). intros l E. by eapply adds_io, ok_io.
    + apply (shown_whenever o (fun l => mjoin (iface_rows _ <$> l))). intros l E. eapply adds_iface; [done|by eapply ok_iface].
  - unfold populate_page. apply shown_whenever. intros m _. by rows.
  - constructor.
Qed.
End adds.

(** * The options *)

(** The letters of the command line. *)
Definition option_letters : list ascii :=
  ["l"; "b"; "m"; "r"; "R"; "u"; "n"; "s"; "o"; "t"; "p"; "f"; "F"; "K"; "M"; "G"]%char.

Definition valid_option (x : ascii * string) : Prop := x.1 ∈ option_letters.

(** What the last of the options that say something about a setting says. *)
Definition last_of {A} (says : ascii -> string -> option A) (unsaid : A) (opts : list (ascii * string)) : A :=
  default unsaid (last (omap (fun x => says x.1 x.2) opts)).

Definition says_display (c : ascii) (_ : string) : option display_mode_type :=
  match c with
  | "l" => Some DISPLAY_LINUX | "b" => Some DISPLAY_BSD | "m" => Some DISPLAY_MRTG | "u" => Some DISPLAY_PLAIN
  | "r" | "R" => Some DISPLAY_GRAPHITE
  | _ => None
  end%char.

Definition says_repeat (c : ascii) (_ : string) : option repeat_mode_type :=
  match c with "n" => Some REPEAT_NONE | "s" => Some REPEAT_FOREVER | "o" => Some REPEAT_ONCE | _ => None end%char.

Definition says_scale (c : ascii) (_ : string) : option Z :=
  match c with "K" => Some 10 | "M" => Some 20 | "G" => Some 30 | _ => None end%char.

(** The argument of the option [letter]. *)
Definition says_argument {A} (letter : ascii) (read : string -> A) (c : ascii) (arg : string) : option A :=
  if decide (c = letter) then Some (read arg) else None.

(** The settings, each from the last option about it; the number of [-t] is an [int], that of [-f] a [long]. *)
Definition options_of (opts : list (ascii * string)) : options :=
  let repeats := last_of says_repeat REPEAT_NONE opts in
  mk_options (last_of says_display DISPLAY_LINUX opts) repeats (last_of (says_argument "t" (fun a => s32 (libc_atoll a))) 1 opts)
    (bool_decide ("p"%char ∈ opts.*1)) (bool_decide (repeats <> REPEAT_NONE)) (last_of (says_argument "f" libc_atoll) 0 opts)
    (last_of says_scale 0 opts) (last_of (says_argument "R" Some) None opts) (last_of (says_argument "F" Some) None opts).

Lemma last_of_snoc {A} (says : ascii -> string -> option A) unsaid opts c arg :
  last_of says unsaid (opts ++ [(c, arg)]) = default (last_of says unsaid opts) (says c arg).
Proof.
  unfold last_of. rewrite omap_app. cbn. destruct (says c arg); [by rewrite last_snoc|by rewrite app_nil_r].
Qed.

Lemma set_options_snoc opts c arg o o' :
  set_options opts o = Some o' -> set_options (opts ++ [(c, arg)]) o = set_option c arg o'.
Proof.
  revert o. induction opts as [|[c0 a0] opts IH]; intros o; cbn [set_options app]; [intros [= ->]; by destruct (set_option c arg o')|].
  destruct (set_option c0 a0 o); [apply IH|done].
Qed.

(** The loop over the options keeps the last word on every setting. *)
Lemma set_options_last opts : Forall valid_option opts ->
  exists o, set_options opts default_options = Some o /\ finish_options o = options_of opts.
Proof.
  induction opts as [|[c arg] opts IH] using rev_ind; intros HF; [by eexists|].
  apply Forall_app in HF as [HF [Hc _]%Forall_cons]. destruct (IH HF) as (o & Ho & E). clear IH HF.
  rewrite (set_options_snoc _ _ _ _ _ Ho). clear Ho. unfold options_of in *. rewrite !last_of_snoc, fmap_app.
  destruct o. unfold finish_options in E. cbn in E. injection E as E1 E2 E3 E4 E5 E6 E7 E8 E9.
  assert (bool_decide ("p"%char ∈ opts.*1 ++ [(c, arg)].*1) = bool_decide ("p"%char ∈ opts.*1) || bool_decide (c = "p"%char)) as ->.
  { apply eq_true_iff_eq. rewrite orb_true_iff, !bool_decide_eq_true. set_solver. }
  rewrite <- E1, <- E3, <- E4, <- E6, <- E7, <- E8, <- E9. unfold valid_option, option_letters in Hc. cbn [fst] in Hc.
  repeat (apply elem_of_cons in Hc as [->|Hc]; [eexists; split; [reflexivity|]; rewrite <- ?E2; cbn; by rewrite ?orb_false_r, ?orb_true_r|]).
  by apply not_elem_of_nil in Hc.
Qed.
