(* ===== verification/StatgrabRun.v ===== *)
(** A whole run of statgrab, from the options to the output: what is printed for the arguments is the
    text of the statistics they select among all those the library delivers. *)

From S2P Require Import Prelude Types CLib Errors Tools Vector Items Stdio ToolsExt Single Disk Demo Statgrab StatgrabProps StatgrabTable.

Local Open Scope sg_scope.

(** * The text of a statistic *)

(** The value is of the member of the union that the type names; a text can be read, and a number scaled with [-f] fits
    a [long] (the conversion is undefined otherwise). *)
Definition fits (o : options) (type : stat_type) (stat : cell) : bool :=
  match type, stat with
  | (STAT_TYPE_LONG_LONG | STAT_TYPE_UNSIGNED_LONG_LONG | STAT_TYPE_BYTES | STAT_TYPE_TIME_T
     | STAT_TYPE_INT | STAT_TYPE_UNSIGNED | STAT_TYPE_BOOL), CellInt _ => true
  | (STAT_TYPE_FLOAT | STAT_TYPE_DOUBLE), CellDouble d =>
      (float_scale_factor o =? 0) || bool_decide (is_Some (double_to_long (double_mul (double_of (float_scale_factor o)) d)))
  | STAT_TYPE_STRING, CellText (CStr _) => true
  | STAT_TYPE_DUPLEX, CellDuplex _ => true
  | _, _ => false
  end.

Definition item_fits (o : options) (s : stat_item) : Prop := fits o (si_type s) (si_stat s) = true.

(** A byte count in units of [2 ^ factor] bytes, rounded to the nearest, halves up. *)
Definition in_units (factor v : Z) : Z := if factor =? 0 then v else (v + 2 ^ (factor - 1)) / 2 ^ factor.

(** The value as it is shown: numbers in their width, byte counts in the unit asked for, reals with six decimals, or
    multiplied by the factor of [-f] and cut off. *)
Definition value_text (o : options) (s : stat_item) : string :=
  match si_type s, si_stat s with
  | (STAT_TYPE_LONG_LONG | STAT_TYPE_TIME_T), CellInt z => print_signed (s64 z)
  | STAT_TYPE_UNSIGNED_LONG_LONG, CellInt z => print_unsigned (z mod 2 ^ 64)
  | STAT_TYPE_BYTES, CellInt z => print_unsigned (in_units (bytes_scale_factor o) (z mod 2 ^ 64))
  | STAT_TYPE_INT, CellInt z => print_signed (s32 z)
  | STAT_TYPE_UNSIGNED, CellInt z => print_unsigned (z mod 2 ^ 32)
  | STAT_TYPE_BOOL, CellInt z => if s32 z =? 0 then "false" else "true"
  | _, CellDouble d =>
      if float_scale_factor o =? 0 then print_f d
      else print_signed (default 0 (double_to_long (double_mul (double_of (float_scale_factor o)) d)))
  | _, CellText (CStr t) => t
  | _, CellDuplex SG_IFACE_DUPLEX_FULL => "full"
  | _, CellDuplex SG_IFACE_DUPLEX_HALF => "half"
  | _, CellDuplex SG_IFACE_DUPLEX_UNKNOWN => "unknown"
  | _, _ => EmptyString
  end.

(** What stands before the value. *)
Definition label_text (o : options) (name : string) : string :=
  match display_mode o with
  | DISPLAY_LINUX => name +:+ " = "
  | DISPLAY_BSD => name +:+ ": "
  | DISPLAY_GRAPHITE => match graphite_prefix o with None => name +:+ " " | Some pre => pre +:+ String "." (name +:+ " ") end
  | DISPLAY_MRTG | DISPLAY_PLAIN => EmptyString
  end.

Definition nl : string := String newline EmptyString.

Definition line_text (o : options) (ts : Z) (s : stat_item) : string :=
  label_text o (si_name s) +:+ value_text o s +:+
  (if decide (display_mode o = DISPLAY_GRAPHITE) then String " " (print_signed ts) else EmptyString) +:+ nl.

Fixpoint lines (o : options) (ts : Z) (l : list stat_item) : string :=
  match l with [] => EmptyString | s :: l' => line_text o ts s +:+ lines o ts l' end.

(** The output and the messages for the arguments on a table [l]. *)
Fixpoint args_output (o : options) (ts : Z) (l : list stat_item) (args : list string) : string :=
  match args with [] => EmptyString | arg :: args' => lines o ts (selected arg l) +:+ args_output o ts l args' end.

Fixpoint args_errors (l : list stat_item) (args : list string) : string :=
  match args with
  | [] => EmptyString
  | arg :: args' =>
      match selected arg l with [] => "Unknown stat " +:+ arg +:+ nl | _ => EmptyString end +:+ args_errors l args'
  end.

Definition output (o : options) (ts : Z) (l : list stat_item) (args : list string) : string :=
  match args with [] => lines o ts l | _ => args_output o ts l args end.

(** * Printing *)

Definition printed (out err : string) (p : prog) : prog :=
  mk_prog (p_items p) (p_alloc p) (p_graphite_ts p) (p_out p +:+ out) (p_err p +:+ err) (p_env p).

Lemma printed_twice o1 e1 o2 e2 p : printed o2 e2 (printed o1 e1 p) = printed (o1 +:+ o2) (e1 +:+ e2) p.
Proof. unfold printed. cbn. by rewrite !string_app_assoc. Qed.

Lemma printed_nothing p : printed EmptyString EmptyString p = p.
Proof. unfold printed. destruct p. cbn. by rewrite !string_app_nil. Qed.

Lemma printf_done t p : printf t p = Done tt (printed t EmptyString p).
Proof. unfold printf, modify, printed. by rewrite string_app_nil. Qed.

Lemma eprintf_done t p : eprintf t p = Done tt (printed EmptyString t p).
Proof. unfold eprintf, modify, printed. by rewrite string_app_nil. Qed.

(** The units of [-K], [-M] and [-G]. *)
Definition unit_ok (o : options) : Prop := bytes_scale_factor o = 0 \/ 2 <= bytes_scale_factor o.

Lemma scale_in_units o z : unit_ok o -> scale_bytes (bytes_scale_factor o) (u64 z) = in_units (bytes_scale_factor o) (z mod 2 ^ 64).
Proof.
  intros [->|H]; [done|]. destruct (scale_bytes_rounds (bytes_scale_factor o) (u64 z) H) as [-> _].
  { unfold in_u64, wrap. apply Z.mod_pos_bound. lia. }
  unfold in_units. by destruct (Z.eqb_spec (bytes_scale_factor o) 0); [lia|].
Qed.

Lemma print_value_done o s p : item_fits o s -> unit_ok o ->
  print_stat_value o s p = Done tt (printed (value_text o s) EmptyString p).
Proof.
  intros Hs Hu. unfold item_fits, print_stat_value, value_text in *.
  destruct (si_type s), (si_stat s) as [| |[]|[]]; try done; cbn [fits] in Hs; try (apply printf_done);
    [rewrite scale_in_units by done; apply printf_done|..];
    (destruct (float_scale_factor o =? 0); [apply printf_done|]); apply bool_decide_eq_true in Hs as [z Hz]; rewrite Hz; apply printf_done.
Qed.

Lemma print_stat_done o s p : item_fits o s -> unit_ok o ->
  print_stat o s p = Done tt (printed (line_text o (p_graphite_ts p) s) EmptyString p).
Proof.
  intros Hs Hf. unfold print_stat, line_text.
  assert (forall (m : M prog unit), m p = Done tt (printed (label_text o (si_name s)) EmptyString p) ->
    (m;; print_stat_value o s;; ts ← gets p_graphite_ts;
       (if decide (display_mode o = DISPLAY_GRAPHITE) then printf (String " " (print_signed ts)) else mret tt);;
       printf (String newline EmptyString)) p =
    Done tt (printed (label_text o (si_name s) +:+ value_text o s +:+
      (if decide (display_mode o = DISPLAY_GRAPHITE) then String " " (print_signed (p_graphite_ts p)) else EmptyString) +:+ nl) EmptyString p)) as H.
  { intros m Hm. unfold mbind, M_bind. rewrite Hm, (print_value_done o s _ Hs Hf). unfold gets. cbn [p_graphite_ts printed].
    destruct (decide _); unfold mret, M_ret; rewrite ?printf_done, !printed_twice, ?string_app_nil; done. }
  apply H. unfold label_text, mret, M_ret. destruct (display_mode o), (graphite_prefix o); rewrite ?printf_done, ?printed_nothing; done.
Qed.

Lemma print_range_done o l p : Forall (item_fits o) l -> unit_ok o ->
  print_range o l p = Done tt (printed (lines o (p_graphite_ts p) l) EmptyString p).
Proof.
  intros Hl Hf. revert p. induction Hl as [|s l Hs Hl IH]; intros p; cbn [print_range lines].
  { by rewrite printed_nothing. }
  unfold mbind, M_bind. rewrite print_stat_done, IH by done. by rewrite printed_twice.
Qed.

Lemma spec_args_done o args p : Forall (item_fits o) (p_items p) -> unit_ok o ->
  spec_args o args p = Done tt (printed (args_output o (p_graphite_ts p) (p_items p) args) (args_errors (p_items p) args) p).
Proof.
  intros Hl Hf. revert p Hl. induction args as [|arg args IH]; intros p Hl; cbn [spec_args args_output args_errors].
  { by rewrite printed_nothing. }
  assert (Forall (item_fits o) (selected arg (p_items p))) as Hsel by (apply Forall_forall; intros x [_ Hx]%list_elem_of_filter; by eapply Forall_forall in Hl).
  unfold mbind, M_bind, gets. destruct (selected arg (p_items p)) as [|s sel] eqn:E.
  - rewrite eprintf_done, IH by done. by rewrite printed_twice.
  - rewrite print_range_done, IH by done. by rewrite printed_twice.
Qed.

(** * The run *)

Section run.
Context {mem : Memory}.

Lemma all_flagged (ls : list (list stat_item)) : length ls = length toplevels ->
  flagged ((fun _ : toplevel => true) <$> toplevels) ls = mjoin ls.
Proof.
  generalize toplevels. induction ls as [|l ls IH]; intros [|t ts] H; try done. rewrite fmap_cons, flagged_cons. cbn. f_equal.
  apply IH. by injection H.
Qed.

Lemma flagged_subset fl (ls : list (list stat_item)) (P : stat_item -> Prop) : Forall P (mjoin ls) -> Forall P (flagged fl ls).
Proof.
  revert fl. induction ls as [|l ls IH]; intros [|f fl] H; try constructor. rewrite flagged_cons.
  change (mjoin (l :: ls)) with (l ++ mjoin ls) in H. apply Forall_app in H as [H1 H2]. apply Forall_app. split; [by destruct f|by apply IH].
Qed.

(** The rows of a section carry its name. *)
Lemma sections_named o lib : library_ok lib -> Forall2 (fun t l => Forall (in_section (t_name t)) l) toplevels (sections_shown o lib).
Proof.
  intros Hok. destruct (sections_of o lib Hok) as (ls & HA & HI). pose proof (sections_add_rows o lib Hok) as HR.
  assert (ls = sections_shown o lib) as <-; [|done]. clear HI. revert HR. generalize (sections_shown o lib).
  induction HA as [|t l ts ls Hl HA IH]; intros ls' HR; [by apply Forall2_nil_inv_l in HR|].
  apply Forall2_cons_inv_l in HR as (l' & ls2 & Hl' & HR & ->). f_equal; [|by apply IH].
  pose (p := mk_prog [] 0 0 EmptyString EmptyString demo_env).
  destruct (wp_inv _ _ _ (Hl p (fun _ p' => p_items p' = l) ltac:(by unfold table_ok) ltac:(apply not_elem_of_nil) ltac:(by intros))) as ([] & p1 & E1 & <-).
  destruct (wp_inv _ _ _ (Hl' p (fun _ p' => p_items p' = l') ltac:(by unfold table_ok) ltac:(apply not_elem_of_nil) ltac:(by intros))) as ([] & p2 & E2 & <-).
  congruence.
Qed.

(** One round of fetching and printing. *)
Lemma wp_round o lib args p (Q : unit -> prog -> Prop) :
  let all := stat_table o lib in
  library_ok lib -> Forall (item_fits o) all -> 0 <= p_alloc p -> (AFail ∉ e_allocs (p_env p)) ->
  (EmptyString ∉ args) -> unit_ok o ->
  (forall l p', by_name l -> (args = [] -> Permutation l all) ->
     (forall arg, arg ∈ args -> Permutation (selected arg l) (selected arg all)) ->
     p_out p' = p_out p +:+ output o (lib_time lib) l args -> p_err p' = p_err p +:+ args_errors l args -> Q tt p') ->
  wp (get_stats o lib (select_interesting args ((fun _ => false) <$> toplevels));; print_stats o args) Q p.
Proof.
  intros all Hok Hfits Hp Ha Hargs Hu HQ. set (ls := sections_shown o lib). pose proof (sections_add_rows o lib Hok) as HA.
  pose proof (sections_named o lib Hok) as HI. fold ls in HA, HI. assert (mjoin ls = all) as Eall by done. rewrite <- Eall in *.
  set (fl := select_interesting args _). assert (length fl = length toplevels) as Hfl by (subst fl; by rewrite select_length).
  destruct (wp_inv _ _ _ (wp_get_stats o lib fl ls p (fun _ p' => p_items p' = sort_stats (flagged fl ls) /\ p_out p' = p_out p /\
      p_err p' = p_err p /\ (display_mode o = DISPLAY_GRAPHITE -> p_graphite_ts p' = lib_time lib))
      Hfl HA Hp Ha ltac:(by intros))) as ([] & p1 & E & Hi & Ho & He & Hts).
  assert (Forall (item_fits o) (p_items p1)) as Hfit by (rewrite Hi; unfold sort_stats; rewrite qsort_perm; by apply flagged_subset).
  assert (by_name (p_items p1)) as Hs by (rewrite Hi; apply qsort_sorted; intros x y; apply strcmp_total).
  assert (forall l, lines o (p_graphite_ts p1) l = lines o (lib_time lib) l) as Hl.
  { intros l. induction l as [|s l IH]; cbn [lines]; [done|]. rewrite IH. f_equal. unfold line_text. destruct (decide _) as [Hd|]; [|done]. by rewrite Hts. }
  assert (forall l l', args_output o (p_graphite_ts p1) l l' = args_output o (lib_time lib) l l') as Hl'.
  { intros l l'. induction l' as [|a l' IH]; cbn [args_output]; [done|]. by rewrite IH, Hl. }
  assert (print_stats o args p1 = Done tt (printed (output o (lib_time lib) (p_items p1) args) (args_errors (p_items p1) args) p1)) as Ep.
  { rewrite print_stats_spec by done. unfold spec_print, output. destruct args as [|a0 args0].
    - unfold mbind, M_bind, gets. by rewrite print_range_done, Hl.
    - by rewrite spec_args_done, Hl'. }
  unfold wp, mbind, M_bind. rewrite E, Ep. assert (length ls = length toplevels) as Hlen by (symmetry; by eapply Forall2_length).
  apply (HQ (p_items p1)); cbn [printed p_out p_err]; [done| | |by rewrite Ho|by rewrite He].
  - intros ->. rewrite Hi. unfold sort_stats. by rewrite qsort_perm, <- (all_flagged ls Hlen).
  - intros arg Harg. rewrite Hi, <- (all_flagged ls Hlen). by apply selected_interesting.
Qed.

(** What stands behind the values in MRTG mode. *)
Definition trailer (o : options) : string :=
  if decide (display_mode o = DISPLAY_MRTG) then nl +:+ "statgrab" +:+ nl else EmptyString.

(** C7: A run of statgrab that shows the statistics once (the last of -n, -s, -o is -n, or none of them is
    given): with valid option letters, of which the last one about a setting counts, the program prints for
    every argument in turn a line for each of the statistics it selects among all those of the table, sorted by
    name, or the message that there is none; without arguments all of them. The table is written out
    independently of the program: the name, type and field of every statistic of every structure the library
    delivers (in Graphite mode the numbers only). A line is the label of the display mode, the value - numbers
    in their width, byte counts rounded to the nearest unit of -K, -M or -G, reals with six decimals or, with
    -f, multiplied and cut off - and in Graphite mode the time; MRTG mode adds its two last lines. Fetching only
    the sections the arguments name changes nothing. Conditions: no argument is empty, MRTG mode has two
    arguments, privileges can be dropped, the list of file systems can be set (exclude_filesystems says when),
    no allocation fails, the library delivers process counts and readable texts (names without zero bytes, below
    2^30 characters), and a real scaled with -f fits a long. *)
Theorem statgrab_run opts args vf vf' e' lib libs p :
  let o := options_of opts in
  let all := stat_table o lib in
  Forall valid_option opts -> repeat_mode o = REPEAT_NONE ->
  (display_mode o = DISPLAY_MRTG -> length args = 2%nat) -> (EmptyString ∉ args) ->
  set_valid_filesystems (default default_fslist (fslist o)) vf (p_env p) = Done vf' e' -> (AFail ∉ e_allocs e') ->
  library_ok lib -> Forall (item_fits o) all -> 0 <= p_alloc p ->
  wp (main opts args true vf (lib :: libs)) (fun r p' => r = vf' /\ exists l,
    by_name l /\ (args = [] -> Permutation l all) /\
    (forall arg, arg ∈ args -> Permutation (selected arg l) (selected arg all)) /\
    p_out p' = p_out p +:+ output o (lib_time lib) l args +:+ trailer o /\
    p_err p' = p_err p +:+ args_errors l args) p.
Proof.
  cbv zeta. intros Hopts Hr Hm Hargs Hvf Ha Hok Hfits Hp. destruct (set_options_last opts Hopts) as (o & Ho & E).
  assert (unit_ok (finish_options o)) as Hu.
  { rewrite E. unfold unit_ok, options_of. cbn. unfold last_of. destruct (last _) as [z|] eqn:El; [|by left].
    apply last_Some_elem_of, list_elem_of_omap in El as ([c a] & _ & El). cbn in El. unfold says_scale in El.
    right. repeat case_match; simplify_eq; cbn; lia. }
  rewrite <- E in *. clear E. unfold main. rewrite Ho.
  change (repeat_mode (finish_options o)) with (repeat_mode o) in *. change (display_mode (finish_options o)) with (display_mode o) in *.
  rewrite decide_False by (intros [H1 [H2|H2]]; [by apply H2, Hm|congruence]). cbv zeta. cbn [negb].
  apply wp_bind. unfold wp at 1, in_penv, zoom. rewrite Hvf.
  change (repeat_mode (finish_options o)) with (repeat_mode o). rewrite Hr.
  apply wp_bind, wp_round; [done|done|done|done|done|done|]. intros l p' Hl Hn Hsel Hout Herr.
  change (display_mode (finish_options o)) with (display_mode o). unfold trailer. cbn [p_out p_err] in Hout, Herr.
  change (display_mode (finish_options o)) with (display_mode o).
  apply wp_bind. destruct (decide (display_mode o = DISPLAY_MRTG)).
  - apply wp_bind, wp_modify, wp_modify, wp_ret. split; [done|]. exists l. split_and!; try done. cbn. rewrite Hout.
    by rewrite !string_app_assoc.
  - apply wp_ret, wp_ret. split; [done|]. exists l. split_and!; try done. by rewrite Hout, string_app_nil.
Qed.
End run.

(** * A run *)

Definition demo_valid : valid_fs := mk_valid_fs (Some (CStr <$> demo_known)) 3.

(** "statgrab -l -K -b mem. page.in" on the machine of [demo_library], where nothing is paged. *)
Definition demo_opts : list (ascii * string) := [("l", EmptyString); ("K", EmptyString); ("b", EmptyString)]%char.

Lemma statgrab_run_witness :
  let o := options_of demo_opts in
  let args := ["mem."; "page.in"] in
  o = mk_options DISPLAY_BSD REPEAT_NONE 1 false false 0 10 None None /\ length (stat_table o demo_library) = 62%nat /\
  exists vf' e', set_valid_filesystems default_fslist demo_valid demo_env = Done vf' e' /\
  wp (main demo_opts args true demo_valid [demo_library]) (fun r p' => r = vf' /\ exists l,
    by_name l /\ (args = [] -> Permutation l (stat_table o demo_library)) /\
    (forall arg, arg ∈ args -> Permutation (selected arg l) (selected arg (stat_table o demo_library))) /\
    p_out p' = EmptyString +:+ output o 1000 l args +:+ trailer o /\
    p_err p' = EmptyString +:+ args_errors l args) (demo_prog []).
Proof.
  intros o args. split; [by vm_compute|]. split; [by vm_compute|]. eexists _, _. split; [vm_compute; reflexivity|].
  eapply (statgrab_run demo_opts args demo_valid _ _ demo_library []);
    [|reflexivity|done|set_solver|vm_compute; reflexivity|apply not_elem_of_nil|exact demo_library_ok| |done].
  - repeat constructor; apply (bool_decide_eq_true_1 _); by vm_compute.
  - change (Forall (fun s => fits o (si_type s) (si_stat s) = true) (stat_table o demo_library)). apply (bool_decide_eq_true_1 _). by vm_compute.
Defined.

(** Its output, computed. *)
Lemma demo_run_output :
  match main demo_opts ["mem."; "page.in"] true demo_valid [demo_library] (demo_prog []) with
  | Done _ p => p_out p = "mem.cache: 1" +:+ nl +:+ "mem.free: 1" +:+ nl +:+ "mem.total: 4" +:+ nl +:+ "mem.used: 3" +:+ nl /\
      p_err p = "Unknown stat page.in" +:+ nl
  | Stuck _ => False
  end.
Proof. vm_compute. by split. Qed.
