(* ===== verification/Saidar.v ===== *)
(** The saidar command (src/saidar/saidar.c): the curses screen with its headings
    and fields, the text of sizes and times, the options and the main loop with the
    signal that reports a change of the window's size. The program is modelled by
    the curses calls it makes; the library is the interface of Statgrab.v. *)

From S2P Require Import Prelude Types CLib Errors Tools Vector Items Stdio ToolsExt Single Disk Statgrab.

(** * Numbers *)

(** [x > y] *)
Definition double_gt (x y : double) : bool := SFltb y x.
Definition isnan (d : spec_float) : bool := match d with S754_nan => true | _ => false end.

(** A field of [printf] of at least [w] characters, filled up on the left. *)
Definition pad_left (w : nat) (fill : ascii) (s : string) : string :=
  String.string_of_list_ascii (replicate (w - String.length s) fill) +:+ s.

(** [%02d]: the sign counts as one of the characters. *)
Definition print_02d (z : Z) : string :=
  if z <? 0 then String "-" (pad_left 1 "0" (print_unsigned (- z)))
  else pad_left 2 "0" (print_unsigned z).

(** [%.2f] of the exact value. *)
Definition print_2f (d : double) : string :=
  let sign (s : bool) (t : string) := if s then String "-" t else t in
  match d with
  | S754_zero s => sign s "0.00"
  | S754_infinity s => sign s "inf"
  | S754_nan => "nan"
  | S754_finite s m e =>
      let n := if 0 <=? e then Zpos m * 2 ^ e * 100 else round_div (Zpos m * 100) (2 ^ (- e)) in
      sign s (print_unsigned (n / 100) +:+ String "." (pad_left 2 "0" (print_unsigned (n mod 100))))
  end.

Definition THRESHOLD_LOAD : double := double_of 1.
Definition THRESHOLD_WARN_ZMB : Z := 0.
Definition THRESHOLD_WARN_CPU : double := double_of 60.
Definition THRESHOLD_ALERT_CPU : double := double_of 90.
Definition THRESHOLD_WARN_SWAP : double := double_of 75.
Definition THRESHOLD_ALERT_SWAP : double := double_of 90.
Definition THRESHOLD_WARN_MEM : double := double_of 75.
Definition THRESHOLD_ALERT_MEM : double := double_of 90.
Definition THRESHOLD_WARN_DISK : double := double_of 75.
Definition THRESHOLD_ALERT_DISK : double := double_of 90.

(** * Texts *)

Definition size_types : list ascii := ["B"; "K"; "M"; "G"; "T"; "P"]%char.

(** [for(;x<lengthof(type);x++)]: the number and [x] after the loop. *)
Fixpoint size_loop (types : list ascii) (number : Z) (x : nat) : Z * nat :=
  match types with
  | [] => (number, x)
  | _ :: types' => if number / 1024 <? 100 then (number, x) else size_loop types' (number / 1024) (S x)
  end.

(** [type[x]] is outside of the array when the loop was not left early. *)
Definition size_conv {S} (number : Z) : M S string :=
  let '(n, x) := size_loop size_types number 0 in
  match size_types !! x with
  | Some c => mret (vsnprintf 10 (print_unsigned n +:+ String c EmptyString))
  | None => stuck out_of_bounds
  end.

(** Division of [int] rounds towards zero. *)
Definition hr_uptime (time : Z) : string :=
  let sec := s32 time in
  let day := Z.quot sec (24 * 60 * 60) in
  let sec := Z.rem sec (24 * 60 * 60) in
  let hour := Z.quot sec (60 * 60) in
  let sec := Z.rem sec (60 * 60) in
  let min := Z.quot sec 60 in
  let sec := Z.rem sec 60 in
  let clock := print_02d hour +:+ ":" +:+ print_02d min +:+ ":" +:+ print_02d sec in
  if decide (day <> 0) then vsnprintf 25 (print_signed day +:+ "d " +:+ clock)
  else vsnprintf 25 clock.

(** [strncpy(name, p, size)] and [name[size - 1] = '\0']. *)
Definition strncpy_name (size : nat) (p : string) : string := String.substring 0 (size - 1) p.

(** The host name up to its first dot. *)
Definition short_hostname (p : string) : string :=
  (take_while (fun c => negb (Ascii.eqb c ".")) None (strncpy_name 15 p)).1.

(** * The screen *)

Inductive attr := COLOR_PAIR (n : Z) | A_BOLD | A_STANDOUT.

Inductive call :=
| Cmove (y x : Z)
| Cprintw (s : string)
| Cattron (a : attr)
| Cattroff (a : attr)
| Crefresh
| Cclear
| Cother (name : string) (args : list Z).   (* set-up and tear-down of the terminal *)

Definition emit (c : call) : M (list call) unit := modify (fun l => l ++ [c]).
Definition move (y x : Z) : M (list call) unit := emit (Cmove y x).
Definition printw (s : string) : M (list call) unit := emit (Cprintw s).
Definition attron (a : attr) : M (list call) unit := emit (Cattron a).
Definition attroff (a : attr) : M (list call) unit := emit (Cattroff a).
(** [if (c) { ... }] *)
Definition when (c : bool) (m : M (list call) unit) : M (list call) unit :=
  if c then m else mret tt.
Definition when_some {A} (o : option A) (m : A -> M (list call) unit) : M (list call) unit :=
  match o with Some a => m a | None => mret tt end.

(** The results of the library; an array comes with the number of its entries. *)
Record stats_t := mk_stats {
  st_cpu_percents : option sg_cpu_percents; st_mem_stats : option sg_mem_stats;
  st_swap_stats : option sg_swap_stats; st_load_stats : option sg_load_stats;
  st_process_count : option sg_process_count; st_page_stats : option sg_page_stats;
  st_network_io_stats : option (list sg_network_io_stats);
  st_disk_io_stats : option (list sg_disk_io_stats);
  st_fs_stats : option (list sg_fs_stats);
  st_host_info : option sg_host_info; st_user_stats : option (list sg_user_stats) }.

Definition no_stats : stats_t := mk_stats None None None None None None None None None None None.

Definition saidar_get_stats (lib : library) : stats_t :=
  mk_stats (lib_cpu_percents lib sg_new_diff_cpu_percent) (lib_mem_stats lib) (lib_swap_stats lib)
    (lib_load_stats lib) (lib_process_count lib) (lib_page_stats lib true)
    (lib_network_io_stats lib true) (lib_disk_io_stats lib true) (lib_fs_stats lib)
    (lib_host_info lib) (lib_user_stats lib).

Fixpoint labels (l : list (Z * Z * string)) : M (list call) unit :=
  match l with
  | [] => mret tt
  | (y, x, t) :: l' => move y x;; printw t;; labels l'
  end.

Definition display_headings (stats : stats_t) : M (list call) unit :=
  labels [(0, 0, "Hostname  :"); (0, 27, "Uptime : "); (0, 54, "Date : ")];;
  (* Load *)
  labels [(2, 0, "Load 1    :"); (3, 0, "Load 5    :"); (4, 0, "Load 15   :")];;
  (* CPU *)
  labels [(2, 21, "CPU Idle  :"); (3, 21, "CPU System:"); (4, 21, "CPU User  :")];;
  (* Process *)
  labels [(2, 42, "Running   :"); (3, 42, "Sleeping  :"); (4, 42, "Stopped   :");
          (2, 62, "Zombie    :"); (3, 62, "Total     :"); (4, 62, "No. Users :")];;
  (* Mem *)
  labels [(6, 0, "Mem Total :"); (7, 0, "Mem Used  :"); (8, 0, "Mem Free  :")];;
  (* Swap *)
  labels [(6, 21, "Swap Total:"); (7, 21, "Swap Used :"); (8, 21, "Swap Free :")];;
  (* VM *)
  labels [(6, 42, "Mem Used  :"); (7, 42, "Swap Used :"); (8, 42, "Total Used:")];;
  (* Paging *)
  labels [(6, 62, "Paging in :"); (7, 62, "Paging out:")];;
  (* Disk IO *)
  labels [(10, 0, "Disk Name"); (10, 15, "Read"); (10, 28, "Write")];;
  let line := 10 in
  (* Network IO *)
  line ← match st_network_io_stats stats with
         | Some l =>
             labels [(line, 42, "Network Interface"); (line, 67, "rx"); (line, 77, "tx")];;
             mret (line + 2 + Z.of_nat (length l))
         | None => mret line
         end;
  labels [(line, 42, "Mount Point"); (line, 65, "Free"); (line, 75, "Used")];;
  emit Crefresh.

(** ** The parts of display_data *)

Section display.
Context (colors : bool).

(** [now_text]: the local time as strftime prints it. *)
Definition display_host (now_text : string) (h : sg_host_info) : M (list call) unit :=
  move 0 12;;
  name ← read_ptr (hi_hostname h);
  let hostname := short_hostname name in
  when colors (attron (COLOR_PAIR 1));;
  printw hostname;;
  move 0 36;;
  printw (hr_uptime (hi_uptime h));;
  let cur_time := String.substring 0 19 now_text in
  move 0 61;;
  printw cur_time;;
  when colors (attroff (COLOR_PAIR 1)).

Definition load_differs (x y : double) : bool :=
  double_gt (SFabs (double_sub x y)) THRESHOLD_LOAD.

Definition print_62f (d : double) : string := pad_left 6 " " (print_2f d).

Definition display_load (l : sg_load_stats) : M (list call) unit :=
  when colors (attron (COLOR_PAIR 6));;
  move 2 12;;
  when (colors && load_differs (load_min1 l) (load_min5 l)) (attron A_BOLD);;
  printw (print_62f (load_min1 l));;
  when colors (attroff A_BOLD);;
  move 3 12;;
  when (colors && load_differs (load_min5 l) (load_min15 l)) (attron A_BOLD);;
  printw (print_62f (load_min5 l));;
  when colors (attroff A_BOLD);;
  move 4 12;;
  when (colors && load_differs (load_min1 l) (load_min15 l)) (attron A_BOLD);;
  printw (print_62f (load_min15 l));;
  when colors (attroff A_BOLD).

Definition display_cpu (p : sg_cpu_percents) : M (list call) unit :=
  move 2 33;;
  printw (print_62f (pct_idle p) +:+ "%");;
  move 3 33;;
  printw (print_62f (double_add (double_add (pct_kernel p) (pct_iowait p)) (pct_swap p)) +:+ "%");;
  move 4 33;;
  let busy := double_add (pct_user p) (pct_nice p) in
  (if colors && double_gt busy THRESHOLD_ALERT_CPU then attron A_STANDOUT;; attron A_BOLD
   else when (colors && double_gt busy THRESHOLD_WARN_CPU) (attron A_BOLD));;
  printw (print_62f busy +:+ "%");;
  when colors (attroff A_BOLD;; attroff A_STANDOUT;; attron (COLOR_PAIR 6)).

Definition print_5llu (z : Z) : string := pad_left 5 " " (print_unsigned z).

Definition display_process (pc : sg_process_count) : M (list call) unit :=
  move 2 54;;
  printw (print_5llu (pc_running pc));;
  move 2 74;;
  when (colors && (THRESHOLD_WARN_ZMB <? pc_zombie pc)) (attron A_STANDOUT;; attron A_BOLD);;
  printw (print_5llu (pc_zombie pc));;
  when colors (attroff A_STANDOUT;; attroff A_BOLD);;
  move 3 54;;
  printw (print_5llu (pc_sleeping pc));;
  move 3 74;;
  printw (print_5llu (pc_total pc));;
  move 4 54;;
  printw (print_5llu (pc_stopped pc)).

Definition display_user (users : list sg_user_stats) : M (list call) unit :=
  move 4 74;;
  printw (print_5llu (Z.of_nat (length users))).

(** [printw("%<w>s", size_conv(n))] *)
Definition print_size (w : nat) (n : Z) : M (list call) unit :=
  t ← size_conv n; printw (pad_left w " " t).

Definition display_mem (m : sg_mem_stats) : M (list call) unit :=
  move 6 12;; print_size 7 (mem_total m);;
  move 7 12;; print_size 7 (mem_used m);;
  move 8 12;; print_size 7 (mem_free m).

Definition display_swap (s : sg_swap_stats) : M (list call) unit :=
  move 6 32;; print_size 8 (swap_total s);;
  move 7 32;; print_size 8 (swap_used s);;
  move 8 32;; print_size 8 (swap_free s).

(** [100.00 * (float)used / total] *)
Definition used_percent (used total : Z) : double :=
  double_div (double_mul (double_of 100) (to_double (float_of used))) (double_of total).

Definition print_52f_percent (d : double) : string := pad_left 5 " " (print_2f d) +:+ "%".

(** One line of the VM part: memory on line 6, swap on line 7. *)
Definition display_vm_line (y used total : Z) (alert warn : double) : M (list call) unit :=
  when (negb (total =? 0))
    (let f := to_double (to_float (used_percent used total)) in
     (if colors && double_gt f alert then attron A_STANDOUT;; attron A_BOLD
      else when (colors && double_gt f warn) (attron A_BOLD));;
     move y 54;;
     printw (print_52f_percent f);;
     when colors (attroff A_STANDOUT;; attroff A_BOLD;; attron (COLOR_PAIR 5))).

Definition display_vm (mem : option sg_mem_stats) (swap : option sg_swap_stats)
    : M (list call) unit :=
  when_some mem (fun m =>
    display_vm_line 6 (mem_used m) (mem_total m) THRESHOLD_ALERT_MEM THRESHOLD_WARN_MEM);;
  when_some swap (fun s =>
    display_vm_line 7 (swap_used s) (swap_total s) THRESHOLD_ALERT_SWAP THRESHOLD_WARN_SWAP);;
  when_some mem (fun m => when_some swap (fun s =>
    when (negb (mem_total m =? 0) && negb (swap_total s =? 0))
      (move 8 54;;
       printw (print_52f_percent
                 (used_percent (u64 (mem_used m + swap_used s)) (u64 (mem_total m + swap_total s))))))).

(** A count per second; [systime] is the length of the interval, a [time_t]
    converted to [unsigned long long]. *)
Definition per_second (count systime : Z) : Z :=
  if decide (systime <> 0) then count / u64 systime else count.

Definition display_page (p : sg_page_stats) : M (list call) unit :=
  move 6 74;;
  printw (print_5llu (per_second (pages_pagein p) (page_systime p)));;
  move 7 74;;
  printw (print_5llu (per_second (pages_pageout p) (page_systime p))).

(** The loop over the disks: line and sums behind it; [r] and [w] are [long long]. *)
Fixpoint display_disks (l : list sg_disk_io_stats) (line r w : Z) : M (list call) (Z * Z * Z) :=
  match l with
  | [] => mret (line, r, w)
  | d :: l' =>
      n ← read_ptr (dio_disk_name d);
      let name := strncpy_name 12 n in
      move line 0;;
      printw name;;
      move line 12;;
      let rt := per_second (dio_read_bytes d) (dio_systime d) in
      when colors (attron (COLOR_PAIR 4));;
      print_size 7 rt;;
      let r := s64 (r + rt) in
      move line 26;;
      let wt := per_second (dio_write_bytes d) (dio_systime d) in
      print_size 7 wt;;
      let w := s64 (w + wt) in
      when colors (attroff (COLOR_PAIR 4));;
      display_disks l' (line + 1) r w
  end.

Definition display_disk_io (l : list sg_disk_io_stats) : M (list call) unit :=
  s ← display_disks l 11 0 0;
  let '(line, r, w) := s in
  let line := line + 1 in
  move line 0;;
  printw "Total";;
  move line 12;;
  when colors (attron (COLOR_PAIR 4));;
  print_size 7 (u64 r);;
  move line 26;;
  print_size 7 (u64 w);;
  when colors (attroff (COLOR_PAIR 4)).

Fixpoint display_network (l : list sg_network_io_stats) (line : Z) : M (list call) Z :=
  match l with
  | [] => mret line
  | n :: l' =>
      p ← read_ptr (nio_interface_name n);
      let name := strncpy_name 20 p in
      move line 42;;
      printw name;;
      move line 62;;
      let rt := per_second (nio_rx n) (nio_systime n) in
      when colors (attron (COLOR_PAIR 4));;
      print_size 7 rt;;
      move line 72;;
      let wt := per_second (nio_tx n) (nio_systime n) in
      print_size 7 wt;;
      when colors (attroff (COLOR_PAIR 4));;
      display_network l' (line + 1)
  end.

(** [(float) used / (float) (used + avail)] *)
Definition fs_used_pct (f : sg_fs_stats) : spec_float :=
  SFdiv 24 128 (float_of (fs_used f)) (float_of (u64 (fs_used f + fs_avail f))).

Fixpoint display_fs (l : list sg_fs_stats) (line : Z) : M (list call) unit :=
  match l with
  | [] => mret tt
  | f :: l' =>
      p ← read_ptr (fs_mnt_point f);
      let name := strncpy_name 20 p in
      move line 42;;
      printw name;;
      move line 62;;
      when colors (attron (COLOR_PAIR 2));;
      print_size 7 (fs_avail f);;
      move line 73;;
      let used_pct := fs_used_pct f in
      (if isnan used_pct then printw (pad_left 6 " " "-")
       else
         let used_pct := to_double (SFmul 24 128 used_pct (float_of 100)) in
         (if colors && double_gt used_pct THRESHOLD_ALERT_DISK then attron A_STANDOUT;; attron A_BOLD
          else when (colors && double_gt used_pct THRESHOLD_WARN_DISK) (attron A_BOLD));;
         printw (print_62f used_pct +:+ "%"));;
      when colors (attroff (COLOR_PAIR 2);; attroff A_STANDOUT;; attroff A_BOLD);;
      display_fs l' (line + 1)
  end.

Definition display_data (stats : stats_t) (now_text : string) : M (list call) unit :=
  when_some (st_host_info stats) (display_host now_text);;
  when_some (st_load_stats stats) display_load;;
  when_some (st_cpu_percents stats) display_cpu;;
  when_some (st_process_count stats) display_process;;
  when_some (st_user_stats stats) display_user;;
  when colors (attroff (COLOR_PAIR 6);; attron (COLOR_PAIR 5));;
  when_some (st_mem_stats stats) display_mem;;
  when_some (st_swap_stats stats) display_swap;;
  display_vm (st_mem_stats stats) (st_swap_stats stats);;
  when_some (st_page_stats stats) display_page;;
  when colors (attroff (COLOR_PAIR 5));;
  when_some (st_disk_io_stats stats) display_disk_io;;
  line ← match st_network_io_stats stats with
         | Some l => line ← display_network l 11; mret (line + 2)
         | None => mret 11
         end;
  when_some (st_fs_stats stats) (fun l => display_fs l line);;
  emit Crefresh.
End display.

(** * The list of file systems

    saidar.c repeats these functions of statgrab.c word for word. *)

Definition saidar_strndup : string -> M env char_ptr := strndup.
Definition saidar_push_item : list char_ptr -> char_ptr -> nat -> M env (list char_ptr) := push_item.
Definition saidar_is_spc : ascii -> bool := sg_is_spc.
Definition saidar_split_list : string -> M env (list char_ptr) := split_list.
Definition saidar_fsnmcmp : char_ptr -> char_ptr -> Z := fsnmcmp.
Definition saidar_set_valid_filesystems {mem : Memory} : string -> valid_fs -> M env valid_fs :=
  set_valid_filesystems.

(** * The program *)

(** The places of the main loop at which the handler of SIGWINCH can run: in
    [getch], before [time], before the flag is looked at, before the screen is
    cleared, before the headings are drawn, before the flag is reset and before the
    data is drawn. The handler only sets the flag, which the functions between two
    places do not look at: a signal that arrives while one of them runs has the same
    effect as one before or behind it. *)
Inductive place := AtGetch | AtTime | AtCheck | AtClear | AtHeadings | AtReset | AtDisplay | AtExit.

#[export] Instance place_eq_dec : EqDecision place.
Proof. solve_decision. Defined.

Record saidar := mk_saidar {
  sd_place : place; sd_stats : stats_t; sd_last_update : Z;
  sd_winch_flag : bool; sd_calls : list call }.

Definition at_place (p : place) (s : saidar) : saidar :=
  mk_saidar p (sd_stats s) (sd_last_update s) (sd_winch_flag s) (sd_calls s).

Definition sig_winch_handler (s : saidar) : saidar :=
  mk_saidar (sd_place s) (sd_stats s) (sd_last_update s) true (sd_calls s).

Definition draw {A} (m : M (list call) A) : M saidar A :=
  zoom sd_calls (fun l s => mk_saidar (sd_place s) (sd_stats s) (sd_last_update s) (sd_winch_flag s) l) m.

(** What the outside delivers to a step: the key [getch] returns (-1 when the
    time ran out), the clock, its text and the statistics of that moment. *)
Record input := mk_input { in_ch : Z; in_now : Z; in_text : string; in_lib : library }.

Definition KEY_q : Z := 113.

(** [if ((now - last_update) >= 1) get_stats(); last_update = now;] *)
Definition update_stats (i : input) (s : saidar) : saidar :=
  mk_saidar (sd_place s)
    (if 1 <=? in_now i - sd_last_update s then saidar_get_stats (in_lib i) else sd_stats s)
    (in_now i) (sd_winch_flag s) (sd_calls s).

(** One step of [for(;;)]. *)
Definition loop_step (colouron : bool) (i : input) : M saidar unit :=
  p ← gets sd_place;
  match p with
  | AtGetch =>
      if in_ch i =? KEY_q then
        draw (emit (Cother "endwin" []);; emit (Cother "sg_shutdown" []));; modify (at_place AtExit)
      else modify (at_place AtTime)
  | AtTime => modify (update_stats i);; modify (at_place AtCheck)
  | AtCheck =>
      f ← gets sd_winch_flag;
      modify (at_place (if (f : bool) then AtClear else AtDisplay))
  | AtClear => draw (emit Cclear);; modify (at_place AtHeadings)
  | AtHeadings =>
      st ← gets sd_stats;
      draw (display_headings st);; modify (at_place AtReset)
  | AtReset =>
      modify (fun s => mk_saidar AtDisplay (sd_stats s) (sd_last_update s) false (sd_calls s))
  | AtDisplay =>
      st ← gets sd_stats;
      draw (display_data colouron st (in_text i));; modify (at_place AtGetch)
  | AtExit => mret tt
  end.

(** An option as [getopt] delivers it; [None]: the program exits. There is no
    case for [F], which [getopt] accepts. *)
Definition saidar_option (c : ascii) (optarg : string) (delay : Z) (colouron : bool)
    : option (Z * bool) :=
  match c with
  | "d"%char =>
      let delay := s32 (libc_atoll optarg) in
      if delay <? 1 then None else Some (delay, colouron)
  | "c"%char => Some (delay, true)
  | _ => None
  end.

Fixpoint saidar_options (l : list (ascii * string)) (delay : Z) (colouron : bool)
    : option (Z * bool) :=
  match l with
  | [] => Some (delay, colouron)
  | (c, optarg) :: l' =>
      match saidar_option c optarg delay colouron with
      | Some (d, c) => saidar_options l' d c
      | None => None
      end
  end.

Definition init_pairs : list call :=
  [Cother "start_color" []; Cother "use_default_colors" [];
   Cother "init_pair" [1; 1; -1]; Cother "init_pair" [2; 2; -1]; Cother "init_pair" [3; 3; -1];
   Cother "init_pair" [4; 4; -1]; Cother "init_pair" [5; 5; -1]; Cother "init_pair" [6; 6; -1]].

(** [main] up to the loop: the colours, the file systems and the loop's first
    state. [colours] is the answer of [has_colors]. The result of [get_stats] is
    always 1. *)
Definition saidar_main {mem : Memory} (opts : list (ascii * string)) (dropped colours : bool)
    (vf : valid_fs) (lib : library) : M env (valid_fs * bool * saidar) :=
  if negb dropped then die
  else
    match saidar_options opts 2 false with
    | None => die
    | Some (delay, colouron) =>
        vf' ← saidar_set_valid_filesystems default_fslist vf;
        let colouron := colouron && colours in
        if decide (in_s32 (delay * 1000)) then
          let st := saidar_get_stats lib in
          let calls := [Cother "initscr" []] ++ (if colouron then init_pairs else []) ++
            [Cother "nonl" []; Cother "curs_set" [0]; Cother "cbreak" []; Cother "noecho" [];
             Cother "timeout" [delay * 1000]; Cother "newwin" [0; 0; 0; 0]; Cclear] in
          match display_headings st calls with
          | Done _ calls' => mret (vf', colouron, mk_saidar AtGetch st 0 false calls')
          | Stuck f => stuck f
          end
        else stuck undefined_op
    end.
