(* ===== verification/SaidarProps.v ===== *)
(** Theorems about the saidar command: the texts of sizes and times, the attributes
    of the screen, the table of disks, and the main loop with its signal. *)

From S2P Require Import Prelude Types CLib Errors Tools Vector Items Stdio ScanFields ToolsExt Single Disk Statgrab Saidar Demo.

(** * Lengths of texts *)

Lemma length_replicate_text n c :
  String.length (String.string_of_list_ascii (replicate n c)) = n.
Proof. induction n as [|n IH]; [done|]. exact (f_equal S IH). Qed.

Lemma pad_left_length w c s : String.length (pad_left w c s) = Nat.max w (String.length s).
Proof. unfold pad_left. rewrite string_length_app, length_replicate_text. lia. Qed.

(** * Sizes *)

(** What [size_conv] shows of [n]: the count of units and the unit, the first one
    in which the count stays below 100 times the next unit. *)
Definition shown_size (n m : Z) (x : nat) : Prop :=
  m = n / 1024 ^ Z.of_nat x /\ m < 102400 /\
  (x <> O -> 102400 <= n / 1024 ^ (Z.of_nat x - 1)).

Lemma size_loop_spec n types : forall x m,
  0 <= n -> m = n / 1024 ^ Z.of_nat x -> n < 102400 * 1024 ^ Z.of_nat (x + pred (length types)) ->
  (0 < length types)%nat -> (x <> O -> 102400 <= n / 1024 ^ (Z.of_nat x - 1)) ->
  let r := size_loop types m x in
  shown_size n r.1 r.2 /\ (r.2 < x + length types)%nat.
Proof.
  induction types as [|c types IH]; intros x m Hn -> Hmax Hlen Hprev; [simpl in *; lia|].
  cbn [size_loop].
  assert (0 < 1024 ^ Z.of_nat x) as Hp by (apply Z.pow_pos_nonneg; lia).
  destruct (Z.ltb_spec (n / 1024 ^ Z.of_nat x / 1024) 100) as [Hlt|Hge].
  - cbn. split; [|lia]. split; [done|]. split; [|done].
    pose proof (Z.div_mod (n / 1024 ^ Z.of_nat x) 1024). pose proof (Z.mod_pos_bound (n / 1024 ^ Z.of_nat x) 1024). lia.
  - assert (102400 <= n / 1024 ^ Z.of_nat x) as Hbig.
    { pose proof (Z.div_mod (n / 1024 ^ Z.of_nat x) 1024).
      pose proof (Z.mod_pos_bound (n / 1024 ^ Z.of_nat x) 1024). lia. }
    destruct types as [|c' types].
    { exfalso. simpl in Hmax. rewrite Nat.add_0_r in Hmax.
      assert (n / 1024 ^ Z.of_nat x < 102400) by (apply Z.div_lt_upper_bound; lia). lia. }
    destruct (IH (S x) (n / 1024 ^ Z.of_nat x / 1024)) as [E L]; try done.
    + rewrite Z.div_div, Nat2Z.inj_succ, Z.pow_succ_r by lia. f_equal. lia.
    + cbn [length pred] in *. by replace (S x + length types)%nat with (x + S (length types))%nat by lia.
    + simpl; lia.
    + intros _. by replace (Z.of_nat (S x) - 1) with (Z.of_nat x) by lia.
    + split; [done | cbn [length] in *; lia].
Qed.

(** [size_conv] shows every 64-bit number: the unit is always one of the six
    of the table, the text has at most seven characters, so that neither the buffer
    of ten nor the field of seven overflows, and the number lies between the
    shown count of units and the next one. *)
Theorem size_conv_shows {S} n (s : S) :
  in_u64 n ->
  wp (size_conv n) (fun t s' =>
    exists m x c, size_types !! x = Some c /\ t = print_unsigned m +:+ String c EmptyString /\
      shown_size n m x /\ m * 1024 ^ Z.of_nat x <= n < (m + 1) * 1024 ^ Z.of_nat x /\
      (String.length t <= 7)%nat /\ s' = s) s.
Proof.
  intros [Hn0 Hn1].
  destruct (size_loop_spec n size_types 0 n) as [(Em & Hm & Hx) Hl]; try done.
  { by rewrite Z.div_1_r. }
  { simpl. lia. }
  { simpl. lia. }
  unfold size_conv. destruct (size_loop size_types n 0) as [m x]. simpl in *.
  destruct (lookup_lt_is_Some_2 size_types x) as [c Hc]; [simpl; lia|]. rewrite Hc.
  assert (0 < 1024 ^ Z.of_nat x) as Hp by (apply Z.pow_pos_nonneg; lia).
  assert (0 <= m) as Hm0 by (subst m; apply Z.div_pos; lia).
  assert (String.length (print_unsigned m +:+ String c EmptyString) <= 7)%nat as Hlen.
  { rewrite string_length_app. pose proof (print_unsigned_length 6 m). simpl in *. lia. }
  apply wp_ret. exists m, x, c. rewrite vsnprintf_fits by lia. split_and!; try done.
  - subst m. rewrite Z.mul_comm. by apply Z.mul_div_le.
  - subst m. rewrite Z.mul_comm. by apply Z.mul_succ_div_gt.
Qed.

Lemma size_conv_shows_witness :
  in_u64 (2 ^ 64 - 1) /\ size_conv (2 ^ 64 - 1) tt = Done "16383P" tt /\
  wp (size_conv (2 ^ 64 - 1)) (fun t s' =>
    exists m x c, size_types !! x = Some c /\ t = print_unsigned m +:+ String c EmptyString /\
      shown_size (2 ^ 64 - 1) m x /\ m * 1024 ^ Z.of_nat x <= 2 ^ 64 - 1 < (m + 1) * 1024 ^ Z.of_nat x /\
      (String.length t <= 7)%nat /\ s' = tt) tt.
Proof.
  split; [vm_compute; split; congruence|]. split; [reflexivity|].
  apply (size_conv_shows (2 ^ 64 - 1) tt). vm_compute; split; congruence.
Defined.

(** * Times *)

Lemma print_02d_length z : 0 <= z < 100 -> String.length (print_02d z) = 2%nat.
Proof.
  intros Hz. unfold print_02d. destruct (Z.ltb_spec z 0); [lia|].
  rewrite pad_left_length. pose proof (print_unsigned_length 2 z). lia.
Qed.

(** The clock of [hr_uptime]. *)
Definition clock_text (h m s : Z) : string :=
  print_02d h +:+ ":" +:+ print_02d m +:+ ":" +:+ print_02d s.

Lemma clock_text_length h m s :
  0 <= h < 24 -> 0 <= m < 60 -> 0 <= s < 60 -> String.length (clock_text h m s) = 8%nat.
Proof.
  intros Hh Hm Hs. unfold clock_text. rewrite !string_length_app, !print_02d_length by lia. done.
Qed.

(** For every time the 32-bit counter can hold [hr_uptime] shows days, hours,
    minutes and seconds that are in their ranges and add up to the time; days are
    left out when there are none, and nothing is cut off by the buffer of 25. *)
Theorem hr_uptime_exact t :
  0 <= t < 2 ^ 31 ->
  exists d h m s, t = ((d * 24 + h) * 60 + m) * 60 + s /\
    0 <= h < 24 /\ 0 <= m < 60 /\ 0 <= s < 60 /\
    hr_uptime t = (if decide (d = 0) then clock_text h m s
                   else print_unsigned d +:+ "d " +:+ clock_text h m s).
Proof.
  intros Ht. unfold hr_uptime. rewrite swrap_small by (simpl in *; lia).
  set (d := Z.quot t _). set (r := Z.rem t _). set (h := Z.quot r _). set (r' := Z.rem r _).
  set (m := Z.quot r' _). set (s := Z.rem r' _). fold (clock_text h m s).
  assert (t = 86400 * d + r /\ 0 <= r < 86400 /\ 0 <= d) as (Ed & Hr & Hd).
  { subst d r. rewrite Z.quot_div_nonneg, Z.rem_mod_nonneg by lia.
    pose proof (Z.div_mod t (24 * 60 * 60)). pose proof (Z.mod_pos_bound t (24 * 60 * 60)).
    pose proof (Z.div_pos t (24 * 60 * 60)). lia. }
  assert (r = 3600 * h + r' /\ 0 <= r' < 3600 /\ 0 <= h) as (Eh & Hr' & Hh).
  { subst h r'. rewrite Z.quot_div_nonneg, Z.rem_mod_nonneg by lia.
    pose proof (Z.div_mod r (60 * 60)). pose proof (Z.mod_pos_bound r (60 * 60)).
    pose proof (Z.div_pos r (60 * 60)). lia. }
  assert (r' = 60 * m + s /\ 0 <= s < 60 /\ 0 <= m) as (Em & Hs & Hm).
  { subst m s. rewrite Z.quot_div_nonneg, Z.rem_mod_nonneg by lia.
    pose proof (Z.div_mod r' 60). pose proof (Z.mod_pos_bound r' 60).
    pose proof (Z.div_pos r' 60). lia. }
  assert (String.length (clock_text h m s) = 8%nat) as Hc by (apply clock_text_length; lia).
  assert (d < 10 ^ 10) as Hd' by (simpl in *; lia).
  exists d, h, m, s. split; [lia|]. repeat (split; [lia|]). clearbody d h m s. clear Ed Eh Em.
  destruct (decide (d = 0)) as [->|E]; simpl.
  - rewrite vsnprintf_fits; [done | lia].
  - destruct (decide (d <> 0)); [|done].
    assert (print_signed d = print_unsigned d) as -> by (unfold print_signed; destruct (Z.ltb_spec d 0); [lia|done]).
    pose proof (print_unsigned_length 10 d ltac:(lia) (conj Hd Hd')).
    apply vsnprintf_fits. rewrite !string_length_app, Hc. simpl. lia.
Qed.

Lemma hr_uptime_exact_witness :
  hr_uptime 100000 = "1d 03:46:40" /\
  exists d h m s, 100000 = ((d * 24 + h) * 60 + m) * 60 + s /\
    0 <= h < 24 /\ 0 <= m < 60 /\ 0 <= s < 60 /\
    hr_uptime 100000 = (if decide (d = 0) then clock_text h m s
                        else print_unsigned d +:+ "d " +:+ clock_text h m s).
Proof. split; [reflexivity|]. apply (hr_uptime_exact 100000). lia. Defined.

(** * Attributes of the screen *)

(** The attributes curses draws with: a colour pair (0 is none), bold, standout. *)
Record attrs := mk_attrs { at_pair : Z; at_bold : bool; at_standout : bool }.

Definition plain : attrs := mk_attrs 0 false false.

Definition attr_step (a : attrs) (c : call) : attrs :=
  match c with
  | Cattron (COLOR_PAIR n) => mk_attrs n (at_bold a) (at_standout a)
  | Cattron A_BOLD => mk_attrs (at_pair a) true (at_standout a)
  | Cattron A_STANDOUT => mk_attrs (at_pair a) (at_bold a) true
  | Cattroff (COLOR_PAIR n) =>
      mk_attrs (if at_pair a =? n then 0 else at_pair a) (at_bold a) (at_standout a)
  | Cattroff A_BOLD => mk_attrs (at_pair a) false (at_standout a)
  | Cattroff A_STANDOUT => mk_attrs (at_pair a) (at_bold a) false
  | _ => a
  end.

Definition attrs_of (l : list call) : attrs := foldl attr_step plain l.

Definition is_attr (c : call) : Prop :=
  match c with Cattron _ | Cattroff _ => True | _ => False end.

#[export] Instance is_attr_dec c : Decision (is_attr c).
Proof. destruct c; apply _. Defined.

Lemma attrs_of_snoc l c : attrs_of (l ++ [c]) = attr_step (attrs_of l) c.
Proof. unfold attrs_of. by rewrite foldl_app. Qed.

(** With colours the screen has one of the pairs [ps] and no other attribute;
    without, no attribute was touched since [l0]. *)
Definition clean (colors : bool) (ps : list Z) (l0 l : list call) : Prop :=
  if colors then (exists p, p ∈ ps /\ attrs_of l = mk_attrs p false false)
  else filter is_attr l = filter is_attr l0.

Definition keeps_clean {A} (colors : bool) (ps qs : list Z) (m : M (list call) A) : Prop :=
  forall l0 l, clean colors ps l0 l -> wp m (fun _ l' => clean colors qs l0 l') l.

Lemma keeps_clean_bind {A B} colors ps qs rs (m : M (list call) A) (f : A -> M (list call) B) :
  keeps_clean colors ps qs m -> (forall a, keeps_clean colors qs rs (f a)) ->
  keeps_clean colors ps rs (m ≫= f).
Proof.
  intros Hm Hf l0 l H. apply wp_bind. eapply wp_mono; [by apply Hm|].
  intros a l' H'. by apply Hf.
Qed.

Lemma keeps_clean_ret {A} colors ps (a : A) : keeps_clean colors ps ps (mret a).
Proof. by intros l0 l H. Qed.

(** A call that is not about attributes. *)
Lemma keeps_clean_emit colors ps c : ~ is_attr c -> keeps_clean colors ps ps (emit c).
Proof.
  intros Hc l0 l H. apply wp_modify. destruct colors; simpl in *.
  - destruct H as (p & Hp & E). exists p. split; [done|]. rewrite attrs_of_snoc, E. by destruct c.
  - rewrite filter_app, H, filter_cons_False by done. apply app_nil_r.
Qed.

Lemma keeps_clean_when_some {A} colors ps (o : option A) f :
  (forall a, o = Some a -> keeps_clean colors ps ps (f a)) -> keeps_clean colors ps ps (when_some o f).
Proof. intros H. destruct o as [a|]; [by apply H | apply keeps_clean_ret]. Qed.

Lemma keeps_clean_read colors ps s : keeps_clean colors ps ps (read_ptr (CStr s)).
Proof. apply keeps_clean_ret. Qed.

(** A bracket of attributes around calls of other kinds: without colours it does
    nothing, with colours the end is found by running it on the attributes. *)
Lemma keeps_clean_colors colors ps qs (m : M (list call) unit) :
  (colors = false -> keeps_clean colors ps qs m) ->
  (colors = true -> forall l p, p ∈ ps -> attrs_of l = mk_attrs p false false ->
    wp m (fun _ l' => exists q, q ∈ qs /\ attrs_of l' = mk_attrs q false false) l) ->
  keeps_clean colors ps qs m.
Proof.
  intros H0 H1. destruct colors; [|by apply H0]. intros l0 l (p & Hp & E).
  by apply (H1 eq_refl l p).
Qed.

Lemma wp_emit c (Q : unit -> list call -> Prop) l : Q tt (l ++ [c]) -> wp (emit c) Q l.
Proof. done. Qed.

Lemma wp_print_size w n (Q : unit -> list call -> Prop) l :
  in_u64 n -> (forall t, (String.length t <= 7)%nat -> size_conv n l = Done t l ->
               Q tt (l ++ [Cprintw (pad_left w " " t)])) ->
  wp (print_size w n) Q l.
Proof.
  intros Hn HQ. apply wp_bind. pose proof (size_conv_shows n l Hn) as H. unfold wp in *.
  destruct (size_conv n l) as [t s'|] eqn:E; [|done].
  destruct H as (m & x & c & _ & _ & _ & _ & Ht & ->). by apply HQ.
Qed.

Lemma keeps_clean_print_size colors ps w n : in_u64 n -> keeps_clean colors ps ps (print_size w n).
Proof.
  intros Hn l0 l H. apply wp_print_size; [done|]. intros t _ _. refine (keeps_clean_emit colors ps (Cprintw _) _ l0 l H). by intros [].
Qed.

Lemma per_second_u64 c t : in_u64 c -> in_u64 (per_second c t).
Proof.
  intros Hc. unfold per_second. destruct (decide _); [|done]. pose proof (u64_range t) as [H0 _].
  destruct (decide (u64 t = 0)) as [->|]; [rewrite Z.div_0_r; done|].
  destruct Hc. split; [apply Z.div_pos; lia|].
  apply Z.div_lt_upper_bound; [lia|]. nia.
Qed.

(** Calls and tests that leave the attributes alone. *)
Ltac quiet_step :=
  lazymatch goal with
  | |- keeps_clean _ _ _ (_ ≫= _) => eapply keeps_clean_bind; [|intros ?]
  | |- keeps_clean _ _ _ (mret _) => apply keeps_clean_ret
  | |- keeps_clean _ _ _ (move _ _) => apply keeps_clean_emit; by intros []
  | |- keeps_clean _ _ _ (printw _) => apply keeps_clean_emit; by intros []
  | |- keeps_clean _ _ _ (print_size _ _) => apply keeps_clean_print_size; by auto using per_second_u64
  end.

(** Runs a bracket on the attributes. *)
Ltac bracket_step :=
  lazymatch goal with
  | |- wp (_ ≫= _) _ _ => apply wp_bind
  | |- wp (mret _) _ _ => apply wp_ret
  | |- wp (print_size _ _) _ _ =>
      apply wp_print_size; [by auto using per_second_u64 | intros ? ? ?]
  | |- wp (when _ _) _ _ => unfold when
  | |- wp (if ?b then _ else _) _ _ => destruct b
  | |- wp _ _ _ => apply wp_emit
  end.
Ltac bracket := repeat (bracket_step; cbn [andb]); rewrite ?attrs_of_snoc.

(** ** What can be drawn *)

Definition readable (p : char_ptr) : Prop := exists s, p = CStr s.

(** The numbers are within their types and the names can be read. *)
Record drawable (st : stats_t) : Prop := {
  dr_host h : st_host_info st = Some h -> readable (hi_hostname h);
  dr_mem m : st_mem_stats st = Some m ->
    in_u64 (mem_total m) /\ in_u64 (mem_used m) /\ in_u64 (mem_free m);
  dr_swap s : st_swap_stats st = Some s ->
    in_u64 (swap_total s) /\ in_u64 (swap_used s) /\ in_u64 (swap_free s);
  dr_disk l : st_disk_io_stats st = Some l -> Forall (fun d =>
    readable (dio_disk_name d) /\ in_u64 (dio_read_bytes d) /\ in_u64 (dio_write_bytes d)) l;
  dr_network l : st_network_io_stats st = Some l -> Forall (fun n =>
    readable (nio_interface_name n) /\ in_u64 (nio_rx n) /\ in_u64 (nio_tx n)) l;
  dr_fs l : st_fs_stats st = Some l -> Forall (fun f =>
    readable (fs_mnt_point f) /\ in_u64 (fs_avail f)) l }.

(** The colour pairs do not matter without colours. *)
Lemma keeps_clean_mono {A} ps qs (m : M (list call) A) :
  keeps_clean false [] [] m -> keeps_clean false ps qs m.
Proof. done. Qed.

(** Without colours every call is of another kind; with colours the part is run on
    each of the pairs it may start with. *)
Ltac clean_part :=
  apply keeps_clean_colors; intros ->; cbn [when andb read_ptr];
  [ apply keeps_clean_mono; repeat (quiet_step; cbn zeta)
  | let Hp := fresh in let El := fresh in let p := fresh in intros ? p Hp El; cbn zeta; bracket; rewrite ?El; cbn;
    rewrite ?elem_of_cons, ?elem_of_nil in Hp; destruct_or? Hp; try done; subst p;
    eexists; (split; [|reflexivity]); set_solver ].

Lemma host_clean colors text h :
  readable (hi_hostname h) -> keeps_clean colors [0] [0] (display_host colors text h).
Proof. intros [s E]. unfold display_host. rewrite E. clean_part. Qed.

Lemma load_clean colors ls : keeps_clean colors [0; 6] [0; 6] (display_load colors ls).
Proof. unfold display_load. clean_part. Qed.

Lemma cpu_clean colors pct : keeps_clean colors [0; 6] [0; 6] (display_cpu colors pct).
Proof. unfold display_cpu. clean_part. Qed.

Lemma process_clean colors pc : keeps_clean colors [0; 6] [0; 6] (display_process colors pc).
Proof. unfold display_process. clean_part. Qed.

Lemma user_clean colors ps us : keeps_clean colors ps ps (display_user us).
Proof. unfold display_user. repeat quiet_step. Qed.

Lemma mem_clean colors ps m :
  in_u64 (mem_total m) /\ in_u64 (mem_used m) /\ in_u64 (mem_free m) ->
  keeps_clean colors ps ps (display_mem m).
Proof. intros (? & ? & ?). unfold display_mem. repeat quiet_step. Qed.

Lemma swap_clean colors ps s :
  in_u64 (swap_total s) /\ in_u64 (swap_used s) /\ in_u64 (swap_free s) ->
  keeps_clean colors ps ps (display_swap s).
Proof. intros (? & ? & ?). unfold display_swap. repeat quiet_step. Qed.

Lemma vm_line_clean colors y used total alert warn :
  keeps_clean colors [5] [5] (display_vm_line colors y used total alert warn).
Proof.
  unfold display_vm_line. destruct (negb _); cbn [when]; [|apply keeps_clean_ret]. clean_part.
Qed.

Lemma vm_clean colors mem swap : keeps_clean colors [5] [5] (display_vm colors mem swap).
Proof.
  unfold display_vm. do 2 (eapply keeps_clean_bind;
    [apply keeps_clean_when_some; intros; apply vm_line_clean | intros _]).
  do 2 (apply keeps_clean_when_some; intros). destruct (_ && _); cbn [when]; repeat quiet_step.
Qed.

Lemma page_clean colors ps p : keeps_clean colors ps ps (display_page p).
Proof. unfold display_page. repeat quiet_step. Qed.

(** A row of a table: [rest] are the rows behind it. *)
Ltac clean_row rest :=
  lazymatch goal with
  | |- keeps_clean ?colors _ _ _ =>
      destruct colors; cbn [when andb read_ptr];
      [ let Hp := fresh in let El := fresh in
        intros ? ? (? & Hp%list_elem_of_singleton & El); subst; cbn zeta;
        bracket; refine (rest _ _ _); exists 0; (split; [set_solver|]);
        rewrite ?attrs_of_snoc, El; reflexivity
      | repeat (quiet_step; cbn zeta); apply rest ]
  end.

Lemma disks_clean colors l : forall line r w,
  Forall (fun d => readable (dio_disk_name d) /\ in_u64 (dio_read_bytes d) /\ in_u64 (dio_write_bytes d)) l ->
  keeps_clean colors [0] [0] (display_disks colors l line r w).
Proof.
  induction l as [|d l IH]; intros line r w H; [apply keeps_clean_ret|].
  apply Forall_cons in H as [([s E] & Hr & Hw) H]. cbn [display_disks]. rewrite E.
  clean_row (IH (line + 1) (s64 (r + per_second (dio_read_bytes d) (dio_systime d)))
               (s64 (w + per_second (dio_write_bytes d) (dio_systime d))) H).
Qed.

Lemma disk_io_clean colors l :
  Forall (fun d => readable (dio_disk_name d) /\ in_u64 (dio_read_bytes d) /\ in_u64 (dio_write_bytes d)) l ->
  keeps_clean colors [0] [0] (display_disk_io colors l).
Proof.
  intros H. eapply keeps_clean_bind; [by apply disks_clean | intros [[line r] w]].
  cbn zeta. pose proof (u64_range r). pose proof (u64_range w). clean_part.
Qed.

Lemma network_clean colors l : forall line,
  Forall (fun n => readable (nio_interface_name n) /\ in_u64 (nio_rx n) /\ in_u64 (nio_tx n)) l ->
  keeps_clean colors [0] [0] (display_network colors l line).
Proof.
  induction l as [|n l IH]; intros line H; [apply keeps_clean_ret|].
  apply Forall_cons in H as [([s E] & Hr & Hw) H]. cbn [display_network]. rewrite E.
  clean_row (IH (line + 1) H).
Qed.

Lemma fs_clean colors l : forall line,
  Forall (fun f => readable (fs_mnt_point f) /\ in_u64 (fs_avail f)) l ->
  keeps_clean colors [0] [0] (display_fs colors l line).
Proof.
  induction l as [|f l IH]; intros line H; [apply keeps_clean_ret|].
  apply Forall_cons in H as [([s E] & Ha) H]. cbn [display_fs]. rewrite E.
  destruct (isnan (fs_used_pct f)); clean_row (IH (line + 1) H).
Qed.

Lemma when_colors_clean colors ps qs (m : M (list call) unit) :
  (forall l p, p ∈ ps -> attrs_of l = mk_attrs p false false ->
    wp m (fun _ l' => exists q, q ∈ qs /\ attrs_of l' = mk_attrs q false false) l) ->
  keeps_clean colors ps qs (when colors m).
Proof.
  intros H. apply keeps_clean_colors; intros ->; cbn [when]; [|exact H].
  apply keeps_clean_mono, keeps_clean_ret.
Qed.

Lemma keeps_clean_weaken {A} colors ps qs rs (m : M (list call) A) :
  ps ⊆ qs -> keeps_clean colors qs rs m -> keeps_clean colors ps rs m.
Proof.
  intros Hsub H l0 l C. apply H. destruct colors; [|done].
  destruct C as (p & Hp & E). exists p. split; [by apply Hsub|done].
Qed.

(** An optional part of the screen and what follows. *)
Ltac clean_opt part :=
  eapply keeps_clean_bind;
  [apply keeps_clean_when_some; intros ? ?; apply part; by auto | intros _].

Lemma display_data_clean colors st text :
  drawable st -> keeps_clean colors [0] [0] (display_data colors st text).
Proof.
  intros []. unfold display_data. clean_opt host_clean.
  apply (keeps_clean_weaken _ _ [0; 6]); [set_solver|].
  clean_opt load_clean. clean_opt cpu_clean. clean_opt process_clean. clean_opt user_clean.
  apply (keeps_clean_bind _ _ [5]); [|intros _].
  { apply when_colors_clean. intros l' p Hp El. bracket. rewrite El.
    rewrite !elem_of_cons in Hp. exists 5. destruct_or! Hp; subst; set_solver. }
  clean_opt mem_clean. clean_opt swap_clean. eapply keeps_clean_bind; [apply vm_clean | intros _].
  clean_opt page_clean.
  apply (keeps_clean_bind _ _ [0]); [|intros _].
  { apply when_colors_clean. intros l' p ->%list_elem_of_singleton El. bracket. rewrite El. exists 0. set_solver. }
  clean_opt disk_io_clean.
  apply (keeps_clean_bind _ _ [0]); [|intros line; clean_opt fs_clean; apply keeps_clean_emit; by intros []].
  destruct (st_network_io_stats st) as [n|]; [|apply keeps_clean_ret].
  eapply keeps_clean_bind; [by apply network_clean; auto | intros; apply keeps_clean_ret].
Qed.

(** From a screen without attributes [display_data] draws everything it was given
    and leaves a screen without attributes, so that headings and the next round are
    drawn plain; without colours it does not touch the attributes at all. *)
Theorem display_leaves_no_attributes colors st text l :
  drawable st -> (colors = true -> attrs_of l = plain) ->
  wp (display_data colors st text) (fun _ l' =>
    if colors then attrs_of l' = plain else filter is_attr l' = filter is_attr l) l.
Proof.
  intros H Hl.
  eapply wp_mono; [apply (display_data_clean colors st text H l)|].
  - destruct colors; [|done]. exists 0. split; [set_solver | by apply Hl].
  - intros ? l' C. destruct colors; [|done]. destruct C as (p & Hp & E).
    apply list_elem_of_singleton in Hp. by subst p.
Qed.

Definition demo_stats : stats_t :=
  mk_stats (Some (mk_cpu_percents (double_of 95) (double_of 1) (double_of 4) (double_of 0) (double_of 0)
                    (double_of 0) 1))
    (Some (mk_mem_stats 1000000 60000 940000 0 1)) (Some (mk_swap_stats 0 0 0 1))
    (Some (mk_load_stats (double_of 5) (double_of 1) (double_of 1) 1))
    (Some (mk_process_count 3 1 1 0 1 0 1)) (Some (mk_page_stats 10 20 2))
    (Some [mk_network_io_stats (CStr "eth0") 7 8 0 0 0 0 0 1])
    (Some [mk_disk_io_stats (CStr "sda") 1000000 5 2; mk_disk_io_stats (CStr "a-very-long-name") 24 7 1])
    None (Some (mk_host_info CNull CNull CNull CNull (CStr "host.example.org") 64 sg_unknown_configuration 1 1
                  90061 1)) None.

Lemma demo_stats_drawable : drawable demo_stats.
Proof.
  constructor; intros ? [= <-]; cbn; repeat constructor; try (vm_compute; congruence); by eexists.
Qed.

Lemma display_leaves_no_attributes_witness :
  wp (display_data true demo_stats "2020-01-01 00:00:00") (fun _ l' => attrs_of l' = plain) [].
Proof.
  apply (display_leaves_no_attributes true demo_stats "2020-01-01 00:00:00" []);
    [exact demo_stats_drawable | reflexivity].
Defined.

(** * The table of disks *)

(** The cursor and the texts drawn so far with their positions. *)
Record screen := mk_screen { sc_y : Z; sc_x : Z; sc_texts : list (Z * Z * string) }.

Definition screen_step (s : screen) (c : call) : screen :=
  match c with
  | Cmove y x => mk_screen y x (sc_texts s)
  | Cprintw t =>
      mk_screen (sc_y s) (sc_x s + Z.of_nat (String.length t)) (sc_texts s ++ [(sc_y s, sc_x s, t)])
  | Cclear => mk_screen 0 0 []
  | _ => s
  end.

Definition screen_of (l : list call) : screen := foldl screen_step (mk_screen 0 0 []) l.

Lemma screen_of_snoc l c : screen_of (l ++ [c]) = screen_step (screen_of l) c.
Proof. unfold screen_of. by rewrite foldl_app. Qed.

(** The field of seven characters in which a size is shown. *)
Definition size_field (n : Z) : string :=
  match size_conv n tt with Done t _ => pad_left 7 " " t | Stuck _ => EmptyString end.

Lemma print_size_field n (Q : unit -> list call -> Prop) l :
  in_u64 n -> Q tt (l ++ [Cprintw (size_field n)]) -> wp (print_size 7 n) Q l.
Proof.
  intros Hn HQ. apply wp_print_size; [done|]. intros t _ E.
  enough (pad_left 7 " " t = size_field n) as -> by done.
  unfold size_field. unfold size_conv in *. destruct (size_loop _ _ _) as [m x].
  destruct (size_types !! x); [|done]. by injection E as ->.
Qed.

Lemma size_field_length n : in_u64 n -> String.length (size_field n) = 7%nat.
Proof.
  intros Hn. unfold size_field. pose proof (size_conv_shows n tt Hn) as H. unfold wp in H.
  destruct (size_conv n tt) as [t|]; [|done]. destruct H as (? & ? & ? & _ & _ & _ & _ & Ht & _).
  rewrite pad_left_length. lia.
Qed.

Definition text_at (p : char_ptr) : string := match p with CStr s => s | _ => EmptyString end.
Definition read_rate (d : sg_disk_io_stats) : Z := per_second (dio_read_bytes d) (dio_systime d).
Definition write_rate (d : sg_disk_io_stats) : Z := per_second (dio_write_bytes d) (dio_systime d).

Definition disk_row (line : Z) (d : sg_disk_io_stats) : list (Z * Z * string) :=
  [(line, 0, String.substring 0 11 (text_at (dio_disk_name d))); (line, 12, size_field (read_rate d));
   (line, 26, size_field (write_rate d))].

Fixpoint disk_rows (line : Z) (l : list sg_disk_io_stats) : list (Z * Z * string) :=
  match l with [] => [] | d :: l' => disk_row line d ++ disk_rows (line + 1) l' end.

Definition total_of (f : sg_disk_io_stats -> Z) (l : list sg_disk_io_stats) : Z :=
  foldr (fun d t => f d + t) 0 l.

Definition disk_ok (d : sg_disk_io_stats) : Prop :=
  readable (dio_disk_name d) /\ in_u64 (dio_read_bytes d) /\ in_u64 (dio_write_bytes d).

Lemma u64_s64 z : u64 (s64 z) = u64 z.
Proof.
  unfold wrap, swrap. rewrite Zminus_mod_idemp_l. f_equal. lia.
Qed.

Lemma u64_s64_add z y : u64 (s64 z + y) = u64 (z + y).
Proof. unfold wrap. rewrite <- Zplus_mod_idemp_l. fold (u64 (s64 z)). rewrite u64_s64. apply Zplus_mod_idemp_l. Qed.

Ltac row_step :=
  lazymatch goal with
  | |- wp (_ ≫= _) _ _ => apply wp_bind
  | |- wp (mret _) _ _ => apply wp_ret
  | |- wp (print_size 7 _) _ _ => apply print_size_field; [by auto using per_second_u64, u64_range |]
  | |- wp (if ?b then _ else _) _ _ => destruct b
  | |- wp (when _ _) _ _ => unfold when
  | |- wp (move _ _) _ _ => apply wp_emit
  | |- wp (printw _) _ _ => apply wp_emit
  | |- wp (attron _) _ _ => apply wp_emit
  | |- wp (attroff _) _ _ => apply wp_emit
  end.

Lemma display_disks_rows colors l : forall line r w l0,
  Forall disk_ok l ->
  wp (display_disks colors l line r w) (fun '(line', r', w') l' =>
    sc_texts (screen_of l') = sc_texts (screen_of l0) ++ disk_rows line l /\
    line' = line + Z.of_nat (length l) /\
    u64 r' = u64 (r + total_of read_rate l) /\ u64 w' = u64 (w + total_of write_rate l)) l0.
Proof.
  induction l as [|d l IH]; intros line r w l0 H.
  { apply wp_ret. cbn. rewrite app_nil_r, !Z.add_0_r. done. }
  apply Forall_cons in H as [([s E] & Hr & Hw) H]. cbn [display_disks disk_rows]. unfold disk_row.
  rewrite E. cbn [read_ptr text_at]. repeat (row_step; cbn zeta);
    (eapply wp_mono; [by apply IH|]; intros [[line' r'] w'] l' (E1 & E2 & E3 & E4);
     rewrite E1, !screen_of_snoc; split_and!;
     [ cbn; by rewrite <- !app_assoc | cbn [length]; lia | rewrite E3, u64_s64_add; unfold total_of, read_rate; cbn [foldr]; f_equal; lia
     | rewrite E4, u64_s64_add; unfold total_of, write_rate; cbn [foldr]; f_equal; lia]).
Qed.

(** A text that starts in one of the three columns ends before the next. *)
Definition in_column (t : Z * Z * string) : Prop :=
  let '(_, x, s) := t in
  exists next, (x, next) ∈ [(0, 12); (12, 26); (26, 42)] /\ x + Z.of_nat (String.length s) <= next.

Lemma disk_row_columns line d : disk_ok d -> Forall in_column (disk_row line d).
Proof.
  intros (_ & Hr & Hw). pose proof (size_field_length (read_rate d) (per_second_u64 _ _ Hr)).
  pose proof (size_field_length (write_rate d) (per_second_u64 _ _ Hw)).
  pose proof (substring_length 11 0 (text_at (dio_disk_name d))).
  repeat constructor; eexists; (split; [rewrite !elem_of_cons; by eauto | cbn; lia]).
Qed.

Lemma disk_rows_columns l : forall line, Forall disk_ok l -> Forall in_column (disk_rows line l).
Proof.
  induction l as [|d l IH]; intros line; [by constructor|]. intros [Hd Hl]%Forall_cons.
  apply Forall_app. auto using disk_row_columns.
Qed.

(** The table of disks: one row per disk from line 11 on with the name, cut to its
    column, and the read and write rates, then, after an empty line, the sums of
    the rates (modulo the width of the counters); every text stays in its column. *)
Theorem disk_table_drawn colors l l0 :
  Forall disk_ok l ->
  wp (display_disk_io colors l) (fun _ l' =>
    exists drawn, sc_texts (screen_of l') = sc_texts (screen_of l0) ++ drawn /\
      Forall in_column drawn /\
      drawn = disk_rows 11 l ++
        (let line := 12 + Z.of_nat (length l) in
         [(line, 0, "Total"); (line, 12, size_field (u64 (total_of read_rate l)));
          (line, 26, size_field (u64 (total_of write_rate l)))])) l0.
Proof.
  intros H. apply wp_bind. eapply wp_mono; [by apply display_disks_rows|].
  intros [[line r] w] l1 (E1 & -> & Er & Ew). cbn zeta. rewrite Z.add_0_l in Er, Ew. rewrite Er, Ew.
  pose proof (size_field_length _ (u64_range (total_of read_rate l))).
  pose proof (size_field_length _ (u64_range (total_of write_rate l))).
  repeat (row_step; cbn zeta); (eexists; split; [|split; [|reflexivity]];
    [ rewrite !screen_of_snoc; cbn -[disk_rows size_field]; rewrite E1, <- !app_assoc;
      by replace (11 + Z.of_nat (length l) + 1) with (12 + Z.of_nat (length l)) by lia
    | apply Forall_app; split; [by apply disk_rows_columns|];
      repeat constructor; eexists; (split; [rewrite !elem_of_cons; by eauto | cbn; lia]) ]).
Qed.

Definition demo_disks : list sg_disk_io_stats :=
  [mk_disk_io_stats (CStr "sda") 1000000 5 2; mk_disk_io_stats (CStr "a-very-long-name") 24 7 1].

Lemma disk_table_drawn_witness :
  disk_rows 11 demo_disks =
    [(11, 0, "sda"); (11, 12, "   488K"); (11, 26, "     2B");
     (12, 0, "a-very-long"); (12, 12, "    24B"); (12, 26, "     7B")] /\
  wp (display_disk_io true demo_disks) (fun _ l' =>
    exists drawn, sc_texts (screen_of l') = sc_texts (screen_of []) ++ drawn /\
      Forall in_column drawn /\
      drawn = disk_rows 11 demo_disks ++
        (let line := 12 + Z.of_nat (length demo_disks) in
         [(line, 0, "Total"); (line, 12, size_field (u64 (total_of read_rate demo_disks)));
          (line, 26, size_field (u64 (total_of write_rate demo_disks)))])) [].
Proof.
  split; [vm_compute; reflexivity|].
  apply (disk_table_drawn true demo_disks []).
  repeat constructor; try (vm_compute; congruence); by eexists.
Defined.

(** * The main loop *)

(** A move of the program with what the outside delivers, or the signal handler,
    which can run wherever the program is. *)
Inductive loop_move (colouron : bool) : saidar -> option input -> saidar -> Prop :=
| move_program i s s' :
    sd_place s <> AtExit -> loop_step colouron i s = Done tt s' -> loop_move colouron s (Some i) s'
| move_signal s : sd_place s <> AtExit -> loop_move colouron s None (sig_winch_handler s).

(** A run with the inputs it consumed, the last one first. *)
Inductive loop_run (colouron : bool) (s0 : saidar) : list input -> saidar -> Prop :=
| run_start : loop_run colouron s0 [] s0
| run_program h i s s' :
    loop_run colouron s0 h s -> loop_move colouron s (Some i) s' -> loop_run colouron s0 (i :: h) s'
| run_signal h s s' :
    loop_run colouron s0 h s -> loop_move colouron s None s' -> loop_run colouron s0 h s'.

(** The clock starts after the epoch and never goes back. *)
Definition clock_runs (h : list input) : Prop :=
  StronglySorted (fun later earlier => in_now earlier <= in_now later) h /\
  Forall (fun i => 1 <= in_now i) h.

Definition has_update (p : place) : bool :=
  match p with AtCheck | AtClear | AtHeadings | AtReset | AtDisplay => true | _ => false end.

(** The statistics are those the library delivered in the second of the last
    update; the only exception are those from before the loop. *)
Definition up_to_date (h : list input) (s : saidar) : Prop :=
  sd_last_update s = 0 /\ has_update (sd_place s) = false \/
  exists i, i ∈ h /\ in_now i = sd_last_update s /\ sd_stats s = saidar_get_stats (in_lib i).

Lemma up_to_date_more h i s s' :
  up_to_date h s -> sd_stats s' = sd_stats s -> sd_last_update s' = sd_last_update s ->
  (has_update (sd_place s') = true -> has_update (sd_place s) = true) -> up_to_date (i :: h) s'.
Proof.
  intros [[H0 Hp]|(j & Hj & Ht & Hs)] Es El Hq; [left | right].
  - rewrite El. destruct (has_update (sd_place s')); [|done]. by rewrite Hq in Hp.
  - exists j. rewrite Es, El. split; [by right | done].
Qed.

(** Drawing does not touch the rest of the state. *)
Lemma draw_inv {A} (m : M (list call) A) a s s' :
  draw m s = Done a s' -> sd_stats s' = sd_stats s /\ sd_last_update s' = sd_last_update s /\
                          sd_place s' = sd_place s /\ sd_winch_flag s' = sd_winch_flag s.
Proof. unfold draw, zoom. destruct (m (sd_calls s)); [|done]. by intros [= <- <-]. Qed.

Lemma bind_inv {S A B} (m : M S A) (f : A -> M S B) s b s' :
  (m ≫= f) s = Done b s' -> exists a s1, m s = Done a s1 /\ f a s1 = Done b s'.
Proof. unfold mbind, M_bind. destruct (m s); [eauto | done]. Qed.

(** The step that fetches the statistics. *)
Lemma update_up_to_date h i s :
  (forall j, j ∈ h -> in_now j <= in_now i) -> 1 <= in_now i ->
  up_to_date h s -> up_to_date (i :: h) (at_place AtCheck (update_stats i s)).
Proof.
  intros Hmono Hpos Hu. right. unfold update_stats, at_place. cbn.
  destruct (Z.leb_spec 1 (in_now i - sd_last_update s)) as [Hn|Hn].
  - exists i. repeat split; by left.
  - destruct Hu as [[H0 _]|(j & Hj & Ht & Hs)]; [lia|].
    exists j. split; [by right|]. split; [|done]. specialize (Hmono j Hj). lia.
Qed.

(** What a step does beside drawing. *)
Lemma loop_step_effect colouron i s s' :
  loop_step colouron i s = Done tt s' ->
  (sd_place s = AtTime /\ s' = at_place AtCheck (update_stats i s)) \/
  (sd_stats s' = sd_stats s /\ sd_last_update s' = sd_last_update s /\
   (has_update (sd_place s') = true -> has_update (sd_place s) = true)).
Proof.
  intros H. unfold loop_step in H. apply bind_inv in H as (p & s1 & [= <- <-] & H).
  destruct (sd_place s) eqn:Ep.
  - right. destruct (_ =? _).
    + apply bind_inv in H as (a & s1 & (E1 & E2 & E3 & E4)%draw_inv & [= <-]). by cbn.
    + by injection H as <-.
  - left. apply bind_inv in H as (a & s1 & [= <- <-] & [= <-]). done.
  - right. apply bind_inv in H as (f & s1 & [= <- <-] & [= <-]). by cbn.
  - right. apply bind_inv in H as (a & s1 & (E1 & E2 & E3 & E4)%draw_inv & [= <-]). by cbn.
  - right. apply bind_inv in H as (st & s1 & [= <- <-] & H).
    apply bind_inv in H as (a & s1 & (E1 & E2 & E3 & E4)%draw_inv & [= <-]). by cbn.
  - right. by injection H as <-.
  - right. apply bind_inv in H as (st & s1 & [= <- <-] & H).
    apply bind_inv in H as (a & s1 & (E1 & E2 & E3 & E4)%draw_inv & [= <-]). by cbn.
  - right. injection H as <-. by rewrite Ep.
Qed.

(** C17: Whatever the order of keys, signals and steps: as long as the clock does not go
    back, the statistics of the loop are those of the second of the last
    update, and what [display_data] is about to draw was fetched in the loop. *)
Theorem loop_statistics_up_to_date colouron st calls h s :
  loop_run colouron (mk_saidar AtGetch st 0 false calls) h s -> clock_runs h -> up_to_date h s.
Proof.
  induction 1 as [|h i s s' _ IH Hm|h s s' _ IH Hm]; intros [Hsort Hpos].
  - by left.
  - apply StronglySorted_inv in Hsort as [Hsort Hle]. apply Forall_cons in Hpos as [Hi Hpos].
    inversion Hm as [? ? ? _ Hstep|]; subst.
    destruct (loop_step_effect _ _ _ _ Hstep) as [[Ep ->]|(E1 & E2 & Hp)].
    + apply update_up_to_date; [|done | by apply IH]. by rewrite Forall_forall in Hle.
    + by apply (up_to_date_more h i s); [apply IH|..].
  - inversion Hm; subst. by apply IH.
Qed.

Definition demo_library (load : Z) : library :=
  mk_library (fun _ => None) (fun _ => None) None (Some (mk_load_stats (double_of load) (double_of load)
    (double_of load) 0)) None None None None (fun _ => None) None (fun _ => None) None (fun _ => None) 0.

Definition demo_input (now load : Z) : input := mk_input 97 now "" (demo_library load).

Lemma loop_statistics_up_to_date_witness :
  up_to_date [demo_input 10 1; demo_input 9 2]
    (mk_saidar AtCheck (saidar_get_stats (demo_library 1)) 10 false []).
Proof.
  apply (loop_statistics_up_to_date false no_stats []).
  - eapply run_program; [eapply run_program; [apply run_start|]|];
      (constructor; [discriminate | reflexivity]).
  - split; [repeat constructor; cbn; lia | repeat constructor; cbn; lia].
Defined.

(** ** A change of the size of the window *)

(** Parts of the program that only draw, the same whatever was drawn before. *)
Definition appends {A} (m : M (list call) A) : Prop :=
  exists a new, forall l, m l = Done a (l ++ new).

Lemma appends_bind {A B} (m : M (list call) A) (f : A -> M (list call) B) :
  appends m -> (forall a, appends (f a)) -> appends (m ≫= f).
Proof.
  intros (a & new & Hm) Hf. destruct (Hf a) as (b & new' & H). exists b, (new ++ new').
  intros l. unfold mbind, M_bind. by rewrite Hm, H, app_assoc.
Qed.

Lemma appends_ret {A} (a : A) : appends (mret a).
Proof. exists a, []. intros l. by rewrite app_nil_r. Qed.

Lemma appends_emit c : appends (emit c).
Proof. by exists tt, [c]. Qed.

Lemma appends_labels l : appends (labels l).
Proof.
  induction l as [|[[y x] t] l IH]; [apply appends_ret|].
  repeat (apply appends_bind; [apply appends_emit | intros _]). done.
Qed.

Lemma appends_headings st : appends (display_headings st).
Proof.
  unfold display_headings. repeat (apply appends_bind; [apply appends_labels | intros _]).
  apply appends_bind.
  - destruct (st_network_io_stats st); [|apply appends_ret].
    apply appends_bind; [apply appends_labels | intros _]. apply appends_ret.
  - intros line. apply appends_bind; [apply appends_labels | intros _]. apply appends_emit.
Qed.

(** The calls of the headings. *)
Definition headings (st : stats_t) : list call :=
  match display_headings st [] with Done _ l => l | Stuck _ => [] end.

Lemma display_headings_calls st l : display_headings st l = Done tt (l ++ headings st).
Proof.
  destruct (appends_headings st) as ([] & new & H). unfold headings. by rewrite !H.
Qed.

Fixpoint run_inputs (colouron : bool) (l : list input) : M saidar unit :=
  match l with [] => mret tt | i :: l' => loop_step colouron i;; run_inputs colouron l' end.

(** Steps from a place to the redrawing of the screen. *)
Definition steps_to_redraw (p : place) : nat :=
  match p with AtClear => 2 | AtCheck => 3 | AtTime => 4 | AtGetch => 5 | _ => 6 end.

(** The screen was cleared and the headings of the statistics were drawn. *)
Definition redrawn (s : saidar) : Prop :=
  sd_place s = AtReset /\
  exists before, sd_calls s = before ++ [Cclear] ++ headings (sd_stats s).

Lemma redraw_from_clear colouron i1 i2 is_ s :
  sd_place s = AtClear -> wp (run_inputs colouron (take 2 (i1 :: i2 :: is_))) (fun _ => redrawn) s.
Proof.
  intros Ep. cbn [take run_inputs]. apply wp_bind. unfold loop_step, wp, mbind, M_bind, gets.
  rewrite Ep. unfold draw, zoom. cbn -[display_headings headings].
  rewrite display_headings_calls. split; [done|].
  exists (sd_calls s). by rewrite <- app_assoc.
Qed.

(** One step that draws nothing, the flag being set. *)
Lemma redraw_step colouron n i is_ s s' :
  loop_step colouron i s = Done tt s' -> wp (run_inputs colouron (take n is_)) (fun _ => redrawn) s' ->
  wp (run_inputs colouron (take (S n) (i :: is_))) (fun _ => redrawn) s.
Proof. intros E H. cbn [take run_inputs]. apply wp_bind. unfold wp at 1. by rewrite E. Qed.

Lemma step_check colouron i s :
  sd_place s = AtCheck -> sd_winch_flag s = true -> loop_step colouron i s = Done tt (at_place AtClear s).
Proof. intros Ep Ef. unfold loop_step, mbind, M_bind, gets. rewrite Ep, Ef. done. Qed.

Lemma step_time colouron i s :
  sd_place s = AtTime -> loop_step colouron i s = Done tt (at_place AtCheck (update_stats i s)).
Proof. intros Ep. unfold loop_step, mbind, M_bind, gets. by rewrite Ep. Qed.

Lemma step_getch colouron i s :
  sd_place s = AtGetch -> in_ch i <> KEY_q -> loop_step colouron i s = Done tt (at_place AtTime s).
Proof.
  intros Ep Hq. unfold loop_step, mbind, M_bind, gets. rewrite Ep.
  by destruct (Z.eqb_spec (in_ch i) KEY_q).
Qed.

Lemma step_display colouron i s :
  sd_place s = AtDisplay -> drawable (sd_stats s) -> (colouron = true -> attrs_of (sd_calls s) = plain) ->
  exists calls, loop_step colouron i s =
    Done tt (mk_saidar AtGetch (sd_stats s) (sd_last_update s) (sd_winch_flag s) calls).
Proof.
  intros Ep Hd Ha.
  pose proof (display_data_clean colouron (sd_stats s) (in_text i) Hd (sd_calls s) (sd_calls s)) as H.
  unfold loop_step, mbind, M_bind, gets. rewrite Ep. unfold draw, zoom. unfold wp in H.
  destruct (display_data colouron (sd_stats s) (in_text i) (sd_calls s)) as [[] l|f].
  - by exists l.
  - destruct H. destruct colouron; [|done]. exists 0. split; [set_solver | by apply Ha].
Qed.


(** A signal in the gap is lost: when it arrives while the headings are drawn, or behind
    that, the reset clears it, and the loop goes on to draw the data as if there had been
    no signal. *)
Lemma resize_lost colouron i1 i2 s :
  sd_place s = AtHeadings ->
  wp (run_inputs colouron [i1; i2]) (fun _ s' => sd_place s' = AtDisplay /\ sd_winch_flag s' = false)
     (sig_winch_handler s).
Proof.
  intros Ep. cbn [run_inputs]. apply wp_bind. unfold loop_step, wp, mbind, M_bind, gets.
  cbn [sig_winch_handler sd_place]. rewrite Ep. unfold draw, zoom. cbn -[display_headings headings].
  rewrite display_headings_calls. done.
Qed.

