(* ===== verification/TestLib.v ===== *)
(** src/tests/testlib/routines.c and opt.c, and the single-threaded drivers of
    src/tests/single_threaded: the table of functions under test with its counters, the
    selection of functions by name, the options, and the loop that calls them. *)

From S2P Require Import Prelude Types CLib Errors Tools Stdio Program.

(** * The table *)

(** The counters are unsigned ints; a function without a variant for differences has
    no [diff_name]. *)
Record statgrab_testfuncs := mk_testfuncs {
  stat_name : string; full_name : string; diff_name : option string;
  needed : Z; succeeded : Z; done_ : Z }.

Definition SG_EASY_FUNC (stat full : string) : statgrab_testfuncs := mk_testfuncs stat full None 0 0 0.
Definition SG_COMPLEX_FUNC (stat full diff : string) : statgrab_testfuncs :=
  mk_testfuncs stat full (Some diff) 0 0 0.

Definition statgrab_test_funcs : list statgrab_testfuncs :=
  [ SG_EASY_FUNC "host_info" "sg_get_host_info";
    SG_COMPLEX_FUNC "cpu_stats" "sg_get_cpu_stats" "sg_get_cpu_stats_diff";
    SG_EASY_FUNC "mem_stats" "sg_get_mem_stats";
    SG_EASY_FUNC "load_stats" "sg_get_load_stats";
    SG_EASY_FUNC "user_stats" "sg_get_user_stats";
    SG_EASY_FUNC "swap_stats" "sg_get_swap_stats";
    SG_COMPLEX_FUNC "fs_stats" "sg_get_fs_stats" "sg_get_fs_stats_diff";
    SG_COMPLEX_FUNC "disk_io_stats" "sg_get_disk_io_stats" "sg_get_disk_io_stats_diff";
    SG_EASY_FUNC "network_iface_stats" "sg_get_network_iface_stats";
    SG_COMPLEX_FUNC "network_io_stats" "sg_get_network_io_stats" "sg_get_network_io_stats_diff";
    SG_COMPLEX_FUNC "page_stats" "sg_get_page_stats" "sg_get_page_stats_diff";
    SG_EASY_FUNC "process_stats" "sg_get_process_stats" ].

Definition name_of (full : bool) (f : statgrab_testfuncs) : option string :=
  if full then Some (full_name f) else diff_name f.

Definition NFUNCS : nat := length statgrab_test_funcs.

(** The state of a test program: the table and the console. *)
Record tests := mk_tests { t_funcs : list statgrab_testfuncs; t_console : console }.

#[export] Program Instance tests_console : Console tests :=
  {| get_console := t_console; put_console := fun c t => mk_tests (t_funcs t) c |}.
Next Obligation. by intros []. Qed.
Next Obligation. done. Qed.
Next Obligation. done. Qed.

Definition get_testable_functions : X tests (list statgrab_testfuncs) := run (gets t_funcs).

(** * Functions by name *)

(** The first entry whose name begins with the first [namelen] characters of [func_name];
    the length of the table when there is none. *)
Fixpoint find_func (full : bool) (func_name : string) (namelen : nat) (fs : list statgrab_testfuncs) : nat :=
  match fs with
  | [] => O
  | f :: fs' =>
      match name_of full f with
      | Some n => if strncmp func_name n namelen =? 0 then O else S (find_func full func_name namelen fs')
      | None => S (find_func full func_name namelen fs')
      end
  end.

Definition find_full_func (func_name : string) (namelen : nat) (fs : list statgrab_testfuncs) : nat :=
  find_func true func_name namelen fs.
Definition find_diff_func (func_name : string) (namelen : nat) (fs : list statgrab_testfuncs) : nat :=
  find_func false func_name namelen fs.

(** One more index at the end of the array of [NFUNCS] that calloc made. *)
Definition store_index (full : bool) (name_start : string) (namelen : nat) (indices : list nat) : X tests (list nat) :=
  fs ← get_testable_functions;
  let idx := if full then find_full_func name_start namelen fs else find_diff_func name_start namelen fs in
  if (length fs <=? idx)%nat then
    eprint ("invalid function name for testing: " +:+ name_start +:+ newline_text);; exit_ 255
  else if (NFUNCS <=? length indices)%nat then run (stuck out_of_bounds)
  else mret (indices ++ [idx]).

(** [name_list] is [rest], [len] characters behind [name_start]. *)
Fixpoint names_loop (full : bool) (name_start : string) (len : nat) (rest : string) (indices : list nat)
    : X tests (list nat) :=
  match rest with
  | EmptyString => if (0 <? len)%nat then store_index full name_start len indices else mret indices
  | String c rest' =>
      if decide (c = ","%char) then
        indices ← store_index full name_start len indices;
        names_loop full rest' 0 rest' indices
      else names_loop full name_start (S len) rest' indices
  end.

(** The indices in the order of the names, none when the array cannot be allocated. *)
Definition funcnames_to_indices (name_list : string) (full : bool) : X tests (list nat) :=
  a ← lib alloc_request;
  match a with
  | AFail => mret []
  | _ => names_loop full name_list 0 name_list []
  end.

Definition print_testable_functions (full : bool) : X tests unit :=
  fs ← get_testable_functions;
  print (foldr (fun f s => match name_of full f with Some n => n +:+ newline_text +:+ s | None => s end) EmptyString fs).

(** One line; printf writes "(null)" for a name that is NULL. *)
Definition report_line (full : bool) (f : statgrab_testfuncs) : string :=
  if needed f =? 0 then EmptyString
  else stat_name f +:+ " (" +:+ default "(null)" (name_of full f) +:+ ") - needed: " +:+ print_signed (s32 (needed f)) +:+
       ", succeeded: " +:+ print_signed (s32 (succeeded f)) +:+ ", done: " +:+ print_signed (s32 (done_ f)) +:+ newline_text.

(** How many entries have as many calls done as needed. *)
Definition settled (fs : list statgrab_testfuncs) : nat := length (filter (fun f => needed f = done_ f) fs).

Definition report_testable_functions (full : bool) : X tests nat :=
  fs ← get_testable_functions;
  print (foldr (fun f s => report_line full f +:+ s) EmptyString fs);;
  mret (settled fs).

(** * The counters *)

Definition count_needed (f : statgrab_testfuncs) : statgrab_testfuncs :=
  mk_testfuncs (stat_name f) (full_name f) (diff_name f) (u32 (needed f + 1)) (succeeded f) (done_ f).
Definition count_done (ok : bool) (f : statgrab_testfuncs) : statgrab_testfuncs :=
  mk_testfuncs (stat_name f) (full_name f) (diff_name f) (needed f)
    (if ok then u32 (succeeded f + 1) else succeeded f) (u32 (done_ f + 1)).

(** The guard of the functions that take an index. *)
Definition with_index {A} (who : string) (func_index : nat) (m : X tests A) : X tests A :=
  fs ← get_testable_functions;
  if (length fs <=? func_index)%nat then
    eprint (who +:+ ": index out of range: " +:+ print_unsigned (Z.of_nat func_index) +:+ newline_text);; exit_ 1
  else m.

Definition mark_func (func_index : nat) : X tests unit :=
  with_index "mark_func" func_index
    (run (modify (fun t => mk_tests (alter count_needed func_index (t_funcs t)) (t_console t)))).

Definition done_func (func_index : nat) (ok : bool) : X tests unit :=
  with_index "done_func" func_index
    (run (modify (fun t => mk_tests (alter (count_done ok) func_index (t_funcs t)) (t_console t)))).

Section calls.
(** The functions of the library by name: whether they deliver statistics. *)
Context (call : string -> M env bool).
Context (strerror : Z -> string) (strerror_r : Z -> option string).

(** What is printed when a function delivers nothing, in the builds without a logger. *)
Definition report_failure (name : string) : X tests unit :=
  d ← lib (sg_get_error_details true);
  if decide (d.1 <> SG_ERROR_NONE) then eprint ("panic: can't get error details " +:+ error_text d.1)
  else
    p ← lib (sg_strperror strerror_r (Some CNull) d.2);
    match p with
    | CStr t => eprint (name +:+ ": " +:+ t +:+ newline_text)
    | _ => errc ← lib sg_get_error; eprint ("panic: can't prepare error message " +:+ error_text errc)
    end.

(** Calling the missing variant of a function is a call through NULL. *)
Definition run_func (func_index : nat) (full : bool) : X tests bool :=
  with_index "run_func" func_index (
    fs ← get_testable_functions;
    match fs !! func_index ≫= name_of full with
    | None => run (stuck null_deref)
    | Some name =>
        ok ← lib (call name);
        (if ok : bool then mret tt else report_failure name);;
        mret ok
    end).

(** * opt.c *)

Inductive opt_type := opt_flag | opt_bool | opt_signed | opt_unsigned | opt_str.

(** The union: a word of eight bytes for the numbers and the flag, whose byte is the
    lowest, and the text of an [opt_str]. *)
Record opt_def := mk_opt_def { optchr : ascii; opttype : opt_type; o_word : Z; o_str : option string }.

Definition arg_s (o : opt_def) : Z := s64 (o_word o).
Definition arg_u (o : opt_def) : Z := u64 (o_word o).
Definition arg_b (o : opt_def) : bool := negb (o_word o mod 256 =? 0).
Definition set_word (z : Z) (o : opt_def) : opt_def := mk_opt_def (optchr o) (opttype o) (u64 z) (o_str o).
Definition set_b (b : bool) (o : opt_def) : opt_def :=
  set_word (o_word o - o_word o mod 256 + (if b then 1 else 0)) o.

Definition EINVAL : Z := 22.
Definition ERANGE : Z := 34.
Definition ESRCH : Z := 3.
Definition ENOMEM : Z := 12.

(** The check of the definitions: characters of seven bits, none twice, and a list for
    getopt that fits its buffer. *)
Fixpoint map_options (seen : list ascii) (optlst_idx : nat) (defs : list opt_def) : X tests unit :=
  match defs with
  | [] => if (256 <=? optlst_idx)%nat then run (stuck out_of_bounds) else mret tt
  | o :: defs' =>
      if 128 <=? byte_of (optchr o) then run (stuck out_of_bounds)
      else if decide (optchr o ∈ seen) then
        die strerror EINVAL ("duplicate option def for '" +:+ String (optchr o) EmptyString +:+ "'")
      else
        let idx := (optlst_idx + match opttype o with opt_flag => 1 | _ => 2 end)%nat in
        if (256 <? idx)%nat then run (stuck out_of_bounds) else map_options (optchr o :: seen) idx defs'
  end.

Definition invalid_argument {A} (ch : ascii) (optarg : string) : X tests A :=
  die strerror EINVAL ("getopt: invalid argument for -" +:+ String ch EmptyString +:+ ": " +:+ optarg).

Definition set_opt (o : opt_def) (optarg : string) : X tests opt_def :=
  match opttype o with
  | opt_flag => mret (set_b true o)
  | opt_bool =>
      let '(n, v) := sscanf optarg "%u" in
      if negb (n =? 1) then invalid_argument (optchr o) optarg else mret (set_b (negb (arg_int 0 v 0 =? 0)) o)
  | opt_signed =>
      let '(n, v) := sscanf optarg "%ld" in
      if negb (n =? 1) then invalid_argument (optchr o) optarg else mret (set_word (arg_int 0 v 0) o)
  | opt_unsigned =>
      let '(n, v) := sscanf optarg "%lu" in
      if negb (n =? 1) then invalid_argument (optchr o) optarg else mret (set_word (arg_int 0 v 0) o)
  | opt_str => mret (mk_opt_def (optchr o) (opttype o) (o_word o) (Some optarg))
  end.

(** [opts]: the options with their arguments as getopt delivers them; an option it does
    not know is '?'. The result: the definitions, and the character that stopped the loop. *)
Fixpoint opt_loop (defs : list opt_def) (opts : list (ascii * string)) : X tests (list opt_def * Z) :=
  match opts with
  | [] => mret (defs, 0)
  | (ch, optarg) :: opts' =>
      match list_find (fun o => optchr o = ch) defs with
      | None => mret (defs, byte_of ch)
      | Some (i, o) => o' ← set_opt o optarg; opt_loop (<[i := o']> defs) opts'
      end
  end.

Definition get_params (defs : list opt_def) (opts : list (ascii * string)) : X tests (list opt_def * Z) :=
  map_options [] 0 defs;; opt_loop defs opts.

(** * The single-threaded drivers *)

Definition single_opts : list opt_def :=
  [mk_opt_def "h" opt_flag 0 None; mk_opt_def "l" opt_flag 0 None; mk_opt_def "r" opt_str 0 None;
   mk_opt_def "n" opt_unsigned 1 None].

Definition single_help (prgname : string) : string :=
  prgname +:+ " -h|-l|-r <test list> [options]" +:+ newline_text +:+
  String "009" "-h" +:+ String "009" "show help" +:+ newline_text +:+
  String "009" "-l" +:+ String "009" "list available test functions" +:+ newline_text +:+
  String "009" "-r" +:+ String "009" "run specified list of test calls (comma separated list" +:+ newline_text +:+
  String "009" (String "009" "of test functions from the list showed by -l)") +:+ newline_text +:+
  String "009" "-n" +:+ String "009" "number of loops to run (must be greater or equal to 1)" +:+ newline_text.

(** One call with its counters; the number of errors so far. *)
Definition test_call (full : bool) (idx : nat) (errors : Z) : X tests Z :=
  mark_func idx;;
  ok ← run_func idx full;
  done_func idx ok;;
  mret (if ok : bool then errors else s32 (errors + 1)).

Fixpoint test_round (full : bool) (routines : list nat) (errors : Z) : X tests Z :=
  match routines with
  | [] => mret errors
  | idx :: routines' => e ← test_call full idx errors; test_round full routines' e
  end.

Fixpoint test_rounds (full : bool) (loops : nat) (routines : list nat) (errors : Z) : X tests Z :=
  match loops with
  | O => mret errors
  | S loops' => e ← test_round full routines errors; test_rounds full loops' routines e
  end.

Definition opt_at (defs : list opt_def) (i : nat) : opt_def := default (mk_opt_def NUL opt_flag 0 None) (defs !! i).

Definition single_main (full : bool) (prgname : string) (opts : list (ascii * string)) : X tests Z :=
  p ← get_params single_opts opts;
  let defs := p.1 in
  if negb (p.2 =? 0) then print (single_help prgname);; mret 1
  else if arg_b (opt_at defs 0) then print (single_help prgname);; mret 0
  else if arg_b (opt_at defs 1) then print_testable_functions full;; mret 0
  else
    match o_str (opt_at defs 2) with
    | Some names =>
        routines ← funcnames_to_indices names full;
        if (length routines =? 0)%nat then die strerror ESRCH "no functions to test"
        else
          errors ← test_rounds full (Z.to_nat (arg_u (opt_at defs 3))) routines 0;
          report_testable_functions full;;
          mret errors
    | None => print (single_help prgname);; mret 1
    end.

Definition single_diff_main : string -> list (ascii * string) -> X tests Z := single_main false.
Definition single_full_main : string -> list (ascii * string) -> X tests Z := single_main true.
End calls.
