(* ===== verification/TestThreads.v ===== *)
(** src/tests/multi_threaded: the drivers that call the functions under test from many
    threads at once. A state holds where the main thread and every other thread is; a step
    is what one thread does between two places where another one can interfere. *)

From S2P Require Import Prelude Types CLib Errors Tools Stdio Program TestLib.

(** * The threads *)

(** Where [threadfunc] is. *)
Inductive tpc :=
| TStart                  (* before the first pthread_mutex_lock *)
| TCheck                  (* at the test of conditionMet *)
| TWait                   (* in pthread_cond_wait, the mutex given up *)
| TWoken                  (* woken, waiting for the mutex *)
| TRun                    (* before run_func *)
| TRan (success : bool)   (* behind run_func *)
| TDone (success : bool)  (* before done_func *)
| TUnlock (success : bool)
| TSignal (success : bool)
| TEnd (success : bool).

(** Where [main] is. *)
Inductive mpc :=
| MLockCreate
| MCreate (i : nat)       (* at the test of the loop that creates the threads *)
| MUnlockCreate
| MSpin                   (* while( test_counter < numthreads ) *)
| MLockSet
| MSet
| MBroadcast
| MUnlockSet
| MLockPoll
| MTimedwait
| MWaiting                (* in pthread_cond_timedwait, the mutex given up *)
| MRewake                 (* woken or out of time, waiting for the mutex *)
| MReport
| MUnlockPoll (ok : nat)
| MJoin (i : nat)
| MSum
| MEnd (errors : Z).

#[export] Instance tpc_eq_dec : EqDecision tpc.
Proof. solve_decision. Defined.
#[export] Instance mpc_eq_dec : EqDecision mpc.
Proof. solve_decision. Defined.

Inductive owner := OMain | OThread (i : nat).

#[export] Instance owner_eq_dec : EqDecision owner.
Proof. solve_decision. Defined.

Record state := mk_state {
  s_main : mpc;
  s_threads : list tpc;       (* the threads created so far *)
  s_mutex : option owner;
  s_met : bool;               (* conditionMet *)
  s_counter : Z;              (* test_counter *)
  s_funcs : list statgrab_testfuncs;
  s_out : string }.

Definition set_main (m : mpc) (s : state) : state :=
  mk_state m (s_threads s) (s_mutex s) (s_met s) (s_counter s) (s_funcs s) (s_out s).
Definition set_threads (l : list tpc) (s : state) : state :=
  mk_state (s_main s) l (s_mutex s) (s_met s) (s_counter s) (s_funcs s) (s_out s).
Definition set_mutex (o : option owner) (s : state) : state :=
  mk_state (s_main s) (s_threads s) o (s_met s) (s_counter s) (s_funcs s) (s_out s).
Definition set_met (s : state) : state :=
  mk_state (s_main s) (s_threads s) (s_mutex s) true (s_counter s) (s_funcs s) (s_out s).
Definition set_counter (z : Z) (s : state) : state :=
  mk_state (s_main s) (s_threads s) (s_mutex s) (s_met s) z (s_funcs s) (s_out s).
Definition set_funcs (l : list statgrab_testfuncs) (s : state) : state :=
  mk_state (s_main s) (s_threads s) (s_mutex s) (s_met s) (s_counter s) l (s_out s).
Definition add_out (t : string) (s : state) : state :=
  mk_state (s_main s) (s_threads s) (s_mutex s) (s_met s) (s_counter s) (s_funcs s) (s_out s +:+ t).

(** pthread_mutex_lock waits until the mutex is free. *)
Definition lock (o : owner) (s : state) : option state :=
  match s_mutex s with None => Some (set_mutex (Some o) s) | Some _ => None end.
Definition unlock (s : state) : state := set_mutex None s.

(** A thread in a wait for [cond]. *)
Inductive waiter := WMain | WThread (i : nat).

Definition wake (w : waiter) (s : state) : option state :=
  match w with
  | WMain => if decide (s_main s = MWaiting) then Some (set_main MRewake s) else None
  | WThread i => if decide (s_threads s !! i = Some TWait) then Some (set_threads (<[i := TWoken]> (s_threads s)) s) else None
  end.

Definition wake_all (s : state) : state :=
  set_threads ((fun t => if decide (t = TWait) then TWoken else t) <$> s_threads s) s.

Definition someone_waits (s : state) : bool :=
  bool_decide (s_main s = MWaiting) || bool_decide (TWait ∈ s_threads s).

(** * The steps *)

Section driver.
(** The variant; the functions to call; how many threads; -s. *)
Context (full : bool) (test_routines : list nat) (numthreads : nat) (seq : bool).

Definition routine (i : nat) : nat := default O (test_routines !! (i mod length test_routines)%nat).

Definition at_thread (i : nat) (t : tpc) (s : state) : state := set_threads (<[i := t]> (s_threads s)) s.

(** [threadfunc] of thread [i]: [success] is what run_func returns, [w] the thread that
    pthread_cond_signal wakes, when one waits. *)
Definition thread_step (i : nat) (success : bool) (w : waiter) (s : state) : option state :=
  t ← s_threads s !! i;
  match t with
  | TStart => s ← lock (OThread i) s; Some (at_thread i TCheck (set_counter (u64 (s_counter s + 1)) s))
  | TCheck =>
      if s_met s then Some (at_thread i TRun (if seq then s else unlock s))
      else Some (at_thread i TWait (unlock s))
  | TWait => None
  | TWoken => s ← lock (OThread i) s; Some (at_thread i TCheck s)
  | TRun => Some (at_thread i (TRan success) s)
  | TRan ok => s ← (if seq then Some s else lock (OThread i) s); Some (at_thread i (TDone ok) s)
  | TDone ok => Some (at_thread i (TUnlock ok) (set_funcs (alter (count_done ok) (routine i) (s_funcs s)) s))
  | TUnlock ok => Some (at_thread i (TSignal ok) (unlock s))
  | TSignal ok =>
      s ← (if someone_waits s then wake w s else Some s);
      Some (at_thread i (TEnd ok) s)
  | TEnd _ => None
  end.

(** [errors += needed - succeeded], an int and two unsigned ints. *)
Definition sum_errors (fs : list statgrab_testfuncs) : Z :=
  foldl (fun errors f => s32 (errors + u32 (needed f - succeeded f))) 0 fs.

Definition main_step (s : state) : option state :=
  match s_main s with
  | MLockCreate => s ← lock OMain s; Some (set_main (MCreate 0) s)
  | MCreate i =>
      if (i <? numthreads)%nat then
        Some (set_main (MCreate (S i)) (set_threads (s_threads s ++ [TStart])
          (set_funcs (alter count_needed (routine i) (s_funcs s)) s)))
      else Some (set_main MUnlockCreate s)
  | MUnlockCreate => Some (set_main MSpin (unlock s))
  | MSpin => if s_counter s <? Z.of_nat numthreads then Some s else Some (set_main MLockSet s)
  | MLockSet => s ← lock OMain s; Some (set_main MSet s)
  | MSet => Some (set_main MBroadcast (set_met s))
  | MBroadcast => Some (set_main MUnlockSet (wake_all s))
  | MUnlockSet => Some (set_main MLockPoll (unlock s))
  | MLockPoll => s ← lock OMain s; Some (set_main MTimedwait s)
  | MTimedwait => Some (set_main MWaiting (unlock s))
  | MWaiting => Some (set_main MRewake s)          (* the second is over *)
  | MRewake => s ← lock OMain s; Some (set_main MReport s)
  | MReport =>
      Some (set_main (MUnlockPoll (settled (s_funcs s)))
        (add_out (foldr (fun f t => report_line full f +:+ t) EmptyString (s_funcs s)) s))
  | MUnlockPoll ok =>
      let s := unlock s in
      if (ok =? length (s_funcs s))%nat then Some (set_main (MJoin 0) s)
      else Some (set_main MLockPoll (add_out ("---------------" +:+ newline_text) s))
  | MJoin i =>
      if (i <? numthreads)%nat then
        match s_threads s !! i with
        | Some (TEnd _) => Some (set_main (MJoin (S i)) s)
        | _ => None
        end
      else Some (set_main MSum s)
  | MSum => Some (set_main (MEnd (sum_errors (s_funcs s))) s)
  | MEnd _ => None
  end.

(** The scheduler's choices; a wait may end without a signal. *)
Inductive choice := CMain | CThread (i : nat) (success : bool) (w : waiter) | CSpurious (w : waiter).

Definition sched (c : choice) (s : state) : option state :=
  match c with
  | CMain => main_step s
  | CThread i success w => thread_step i success w s
  | CSpurious w => wake w s
  end.

Inductive step : state -> state -> Prop :=
| step_by c s s' : sched c s = Some s' -> step s s'.

(** A run under a list of choices. *)
Fixpoint run_sched (cs : list choice) (s : state) : option state :=
  match cs with [] => Some s | c :: cs' => s' ← sched c s; run_sched cs' s' end.

(** The driver with the table [fs] before the threads are created. *)
Definition initial (fs : list statgrab_testfuncs) : state :=
  mk_state MLockCreate [] None false 0 fs EmptyString.
End driver.

(** diff_stats.c has the same functions; only its report names the other variant. *)
Definition diff_thread_step : list nat -> bool -> nat -> bool -> waiter -> state -> option state := thread_step.
Definition diff_main_step : list nat -> nat -> state -> option state := main_step false.

(** * The options *)

Definition multi_opts : list opt_def :=
  [mk_opt_def "h" opt_flag 0 None; mk_opt_def "l" opt_flag 0 None; mk_opt_def "r" opt_str 0 None;
   mk_opt_def "n" opt_unsigned (u64 (-1)) None; mk_opt_def "m" opt_unsigned 1 None; mk_opt_def "s" opt_bool 0 None].

Definition tabbed (opt text : string) : string := String "009" (opt +:+ String "009" text +:+ newline_text).

Definition multi_help (prgname : string) : string :=
  prgname +:+ " -h|-l|-r <test list> [options]" +:+ newline_text +:+ tabbed "-h" "show help" +:+
  tabbed "-l" "list available test functions" +:+
  tabbed "-r" "run specified list of test calls (comma separated list" +:+
  tabbed "" "of test functions from the list showed by -l)" +:+
  tabbed "-n" "number of threads to use (must be greater or equal to" +:+ tabbed "" "number of test calls)" +:+
  tabbed "-m" "multiple threads/calls per function" +:+ tabbed "-s" "sequencial calling of test functions".

(** What the options ask for: to end with a status, or the functions, the number of threads
    and whether the calls are made one after the other. *)
Inductive plan := Return (status : Z) | Threads (test_routines : list nat) (numthreads : Z) (seq : bool).

Section plan.
Context (strerror : Z -> string).

(** [argv2] is the third word of the command line, which the message names. *)
Definition multi_plan (full : bool) (prgname argv2 : string) (opts : list (ascii * string)) : X tests plan :=
  p ← get_params strerror multi_opts opts;
  let defs := p.1 in
  if negb (p.2 =? 0) then print (multi_help prgname);; mret (Return 1)
  else if arg_b (opt_at defs 0) then print (multi_help prgname);; mret (Return 0)
  else if arg_b (opt_at defs 1) then print_testable_functions full;; mret (Return 0)
  else
    match o_str (opt_at defs 2) with
    | None => print (multi_help prgname);; mret (Return 1)
    | Some names =>
        routines ← funcnames_to_indices names full;
        let entries := Z.of_nat (length routines) in
        if entries =? 0 then die strerror ESRCH "no functions to test"
        else
          numthreads ←
            (if negb (arg_s (opt_at defs 3) =? -1) then
               let n := arg_u (opt_at defs 3) in
               if n <? entries then die strerror ERANGE (prgname +:+ " " +:+ argv2 +:+ " - to small number for thread count")
               else mret n
             else if 1 <? arg_u (opt_at defs 4) then mret (u64 (entries * arg_u (opt_at defs 4)))
             else mret entries);
          a ← lib alloc_request;
          match a with
          | AFail => die strerror ENOMEM prgname
          | _ => mret (Threads routines numthreads (arg_b (opt_at defs 5)))
          end
    end.

Definition multi_diff_plan : string -> string -> list (ascii * string) -> X tests plan := multi_plan false.
Definition multi_full_plan : string -> string -> list (ascii * string) -> X tests plan := multi_plan true.
End plan.
