(* ===== verification/TestProps.v ===== *)
(** The drivers of src/tests: the multi-threaded ones exclude each other from the counters,
    start no call before every thread is there, can always end, and end with the number
    of failed calls. *)

From S2P Require Import Prelude Types CLib Errors Tools Stdio Program TestLib TestThreads.

(** * Counting threads *)

(** How many threads satisfy [p]. *)
Fixpoint countp (p : nat -> tpc -> bool) (l : list tpc) : nat :=
  match l with
  | [] => O
  | t :: l' => ((if p O t then 1 else 0) + countp (fun i => p (S i)) l')%nat
  end.

Lemma countp_app p l t : countp p (l ++ [t]) = (countp p l + if p (length l) t then 1 else 0)%nat.
Proof. revert p. induction l as [|u l IH]; intros p; simpl; [lia|]. rewrite IH. simpl. lia. Qed.

Lemma countp_insert p l i t t' :
  l !! i = Some t ->
  (countp p (<[i := t']> l) + (if p i t then 1 else 0) = countp p l + (if p i t' then 1 else 0))%nat.
Proof.
  revert p i. induction l as [|u l IH]; intros p [|i] E; simplify_eq/=; [lia|].
  specialize (IH (fun i => p (S i)) i E). simpl in *. lia.
Qed.

Lemma countp_ext p q l : (forall i t, l !! i = Some t -> p i t = q i t) -> countp p l = countp q l.
Proof.
  revert p q. induction l as [|u l IH]; intros p q E; simpl; [done|].
  rewrite (E O u eq_refl), (IH (fun i => p (S i)) (fun i => q (S i))); [done|].
  intros i t Hi. by apply (E (S i)).
Qed.

Lemma countp_fmap p g l : (forall i t, p i (g t) = p i t) -> countp p (g <$> l) = countp p l.
Proof.
  revert p. induction l as [|u l IH]; intros p E; simpl; [done|].
  rewrite E, IH; [done|]. intros i t. apply E.
Qed.

Lemma countp_le p q l : (forall i t, l !! i = Some t -> p i t = true -> q i t = true) -> (countp p l <= countp q l)%nat.
Proof.
  revert p q. induction l as [|u l IH]; intros p q E; simpl; [lia|].
  pose proof (E O u eq_refl). specialize (IH (fun i => p (S i)) (fun i => q (S i)) (fun i t => E (S i) t)).
  destruct (p O u), (q O u); naive_solver lia.
Qed.

Lemma countp_length p l : (countp p l <= length l)%nat.
Proof. revert p. induction l as [|u l IH]; intros p; simpl; [lia|]. specialize (IH (fun i => p (S i))). case_match; lia. Qed.

Lemma countp_true l : countp (fun _ _ => true) l = length l.
Proof. induction l; simpl; lia. Qed.

(** A predicate that holds as often as a weaker one is that one. *)
Lemma countp_all p q l i t :
  (forall i t, p i t = true -> q i t = true) -> countp p l = countp q l -> l !! i = Some t -> q i t = true -> p i t = true.
Proof.
  revert p q i. induction l as [|u l IH]; intros p q [|i] Himp E Hi Hq; simplify_eq/=.
  - pose proof (countp_le (fun i => p (S i)) (fun i => q (S i)) l) as L.
    rewrite Hq in E. destruct (p O t); [done|].
    assert (countp (fun i => p (S i)) l <= countp (fun i => q (S i)) l)%nat by (apply L; intros; by apply Himp). lia.
  - pose proof (countp_le (fun i => p (S i)) (fun i => q (S i)) l (fun i t _ => Himp (S i) t)).
    apply (IH (fun i => p (S i)) (fun i => q (S i)) i); try done; [intros; by apply Himp|].
    pose proof (Himp O u). destruct (p O u), (q O u); naive_solver lia.
Qed.

Lemma countp_none p l : countp p l = O <-> forall i t, l !! i = Some t -> p i t = false.
Proof.
  split.
  - revert p. induction l as [|u l IH]; intros p E [|i] t Hi; simplify_eq/=; [by destruct (p O t)|].
    apply (IH (fun i => p (S i))); [destruct (p O u); lia|done].
  - intros E. pose proof (countp_le p (fun _ _ => false) l) as L.
    assert (countp (fun _ _ => false) l = O) as Z by (clear; induction l; simpl; lia).
    rewrite Z in L. apply Nat.le_0_r, L. intros i t Hi. by rewrite (E i t Hi).
Qed.

(** What the call of a thread delivered, once it is counted. *)
Definition result (t : tpc) : option bool :=
  match t with TUnlock ok | TSignal ok | TEnd ok => Some ok | _ => None end.

Definition is_some (o : option bool) : bool := match o with Some _ => true | None => false end.

Section driver.
Context (full : bool) (test_routines : list nat) (numthreads : nat) (seq : bool).
Abbreviation routine := (routine test_routines).
Abbreviation step := (step full test_routines numthreads seq).
Abbreviation sched := (sched full test_routines numthreads seq).
Abbreviation run_sched := (run_sched full test_routines numthreads seq).
Abbreviation thread_step := (thread_step test_routines seq).
Abbreviation main_step := (main_step full test_routines numthreads).

(** * Mutual exclusion *)

Definition main_holds (m : mpc) : bool :=
  match m with
  | MCreate _ | MUnlockCreate | MSet | MBroadcast | MUnlockSet | MTimedwait | MReport | MUnlockPoll _ => true
  | _ => false
  end.

Definition thread_holds (t : tpc) : bool :=
  match t with TCheck | TDone _ | TUnlock _ => true | TRun | TRan _ => seq | _ => false end.

Record exclusion (s : state) : Prop := {
  ex_main : main_holds (s_main s) = bool_decide (s_mutex s = Some OMain);
  ex_thread i t : s_threads s !! i = Some t -> thread_holds t = bool_decide (s_mutex s = Some (OThread i));
  ex_range i : s_mutex s = Some (OThread i) -> (i < length (s_threads s))%nat }.

(** The ways a step changes the state of the mutex. *)
Lemma exclusion_same s s' :
  exclusion s -> s_mutex s' = s_mutex s -> main_holds (s_main s') = main_holds (s_main s) ->
  thread_holds <$> s_threads s' = thread_holds <$> s_threads s -> exclusion s'.
Proof.
  intros [M T R] Em Eh Et. assert (length (s_threads s') = length (s_threads s)) as L
    by (by rewrite <- (length_fmap thread_holds), Et, length_fmap).
  split; rewrite ?Em, ?L; [by rewrite Eh|intros i t Hi|done].
  apply (f_equal (lookup i)) in Et. rewrite !list_lookup_fmap, Hi in Et.
  destruct (s_threads s !! i) as [u|] eqn:Hu; [|done]. injection Et as ->. by apply T.
Qed.

Lemma holds_insert (l : list tpc) (i : nat) t t' : l !! i = Some t -> thread_holds t' = thread_holds t ->
  thread_holds <$> <[i := t']> l = thread_holds <$> l.
Proof.
  intros Hi E. rewrite list_fmap_insert. apply list_insert_id. by rewrite list_lookup_fmap, Hi, E.
Qed.

Lemma exclusion_lock s s' i t :
  exclusion s -> s_mutex s = None -> s_mutex s' = Some (OThread i) -> s_main s' = s_main s ->
  (i < length (s_threads s))%nat -> s_threads s' = <[i := t]> (s_threads s) -> thread_holds t = true -> exclusion s'.
Proof.
  intros [M T R] E0 E1 Em Hi Et Ht. split; rewrite ?E1, ?Em, ?Et, ?length_insert.
  - rewrite M, E0. by rewrite !bool_decide_eq_false_2.
  - intros j u. destruct (decide (i = j)) as [<-|N].
    + rewrite list_lookup_insert_eq by done. intros [= <-]. by rewrite Ht, bool_decide_eq_true_2.
    + rewrite list_lookup_insert_ne by done. intros Hu. rewrite (T _ _ Hu), E0.
      rewrite !bool_decide_eq_false_2; [done|congruence|done].
  - congruence.
Qed.

Lemma exclusion_unlock s s' i t t' :
  exclusion s -> s_threads s !! i = Some t -> thread_holds t = true -> s_mutex s' = None -> s_main s' = s_main s ->
  s_threads s' = <[i := t']> (s_threads s) -> thread_holds t' = false -> exclusion s'.
Proof.
  intros [M T R] Hi Ht E1 Em Et Ht'. pose proof (T _ _ Hi) as O. rewrite Ht in O. symmetry in O. apply bool_decide_eq_true_1 in O.
  split; rewrite ?E1, ?Em, ?Et, ?length_insert; [|intros j u|done].
  - rewrite M, O. by rewrite !bool_decide_eq_false_2.
  - destruct (decide (i = j)) as [<-|N].
    + rewrite list_lookup_insert_eq by (by eapply lookup_lt_Some). intros [= <-]. by rewrite Ht', bool_decide_eq_false_2.
    + rewrite list_lookup_insert_ne by done. intros Hu. rewrite (T _ _ Hu), O.
      rewrite !bool_decide_eq_false_2; [done|done|congruence].
Qed.

Lemma exclusion_main s s' :
  exclusion s -> s_threads s' = s_threads s ->
  (s_mutex s = None /\ s_mutex s' = Some OMain /\ main_holds (s_main s') = true \/
   main_holds (s_main s) = true /\ s_mutex s' = None /\ main_holds (s_main s') = false) -> exclusion s'.
Proof.
  intros [M T R] Et C. split; rewrite ?Et.
  - destruct C as [(E0 & -> & ->)|(E0 & -> & ->)]; [by rewrite bool_decide_eq_true_2|by rewrite bool_decide_eq_false_2].
  - intros i t Hi. rewrite (T _ _ Hi). destruct C as [(-> & -> & _)|(E0 & -> & _)]; [by rewrite !bool_decide_eq_false_2|].
    rewrite E0 in M. symmetry in M. apply bool_decide_eq_true_1 in M. by rewrite M, !bool_decide_eq_false_2.
  - destruct C as [(_ & -> & _)|(_ & -> & _)]; done.
Qed.

Lemma exclusion_create s s' :
  exclusion s -> s_mutex s' = s_mutex s -> main_holds (s_main s') = main_holds (s_main s) ->
  s_threads s' = s_threads s ++ [TStart] -> main_holds (s_main s) = true -> exclusion s'.
Proof.
  intros [M T R] Em Eh Et H. pose proof M as O. rewrite H in O. symmetry in O. apply bool_decide_eq_true_1 in O.
  split; rewrite ?Em, ?Et, ?length_app; [by rewrite Eh|intros i t Hi|intros i E; congruence].
  apply lookup_app_Some in Hi as [Hi|[_ Hi]]; [by apply T|].
  apply list_lookup_singleton_Some in Hi as [_ <-]. by rewrite O, bool_decide_eq_false_2.
Qed.

Lemma holds_wake_all (l : list tpc) : thread_holds <$> ((fun t => if decide (t = TWait) then TWoken else t) <$> l) = thread_holds <$> l.
Proof. rewrite <- list_fmap_compose. apply list_fmap_ext. intros i t _. simpl. by destruct (decide (t = TWait)) as [->|]. Qed.

Lemma lock_inv o s s' : lock o s = Some s' -> s_mutex s = None /\ s' = set_mutex (Some o) s.
Proof. unfold lock. destruct (s_mutex s); naive_solver. Qed.

Lemma wake_inv w s s' : wake w s = Some s' ->
  (s_main s = MWaiting /\ s' = set_main MRewake s) \/
  exists i, s_threads s !! i = Some TWait /\ s' = at_thread i TWoken s.
Proof. unfold wake. destruct w as [|i]; case_decide; naive_solver. Qed.

(** pthread_cond_signal before the end of a thread. *)
Lemma signal_inv i w s s' ok :
  s_threads s !! i = Some (TSignal ok) ->
  ((if someone_waits s then wake w s else Some s) ≫= fun s => Some (at_thread i (TEnd ok) s)) = Some s' ->
  exists s1, (s1 = s \/ wake w s = Some s1) /\ s_threads s1 !! i = Some (TSignal ok) /\ s' = at_thread i (TEnd ok) s1.
Proof.
  intros Hi E. destruct (if someone_waits s then wake w s else Some s) as [s1|] eqn:W; simplify_eq/=.
  exists s1. destruct (someone_waits s); simplify_eq; [|by auto]. split; [by right|]. split; [|done].
  apply wake_inv in W as [[_ ->]|(j & Hj & ->)]; [done|].
  simpl. rewrite list_lookup_insert_ne; [done|congruence].
Qed.

Lemma exclusion_wake w s s' : exclusion s -> wake w s = Some s' -> exclusion s'.
Proof.
  intros I [[E ->]|(i & Hi & ->)]%wake_inv; eapply (exclusion_same s); try done; simpl; [by rewrite E|].
  by eapply holds_insert.
Qed.

Lemma exclusion_thread_step i success w s s' : exclusion s -> thread_step i success w s = Some s' -> exclusion s'.
Proof.
  intros I E. unfold TestThreads.thread_step in E. destruct (s_threads s !! i) as [t|] eqn:Hi; [simpl in E|done].
  pose proof (lookup_lt_Some _ _ _ Hi).
  destruct t; simpl in E; try done.
  - destruct (lock _ s) eqn:L; [|done]. apply lock_inv in L as [L ->]. simplify_eq/=.
    eapply (exclusion_lock s); done.
  - destruct (s_met s); simplify_eq/=; [|by eapply (exclusion_unlock s)].
    destruct seq eqn:Q; [eapply (exclusion_same s); try done; simpl; by eapply holds_insert|].
    by eapply (exclusion_unlock s).
  - destruct (lock _ s) eqn:L; [|done]. apply lock_inv in L as [L ->]. simplify_eq/=.
    eapply (exclusion_lock s); done.
  - simplify_eq/=. eapply (exclusion_same s); try done. by eapply holds_insert.
  - destruct seq eqn:Q; simpl in E.
    + simplify_eq/=. eapply (exclusion_same s); try done. by eapply holds_insert.
    + destruct (lock _ s) eqn:L; [|done]. apply lock_inv in L as [L ->]. simplify_eq/=. eapply (exclusion_lock s); done.
  - simplify_eq/=. eapply (exclusion_same s); try done. by eapply holds_insert.
  - simplify_eq/=. by eapply (exclusion_unlock s).
  - apply (signal_inv _ _ _ _ _ Hi) in E as (s1 & W & H1 & ->).
    assert (exclusion s1) as I1 by (destruct W as [->|W]; [done|by eapply exclusion_wake]).
    eapply (exclusion_same s1); try done. by eapply holds_insert.
Qed.

Lemma exclusion_main_step s s' : exclusion s -> main_step s = Some s' -> exclusion s'.
Proof.
  intros I E. unfold TestThreads.main_step in E.
  destruct (s_main s) eqn:Em; simpl in E;
    repeat match type of E with
    | (if ?b then _ else _) = _ => destruct b
    | (lock ?o ?x ≫= _) = _ => destruct (lock o x) eqn:L; [apply lock_inv in L as [L ->]|done]
    end; simplify_eq/=; try done;
    try (eapply (exclusion_same s); simpl; rewrite ?Em; done);
    try (eapply (exclusion_main s); simpl; rewrite ?Em; by eauto).
  - eapply (exclusion_create s); simpl; rewrite ?Em; done.
  - eapply (exclusion_same s); simpl; rewrite ?Em; try done. apply holds_wake_all.
  - destruct (s_threads s !! i) as [[]|]; simplify_eq/=. eapply (exclusion_same s); simpl; rewrite ?Em; done.
Qed.

Lemma exclusion_step s s' : exclusion s -> step s s' -> exclusion s'.
Proof.
  intros I H. destruct H as [[|i ok w|w] s s' E]; cbv [TestThreads.sched] in E.
  - by eapply exclusion_main_step.
  - by eapply exclusion_thread_step.
  - by eapply exclusion_wake.
Qed.

(** * The barrier *)

Definition created (m : mpc) : nat :=
  match m with MLockCreate => O | MCreate i => i | _ => numthreads end.
Definition met_at (m : mpc) : bool :=
  match m with MLockCreate | MCreate _ | MUnlockCreate | MSpin | MLockSet | MSet => false | _ => true end.
Definition all_here (m : mpc) : bool :=
  match m with MLockCreate | MCreate _ | MUnlockCreate | MSpin => false | _ => true end.
Definition woken (m : mpc) : bool :=
  match m with MLockCreate | MCreate _ | MUnlockCreate | MSpin | MLockSet | MSet | MBroadcast => false | _ => true end.

(** A thread that has passed the wait. *)
Definition begun (t : tpc) : bool := match t with TStart | TCheck | TWait | TWoken => false | _ => true end.
Definition counted (t : tpc) : bool := match t with TStart => false | _ => true end.

Record phases (s : state) : Prop := {
  ph_created : length (s_threads s) = created (s_main s);
  ph_bound i : s_main s = MCreate i -> (i <= numthreads)%nat;
  ph_met : s_met s = met_at (s_main s);
  ph_counter : s_counter s = u64 (Z.of_nat (countp (fun _ => counted) (s_threads s)));
  ph_here i t : all_here (s_main s) = true -> s_threads s !! i = Some t -> counted t = true;
  ph_begun i t : s_met s = false -> s_threads s !! i = Some t -> begun t = false;
  ph_woken i t : woken (s_main s) = true -> s_threads s !! i = Some t -> t <> TWait }.

Lemma woken_met m : woken m = true -> met_at m = true.
Proof. by destruct m. Qed.

Lemma wrap_next w n : wrap w (wrap w (Z.of_nat n) + 1) = wrap w (Z.of_nat (n + 1)).
Proof. unfold wrap. rewrite Zplus_mod_idemp_l. f_equal. lia. Qed.

(** A thread moves on: [n] is what it adds to the counter. *)
Lemma phases_thread s s' i t t' :
  phases s -> s_threads s !! i = Some t -> s_main s' = s_main s -> s_met s' = s_met s ->
  s_threads s' = <[i := t']> (s_threads s) ->
  s_counter s' = (if counted t then s_counter s else u64 (s_counter s + 1)) ->
  counted t' = true -> (begun t' = true -> begun t = true \/ s_met s = true) ->
  (t' = TWait -> s_met s = false) -> phases s'.
Proof.
  intros [L B M C H G W] Hi Em Ee Et Ec Hc Hb Hw. pose proof (lookup_lt_Some _ _ _ Hi).
  split; rewrite ?Em, ?Ee, ?Et, ?length_insert; try done.
  - pose proof (countp_insert (fun _ => counted) _ _ _ t' Hi) as K. simpl in K. rewrite Hc in K. rewrite Ec, C.
    destruct (counted t); [|rewrite wrap_next]; do 2 f_equal; lia.
  - intros j u A Hu. destruct (decide (i = j)) as [<-|N].
    + rewrite list_lookup_insert_eq in Hu by done. by simplify_eq.
    + rewrite list_lookup_insert_ne in Hu by done. by eapply H.
  - intros j u A Hu. destruct (decide (i = j)) as [<-|N].
    + rewrite list_lookup_insert_eq in Hu by done. simplify_eq.
      pose proof (G _ _ A Hi). destruct (begun u); [|done]. destruct Hb; congruence.
    + rewrite list_lookup_insert_ne in Hu by done. by eapply G.
  - intros j u A Hu -> . destruct (decide (i = j)) as [<-|N].
    + rewrite list_lookup_insert_eq in Hu by done. simplify_eq. apply woken_met in A. rewrite Hw in M by done. congruence.
    + rewrite list_lookup_insert_ne in Hu by done. by eapply W.
Qed.

(** The main thread moves on without touching the others. *)
Lemma phases_main s s' :
  phases s -> s_threads s' = s_threads s -> s_counter s' = s_counter s ->
  created (s_main s') = created (s_main s) -> (forall i, s_main s' = MCreate i -> (i <= numthreads)%nat) ->
  s_met s' = met_at (s_main s') -> (s_met s = true -> s_met s' = true) ->
  all_here (s_main s') = all_here (s_main s) -> woken (s_main s') = woken (s_main s) -> phases s'.
Proof.
  intros [L B M C H G W] Et Ec El Eb Ee Em Ha Hw. split; rewrite ?Et, ?Ec, ?Ha, ?Hw; try done; [congruence|].
  intros i t A. apply G. destruct (s_met s); naive_solver.
Qed.

Lemma phases_wake w s s' : phases s -> wake w s = Some s' -> phases s'.
Proof.
  intros I [[E ->]|(i & Hi & ->)]%wake_inv.
  - apply (phases_main s); try done; simpl; rewrite ?E; try done. rewrite (ph_met _ I). by rewrite E.
  - by eapply (phases_thread s).
Qed.

Lemma phases_thread_step i success w s s' : phases s -> thread_step i success w s = Some s' -> phases s'.
Proof.
  intros I E. unfold TestThreads.thread_step in E. destruct (s_threads s !! i) as [t|] eqn:Hi; [simpl in E|done].
  destruct t; simpl in E; try done;
    repeat match type of E with
    | (if ?b then Some _ else Some _) = _ => destruct b eqn:?
    | (lock ?o ?x ≫= _) = _ => destruct (lock o x) eqn:L; [apply lock_inv in L as [L ->]|done]
    end; simplify_eq/=; try (eapply (phases_thread s); simpl; eauto; by destruct seq).
  - destruct seq; simpl in E; [|destruct (lock _ s) eqn:L; [apply lock_inv in L as [L ->]|done]];
      simplify_eq/=; eapply (phases_thread s); simpl; eauto; done.
  - apply (signal_inv _ _ _ _ _ Hi) in E as (s1 & W & H1 & ->).
    assert (phases s1) as I1 by (destruct W as [->|W]; [done|by eapply phases_wake]).
    eapply (phases_thread s1); simpl; eauto; done.
Qed.

Hypothesis numthreads_int : Z.of_nat numthreads < 2 ^ 31.

Lemma phases_main_step s s' : phases s -> main_step s = Some s' -> phases s'.
Proof.
  intros I E. unfold TestThreads.main_step in E. pose proof I as [L B M C H G W].
  destruct (s_main s) eqn:Em; simpl in *;
    repeat match type of E with
    | (if ?b then Some _ else Some _) = _ => destruct b eqn:?
    | (lock ?o ?x ≫= _) = _ => destruct (lock o x) eqn:Lk; [apply lock_inv in Lk as [Lk ->]|done]
    end; simplify_eq/=; try done;
    try (apply (phases_main s); simpl; rewrite ?Em; naive_solver lia).
  - (* a new thread *)
    apply Nat.ltb_lt in Heqb. split; simpl; rewrite ?length_app, ?countp_app; simpl; try done; try naive_solver lia.
    + by rewrite Nat.add_0_r.
    + intros j t A [Hj|[_ [_ <-]%list_lookup_singleton_Some]]%lookup_app_Some; [by eapply G|done].
  - (* no more threads *)
    apply Nat.ltb_ge in Heqb. specialize (B _ eq_refl). split; simpl; try done; lia.
  - (* the counter has reached the number of threads *)
    split; simpl; try done.
    intros i t _ Hi.
    apply (countp_all (fun _ => counted) (fun _ _ => true) (s_threads s) i); try done.
    pose proof (countp_length (fun _ => counted) (s_threads s)).
    rewrite countp_true.
    apply Z.ltb_ge in Heqb. rewrite C, wrap_small in Heqb by lia. lia.
  - (* the broadcast *)
    split; simpl; rewrite ?length_fmap; try done.
    + rewrite countp_fmap; [done|]. intros _ t. by case_decide; simplify_eq.
    + intros i t _ (u & -> & Hu)%list_lookup_fmap_Some. case_decide; [done|by eapply H].
    + intros i t A. congruence.
    + intros i t _ (u & -> & Hu)%list_lookup_fmap_Some. by case_decide.
  - repeat case_match; simplify_eq; apply (phases_main s); simpl; rewrite ?Em; naive_solver lia.
Qed.

Lemma phases_step s s' : phases s -> step s s' -> phases s'.
Proof.
  intros I H. destruct H as [[|i ok w|w] s s' E]; cbv [TestThreads.sched] in E.
  - by eapply phases_main_step.
  - by eapply phases_thread_step.
  - by eapply phases_wake.
Qed.

(** * The counters *)

(** The table when the threads are at [ths]. *)
Definition row (ths : list tpc) (k : nat) (f : statgrab_testfuncs) : statgrab_testfuncs :=
  mk_testfuncs (stat_name f) (full_name f) (diff_name f)
    (u32 (Z.of_nat (countp (fun i _ => (routine i =? k)%nat) ths)))
    (u32 (Z.of_nat (countp (fun i t => (routine i =? k)%nat && bool_decide (result t = Some true)) ths)))
    (u32 (Z.of_nat (countp (fun i t => (routine i =? k)%nat && is_some (result t)) ths))).
Definition table (fs : list statgrab_testfuncs) (ths : list tpc) : list statgrab_testfuncs := imap (row ths) fs.

Lemma table_ext fs ths ths' : (forall k f, fs !! k = Some f -> row ths k f = row ths' k f) -> table fs ths = table fs ths'.
Proof.
  intros E. apply list_eq. intros k. unfold table. rewrite !list_lookup_imap.
  destruct (fs !! k) eqn:Hk; [simpl; f_equal; by apply E|done].
Qed.

Lemma alter_table fs ths ths' g r :
  (forall k f, fs !! k = Some f -> row ths' k f = if (r =? k)%nat then g (row ths k f) else row ths k f) ->
  alter g r (table fs ths) = table fs ths'.
Proof.
  intros E. apply list_eq. intros k. unfold table.
  destruct (decide (r = k)) as [->|N].
  - rewrite list_lookup_alter_eq, !list_lookup_imap. destruct (fs !! k) eqn:Hk; [|done]. simpl. f_equal.
    by rewrite (E _ _ Hk), Nat.eqb_refl.
  - rewrite list_lookup_alter_ne by done. rewrite !list_lookup_imap. destruct (fs !! k) eqn:Hk; [|done]. simpl. f_equal.
    rewrite (E _ _ Hk). by apply Nat.eqb_neq in N as ->.
Qed.

(** Only the step behind [done_func] and a new thread change the table. *)
Lemma table_insert fs ths i t t' : ths !! i = Some t -> result t' = result t -> table fs (<[i := t']> ths) = table fs ths.
Proof.
  intros Hi E. apply table_ext. intros k f _. unfold row.
  pose proof (countp_insert (fun i _ => (routine i =? k)%nat) ths i t t' Hi) as N1.
  pose proof (countp_insert (fun i t => (routine i =? k)%nat && bool_decide (result t = Some true)) ths i t t' Hi) as N2.
  pose proof (countp_insert (fun i t => (routine i =? k)%nat && is_some (result t)) ths i t t' Hi) as N3.
  simpl in *. rewrite E in *. by f_equal; do 2 f_equal; lia.
Qed.

Lemma table_create fs ths : alter count_needed (routine (length ths)) (table fs ths) = table fs (ths ++ [TStart]).
Proof.
  apply alter_table. intros k f _. unfold row, count_needed. rewrite !countp_app. simpl.
  destruct (routine _ =? k)%nat; simpl; rewrite ?wrap_next, !Nat.add_0_r; done.
Qed.

Lemma table_done fs ths i ok :
  ths !! i = Some (TDone ok) -> alter (count_done ok) (routine i) (table fs ths) = table fs (<[i := TUnlock ok]> ths).
Proof.
  intros Hi. apply alter_table. intros k f _. unfold row, count_done.
  pose proof (countp_insert (fun i _ => (routine i =? k)%nat) ths i _ (TUnlock ok) Hi) as N1.
  pose proof (countp_insert (fun i t => (routine i =? k)%nat && bool_decide (result t = Some true)) ths i _ (TUnlock ok) Hi) as N2.
  pose proof (countp_insert (fun i t => (routine i =? k)%nat && is_some (result t)) ths i _ (TUnlock ok) Hi) as N3.
  simpl in *. destruct (routine i =? k)%nat, ok; simpl in *; rewrite ?wrap_next; f_equal; do 2 f_equal; lia.
Qed.

Lemma table_wake_all fs ths : table fs ((fun t => if decide (t = TWait) then TWoken else t) <$> ths) = table fs ths.
Proof.
  apply table_ext. intros k f _. unfold row.
  rewrite !countp_fmap; [done|intros i t; by destruct (decide (t = TWait)) as [->|]..].
Qed.

Context (fs : list statgrab_testfuncs).

Definition counters (s : state) : Prop := s_funcs s = table fs (s_threads s).

Lemma counters_wake w s s' : counters s -> wake w s = Some s' -> counters s'.
Proof.
  unfold counters. intros I [[E ->]|(i & Hi & ->)]%wake_inv; simpl; [done|].
  by rewrite (table_insert _ _ _ TWait).
Qed.

Lemma counters_thread_step i success w s s' : counters s -> thread_step i success w s = Some s' -> counters s'.
Proof.
  intros I E. unfold TestThreads.thread_step in E. destruct (s_threads s !! i) as [t|] eqn:Hi; [simpl in E|done].
  unfold counters in *. destruct t; simpl in E; try done;
    repeat match type of E with
    | (if ?b then Some _ else Some _) = _ => destruct b eqn:?
    | (lock ?o ?x ≫= _) = _ => destruct (lock o x) eqn:L; [apply lock_inv in L as [L ->]|done]
    end; simplify_eq/=; try (by destruct seq; simpl; rewrite I, (table_insert _ _ _ _ _ Hi)).
  - destruct seq; simpl in E; [|destruct (lock _ s) eqn:L; [apply lock_inv in L as [L ->]|done]];
      simplify_eq/=; by rewrite I, (table_insert _ _ _ _ _ Hi).
  - rewrite I. by apply table_done.
  - apply (signal_inv _ _ _ _ _ Hi) in E as (s1 & W & H1 & ->).
    assert (counters s1) as I1 by (destruct W as [->|W]; [done|by eapply counters_wake]).
    unfold counters in I1. simpl. by rewrite I1, (table_insert _ _ _ _ _ H1).
Qed.

Lemma counters_main_step s s' : phases s -> counters s -> main_step s = Some s' -> counters s'.
Proof.
  intros P I E. unfold TestThreads.main_step in E. pose proof (ph_created _ P) as L. unfold counters in *.
  destruct (s_main s) eqn:Em; simpl in E, L;
    repeat match type of E with
    | (if ?b then Some _ else Some _) = _ => destruct b eqn:?
    | (lock ?o ?x ≫= _) = _ => destruct (lock o x) eqn:Lk; [apply lock_inv in Lk as [Lk ->]|done]
    end; repeat case_match; simplify_eq/=; try done.
  - rewrite I. apply table_create.
  - by rewrite I, table_wake_all.
Qed.

Lemma counters_step s s' : phases s -> counters s -> step s s' -> counters s'.
Proof.
  intros P I H. destruct H as [[|i ok w|w] s s' E]; cbv [TestThreads.sched] in E.
  - by eapply counters_main_step.
  - by eapply counters_thread_step.
  - by eapply counters_wake.
Qed.

(** * The end *)

Definition ended (t : tpc) : bool := match t with TEnd _ => true | _ => false end.

Definition ends (s : state) : Prop :=
  match s_main s with
  | MUnlockPoll ok => ok = settled (s_funcs s)
  | MJoin i =>
      (i <= numthreads)%nat /\ (forall j t, s_threads s !! j = Some t -> is_some (result t) = true) /\
      forall j t, (j < i)%nat -> s_threads s !! j = Some t -> ended t = true
  | MSum => forall j t, s_threads s !! j = Some t -> ended t = true
  | MEnd errors => (forall j t, s_threads s !! j = Some t -> ended t = true) /\ errors = sum_errors (s_funcs s)
  | _ => True
  end.

Lemma thread_step_main i success w s s' :
  thread_step i success w s = Some s' -> s_main s' = s_main s \/ s_main s = MWaiting /\ s_main s' = MRewake.
Proof.
  intros E. unfold TestThreads.thread_step in E. destruct (s_threads s !! i) as [t|] eqn:Hi; [simpl in E|done].
  destruct t; simpl in E; try done; try (apply (signal_inv _ _ _ _ _ Hi) in E as (s1 & W & H1 & ->);
    destruct W as [->|[[E ->]|(j & Hj & ->)]%wake_inv]; by eauto);
    repeat case_match; simplify_eq/=; eauto;
    destruct (lock _ s) eqn:L; try done; apply lock_inv in L as [L ->]; simplify_eq/=; eauto.
Qed.

(** A step of a thread after the broadcast: it changes the table only with the mutex. *)
Lemma thread_step_shape i success w s s' :
  phases s -> woken (s_main s) = true -> s_main s <> MWaiting -> thread_step i success w s = Some s' ->
  exists t t', s_threads s !! i = Some t /\ ended t = false /\ s_threads s' = <[i := t']> (s_threads s) /\
    s_main s' = s_main s /\ (is_some (result t) = true -> is_some (result t') = true) /\
    (s_funcs s' = s_funcs s \/ thread_holds t = true).
Proof.
  intros P A N E. unfold TestThreads.thread_step in E. destruct (s_threads s !! i) as [t|] eqn:Hi; [simpl in E|done].
  destruct t; simpl in E; try done;
    repeat match type of E with
    | (if ?b then Some _ else Some _) = _ => destruct b eqn:?
    | (lock ?o ?x ≫= _) = _ => destruct (lock o x) eqn:L; [apply lock_inv in L as [L ->]|done]
    end; simplify_eq/=; try (destruct seq; eexists _, _; simpl; split_and!; eauto; done).
  - destruct seq; simpl in E; [|destruct (lock _ s) eqn:L; [apply lock_inv in L as [L ->]|done]];
      simplify_eq/=; eexists _, _; simpl; split_and!; eauto.
  - apply (signal_inv _ _ _ _ _ Hi) in E as (s1 & W & H1 & ->).
    assert (s1 = s) as ->; [|eexists _, _; simpl; split_and!; eauto].
    destruct W as [|[[]|(j & Hj & _)]%wake_inv]; [done..|]. by destruct (ph_woken _ P _ _ A Hj).
Qed.

Hypothesis routines_valid : test_routines <> [] /\ Forall (fun r => (r < length fs)%nat) test_routines.

Lemma routine_valid i : (routine i < length fs)%nat.
Proof.
  destruct routines_valid as [N V]. unfold TestThreads.routine.
  destruct (lookup_lt_is_Some_2 test_routines (i mod length test_routines)) as [r Hr].
  - apply Nat.mod_upper_bound. by destruct test_routines.
  - rewrite Hr. by eapply Forall_lookup_1 in V.
Qed.

Lemma ends_thread_step i success w s s' :
  exclusion s -> phases s -> ends s -> thread_step i success w s = Some s' -> ends s'.
Proof.
  intros X P I E. destruct (decide (woken (s_main s) = true /\ s_main s <> MWaiting)) as [[A N]|N].
  - destruct (thread_step_shape _ _ _ _ _ P A N E) as (t & t' & Hi & Ht & Et & Em & Hr & Hf).
    pose proof (lookup_lt_Some _ _ _ Hi).
    unfold ends in *. rewrite Em. destruct (s_main s) eqn:M; try done.
    + destruct Hf as [->|Hf]; [done|]. pose proof (ex_main _ X) as O. rewrite M in O. symmetry in O.
      apply bool_decide_eq_true_1 in O. pose proof (ex_thread _ X _ _ Hi) as O'. rewrite Hf, O in O'.
      by rewrite bool_decide_eq_false_2 in O'.
    + destruct I as (L & R & J). split_and!; [done| |]; rewrite Et; intros j u.
      * destruct (decide (i = j)) as [<-|D]; [|rewrite list_lookup_insert_ne by done; apply R].
        rewrite list_lookup_insert_eq by done. intros [= <-]. by apply Hr, (R i).
      * intros K. destruct (decide (i = j)) as [<-|D]; [|rewrite list_lookup_insert_ne by done; by apply J].
        by rewrite (J i t K Hi) in Ht.
    + by rewrite (I _ _ Hi) in Ht.
    + destruct I as [I _]. by rewrite (I _ _ Hi) in Ht.
  - unfold ends in *. destruct (thread_step_main _ _ _ _ _ E) as [Em|[Em Em']]; rewrite ?Em, ?Em'; [|done].
    destruct (s_main s); naive_solver.
Qed.

Lemma settled_all l : settled l = length l -> forall f, f ∈ l -> needed f = done_ f.
Proof.
  unfold settled. induction l as [|g l IH]; intros E f Hf; [by apply elem_of_nil in Hf|].
  rewrite filter_cons in E. case_decide; simpl in E.
  - apply elem_of_cons in Hf as [->|Hf]; [done|]. apply IH; [lia|done].
  - pose proof (length_filter (fun f => needed f = done_ f) l). lia.
Qed.

Lemma table_row ths k : (k < length fs)%nat -> exists f, fs !! k = Some f /\ row ths k f ∈ table fs ths.
Proof.
  intros [f Hf]%lookup_lt_is_Some. exists f. split; [done|]. apply list_elem_of_lookup. exists k.
  unfold table. by rewrite list_lookup_imap, Hf.
Qed.

(** When every function has as many calls done as needed, every thread has counted its call. *)
Lemma settled_results s :
  phases s -> counters s -> woken (s_main s) = true -> settled (s_funcs s) = length (s_funcs s) ->
  forall j t, s_threads s !! j = Some t -> is_some (result t) = true.
Proof.
  intros P I A S j t Hj. rewrite I in S.
  destruct (table_row (s_threads s) (routine j) (routine_valid j)) as (f & Hf & Hr).
  pose proof (settled_all _ S _ Hr) as E. unfold row in E. simpl in E.
  assert (Z.of_nat (length (s_threads s)) < 2 ^ 32) as B.
  { rewrite (ph_created _ P). destruct (s_main s); simpl in *; try done; lia. }
  rewrite !wrap_small in E by (match goal with |- context [countp ?p ?l] => pose proof (countp_length p l) end; lia).
  apply Nat2Z.inj in E. symmetry in E.
  pose proof (countp_all _ _ _ j t ltac:(by intros ? ? [? _]%andb_prop) E Hj) as K. simpl in K.
  rewrite Nat.eqb_refl in K. by apply K.
Qed.

Lemma ends_main_step s s' :
  phases s -> counters s -> ends s -> main_step s = Some s' -> ends s'.
Proof.
  intros P K I E. unfold TestThreads.main_step in E. pose proof (ph_created _ P) as L.
  unfold ends in *. destruct (s_main s) eqn:Em; simpl in E, L;
    repeat match type of E with
    | (if ?b then Some _ else Some _) = _ => destruct b eqn:?
    | (lock ?o ?x ≫= _) = _ => destruct (lock o x) eqn:Lk; [apply lock_inv in Lk as [Lk ->]|done]
    end; simplify_eq/=; rewrite ?Em; try done.
  - apply Nat.eqb_eq in Heqb. split_and!; [lia| |intros; lia].
    eapply settled_results; try done. by rewrite Em.
  - destruct I as (B & R & J). destruct (i <? numthreads)%nat eqn:Hi.
    + apply Nat.ltb_lt in Hi. destruct (s_threads s !! i) as [[]|] eqn:Ht; simplify_eq/=.
      split_and!; [lia|done|]. intros j t Hj Hjt. destruct (decide (j = i)) as [->|]; [by simplify_eq|]. apply (J j); [lia|done].
    + simplify_eq/=. apply Nat.ltb_ge in Hi. intros j t Hj. apply (J j); [|done].
      apply lookup_lt_Some in Hj. lia.
Qed.

Lemma ends_wake w s s' : ends s -> wake w s = Some s' -> phases s -> ends s'.
Proof.
  intros I [[E ->]|(i & Hi & ->)]%wake_inv P; unfold ends in *; simpl; [done|].
  destruct (s_main s) eqn:Em; try done; exfalso; eapply ph_woken; try done; by rewrite Em.
Qed.

(** * What holds in every state a run reaches *)

Record inv (s : state) : Prop := {
  inv_exclusion : exclusion s; inv_phases : phases s; inv_counters : counters s; inv_ends : ends s }.

Lemma inv_step s s' : inv s -> step s s' -> inv s'.
Proof.
  intros [X P K I] H. split; [by eapply exclusion_step|by eapply phases_step|by eapply counters_step|].
  destruct H as [[|i ok w|w] s s' E]; cbv [TestThreads.sched] in E.
  - by eapply ends_main_step.
  - by eapply ends_thread_step.
  - by eapply ends_wake.
Qed.

Hypothesis fresh : Forall (fun f => needed f = 0 /\ succeeded f = 0 /\ done_ f = 0) fs.

Lemma inv_initial : inv (initial fs).
Proof.
  split; [split; try done|split; try done| |done].
  unfold counters. simpl. apply list_eq. intros k. unfold table. rewrite list_lookup_imap.
  destruct (fs !! k) as [f|] eqn:Hk; [|done]. simpl. f_equal. unfold row. simpl.
  pose proof (Forall_lookup_1 _ _ _ _ fresh Hk) as (N & S & D). destruct f; simpl in *. by subst.
Qed.

Lemma inv_rtc s s' : inv s -> rtc step s s' -> inv s'.
Proof. intros I H. induction H; [done|]. eauto using inv_step. Qed.

Lemma inv_reachable s : rtc step (initial fs) s -> inv s.
Proof. apply inv_rtc, inv_initial. Qed.

(** ** The number of errors *)

Lemma countp_filter q l : countp (fun _ => q) l = length (filter (fun t => q t = true) l).
Proof. induction l as [|t l IH]; [done|]. simpl. rewrite IH, filter_cons. by destruct (q t) eqn:E; case_decide. Qed.

Lemma countp_split p q l : (countp (fun i t => p i t && q i t) l + countp (fun i t => p i t && negb (q i t)) l = countp p l)%nat.
Proof.
  revert p q. induction l as [|t l IH]; intros p q; simpl; [done|].
  rewrite <- (IH (fun i => p (S i)) (fun i => q (S i))). destruct (p O t), (q O t); simpl; lia.
Qed.

Definition good (t : tpc) : bool := bool_decide (result t = Some true).

Lemma sum_errors_table (ths : list tpc) (gs : list statgrab_testfuncs) :
  Z.of_nat (length ths) < 2 ^ 31 ->
  sum_errors (table gs ths) = Z.of_nat (countp (fun i t => (routine i <? length gs)%nat && negb (good t)) ths).
Proof.
  intros B. unfold sum_errors, table. induction gs as [|g gs IH] using rev_ind.
  - simpl. symmetry. apply (f_equal Z.of_nat (y := O)), countp_none. by intros.
  - rewrite imap_app, foldl_app, IH. simpl. rewrite Nat.add_0_r, wrap_wrap_sub.
    set (k := length gs).
    pose proof (countp_split (fun i _ => (routine i =? k)%nat) (fun _ => good) ths) as S1.
    assert (countp (fun i t => (routine i <? length (gs ++ [g]))%nat && negb (good t)) ths =
      countp (fun i t => (routine i =? k)%nat && negb (good t)) ths + countp (fun i t => (routine i <? k)%nat && negb (good t)) ths)%nat as S2.
    { rewrite <- (countp_split _ (fun i _ => (routine i =? k)%nat)). f_equal; apply countp_ext; intros i t _;
        rewrite length_app; simpl; fold k;
        destruct (Nat.eqb_spec (routine i) k), (Nat.ltb_spec (routine i) (k + 1)), (Nat.ltb_spec (routine i) k), (good t); simpl; try done; lia. }
    pose proof (countp_length (fun i _ => (routine i =? k)%nat) ths).
    pose proof (countp_length (fun i t => (routine i <? length (gs ++ [g]))%nat && negb (good t)) ths).
    unfold good in *. rewrite (wrap_small 32) by lia.
    rewrite swrap_small; lia.
Qed.

Lemma countp_seq (p : nat -> bool) l :
  countp (fun i _ => p i) l = length (filter (fun i => p i = true) (List.seq 0 (length l))).
Proof.
  enough (forall o, countp (fun i _ => p (o + i)%nat) l = length (filter (fun i => p i = true) (List.seq o (length l)))) as G
    by (by rewrite <- (G O)).
  induction l as [|t l IH]; intros o; simpl; [done|].
  rewrite filter_cons, Nat.add_0_r, (countp_ext _ (fun i _ => p (S o + i)%nat)).
  - rewrite IH. by destruct (p o) eqn:E; case_decide.
  - intros i u _. f_equal. lia.
Qed.

(** C15: a run of the multi-threaded drivers that ends has ended all its threads, each function
    has as many calls done as there are threads for it, and the exit status is the number of
    threads whose call delivered nothing, whatever the order the threads ran in. *)
Theorem multi_threaded_result s errors :
  rtc step (initial fs) s -> s_main s = MEnd errors ->
  length (s_threads s) = numthreads /\
  (forall i t, s_threads s !! i = Some t -> exists ok, t = TEnd ok) /\
  errors = Z.of_nat (length (filter (fun t => t = TEnd false) (s_threads s))) /\
  forall k f, s_funcs s !! k = Some f ->
    needed f = Z.of_nat (length (filter (fun i => routine i = k) (List.seq 0 numthreads))) /\ done_ f = needed f.
Proof.
  intros [X P K I]%inv_reachable E. pose proof (ph_created _ P) as L. rewrite E in L. simpl in L.
  unfold ends in I. rewrite E in I. destruct I as [I ->].
  split_and!; [done|intros i t Hi; pose proof (I _ _ Hi); destruct t; try done; by eexists| |].
  - rewrite K, sum_errors_table by lia. f_equal.
    rewrite (countp_ext _ (fun _ t => bool_decide (t = TEnd false))), countp_filter.
    + f_equal. apply list_filter_iff. intros t. apply bool_decide_eq_true.
    + intros i t Hi. pose proof (routine_valid i) as V. apply Nat.ltb_lt in V as ->. pose proof (I _ _ Hi).
      by destruct t as [| | | | | | | | |[]].
  - intros k f Hf. rewrite K in Hf. unfold table in Hf. rewrite list_lookup_imap in Hf.
    destruct (fs !! k) as [g|]; simplify_eq/=.
    rewrite (countp_ext (fun i t => _ && is_some _) (fun i _ => (routine i =? k)%nat)).
    2: { intros i t Hi. pose proof (I _ _ Hi). destruct t; try done. by rewrite andb_true_r. }
    split; [|done]. rewrite wrap_small; [|pose proof (countp_length (fun i _ => (routine i =? k)%nat) (s_threads s)); lia].
    rewrite countp_seq, L. f_equal. f_equal. apply list_filter_iff. intros i. apply Nat.eqb_eq.
Qed.

(** C23: the threads exclude each other: two threads that hold the mutex are one; with -s no two
    threads are in the functions under test at once; and no thread is in one before
    all of them have been created and counted. *)
Theorem multi_threaded_safe s :
  rtc step (initial fs) s ->
  (forall i j t u, s_threads s !! i = Some t -> s_threads s !! j = Some u ->
     thread_holds t = true -> thread_holds u = true -> i = j /\ main_holds (s_main s) = false) /\
  (seq = true -> forall i j, s_threads s !! i = Some TRun -> s_threads s !! j = Some TRun -> i = j) /\
  (forall i t, s_threads s !! i = Some t -> begun t = true ->
     length (s_threads s) = numthreads /\ TStart ∉ s_threads s).
Proof.
  intros [X P K I]%inv_reachable.
  assert (forall i j t u, s_threads s !! i = Some t -> s_threads s !! j = Some u ->
     thread_holds t = true -> thread_holds u = true -> i = j /\ main_holds (s_main s) = false) as U.
  { intros i j t u Hi Hj Ht Hu. pose proof (ex_thread _ X _ _ Hi) as A. pose proof (ex_thread _ X _ _ Hj) as B.
    rewrite Ht in A. rewrite Hu in B. symmetry in A, B. apply bool_decide_eq_true_1 in A, B.
    split; [congruence|]. rewrite (ex_main _ X), A. by rewrite bool_decide_eq_false_2. }
  split_and!; [done| |].
  - intros Q i j Hi Hj. by eapply U; simpl.
  - intros i t Hi Hb. assert (s_met s = true) as M.
    { destruct (s_met s) eqn:M; [done|]. by rewrite (ph_begun _ P _ _ M Hi) in Hb. }
    rewrite (ph_met _ P) in M. split; [rewrite (ph_created _ P); by destruct (s_main s)|].
    intros (j & Hj)%list_elem_of_lookup. assert (all_here (s_main s) = true) as H by (by destruct (s_main s)).
    by pose proof (ph_here _ P j TStart H Hj).
Qed.

(** * Every run can end *)

(** How far a thread is from its end. *)
Definition thread_rank (met : bool) (t : tpc) : nat :=
  match t with
  | TStart => 12 | TWoken => if met then 8 else 11 | TCheck => if met then 7 else 10 | TWait => 9
  | TRun => 6 | TRan _ => 5 | TDone _ => 4 | TUnlock _ => 3 | TSignal _ => 2 | TEnd _ => 0
  end%nat.

Definition ranks (met : bool) (l : list tpc) : nat := sum_list (thread_rank met <$> l).
Definition threads_rank (s : state) : nat := (ranks (s_met s) (s_threads s) + 13 * (numthreads - length (s_threads s)))%nat.

(** How far the main thread is from a place where it has to wait, while [left] says that
    there are threads left, and from its end otherwise. *)
Definition main_rank (left : bool) (n : nat) (m : mpc) : nat :=
  match m with
  | MLockCreate => numthreads + 50 | MCreate _ => numthreads + 49 | MUnlockCreate => numthreads + 48
  | MSpin => numthreads + 47 | MLockSet => numthreads + 46 | MSet => numthreads + 45
  | MBroadcast => numthreads + 44 | MUnlockSet => numthreads + 43
  | MLockPoll => if left then 1 else numthreads + 9
  | MTimedwait => if left then 1 else numthreads + 8
  | MWaiting => if left then 0 else numthreads + 7
  | MRewake => if left then 0 else numthreads + 6
  | MReport => numthreads + 5
  | MUnlockPoll ok => if left then numthreads + 4 else if (ok =? n)%nat then numthreads + 4 else numthreads + 10
  | MJoin i => numthreads - i + 2
  | MSum => 1
  | MEnd _ => 0
  end%nat.

Definition threads_left (s : state) : bool := (0 <? threads_rank s)%nat.

Definition measure (s : state) : nat :=
  (threads_rank s * (numthreads + 60) + main_rank (threads_left s) (length (s_funcs s)) (s_main s))%nat.

Lemma main_rank_bound left n m : (main_rank left n m < numthreads + 60)%nat.
Proof. destruct m; simpl; repeat case_match; lia. Qed.

Lemma measure_threads s s' : (threads_rank s' < threads_rank s)%nat -> (measure s' < measure s)%nat.
Proof.
  intros H. unfold measure. pose proof (main_rank_bound (threads_left s') (length (s_funcs s')) (s_main s')). nia.
Qed.

Lemma measure_main s s' :
  (threads_rank s' <= threads_rank s)%nat -> 
  (main_rank (threads_left s) (length (s_funcs s')) (s_main s') < main_rank (threads_left s) (length (s_funcs s)) (s_main s))%nat ->
  (measure s' < measure s)%nat.
Proof.
  intros H K. destruct (decide (threads_rank s' = threads_rank s)) as [E|]; [|apply measure_threads; lia].
  unfold measure, threads_left in *. rewrite E. lia.
Qed.

Lemma ranks_insert met (l : list tpc) (i : nat) t t' :
  l !! i = Some t -> (ranks met (<[i := t']> l) + thread_rank met t = ranks met l + thread_rank met t')%nat.
Proof.
  unfold ranks. revert i. induction l as [|u l IH]; intros [|i] E; simplify_eq/=; [lia|]. specialize (IH i E). lia.
Qed.

Lemma measure_thread s s' i t t' :
  s_threads s !! i = Some t -> s_threads s' = <[i := t']> (s_threads s) -> s_met s' = s_met s ->
  (thread_rank (s_met s) t' < thread_rank (s_met s) t)%nat -> (measure s' < measure s)%nat.
Proof.
  intros Hi Et Em R. apply measure_threads. unfold threads_rank. rewrite Et, Em, length_insert.
  pose proof (ranks_insert (s_met s) _ _ _ t' Hi). lia.
Qed.

(** A schedule that gives [ok i] as the result of the call of thread [i] and has no
    wake-up without a signal. *)
Definition allowed (ok : nat -> bool) (c : choice) : Prop :=
  match c with CMain => True | CThread i success _ => success = ok i | CSpurious _ => False end.

Definition decreases (ok : nat -> bool) (s : state) : Prop :=
  exists c s', allowed ok c /\ sched c s = Some s' /\ (measure s' < measure s)%nat.

(** A thread that is not waiting for the mutex or for a signal can go on. *)
Lemma thread_decreases ok s i t :
  phases s -> s_threads s !! i = Some t -> (s_mutex s = None \/ thread_holds t = true) ->
  t <> TWait -> ended t = false -> (begun t = true -> woken (s_main s) = true) -> decreases ok s.
Proof.
  intros P Hi Hm Hn He Hb. exists (CThread i (ok i) WMain).
  assert (forall s' t', s_threads s' = <[i := t']> (s_threads s) -> s_met s' = s_met s ->
    (thread_rank (s_met s) t' < thread_rank (s_met s) t)%nat -> (measure s' < measure s)%nat) as G
    by (intros; by eapply measure_thread).
  cbv [TestThreads.sched TestThreads.thread_step]. rewrite Hi. simpl.
  destruct t; try done; simpl in *; try (destruct Hm as [Hm|]; [|done]; unfold lock; rewrite Hm);
    try (eexists; split_and!; [done..|]; eapply G; simpl; [done..|]; destruct (s_met s); simpl; lia).
  - destruct (s_met s) eqn:M; (eexists; split_and!; [done..|]; eapply G; simpl; [by destruct seq|by destruct seq|simpl; lia]).
  - unfold lock. destruct seq; simpl; [|destruct Hm as [Hm|]; [rewrite Hm|done]];
      (eexists; split_and!; [done..|]; eapply G; simpl; [done..|simpl; lia]).
  - assert (someone_waits s = true -> s_main s = MWaiting) as W.
    { unfold someone_waits. intros [M%bool_decide_eq_true|M%bool_decide_eq_true]%orb_true_iff; [done|].
      apply list_elem_of_lookup in M as [j Hj]. by destruct (ph_woken _ P _ _ (Hb eq_refl) Hj). }
    destruct (someone_waits s); simpl.
    + rewrite decide_True by auto. eexists; split_and!; [done..|]. eapply G; simpl; [done..|simpl; lia].
    + eexists; split_and!; [done..|]. eapply G; simpl; [done..|simpl; lia].
Qed.

Lemma ranks_met (l : list tpc) : (ranks true l <= ranks false l)%nat.
Proof. unfold ranks. induction l as [|[] l IH]; csimpl; lia. Qed.

Lemma ranks_wake_all (l : list tpc) :
  (ranks true ((fun t => if decide (t = TWait) then TWoken else t) <$> l) <= ranks true l)%nat.
Proof. unfold ranks. induction l as [|t l IH]; [done|]. rewrite !fmap_cons. cbn [sum_list].
  destruct (decide (t = TWait)) as [->|].
  all: cbn [thread_rank id]; lia.
Qed.

Lemma ranks_app met (l : list tpc) t : ranks met (l ++ [t]) = (ranks met l + thread_rank met t)%nat.
Proof. unfold ranks. induction l as [|u l IH]; csimpl; [lia|]. rewrite IH. lia. Qed.

Lemma ranks_zero met (l : list tpc) : ranks met l = O <-> forall i t, l !! i = Some t -> ended t = true.
Proof.
  unfold ranks. induction l as [|u l IH]; csimpl; [done|]. split.
  - intros E [|i] t Hi; simplify_eq/=; [by destruct t, met; simpl in *; try lia|]. eapply IH; [lia|done].
  - intros E. rewrite (proj2 IH); [|intros i t; apply (E (S i))]. specialize (E O u eq_refl). by destruct u.
Qed.

Lemma filter_all {A} (P : A -> Prop) `{!forall x, Decision (P x)} (l : list A) : Forall P l -> filter P l = l.
Proof. induction 1 as [|x l Hx _ IH]; [done|]. by rewrite filter_cons_True, IH. Qed.

(** With all threads at their end the report counts every function. *)
Lemma ended_settled s : counters s -> (forall i t, s_threads s !! i = Some t -> ended t = true) -> settled (s_funcs s) = length (s_funcs s).
Proof.
  intros K E. rewrite K. unfold settled. rewrite filter_all; [done|].
  apply Forall_lookup. intros k f Hf. unfold table in Hf. rewrite list_lookup_imap in Hf.
  destruct (fs !! k) as [g|]; simplify_eq/=. do 2 f_equal. apply countp_ext.
  intros i t Hi. specialize (E _ _ Hi). destruct t; try done. simpl. by rewrite andb_true_r.
Qed.
Lemma holder_decreases ok s : inv s -> (forall e, s_main s <> MEnd e) -> main_holds (s_main s) = true -> decreases ok s.
Proof.
  intros [X P K I] N H. exists CMain.
  assert (forall s', (threads_rank s' <= threads_rank s)%nat ->
    (main_rank (threads_left s) (length (s_funcs s')) (s_main s') < main_rank (threads_left s) (length (s_funcs s)) (s_main s))%nat ->
    (measure s' < measure s)%nat) as G by (intros; by apply measure_main).
  cbv [TestThreads.sched TestThreads.main_step]. pose proof (ph_created _ P) as L. pose proof (ph_met _ P) as M.
  destruct (s_main s) eqn:Em; try done; simpl in L, M;
    try (eexists; split_and!; [done..|]; apply G; simpl; [done|]; destruct (threads_left s); simpl; lia).
  - destruct (i <? numthreads)%nat eqn:Hi; (eexists; split_and!; [done..|]).
    + apply Nat.ltb_lt in Hi. apply measure_threads. unfold threads_rank. simpl. rewrite ranks_app, length_app. simpl. lia.
    + apply G; simpl; [done|]. lia.
  - eexists; split_and!; [done..|]. apply G; simpl; [|lia].
    unfold threads_rank. simpl. rewrite M. pose proof (ranks_met (s_threads s)). lia.
  - eexists; split_and!; [done..|]. apply G; simpl; [|lia].
    unfold threads_rank. simpl. rewrite M, length_fmap. pose proof (ranks_wake_all (s_threads s)). lia.
  - eexists; split_and!; [done..|]. apply G; simpl; [done|].
    destruct (threads_left s) eqn:T; [lia|]. unfold threads_left, threads_rank in T. apply Nat.ltb_ge in T.
    rewrite ended_settled, Nat.eqb_refl; [lia|done|]. apply (ranks_zero (s_met s)). lia.
  - simpl. destruct (ok0 =? length (s_funcs s))%nat eqn:Hok; (eexists; split_and!; [done..|]; apply G; simpl; [done|];
      destruct (threads_left s); rewrite ?Hok; lia).
Qed.

(** Nobody holds the mutex: the main thread can take it or a thread can. *)
Lemma free_decreases ok s : inv s -> (forall e, s_main s <> MEnd e) -> s_mutex s = None -> decreases ok s.
Proof.
  intros J N F. pose proof J as [X P K I]. pose proof (ex_main _ X) as H. rewrite F, bool_decide_eq_false_2 in H by done.
  assert (forall s', main_step s = Some s' -> (threads_rank s' <= threads_rank s)%nat ->
    (main_rank (threads_left s) (length (s_funcs s')) (s_main s') < main_rank (threads_left s) (length (s_funcs s)) (s_main s))%nat ->
    decreases ok s) as G by (intros s' E ? ?; exists CMain, s'; split_and!; [done..|]; by apply measure_main).
  destruct (woken (s_main s)) eqn:W.
  - destruct (decide (Forall (fun t => ended t = true) (s_threads s))) as [A|A].
    + assert (forall i t, s_threads s !! i = Some t -> ended t = true) as E by (by apply Forall_lookup).
      pose proof (ph_created _ P) as L. 
      assert (threads_left s = false) as T.
      { unfold threads_left. apply Nat.ltb_ge. unfold threads_rank. rewrite (proj2 (ranks_zero (s_met s) _) E), L. by destruct (s_main s); simpl in *; try lia. }
      rewrite T in G. unfold TestThreads.main_step, lock in G. rewrite F in G. destruct (s_main s) eqn:Em; try done; simpl in *;
        try (eapply G; [done|done|simpl; lia]).
      * destruct (Nat.ltb_spec i numthreads) as [Hi|Hi].
        { destruct (lookup_lt_is_Some_2 (s_threads s) i) as [t Ht]; [lia|]. rewrite Ht in G. pose proof (E _ _ Ht).
          destruct t; try done. eapply G; [done|done|simpl; lia]. }
        { eapply G; [done|done|simpl; lia]. }
      * by destruct (N errors).
    + apply not_Forall_Exists in A; [|apply _]. apply Exists_exists in A as (t & [i Hi]%list_elem_of_lookup & Ht). simpl in Ht.
      eapply (thread_decreases ok s i t); eauto; [by eapply ph_woken|by destruct (ended t)].
  - unfold TestThreads.main_step, lock in G. rewrite F in G. destruct (s_main s) eqn:Em; try done; simpl in *;
      try (eapply G; [done|done|simpl; lia]).
    destruct (Z.ltb_spec (s_counter s) (Z.of_nat numthreads)) as [C|C]; [|eapply G; [done|done|simpl; lia]].
    destruct (decide (Forall (fun t => counted t = true) (s_threads s))) as [A|A].
    + exfalso. rewrite (ph_counter _ P), (countp_ext _ (fun _ _ => true)) in C by (by apply Forall_lookup).
      rewrite countp_true, (ph_created _ P), Em, wrap_small in C; simpl in *; lia.
    + apply not_Forall_Exists in A; [|apply _]. apply Exists_exists in A as (t & [i Hi]%list_elem_of_lookup & Ht). simpl in Ht.
      destruct t; try done. by eapply (thread_decreases ok s i TStart); eauto.
Qed.

Lemma inv_decreases ok s : inv s -> (forall e, s_main s <> MEnd e) -> decreases ok s.
Proof.
  intros I N. pose proof I as [X P K _]. destruct (s_mutex s) as [[|i]|] eqn:O; [| |by apply free_decreases].
  - apply holder_decreases; try done. rewrite (ex_main _ X), O. by apply bool_decide_eq_true.
  - destruct (lookup_lt_is_Some_2 (s_threads s) i) as [t Ht]; [by apply (ex_range _ X)|].
    pose proof (ex_thread _ X _ _ Ht) as Hh. rewrite O, bool_decide_eq_true_2 in Hh by done.
    eapply (thread_decreases ok s i t); eauto; [by intros ->|by destruct t|]. intros B.
    pose proof (ex_main _ X) as Hm. rewrite O, bool_decide_eq_false_2 in Hm by done.
    destruct (s_met s) eqn:M; [|by rewrite (ph_begun _ P _ _ M Ht) in B].
    rewrite (ph_met _ P) in M. by destruct (s_main s).
Qed.

(** C16: from every state a run reaches, the threads can be scheduled so that the driver ends,
    whatever the calls that are still to be made deliver: no deadlock, no lost wake-up. *)
Theorem multi_threaded_can_end ok s :
  rtc step (initial fs) s ->
  exists cs s' errors, Forall (allowed ok) cs /\ run_sched cs s = Some s' /\ s_main s' = MEnd errors.
Proof.
  intros I%inv_reachable. induction s as [s IH] using (induction_ltof1 _ measure). unfold ltof in IH.
  assert ((exists e, s_main s = MEnd e) \/ forall e, s_main s <> MEnd e) as [[e E]|N] by (destruct (s_main s); eauto).
  { exists [], s, e. by split_and!; [constructor| |]. }
  destruct (inv_decreases ok s I) as (c & s1 & A & E & D); [done|].
  destruct (IH s1 D) as (cs & s' & errors & As & Es & Em); [eapply inv_step; [done|by econstructor]|].
  exists (c :: cs), s', errors. split_and!; [by constructor| |done]. simpl. by rewrite E.
Qed.

End driver.

Lemma run_sched_rtc full test_routines numthreads seq cs s s' :
  run_sched full test_routines numthreads seq cs s = Some s' -> rtc (step full test_routines numthreads seq) s s'.
Proof.
  revert s. induction cs as [|c cs IH]; intros s E; simpl in E; [by simplify_eq|].
  destruct (sched _ _ _ _ c s) as [s1|] eqn:Es; [|done]. eapply rtc_l; [by econstructor|by apply IH].
Qed.

(** * Examples *)

(** Two threads for the memory and the load statistics; the second call fails. *)
Definition demo_sched (i : nat) : list choice :=
  let t i := CThread i (i =? 0)%nat WMain in
  replicate 5 CMain ++ [t 0; t 0; t 1; t 1]%nat ++ replicate 8 CMain ++
  replicate i (t 0)%nat ++ replicate i (t 1)%nat.

Definition demo_state (i n : nat) : state :=
  default (initial statgrab_test_funcs)
    (run_sched true [2; 3]%nat 2 false (demo_sched i ++ replicate n CMain) (initial statgrab_test_funcs)).

Lemma demo_reachable : 
  rtc (step true [2; 3]%nat 2 false) (initial statgrab_test_funcs) (demo_state 7 7) /\
  rtc (step true [2; 3]%nat 2 false) (initial statgrab_test_funcs) (demo_state 3 0).
Proof.
  split; [apply (run_sched_rtc _ _ _ _ (demo_sched 7 ++ replicate 7 CMain))|
          apply (run_sched_rtc _ _ _ _ (demo_sched 3 ++ replicate 0 CMain))]; vm_compute; reflexivity.
Qed.

Lemma multi_threaded_result_witness :
  s_main (demo_state 7 7) = MEnd 1 /\
  1 = Z.of_nat (length (filter (fun t => t = TEnd false) (s_threads (demo_state 7 7)))).
Proof.
  split; [reflexivity|].
  refine (proj1 (proj2 (proj2 (multi_threaded_result true [2; 3]%nat 2 false _ statgrab_test_funcs _ _ (demo_state 7 7) 1 _ _)))).
  - lia.
  - split; [done|]. vm_compute. repeat constructor.
  - repeat constructor.
  - apply demo_reachable.
  - reflexivity.
Defined.

Lemma multi_threaded_safe_witness :
  s_threads (demo_state 3 0) !! 0%nat = Some (TRan true) /\ length (s_threads (demo_state 3 0)) = 2%nat.
Proof.
  split; [reflexivity|].
  refine (proj1 (proj2 (proj2 (multi_threaded_safe true [2; 3]%nat 2 false _ statgrab_test_funcs _ _ (demo_state 3 0) _)) 0%nat (TRan true) _ _)).
  - lia.
  - split; [done|]. vm_compute. repeat constructor.
  - repeat constructor.
  - apply demo_reachable.
  - reflexivity.
  - reflexivity.
Defined.

Lemma multi_threaded_can_end_witness :
  exists cs s' errors, run_sched true [2; 3]%nat 2 false cs (demo_state 3 0) = Some s' /\ s_main s' = MEnd errors.
Proof.
  destruct (multi_threaded_can_end true [2; 3]%nat 2 false ltac:(lia) statgrab_test_funcs
    ltac:(split; [done|vm_compute; repeat constructor]) ltac:(repeat constructor) (fun _ => false) (demo_state 3 0)
    (proj2 demo_reachable)) as (cs & s' & errors & _ & E & M).
  by exists cs, s', errors.
Defined.
