(* ===== verification/TestSingleProps.v ===== *)
(** The single-threaded drivers of src/tests: the names of a test list are found again, and
    a run ends with the number of failed calls. *)

From S2P Require Import Prelude Types CLib Errors Tools Stdio ScanFields Program TestLib.

(** * The test list *)

Fixpoint comma_list (names : list string) : string :=
  match names with
  | [] => EmptyString
  | [n] => n
  | n :: names' => n +:+ String "," (comma_list names')
  end.

Fixpoint no_comma (s : string) : bool :=
  match s with EmptyString => true | String c s' => negb (Ascii.eqb c ",") && no_comma s' end.

(** The names of the entries [ks] of the table. *)
Definition names_at (full : bool) (ks : list nat) : list string :=
  omap (fun k => statgrab_test_funcs !! k ≫= name_of full) ks.

Definition testable (full : bool) (k : nat) : bool :=
  match statgrab_test_funcs !! k ≫= name_of full with Some _ => true | None => false end.

(** The counters do not matter for the names. *)
Definition same_names (fs gs : list statgrab_testfuncs) : Prop :=
  (fun f => (stat_name f, full_name f, diff_name f)) <$> fs = (fun f => (stat_name f, full_name f, diff_name f)) <$> gs.

Lemma same_names_length fs gs : same_names fs gs -> length fs = length gs.
Proof. intros E. apply (f_equal length) in E. by rewrite !length_fmap in E. Qed.

Lemma same_names_name_of full fs gs k : same_names fs gs -> fs !! k ≫= name_of full = gs !! k ≫= name_of full.
Proof.
  intros E. apply (f_equal (lookup k)) in E. rewrite !list_lookup_fmap in E.
  destruct (fs !! k) as [[]|], (gs !! k) as [[]|]; simpl in *; try done. injection E as _ -> ->. by destruct full.
Qed.

Lemma find_func_same full s n fs gs : same_names fs gs -> find_func full s n fs = find_func full s n gs.
Proof.
  revert gs. induction fs as [|f fs IH]; intros [|g gs] E; try done.
  pose proof (same_names_name_of full _ _ 0%nat E) as N. simpl in N. injection E as _ _ _ E.
  simpl. by rewrite N, (IH gs).
Qed.

Lemma strncmp_app n r m : strncmp (n +:+ r) m (String.length n) = strncmp n m (String.length n).
Proof. revert m. induction n as [|c n IH]; intros [|d m]; simpl; try done. repeat case_match; done. Qed.

Lemma find_func_app full n r fs : find_func full (n +:+ r) (String.length n) fs = find_func full n (String.length n) fs.
Proof. induction fs as [|f fs IH]; simpl; [done|]. rewrite IH. by destruct (name_of full f); rewrite ?strncmp_app. Qed.

(** A name of the table is found at its place, whatever follows it. *)
Lemma find_func_table full k n r :
  statgrab_test_funcs !! k ≫= name_of full = Some n ->
  find_func full (n +:+ r) (String.length n) statgrab_test_funcs = k /\ no_comma n = true /\ n <> EmptyString.
Proof.
  intros E. rewrite find_func_app. assert (k < 12)%nat as B.
  { destruct (statgrab_test_funcs !! k) eqn:F; [|done]. by apply lookup_lt_Some in F. }
  destruct full; do 12 (destruct k as [|k]; [vm_compute in E; try done; injection E as <-; vm_compute; done|]); lia.
Qed.

Lemma names_loop_name full n : forall start len rest indices,
  no_comma n = true -> names_loop full start len (n +:+ rest) indices = names_loop full start (len + String.length n) rest indices.
Proof.
  induction n as [|c n IH]; intros start len rest indices E; simpl; [by rewrite Nat.add_0_r|].
  simpl in E. apply andb_prop in E as [Ec E]. apply negb_true_iff, Ascii.eqb_neq in Ec.
  rewrite decide_False by done. rewrite IH by done. f_equal. simpl. lia.
Qed.

Lemma store_index_table full k n r indices t :
  same_names (t_funcs t) statgrab_test_funcs -> statgrab_test_funcs !! k ≫= name_of full = Some n -> (length indices < NFUNCS)%nat ->
  store_index full (n +:+ r) (String.length n) indices t = Done (inr (indices ++ [k])) t.
Proof.
  intros S E L. destruct (find_func_table full k n r E) as (F & _ & _).
  assert ((if full then find_full_func (n +:+ r) (String.length n) (t_funcs t)
           else find_diff_func (n +:+ r) (String.length n) (t_funcs t)) = k) as I.
  { unfold find_full_func, find_diff_func. destruct full; by rewrite (find_func_same _ _ _ _ _ S). }
  unfold store_index, get_testable_functions, mbind, X_bind, run, gets. cbv zeta beta iota. rewrite I, (same_names_length _ _ S).
  assert (k < length statgrab_test_funcs)%nat as B.
  { destruct (statgrab_test_funcs !! k) eqn:G; [|done]. by eapply lookup_lt_Some. }
  rewrite (proj2 (Nat.leb_gt _ _)) by done. rewrite (proj2 (Nat.leb_gt _ _)) by done. done.
Qed.

Lemma names_loop_table full ks : forall indices t,
  same_names (t_funcs t) statgrab_test_funcs -> Forall (fun k => testable full k = true) ks ->
  (length indices + length ks <= NFUNCS)%nat ->
  names_loop full (comma_list (names_at full ks)) 0 (comma_list (names_at full ks)) indices t = Done (inr (indices ++ ks)) t.
Proof.
  induction ks as [|k ks IH]; intros indices t S V L; simpl; [by rewrite app_nil_r|].
  apply Forall_cons in V as [Vk V]. unfold testable in Vk. unfold names_at. simpl.
  destruct (statgrab_test_funcs !! k ≫= name_of full) as [n|] eqn:E; [|done].
  destruct (find_func_table full k n EmptyString E) as (_ & C & NE).
  fold (names_at full ks). destruct (names_at full ks) as [|n' ns] eqn:Ens.
  - assert (ks = []) as ->.
    { destruct ks as [|k' ks]; [done|]. apply Forall_cons in V as [V' _]. unfold testable in V'. unfold names_at in Ens. simpl in Ens. by case_match. }
    simpl. rewrite <- (string_app_nil n) at 2. rewrite names_loop_name by done. simpl.
    rewrite (proj2 (Nat.ltb_lt _ _)) by (destruct n; simpl; [done|lia]).
    rewrite <- (string_app_nil n) at 1. eapply store_index_table; try done. simpl in *. lia.
  - cbn [comma_list]. rewrite names_loop_name by done. cbn [names_loop]. rewrite decide_True by done.
    rewrite Nat.add_0_l. unfold mbind, X_bind. rewrite (store_index_table full k) by (try done; simpl in *; lia).
    rewrite IH; [by rewrite <- app_assoc|done|done|rewrite length_app; simpl in *; lia].
Qed.

(** The indices of a list of names of the table, joined with commas, are found again. *)
Lemma funcnames_table full ks t :
  same_names (t_funcs t) statgrab_test_funcs -> e_allocs (c_env (t_console t)) = [] ->
  Forall (fun k => testable full k = true) ks -> (length ks <= NFUNCS)%nat ->
  funcnames_to_indices (comma_list (names_at full ks)) full t = Done (inr ks) t.
Proof.
  intros S A V L. unfold funcnames_to_indices.
  rewrite (X_bind_done _ _ t AMove t); [by apply (names_loop_table full ks [])|].
  destruct t as [fs [o e' e]]. unfold lib, run, zoom, alloc_request. simpl in *. by rewrite A.
Qed.

(** * The calls *)

(** How often [k] is in a list of calls. *)
Definition occ (k : nat) (calls : list nat) : Z := Z.of_nat (length (filter (fun c => c = k) calls)).

(** A log has the calls that were made, each with what it has returned. *)
Abbreviation call_log := (list (nat * bool)).

Definition failures (log : call_log) : Z := Z.of_nat (length (filter (fun p => p.2 = false) log)).

(** How many calls of [k] delivered something. *)
Definition deliveries (k : nat) (log : call_log) : Z := Z.of_nat (length (filter (fun p => p = (k, true)) log)).

(** [call] can return [ok] for the function [k] of the table. *)
Definition returns (call : string -> M env bool) (full : bool) (p : nat * bool) : Prop :=
  exists name e e', statgrab_test_funcs !! p.1 ≫= name_of full = Some name /\ call name e = Done p.2 e'.

(** The table and the number of errors after the calls of [log]. *)
Record tallied (call : string -> M env bool) (full : bool) (log : call_log) (errors : Z) (t : tests) : Prop := {
  ta_names : same_names (t_funcs t) statgrab_test_funcs;
  ta_calls k f : t_funcs t !! k = Some f ->
    needed f = occ k log.*1 /\ done_ f = occ k log.*1 /\ succeeded f = deliveries k log;
  ta_errors : errors = failures log;
  ta_returns : Forall (returns call full) log }.

Lemma occ_app k calls c : occ k (calls ++ [c]) = occ k calls + (if decide (c = k) then 1 else 0).
Proof. unfold occ. rewrite filter_app, length_app, filter_cons. case_decide; simpl; lia. Qed.

Lemma occ_bound k calls : 0 <= occ k calls <= Z.of_nat (length calls).
Proof. unfold occ. pose proof (length_filter (fun c => c = k) calls). lia. Qed.

Lemma failures_app log p : failures (log ++ [p]) = failures log + (if p.2 then 0 else 1).
Proof. unfold failures. rewrite filter_app, length_app, filter_cons. destruct p as [? []]; case_decide; try done; simpl; lia. Qed.

Lemma deliveries_app k log j ok :
  deliveries k (log ++ [(j, ok)]) = deliveries k log + (if decide (j = k) then if ok : bool then 1 else 0 else 0).
Proof.
  unfold deliveries. rewrite filter_app, length_app, filter_cons.
  destruct ok; repeat case_decide; simplify_eq; simpl; try done; lia.
Qed.

Lemma deliveries_bound k log : 0 <= deliveries k log <= Z.of_nat (length log).
Proof. unfold deliveries. pose proof (length_filter (fun p => p = (k, true)) log). lia. Qed.

Lemma failures_bound log : 0 <= failures log <= Z.of_nat (length log).
Proof. unfold failures. pose proof (length_filter (fun p : nat * bool => p.2 = false) log). lia. Qed.

Lemma same_names_alter g k fs gs :
  (forall f, stat_name (g f) = stat_name f /\ full_name (g f) = full_name f /\ diff_name (g f) = diff_name f) ->
  same_names fs gs -> same_names (alter g k fs) gs.
Proof.
  unfold same_names. intros G <-. apply list_eq. intros j. rewrite !list_lookup_fmap.
  destruct (decide (k = j)) as [->|N]; [rewrite list_lookup_alter_eq|by rewrite list_lookup_alter_ne].
  destruct (fs !! j) as [f|]; [|done]. simpl. destruct (G f) as (-> & -> & ->). done.
Qed.

Lemma occ_rounds k loops ks : occ k (concat (replicate loops ks)) = Z.of_nat (loops * length (filter (fun c => c = k) ks)).
Proof. unfold occ. f_equal. simpl. induction loops as [|loops IH]; simpl; [done|]. by rewrite filter_app, length_app, IH. Qed.

Lemma tallied_start call full t : t_funcs t = statgrab_test_funcs -> tallied call full [] 0 t.
Proof.
  intros E. split; rewrite ?E; try done. intros k f Hf.
  assert (Forall (fun f => needed f = 0 /\ done_ f = 0 /\ succeeded f = 0) statgrab_test_funcs) as Z by (by repeat constructor).
  by apply (Forall_lookup_1 _ _ _ _ Z) in Hf as (-> & -> & ->).
Qed.

Section calls.
Context (call : string -> M env bool) (strerror : Z -> string) (strerror_r : Z -> option string).

(** The library returns from every call. *)
Hypothesis call_total : forall name e, exists ok e', call name e = Done ok e'.

Lemma strperror_total d e : exists p e', sg_strperror strerror_r (Some CNull) d e = Done p e'.
Proof.
  unfold sg_strperror, sg_get_error_details. unfold mbind, M_bind, gets, mret, M_ret, alloc_request.
  destruct d; simpl; repeat (case_match; simplify_eq/=; eauto).
Qed.

Lemma lib_done {A} (m : M env A) (a : A) e' t :
  m (c_env (t_console t)) = Done a e' -> exists c, lib m t = Done (inr a) (mk_tests (t_funcs t) c) /\ c_env c = e'.
Proof. intros E. unfold lib, run, zoom. simpl. rewrite E. by eexists. Qed.

Lemma eprint_done text (t : tests) : exists c, eprint text t = Done (inr tt) (mk_tests (t_funcs t) c).
Proof. by eexists. Qed.

Lemma report_failure_funcs name t : exists c, report_failure strerror_r name t = Done (inr tt) (mk_tests (t_funcs t) c).
Proof.
  unfold report_failure, mbind, X_bind.
  destruct (lib_done (sg_get_error_details true) _ _ t eq_refl) as (c & -> & Ec).
  rewrite decide_False by (intros H; by apply H).
  match goal with |- context [sg_strperror _ _ ?d] => destruct (strperror_total d (c_env c)) as (p & e' & E) end.
  destruct (lib_done _ _ _ (mk_tests (t_funcs t) c) E) as (c' & -> & _).
  assert (forall text c, exists c', eprint text (mk_tests (t_funcs t) c) = Done (inr tt) (mk_tests (t_funcs t) c')) as P
    by (intros; apply (eprint_done _ (mk_tests _ _))).
  destruct p; try apply P;
    (destruct (lib_done sg_get_error _ _ (mk_tests (t_funcs t) c') eq_refl) as (c2 & -> & _); apply P).
Qed.

Lemma with_index_ok {A} who k (m : X tests A) t : (k < length (t_funcs t))%nat -> with_index who k m t = m t.
Proof.
  intros L. unfold with_index, get_testable_functions, mbind, X_bind, run, gets. by rewrite (proj2 (Nat.leb_gt _ _)).
Qed.

Lemma run_func_funcs full k name t :
  t_funcs t !! k ≫= name_of full = Some name ->
  exists ok c, run_func call strerror_r k full t = Done (inr ok) (mk_tests (t_funcs t) c) /\
    exists e e', call name e = Done ok e'.
Proof.
  intros E. unfold run_func. rewrite with_index_ok.
  2: { destruct (t_funcs t !! k) eqn:F; [|done]. by eapply lookup_lt_Some. }
  rewrite (X_bind_done get_testable_functions _ t (t_funcs t) t eq_refl), E.
  destruct (call_total name (c_env (t_console t))) as (ok & e' & C).
  destruct (lib_done _ _ _ t C) as (c & R & _). rewrite (X_bind_done _ _ _ _ _ R).
  destruct ok; [eexists true, _; by eauto|].
  destruct (report_failure_funcs name (mk_tests (t_funcs t) c)) as [c' R']. rewrite (X_bind_done _ _ _ _ _ R').
  eexists _, _. by eauto.
Qed.

Lemma test_call_funcs full k name errors t :
  t_funcs t !! k ≫= name_of full = Some name ->
  exists ok c, test_call call strerror_r full k errors t =
    Done (inr (if ok : bool then errors else s32 (errors + 1)))
         (mk_tests (alter (count_done ok) k (alter count_needed k (t_funcs t))) c) /\
    exists e e', call name e = Done ok e'.
Proof.
  intros E. assert (k < length (t_funcs t))%nat as L.
  { destruct (t_funcs t !! k) eqn:F; [|done]. by eapply lookup_lt_Some. }
  set (t1 := mk_tests (alter count_needed k (t_funcs t)) (t_console t)).
  destruct (run_func_funcs full k name t1) as (ok & c & R & Hret).
  { simpl. rewrite list_lookup_alter_eq. destruct (t_funcs t !! k) as [f|]; [|done]. simpl in *. by destruct full. }
  exists ok, c. split; [|done]. unfold test_call, mark_func, done_func.
  rewrite (X_bind_done _ _ t tt t1) by (by rewrite with_index_ok). rewrite (X_bind_done _ _ _ _ _ R).
  erewrite X_bind_done by (rewrite with_index_ok by (simpl; by rewrite length_alter); done). done.
Qed.

Lemma test_call_tallied full k log errors t :
  tallied call full log errors t -> testable full k = true -> Z.of_nat (length log) < 2 ^ 31 - 1 ->
  xp (test_call call strerror_r full k errors)
     (fun errors' t' => exists ok, tallied call full (log ++ [(k, ok)]) errors' t') (fun _ _ => False) t.
Proof.
  intros [N C E R] V B. unfold testable in V. pose proof (same_names_name_of full _ _ k N) as Hname. rewrite <- Hname in V.
  destruct (t_funcs t !! k ≫= name_of full) as [name|] eqn:F; [|done].
  destruct (t_funcs t !! k) as [f|] eqn:Hf; [|done].
  destruct (test_call_funcs full k name errors t) as (ok & c & Rt & e & e' & Hret); [by rewrite Hf|].
  eapply xp_done; [done|]. exists ok. destruct (C k f Hf) as (Cn & Cd & Cs).
  pose proof (occ_bound k log.*1) as Ho. rewrite length_fmap in Ho.
  pose proof (deliveries_bound k log). pose proof (failures_bound log).
  split; simpl.
  - by do 2 (apply same_names_alter; [done|]).
  - intros j g Hg. rewrite fmap_app. simpl. rewrite occ_app, deliveries_app. destruct (decide (k = j)) as [<-|D].
    + rewrite !list_lookup_alter_eq, Hf in Hg. simpl in Hg. injection Hg as <-.
      simpl in *. destruct ok; rewrite !wrap_small by lia; lia.
    + rewrite !list_lookup_alter_ne in Hg by done. rewrite !Z.add_0_r. by apply C.
  - rewrite failures_app, E. simpl. destruct ok; [lia|]. rewrite swrap_small by lia. lia.
  - apply Forall_app. split; [done|]. apply Forall_singleton. exists name, e, e'. by rewrite Hname.
Qed.

Lemma test_round_tallied full ks : forall log errors t,
  tallied call full log errors t -> Forall (fun k => testable full k = true) ks -> Z.of_nat (length log + length ks) < 2 ^ 31 ->
  xp (test_round call strerror_r full ks errors)
     (fun errors' t' => exists log', log'.*1 = ks /\ tallied call full (log ++ log') errors' t') (fun _ _ => False) t.
Proof.
  induction ks as [|k ks IH]; intros log errors t T V B; simpl; [exists []; by rewrite app_nil_r|].
  apply Forall_cons in V as [Vk V]. simpl in B. apply xp_bind. eapply xp_mono; [apply test_call_tallied; try done; lia| |done].
  intros e' t' [ok T']. eapply xp_mono; [apply IH; [done|done|rewrite length_app; simpl; lia]| |done].
  intros e2 t2 (log' & <- & T2). exists ((k, ok) :: log'). split; [done|]. by rewrite <- app_assoc in T2.
Qed.

Lemma test_rounds_tallied full ks loops : forall log errors t,
  tallied call full log errors t -> Forall (fun k => testable full k = true) ks -> Z.of_nat (length log + loops * length ks) < 2 ^ 31 ->
  xp (test_rounds call strerror_r full loops ks errors)
     (fun errors' t' => exists log', log'.*1 = concat (replicate loops ks) /\ tallied call full (log ++ log') errors' t')
     (fun _ _ => False) t.
Proof.
  induction loops as [|loops IH]; intros log errors t T V B; simpl; [exists []; by rewrite app_nil_r|].
  simpl in B. apply xp_bind. eapply xp_mono; [apply test_round_tallied; try done; lia| |done].
  intros e' t' (log1 & <- & T'). eapply xp_mono; [apply IH; [done|done|]| |done].
  { rewrite length_app, length_fmap in *. lia. }
  intros e2 t2 (log2 & E2 & T2). exists (log1 ++ log2). rewrite fmap_app, E2. split; [done|]. by rewrite app_assoc.
Qed.

(** * The whole program *)

Lemma sscanf_number z : in_u64 z -> sscanf (print_unsigned z) "%lu" = (1, [VInt z]).
Proof.
  intros Hz. unfold sscanf. change (parse_format (String.length "%lu") "%lu") with [DConv false None 64 Cu].
  cbn [scan]. rewrite <- (string_app_nil (print_unsigned z)).
  rewrite convert_print_unsigned by (done || by apply Hz). by rewrite wrap_small.
Qed.

Lemma get_params_run names loops t :
  in_u64 loops ->
  get_params strerror single_opts [("r"%char, names); ("n"%char, print_unsigned loops)] t =
    Done (inr ([mk_opt_def "h" opt_flag 0 None; mk_opt_def "l" opt_flag 0 None; mk_opt_def "r" opt_str 0 (Some names);
                mk_opt_def "n" opt_unsigned (u64 loops) None], 0)) t.
Proof.
  intros L. unfold get_params. rewrite (X_bind_done _ _ t tt t) by reflexivity.
  assert (forall o, opttype o = opt_unsigned -> set_opt strerror o (print_unsigned loops) t = Done (inr (set_word loops o)) t) as N.
  { intros o E. unfold set_opt. by rewrite E, sscanf_number. }
  cbn [opt_loop].
  change (list_find (fun o => optchr o = "r"%char) single_opts) with (Some (2%nat, mk_opt_def "r" opt_str 0 None)).
  cbv iota beta. rewrite (X_bind_done _ _ t (mk_opt_def "r" opt_str 0 (Some names)) t) by reflexivity.
  match goal with |- context [list_find ?p ?l] => change (list_find p l) with (Some (3%nat, mk_opt_def "n" opt_unsigned 1 None)) end.
  cbv iota beta. by rewrite (X_bind_done _ _ _ _ _ (N (mk_opt_def "n" opt_unsigned 1 None) eq_refl)).
Qed.

End calls.

Definition demo_tests : tests :=
  mk_tests statgrab_test_funcs (mk_console EmptyString EmptyString (mk_env [] 0 None error_glob_zero)).

(** The calls of a machine whose load cannot be read. *)
Definition demo_call (name : string) : M env bool :=
  if decide (name = "sg_get_load_stats") then
    sg_set_error_int SG_ERROR_SYSCTL 0 None;; mret false
  else mret true.


(** The first error of the exit status of that run: four calls fail. *)
Lemma single_main_demo :
  (match single_main demo_call (fun _ => EmptyString) (fun _ => None) true "full_stats"
        [("r"%char, "sg_get_load_stats,sg_get_mem_stats,sg_get_load_stats"); ("n"%char, "2")] demo_tests with
   | Done r t => Some (r, String.length (c_err (t_console t)))
   | Stuck _ => None
   end) = Some (inr 4, 144%nat).
Proof. vm_compute. reflexivity. Qed.

(** * What the lists accept *)

(** The names are compared on the length of the text: a beginning of a name, even an
    empty one before a comma, selects the first function that begins with it. *)
Lemma funcnames_prefix :
  funcnames_to_indices "sg_get_n,,s" true demo_tests = Done (inr [8; 0; 0]%nat) demo_tests.
Proof. vm_compute. reflexivity. Qed.

(** The array has room for the twelve functions of the table; a list of thirteen names writes behind it. *)
Lemma funcnames_overrun :
  funcnames_to_indices (comma_list (replicate 13 "sg_get_mem_stats")) true demo_tests = Stuck out_of_bounds.
Proof. vm_compute. reflexivity. Qed.

(** A message of more than 4096 characters with an errno text is written behind the buffer. *)
Lemma err_doit_overrun msg (t : tests) :
  (4096 < String.length msg)%nat -> err_doit (fun _ => "x") true 22 msg t = Stuck out_of_bounds.
Proof. intros L. unfold err_doit. rewrite (proj2 (Nat.ltb_lt _ _)); [done|exact L]. Qed.
