(* ===== verification/Examples.v ===== *)
(** The programs of src/examples: the helpers (signals that set a flag, the wait for a key)
    and the thirteen programs that print what the library delivers. *)

From S2P Require Import Prelude Types CLib Errors Tools Vector Items Stdio ToolsExt Single Disk Process Network NetworkSys Statgrab Saidar Program.

(** * Signals *)

(** [sig_flags], NULL or the index of an int; whether [sig_flagger] is the handler of a signal,
    otherwise it has its default action; and the ints. *)
Record signals := mk_signals { sig_flags : list (option nat); sig_handlers : list bool; ints : list Z }.

Definition NSIG : nat := 65.
Definition SIGINT : nat := 2.

(** A program at its start: one int, [quit]. *)
Definition signals_zero : signals := mk_signals (replicate NSIG None) (replicate NSIG false) [0].

Definition sig_flagger (signo : nat) : M signals unit :=
  fs ← gets sig_flags;
  match fs !! signo with
  | None => stuck out_of_bounds
  | Some None => mret tt
  | Some (Some p) => modify (fun s => mk_signals (sig_flags s) (sig_handlers s) (alter (fun z => s32 (z + 1)) p (ints s)))
  end.

Definition set_flag (signo : nat) (p : option nat) (s : signals) : signals :=
  mk_signals (<[signo := p]> (sig_flags s)) (sig_handlers s) (ints s).
Definition signal (signo : nat) (h : bool) (s : signals) : signals :=
  mk_signals (sig_flags s) (<[signo := h]> (sig_handlers s)) (ints s).

Definition register_sig_flagger (signo : nat) (flag_ptr : option nat) : M signals Z :=
  fs ← gets sig_flags;
  match fs !! signo with
  | None => stuck out_of_bounds
  | Some old =>
      if bool_decide (old <> None) && bool_decide (flag_ptr <> None) then mret EINVAL
      else if bool_decide (flag_ptr <> None) then
        modify (signal signo false);; modify (set_flag signo None);; mret 0
      else
        modify (set_flag signo flag_ptr);; modify (signal signo true);; mret 0
  end.

(** * The state of a program *)

Record example := mk_example { x_console : console; x_signals : signals }.

#[export] Program Instance example_console : Console example :=
  {| get_console := x_console; put_console := fun c x => mk_example c (x_signals x) |}.
Next Obligation. by intros []. Qed.
Next Obligation. done. Qed.
Next Obligation. done. Qed.

Abbreviation E := (X example).

Definition with_signals {A} (m : M signals A) : E A :=
  run (zoom x_signals (fun s x => mk_example (x_console x) s) m).

(** The functions of the library that the programs call. *)
Record api := mk_api {
  api_log_init : M env sg_error;
  api_init : M env sg_error;
  api_shutdown : M env sg_error;
  api_snapshot : M env sg_error;
  api_drop_privileges : M env sg_error;
  api_cpu_percents : M env (option sg_cpu_percents);
  api_cpu_percents_of : sg_cpu_percent_source -> M env (option sg_cpu_percents);
  api_cpu_stats_diff : M env (option sg_cpu_stats);
  api_mem_stats : M env (option sg_mem_stats);
  api_swap_stats : M env (option sg_swap_stats);
  api_load_stats : M env (option sg_load_stats);
  api_user_stats : M env (option (list sg_user_stats));
  api_host_info : M env (option sg_host_info);
  api_fs_stats : M env (option (list sg_fs_stats));
  api_valid_filesystems : M env (option (list char_ptr));
  api_disk_io_stats_diff : M env (option (list sg_disk_io_stats));
  api_network_io_stats_diff : M env (option (list sg_network_io_stats));
  api_network_iface_stats : M env (option (list sg_network_iface_stats));
  api_page_stats_diff : M env (option sg_page_stats);
  api_process_stats : M env (option (list sg_process_stats));
  api_process_count : M env (option sg_process_count) }.

(** What happens while a program waits: the signals, what poll returns for a timeout, what
    read returns, and the upper bytes of the int nobody set. *)
Inductive read_result := RByte (c : ascii) | REof | RFail (errno : Z).

Record round := mk_round { r_signals : list nat; r_poll : Z -> Z; r_reads : list read_result; r_junk : Z }.

Definition EINTR : Z := 4.

Definition print_ptr (p : char_ptr) : E string := run (read_ptr p).

Definition pad_right (w : nat) (s : string) : string :=
  s +:+ String.string_of_list_ascii (replicate (w - String.length s) " "%char).

(** The cursor at the second column of a line. *)
Definition at_row (row : Z) (text : string) : string :=
  String "027" ("[" +:+ print_signed row +:+ ";2H" +:+ text).

Definition clear_screen : string := String "027" "[2J".

(** ** The error messages of helpers.c, the same functions as in err.c *)
Definition helpers_sg_warn : (Z -> option string) -> string -> E Z := sg_warn.
Definition helpers_sg_die {A} : (Z -> option string) -> string -> Z -> E A := fun r => sg_die r.
Definition helpers_err_doit : (Z -> string) -> bool -> Z -> string -> E unit := err_doit.
Definition helpers_die {A} : (Z -> string) -> Z -> string -> E A := fun s => die s.

Section examples.
Context (a : api) (strerror : Z -> string) (strerror_r : Z -> option string).

Definition perror (prefix : string) : E unit :=
  errno ← lib (gets e_errno); eprint (prefix +:+ ": " +:+ strerror errno +:+ newline_text).

(** The byte goes to the lowest of the four bytes of [ch]. *)
Fixpoint read_loop (reads : list read_result) (junk : Z) : E Z :=
  match reads with
  | [] => run (stuck out_of_fuel)
  | RByte c :: _ => mret (s32 (junk - junk mod 256 + byte_of c))
  | RFail errno :: reads' =>
      lib (modify (set_errno errno));;
      if errno =? EINTR then read_loop reads' junk else perror "read";; exit_ 1
  | REof :: _ => perror "read";; exit_ 1
  end.

Definition inp_wait (delay : Z) (r : round) : E Z :=
  if 0 <? r_poll r (s32 (delay * 1000)) then read_loop (r_reads r) (r_junk r) else mret 0.

(** A signal with its default action ends the program. *)
Fixpoint deliver (signos : list nat) : E unit :=
  match signos with
  | [] => mret tt
  | signo :: signos' =>
      hs ← with_signals (gets sig_handlers);
      if default false (hs !! signo) then with_signals (sig_flagger signo);; deliver signos'
      else exit_ (128 + Z.of_nat signo)
  end.

(** [if( quit || (ch == 'q') )] behind the wait. *)
Definition stop_round (delay : Z) (r : round) : E bool :=
  deliver (r_signals r);;
  ch ← inp_wait delay r;
  vals ← with_signals (gets ints);
  mret (negb (default 0 (vals !! 0%nat) =? 0) || (ch =? byte_of "q")).

(** [while( (stats = get()) != NULL )] with its body; false when the program still waits
    after the given rounds. *)
Fixpoint watch {A} (get : E (option A)) (show : A -> E unit) (delay : Z) (rounds : list round) : E bool :=
  o ← get;
  match o with
  | None => mret true
  | Some st =>
      show st;;
      match rounds with
      | [] => mret false
      | r :: rounds' => stop ← stop_round delay r; if stop : bool then mret true else watch get show delay rounds'
      end
  end.

(** * What the programs have in common *)

Definition atoi (s : string) : Z := s32 (libc_atoll s).

(** -d of the programs that wait. *)
Definition delay_of (opts : list (ascii * string)) : Z :=
  foldl (fun d o => if Ascii.eqb o.1 "d" then atoi o.2 else d) 1 opts.

(** -d, -b, -k and -m: the delay, the unit and the divider; -b leaves the divider. *)
Definition traffic_opt (o : Z * ascii * Z) (opt : ascii * string) : Z * ascii * Z :=
  let '(delay, units, divider) := o in
  if Ascii.eqb opt.1 "d" then (atoi opt.2, units, divider)
  else if Ascii.eqb opt.1 "b" then (delay, "b"%char, divider)
  else if Ascii.eqb opt.1 "k" then (delay, "k"%char, 1024)
  else if Ascii.eqb opt.1 "m" then (delay, "m"%char, 1024 * 1024)
  else o.
Definition traffic_opts (opts : list (ascii * string)) : Z * ascii * Z := foldl traffic_opt (1, "b"%char, 1) opts.

Definition start : E unit := lib (api_log_init a);; lib (api_init a);; mret tt.

Definition die_unless_dropped : E unit :=
  rc ← lib (api_drop_privileges a);
  if decide (rc <> SG_ERROR_NONE) then helpers_sg_die strerror_r "Error. Failed to drop privileges" 1 else mret tt.

(** [perror] and [return 1] *)
Definition return_unless_dropped : E unit :=
  rc ← lib (api_drop_privileges a);
  if decide (rc <> SG_ERROR_NONE) then perror "Error. Failed to drop privileges";; exit_ 1 else mret tt.

Definition or_die {A} (get : M env (option A)) (message : string) : E A :=
  o ← lib get;
  match o with Some st => mret st | None => helpers_sg_die strerror_r message 1 end.

(** * The programs *)

Definition line (label value : string) : string := label +:+ value +:+ newline_text.

(** load_stats.c *)
Definition print_52f (d : double) : string := pad_left 5 " " (print_2f d).

Definition load_show (l : sg_load_stats) : E unit :=
  print ("Load 1 : " +:+ print_52f (load_min1 l) +:+ String "009" " Load 5 : " +:+ print_52f (load_min5 l) +:+
         String "009" " Load 15 : " +:+ print_52f (load_min15 l) +:+ newline_text).

(** [register_sig_flagger( SIGINT, &quit )]; its result is not looked at. *)
Definition register_quit : E unit := with_signals (register_sig_flagger SIGINT (Some 0%nat));; mret tt.

Definition load_stats (opts : list (ascii * string)) (rounds : list round) : E bool :=
  start;; register_quit;; die_unless_dropped;;
  or_die (api_load_stats a) "Failed to get load stats";;
  watch (lib (api_load_stats a)) load_show (delay_of opts) rounds.

(** page_stats.c *)
Definition page_show (p : sg_page_stats) : E unit :=
  print (line "Pages in : " (print_unsigned (pages_pagein p)));;
  print (line "Pages out : " (print_unsigned (pages_pageout p))).

Definition page_stats (opts : list (ascii * string)) (rounds : list round) : E bool :=
  start;; register_quit;; die_unless_dropped;;
  or_die (api_page_stats_diff a) "Failed to get page stats";;
  watch (lib (api_page_stats_diff a)) page_show (delay_of opts) rounds.

(** process_stats.c *)
Definition count_field (label : string) (w : nat) (z : Z) : string := label +:+ pad_left w " " (print_unsigned z).

Definition process_count_show (c : sg_process_count) : E unit :=
  let tab := String " " (String "009" EmptyString) in
  print (count_field "Running:" 3 (pc_running c) +:+ tab);;
  print (count_field "Sleeping:" 5 (pc_sleeping c) +:+ tab);;
  print (count_field "Stopped:" 4 (pc_stopped c) +:+ tab);;
  print (count_field "Zombie:" 4 (pc_zombie c) +:+ tab);;
  print (count_field "Total:" 5 (pc_total c) +:+ newline_text).

Definition process_stats (opts : list (ascii * string)) (rounds : list round) : E bool :=
  start;; die_unless_dropped;; register_quit;;
  or_die (api_process_count a) "Failed to get process list";;
  watch (lib (api_process_count a)) process_count_show (delay_of opts) rounds.

(** cpu_usage.c *)
Definition cpu_row (row : Z) (label : string) (ticks : Z) (percent : double) : string :=
  at_row row (pad_right 14 label +:+ " : " +:+ print_signed (s64 ticks) +:+ " (" +:+ print_62f percent +:+ ")").
Definition cpu_count_row (row : Z) (label : string) (count : Z) : string :=
  at_row row (pad_right 14 label +:+ " : " +:+ print_unsigned count).

(** Both conditions of the loop: the difference, then the percentages of it. *)
Definition cpu_get : E (option (sg_cpu_stats * sg_cpu_percents)) :=
  s ← lib (api_cpu_stats_diff a);
  match s with
  | None => mret None
  | Some st => p ← lib (api_cpu_percents_of a sg_last_diff_cpu_percent); mret ((fun pct => (st, pct)) <$> p)
  end.

Definition cpu_show (c : sg_cpu_stats * sg_cpu_percents) : E unit :=
  let '(st, pct) := c in
  lib (api_snapshot a);;
  print (cpu_row 2 "User CPU" (cpu_user st) (pct_user pct));;
  print (cpu_row 3 "Kernel CPU" (cpu_kernel st) (pct_kernel pct));;
  print (cpu_row 4 "IOWait CPU" (cpu_iowait st) (pct_iowait pct));;
  print (cpu_row 5 "Swap CPU" (cpu_swap st) (pct_swap pct));;
  print (cpu_row 6 "Nice CPU" (cpu_nice st) (pct_nice pct));;
  print (cpu_row 7 "Idle CPU" (cpu_idle st) (pct_idle pct));;
  print (cpu_count_row 8 "Ctxts" (cpu_context_switches st));;
  print (cpu_count_row 9 "  Voluntary" (cpu_voluntary_context_switches st));;
  print (cpu_count_row 10 "  Involuntary" (cpu_involuntary_context_switches st));;
  print (cpu_count_row 11 "Syscalls" (cpu_syscalls st));;
  print (cpu_count_row 12 "Intrs" (cpu_interrupts st));;
  print (cpu_count_row 13 "SoftIntrs" (cpu_soft_interrupts st)).

Definition cpu_usage (opts : list (ascii * string)) (rounds : list round) : E bool :=
  start;; die_unless_dropped;; register_quit;;
  lib (api_snapshot a);;
  or_die (api_cpu_percents a) "Failed to get cpu stats";;
  print clear_screen;;
  left ← watch cpu_get cpu_show (delay_of opts) rounds;
  (if left : bool then lib (api_shutdown a);; mret tt else mret tt);;
  mret left.

(** disk_traffic.c *)
Definition disk_row (row : Z) (label value : string) : string := at_row row (pad_right 25 label +:+ " : " +:+ value).

Definition print_8llu (z : Z) : string := pad_left 8 " " (print_unsigned z).

Definition traffic (divider : Z) (units : ascii) (bytes : Z) : string :=
  print_8llu (bytes / divider) +:+ " " +:+ String units EmptyString.

(** The totals are [long long]s; the division is one of unsigned numbers. *)
Fixpoint disk_rows (divider : Z) (units : ascii) (l : list sg_disk_io_stats) (row total_read total_write : Z)
    : E (Z * Z * Z) :=
  match l with
  | [] => mret (row, total_read, total_write)
  | d :: l' =>
      name ← print_ptr (dio_disk_name d);
      print (disk_row row "Disk Name" (pad_right 10 name));;
      print (disk_row (row + 1) "Disk read" (traffic divider units (dio_read_bytes d)));;
      print (disk_row (row + 2) "Disk write" (traffic divider units (dio_write_bytes d)));;
      print (disk_row (row + 3) "Disk systime" (print_signed (dio_systime d) +:+ " "));;
      disk_rows divider units l' (row + 5) (s64 (total_read + dio_read_bytes d)) (s64 (total_write + dio_write_bytes d))
  end.

Definition disk_show (divider : Z) (units : ascii) (l : list sg_disk_io_stats) : E unit :=
  t ← disk_rows divider units (qsort sg_disk_io_compare_traffic l) 2 0 0;
  let '(row, total_read, total_write) := t in
  print (disk_row row "Disk Name" (pad_right 10 "Total Disk IO"));;
  print (disk_row (row + 1) "Disk Total read" (traffic divider units (u64 total_read)));;
  print (disk_row (row + 2) "Disk Total write" (traffic divider units (u64 total_write))).

Definition disk_traffic (opts : list (ascii * string)) (rounds : list round) : E bool :=
  let '(delay, units, divider) := traffic_opts opts in
  start;; return_unless_dropped;; register_quit;;
  or_die (api_disk_io_stats_diff a) "Failed to get disk stats";;
  print clear_screen;;
  watch (lib (api_disk_io_stats_diff a)) (disk_show divider units) delay rounds.
(** network_traffic.c *)
Definition net_row (row : Z) (label value : string) : string := at_row row (pad_right 30 label +:+ " : " +:+ value).

Definition count_text (z : Z) : string := print_unsigned z +:+ " ".

(** The totals are structures of their own here. *)
Definition add_net (t s : sg_network_io_stats) : sg_network_io_stats :=
  mk_network_io_stats (nio_interface_name t) (u64 (nio_tx t + nio_tx s)) (u64 (nio_rx t + nio_rx s))
    (u64 (nio_ipackets t + nio_ipackets s)) (u64 (nio_opackets t + nio_opackets s))
    (u64 (nio_ierrors t + nio_ierrors s)) (u64 (nio_oerrors t + nio_oerrors s))
    (u64 (nio_collisions t + nio_collisions s)) (nio_systime t).

Definition no_net : sg_network_io_stats := mk_network_io_stats (CStr "Total Network IO") 0 0 0 0 0 0 0 0.

Fixpoint net_rows (divider : Z) (units : ascii) (l : list sg_network_io_stats) (row : Z) (total : sg_network_io_stats)
    : E (Z * sg_network_io_stats) :=
  match l with
  | [] => mret (row, total)
  | s :: l' =>
      name ← print_ptr (nio_interface_name s);
      print (net_row row "Network Interface Name" (pad_right 10 name));;
      print (net_row (row + 1) "Network Interface Rx" (traffic divider units (nio_rx s)));;
      print (net_row (row + 2) "Network Interface Tx" (traffic divider units (nio_tx s)));;
      print (net_row (row + 3) "Network Interface packets in" (count_text (nio_ipackets s)));;
      print (net_row (row + 4) "Network Interface packets out" (count_text (nio_opackets s)));;
      print (net_row (row + 5) "Network Interface errors in" (count_text (nio_ierrors s)));;
      print (net_row (row + 6) "Network Interface errors out" (count_text (nio_oerrors s)));;
      print (net_row (row + 7) "Network Interface collisions" (count_text (nio_collisions s)));;
      print (net_row (row + 8) "Network Interface systime" (print_signed (nio_systime s) +:+ " "));;
      net_rows divider units l' (row + 10) (add_net total s)
  end.

Definition net_show (divider : Z) (units : ascii) (l : list sg_network_io_stats) : E unit :=
  t ← net_rows divider units l 2 no_net;
  let '(row, total) := t in
  print (net_row row "Network Interface Name" (pad_right 10 "Total Network IO"));;
  print (net_row (row + 1) "Network Total Rx" (traffic divider units (nio_rx total)));;
  print (net_row (row + 2) "Network Total Tx" (traffic divider units (nio_tx total)));;
  print (net_row (row + 3) "Network Total packets in" (count_text (nio_ipackets total)));;
  print (net_row (row + 4) "Network Total packets out" (count_text (nio_opackets total)));;
  print (net_row (row + 5) "Network Total errors in" (count_text (nio_ierrors total)));;
  print (net_row (row + 6) "Network Total errors out" (count_text (nio_oerrors total)));;
  print (net_row (row + 7) "Network Total collisions" (count_text (nio_collisions total))).

Definition network_traffic (opts : list (ascii * string)) (rounds : list round) : E bool :=
  let '(delay, units, divider) := traffic_opts opts in
  start;; register_quit;; die_unless_dropped;;
  or_die (api_network_io_stats_diff a) "Error. Failed to get network stats";;
  print clear_screen;;
  watch (lib (api_network_io_stats_diff a)) (net_show divider units) delay rounds.

(** filesys_snapshot.c *)
Definition number (w : nat) (z : Z) : string := pad_left w " " (print_unsigned z).
Definition right (w : nat) (s : string) : string := pad_left w " " s.

Definition fs_heading : string :=
  String.concat " " [pad_right 16 "device"; pad_right 24 "mountpt"; pad_right 8 "fstype"; right 16 "size"; right 16 "used";
    right 16 "avail"; right 7 "i-total"; right 7 "i-used"; right 7 "i-free"; right 7 "i-avail"; right 9 "io size";
    right 9 "block size"; right 7 "b-total"; right 7 "b-used"; right 7 "b-free"; right 7 "b-avail"] +:+ newline_text.

Fixpoint fs_lines (l : list sg_fs_stats) : E unit :=
  match l with
  | [] => mret tt
  | f :: l' =>
      device ← print_ptr (fs_device_name f);
      mnt ← print_ptr (fs_mnt_point f);
      type ← print_ptr (fs_fs_type f);
      print (String.concat " " [pad_right 16 device; pad_right 24 mnt; pad_right 8 type;
        number 16 (fs_size f); number 16 (fs_used f); number 16 (fs_avail f);
        number 7 (fs_total_inodes f); number 7 (fs_used_inodes f); number 7 (fs_free_inodes f); number 7 (fs_avail_inodes f);
        number 9 (fs_io_size f); number 9 (fs_block_size f);
        number 7 (fs_total_blocks f); number 7 (fs_used_blocks f); number 7 (fs_free_blocks f); number 7 (fs_avail_blocks f)]
        +:+ newline_text);;
      fs_lines l'
  end.

Definition filesys_snapshot : E Z :=
  start;; return_unless_dropped;;
  l ← or_die (api_fs_stats a) "Failed to get file systems snapshot";
  print fs_heading;; fs_lines l;; mret 0.

(** network_iface_stats.c *)

(** [bsearch] with [sg_network_iface_compare_name]: an element is read when it is looked at. *)
Fixpoint iface_search (fuel : nat) (key : string) (l : list sg_network_iface_stats) (lo up : nat) : E (option nat) :=
  match fuel with
  | O => run (stuck out_of_fuel)
  | S fuel' =>
      if (up <=? lo)%nat then mret None
      else
        let idx := ((lo + up) / 2)%nat in
        match l !! idx with
        | None => run (stuck out_of_bounds)
        | Some s =>
            name ← print_ptr (nif_interface_name s);
            let c := strcmp key name in
            if c <? 0 then iface_search fuel' key l lo idx
            else if 0 <? c then iface_search fuel' key l (S idx) up
            else mret (Some idx)
        end
  end.

Definition duplex_text (d : sg_iface_duplex) : string :=
  match d with SG_IFACE_DUPLEX_FULL => "full" | SG_IFACE_DUPLEX_HALF => "half" | SG_IFACE_DUPLEX_UNKNOWN => "unknown" end.

Fixpoint iface_lines (l : list sg_network_iface_stats) : E unit :=
  match l with
  | [] => mret tt
  | s :: l' =>
      name ← print_ptr (nif_interface_name s);
      print (name +:+ String "009" (print_unsigned (nif_speed s)) +:+ String "009" EmptyString);;
      print (duplex_text (nif_duplex s) +:+ newline_text);;
      iface_lines l'
  end.

(** [args]: the arguments of the command; only the first one is looked at. *)
Definition network_iface_stats (args : list string) : E Z :=
  start;; die_unless_dropped;;
  l ← or_die (api_network_iface_stats a) "Failed to get network interface stats";
  shown ← match args with
          | [] => mret l
          | key :: _ =>
              found ← iface_search (S (length l)) key l 0 (length l);
              match found with
              | None => eprint ("Interface " +:+ key +:+ " not found" +:+ newline_text);; exit_ 1
              | Some i => mret (take 1 (drop i l))
              end
          end;
  print ("Name" +:+ String "009" "Speed" +:+ String "009" "Duplex" +:+ newline_text);;
  iface_lines shown;; mret 0.

(** os_info.c *)
Definition text_line (label : string) (p : char_ptr) : E unit := t ← print_ptr p; print (line label t).

Definition os_info : E Z :=
  start;; die_unless_dropped;;
  h ← or_die (api_host_info a) "Failed to get os stats";
  text_line "OS name : " (hi_os_name h);;
  text_line "OS release : " (hi_os_release h);;
  text_line "OS version : " (hi_os_version h);;
  text_line "Hardware platform : " (hi_platform h);;
  text_line "Machine nodename : " (hi_hostname h);;
  print (line "Machine uptime : " (print_signed (hi_uptime h)));;
  print (line "Number of CPU's configured : " (print_unsigned (hi_maxcpus h)));;
  print (line "Number of CPU's online : " (print_unsigned (hi_ncpus h)));;
  print (line "Kernel bitwidth : " (print_unsigned (hi_bitwidth h)));;
  print (line "Host state : " (host_states (hi_host_state h)));;
  mret 0.

(** process_snapshot.c *)
Definition state_text (s : sg_process_state) : string :=
  match s with
  | SG_PROCESS_STATE_RUNNING => "RUNNING" | SG_PROCESS_STATE_SLEEPING => "SLEEPING"
  | SG_PROCESS_STATE_STOPPED => "STOPPED" | SG_PROCESS_STATE_ZOMBIE => "ZOMBIE"
  | SG_PROCESS_STATE_UNKNOWN => "UNKNOWN"
  end.

Definition process_heading : string :=
  String.concat " " [right 5 "pid"; right 5 "ppid"; right 5 "pgid"; right 5 "uid"; right 5 "euid"; right 5 "gid"; right 5 "egid";
    right 6 "size"; right 6 "res"; right 9 "time"; pad_right 10 "cpu"; pad_right 4 "nice"; pad_right 8 "state";
    pad_right 6 "nvcsw"; pad_right 6 "nivcsw"; pad_right 20 "name"; "title"] +:+ newline_text.

Definition megabytes (z : Z) : string := number 5 (u32 (z / (1024 * 1024))) +:+ "M".

Fixpoint process_lines (l : list sg_process_stats) : E unit :=
  match l with
  | [] => mret tt
  | p :: l' =>
      name ← print_ptr (ps_process_name p);
      title ← print_ptr (ps_proctitle p);
      print (String.concat " " [number 5 (u32 (ps_pid p)); number 5 (u32 (ps_parent p)); number 5 (u32 (ps_pgid p));
        number 5 (u32 (ps_uid p)); number 5 (u32 (ps_euid p)); number 5 (u32 (ps_gid p)); number 5 (u32 (ps_egid p));
        megabytes (ps_proc_size p); megabytes (ps_proc_resident p);
        right 8 (print_signed (s32 (ps_time_spent p))) +:+ "s";
        right 10 (print_f (to_double (to_float (ps_cpu_percent p)))); right 4 (print_signed (ps_nice p));
        pad_right 8 (state_text (ps_state p));
        number 6 (ps_voluntary_context_switches p); number 6 (ps_involuntary_context_switches p);
        pad_right 20 name; title] +:+ newline_text);;
      process_lines l'
  end.

Definition process_snapshot : E Z :=
  start;; die_unless_dropped;;
  l ← or_die (api_process_stats a) "Failed to get process snapshot";
  print process_heading;; process_lines (qsort sg_process_compare_pid l);; mret 0.

(** user_list.c; [ctime_text] is the login time as localtime and strftime write it. *)
Context (ctime_text : Z -> string).

Fixpoint user_lines (l : list sg_user_stats) : E unit :=
  match l with
  | [] => mret tt
  | u :: l' =>
      name ← print_ptr (usr_login_name u);
      device ← print_ptr (usr_device u);
      host ← print_ptr (usr_hostname u);
      print (String.concat " " [right 16 name; right 16 device; right 24 host; right 8 (print_signed (s32 (usr_pid u)));
        right 24 (ctime_text (usr_login_time u))] +:+ newline_text);;
      user_lines l'
  end.

Definition user_list : E Z :=
  start;; die_unless_dropped;;
  l ← or_die (api_user_stats a) "Failed to get logged on users";
  print (String.concat " " [right 16 "login name"; right 16 "device"; right 24 "hostname"; right 8 "pid"; right 24 "login time"]
    +:+ newline_text);;
  user_lines l;; mret 0.

(** valid_filesystems.c *)
Fixpoint valid_lines (l : list char_ptr) : E unit :=
  match l with [] => mret tt | p :: l' => text_line "  - " p;; valid_lines l' end.

Definition valid_filesystems : E Z :=
  start;; die_unless_dropped;;
  o ← lib (api_valid_filesystems a);
  match o with
  | Some l => print (line "Valid file systems:" "");; valid_lines l
  | None => mret tt
  end;;
  mret 0.

(** vm_stats.c *)

(** [100 - (100*((float)free/(float)total))] of two [long long]s. *)
Definition vm_usage (total free : Z) : spec_float :=
  float_sub (float_of 100) (SFmul 24 128 (float_of 100) (SFdiv 24 128 (float_of free) (float_of total))).

Definition vm_stats : E Z :=
  start;; die_unless_dropped;;
  m ← lib (api_mem_stats a);
  s ← (match m with Some _ => lib (api_swap_stats a) | None => mret None end);
  match m, s with
  | Some mem, Some swap =>
      print (line "Total memory in bytes : " (print_unsigned (mem_total mem)));;
      print (line "Used memory in bytes : " (print_unsigned (mem_used mem)));;
      print (line "Cache memory in bytes : " (print_unsigned (mem_cache mem)));;
      print (line "Free memory in bytes : " (print_unsigned (mem_free mem)));;
      print (line "Swap total in bytes : " (print_unsigned (swap_total swap)));;
      print (line "Swap used in bytes : " (print_unsigned (swap_used swap)));;
      print (line "Swap free in bytes : " (print_unsigned (swap_free swap)));;
      print (line "Total VM usage : " (print_52f (to_double (vm_usage
        (s64 (u64 (mem_total mem + swap_total swap))) (s64 (u64 (mem_free mem + swap_free swap)))))  +:+ "%"));;
      mret 0
  | _, _ => helpers_sg_die strerror_r "Unable to get VM stats" 1
  end.

End examples.
