(* ===== verification/ExamplesProps.v ===== *)
(** The example programs: the screens show every item and the sums, an interface is found in a
    sorted list, and a signal never reaches the flag it was registered for. *)

From S2P Require Import Prelude Types CLib Errors Tools Vector Items Stdio ToolsExt Single Disk Process Network NetworkSys Statgrab Saidar Program Examples.

(** * Output *)

Definition printed (t : string) (x : example) : example :=
  on_console (fun c => mk_console (c_out c +:+ t) (c_err c) (c_env c)) x.

Lemma print_done t x : print t x = Done (inr tt) (printed t x).
Proof. done. Qed.

Lemma printed_printed t u x : printed u (printed t x) = printed (t +:+ u) x.
Proof. destruct x as [[o e env] sg]. unfold printed, on_console. simpl. by rewrite string_app_assoc. Qed.

Lemma print_then {B} t (k : E B) x : (print t;; k) x = k (printed t x).
Proof. done. Qed.

Lemma text_then {B} n (k : string -> E B) x : (print_ptr (CStr n) ≫= k) x = k n x.
Proof. done. Qed.

(** * network_traffic *)

(** The nine lines of an interface. *)
Definition net_block (divider : Z) (units : ascii) (row : Z) (name : string) (s : sg_network_io_stats) : string :=
  net_row row "Network Interface Name" (pad_right 10 name) +:+
  net_row (row + 1) "Network Interface Rx" (traffic divider units (nio_rx s)) +:+
  net_row (row + 2) "Network Interface Tx" (traffic divider units (nio_tx s)) +:+
  net_row (row + 3) "Network Interface packets in" (count_text (nio_ipackets s)) +:+
  net_row (row + 4) "Network Interface packets out" (count_text (nio_opackets s)) +:+
  net_row (row + 5) "Network Interface errors in" (count_text (nio_ierrors s)) +:+
  net_row (row + 6) "Network Interface errors out" (count_text (nio_oerrors s)) +:+
  net_row (row + 7) "Network Interface collisions" (count_text (nio_collisions s)) +:+
  net_row (row + 8) "Network Interface systime" (print_signed (nio_systime s) +:+ " ").

(** The sum of a column as an unsigned long long. *)
Definition column {A} (f : A -> Z) (l : list A) : Z := u64 (foldr Z.add 0 (f <$> l)).

(** The whole screen: block [i] at line 2 + 10 i, the totals below the last one. *)
Definition net_screen (divider : Z) (units : ascii) (l : list (string * sg_network_io_stats)) : string :=
  let row := 2 + 10 * Z.of_nat (length l) in
  let total f := column f (snd <$> l) in
  foldr String.append EmptyString (imap (fun i s => net_block divider units (2 + 10 * Z.of_nat i) s.1 s.2) l) +:+
  net_row row "Network Interface Name" (pad_right 10 "Total Network IO") +:+
  net_row (row + 1) "Network Total Rx" (traffic divider units (total nio_rx)) +:+
  net_row (row + 2) "Network Total Tx" (traffic divider units (total nio_tx)) +:+
  net_row (row + 3) "Network Total packets in" (count_text (total nio_ipackets)) +:+
  net_row (row + 4) "Network Total packets out" (count_text (total nio_opackets)) +:+
  net_row (row + 5) "Network Total errors in" (count_text (total nio_ierrors)) +:+
  net_row (row + 6) "Network Total errors out" (count_text (total nio_oerrors)) +:+
  net_row (row + 7) "Network Total collisions" (count_text (total nio_collisions)).

Lemma net_rows_text divider units l : forall row total x,
  Forall (fun s => nio_interface_name s.2 = CStr s.1) l ->
  net_rows divider units (snd <$> l) row total x =
    Done (inr (row + 10 * Z.of_nat (length l), foldl add_net total (snd <$> l)))
         (printed (foldr String.append EmptyString
            (imap (fun i s => net_block divider units (row + 10 * Z.of_nat i) s.1 s.2) l)) x).
Proof.
  induction l as [|[name s] l IH]; intros row total x V.
  - cbn. rewrite Z.add_0_r. destruct x as [[o e env] sg]. unfold printed, on_console. simpl. by rewrite string_app_nil.
  - apply Forall_cons in V as [Vn V]. simpl in Vn. rewrite fmap_cons. cbn [net_rows snd]. rewrite Vn, text_then, !print_then.
    rewrite IH by done. rewrite !printed_printed. cbn [foldl length imap foldr fst snd].
    f_equal; [do 2 f_equal; lia|]. f_equal.
    unfold net_block at 2. rewrite Z.add_0_r, !string_app_assoc. do 9 f_equal. f_equal.
    apply imap_ext. intros i p _. simpl. f_equal. lia.
Qed.

(** A counter of the totals is the sum of its column. *)
Lemma add_net_column (f : sg_network_io_stats -> Z) l :
  (forall t s, f (add_net t s) = u64 (f t + f s)) -> f no_net = 0 -> f (foldl add_net no_net l) = column f l.
Proof.
  intros A Z. enough (forall t, f t = u64 (f t) -> f (foldl add_net t l) = u64 (f t + foldr Z.add 0 (f <$> l))) as G.
  { rewrite G by (by rewrite Z). by rewrite Z. }
  induction l as [|s l IH]; intros t Ht; simpl; [by rewrite Z.add_0_r|].
  rewrite IH by (rewrite A; unfold wrap; by rewrite Zmod_mod). rewrite A. unfold wrap. rewrite Zplus_mod_idemp_l. by rewrite <- Z.add_assoc.
Qed.

(** The screen of network_traffic: the nine lines of interface [i] begin at line 2 + 10 i, the
    totals are below the last block, and each is the sum of its column modulo 2^64. *)
Theorem network_traffic_screen divider units l x :
  Forall (fun s => nio_interface_name s.2 = CStr s.1) l ->
  net_show divider units (snd <$> l) x = Done (inr tt) (printed (net_screen divider units l) x).
Proof.
  intros V. unfold net_show. rewrite (X_bind_done _ _ _ _ _ (net_rows_text _ _ _ _ _ _ V)).
  rewrite !print_then, print_done, !printed_printed. unfold net_screen. do 2 f_equal.
  rewrite !add_net_column by done. done.
Qed.

Lemma network_traffic_screen_witness :
  net_show 1024 "k" [mk_network_io_stats (CStr "lo") 2048 (2 ^ 64 - 1) 3 4 0 0 0 60;
                     mk_network_io_stats (CStr "eth0") 1024 1025 5 6 1 2 3 60]
    (mk_example (mk_console EmptyString EmptyString (mk_env [] 0 None error_glob_zero)) signals_zero) =
  Done (inr tt) (printed (net_screen 1024 "k"
    [("lo", mk_network_io_stats (CStr "lo") 2048 (2 ^ 64 - 1) 3 4 0 0 0 60);
     ("eth0", mk_network_io_stats (CStr "eth0") 1024 1025 5 6 1 2 3 60)])
    (mk_example (mk_console EmptyString EmptyString (mk_env [] 0 None error_glob_zero)) signals_zero)).
Proof. apply (network_traffic_screen 1024 "k" [("lo", _); ("eth0", _)]). repeat constructor. Defined.

(** * network_iface_stats *)

(** The search on readable names is the one of [bsearch]. *)
Lemma iface_search_bsearch key l : Forall (fun s => nif_interface_name s.2 = CStr s.1) l ->
  forall fuel lo up x r, bsearch_loop fuel (fun s => strcmp key s.1) l lo up = r -> (up <= length l)%nat -> (up - lo < fuel)%nat ->
  iface_search fuel key (snd <$> l) lo up x = Done (inr r) x.
Proof.
  intros V. induction fuel as [|fuel IH]; intros lo up x r Hb Hu Hf; [lia|].
  cbn [iface_search bsearch_loop] in *. cbv zeta in *. destruct (Nat.leb_spec up lo) as [|Hlt]; [by simplify_eq|].
  assert (lo <= (lo + up) / 2 < up)%nat as Hm.
  { pose proof (Nat.div_mod_eq (lo + up) 2). pose proof (Nat.mod_upper_bound (lo + up) 2). lia. }
  destruct (lookup_lt_is_Some_2 l ((lo + up) / 2)) as [[n s] Hs]; [lia|].
  rewrite list_lookup_fmap, Hs. rewrite Hs in Hb. pose proof (Forall_lookup_1 _ _ _ _ V Hs) as Vn. simpl in Vn.
  cbn [fmap option_fmap option_map snd]. rewrite Vn, text_then.
  cbn [fst] in Hb. destruct (strcmp key n <? 0); [apply IH; [done|lia|lia]|].
  destruct (0 <? strcmp key n); [apply IH; [done|lia|lia]|]. by rewrite <- Hb.
Qed.

(** In a list sorted by name the interface is found when it is there. *)
Lemma iface_search_sorted key l x :
  Forall (fun s => nif_interface_name s.2 = CStr s.1) l -> key_mono (fun s => strcmp key s.1) l ->
  exists r, iface_search (S (length (snd <$> l))) key (snd <$> l) 0 (length (snd <$> l)) x = Done (inr r) x /\
    match r with
    | Some i => exists s, l !! i = Some s /\ strcmp key s.1 = 0
    | None => forall s, s ∈ l -> strcmp key s.1 <> 0
    end.
Proof.
  intros V M. exists (bsearch (fun s => strcmp key s.1) l). rewrite length_fmap.
  split; [apply iface_search_bsearch; try done; lia|by apply bsearch_spec].
Qed.

Definition demo_example : example :=
  mk_example (mk_console EmptyString EmptyString (mk_env [] 0 None error_glob_zero)) signals_zero.

Definition demo_iface (name : string) : sg_network_iface_stats :=
  mk_network_iface_stats (CStr name) 1000 1 SG_IFACE_DUPLEX_FULL SG_IFACE_UP 0.

(** In the order of /proc/net/dev it is missed. *)
Lemma iface_search_unsorted :
  iface_search 4 "lo" (demo_iface <$> ["lo"; "eth0"; "wlan0"]) 0 3 demo_example = Done (inr None) demo_example.
Proof. vm_compute. reflexivity. Qed.

(** * Signals *)

Fixpoint register_all (l : list (nat * option nat)) : M signals unit :=
  match l with [] => mret tt | (signo, p) :: l' => register_sig_flagger signo p;; register_all l' end.

Lemma register_keeps_null signo p s :
  (signo < length (sig_flags s))%nat -> Forall (eq None) (sig_flags s) ->
  exists rc s', register_sig_flagger signo p s = Done rc s' /\ Forall (eq None) (sig_flags s') /\
    length (sig_flags s') = length (sig_flags s) /\ ints s' = ints s.
Proof.
  intros L V. destruct (lookup_lt_is_Some_2 _ _ L) as [o Ho].
  pose proof (Forall_lookup_1 _ _ _ _ V Ho) as <-.
  unfold register_sig_flagger, mbind, M_bind, gets. rewrite Ho. rewrite (bool_decide_eq_false_2 (None <> None)) by (by intros []).
  cbn [andb]. destruct p; simpl; (eexists _, _; split; [reflexivity|]; simpl; split_and!; [by apply Forall_insert|by rewrite length_insert|done]).
Qed.

(** Whatever is registered with [register_sig_flagger], no entry of [sig_flags] is ever set and
    [sig_flagger] never counts a signal: the test for a flag pointer is the wrong way round. *)
Theorem register_never_flags l :
  Forall (fun r => (r.1 < NSIG)%nat) l ->
  wp (register_all l) (fun _ s =>
    Forall (eq None) (sig_flags s) /\ forall signo, (signo < NSIG)%nat -> sig_flagger signo s = Done tt s) signals_zero.
Proof.
  intros V. enough (forall s, length (sig_flags s) = NSIG -> Forall (eq None) (sig_flags s) ->
    wp (register_all l) (fun _ s' => length (sig_flags s') = NSIG /\ Forall (eq None) (sig_flags s')) s) as G.
  { eapply wp_mono; [apply G; [done|]|].
    - apply Forall_replicate. done.
    - intros _ s [Hl Hn]. split; [done|]. intros signo Hs. unfold sig_flagger, mbind, M_bind, gets.
      destruct (lookup_lt_is_Some_2 (sig_flags s) signo) as [o Ho]; [lia|].
      rewrite Ho. by pose proof (Forall_lookup_1 _ _ _ _ Hn Ho) as <-. }
  induction V as [|[signo p] l Hs V IH]; intros s L N; [done|]. simpl in Hs |- *. apply wp_bind.
  destruct (register_keeps_null signo p s) as (rc & s' & E & N' & L' & _); [lia|done|].
  unfold wp at 1. rewrite E. apply IH; [lia|done].
Qed.

Lemma register_never_flags_witness :
  wp (register_all [(SIGINT, Some 0%nat); (15%nat, None)]) (fun _ s =>
    Forall (eq None) (sig_flags s) /\ forall signo, (signo < NSIG)%nat -> sig_flagger signo s = Done tt s) signals_zero.
Proof. apply register_never_flags. repeat constructor; unfold SIGINT, NSIG; simpl; lia. Defined.

(** With the default action the interrupt ends the programs that wanted to count it. *)
Lemma sigint_kills r :
  (let x := mk_example (x_console demo_example) (mk_signals (replicate NSIG None) (replicate NSIG false) [0]) in
   match (register_quit;; stop_round (fun _ => EmptyString) 1 r) x with
   | Done (inl status) _ => r_signals r = [SIGINT] -> status = 130
   | _ => r_signals r <> [SIGINT]
   end).
Proof.
  simpl. destruct (decide (r_signals r = [SIGINT])) as [E|N].
  - unfold stop_round. rewrite E. by vm_compute.
  - case_match; [case_match|]; [by intros|done..].
Qed.

(** * Keys *)

(** The upper bytes of the key are those of an int nobody set: with others than zero "q" does not stop. *)
Lemma key_missed x :
  read_loop (fun _ => EmptyString) [RByte "q"] 256 x = Done (inr 369) x /\ byte_of "q" = 113.
Proof. done. Qed.

(** -b does not set the divider back: kilobytes with the unit of bytes. *)
Lemma traffic_opts_bytes : traffic_opts [("k"%char, ""); ("b"%char, "")] = (1, "b"%char, 1024).
Proof. reflexivity. Qed.
