(* ===== verification/Startup.v ===== *)
(** What happens before and after the statistics: the search for the logger's properties
    (tools.c), the functions that initialise the components, the mount table that is opened,
    the storage of builds without threads or on Windows (globals.c), and the entry point of
    the Windows library (win32.c). *)

From S2P Require Import Prelude Types CLib Errors Tools Vector Items Stdio ToolsExt Single Globals Disk Win32.

(** * sg_log_init *)

Definition PATH_MAX : nat := 4096.

(** The calls of the logger. *)
Inductive log_call := LFile (path : string) | LBasic.

(** [strlcpy] and [strlcat] with the size PATH_MAX, on texts. *)
Definition copy_path (s : string) : string := vsnprintf PATH_MAX s.
Definition cat_path (path s : string) : string :=
  if (PATH_MAX <=? String.length path)%nat then path else copy_path (path +:+ s).

Definition is_slash (c : ascii) : bool := Ascii.eqb c "/".

Fixpoint drop_chars (p : ascii -> bool) (l : list ascii) : list ascii :=
  match l with [] => [] | c :: l' => if p c then drop_chars p l' else l end.

(** [dirname] of the language's library: without the last component. *)
Definition dirname (s : string) : string :=
  let back := drop_chars is_slash (rev (String.list_ascii_of_string s)) in
  let dir := drop_chars (fun c => negb (is_slash c)) back in
  match drop_chars is_slash dir with
  | [] => if decide (s <> EmptyString /\ (back = [] \/ dir <> [])) then "/" else "."
  | d => String.string_of_list_ascii (rev d)
  end.

Definition libs_suffix : string := "/.libs".

Section log_init.
(** The environment, which files can be read, which the logger accepts, the working directory,
    and the directory of the build. *)
Context (getenv : string -> option string) (readable configures : string -> bool) (cwd : option string).
Context (PROPERTIES_SEARCH_DIR : string).

(** The path and whether it can be read. *)
Definition check_path (path : string) (properties_pfx : option string) : string * bool :=
  let path := match properties_pfx with
              | Some pfx => cat_path (cat_path (cat_path path "/") pfx) ".properties"
              | None => path
              end in
  (path, readable path).

(** [if(check_path(...) && !log4cplus_file_configure(...)) return;] and what follows. *)
Definition try_path (path : string) (pfx : option string) (next : M (list log_call) unit) : M (list log_call) unit :=
  let '(path, ok) := check_path path pfx in
  if ok then
    modify (fun l => l ++ [LFile path]);;
    if configures path then mret tt else next
  else next.

(** The path beside the program: [strncpy] behind argv0 leaves no terminator when the suffix
    fills the buffer, and writes behind it when argv0 is longer than the buffer. *)
Definition beside_program (argv0 : string) : M (list log_call) string :=
  let n := String.length argv0 in
  if (n + String.length ".properties" <? PATH_MAX)%nat then mret (argv0 +:+ ".properties")
  else if (n =? PATH_MAX)%nat then mret (copy_path argv0)
  else stuck out_of_bounds.

(** The directory of the program, that of the sources for a program in the build tree. *)
Definition program_dir (proppath : string) : string :=
  let dir := copy_path (dirname proppath) in
  let n := (String.length dir - String.length libs_suffix)%nat in
  if (0 <? n)%nat && bool_decide (String.substring n (String.length libs_suffix) dir = libs_suffix)
  then String.substring 0 n dir else dir.

Definition log_by_env (env_name pfx : option string) (next : M (list log_call) unit) : M (list log_call) unit :=
  match env_name with
  | None => next
  | Some name =>
      let by_dir :=
        match getenv (cat_path (copy_path name) "DIR") with
        | Some d => try_path (copy_path d) pfx next
        | None => next
        end in
      match getenv name with
      | Some p => try_path p None (try_path (cat_path (cat_path (copy_path PROPERTIES_SEARCH_DIR) "/") p) None by_dir)
      | None => by_dir
      end
  end.

Definition log_by_program (argv0 pfx : option string) (next : M (list log_call) unit) : M (list log_call) unit :=
  match argv0 with
  | None => next
  | Some a =>
      proppath ← beside_program a;
      try_path proppath None (try_path (program_dir proppath) pfx next)
  end.

Definition sg_log_init (properties_pfx env_name argv0 : option string) : M (list log_call) unit :=
  log_by_env env_name properties_pfx (
  log_by_program argv0 properties_pfx (
  let by_build :=
    try_path (copy_path PROPERTIES_SEARCH_DIR) properties_pfx (modify (fun l => l ++ [LBasic])) in
  match cwd with
  | Some d => try_path d properties_pfx by_build
  | None => by_build
  end)).
End log_init.

(** * The components *)

(** EASY_COMP_INIT_FN: the number of the component is kept. *)
Definition EASY_COMP_INIT_FN (id : Z) : M env (sg_error * Z) := mret (SG_ERROR_NONE, id).

(** The page size is asked for once. *)
Definition sg_process_init_comp (id : Z) (page_size_ok : unit + Z) : M env (sg_error * Z) :=
  sys_call page_size_ok SG_ERROR_SYSCONF (Some "_SC_PAGESIZE") id (fun _ => mret (SG_ERROR_NONE, id)).

(** [regcomp_ok]: whether the expression of the interfaces compiles; [page_size]: asked for on
    some systems. The state is whether the expression is compiled. *)
Definition sg_network_init_comp (id : Z) (regcomp_ok : bool) (page_size : option (unit + Z)) : M env (sg_error * Z * bool) :=
  if negb regcomp_ok then rc ← RETURN_WITH_SET_ERROR SG_ERROR_PARSE (Some "regcomp"); mret (rc, id, false)
  else
    match page_size with
    | None => mret (SG_ERROR_NONE, id, true)
    | Some ok =>
        r ← sys_call ok SG_ERROR_SYSCONF (Some "_SC_PAGESIZE") id (fun _ => mret (SG_ERROR_NONE, id));
        mret (r.1, id, true)
    end.

(** [regfree] of an expression that is not compiled has no defined effect. *)
Definition sg_network_destroy_comp (compiled : bool) : M env bool :=
  if compiled then mret false else stuck undefined_op.

Definition sg_disk_init_comp {mem : Memory} {sys : System} (id : Z) (vf : valid_fs) : M env (sg_error * Z * valid_fs) :=
  r ← init_valid_fs_types vf;
  mret (r.1, id, r.2).

(** * The mount table *)

Definition mnttabs : list string := ["/proc/mounts"; "/etc/mnttab"; "/etc/mtab"].

(** [setmntent] of each in turn, until one opens. *)
Fixpoint open_mount_table {sys : System} (flock_ok : string -> bool) (tables : list string) : M env (option string) :=
  match tables with
  | [] => mret None
  | fn :: tables' =>
      f ← setmntent (flock_ok fn) fn "r";
      match f with Some c => mret (Some c) | None => open_mount_table flock_ok tables' end
  end.

(** * The storage in other builds *)

Section storage.
Context (comp_info : list comp_init).

(** Without threads there is one buffer, that of thread 0. *)
Definition main_thread : nat := 0.
Definition sg_comp_get_tls_single : nat -> Z -> M globals (option Z) := sg_comp_get_tls main_thread comp_info.
Definition sg_destroy_main_globals_single : M globals unit :=
  bufs ← gets g_tls;
  match bufs !! main_thread with
  | None => mret tt
  | Some _ => sg_destroy_globals main_thread comp_info
  end.

(** * DllMain *)

Definition on_pdh {A} (m : M pdh_state A) : M (pdh_state * globals) A := zoom fst (fun p s => (p, s.2)) m.
Definition on_globals {A} (m : M globals A) : M (pdh_state * globals) A := zoom snd (fun g s => (s.1, g)) m.

(** A build with threads: at the end of a thread its own storage goes; [t] is that thread. *)
Definition DllMain_threads {mem : Memory} (api : pdh_api) (t : nat) (fdwReason : dll_reason) : M (pdh_state * globals) bool :=
  match fdwReason with
  | DLL_THREAD_DETACH => on_globals (sg_destroy_globals t comp_info);; mret true
  | _ => on_pdh (DllMain api fdwReason)
  end.
End storage.

(** * The order of the search *)

Section order.
Context (getenv : string -> option string) (readable configures : string -> bool) (cwd : option string).
Context (PROPERTIES_SEARCH_DIR : string).

Definition with_pfx (pfx : option string) (dir : string) : string :=
  match pfx with Some p => cat_path (cat_path (cat_path dir "/") p) ".properties" | None => dir end.

(** The places in the order they are looked at; [beside] is the path beside the program. *)
Definition candidates (pfx env_name : option string) (beside : option string) : list string :=
  match env_name with
  | None => []
  | Some name =>
      match getenv name with
      | Some p => [p; cat_path (cat_path (copy_path PROPERTIES_SEARCH_DIR) "/") p]
      | None => []
      end ++
      match getenv (cat_path (copy_path name) "DIR") with Some d => [with_pfx pfx (copy_path d)] | None => [] end
  end ++
  match beside with Some b => [b; with_pfx pfx (program_dir b)] | None => [] end ++
  match cwd with Some d => [with_pfx pfx d] | None => [] end ++
  [with_pfx pfx (copy_path PROPERTIES_SEARCH_DIR)].

(** The readable ones up to the first that the logger accepts; then the basic configuration. *)
Fixpoint configured (l : list string) : list log_call :=
  match l with
  | [] => [LBasic]
  | p :: l' => if readable p then LFile p :: (if configures p then [] else configured l') else configured l'
  end.

(** A part of the search behind which the places [l] are left. *)
Definition searches (m : M (list log_call) unit) (l : list string) : Prop :=
  forall acc, m acc = Done tt (acc ++ configured l).

Lemma try_path_searches pfx path next l :
  searches next l -> searches (try_path readable configures path pfx next) (with_pfx pfx path :: l).
Proof.
  intros N acc. unfold try_path, check_path. fold (with_pfx pfx path). cbn [configured].
  destruct (readable (with_pfx pfx path)); [|apply N].
  unfold mbind, M_bind, modify. destruct (configures _); [done|]. by rewrite N, <- app_assoc.
Qed.

(** [sg_log_init] configures the logger from the first place, in the order of its search, that
    can be read and that the logger accepts, and otherwise the basic way; for a program
    path that leaves room for the suffix it stays inside its buffer. *)
Theorem log_init_order pfx env_name argv0 :
  match argv0 with Some a => (String.length a + 11 < PATH_MAX)%nat | None => True end ->
  sg_log_init getenv readable configures cwd PROPERTIES_SEARCH_DIR pfx env_name argv0 [] =
    Done tt (configured (candidates pfx env_name ((fun a => a +:+ ".properties") <$> argv0))).
Proof.
  intros L. enough (searches (sg_log_init getenv readable configures cwd PROPERTIES_SEARCH_DIR pfx env_name argv0)
    (candidates pfx env_name ((fun a => a +:+ ".properties") <$> argv0))) as G by apply G.
  assert (forall a, argv0 = Some a -> beside_program a = mret (a +:+ ".properties")) as P.
  { intros a ->. unfold beside_program. by rewrite (proj2 (Nat.ltb_lt _ _)). }
  assert (forall p next l, searches next l -> searches (try_path readable configures p None next) (p :: l)) as T
    by (intros; by apply (try_path_searches None)).
  unfold sg_log_init, candidates, log_by_env, log_by_program.
  destruct argv0 as [a|]; [rewrite (P a eq_refl)|]; destruct env_name as [n|];
    repeat match goal with |- context [getenv ?x] => destruct (getenv x) end; destruct cwd; simpl;
    repeat first [apply T | apply try_path_searches | by intros acc | intros acc; simpl].
Qed.
End order.

Lemma log_init_order_witness :
  sg_log_init (fun n => if decide (n = "SAIDAR_LOG_PROPERTIES") then Some "my.properties" else None)
    (fun p => bool_decide (p = "./saidar.properties") || bool_decide (p = "/src/saidar/saidar.properties"))
    (fun p => negb (bool_decide (p = "./saidar.properties"))) (Some "/src/saidar") "/etc"
    (Some "saidar") (Some "SAIDAR_LOG_PROPERTIES") (Some "./saidar") [] =
  Done tt [LFile "./saidar.properties"; LFile "./saidar.properties"; LFile "/src/saidar/saidar.properties"].
Proof.
  rewrite log_init_order; [vm_compute; reflexivity|]. unfold PATH_MAX. simpl. lia.
Defined.

(** A program path that leaves no room for the suffix is written behind the buffer, or left
    without an end. *)
Lemma beside_program_overrun argv0 l :
  (PATH_MAX - 11 <= String.length argv0)%nat -> String.length argv0 <> PATH_MAX ->
  beside_program argv0 l = Stuck out_of_bounds.
Proof.
  intros L N. unfold beside_program. change (String.length ".properties") with 11%nat.
  rewrite (proj2 (Nat.ltb_ge _ _)) by lia. by rewrite (proj2 (Nat.eqb_neq _ _)).
Qed.

(** The directory of a program in the build tree is that of its sources. *)
Lemma program_dir_demo :
  program_dir "/src/saidar/.libs/saidar.properties" = "/src/saidar" /\ program_dir "saidar.properties" = "." /\
  program_dir "/saidar.properties" = "/".
Proof. vm_compute. done. Qed.

(** A component that cannot compile its expression is not to be destroyed: the error of
    sg_network_init_comp, when it is ignored, leads to regfree of nothing. *)
Lemma network_destroy_uncompiled e :
  (r ← sg_network_init_comp 5 false None; sg_network_destroy_comp r.2) e = Stuck undefined_op.
Proof. done. Qed.
