(* ===== verification/Commands.v ===== *)
(** The commands as programs that print and exit: the help, the messages and the exit codes of
    statgrab.c and saidar.c around the parts of Statgrab.v and Saidar.v. *)

From S2P Require Import Prelude Types CLib Errors Tools Vector Items Stdio ToolsExt Single Disk Statgrab Saidar Program.

(** * statgrab *)

#[export] Program Instance prog_console : Console prog :=
  {| get_console := fun p => mk_console (p_out p) (p_err p) (p_env p);
     put_console := fun c p => mk_prog (p_items p) (p_alloc p) (p_graphite_ts p) (c_out c) (c_err c) (c_env c) |}.
Next Obligation. by intros []. Qed.
Next Obligation. by intros [] ?. Qed.
Next Obligation. done. Qed.

Definition lines (l : list string) : string := foldr (fun t s => t +:+ newline_text +:+ s) EmptyString l.

Section statgrab.
Context {mem : Memory} (strerror_r : Z -> option string) (version bugreport : string).

Definition usage_options : list string :=
  ["  -l         Linux sysctl-style output (default)";
   "  -b         BSD sysctl-style output";
   "  -m         MRTG-compatible output";
   "  -r         Graphite-compatible output";
   "  -R PREFIX  Graphite-compatible output with STATs prefixed by 'PREFIX.'";
   "  -u         Plain output (only show values)";
   "  -n         Display cumulative stats once (default)";
   "  -s         Display stat differences repeatedly";
   "  -o         Display stat differences once";
   "  -t DELAY   When repeating, wait DELAY seconds between updates (default 1)";
   "  -p         Display CPU usage differences as percentages rather than";
   "             absolute values";
   "  -f FACTOR  Display floating-point values as integers scaled by FACTOR";
   "  -F fs-list List of file systems (!) to show";
   "  -K         Display byte counts in kibibytes";
   "  -M         Display byte counts in mebibytes";
   "  -G         Display byte counts in gibibytes";
   ""].

Definition usage {A} : X prog A :=
  print (lines ["Usage: statgrab [OPTION]... [STAT]..."; "Display system statistics."; "";
                "If no STATs are given, all will be displayed. Specify 'STAT.' to display all";
                "statistics starting with that prefix."; ""]);;
  print (lines usage_options);;
  print ("Version " +:+ version +:+ " - report bugs to <" +:+ bugreport +:+ ">." +:+ newline_text);;
  exit_ 1.

Definition statgrab_die {A} (s : string) : X prog A := eprint ("fatal: " +:+ s +:+ newline_text);; exit_ 1.

Definition statgrab_sg_die {A} (prefix : string) (exit_code : Z) : X prog A := sg_die strerror_r prefix exit_code.

(** [set_valid_filesystems] and its error; the result of the model is the new list. *)
Definition use_filesystems (list_ : string) (vf : valid_fs) : X prog valid_fs := run (in_penv (set_valid_filesystems list_ vf)).

(** The rounds by the mode, as in [main] of Statgrab.v. *)
Definition statgrab_rounds (o : options) (args : list string) (flags : list bool) (libs : list library) : M prog unit :=
  match repeat_mode o, libs with
  | REPEAT_NONE, lib :: _ => get_stats o lib flags;; print_stats o args
  | REPEAT_ONCE, lib1 :: lib2 :: _ => get_stats o lib1 flags;; get_stats o lib2 flags;; print_stats o args
  | REPEAT_FOREVER, _ => repeat_rounds o args flags libs
  | _, _ => mret tt
  end.

Definition statgrab_program (opts : list (ascii * string)) (args : list string) (dropped : bool) (vf : valid_fs)
    (libs : list library) : X prog valid_fs :=
  match set_options opts default_options with
  | None => usage
  | Some o =>
      (if decide (display_mode o = DISPLAY_MRTG) then
         (if decide (length args <> 2%nat) then statgrab_die "mrtg mode: must specify exactly two stats"
          else if decide (repeat_mode o = REPEAT_FOREVER) then statgrab_die "mrtg mode: cannot repeat display"
          else mret tt)
       else mret tt);;
      let o := finish_options o in
      let flags := select_interesting args ((fun _ => false) <$> toplevels) in
      if negb dropped then statgrab_die "Failed to drop setuid/setgid privileges"
      else
        vf' ← use_filesystems (default default_fslist (fslist o)) vf;
        run (statgrab_rounds o args flags libs);;
        (if decide (display_mode o = DISPLAY_MRTG) then print newline_text;; print ("statgrab" +:+ newline_text) else mret tt);;
        mret vf'
  end.
End statgrab.

(** * saidar *)

Section saidar.
Context (strerror_r : Z -> option string) (version bugreport : string).

Definition report_bugs : X console unit := eprint (newline_text +:+ "Report bugs to <" +:+ bugreport +:+ ">." +:+ newline_text).

Definition version_num {A} (progname : string) : X console A :=
  eprint (progname +:+ " version " +:+ version +:+ newline_text);; report_bugs;; exit_ 1.

Definition saidar_die {A} (s : string) : X console A := eprint ("fatal: " +:+ s +:+ newline_text);; exit_ 1.

Definition saidar_sg_die {A} (prefix : string) (exit_code : Z) : X console A := sg_die strerror_r prefix exit_code.

(** A build with colours. *)
Definition saidar_usage {A} (progname : string) : X console A :=
  eprint ("Usage: " +:+ progname +:+ " [-d delay] [-c] [-v] [-h]" +:+ newline_text +:+ newline_text);;
  eprint (lines ["  -d    Sets the update time in seconds"]);;
  eprint (lines ["  -c    Enables coloured output"]);;
  eprint (lines ["  -v    Prints version number"]);;
  eprint (lines ["  -h    Displays this help information."]);;
  report_bugs;; exit_ 1.

(** The loop over the options with the texts of its exits. *)
Fixpoint saidar_getopt (progname : string) (opts : list (ascii * string)) (delay : Z) (colouron : bool) : X console (Z * bool) :=
  match opts with
  | [] => mret (delay, colouron)
  | (c, optarg) :: opts' =>
      if Ascii.eqb c "d" then
        let delay := s32 (libc_atoll optarg) in
        if delay <? 1 then eprint (lines ["Time must be 1 second or greater"]);; exit_ 1
        else saidar_getopt progname opts' delay colouron
      else if Ascii.eqb c "c" then saidar_getopt progname opts' delay true
      else if Ascii.eqb c "v" then version_num progname
      else saidar_usage progname
  end.

(** [main] up to the file systems. *)
Definition saidar_begin (progname : string) (dropped : bool) (opts : list (ascii * string)) : X console (Z * bool) :=
  if negb dropped then eprint (lines ["Failed to drop setuid/setgid privileges"]);; exit_ 1
  else saidar_getopt progname opts 2 false.

(** The terminal without colours. *)
Definition colour_warning (colouron colours : bool) : X console bool :=
  if colouron && negb colours then
    eprint "Colour support disabled: your terminal does not support colour.";; mret false
  else mret colouron.
End saidar.

(** * What the programs do with their options *)

Lemma eprint_prog t (p : prog) :
  eprint t p = Done (inr tt) (mk_prog (p_items p) (p_alloc p) (p_graphite_ts p) (p_out p) (p_err p +:+ t) (p_env p)).
Proof. done. Qed.

Lemma append_longer (s t : string) : t <> EmptyString -> s +:+ t <> s.
Proof.
  intros N E. apply (f_equal String.length) in E. rewrite string_length_app in E. destruct t; simpl in E; [done|lia].
Qed.

Section statgrab_facts.
Context {mem : Memory} (version bugreport : string).

Ltac exits := simpl; split_and!; [done|right; by apply append_longer|done|done].

(** Behind the tests both are the same computation. *)
Lemma rounds_agree o args flags libs l vf p :
  match (vf' ← use_filesystems l vf;
         run (statgrab_rounds o args flags libs);;
         (if decide (display_mode o = DISPLAY_MRTG) then print newline_text;; print ("statgrab" +:+ newline_text) else mret tt);;
         mret vf' : X prog valid_fs) p with
  | Done (inr vf') p' =>
      (vf' ← in_penv (set_valid_filesystems l vf);
       statgrab_rounds o args flags libs;;
       (if decide (display_mode o = DISPLAY_MRTG) then
          printf (String newline EmptyString);; printf ("statgrab" +:+ String newline EmptyString) else mret tt);;
       mret vf' : M prog valid_fs) p = Done vf' p'
  | Done (inl status) p' => False
  | Stuck f =>
      (vf' ← in_penv (set_valid_filesystems l vf);
       statgrab_rounds o args flags libs;;
       (if decide (display_mode o = DISPLAY_MRTG) then
          printf (String newline EmptyString);; printf ("statgrab" +:+ String newline EmptyString) else mret tt);;
       mret vf' : M prog valid_fs) p = Stuck f
  end.
Proof.
  unfold mbind, X_bind, M_bind, use_filesystems, run.
  destruct (in_penv _ p) as [vf' p1|]; [|done]. destruct (statgrab_rounds _ _ _ _ p1) as [[] p2|]; [|done].
  by destruct (decide _).
Qed.

(** The program around [main]: where [main] ends, the program ends the same way; where the
    program exits, the status is 1, there is a message, and the model of [main] gives up. *)
Theorem statgrab_program_refines opts args dropped vf libs p :
  match statgrab_program version bugreport opts args dropped vf libs p with
  | Done (inr vf') p' => main opts args dropped vf libs p = Done vf' p'
  | Done (inl status) p' =>
      status = 1 /\ (p_out p' <> p_out p \/ p_err p' <> p_err p) /\ p_items p' = p_items p /\
      main opts args dropped vf libs p = Stuck process_abort
  | Stuck f => main opts args dropped vf libs p = Stuck f
  end.
Proof.
  unfold statgrab_program, main. destruct (set_options opts default_options) as [o|].
  2: { simpl. split_and!; [done|left|done|done]. rewrite !string_app_assoc. by apply append_longer. }
  destruct (decide (display_mode o = DISPLAY_MRTG /\ _)) as [[M [L|R]]|N].
  - destruct (decide (display_mode o = DISPLAY_MRTG)); [|done]. destruct (decide (length args <> 2%nat)); [exits|done].
  - destruct (decide (display_mode o = DISPLAY_MRTG)); [|done]. destruct (decide (length args <> 2%nat)); [exits|].
    destruct (decide (repeat_mode o = REPEAT_FOREVER)); [exits|done].
  - erewrite (X_bind_done _ _ p tt p).
    2: { destruct (decide (display_mode o = DISPLAY_MRTG)); [|done]. rewrite !decide_False by naive_solver. done. }
    cbv zeta. destruct dropped; [|exits]. cbn [negb]. pose proof rounds_agree as G.
    match goal with |- context [use_filesystems ?l ?vf] =>
      specialize (G (finish_options o) args (select_interesting args ((fun _ => false) <$> toplevels)) libs l vf p) end.
    match type of G with match ?x with _ => _ end => destruct x as [[status|vf'] p'|] end; [done|exact G|exact G].
Qed.
End statgrab_facts.

(** The character behind "  -" of a line of the help. *)
Definition option_of (line : string) : option ascii :=
  match line with String " " (String " " (String "-" (String c _))) => Some c | _ => None end.

(** Every character, for facts about all of them. *)
Definition all_ascii : list ascii := (fun n => ascii_of_nat n) <$> List.seq 0 256.

Lemma all_ascii_complete c : c ∈ all_ascii.
Proof.
  unfold all_ascii. apply list_elem_of_fmap. exists (nat_of_ascii c). split; [by rewrite ascii_nat_embedding|].
  apply elem_of_seq. pose proof (nat_ascii_bounded c). lia.
Qed.

(** The help of statgrab has a line for exactly the options that [main] accepts. *)
Theorem usage_lists_options c optarg o :
  Some c ∈ (option_of <$> usage_options) <-> is_Some (set_option c optarg o).
Proof.
  assert (forall c, bool_decide (Some c ∈ (option_of <$> usage_options)) = bool_decide (is_Some (set_option c EmptyString default_options))) as G.
  { assert (forallb (fun c => Bool.eqb (bool_decide (Some c ∈ (option_of <$> usage_options)))
                                (bool_decide (is_Some (set_option c EmptyString default_options)))) all_ascii = true) as F by (vm_compute; reflexivity).
    intros d. rewrite forallb_forall in F. apply eqb_prop, F, list_elem_of_In, all_ascii_complete. }
  assert (is_Some (set_option c optarg o) <-> is_Some (set_option c EmptyString default_options)) as ->.
  { unfold set_option. destruct c as [[] [] [] [] [] [] [] []]; simpl; split; intros [? ?]; eauto; done. }
  specialize (G c). rewrite <- (bool_decide_spec (Some c ∈ _)), G. apply bool_decide_spec.
Qed.

(** The options of saidar with their texts are those of [saidar_options]: the delay and the colours
    when all of them are accepted, else a message and the status 1. *)
Lemma saidar_getopt_agrees version bugreport progname opts : forall delay colouron c,
  match saidar_options opts delay colouron with
  | Some r => saidar_getopt version bugreport progname opts delay colouron c = Done (inr r) c
  | None => exists c', saidar_getopt version bugreport progname opts delay colouron c = Done (inl 1) c' /\
              c_out c' = c_out c /\ c_err c' <> c_err c
  end.
Proof.
  induction opts as [|[ch optarg] opts IH]; intros delay colouron c; [done|]. cbn [saidar_options saidar_getopt].
  assert (forall (m : X console (Z * bool)) c', m c = Done (inl 1) c' -> c_out c' = c_out c ->
    (String.length (c_err c) < String.length (c_err c'))%nat ->
    exists c', m c = Done (inl 1) c' /\ c_out c' = c_out c /\ c_err c' <> c_err c) as D.
  { intros m c' E O L. exists c'. split_and!; [done|done|]. intros Q. rewrite Q in L. lia. }
  assert (forall (a b : string), String.length (a +:+ b) = (String.length a + String.length b)%nat) as SL by apply string_length_app.
  destruct (Ascii.eqb_spec ch "d") as [->|N1].
  { cbn [saidar_option]. destruct (_ <? 1); [|apply IH]. eapply D; [reflexivity|done|]. cbn [c_err on_console get_console put_console console_self].
    rewrite SL. simpl. lia. }
  destruct (Ascii.eqb_spec ch "c") as [->|N2]; [apply IH|].
  assert (saidar_option ch optarg delay colouron = None) as ->.
  { destruct ch as [[] [] [] [] [] [] [] []]; done. }
  destruct (Ascii.eqb_spec ch "v") as [->|N3]; (eapply D; [reflexivity|done|]);
    cbn [c_err on_console get_console put_console console_self]; rewrite !SL; simpl; lia.
Qed.
